(* ===== verification/_CoqProject ===== *)
-Q . S2P
Prelude.v
RustStr.v
Json.v
Proc.v
SeekSequence.v
PatchParser.v
PatchPrint.v
StreamParser.v
StreamFacts.v
ApplyChunks.v
Types.v
Lifecycle.v
Organize.v
Policy.v
Approval.v
Dates.v
Derive.v
Os.v
Utf8.v
TextStream.v
TextStreamFacts.v
TaggedLines.v
AssistantFacts.v
Truncate.v
History.v
HistoryFacts.v
AbsPath.v
NetPolicy.v
NetworkProxy.v
ProxyHandlers.v
NetworkFacts.v
Permissions.v
SandboxRoots.v
PermissionsFacts.v
PolicyTransforms.v
CommandSafety.v
ExecPolicy.v
ExecPolicyFacts.v
ExecRules.v
ExecRulesFacts.v
ExecApproval.v
SandboxManager.v
ExecApprovalFacts.v
RequirementsPolicy.v
Orchestrator.v
OrchestratorFacts.v
NetworkApproval.v
ApplyFs.v
ApplyVerify.v
ApplyFacts.v
PatchSafety.v
PatchDemo.v
NativeHarness.v
NativeFacts.v
ToolCatalog.v
ExecDemo.v
RateLimit.v
AuthStore.v
Keyring.v
AuthFlow.v
AuthFacts.v
AuthSystem.v
AuthSafety.v
AuthGrants.v
Command.v
Workspace.v
Patch.v
Store.v
DemoSerde.v
AuthScenarios.v
StoreFacts.v
Methods.v
QueueViews.v
Handlers.v
Queue.v
QueueFacts.v
Router.v
System.v
Requests.v
Scenarios.v
