(* ===== verification/Prelude.v ===== *)
(** * ChatCodex: verification library

    ChatCodex lets a chat model work on a code base without an agent loop of
    its own, in two ways.  The deterministic harness is a daemon that keeps
    runs in SQLite, answers JSON-RPC requests, gates risky patches and test
    runs behind approvals, and never acts by itself.  The native harness is an
    MCP server whose tools read files, apply patches and run commands in a
    sandbox, behind an OAuth authorization server of its own; it builds on
    crates of the upstream Codex agent for the patch format, paths and the
    safety of commands.  The repository is a fork of that agent, whose own gate
    in front of every tool call is the third part: permission profiles, the
    execution policy for commands, the administrator's requirements, the
    sandbox manager, the orchestrator of tool calls and the proxy through which
    sandboxed commands reach the network; and with it what stands between the
    agent and the model: the parsers of the reply as it streams in, the
    truncation of outputs and the history of the conversation.  This library
    models these parts and the crates they rest on, and proves what makes them
    correct.

    ** Parts of the program and files of the library

    [codex-rs/deterministic-protocol]
    - types.rs: [Types] has a record per struct and an inductive type per enum,
      with the field order and the names of the code (a prefix per record keeps
      projections apart) and a setter per field for in-place updates.
    - methods.rs: [Methods], the 38 methods and their names.

    [codex-rs/deterministic-core], pure operations on a run
    - run_prepare, run_finalize, run_reopen, run_supersede, run_archive,
      run_unarchive, run_refresh, run_replan: [Lifecycle].
    - run_annotate, run_pin, run_unpin, run_snooze, run_unsnooze,
      run_set_priority, run_assign_owner, run_set_due_date,
      run_set_dependencies, run_set_effort: [Organize]; [Dates] has the order of
      due dates.
    - approval_policy: [Policy]; approval: [Approval].
    - run_readiness, run_staleness, run_triage: [Derive].
    - command_runner: [Command].
    - file_read, code_search, git_status, git_diff, workspace_summary,
      tests_run: [Workspace], one module each; patch_apply: [Patch].

    [codex-rs/deterministic-daemon]
    - persistence.rs: [Store] has the tables and the statements on them,
      [StoreFacts] their properties, [DemoSerde] a concrete codec.
    - handlers.rs: [Handlers] has one definition per handler, [Queue] the
      listings and the overview with [QueueFacts] about them, [QueueViews] the
      saved views.
    - [dispatch] of handlers.rs and router.rs: [Router].
    - [System] proves what any sequence of requests preserves, [Requests] what
      single requests guarantee end to end, [Scenarios] has a small concrete
      daemon on which the theorems are applied.

    [codex-rs/native-harness-mcp-auth], the authorization server
    - config.rs, storage.rs: [AuthStore]; keyring.rs, cf_access.rs: [Keyring].
    - token.rs, authorize.rs, clients.rs, discovery.rs, middleware.rs, state.rs
      and the routes of native-harness-mcp/src/lib.rs: [AuthFlow].
    - ratelimit.rs: [RateLimit].
    - [AuthFacts] is about tokens and comparisons, [AuthSystem] has the abstract
      store that the server refines, [AuthSafety] what follows for every
      interleaving of requests, [AuthGrants] what single requests guarantee,
      [AuthScenarios] a concrete server and its runs.

    [codex-rs/native-harness-mcp], the tools
    - lib.rs: [NativeHarness] has the state, the decoding of arguments and the
      eleven tools, [ToolCatalog] the announced schemas and a concrete server, [NativeFacts] the
      properties.

    [codex-rs/apply-patch], [codex-rs/file-system], [codex-rs/utils/absolute-path]
    - parser.rs: [PatchParser], with a printer and the round trip in
      [PatchPrint]; streaming_parser.rs: [StreamParser] and [StreamFacts].
    - seek_sequence.rs: [SeekSequence]; the replacement of lines of lib.rs:
      [ApplyChunks]; hunks against a file system and the delta: [ApplyFs];
      invocation.rs, the preview: [ApplyVerify]; both together: [ApplyFacts];
      concrete patches: [PatchDemo].
    - absolute paths: [AbsPath].

    [codex-rs/shell-command]
    - bash.rs, shell_detect.rs, command_safety/: [CommandSafety], with the
      single command of a heredoc script.

    [codex-rs/protocol], [codex-rs/sandboxing]
    - permissions.rs: [Permissions] has entries, special paths and the access
      they give; [SandboxRoots] the roots of a sandbox, the legacy policies of
      protocol.rs, the deny-read matcher and the profiles of models.rs;
      [PermissionsFacts] is about both.
    - policy_transforms.rs: [PolicyTransforms], merging and intersecting
      permission requests.
    - manager.rs, landlock.rs, and of bwrap.rs the check for WSL 1:
      [SandboxManager].

    [codex-rs/execpolicy]
    - policy.rs, rule.rs, decision.rs, executable_name.rs, error.rs:
      [ExecPolicy], with [ExecPolicyFacts].
    - parser.rs, amend.rs, execpolicycheck.rs: [ExecRules], with
      [ExecRulesFacts].

    [codex-rs/core], [codex-rs/config]
    - exec_policy.rs of core and the sandbox overrides of tools/sandboxing.rs:
      [ExecApproval], with [ExecApprovalFacts].
    - requirements_exec_policy.rs of config: [RequirementsPolicy].
    - tools/orchestrator.rs and the traits and the session store of
      tools/sandboxing.rs: [Orchestrator], with [OrchestratorFacts].
    - safety.rs: [PatchSafety].
    - tools/network_approval.rs, network_policy_decision.rs and the amendments of
      session/mod.rs: [NetworkApproval], the decider and the observer that a
      session gives to the network proxy, with their theorems.
    - context_manager/history.rs and normalize.rs, event_mapping.rs, the marked
      fragments of context/ and [codex-rs/context-fragments], the items of
      protocol/src/models.rs and the token counts of protocol.rs: [History],
      with [HistoryFacts].
    - [ExecDemo] has concrete hosts, rules files, tools and
      patches on which the theorems are applied.

    [codex-rs/utils/stream-parser], [codex-rs/utils/string], [codex-rs/utils/output-truncation]
    - stream_text.rs, inline_hidden_tag.rs, citation.rs: [TextStream], with
      [TextStreamFacts]; tagged_line_parser.rs, proposed_plan.rs,
      assistant_text.rs, utf8_stream.rs: [TaggedLines], with [AssistantFacts];
      the check for UTF-8 of the standard library: [Utf8].
    - truncate.rs, lib.rs of output-truncation and the policies of protocol.rs:
      [Truncate].

    [codex-rs/network-proxy]
    - policy.rs, config.rs: [NetPolicy] has addresses, hosts, domain patterns
      and the settings.
    - mitm_hook.rs, state.rs, runtime.rs: [NetworkProxy] has the interception
      hooks, the administrator's constraints and the operations on the shared
      state.
    - network_policy.rs, responses.rs, connect_policy.rs, the proxy variables of
      upstream.rs, http_proxy.rs, socks5.rs, mitm.rs: [ProxyHandlers].
    - [NetworkFacts] is about all three and has a concrete proxy.

    [RustStr], [Os], [Json] and [Proc] hold what the code uses of Rust: strings
    as byte sequences in UTF-8, paths, lossy decoding, file-system calls, JSON
    values, and processes whose atomic actions interleave.  This file has the
    outcome type, the state monad, sorting and the hint database.

    ** How the code is translated

    - Integers are [N] and [Z]; an operation whose width matters writes the
      bound out (the reopen counter, the step in a 64-bit column, [as u32],
      [usize] subtraction).
    - A [Result] is [res]: a value, an error with its text, or a panic.  Code
      with effects is [M], a function from a world to an outcome and the world
      it leaves, so that what a failing request has written stays.
    - The world of the daemon ([World] of [Store]) is the database, the map of
      saved views, the operating system and a tick; every reading of the clock
      and every random id takes the next tick, in the order of the code.
    - [&mut RunState] becomes the returned state; the clock and random ids of
      the core functions are arguments that the handlers fill in.
    - The asynchronous handlers of the authorization server are [Proc]: a
      sequence of atomic actions, one per critical section of the store or the
      limiter and per reading of the clock, so that a pool of requests steps in
      every order ([pstep]).  Alone, a handler is [run].  The operations and
      handlers of the network proxy are such processes too, one action per
      holding of its lock, per lookup and per reading of the clock; a handler
      ends with an answer or with what is handed to the client that contacts
      the server.
    - The [f64] factor of a truncation policy is computed with the Standard
      Library's SpecFloat.
    - A patch threads the file system and the delta ([Ap] of [ApplyFs]); the
      parsers return [parsed], in which a panic and exhausted fuel are values
      of their own.

    ** What is a parameter

    Code outside the repository is an argument, as a class with a concrete
    instance for the witnesses: Unicode case folding and [{:?}] beyond ASCII
    ([Unicode]); overflow checks of the build ([BuildProfile]); chrono's date
    parser ([Chrono]); the file system and processes ([Os]); the clock and
    random ids ([Env]); serde_json's text of the JSON columns ([Serde], with the
    law that reading gives back what was written, [SerdeLaws]) and of payloads
    ([JsonText], [Wire]); SQLite's row order without ORDER BY, its error texts
    and whether foreign keys are enforced ([Sqlite], [SqliteLaws]); the order of
    a hash map ([HashOrder]).  For the native harness: RSA, SHA-256, base64
    ([Crypto], with [CryptoLaws]: signatures verify, decoding inverts encoding),
    serde_json's texts ([JsonLib], [JsonLaws]), SQLite faults, the clock and
    random bytes ([AuthEnv]), Cloudflare's certificates ([CfEnv]), the url and
    template crates ([WebLib]), form decoding ([UrlDecode]), the process
    environment ([ProcessEnv]); the file system of a patch
    ([ExecutorFileSystem], with [FsLaws]: what reads and writes do to the files),
    diffs and the extraction of a heredoc ([PatchLibs]), the bash grammar
    ([BashGrammar]), and the sandbox, process backend and text forms of the
    tools ([NativeEnv]).  For the gate of the agent: the directories of the
    process ([HostDirs]) and what the sandbox asks of the host ([SandboxHost]),
    globset ([GlobLib]), Starlark ([Starlark] for its values and errors,
    [StarlarkEval] for the evaluator, which yields the calls a file makes),
    shlex ([Shlex]), the rules directories ([RulesDirs]) and the policy file
    ([PolicyFs], with [PolicyFsLaws]: what opening, reading and appending do),
    the JSON text of a profile ([ProfileJson]), and for the orchestrator the
    tool ([Approvable], [Sandboxable], [ToolRuntime]) and the session
    ([Session]): user, hooks, reviewer and network approvals answer as they
    like; for the history the text forms and image sizes of the host
    ([HistoryHost]).  For the network proxy: globset and the URL parser
    ([NetLibs], with [NetLibsLaws]: what globs made of host names match), HTTP
    names and values ([HttpLib]), the HTTP stack ([RamaLib]), the environment,
    the reloader, the resolver and the clock ([NetEnv]) and the observers of
    refusals ([NetObserver]); deciders are arguments of the handlers.  For the
    approvals of access: where the service is kept ([ApprovalExt]) and the turn,
    hooks, reviewer, user and events of the session ([ApprovalSession], with
    [ApprovalSessionLaws]: none of them changes the service or the proxy by
    itself).  Every class of laws has an instance.  Theorems about reachable databases assume that
    foreign keys are enforced, as rusqlite's bundled SQLite does by default, and
    that ids drawn are not in use.

    ** What the theorems show

    - Approvals ([System], [Requests], [Approval], [Policy]): a gated patch or
      test run changes no file and starts no process and waits as a pending
      approval; a preflight predicts the decision; an approval is resolved once
      and moves the run as decided; the policy is characterised edit by edit and
      is monotone.
    - Persistence ([StoreFacts], [System]): the runs table refines a finite map;
      every reachable database is well formed; as long as ids are fresh runs keep
      their identity and the audit trail only grows; listings and histories are sound, ordered, bounded
      and complete.
    - Requests ([Router], [Requests]): error codes, and what each method may
      touch.
    - Lifecycle and organization: the status and the outcome agree along every
      sequence of operations, finalizing and reopening cancel, supersession
      links both ways, organizing never touches the lifecycle; labels,
      dependencies and due dates are normalised as documented.
    - Workspace ([Workspace], [Patch]): reads and patches without [create] stay
      below the workspace root; line ranges are read and replaced exactly.
    - Queue ([Derive], [QueueFacts], [QueueViews]): readiness, staleness and
      triage by cases; a listing is one selection and order; the overview counts
      what it names; saved views keep unique names.
    - Authorization ([AuthSystem], [AuthSafety], [AuthGrants], [AuthFacts],
      [RateLimit]): under every interleaving the database moves by steps of an
      abstract store, an authorization code is exchanged once and a revoked
      token stays refused; tokens are issued only for a matching code, client,
      redirect URI and verifier, are accepted while they last, and a JWT is
      accepted exactly when every check passes; the comparison that takes
      constant time is equality; the limiter admits less than twice its limit
      in any window.
    - Patches ([PatchParser], [PatchPrint], [StreamFacts], [ApplyChunks],
      [ApplyFs], [ApplyFacts]): the parser ends on every text and reads every
      printed patch back, so does the streaming parser however the text is cut
      (but for white space at the end of contexts and destinations), and its
      preview only grows; a replacement is a splice and an
      update an edit; an exact delta replays and undoes what was done; what the
      preview showed is what is applied; applying never panics.
    - Commands ([CommandSafety]): a command approved without asking is a safe
      direct call or a script of allowed constructs and safe commands, and what is known safe is never
      called dangerous.
    - Permissions ([PermissionsFacts], [PolicyTransforms]): access is that of
      the most specific entry; the workspace policy lets exactly the workspace
      be written but for its metadata; legacy policies and profiles survive
      conversion; denied reads are found through every spelling of a path; the
      intersection of a request and a grant reads no more than either and keeps
      the deny patterns of both, and a merge reads no more than its parts.
    - Execution policy ([ExecPolicyFacts], [ExecRulesFacts]): a rule matches
      exactly its prefixes; the strictest match decides, in whatever order rules
      were added; merging never loosens; examples hold in an accepted file;
      appending a rule adds its line once and changes nothing else.
    - Command approval ([ExecApprovalFacts], [RequirementsPolicy]): the
      requirement for a command is decided by its strictest segment; the sandbox
      is left only with a reason; what the administrator requires is never
      skipped when every rules file parses; an amendment works once it was added, and an update is in the file
      before it is in memory.
    - Sandbox and orchestrator ([SandboxManager], [OrchestratorFacts],
      [PatchSafety]): a command is built for the permissions asked for and no
      more, or the Linux helper's paths are not UTF-8; no
      attempt without an approving decision, at most two attempts, the second
      with an approval of its own; session approvals answer only what was
      approved; a patch with a hunk per file that is approved without asking
      changes only files that may be written.
    - Tools ([NativeFacts], [ToolCatalog]): results conform to the announced
      schemas and announced arguments are read; read-only tools leave files,
      plan and checklist alone; paths stay in the workspace; plan and sessions
      keep their invariant.
    - Streamed text ([TextStreamFacts], [AssistantFacts]): however a reply is
      cut into pieces, citations, shown text and plan segments are those of the
      whole text; bytes are handed on as the text they encode, and what is no
      text is reported.
    - Truncation ([Truncate]): a text within its budget is kept, a longer one is
      cut in the middle at characters and says how much is missing.
    - History ([HistoryFacts]): what the model is sent pairs calls and outputs by
      their ids, whatever was recorded; dropping the oldest item keeps the pairs; a
      rollback drops exactly the turns asked for and the context before them.
    - Network ([NetworkFacts]): under every interleaving of requests and
      operations the configuration satisfies the administrator's constraints and
      the compiled lists of plain domains stay within the managed ones; a server
      is contacted only after the checks of the lists and of local addresses, and in limited
      mode only by reading requests; a decider can only let unlisted hosts
      through; a plain host that was denied is denied in every spelling; the
      comparison of patterns is exact, and the ranges of addresses that are not
      public are those listed.
    - Approvals of access ([NetworkApproval]): under every interleaving of
      requests and tool calls no host is approved and denied at once and a
      decision that others wait for never changes; with the session's decider a
      host on no list is contacted only when somebody agreed; and with its
      decider and observer the lists stay within the administrator's
      constraints.
    - Theorems that state a defect of the code say so in their text: approved
      patches stay gated, [create] writes before its check, sorting by triage
      puts critical runs last, [run.get] ignores unarchiving, a run is archived
      at most once, replanning can strand a finalized run or panic, two
      refreshes can race, a read error replaces the signing key, a denied
      consent redirects unchecked, a file moved to itself is deleted, changes
      that meet at the end of a file lose a line, a range that ends before it
      starts panics, an intersection loses read-only carve-outs, a broken rules
      file drops the administrator's requirements, a rule for a full path shadows
      one for the name, a second hunk hides the move of the first from the safety
      check, items that share an id are left unpaired by a drop, the names in a
      second Connection header are forwarded, a reload can lose a refusal, a
      dropped request for access leaves all later ones waiting, the constraints do
      not tell addresses of version 6 apart, the deny pattern [/.*] is lost in an
      intersection, a directory whose name is not UTF-8 makes the sandbox panic.

    ** Fuel

    [lines], the quoting of [{:?}] and the lossy decoder shorten their input by
    at least a byte in each round, so the fuel is the number of bytes;
    [resolve_command] calls itself once, on a framework name, so the fuel is 2
    ([resolve_command_terminates] shows that it is never used up).  The loops of
    [PatchParser] take at least a line per round and have the number of lines as
    fuel ([parse_patch_total] shows that they never run out); the walk of
    [CommandSafety] has the number of nodes, [detect_shell_type] the length of
    the path.  The walks over a heredoc script have the number of nodes
    ([heredoc_prefix_sound] goes through them), the ancestors of a path its
    length, and the search for a WSL version the length of the text
    ([wsl_version_fuel]).  The parser of hidden tags drops a delimiter in every
    round and has a round more than the text has bytes; the reading of UTF-8
    takes at least a byte per round; the removal of Connection headers removes
    one of the headers per round and has their number.  [set_network_mode] and
    [update_rounds] go round again only when the constraints or the
    configuration changed in between; they are given the number of rounds and
    answer [None] when it is used up, and [added_denial_blocks] shows that one
    is enough without such a change.  [wait_for_decision] has a round per look at
    the decision; without one it answers [None], and [decided_wait_ends] shows
    that two rounds are enough once there is one.  [conforms] descends as deep as the schemas of the catalog nest.

    ** What is not modelled

    Migration of older databases and the opening of the file; connection and
    lock failures of the daemon's store; the HTTP layers, metrics, tracing and
    CORS; the start of the servers; the texts of the native harness's prompts;
    the process backend and the operating-system side of the sandboxes
    (seatbelt profiles, bubblewrap arguments, seccomp); the tree-sitter query
    that finds a heredoc; Windows; the TypeScript gateway; of the network proxy
    its listeners, certificates, TLS, forwarding of bytes and log lines; of the
    upstream agent the model client, the session loop, the app server and the
    user interfaces.

    ** Extensions that would fit

    The migration of older databases as a function on tables; the merging of
    configuration layers. *)

From Stdlib Require Export Ascii String.
From stdpp Require Export base tactics option strings gmap pretty numbers list sorting.

(** ** Machine integers

    Unsigned Rust integers are [N], signed ones [Z]; where the width matters
    the operation writes the bound out. *)

Abbreviation usize := N (only parsing).
Abbreviation u64 := N (only parsing).
Abbreviation u32 := N (only parsing).
Abbreviation i64 := Z (only parsing).
Abbreviation i32 := Z (only parsing).

Definition u32_max : N := 4294967295.
Definition i64_max : N := 9223372036854775807.

(** ** Outcome of a Rust call: a value, an [anyhow::Error], or a panic *)

Inductive res (A : Type) : Type :=
| Ok (a : A)
| Err (msg : string)
| Panic.
Arguments Ok {A} a.
Arguments Err {A} msg.
Arguments Panic {A}.

#[export] Instance res_ret : MRet res := λ A a, Ok a.
#[export] Instance res_bind : MBind res := λ A B f m,
  match m with Ok a => f a | Err e => Err e | Panic => Panic end.
#[export] Instance res_fmap : FMap res := λ A B f m,
  match m with Ok a => Ok (f a) | Err e => Err e | Panic => Panic end.

(** [anyhow::ensure!]. *)
Definition ensure (b : bool) (msg : string) : res () :=
  if b then Ok () else Err msg.

(** [Option::ok_or_else]. *)
Definition ok_or {A} (o : option A) (msg : string) : res A :=
  match o with Some a => Ok a | None => Err msg end.

(** [Result::ok]. *)
Definition res_ok {A} (r : res A) : option A :=
  match r with Ok a => Some a | _ => None end.

Definition is_ok {A} (r : res A) : bool :=
  match r with Ok _ => true | _ => false end.

(** ** Effectful code: state passing with an outcome

    The world left behind by a failing or panicking call is kept: the
    database writes it made before failing stay. *)

Definition M (W A : Type) : Type := W → res A * W.

#[export] Instance M_ret W : MRet (M W) := λ A a w, (Ok a, w).
#[export] Instance M_bind W : MBind (M W) := λ A B f m w,
  match m w with
  | (Ok a, w') => f a w'
  | (Err e, w') => (Err e, w')
  | (Panic, w') => (Panic, w')
  end.

(** Lift a pure fallible computation ([?] in a handler). *)
Definition lift {W A} (r : res A) : M W A := λ w, (r, w).

(** Read a component of the world. *)
Definition gets {W A} (f : W → A) : M W A := λ w, (Ok (f w), w).

(** Update the world. *)
Definition modify {W} (f : W → W) : M W () := λ w, (Ok (), f w).

(** [let _ = e;]: run [e] and drop its error. A panic is not dropped. *)
Definition ignore {W A} (m : M W A) : M W () := λ w,
  match m w with
  | (Panic, w') => (Panic, w')
  | (_, w') => (Ok (), w')
  end.

(** ** Inversion of monadic equations *)

Lemma res_bind_Ok {A B} (m : res A) (f : A → res B) b :
  (m ≫= f) = Ok b ↔ ∃ a, m = Ok a ∧ f a = Ok b.
Proof. destruct m; cbn; naive_solver. Qed.

Lemma ensure_Ok b msg u : ensure b msg = Ok u ↔ b = true.
Proof. destruct b, u; cbn; naive_solver. Qed.

Lemma ok_or_Ok {A} (o : option A) msg a : ok_or o msg = Ok a ↔ o = Some a.
Proof. destruct o; cbn; naive_solver. Qed.

(** Every way the world can change through a bind. *)
Lemma M_bind_run {W A B} (m : M W A) (f : A → M W B) w :
  (m ≫= f) w =
  match m w with
  | (Ok a, w') => f a w'
  | (Err e, w') => (Err e, w')
  | (Panic, w') => (Panic, w')
  end.
Proof. reflexivity. Qed.

(** A relation on worlds that every step of a computation respects.  It is
    how frame facts ("this method never writes the database") compose. *)
Definition respects {W A} (R : W → W → Prop) (m : M W A) : Prop :=
  ∀ w, R w (snd (m w)).

Section respects.
Context {W : Type} (R : W → W → Prop) `{!PreOrder R}.

Lemma respects_ret {A} (a : A) : respects R (mret a).
Proof. intros w. cbn. reflexivity. Qed.

Lemma respects_lift {A} (r : res A) : respects R (lift r).
Proof. intros w. cbn. reflexivity. Qed.

Lemma respects_gets {A} (f : W → A) : respects R (gets f).
Proof. intros w. cbn. reflexivity. Qed.

Lemma respects_modify (f : W → W) : (∀ w, R w (f w)) → respects R (modify f).
Proof. intros Hf w. apply Hf. Qed.

Lemma respects_bind {A B} (m : M W A) (f : A → M W B) :
  respects R m → (∀ a, respects R (f a)) → respects R (m ≫= f).
Proof.
  intros Hm Hf w. rewrite M_bind_run. specialize (Hm w).
  destruct (m w) as [[a|e|] w']; cbn in *; [|done..].
  etrans; [done|apply Hf].
Qed.

Lemma respects_ignore {A} (m : M W A) : respects R m → respects R (ignore m).
Proof.
  intros Hm w. unfold ignore. specialize (Hm w).
  destruct (m w) as [[a|e|] w']; done.
Qed.
End respects.

(** ** Hint database and tactics of the development *)

Create HintDb harness.
#[export] Hint Resolve respects_ret respects_lift respects_gets
  respects_bind respects_ignore : harness.

(** Split every [bind = Ok] hypothesis into its steps. *)
Ltac res_inv :=
  repeat match goal with
  | H : mbind _ _ = Ok _ |- _ =>
      apply res_bind_Ok in H; destruct H as (? & ? & H)
  | H : ensure _ _ = Ok _ |- _ => apply ensure_Ok in H
  | H : ok_or _ _ = Ok _ |- _ => apply ok_or_Ok in H
  | H : Ok _ = Ok _ |- _ => injection H as H
  | H : Err _ = Ok _ |- _ => discriminate H
  | H : Panic = Ok _ |- _ => discriminate H
  | H : mret _ = Ok _ |- _ => unfold mret, res_ret in H
  end; subst.

(** Case on the condition or scrutinee the goal is stuck on. *)
Ltac case_goal :=
  match goal with
  | |- context [match ?x with _ => _ end] => destruct x eqn:?
  end.

(** ** In-place update of a struct field

    [mk_setter eta proj] builds the function that replaces the field [proj],
    from the eta-expansion [eta] of the record. *)
Ltac mk_setter eta proj :=
  let v := fresh "v" in
  let x := fresh "x" in
  intros v x;
  let e := eval cbv beta delta [eta] in (eta x) in
  let g := eval pattern (proj x) in e in
  match g with ?f _ => let r := eval cbv beta in (f v) in exact r end.

(** ** Lists *)

(** Rust's stable [sort_by], written as an insertion sort: the result of a
    stable sort is determined by the order, so the algorithm is immaterial. *)
Fixpoint insert_by {A} (le : A → A → bool) (x : A) (l : list A) : list A :=
  match l with
  | [] => [x]
  | y :: l' => if le x y then x :: y :: l' else y :: insert_by le x l'
  end.

Definition sort_by {A} (le : A → A → bool) (l : list A) : list A :=
  foldr (insert_by le) [] l.

Section sort_by.
Context {A : Type} (le : A → A → bool).

Lemma insert_by_perm x l : insert_by le x l ≡ₚ x :: l.
Proof.
  induction l as [|y l IH]; cbn; [done|].
  destruct (le x y); [done|]. rewrite IH. apply Permutation_swap.
Qed.

Lemma sort_by_perm l : sort_by le l ≡ₚ l.
Proof.
  induction l as [|x l IH]; cbn; [done|].
  by rewrite insert_by_perm, IH.
Qed.

Lemma sort_by_elem x l : x ∈ sort_by le l ↔ x ∈ l.
Proof. by rewrite sort_by_perm. Qed.

Lemma length_sort_by l : length (sort_by le l) = length l.
Proof. apply Permutation_length, sort_by_perm. Qed.

Lemma sort_by_NoDup l : NoDup l → NoDup (sort_by le l).
Proof. by rewrite sort_by_perm. Qed.

Context (le_trans : ∀ x y z, le x y → le y z → le x z)
        (le_total : ∀ x y, le x y ∨ le y x).

Lemma insert_by_sorted x l :
  StronglySorted (λ a b, le a b) l →
  StronglySorted (λ a b, le a b) (insert_by le x l).
Proof.
  induction 1 as [|y l Hl IH Hy]; cbn; [repeat constructor|].
  destruct (le x y) eqn:E.
  - constructor; [by constructor|]. constructor; [by rewrite E|].
    eapply Forall_impl; [exact Hy|]. intros z Hz. eapply le_trans; [|exact Hz].
    by rewrite E.
  - constructor; [done|]. rewrite insert_by_perm. constructor; [|done].
    destruct (le_total x y) as [?|?]; [by rewrite E in *|done].
Qed.

Lemma sort_by_sorted l : StronglySorted (λ a b, le a b) (sort_by le l).
Proof.
  induction l as [|x l IH]; cbn; [constructor|]. by apply insert_by_sorted.
Qed.
End sort_by.

(** [Vec::dedup]: drop an element equal to the one before it. *)
Fixpoint dedup {A} `{!EqDecision A} (l : list A) : list A :=
  match l with
  | [] => []
  | x :: l' =>
      match dedup l' with
      | [] => [x]
      | y :: r => if decide (x = y) then y :: r else x :: y :: r
      end
  end.

(** [Vec::contains]. *)
Definition contains_elem {A} `{!EqDecision A} (l : list A) (x : A) : bool :=
  bool_decide (x ∈ l).

(** [slice::first matching]: [Iterator::find]. *)
Fixpoint find_first {A} (f : A → bool) (l : list A) : option A :=
  match l with
  | [] => None
  | x :: l' => if f x then Some x else find_first f l'
  end.

Lemma sort_by_id {A} (le : A → A → bool) l : StronglySorted (λ a b, le a b) l → sort_by le l = l.
Proof.
  induction 1 as [|x l _ IH Hx]; [done|].
  change (sort_by le (x :: l)) with (insert_by le x (sort_by le l)). rewrite IH. destruct l as [|y l]; [done|].
  cbn. apply Forall_cons in Hx as [Hx _]. by rewrite (Is_true_eq_true _ Hx).
Qed.

Lemma filter_perm {A} (f : A → bool) l k : l ≡ₚ k → List.filter f l ≡ₚ List.filter f k.
Proof.
  induction 1 as [|x l k _ IH|x y l|l1 l2 l3 _ IH1 _ IH2]; cbn; [done| | |by etrans].
  - destruct (f x); [by constructor|done].
  - destruct (f x), (f y); try done. apply Permutation_swap.
Qed.

Lemma elem_of_concat {A} (x : A) ls : x ∈ concat ls ↔ ∃ l, l ∈ ls ∧ x ∈ l.
Proof. rewrite list_elem_of_In, in_concat. by setoid_rewrite list_elem_of_In. Qed.

Lemma existsb_perm {A} (f : A → bool) l k : l ≡ₚ k → existsb f l = existsb f k.
Proof.
  intros Hp. apply eq_true_iff_eq. rewrite !existsb_exists. setoid_rewrite <-list_elem_of_In. by setoid_rewrite Hp.
Qed.

Lemma find_first_Some {A} (f : A → bool) l x :
  find_first f l = Some x → x ∈ l ∧ f x = true.
Proof.
  induction l as [|y l IH]; cbn; [done|]. destruct (f y) eqn:E.
  - intros [= ->]. split; [left|done].
  - intros H. destruct (IH H). split; [by right|done].
Qed.

Lemma find_first_None {A} (f : A → bool) l :
  find_first f l = None ↔ Forall (λ x, f x = false) l.
Proof.
  induction l as [|y l IH]; cbn; [by split|]. rewrite Forall_cons.
  destruct (f y) eqn:E; naive_solver.
Qed.

(** [Vec::len] as a machine integer. *)
Definition len {A} (l : list A) : usize := N.of_nat (length l).
