(* ===== verification/RustStr.v ===== *)
(** * Rust strings

    A Rust [String] or [&str] is its UTF-8 bytes, a [string].  The file holds
    the operations of [str] the harness uses: length in bytes, slicing with
    its panics, [trim], [to_lowercase], [lines], searching, splitting,
    parsing of integers and the [Debug] form.  Two Unicode tables of the
    Rust library are not written out and are the fields of [Unicode]: lower
    case of a string with a non-ASCII byte, and the [Debug] form of one
    non-ASCII character. *)

From S2P Require Import Prelude.
From Stdlib Require Import OrderedTypeEx.

Declare Scope harness_scope.
Delimit Scope harness_scope with harness.
Open Scope harness_scope.
Open Scope string_scope.
Open Scope list_scope.

(** [==] on strings. *)
Notation "a == b" := (String.eqb a b) (at level 70, no associativity) : harness_scope.

Class Unicode := {
  uni_lower : string → string;
  uni_debug : string → string
}.

Definition str_len (s : string) : usize := N.of_nat (String.length s).

Definition str_is_empty (s : string) : bool := s == "".

Definition byte (a : ascii) : N := N_of_ascii a.

(** ** ASCII classes and case *)

Definition in_range (lo hi : N) (a : ascii) : bool :=
  (lo <=? byte a)%N && (byte a <=? hi)%N.

Definition is_ascii_digit (a : ascii) : bool := in_range 48 57 a.
Definition is_ascii_lower (a : ascii) : bool := in_range 97 122 a.

Definition ascii_lower (a : ascii) : ascii :=
  if in_range 65 90 a then ascii_of_N (byte a + 32) else a.

Fixpoint str_forall (f : ascii → bool) (s : string) : bool :=
  match s with
  | EmptyString => true
  | String a s' => f a && str_forall f s'
  end.

Fixpoint str_map (f : ascii → ascii) (s : string) : string :=
  match s with
  | EmptyString => EmptyString
  | String a s' => String (f a) (str_map f s')
  end.

Definition to_ascii_lowercase (s : string) : string := str_map ascii_lower s.

Definition eq_ignore_ascii_case (a b : string) : bool := to_ascii_lowercase a == to_ascii_lowercase b.

Definition is_ascii (s : string) : bool := str_forall (λ a, (byte a <? 128)%N) s.

(** [str::to_lowercase]. *)
Definition to_lowercase `{Unicode} (s : string) : string :=
  if is_ascii s then str_map ascii_lower s else uni_lower s.

(** ** Prefixes and substrings *)

Definition starts_with (s p : string) : bool := String.prefix p s.

Fixpoint str_drop (n : nat) (s : string) : string :=
  match n, s with
  | O, _ => s
  | S n', String _ s' => str_drop n' s'
  | S _, EmptyString => EmptyString
  end.

Fixpoint str_take (n : nat) (s : string) : string :=
  match n, s with
  | O, _ => EmptyString
  | S n', String a s' => String a (str_take n' s')
  | S _, EmptyString => EmptyString
  end.

(** [str::strip_prefix]. *)
Definition strip_prefix (p s : string) : option string :=
  if starts_with s p then Some (str_drop (String.length p) s) else None.

(** Byte offset of the first occurrence of [p]. *)
Fixpoint str_find (p s : string) : option nat :=
  if starts_with s p then Some 0
  else match s with
       | EmptyString => None
       | String _ s' => S <$> str_find p s'
       end.

(** [str::contains]. *)
Definition str_contains (s p : string) : bool :=
  match str_find p s with Some _ => true | None => false end.

(** [str::ends_with]. *)
Definition str_ends_with (s p : string) : bool :=
  (String.length p <=? String.length s)%nat && (str_drop (String.length s - String.length p) s == p).

(** [str::split_once] at a text. *)
Definition split_once (s sep : string) : option (string * string) :=
  (λ i, (str_take i s, str_drop (i + String.length sep) s)) <$> str_find sep s.

(** [rsplit_once]: around the last occurrence. *)
Fixpoint str_rfind (p s : string) : option nat :=
  match s with
  | EmptyString => if starts_with s p then Some 0%nat else None
  | String _ s' =>
      match str_rfind p s' with
      | Some i => Some (S i)
      | None => if starts_with s p then Some 0%nat else None
      end
  end.

Definition rsplit_once (p s : string) : option (string * string) :=
  i ← str_rfind p s; Some (str_take i s, str_drop (i + String.length p) s).

(** The order in which a hash map or set is visited. *)
Class HashOrder := hash_order : ∀ {A}, list A → list A.
Class HashOrderLaws `{HashOrder} := hash_perm : ∀ {A} (l : list A), hash_order l ≡ₚ l.

(** [str::replacen(old, new, 1)]. *)
Definition replace_first (s old new : string) : string :=
  match str_find old s with
  | Some i => str_take i s +:+ new +:+ str_drop (i + String.length old) s
  | None => s
  end.

(** ** Slicing: [&s[..n]] panics off a character boundary *)

Definition is_continuation (a : ascii) : bool := in_range 128 191 a.

Definition is_char_boundary (s : string) (n : nat) : bool :=
  match String.get n s with
  | Some a => negb (is_continuation a)
  | None => (n =? String.length s)%nat
  end.

Definition slice_to (s : string) (n : nat) : res string :=
  if is_char_boundary s n then Ok (str_take n s) else Panic.

(** [s.get(n..)]: the checked slice. *)
Definition get_from (s : string) (n : nat) : option string :=
  if is_char_boundary s n then Some (str_drop n s) else None.

(** ** White space ([char::is_whitespace], the White_Space property)

    The characters of one, two and three UTF-8 bytes that have it. *)

Definition ws1 (a : ascii) : bool := in_range 9 13 a || (byte a =? 32)%N.

Definition ws2 (a b : ascii) : bool :=
  (byte a =? 194)%N && ((byte b =? 133)%N || (byte b =? 160)%N).

Definition ws3 (a b c : ascii) : bool :=
  let '(x, y, z) := (byte a, byte b, byte c) in
  (((x =? 225) && (y =? 154) && (z =? 128)) ||
  ((x =? 226) && (y =? 128) && ((128 <=? z) && (z <=? 138) || (z =? 168) || (z =? 169) || (z =? 175))) ||
  ((x =? 226) && (y =? 129) && (z =? 159)) ||
  ((x =? 227) && (y =? 128) && (z =? 128)))%N.

Fixpoint trim_start (s : string) : string :=
  match s with
  | String a s1 =>
      if ws1 a then trim_start s1 else
      match s1 with
      | String b s2 =>
          if ws2 a b then trim_start s2 else
          match s2 with
          | String c s3 => if ws3 a b c then trim_start s3 else s
          | EmptyString => s
          end
      | EmptyString => s
      end
  | EmptyString => s
  end.

(** The same from the other end, on the reversed bytes. *)
Fixpoint trim_start_rev (s : string) : string :=
  match s with
  | String a s1 =>
      if ws1 a then trim_start_rev s1 else
      match s1 with
      | String b s2 =>
          if ws2 b a then trim_start_rev s2 else
          match s2 with
          | String c s3 => if ws3 c b a then trim_start_rev s3 else s
          | EmptyString => s
          end
      | EmptyString => s
      end
  | EmptyString => s
  end.

Fixpoint str_rev_app (s acc : string) : string :=
  match s with
  | EmptyString => acc
  | String a s' => str_rev_app s' (String a acc)
  end.

Definition str_rev (s : string) : string := str_rev_app s "".

Definition trim_end (s : string) : string := str_rev (trim_start_rev (str_rev s)).

(** [str::trim]. *)
Definition trim (s : string) : string := trim_end (trim_start s).

(** [str::trim_end_matches] with a character. *)
Fixpoint drop_leading (c : ascii) (s : string) : string :=
  match s with
  | String a s' => if Ascii.eqb a c then drop_leading c s' else s
  | EmptyString => s
  end.

Definition trim_end_char (c : ascii) (s : string) : string := str_rev (drop_leading c (str_rev s)).

(** Does a white-space character start here? *)
Definition ws_at (s : string) : bool :=
  match s with
  | String a s1 =>
      ws1 a ||
      match s1 with
      | String b s2 =>
          ws2 a b || match s2 with String c _ => ws3 a b c | EmptyString => false end
      | EmptyString => false
      end
  | EmptyString => false
  end.

Fixpoint take_token (s : string) : string :=
  match s with
  | EmptyString => EmptyString
  | String a s' => if ws_at s then EmptyString else String a (take_token s')
  end.

(** [s.split_whitespace().next().unwrap_or("")]. *)
Definition first_token (s : string) : string := take_token (trim_start s).

(** ** Characters *)

(** Number of bytes of the character a leading byte starts. *)
Definition char_width (a : ascii) : nat :=
  let n := byte a in
  if (n <? 128)%N then 1 else if (n <? 224)%N then 2 else if (n <? 240)%N then 3 else 4.

(** [s.chars().find(|c| !ok(c))] for a predicate that holds of ASCII
    characters only: the first offending character, as its bytes. *)
Fixpoint find_bad_char (ok : ascii → bool) (s : string) : option string :=
  match s with
  | EmptyString => None
  | String a s' => if ok a then find_bad_char ok s' else Some (str_take (char_width a) s)
  end.

(** ** Splitting *)

Definition newline : ascii := "010"%char.
Definition carriage_return : ascii := "013"%char.

(** The bytes before the first [c], and those after it if there is one. *)
Fixpoint split_at_char (c : ascii) (s : string) : string * option string :=
  match s with
  | EmptyString => ("", None)
  | String a s' =>
      if Ascii.eqb a c then ("", Some s')
      else let '(l, r) := split_at_char c s' in (String a l, r)
  end.

(** [s.split(c).next()]. *)
Definition split_first (c : ascii) (s : string) : string := fst (split_at_char c s).

(** [str::split] by a character: the pieces between its occurrences, one more
    than there are occurrences. *)
Fixpoint split_char (c : ascii) (s : string) : list string :=
  match s with
  | EmptyString => [""]
  | String a s' =>
      if Ascii.eqb a c then "" :: split_char c s'
      else match split_char c s' with
           | x :: l => String a x :: l
           | [] => [String a ""]
           end
  end.

(** Drop one trailing ['\r'] (it precedes a ['\n']). *)
Definition strip_cr (s : string) : string :=
  match str_rev s with
  | String a r => if Ascii.eqb a carriage_return then str_rev r else s
  | EmptyString => s
  end.

(** [str::lines]; the fuel is the number of bytes, each round drops one. *)
Fixpoint lines_fuel (n : nat) (s : string) : list string :=
  match n with
  | O => []
  | S n' =>
      if str_is_empty s then []
      else match split_at_char newline s with
           | (l, Some r) => strip_cr l :: lines_fuel n' r
           | (l, None) => [l]
           end
  end.

Definition lines (s : string) : list string := lines_fuel (String.length s) s.

(** [slice::join]. *)
Definition join (sep : string) (l : list string) : string := String.concat sep l.

(** ** Numbers *)

Definition digit_value (a : ascii) : option N :=
  if is_ascii_digit a then Some (byte a - 48)%N else None.

Fixpoint digits_value (acc : N) (s : string) : option N :=
  match s with
  | EmptyString => Some acc
  | String a s' => d ← digit_value a; digits_value (acc * 10 + d) s'
  end.

(** [str::parse] at an unsigned type with the given maximum: an optional
    ['+'], at least one digit, no overflow. *)
Definition parse_uint (max : N) (s : string) : option N :=
  let body := match s with
              | String a s' => if Ascii.eqb a "+"%char then s' else s
              | EmptyString => s
              end in
  if str_is_empty body then None
  else n ← digits_value 0 body; if (n <=? max)%N then Some n else None.

(** ** The [Debug] form of a string and of a list of strings *)

Definition hex_digit (n : N) : ascii :=
  ascii_of_N (if (n <? 10)%N then 48 + n else 87 + n).

Definition debug_ascii (a : ascii) : string :=
  match byte a with
  | 0%N => "\0" | 9%N => "\t" | 10%N => "\n" | 13%N => "\r" | 92%N => "\\"
  | 34%N => String "\"%char (String a "")
  | n => if (n <? 16)%N then "\u{" +:+ String (hex_digit n) "}"
         else if (n <? 32)%N || (n =? 127)%N then
           "\u{" +:+ String (hex_digit (n / 16)) (String (hex_digit (n mod 16)) "}")
         else String a ""
  end.

(** A multi-byte character is handed to the table as a whole. *)
Fixpoint debug_chars `{Unicode} (fuel : nat) (s : string) : string :=
  match fuel, s with
  | S fuel', String a s' =>
      if (byte a <? 128)%N then debug_ascii a +:+ debug_chars fuel' s'
      else uni_debug (str_take (char_width a) s) +:+
           debug_chars fuel' (str_drop (char_width a) s)
  | _, _ => ""
  end.

Definition quote : string := String (ascii_of_N 34) "".

Definition debug_str `{Unicode} (s : string) : string :=
  quote +:+ debug_chars (String.length s) s +:+ quote.

Definition debug_list `{Unicode} (l : list string) : string :=
  "[" +:+ join ", " (map debug_str l) +:+ "]".

(** ** Hexadecimal *)

(** [{:02x}] and [{:02X}] of a byte. *)
Definition hex_byte (a : ascii) : string :=
  String (hex_digit (byte a / 16)) (String (hex_digit (byte a mod 16)) "").

Definition hex_digit_upper (n : N) : ascii :=
  ascii_of_N (if (n <? 10)%N then 48 + n else 55 + n).

Definition hex_byte_upper (a : ascii) : string :=
  String (hex_digit_upper (byte a / 16)) (String (hex_digit_upper (byte a mod 16)) "").

(** ** Order: byte-wise lexicographic *)

Definition str_le (a b : string) : bool := String.leb a b.
Definition str_lt (a b : string) : bool := String.ltb a b.

(** [Vec<String>::sort]. *)
Definition sort_strings (l : list string) : list string := sort_by str_le l.

(** The derived order on [Vec<String>]. *)
Fixpoint words_le (a b : list string) : bool :=
  match a, b with
  | [], _ => true
  | _ :: _, [] => false
  | x :: a', y :: b' => if x == y then words_le a' b' else str_le x y
  end.

(** ** Lemmas *)

#[local] Arguments String.append !_ _ / : simpl nomatch.

Lemma str_eqb_refl s : (s == s) = true.
Proof. apply String.eqb_refl. Qed.

(** The order on strings is a total order. *)
Lemma str_le_cons a b s t :
  str_le (String a s) (String b t) ↔
  (byte a < byte b)%N ∨ (byte a = byte b ∧ str_le s t).
Proof.
  unfold str_le, String.leb, Ascii.compare, byte. cbn. unfold Ascii.compare.
  destruct (N.compare_spec (N_of_ascii a) (N_of_ascii b)) as [E|E|E];
    split; intros H; try done; [auto|..]; try (left; lia); destruct H; lia || tauto.
Qed.

Lemma str_le_refl x : str_le x x.
Proof. induction x; [done|]. apply str_le_cons. auto. Qed.

Lemma str_le_trans x y z : str_le x y → str_le y z → str_le x z.
Proof.
  revert y z. induction x as [|a x IH]; intros [|b y] [|c z]; try done.
  rewrite !str_le_cons. intros [?|[??]] [?|[??]]; [left; lia..|right].
  split; [lia|eauto].
Qed.

Lemma str_le_total x y : str_le x y ∨ str_le y x.
Proof.
  destruct (String.leb_total x y) as [H|H]; [left|right]; unfold str_le; by rewrite H.
Qed.

Lemma str_le_antisym x y : str_le x y → str_le y x → x = y.
Proof. intros. by apply String.leb_antisym; apply Is_true_eq_true. Qed.

Lemma sort_strings_sorted l : StronglySorted (λ a b, str_le a b) (sort_strings l).
Proof. apply sort_by_sorted; [apply str_le_trans|apply str_le_total]. Qed.

(** A sorted list is its own sort: normal forms are fixed points. *)
Lemma sort_strings_id l : StronglySorted (λ a b, str_le a b) l → sort_strings l = l.
Proof.
  induction 1 as [|x l _ IH Hx]; [done|].
  change (sort_strings (x :: l)) with (insert_by str_le x (sort_strings l)). rewrite IH.
  destruct l as [|y l]; [done|]. cbn. apply Forall_cons in Hx as [Hx _].
  by rewrite (Is_true_eq_true _ Hx).
Qed.

(** [dedup] after [sort]: no duplicates, same elements, still sorted. *)
Lemma dedup_elem `{EqDecision A} (l : list A) x : x ∈ dedup l ↔ x ∈ l.
Proof.
  induction l as [|y l IH]; [done|]. cbn. rewrite elem_of_cons, <- IH.
  destruct (dedup l) as [|z r]; [set_solver|]. case_decide; set_solver.
Qed.

Section dedup.
Context {A : Type} `{!EqDecision A} (le : A → A → bool).

Lemma dedup_sorted l : StronglySorted (λ a b, le a b) l → StronglySorted (λ a b, le a b) (dedup l).
Proof.
  induction 1 as [|x l Hl IH Hx]; [constructor|]. cbn.
  assert (Forall (λ y, le x y) (dedup l)) as Hx'.
  { rewrite Forall_forall in Hx |- *. intros y. rewrite dedup_elem. apply Hx. }
  destruct (dedup l) as [|y r]; [by repeat constructor|].
  case_decide; [done|by constructor].
Qed.

Lemma dedup_NoDup l :
  (∀ x y, le x y → le y x → x = y) → StronglySorted (λ a b, le a b) l → NoDup (dedup l).
Proof.
  intros Hanti. induction 1 as [|x l Hl IH Hx]; [constructor|]. cbn.
  pose proof (dedup_sorted l Hl) as Hd.
  assert (Forall (λ y, le x y) (dedup l)) as Hx'.
  { rewrite Forall_forall in Hx |- *. intros y. rewrite dedup_elem. apply Hx. }
  destruct (dedup l) as [|y r]; [apply NoDup_singleton|].
  case_decide as E; [done|]. constructor; [|done].
  intros [?|Hin]%elem_of_cons; [done|].
  inversion Hd as [|? ? _ Hy]; subst. rewrite Forall_forall in Hy.
  apply E, Hanti; [by inversion Hx'|by apply Hy].
Qed.
End dedup.

Lemma words_le_total a b : words_le a b ∨ words_le b a.
Proof.
  revert b. induction a as [|x a IH]; intros [|y b]; cbn; auto. rewrite (String.eqb_sym y x).
  destruct (String.eqb_spec x y); [apply IH|apply str_le_total].
Qed.

Lemma words_le_antisym a b : words_le a b → words_le b a → a = b.
Proof.
  revert b. induction a as [|x a IH]; intros [|y b]; cbn; try done. rewrite (String.eqb_sym y x).
  destruct (String.eqb_spec x y) as [->|Hne]; [intros; f_equal; auto|].
  intros H1 H2. by destruct (Hne (str_le_antisym _ _ H1 H2)).
Qed.

Lemma words_le_trans a b c : words_le a b → words_le b c → words_le a c.
Proof.
  revert b c. induction a as [|x a IH]; intros [|y b] [|z c]; cbn; try done.
  destruct (String.eqb_spec x y) as [->|Hxy], (String.eqb_spec y z) as [->|Hyz]; try done.
  - apply IH.
  - destruct (String.eqb_spec x z) as [->|Hxz]; [done|done].
  - intros H1 H2. destruct (String.eqb_spec x z) as [->|Hxz].
    + by destruct (Hxy (str_le_antisym _ _ H1 H2)).
    + by eapply str_le_trans.
Qed.

(** ** Byte-wise facts *)

Lemma str_forall_app f s t : str_forall f (s +:+ t) = str_forall f s && str_forall f t.
Proof. induction s as [|a s IH]; cbn; [done|]. by rewrite IH, andb_assoc. Qed.

Lemma str_forall_impl (f g : ascii → bool) s :
  (∀ a, f a = true → g a = true) → str_forall f s = true → str_forall g s = true.
Proof.
  intros Hfg. induction s as [|a s IH]; cbn; [done|].
  rewrite !andb_true_iff. intros [??]; auto.
Qed.

Lemma str_map_id f s : str_forall (λ a, Ascii.eqb (f a) a) s = true → str_map f s = s.
Proof.
  induction s as [|a s IH]; cbn; [done|]. rewrite andb_true_iff.
  intros [->%Ascii.eqb_eq ?]. by rewrite IH.
Qed.

Lemma find_bad_char_None ok s : find_bad_char ok s = None ↔ str_forall ok s = true.
Proof.
  induction s as [|a s IH]; cbn; [done|]. destruct (ok a); cbn; [done|by split].
Qed.

(** An ASCII character class closed under lower-casing and free of white
    space: [trim] and [to_lowercase] leave its strings alone. *)
Definition plain_class (ok : ascii → bool) : Prop :=
  ∀ a, ok a = true →
    (byte a <? 128)%N = true ∧ ascii_lower a = a ∧ ws1 a = false.

Lemma ws2_ascii_l a b : (byte a <? 128)%N = true → ws2 a b = false.
Proof. unfold ws2. intros ?%N.ltb_lt. destruct (N.eqb_spec (byte a) 194); [lia|done]. Qed.

Lemma ws3_ascii_l a b c : (byte a <? 128)%N = true → ws3 a b c = false.
Proof.
  unfold ws3. intros ?%N.ltb_lt.
  destruct (N.eqb_spec (byte a) 225), (N.eqb_spec (byte a) 226), (N.eqb_spec (byte a) 227);
    lia || done.
Qed.

Lemma ws2_ascii_r a b : (byte b <? 128)%N = true → ws2 a b = false.
Proof.
  unfold ws2. intros ?%N.ltb_lt.
  destruct (N.eqb_spec (byte b) 133), (N.eqb_spec (byte b) 160); lia.
Qed.

Lemma ws3_ascii_r a b c : (byte c <? 128)%N = true → ws3 a b c = false.
Proof.
  unfold ws3. intros ?%N.ltb_lt.
  destruct (N.eqb_spec (byte c) 128), (N.eqb_spec (byte c) 168), (N.eqb_spec (byte c) 169),
    (N.eqb_spec (byte c) 175), (N.eqb_spec (byte c) 159), (N.leb_spec 128 (byte c)); lia.
Qed.

Lemma str_rev_app_forall f s acc :
  str_forall f (str_rev_app s acc) = str_forall f s && str_forall f acc.
Proof.
  revert acc. induction s as [|a s IH]; intros acc; cbn; [done|].
  rewrite IH. cbn. by destruct (f a), (str_forall f s), (str_forall f acc).
Qed.

Lemma str_rev_app_rev s acc acc' :
  str_rev_app (str_rev_app s acc) acc' = str_rev_app acc (s +:+ acc').
Proof.
  revert acc acc'. induction s as [|a s IH]; intros acc acc'; cbn; [done|].
  by rewrite IH.
Qed.

Lemma str_app_nil s : s +:+ "" = s.
Proof. induction s as [|a s IH]; cbn; [done|]. by rewrite IH. Qed.

Lemma str_rev_involutive s : str_rev (str_rev s) = s.
Proof. unfold str_rev. rewrite str_rev_app_rev. cbn. apply str_app_nil. Qed.

Section plain.
Context (ok : ascii → bool) (Hok : plain_class ok).

Lemma plain_is_ascii s : str_forall ok s = true → is_ascii s = true.
Proof. apply str_forall_impl. intros a Ha. by apply Hok. Qed.

Lemma plain_lower `{Unicode} s : str_forall ok s = true → to_lowercase s = s.
Proof.
  intros Hs. unfold to_lowercase. rewrite plain_is_ascii by done.
  apply str_map_id. revert Hs. apply str_forall_impl. intros a Ha.
  apply Ascii.eqb_eq. by apply Hok.
Qed.

Lemma plain_trim_start s : str_forall ok s = true → trim_start s = s.
Proof.
  destruct s as [|a s]; cbn [trim_start trim_start_rev str_forall]; [done|].
  rewrite andb_true_iff. intros [Ha _].
  destruct (Hok a Ha) as (Hb & _ & ->). destruct s as [|b s]; [done|].
  rewrite ws2_ascii_l by done. destruct s as [|c s]; [done|].
  by rewrite ws3_ascii_l.
Qed.

Lemma plain_trim_start_rev s : str_forall ok s = true → trim_start_rev s = s.
Proof.
  destruct s as [|a s]; cbn [trim_start trim_start_rev str_forall]; [done|].
  rewrite andb_true_iff. intros [Ha _].
  destruct (Hok a Ha) as (Hb & _ & ->). destruct s as [|b s]; [done|].
  rewrite ws2_ascii_r by done. destruct s as [|c s]; [done|].
  by rewrite ws3_ascii_r.
Qed.

Lemma plain_trim s : str_forall ok s = true → trim s = s.
Proof.
  intros Hs. unfold trim, trim_end. rewrite plain_trim_start by done.
  rewrite plain_trim_start_rev.
  - apply str_rev_involutive.
  - unfold str_rev. by rewrite str_rev_app_forall, Hs.
Qed.
End plain.

(** ** Prefix facts *)

Lemma starts_with_spec s p : starts_with s p = true ↔ ∃ t, s = p +:+ t.
Proof.
  unfold starts_with. revert s. induction p as [|a p IH]; intros s; cbn.
  - split; [by exists s|]. by destruct s.
  - destruct s as [|b s]; cbn; [split; [done|by intros [??]]|].
    destruct (ascii_dec a b) as [->|Hne].
    + rewrite IH. split; intros [t Ht]; exists t; congruence.
    + split; [done|]. intros [t [=]]. congruence.
Qed.

#[global] Arguments starts_with : simpl never.

Lemma str_drop_app p t : str_drop (String.length p) (p +:+ t) = t.
Proof. induction p as [|a p IH]; cbn; [by destruct t|done]. Qed.

Lemma starts_with_app p t : starts_with (p +:+ t) p = true.
Proof. apply starts_with_spec. by exists t. Qed.

Lemma strip_prefix_app p t : strip_prefix p (p +:+ t) = Some t.
Proof. unfold strip_prefix. by rewrite starts_with_app, str_drop_app. Qed.

Lemma str_find_Some p s i :
  str_find p s = Some i → s = str_take i s +:+ p +:+ str_drop (i + String.length p) s.
Proof.
  revert i. induction s as [|a s IH]; intros i; cbn [str_find].
  - destruct (starts_with "" p) eqn:E; [|done]. intros [= <-].
    apply starts_with_spec in E as [t Ht]. destruct p as [|b p]; [done|].
    discriminate Ht.
  - destruct (starts_with (String a s) p) eqn:E.
    + intros [= <-]. apply starts_with_spec in E as [t Ht]. cbn [str_take Nat.add].
      rewrite Ht, str_drop_app. done.
    + destruct (str_find p s) as [j|]; [|done]. intros [= <-]. cbn. f_equal. by apply IH.
Qed.

Lemma str_contains_spec s p : str_contains s p = true ↔ ∃ l r, s = l +:+ p +:+ r.
Proof.
  unfold str_contains. split.
  - destruct (str_find p s) as [i|] eqn:E; [|done]. intros _.
    eexists _, _. by apply str_find_Some.
  - intros (l & r & ->). induction l as [|a l IH]; cbn [String.append str_find].
    + destruct (p +:+ r) eqn:E.
      * destruct p; [done|discriminate].
      * cbn [str_find]. assert (starts_with (String a s) p = true) as Hp.
        { rewrite <- E. apply starts_with_app. }
        by rewrite Hp.
    + destruct (starts_with _ p); [done|]. by destruct (str_find p (l +:+ p +:+ r)).
Qed.

Lemma str_drop_length n s : String.length (str_drop n s) = (String.length s - n)%nat.
Proof. revert s. induction n as [|n IH]; intros [|a s]; try done. cbn [str_drop String.length]. by rewrite IH. Qed.

Lemma str_take_drop n s : str_take n s +:+ str_drop n s = s.
Proof.
  revert s. induction n as [|n IH]; intros [|a s]; cbn; [done..|]. by rewrite IH.
Qed.

Lemma str_app_assoc a b c : (a +:+ b) +:+ c = a +:+ b +:+ c.
Proof. induction a as [|x a IH]; cbn; [done|]. by rewrite IH. Qed.

(** Every string is at most as long as what it was cut from. *)
Lemma str_length_take n s : String.length (str_take n s) = Nat.min n (String.length s).
Proof. revert s. induction n as [|n IH]; intros [|a s]; cbn; [done..|]. by rewrite IH. Qed.

Lemma str_length_app a b : String.length (a +:+ b) = (String.length a + String.length b)%nat.
Proof. induction a as [|x a IH]; cbn; [done|]. by rewrite IH. Qed.

(** ** Splitting *)

Lemma split_at_char_absent c s :
  str_forall (λ a, negb (Ascii.eqb a c)) s = true → split_at_char c s = (s, None).
Proof.
  induction s as [|a s IH]; cbn; [done|]. destruct (Ascii.eqb a c); cbn; [done|].
  intros H. by rewrite IH.
Qed.

Lemma split_at_char_app c l r :
  str_forall (λ a, negb (Ascii.eqb a c)) l = true →
  split_at_char c (l +:+ String c r) = (l, Some r).
Proof.
  induction l as [|a l IH]; cbn; [by rewrite Ascii.eqb_refl|].
  destruct (Ascii.eqb a c); cbn; [done|]. intros H. by rewrite IH.
Qed.

Lemma split_at_char_Some c s l r :
  split_at_char c s = (l, Some r) → s = l +:+ String c r ∧ str_forall (λ a, negb (Ascii.eqb a c)) l = true.
Proof.
  revert l. induction s as [|a s IH]; intros l; [done|]. cbn. destruct (Ascii.eqb_spec a c) as [->|Hne].
  - by intros [= <- <-].
  - destruct (split_at_char c s) as [l' r']. intros [= <- ->]. destruct (IH l' eq_refl) as [-> Hl]. cbn.
    by rewrite (proj2 (Ascii.eqb_neq _ _) Hne).
Qed.

Lemma split_at_char_None c s l :
  split_at_char c s = (l, None) → str_forall (λ a, negb (Ascii.eqb a c)) s = true.
Proof.
  revert l. induction s as [|a s IH]; intros l; [done|]. cbn. destruct (Ascii.eqb_spec a c) as [->|Hne]; [done|].
  destruct (split_at_char c s) as [l' r']. intros [= _ ->]. cbn. by rewrite (IH l').
Qed.

Lemma split_at_char_length c s l r :
  split_at_char c s = (l, Some r) → String.length s = S (String.length l + String.length r).
Proof. intros [-> _]%split_at_char_Some. rewrite str_length_app. cbn. lia. Qed.

Lemma split_char_absent c s :
  str_forall (λ a, negb (Ascii.eqb a c)) s = true → split_char c s = [s].
Proof.
  induction s as [|a s IH]; cbn; [done|]. destruct (Ascii.eqb a c); cbn; [done|].
  intros H. by rewrite IH.
Qed.

Lemma split_char_app c l r :
  str_forall (λ a, negb (Ascii.eqb a c)) l = true →
  split_char c (l +:+ String c r) = l :: split_char c r.
Proof.
  induction l as [|a l IH]; cbn; [by rewrite Ascii.eqb_refl|].
  destruct (Ascii.eqb a c); cbn; [done|]. intros H. by rewrite IH.
Qed.

(** A piece never contains the separator, and joining the pieces with it
    gives the string back. *)
Lemma split_char_pieces c s :
  Forall (λ x, str_forall (λ a, negb (Ascii.eqb a c)) x = true) (split_char c s).
Proof.
  induction s as [|a s IH]; cbn; [by repeat constructor|].
  destruct (Ascii.eqb a c) eqn:E; [by constructor|].
  destruct (split_char c s) as [|x l]; cbn; [repeat constructor; cbn; by rewrite E|].
  apply Forall_cons in IH as [Hx Hl]. constructor; [|done]. cbn. by rewrite E.
Qed.

Lemma split_char_cons c s : ∃ x l, split_char c s = x :: l.
Proof.
  destruct s as [|a s]; cbn; [eauto|]. destruct (Ascii.eqb a c); [eauto|].
  destruct (split_char c s); eauto.
Qed.

Lemma join_split_char c s : join (String c "") (split_char c s) = s.
Proof.
  unfold join. induction s as [|a s IH]; cbn; [done|].
  destruct (split_char_cons c s) as (x & l & E). rewrite E in IH |- *.
  destruct (Ascii.eqb a c) eqn:Ea.
  - apply Ascii.eqb_eq in Ea as ->.
    transitivity (String c (String.concat (String c "") (x :: l))); [done|by rewrite IH].
  - transitivity (String a (String.concat (String c "") (x :: l))); [by destruct l|by rewrite IH].
Qed.

(** ** Trimming and lines of texts put together from pieces *)

Lemma str_rev_app_acc s acc : str_rev_app s acc = str_rev s +:+ acc.
Proof.
  unfold str_rev. revert acc. induction s as [|a s IH]; intros acc; cbn; [done|].
  rewrite IH, (IH (String a "")), str_app_assoc. done.
Qed.

Lemma str_rev_append a b : str_rev (a +:+ b) = str_rev b +:+ str_rev a.
Proof.
  induction a as [|x a IH]; [by rewrite str_app_nil|].
  change (str_rev_app (a +:+ b) (String x "") = str_rev b +:+ str_rev_app a (String x "")).
  by rewrite !str_rev_app_acc, IH, str_app_assoc.
Qed.

(** A visible ASCII character: white space neither by itself nor as part of a
    longer character. *)
Definition solid (a : ascii) : bool := (byte a <? 128)%N && negb (ws1 a).

Lemma trim_start_solid a s : solid a = true → trim_start (String a s) = String a s.
Proof.
  unfold solid. rewrite andb_true_iff, negb_true_iff. intros [Ha Hw]. cbn [trim_start]. rewrite Hw.
  destruct s as [|b s]; [done|]. rewrite ws2_ascii_l by done.
  destruct s as [|c s]; [done|]. by rewrite ws3_ascii_l.
Qed.

Lemma trim_start_rev_solid a s : solid a = true → trim_start_rev (String a s) = String a s.
Proof.
  unfold solid. rewrite andb_true_iff, negb_true_iff. intros [Ha Hw]. cbn [trim_start_rev]. rewrite Hw.
  destruct s as [|b s]; [done|]. rewrite ws2_ascii_r by done.
  destruct s as [|c s]; [done|]. by rewrite ws3_ascii_r.
Qed.

Lemma trim_end_solid s a : solid a = true → trim_end (s +:+ String a "") = s +:+ String a "".
Proof.
  intros Ha. unfold trim_end. rewrite str_rev_append. cbn [str_rev str_rev_app String.append].
  rewrite trim_start_rev_solid by done.
  change (String a (str_rev s)) with (str_rev (String a "") +:+ str_rev s).
  by rewrite <- str_rev_append, str_rev_involutive.
Qed.

Lemma trim_start_rev_length s : (String.length (trim_start_rev s) <= String.length s)%nat.
Proof.
  remember (String.length s) as n eqn:En. revert s En.
  induction n as [n IH] using lt_wf_ind. intros [|a s] ->; [done|]. cbn [trim_start_rev String.length] in IH |- *.
  assert (∀ t, String.length t < S (String.length s) →
    String.length (trim_start_rev t) <= S (String.length s))%nat as IH'.
  { intros t Ht. specialize (IH _ Ht t eq_refl). lia. }
  clear IH. destruct (ws1 a); [apply IH'; lia|]. destruct s as [|b s]; [done|].
  destruct (ws2 b a); [apply IH'; cbn; lia|]. destruct s as [|c s]; [done|].
  destruct (ws3 c b a); [apply IH'; cbn; lia|done].
Qed.

(** Text that ends in no white space keeps its end behind ASCII text. *)
Lemma trim_start_rev_app r t :
  is_ascii t = true → r ≠ "" → trim_start_rev r = r → trim_start_rev (r +:+ t) = r +:+ t.
Proof.
  unfold is_ascii. intros Ht Hne.
  pose proof trim_start_rev_length as Hlen.
  destruct r as [|a r]; [done|]. cbn [trim_start_rev String.append].
  destruct (ws1 a); [intros E; specialize (Hlen r); rewrite E in Hlen; cbn in Hlen; lia|].
  destruct r as [|b r]; cbn [String.append].
  { intros _. destruct t as [|b t]; [done|]. cbn in Ht. apply andb_true_iff in Ht as [Hb Ht].
    rewrite ws2_ascii_l by done. destruct t as [|c t]; [done|].
    cbn in Ht. apply andb_true_iff in Ht as [Hc _]. by rewrite ws3_ascii_l. }
  destruct (ws2 b a); [intros E; specialize (Hlen r); rewrite E in Hlen; cbn in Hlen; lia|].
  destruct r as [|c r]; cbn [String.append].
  { intros _. destruct t as [|c t]; [done|]. cbn in Ht. apply andb_true_iff in Ht as [Hc _].
    by rewrite ws3_ascii_l. }
  destruct (ws3 c b a); [intros E; specialize (Hlen r); rewrite E in Hlen; cbn in Hlen; lia|done].
Qed.

Lemma str_rev_empty s : str_rev s = "" → s = "".
Proof. intros E. by rewrite <- (str_rev_involutive s), E. Qed.

Lemma trim_end_app q p :
  is_ascii q = true → p ≠ "" → trim_end p = p → trim_end (q +:+ p) = q +:+ p.
Proof.
  intros Hq Hne Hp. unfold trim_end in *. rewrite str_rev_append, trim_start_rev_app.
  - by rewrite <- str_rev_append, str_rev_involutive.
  - unfold is_ascii, str_rev in *. by rewrite str_rev_app_forall, Hq.
  - intros E%str_rev_empty. done.
  - by rewrite <- (str_rev_involutive (trim_start_rev _)), Hp.
Qed.

(** A line: no line break in it and no carriage return at its end. *)
Definition line_ok (l : string) : bool :=
  str_forall (λ a, negb (Ascii.eqb a newline)) l && (strip_cr l == l).

Lemma lines_fuel_join n ls :
  Forall (λ l, line_ok l = true) ls → (∀ l, last ls = Some l → l ≠ "") →
  (String.length (join (String newline "") ls) <= n)%nat →
  lines_fuel n (join (String newline "") ls) = ls.
Proof.
  intros Hok Hlast. revert n. induction Hok as [|l ls Hl Hls IH]; intros n Hn; [by destruct n|].
  apply andb_true_iff in Hl as [Hnl Hcr]. apply String.eqb_eq in Hcr.
  destruct ls as [|l2 ls].
  - change (join (String newline "") [l]) with l in *. specialize (Hlast l eq_refl).
    destruct n as [|n]; [destruct l; cbn in *; [done|lia]|]. cbn [lines_fuel].
    destruct (str_is_empty l) eqn:E; [apply String.eqb_eq in E; done|].
    by rewrite split_at_char_absent.
  - assert (join (String newline "") (l :: l2 :: ls) =
            l +:+ String newline (join (String newline "") (l2 :: ls))) as E by done.
    rewrite E in *. rewrite str_length_app in Hn. cbn [String.length] in Hn.
    destruct n as [|n]; [lia|]. cbn [lines_fuel].
    destruct (str_is_empty (l +:+ _)) eqn:Ee; [apply String.eqb_eq in Ee; by destruct l|].
    rewrite split_at_char_app, Hcr by done. f_equal. apply IH; [done|lia].
Qed.

(** Reading back joined lines. *)
Lemma lines_join ls :
  Forall (λ l, line_ok l = true) ls → (∀ l, last ls = Some l → l ≠ "") →
  lines (join (String newline "") ls) = ls.
Proof. intros. by apply lines_fuel_join. Qed.

Lemma lines_cons l r :
  str_forall (λ a, negb (Ascii.eqb a newline)) l = true →
  lines (l +:+ String newline r) = strip_cr l :: lines_fuel (String.length l + String.length r) r.
Proof.
  intros Hl. unfold lines. rewrite str_length_app. cbn [String.length]. rewrite Nat.add_succ_r. cbn [lines_fuel].
  destruct (str_is_empty (l +:+ _)) eqn:E; [apply String.eqb_eq in E; by destruct l|].
  by rewrite split_at_char_app.
Qed.

(** More fuel than bytes changes nothing. *)
Lemma lines_fuel_enough n s : (String.length s <= n)%nat → lines_fuel n s = lines s.
Proof.
  unfold lines. revert s. induction n as [n IH] using lt_wf_ind. intros s Hn. destruct s as [|a s]; [by destruct n|].
  destruct n as [|n]; [cbn in Hn; lia|]. cbn [lines_fuel String.length]. cbn [str_is_empty String.eqb].
  destruct (split_at_char newline (String a s)) as [l [r|]] eqn:E; [|done]. f_equal.
  apply split_at_char_length in E. cbn in E, Hn. rewrite (IH n ltac:(lia) r) by lia.
  symmetry. apply IH; lia.
Qed.

(** Lines of a text that ends a line, followed by another text. *)
Lemma lines_app t s : t = "" ∨ (∃ u, t = u +:+ String newline "") → lines (t +:+ s) = lines t ++ lines s.
Proof.
  remember (String.length t) as n eqn:En. revert t En. induction n as [n IH] using lt_wf_ind.
  intros t -> [->|[u ->]]; [done|].
  destruct (split_at_char newline u) as [l [r|]] eqn:E.
  - apply split_at_char_Some in E as [-> Hl]. rewrite !str_app_assoc. cbn [String.append].
    rewrite !lines_cons by done. rewrite !lines_fuel_enough by lia. cbn [app]. f_equal.
    change (String newline s) with (String newline "" +:+ s). rewrite <- str_app_assoc.
    apply (IH (String.length (r +:+ String newline ""))); [|done|right; by exists r].
    rewrite !str_length_app. cbn. rewrite ?str_length_app. cbn. lia.
  - apply split_at_char_None in E. rewrite str_app_assoc. cbn [String.append].
    rewrite !lines_cons by done. rewrite !lines_fuel_enough by lia. done.
Qed.

(** A visible character and what precedes the end of a string survive
    trimming. *)
Lemma trim_start_rev_keeps r a :
  solid a = true → ∃ r', trim_start_rev (r +:+ String a "") = r' +:+ String a "".
Proof.
  intros Ha. remember (String.length r) as n eqn:En. revert r En.
  induction n as [n IH] using lt_wf_ind. intros [|b r] ->.
  { exists "". cbn [String.append]. by rewrite trim_start_rev_solid. }
  assert (∀ t, String.length t < S (String.length r) →
    ∃ r', trim_start_rev (t +:+ String a "") = r' +:+ String a "")%nat as IH' by (intros t Ht; by apply (IH _ Ht t)).
  unfold solid in Ha. apply andb_true_iff in Ha as [Ha _].
  cbn [trim_start_rev String.append]. clear IH. destruct (ws1 b); [apply IH'; lia|].
  destruct r as [|c r]; cbn [String.append]; [rewrite ws2_ascii_l by done; by exists (String b "")|].
  destruct (ws2 c b); [apply IH'; cbn; lia|].
  destruct r as [|d r]; cbn [String.append]; [rewrite ws3_ascii_l by done; by exists (String b (String c ""))|].
  destruct (ws3 d c b); [apply IH'; cbn; lia|]. by exists (String b (String c (String d r))).
Qed.

Lemma trim_start_rev_suffix s : ∃ q, s = q +:+ trim_start_rev s.
Proof.
  induction s as [s IH] using (induction_ltof1 _ String.length). unfold ltof in IH.
  destruct s as [|a s1]; [by exists ""|]. cbn [trim_start_rev].
  destruct (ws1 a).
  { destruct (IH s1) as [q Hq]; [cbn; lia|]. exists (String a q). by rewrite Hq at 1. }
  destruct s1 as [|b s2]; [by exists ""|]. destruct (ws2 b a).
  { destruct (IH s2) as [q Hq]; [cbn; lia|]. exists (String a (String b q)). by rewrite Hq at 1. }
  destruct s2 as [|c s3]; [by exists ""|]. destruct (ws3 c b a); [|by exists ""].
  destruct (IH s3) as [q Hq]; [cbn; lia|]. exists (String a (String b (String c q))). by rewrite Hq at 1.
Qed.

(** Trimming the end leaves a prefix. *)
Lemma trim_end_prefix s : ∃ q, s = trim_end s +:+ q.
Proof.
  destruct (trim_start_rev_suffix (str_rev s)) as [q Hq]. exists (str_rev q).
  unfold trim_end. rewrite <- str_rev_append, <- Hq. by rewrite str_rev_involutive.
Qed.

Lemma trim_start_suffix s : ∃ q, s = q +:+ trim_start s.
Proof.
  induction s as [s IH] using (induction_ltof1 _ String.length). unfold ltof in IH.
  destruct s as [|a s1]; [by exists ""|]. cbn [trim_start].
  destruct (ws1 a).
  { destruct (IH s1) as [q Hq]; [cbn; lia|]. exists (String a q). by rewrite Hq at 1. }
  destruct s1 as [|b s2]; [by exists ""|]. destruct (ws2 a b).
  { destruct (IH s2) as [q Hq]; [cbn; lia|]. exists (String a (String b q)). by rewrite Hq at 1. }
  destruct s2 as [|c s3]; [by exists ""|]. destruct (ws3 a b c); [|by exists ""].
  destruct (IH s3) as [q Hq]; [cbn; lia|]. exists (String a (String b (String c q))). by rewrite Hq at 1.
Qed.

(** Trimming keeps what holds of every byte. *)
Lemma trim_start_no_ws s : ws_at (trim_start s) = false.
Proof.
  induction s as [s IH] using (induction_ltof1 _ String.length). unfold ltof in IH. destruct s as [|a [|b [|c s]]]; cbn; [done|..];
    repeat case_match; try done; try (apply IH; cbn; lia); cbn;
    repeat match goal with H : _ = false |- _ => rewrite H; clear H end; done.
Qed.

Lemma trim_start_fixed s : ws_at s = false → trim_start s = s.
Proof.
  destruct s as [|a [|b [|c s]]]; cbn; [done|..]; rewrite ?orb_false_r, ?orb_false_iff; intros H; destruct_and?;
    repeat match goal with H : _ = false |- _ => rewrite H; clear H end; done.
Qed.

(** White space at the start of a text is there in every longer text. *)
Lemma ws_at_prefix p q : ws_at p = true → ws_at (p +:+ q) = true.
Proof.
  destruct p as [|a [|b [|c p]]]; intros H; [done| | |exact H].
  - change (String a "" +:+ q) with (String a q). cbn in H |- *. rewrite orb_false_r in H. by rewrite H.
  - change (String a (String b "") +:+ q) with (String a (String b q)). cbn in H |- *.
    rewrite orb_false_r in H. apply orb_true_iff in H as [-> | ->]; cbn; [done|by rewrite orb_true_r].
Qed.

Lemma trim_start_rev_idemp s : trim_start_rev (trim_start_rev s) = trim_start_rev s.
Proof.
  induction s as [s IH] using (induction_ltof1 _ String.length). unfold ltof in IH. destruct s as [|a [|b [|c s]]]; cbn; [done|..];
    repeat case_match; try done; try (apply IH; cbn; lia); cbn;
    repeat match goal with H : _ = false |- _ => rewrite H; clear H end; done.
Qed.

Lemma trim_end_idemp s : trim_end (trim_end s) = trim_end s.
Proof. unfold trim_end. by rewrite str_rev_involutive, trim_start_rev_idemp. Qed.

Lemma trim_idemp s : trim (trim s) = trim s.
Proof.
  unfold trim. assert (ws_at (trim_end (trim_start s)) = false) as Hw.
  { destruct (trim_end_prefix (trim_start s)) as [q E]. apply not_true_is_false. intros H%(ws_at_prefix _ q). rewrite <- E, trim_start_no_ws in H. done. }
  by rewrite (trim_start_fixed _ Hw), trim_end_idemp.
Qed.

Lemma trim_forall f s : str_forall f s = true → str_forall f (trim s) = true.
Proof.
  destruct (trim_start_suffix s) as [q Hq], (trim_end_prefix (trim_start s)) as [r Hr].
  rewrite Hq at 1. rewrite Hr. rewrite !str_forall_app, !andb_true_iff. unfold trim. tauto.
Qed.

Lemma drop_leading_forall f c s : str_forall f s = true → str_forall f (drop_leading c s) = true.
Proof.
  induction s as [|a s IH]; [done|]. cbn. rewrite andb_true_iff. intros [Ha Hs].
  destruct (Ascii.eqb a c); [by apply IH|]. cbn. by rewrite Ha, Hs.
Qed.

Lemma trim_end_char_forall f c s : str_forall f s = true → str_forall f (trim_end_char c s) = true.
Proof.
  intros Hs. unfold trim_end_char, str_rev.
  rewrite str_rev_app_forall, andb_true_r. apply drop_leading_forall.
  by rewrite str_rev_app_forall, andb_true_r.
Qed.

(** A text without the byte is one without the text of that byte. *)
Lemma str_contains_char s c : str_contains s (String c "") = negb (str_forall (λ a, negb (Ascii.eqb a c)) s).
Proof.
  apply eq_true_iff_eq. rewrite str_contains_spec, negb_true_iff. split.
  - intros (l & r & ->). rewrite str_forall_app. cbn. rewrite Ascii.eqb_refl. cbn. apply andb_false_r.
  - induction s as [|a s IH]; [done|]. cbn. destruct (Ascii.eqb_spec a c) as [->|Hne]; cbn.
    + intros _. by exists "", s.
    + intros (l & r & ->)%IH. by exists (String a l), r.
Qed.

Lemma trim_end_keeps a s : solid a = true → ∃ t, trim_end (String a s) = String a t.
Proof.
  intros Ha. destruct (trim_start_rev_keeps (str_rev s) a Ha) as [r' E]. exists (str_rev r').
  unfold trim_end. change (String a s) with (String a "" +:+ s). rewrite str_rev_append.
  change (str_rev (String a "")) with (String a ""). by rewrite E, str_rev_append.
Qed.

Lemma trim_keeps a s : solid a = true → ∃ t, trim (String a s) = String a t.
Proof. intros Ha. unfold trim. rewrite trim_start_solid by done. by apply trim_end_keeps. Qed.

(** Prefixing a line. *)
Lemma strip_cr_id s :
  strip_cr s = s ↔ match str_rev s with String a _ => Ascii.eqb a carriage_return = false | "" => True end.
Proof.
  unfold strip_cr. destruct (str_rev s) as [|a r] eqn:E; [done|].
  destruct (Ascii.eqb a carriage_return); [|done]. split; [|done].
  intros H. assert (r = String a r) as Hr by (by rewrite <- E, <- H, str_rev_involutive).
  exfalso. clear -Hr. induction r as [|b r IH]; [done|]. injection Hr as -> Hr. by apply IH.
Qed.

Lemma line_ok_cons a l :
  Ascii.eqb a newline = false → Ascii.eqb a carriage_return = false →
  line_ok l = true → line_ok (String a l) = true.
Proof.
  intros Hn Hc. unfold line_ok. rewrite !andb_true_iff, !String.eqb_eq, !strip_cr_id.
  intros [Hnl Hcr]. cbn [str_forall]. rewrite Hn, Hnl. split; [done|].
  change (String a l) with (String a "" +:+ l). rewrite str_rev_append.
  destruct (str_rev l) as [|b r]; [done|]. by cbn in *.
Qed.

Definition no_breaks (s : string) : bool :=
  str_forall (λ a, negb (Ascii.eqb a newline) && negb (Ascii.eqb a carriage_return)) s.

Lemma line_ok_app p l : no_breaks p = true → line_ok l = true → line_ok (p +:+ l) = true.
Proof.
  unfold no_breaks. induction p as [|a p IH]; cbn; [done|].
  rewrite !andb_true_iff, !negb_true_iff. intros [[??]?] ?. apply line_ok_cons; auto.
Qed.
