(* ===== verification/Json.v ===== *)
(** * JSON values (serde_json)

    [serde_json::Value] as the native harness uses it: the constructors, the
    accessors [get], [as_str], [as_i64] and [as_array], and the numbers the
    [json!] macro makes of an integer.  The text of a value and its parser
    are code of the serde_json crate and are the fields of [JsonLib]; what the
    callers rely on is [JsonLaws]. *)

From S2P Require Import Prelude RustStr.

(** ** Values *)

#[local] Set Warnings "-register-all".

(** [serde_json::Number]: a float is kept as its text. *)
Inductive Number :=
| PosInt (n : u64)
| NegInt (z : i64)
| Float (text : string).

Inductive Value :=
| VNull
| VBool (b : bool)
| VNumber (n : Number)
| VString (s : string)
| VArray (l : list Value)
| VObject (m : list (string * Value)).

(** [Map::get]. *)
Fixpoint map_get (m : list (string * Value)) (k : string) : option Value :=
  match m with
  | [] => None
  | (k', v) :: m' => if k' == k then Some v else map_get m' k
  end.

(** [Value::get] with a string index. *)
Definition value_get (v : Value) (k : string) : option Value :=
  match v with VObject m => map_get m k | _ => None end.

(** [v[k]]: a missing member reads as [null]. *)
Definition value_index (v : Value) (k : string) : Value :=
  default VNull (value_get v k).

Definition as_str (v : Value) : option string :=
  match v with VString s => Some s | _ => None end.

Definition as_i64 (v : Value) : option i64 :=
  match v with
  | VNumber (PosInt n) => if (n <=? i64_max)%N then Some (Z.of_N n) else None
  | VNumber (NegInt z) => Some z
  | _ => None
  end.

Definition as_array (v : Value) : option (list Value) :=
  match v with VArray l => Some l | _ => None end.

(** [Value::from] of an [i64]. *)
Definition value_of_i64 (z : i64) : Value :=
  VNumber (if (z <? 0)%Z then NegInt z else PosInt (Z.to_N z)).

(** [Value::from] of a [usize] or [u64]. *)
Definition value_of_u64 (n : u64) : Value := VNumber (PosInt n).

(** [json!] of an [Option]: [None] is [null]. *)
Definition value_of_option {A} (f : A → Value) (o : option A) : Value :=
  match o with Some a => f a | None => VNull end.

(** ** Text *)

Class JsonLib := {
  value_text : Value → string;
  value_parse : string → Value + string;
  strings_text : list string → string;
  strings_parse : string → list string + string
}.

Definition is_scalar (v : Value) : Prop :=
  match v with
  | VString _ => True
  | VNumber (PosInt n) => (n <= i64_max)%N
  | VNumber (NegInt z) => (z < 0)%Z
  | _ => False
  end.

(** An object with distinct keys whose members are strings and integers. *)
Definition flat_object (m : list (string * Value)) : Prop :=
  NoDup (m.*1) ∧ Forall is_scalar (m.*2).

(** A flat object is read back with the same members, in some order; a list
    of strings is read back. *)
Class JsonLaws `{JsonLib} := {
  value_roundtrip m :
    flat_object m → ∃ m', value_parse (value_text (VObject m)) = inl (VObject m') ∧ m' ≡ₚ m;
  strings_roundtrip l : strings_parse (strings_text l) = inl l
}.

(** ** Facts *)

Lemma map_get_Some m k v : map_get m k = Some v → (k, v) ∈ m.
Proof.
  induction m as [|[k' v'] m IH]; cbn; [done|].
  destruct (String.eqb_spec k' k) as [->|_].
  - intros [= ->]. left.
  - intros H. right. by apply IH.
Qed.

Lemma map_get_elem m k v : NoDup (m.*1) → (k, v) ∈ m → map_get m k = Some v.
Proof.
  induction m as [|[k' v'] m IH]; cbn; [by intros _ ?%elem_of_nil|].
  intros [Hk Hm]%NoDup_cons [[= <- <-]|Hin]%elem_of_cons.
  - by rewrite str_eqb_refl.
  - destruct (String.eqb_spec k' k) as [->|_]; [|by apply IH].
    destruct Hk. apply list_elem_of_fmap. by exists (k, v).
Qed.

Lemma map_get_perm m m' k : NoDup (m.*1) → m' ≡ₚ m → map_get m' k = map_get m k.
Proof.
  intros Hnd Hp.
  assert (NoDup (m'.*1)) as Hnd' by by rewrite Hp.
  destruct (map_get m k) as [v|] eqn:E.
  - apply map_get_elem; [done|]. rewrite Hp. by apply map_get_Some.
  - destruct (map_get m' k) as [v|] eqn:E'; [|done].
    apply map_get_Some in E'. rewrite Hp in E'.
    by rewrite (map_get_elem m k v) in E.
Qed.

Lemma as_i64_of_i64 z : (- Z.of_N i64_max - 1 <= z <= Z.of_N i64_max)%Z →
  as_i64 (value_of_i64 z) = Some z.
Proof.
  unfold value_of_i64. intros Hz. destruct (Z.ltb_spec z 0); cbn; [done|].
  destruct (N.leb_spec (Z.to_N z) i64_max); [|unfold i64_max in *; lia]. f_equal. lia.
Qed.

Lemma value_of_i64_scalar z : (z <= Z.of_N i64_max)%Z → is_scalar (value_of_i64 z).
Proof. unfold value_of_i64. destruct (Z.ltb_spec z 0); unfold is_scalar, i64_max in *; lia. Qed.
