(* ===== verification/Proc.v ===== *)
(** * Processes

    The handlers of the servers are asynchronous: between two
    calls of the store another request may run.  A handler is a process, a
    sequence of atomic actions on a shared world; [run] executes it alone,
    [pstep] interleaves a pool of processes, one atomic action at a time. *)

From S2P Require Import Prelude.

Inductive Proc (W A : Type) : Type :=
| Done (r : res A)
| Act (upd : W → W) (next : W → Proc W A).
Arguments Done {W A} r.
Arguments Act {W A} upd next.

Fixpoint pbind {W A B} (p : Proc W A) (k : A → Proc W B) : Proc W B :=
  match p with
  | Done (Ok a) => k a
  | Done (Err e) => Done (Err e)
  | Done Panic => Done Panic
  | Act upd next => Act upd (λ w, pbind (next w) k)
  end.

#[export] Instance Proc_ret W : MRet (Proc W) := λ A a, Done (Ok a).
#[export] Instance Proc_bind W : MBind (Proc W) := λ A B k p, pbind p k.

(** One atomic action. *)
Definition atomic {W A} (m : M W A) : Proc W A :=
  Act (λ w, snd (m w)) (λ w, Done (fst (m w))).

(** A pure fallible step ([?]). *)
Definition plift {W A} (r : res A) : Proc W A := Done r.

(** A call whose error is inspected ([match call { Ok(..) => .., _ => .. }]). *)
Fixpoint attempt {W A} (p : Proc W A) : Proc W (res A) :=
  match p with
  | Done Panic => Done Panic
  | Done r => Done (Ok r)
  | Act upd next => Act upd (λ w, attempt (next w))
  end.

(** ** Running alone *)

Fixpoint run {W A} (p : Proc W A) (w : W) : res A * W :=
  match p with
  | Done r => (r, w)
  | Act upd next => run (next w) (upd w)
  end.

Lemma run_bind {W A B} (p : Proc W A) (k : A → Proc W B) w :
  run (p ≫= k) w =
  match run p w with
  | (Ok a, w') => run (k a) w'
  | (Err e, w') => (Err e, w')
  | (Panic, w') => (Panic, w')
  end.
Proof.
  revert w. unfold mbind, Proc_bind.
  induction p as [[a|e|]|upd next IH]; intros w; cbn; [done..|]. apply IH.
Qed.

Lemma run_atomic {W A} (m : M W A) w : run (atomic m) w = m w.
Proof. cbn. by destruct (m w). Qed.

Lemma run_ret {W A} (a : A) (w : W) : run (mret a) w = (Ok a, w).
Proof. done. Qed.

Lemma run_lift {W A} (r : res A) (w : W) : run (plift r) w = (r, w).
Proof. done. Qed.

Lemma run_attempt {W A} (p : Proc W A) w :
  run (attempt p) w =
  match run p w with
  | (Panic, w') => (Panic, w')
  | (r, w') => (Ok r, w')
  end.
Proof. revert w. induction p as [[a|e|]|upd next IH]; intros w; cbn; done. Qed.

(** ** Interleaving *)

Inductive pstep {W A} : list (Proc W A) * W → list (Proc W A) * W → Prop :=
| pstep_act ps w i upd next :
    ps !! i = Some (Act upd next) →
    pstep (ps, w) (<[i := next w]> ps, upd w).

(** The interleaving a schedule picks. *)
Fixpoint sched {W A} (picks : list nat) (c : list (Proc W A) * W) : list (Proc W A) * W :=
  match picks with
  | [] => c
  | i :: picks' =>
      match c.1 !! i with
      | Some (Act upd next) => sched picks' (<[i := next c.2]> c.1, upd c.2)
      | _ => sched picks' c
      end
  end.

Lemma sched_psteps {W A} picks (c : list (Proc W A) * W) : rtc pstep c (sched picks c).
Proof.
  revert c. induction picks as [|i picks IH]; intros [ps w]; cbn; [done|].
  destruct (ps !! i) as [[r|upd next]|] eqn:E; [apply IH| |apply IH].
  eapply rtc_l; [by constructor|apply IH].
Qed.

(** [all_acts I R p]: from any world in [I], every action of [p] makes an [R]
    step. *)
Inductive all_acts {W A} (I : W → Prop) (R : W → W → Prop) : Proc W A → Prop :=
| all_done r : all_acts I R (Done r)
| all_act upd next :
    (∀ w, I w → R w (upd w)) → (∀ w, I w → all_acts I R (next w)) →
    all_acts I R (Act upd next).

Section all_acts.
Context {W : Type} (I : W → Prop) (R : W → W → Prop).

Lemma all_acts_ret {A} (a : A) : all_acts I R (mret a).
Proof. constructor. Qed.

Lemma all_acts_lift {A} (r : res A) : all_acts I R (plift r).
Proof. constructor. Qed.

Lemma all_acts_atomic {A} (m : M W A) :
  (∀ w, I w → R w (snd (m w))) → all_acts I R (atomic m).
Proof. intros Hm. constructor; [apply Hm|constructor]. Qed.

Lemma all_acts_bind {A B} (p : Proc W A) (k : A → Proc W B) :
  all_acts I R p → (∀ a, all_acts I R (k a)) → all_acts I R (p ≫= k).
Proof.
  intros Hp Hk. unfold mbind, Proc_bind.
  induction Hp as [[a|e|]|upd next Hu _ IH]; cbn; [done|constructor..|by constructor].
Qed.

(** The continuation of an atomic action knows what it may return. *)
Lemma all_acts_atomic_bind {A B} (m : M W A) (k : A → Proc W B) :
  (∀ w, I w → R w (snd (m w))) →
  (∀ w a, I w → fst (m w) = Ok a → all_acts I R (k a)) →
  all_acts I R (atomic m ≫= k).
Proof.
  intros Hm Hk. unfold mbind, Proc_bind. constructor; [apply Hm|].
  intros w Hw. cbn. destruct (fst (m w)) eqn:E; [by eapply Hk|constructor..].
Qed.

Lemma all_acts_attempt {A} (p : Proc W A) : all_acts I R p → all_acts I R (attempt p).
Proof. induction 1 as [[a|e|]|upd next Hu _ IH]; cbn; constructor; auto. Qed.

Lemma all_acts_mono {A} (I' : W → Prop) (R' : W → W → Prop) (p : Proc W A) :
  all_acts I R p → (∀ w, I' w → I w) → (∀ w w', R w w' → R' w w') → all_acts I' R' p.
Proof. intros Hp HI HR. induction Hp; constructor; auto. Qed.

Context `{!PreOrder R} (HI : ∀ w w', I w → R w w' → I w').

Lemma all_acts_run {A} (p : Proc W A) w : all_acts I R p → I w → R w (snd (run p w)).
Proof using HI PreOrder0.
  intros Hp. revert w. induction Hp as [r|upd next Hu _ IH]; intros w Hw; cbn; [done|].
  etrans; [by apply Hu|]. apply IH; [done|]. by eapply HI, Hu.
Qed.

(** What every action of every process keeps, every interleaving keeps. *)
Lemma psteps_all_acts {A} (c c' : list (Proc W A) * W) :
  rtc pstep c c' → Forall (all_acts I R) c.1 → I c.2 → R c.2 c'.2.
Proof using HI PreOrder0.
  induction 1 as [[ps w]|c1 c2 c3 Hstep Hsteps IH]; [done|]. intros Hall Hw.
  destruct Hstep as [ps w i upd next Hi]. cbn in *.
  pose proof (Forall_lookup_1 _ _ _ _ Hall Hi) as Hact.
  inversion Hact as [|? ? Hu Hn]; subst.
  etrans; [by apply Hu|]. apply IH; [by apply Forall_insert; auto|by eapply HI, Hu].
Qed.
End all_acts.

#[export] Hint Resolve all_acts_ret all_acts_lift all_acts_bind all_acts_attempt : harness.

(** ** One winner

    Processes that contend for a resource: while it is free they may go on,
    taking it is one atomic action, and once it is [taken] nobody else can
    finish with a [good] result. *)
Section winner.
Context {W A : Type} (taken : W → Prop) (good : A → Prop).

(** In worlds where the resource is taken, [p] never ends well. *)
Inductive loses : Proc W A → Prop :=
| loses_done r : (∀ a, r = Ok a → ¬ good a) → loses (Done r)
| loses_act upd next :
    (∀ w, taken w → loses (next w)) → loses (Act upd next).

(** [p] cannot end well unless it takes the resource itself. *)
Inductive contends : Proc W A → Prop :=
| contends_done r : (∀ a, r = Ok a → ¬ good a) → contends (Done r)
| contends_act upd next :
    (∀ w, taken w → loses (next w)) →
    (∀ w, ¬ taken w → ¬ taken (upd w) → contends (next w)) →
    contends (Act upd next).

Lemma contends_loses p : contends p → loses p.
Proof. by induction 1; constructor. Qed.

Lemma contends_bad a : ¬ good a → contends (mret a).
Proof. intros Ha. constructor. by intros ? [= <-]. Qed.

(** Before the contest a process may do anything. *)
Lemma contends_bind {B} (p : Proc W B) (k : B → Proc W A) :
  (∀ b, contends (k b)) → contends (p ≫= k).
Proof.
  intros Hk. unfold mbind, Proc_bind. induction p as [[b|e|]|upd next IH]; cbn.
  - apply Hk.
  - by constructor.
  - by constructor.
  - constructor; intros w; [intros _; apply contends_loses, IH|intros _ _; apply IH].
Qed.

Lemma contends_atomic_bind {B} (m : M W B) (k : B → Proc W A) :
  (∀ w b, fst (m w) = Ok b → contends (k b)) → contends (atomic m ≫= k).
Proof.
  intros Hk. unfold mbind, Proc_bind. cbn.
  assert (∀ w, contends (pbind (Done (fst (m w))) k)) as Hn.
  { intros w. cbn. destruct (fst (m w)) eqn:E; [by eapply Hk|by constructor..]. }
  constructor; intros w; [intros _; apply contends_loses, Hn|intros _ _; apply Hn].
Qed.

(** The action that takes the resource: if it was taken already, or was not
    taken, the process goes on as a loser. *)
Lemma contends_take {B} (m : M W B) (k : res B → Proc W A) :
  (∀ w, fst (m w) ≠ Panic) →
  (∀ w, taken w → contends (k (fst (m w)))) →
  (∀ w, ¬ taken w → ¬ taken (snd (m w)) → contends (k (fst (m w)))) →
  contends (attempt (atomic m) ≫= k).
Proof.
  intros Hnp Ht Hf. unfold mbind, Proc_bind. cbn. constructor.
  - intros w Hw. specialize (Hnp w). specialize (Ht w Hw). cbn.
    destruct (fst (m w)) as [b|e|]; cbn; [by apply contends_loses..|done].
  - intros w Hw Hw'. specialize (Hnp w). specialize (Hf w Hw Hw'). cbn.
    by destruct (fst (m w)) as [b|e|].
Qed.

Context (taken_dec : ∀ w, Decision (taken w)).

Definition holds_at (Q : Proc W A → Prop) (i : nat) (ps : list (Proc W A)) : Prop :=
  ∃ p, ps !! i = Some p ∧ Q p.

Lemma holds_at_step (Q : Proc W A → Prop) ps m k p' :
  holds_at Q m ps → (∀ p, m = k → ps !! m = Some p → Q p → Q p') → holds_at Q m (<[k := p']> ps).
Proof.
  intros (p & Hm & HQ) Hnext. destruct (decide (m = k)) as [->|Hne].
  - exists p'. split; [|by eapply Hnext].
    apply list_lookup_insert_eq. by eapply lookup_lt_Some.
  - exists p. split; [by rewrite list_lookup_insert_ne|done].
Qed.

Lemma holds_at_loses i ps : holds_at contends i ps → holds_at loses i ps.
Proof. intros (p & ? & ?). exists p. split; [done|by apply contends_loses]. Qed.

(** Either the resource is free and both contend, or one of them has lost. *)
Definition winner_inv (i j : nat) (c : list (Proc W A) * W) : Prop :=
  Forall (all_acts (λ _, True) (λ w w', taken w → taken w')) c.1 ∧
  ((¬ taken c.2 ∧ holds_at contends i c.1 ∧ holds_at contends j c.1) ∨
   (taken c.2 ∧ (holds_at loses i c.1 ∨ holds_at loses j c.1))).

Lemma winner_step i j c c' : i ≠ j → pstep c c' → winner_inv i j c → winner_inv i j c'.
Proof using taken_dec.
  intros Hij [ps w k upd next Hk] [Hall Hcase]. cbn in *.
  pose proof (Forall_lookup_1 _ _ _ _ Hall Hk) as Hact.
  inversion Hact as [|? ? Hu Hn]; subst.
  split; [apply Forall_insert; auto|]. cbn.
  destruct Hcase as [(Hf & Hi & Hj)|(Ht & Hlose)].
  - destruct (taken_dec (upd w)) as [Ht|Hf'].
    + right. split; [done|]. destruct (decide (i = k)) as [->|Hik].
      * right. by apply holds_at_step; [apply holds_at_loses|].
      * left. by apply holds_at_step; [apply holds_at_loses|].
    + left. split; [done|].
      split; (apply holds_at_step; [done|]); intros p -> Hp Hc; simplify_eq;
        inversion Hc; subst; auto.
  - right. split; [by apply Hu|].
    destruct Hlose as [Hl|Hl]; [left|right];
      (apply holds_at_step; [done|]); intros p -> Hp Hc; simplify_eq; inversion Hc; subst; auto.
Qed.

Lemma one_winner (ps ps' : list (Proc W A)) w w' i j a b :
  rtc pstep (ps, w) (ps', w') →
  Forall (all_acts (λ _, True) (λ w w', taken w → taken w')) ps →
  i ≠ j → holds_at contends i ps → holds_at contends j ps →
  ps' !! i = Some (Done (Ok a)) → ps' !! j = Some (Done (Ok b)) → good a → good b → False.
Proof using taken_dec.
  intros Hsteps Hall Hij Hi Hj Ha Hb Hga Hgb.
  assert (winner_inv i j (ps', w')) as [_ Hend].
  { assert (winner_inv i j (ps, w)) as Hinv.
    { split; [done|]. destruct (taken_dec w); [right|by left].
      split; [done|]. left. by apply holds_at_loses. }
    revert Hinv. induction Hsteps as [|c1 c2 c3 Hstep _ IH]; [done|].
    intros Hinv. by apply IH, (winner_step _ _ _ _ Hij Hstep). }
  destruct Hend as [(_ & (p & Hp & Hc) & _)|(_ & [(p & Hp & Hc)|(p & Hp & Hc)])];
    simplify_eq/=; inversion Hc as [? Hbad|]; subst; by eapply Hbad.
Qed.
End winner.

(** ** Owned resources

    A process may own one resource at a time and says so by a token, which also
    holds what it knows about the resource.  [owns Q o p]: from worlds in which
    the invariant and the token [o] hold, every action of [p] keeps the
    invariant, disturbs no token of another resource, takes only resources that
    nobody holds, changes the world as [G] allows, and [p] ends in [Q]. *)
Section owned.
Context {W T R : Type} (I : W → Prop) (G : W → W → Prop) (held : W → T → Prop) (name : T → R).

Definition held_opt (w : W) (o : option T) : Prop := match o with Some t => held w t | None => True end.

Definition elsewhere (o : option T) (r : R) : Prop := name <$> o ≠ Some r.

Definition fair_step (o o' : option T) (w w' : W) : Prop :=
  I w' ∧ G w w' ∧ held_opt w' o' ∧ (∀ t, held w t → elsewhere o (name t) → held w' t) ∧
  (∀ t t', o' = Some t' → held w t → elsewhere o (name t) → name t ≠ name t').

Inductive owns {A} (Q : res A → option T → Prop) : option T → Proc W A → Prop :=
| owns_done o r : Q r o → owns Q o (Done r)
| owns_act o o' upd next :
    (∀ w, I w → held_opt w o → fair_step o (o' w) w (upd w)) →
    (∀ w, I w → held_opt w o → owns Q (o' w) (next w)) → owns Q o (Act upd next).

Lemma owns_atomic {A} (Q : res A → option T → Prop) o (o' : W → option T) (m : M W A) :
  (∀ w, I w → held_opt w o → fair_step o (o' w) w (m w).2 ∧ Q (m w).1 (o' w)) → owns Q o (atomic m).
Proof. intros H. apply (owns_act _ _ o'); intros w Hw Ho; [by apply H|]. constructor. by apply H. Qed.

Lemma owns_bind {A B} (Q1 : res A → option T → Prop) (Q : res B → option T → Prop) o p (k : A → Proc W B) :
  owns Q1 o p → (∀ a o', Q1 (Ok a) o' → owns Q o' (k a)) → (∀ e o', Q1 (Err e) o' → Q (Err e) o') →
  (∀ o', Q1 Panic o' → Q Panic o') → owns Q o (p ≫= k).
Proof.
  intros Hp Hk He Hpa. revert o Hp. induction p as [[a|e|]|upd next IH]; intros o Hp; inversion Hp as [? ? Hr|? o' ? ? Hf Hn]; subst; cbn.
  - by apply Hk.
  - constructor. by apply He.
  - constructor. by apply Hpa.
  - apply (owns_act _ _ o'); intros w Hw Ho; [by apply Hf|]. by apply IH, Hn.
Qed.

(** An action that changes nothing of what the tokens speak of. *)
Lemma fair_frame o w w' : I w' → G w w' → held_opt w o → (∀ t, held w t → held w' t) → fair_step o o w w'.
Proof.
  intros HI HG Ho Hh. split; [done|]. split; [done|]. split; [destruct o; [by apply Hh|done]|]. split; [auto|].
  intros t t' -> _ He E. apply He. cbn. by rewrite E.
Qed.

Lemma owns_frame {A} (Q : res A → option T → Prop) o p :
  all_acts (λ _, True) (λ w w', (I w → I w') ∧ G w w' ∧ ∀ t, held w t → held w' t) p → (∀ r, Q r o) → owns Q o p.
Proof.
  intros Hp HQ. induction Hp as [r|upd next Hu _ IH]; [by constructor|].
  apply (owns_act _ _ (λ _, o)); intros w Hw Ho; [|by apply IH]. destruct (Hu w) as (HI & HG & Hh); [done|]. apply fair_frame; auto.
Qed.

(** Each process of a pool owns something else. *)
Definition pool_owned {A} (Q : res A → option T → Prop) (c : list (Proc W A) * W) : Prop :=
  I c.2 ∧ ∃ os, length os = length c.1 ∧
    (∀ i o p, os !! i = Some o → c.1 !! i = Some p → owns Q o p ∧ held_opt c.2 o) ∧
    (∀ i j t t', os !! i = Some (Some t) → os !! j = Some (Some t') → name t = name t' → i = j).

Lemma pool_owned_step {A} (Q : res A → option T → Prop) c c' : pstep c c' → pool_owned Q c → pool_owned Q c' ∧ G c.2 c'.2.
Proof.
  intros Hs. destruct Hs as [ps w i upd next Hi]. intros [HI (os & Hlen & Hown & Hdis)]. cbn in *.
  destruct (lookup_lt_is_Some_2 os i) as [o Ho]; [rewrite Hlen; by eapply lookup_lt_Some|].
  destruct (Hown i o _ Ho Hi) as [Hp Hh]. inversion Hp as [|? f ? ? Hf Hn]; subst.
  destruct (Hf w HI Hh) as (HI' & HG & Hh' & Hkeep & Hnew). pose proof (Hn w HI Hh) as Hnext. generalize dependent (f w). intros o' Hh' Hnew Hnext.
  split; [|done]. split; [done|]. exists (<[i := o']> os).
  assert (∀ j t, j ≠ i → os !! j = Some (Some t) → held w t ∧ elsewhere o (name t)) as Hoth.
  { intros j t Hne Hj. destruct (lookup_lt_is_Some_2 ps j) as [pj Hpj]; [rewrite <- Hlen; by eapply lookup_lt_Some|].
    destruct (Hown j _ pj Hj Hpj) as [_ Hhj]. split; [done|]. unfold elsewhere. destruct o as [t0|]; cbn; [|done].
    intros [= E]. by apply Hne, (Hdis j i t t0). }
  cbn. split; [by rewrite !length_insert|]. split.
  - intros j oj pj Hj Hpj. destruct (decide (j = i)) as [->|Hne].
    { rewrite list_lookup_insert_eq in Hj by (by eapply lookup_lt_Some). rewrite list_lookup_insert_eq in Hpj by (by eapply lookup_lt_Some). simplify_eq. by split. }
    rewrite list_lookup_insert_ne in Hj by done. rewrite list_lookup_insert_ne in Hpj by done. destruct (Hown j oj pj Hj Hpj) as [Hp' _]. split; [done|].
    destruct oj as [t|]; [|done]. destruct (Hoth j t Hne Hj). by apply Hkeep.
  - assert (∀ j t t', j ≠ i → <[i:=o']> os !! j = Some (Some t) → o' = Some t' → name t ≠ name t') as Hd.
    { intros j t t' Hne Hj Ho'. rewrite list_lookup_insert_ne in Hj by done. destruct (Hoth j t Hne Hj). by eapply Hnew. }
    assert (<[i:=o']> os !! i = Some o') as Ei by (apply list_lookup_insert_eq; by eapply lookup_lt_Some).
    intros j1 j2 t1 t2 H1 H2 E. destruct (decide (j1 = i)) as [->|N1], (decide (j2 = i)) as [->|N2]; [done| | |].
    + rewrite Ei in H1. injection H1 as ->. by destruct (Hd j2 t2 t1 N2 H2 eq_refl).
    + rewrite Ei in H2. injection H2 as ->. by destruct (Hd j1 t1 t2 N1 H1 eq_refl).
    + rewrite list_lookup_insert_ne in H1 by done. rewrite list_lookup_insert_ne in H2 by done. by eapply Hdis.
Qed.

Lemma pool_owned_steps {A} (Q : res A → option T → Prop) `{!PreOrder G} c c' :
  rtc pstep c c' → pool_owned Q c → pool_owned Q c' ∧ G c.2 c'.2.
Proof.
  induction 1 as [c|c1 c2 c3 Hs _ IH]; [done|]. intros Hc. destruct (pool_owned_step Q _ _ Hs Hc) as [Hc2 HG].
  destruct (IH Hc2) as [Hc3 HG']. split; [done|]. by etrans.
Qed.

(** A pool that starts with nothing owned. *)
Lemma pool_owned_start {A} (Q : res A → option T → Prop) ps w : I w → Forall (owns Q None) ps → pool_owned Q (ps, w).
Proof.
  intros HI Hps. split; [done|]. exists (replicate (length ps) None). cbn. split; [apply length_replicate|]. split.
  - intros i o p Ho Hp. apply lookup_replicate in Ho as [-> _]. split; [|done]. by eapply Forall_lookup_1.
  - intros i j t t' Hi. apply lookup_replicate in Hi as [[=] _].
Qed.
End owned.
