(* ===== verification/SeekSequence.v ===== *)
(** * Locating lines (apply-patch: seek_sequence.rs)

    The search for the lines a patch expects, with four levels of strictness.
    Indices are [nat]: none exceeds the number of lines of the file. *)

From S2P Require Import Prelude RustStr.

(** Typographic characters to their ASCII equivalents, on the UTF-8 bytes. *)
Definition normal3 (a b c : ascii) : option ascii :=
  let '(x, y, z) := (byte a, byte b, byte c) in
  if ((x =? 226) && (y =? 128))%N then
    if ((144 <=? z) && (z <=? 149))%N then Some "-"%char
    else if ((152 <=? z) && (z <=? 155))%N then Some "'"%char
    else if ((156 <=? z) && (z <=? 159))%N then Some (ascii_of_N 34)
    else if ((130 <=? z) && (z <=? 138) || (z =? 175))%N then Some " "%char
    else None
  else if ((x =? 226) && (y =? 136) && (z =? 146))%N then Some "-"%char
  else if ((x =? 226) && (y =? 129) && (z =? 159))%N then Some " "%char
  else if ((x =? 227) && (y =? 128) && (z =? 128))%N then Some " "%char
  else None.

Definition normal2 (a b : ascii) : option ascii :=
  if ((byte a =? 194) && (byte b =? 160))%N then Some " "%char else None.

Fixpoint normal_chars (s : string) : string :=
  match s with
  | EmptyString => ""
  | String a s1 =>
      match s1 with
      | String b s2 =>
          match normal2 a b with
          | Some x => String x (normal_chars s2)
          | None =>
              match s2 with
              | String c s3 =>
                  match normal3 a b c with
                  | Some x => String x (normal_chars s3)
                  | None => String a (normal_chars s1)
                  end
              | EmptyString => String a (normal_chars s1)
              end
          end
      | EmptyString => String a ""
      end
  end.

Definition normalise (s : string) : string := normal_chars (trim s).

(** How a line of the file is compared with a line of the pattern. *)
Inductive Strictness := Exact | Rstrip | TrimBoth | Normalised.

Definition same_line (level : Strictness) (line pat : string) : bool :=
  match level with
  | Exact => line == pat
  | Rstrip => trim_end line == trim_end pat
  | TrimBoth => trim line == trim pat
  | Normalised => normalise line == normalise pat
  end.

(** Do the lines from the front agree with the pattern? *)
Fixpoint matches (level : Strictness) (lines pattern : list string) : bool :=
  match pattern, lines with
  | [], _ => true
  | p :: pattern', l :: lines' => same_line level l p && matches level lines' pattern'
  | _ :: _, [] => false
  end.

Definition matches_at (level : Strictness) (lines pattern : list string) (i : nat) : bool :=
  matches level (drop i lines) pattern.

(** [for i in ..] over [count] positions from [i] on. *)
Fixpoint scan (level : Strictness) (lines pattern : list string) (i count : nat) : option nat :=
  match count with
  | O => None
  | S count' =>
      if matches_at level lines pattern i then Some i
      else scan level lines pattern (S i) count'
  end.

Definition search_start (lines pattern : list string) (start : nat) (eof : bool) : nat :=
  if eof && (length pattern <=? length lines)%nat then (length lines - length pattern)%nat else start.

Definition seek_sequence (lines pattern : list string) (start : nat) (eof : bool) : option nat :=
  match pattern with
  | [] => Some start
  | _ :: _ =>
      if (length lines <? length pattern)%nat then None
      else
        let lo := search_start lines pattern start eof in
        let count := (S (length lines - length pattern) - lo)%nat in
        match scan Exact lines pattern lo count with
        | Some i => Some i
        | None =>
            match scan Rstrip lines pattern lo count with
            | Some i => Some i
            | None =>
                match scan TrimBoth lines pattern lo count with
                | Some i => Some i
                | None => scan Normalised lines pattern lo count
                end
            end
        end
  end.

(** ** Facts *)

Definition levels : list Strictness := [Exact; Rstrip; TrimBoth; Normalised].

Lemma scan_Some level lines pattern i count j :
  scan level lines pattern i count = Some j ↔
  (i <= j < i + count)%nat ∧ matches_at level lines pattern j = true ∧
  ∀ k, (i <= k < j)%nat → matches_at level lines pattern k = false.
Proof.
  revert i. induction count as [|count IH]; intros i; cbn; [split; [done|lia]|].
  destruct (matches_at level lines pattern i) eqn:E.
  - split.
    + intros [= <-]. split; [lia|]. split; [done|lia].
    + intros (Hj & Hm & Hbefore). f_equal. destruct (decide (i = j)); [done|].
      rewrite Hbefore in E by lia. done.
  - rewrite IH. split.
    + intros (Hj & Hm & Hbefore). split; [lia|]. split; [done|]. intros k Hk.
      destruct (decide (k = i)) as [->|]; [done|]. apply Hbefore. lia.
    + intros (Hj & Hm & Hbefore). assert (i ≠ j) by congruence.
      split; [lia|]. split; [done|]. intros k Hk. apply Hbefore. lia.
Qed.

Lemma scan_None level lines pattern i count :
  scan level lines pattern i count = None ↔
  ∀ k, (i <= k < i + count)%nat → matches_at level lines pattern k = false.
Proof.
  revert i. induction count as [|count IH]; intros i; cbn; [split; [lia|done]|].
  destruct (matches_at level lines pattern i) eqn:E.
  - split; [done|]. intros H. rewrite H in E by lia. done.
  - rewrite IH. split.
    + intros H k Hk. destruct (decide (k = i)) as [->|]; [done|]. apply H. lia.
    + intros H k Hk. apply H. lia.
Qed.

(** A match lies inside the file. *)
Lemma matches_length level lines pattern :
  matches level lines pattern = true → (length pattern <= length lines)%nat.
Proof.
  revert lines. induction pattern as [|p pattern IH]; intros [|l lines]; cbn; try done; [lia|].
  intros [_ H]%andb_true_iff. apply IH in H. lia.
Qed.

Lemma matches_at_length level lines pattern i :
  pattern ≠ [] → matches_at level lines pattern i = true → (i + length pattern <= length lines)%nat.
Proof.
  unfold matches_at. intros Hne H%matches_length. rewrite length_drop in H.
  destruct pattern; [done|]. cbn in *. lia.
Qed.

(** An exact match is equality of a slice. *)
Lemma matches_exact lines pattern :
  matches Exact lines pattern = true ↔ take (length pattern) lines = pattern.
Proof.
  revert lines. induction pattern as [|p pattern IH]; intros [|l lines]; cbn; try done.
  rewrite andb_true_iff, String.eqb_eq, IH. split; [intros [-> ->]; done|]. by intros [= -> ->].
Qed.

(** The position found is the first one at the strictest level that matches
    anywhere: it lies at or after the start (or, for an end-of-file pattern,
    exactly at the end), every line there agrees with the pattern at that
    level, and no position matches at a stricter level. *)
Definition found_at (lines pattern : list string) (lo i : nat) (n : nat) (level : Strictness) : Prop :=
  levels !! n = Some level ∧
  (lo <= i)%nat ∧ (i + length pattern <= length lines)%nat ∧
  matches_at level lines pattern i = true ∧
  (∀ k, (lo <= k < i)%nat → matches_at level lines pattern k = false) ∧
  (∀ m stricter k, (m < n)%nat → levels !! m = Some stricter → (lo <= k)%nat →
     matches_at stricter lines pattern k = false).

Lemma scan_last_None level lines pattern lo :
  pattern ≠ [] → scan level lines pattern lo (S (length lines - length pattern) - lo) = None →
  ∀ k, (lo <= k)%nat → matches_at level lines pattern k = false.
Proof.
  intros Hne Hn k Hk. rewrite scan_None in Hn.
  destruct (decide (k < lo + (S (length lines - length pattern) - lo))%nat) as [Hlt|Hge]; [apply Hn; lia|].
  destruct (matches_at level lines pattern k) eqn:E; [|done].
  apply matches_at_length in E; [|done]. lia.
Qed.

Section seek.
Context (lines pattern : list string) (start : nat) (eof : bool) (Hne : pattern ≠ []).

#[local] Abbreviation lo := (search_start lines pattern start eof).
#[local] Abbreviation scan_level level :=
  (scan level lines pattern lo (S (length lines - length pattern) - lo)).

(** The four loops: the first level that finds something. *)
Lemma seek_sequence_levels i :
  (length pattern <= length lines)%nat →
  seek_sequence lines pattern start eof = Some i ↔
  ∃ n level, levels !! n = Some level ∧ scan_level level = Some i ∧
    ∀ m stricter, (m < n)%nat → levels !! m = Some stricter → scan_level stricter = None.
Proof using Hne.
  intros Hfit. unfold seek_sequence. destruct pattern as [|p pat] eqn:Ep; [done|]. rewrite <- Ep in *.
  rewrite (proj2 (Nat.ltb_ge _ _) Hfit). split.
  - intros E.
    destruct (scan_level Exact) eqn:E1; [exists 0, Exact; simplify_eq; split_and!; [done..|lia]|].
    destruct (scan_level Rstrip) eqn:E2; [exists 1, Rstrip|destruct (scan_level TrimBoth) eqn:E3;
      [exists 2, TrimBoth|exists 3, Normalised]]; simplify_eq; (split_and!; [done..|]);
      intros [|[|[|m]]] stricter Hm Hls; cbn in Hls; simplify_eq; (done || lia).
  - intros (n & level & Hl & Hs & Hnone). destruct n as [|[|[|[|n]]]]; [..|done]; injection Hl as <-.
    + by rewrite Hs.
    + rewrite (Hnone 0 Exact) by (lia || done). by rewrite Hs.
    + rewrite (Hnone 0 Exact), (Hnone 1 Rstrip) by (lia || done). by rewrite Hs.
    + rewrite (Hnone 0 Exact), (Hnone 1 Rstrip), (Hnone 2 TrimBoth) by (lia || done). by rewrite Hs.
Qed.

Lemma scan_level_Some level j :
  (length pattern <= length lines)%nat →
  scan_level level = Some j ↔
  (lo <= j)%nat ∧ (j + length pattern <= length lines)%nat ∧ matches_at level lines pattern j = true ∧
  ∀ k, (lo <= k < j)%nat → matches_at level lines pattern k = false.
Proof using Hne.
  intros Hfit. rewrite scan_Some. split.
  - intros (? & Hm & ?). split; [lia|]. split; [by apply matches_at_length in Hm|]. done.
  - intros (? & ? & ? & ?). split; [lia|]. done.
Qed.

Lemma seek_sequence_found i :
  seek_sequence lines pattern start eof = Some i ↔ ∃ n level, found_at lines pattern lo i n level.
Proof using Hne.
  destruct (decide (length pattern <= length lines)%nat) as [Hfit|Hlong].
  2:{ split.
      - unfold seek_sequence. destruct pattern; [done|].
        destruct (Nat.ltb_spec (length lines) (length (s :: l))); [done|lia].
      - intros (n & level & _ & _ & Hlen & _). lia. }
  rewrite seek_sequence_levels by done. unfold found_at. split.
  - intros (n & level & Hl & Hs & Hstr). exists n, level.
    apply scan_level_Some in Hs as (? & ? & ? & ?); [|done]. split_and!; try done.
    intros m stricter k Hm Hls. apply scan_last_None; [done|by eapply Hstr].
  - intros (n & level & Hl & Hlo & Hlen & Hm & Hbefore & Hstr). exists n, level.
    split; [done|]. split; [by apply scan_level_Some|].
    intros m stricter Hmn Hls. apply scan_None. intros k Hk. eapply Hstr; [exact Hmn|done|lia].
Qed.
End seek.

(** The search is exact: it answers [i] if and only if [i] is the first
    position of the strictest level that matches at all. *)
Theorem seek_sequence_spec lines pattern start eof i :
  pattern ≠ [] →
  seek_sequence lines pattern start eof = Some i ↔
  ∃ n level, found_at lines pattern (search_start lines pattern start eof) i n level.
Proof. intros Hne. by apply seek_sequence_found. Qed.

(** ** Consequences used by the patch application *)

Lemma seek_sequence_range lines pattern start eof i :
  pattern ≠ [] → seek_sequence lines pattern start eof = Some i →
  (i + length pattern <= length lines)%nat ∧ (eof = false → (start <= i)%nat).
Proof.
  intros Hne E. apply seek_sequence_found in E as (n & level & _ & Hlo & Hlen & _); [|done].
  split; [done|]. intros ->. exact Hlo.
Qed.

(** A pattern for the end of the file is only looked for there: there is no
    second search from [start]. *)
Theorem seek_eof_only_at_end lines pattern start i :
  pattern ≠ [] → seek_sequence lines pattern start true = Some i →
  i = (length lines - length pattern)%nat.
Proof.
  intros Hne E. apply seek_sequence_found in E as (n & level & _ & Hlo & Hlen & _); [|done].
  unfold search_start in Hlo. destruct (Nat.leb_spec (length pattern) (length lines)); cbn in Hlo; lia.
Qed.

(** Lines that are there verbatim are found. *)
Lemma seek_sequence_exact pre pattern post start :
  pattern ≠ [] → (start <= length pre)%nat →
  ∃ i, seek_sequence (pre ++ pattern ++ post) pattern start false = Some i ∧ (start <= i <= length pre)%nat.
Proof.
  intros Hne Hs.
  assert (matches_at Exact (pre ++ pattern ++ post) pattern (length pre) = true) as Hm.
  { unfold matches_at. rewrite drop_app_length. apply matches_exact. by rewrite take_app_length. }
  unfold seek_sequence. destruct pattern as [|p pat] eqn:Ep; [done|]. rewrite <- Ep in *.
  destruct (Nat.ltb_spec (length (pre ++ pattern ++ post)) (length pattern)) as [Hlt|_].
  { rewrite !length_app in Hlt. lia. }
  cbn [search_start andb]. destruct (scan Exact _ _ _ _) as [i|] eqn:E.
  - exists i. split; [done|]. apply scan_Some in E as (Hi & _ & Hbefore). split; [lia|].
    destruct (decide (i <= length pre)%nat); [done|]. rewrite Hbefore in Hm by lia. done.
  - rewrite scan_None in E. rewrite E in Hm; [done|]. rewrite !length_app. lia.
Qed.
