(* ===== verification/PatchParser.v ===== *)
(** * The patch format (apply-patch: parser.rs)

    The text a model sends is cut into lines, its first and last lines are
    checked, and the rest is read hunk by hunk.  Two outcomes that the
    source does not have as values are kept apart from an error: [Crash], an
    index or slice out of range, and [Stuck], a loop that used up its fuel.
    [parse_patch_total] shows that neither happens.  Line numbers and counts
    are [nat]: none exceeds the number of lines of the patch by more than
    three.  A path is its string. *)

From S2P Require Import Prelude RustStr.

(** ** Markers *)

Definition BEGIN_PATCH_MARKER : string := "*** Begin Patch".
Definition ENVIRONMENT_ID_MARKER : string := "*** Environment ID: ".
Definition END_PATCH_MARKER : string := "*** End Patch".
Definition ADD_FILE_MARKER : string := "*** Add File: ".
Definition DELETE_FILE_MARKER : string := "*** Delete File: ".
Definition UPDATE_FILE_MARKER : string := "*** Update File: ".
Definition MOVE_TO_MARKER : string := "*** Move to: ".
Definition EOF_MARKER : string := "*** End of File".
Definition CHANGE_CONTEXT_MARKER : string := "@@ ".
Definition EMPTY_CHANGE_CONTEXT_MARKER : string := "@@".

Definition PARSE_IN_STRICT_MODE : bool := false.

(** ** Data *)

Inductive ParseError :=
| InvalidPatchError (message : string)
| InvalidHunkError (message : string) (line_number : nat).

Record UpdateFileChunk := {
  change_context : option string;
  old_lines : list string;
  new_lines : list string;
  is_end_of_file : bool
}.

Inductive Hunk :=
| AddFile (path contents : string)
| DeleteFile (path : string)
| UpdateFile (path : string) (move_path : option string) (chunks : list UpdateFileChunk).

(** [Hunk::path]: the destination of a rename. *)
Definition hunk_path (h : Hunk) : string :=
  match h with
  | AddFile path _ => path
  | DeleteFile path => path
  | UpdateFile _ (Some path) _ => path
  | UpdateFile path None _ => path
  end.

(** The path [Hunk::resolve_path] resolves: the source of a rename. *)
Definition hunk_source (h : Hunk) : string :=
  match h with
  | UpdateFile path _ _ => path
  | AddFile _ _ | DeleteFile _ => hunk_path h
  end.

Record ApplyPatchArgs := {
  patch : string;
  hunks : list Hunk;
  workdir : option string;
  environment_id : option string
}.

Inductive ParseMode := Strict | Lenient.

(** ** Outcomes *)

Inductive parsed (A : Type) : Type :=
| Parsed (a : A)
| Rejected (e : ParseError)
| Crash
| Stuck.
Arguments Parsed {A} a.
Arguments Rejected {A} e.
Arguments Crash {A}.
Arguments Stuck {A}.

#[export] Instance parsed_ret : MRet parsed := λ A a, Parsed a.
#[export] Instance parsed_bind : MBind parsed := λ A B f m,
  match m with Parsed a => f a | Rejected e => Rejected e | Crash => Crash | Stuck => Stuck end.

(** [&v[n..]]. *)
Definition slice_from {A} (l : list A) (n : nat) : parsed (list A) :=
  if (n <=? length l)%nat then Parsed (drop n l) else Crash.

(** [&v[lo..hi]]. *)
Definition slice_range {A} (l : list A) (lo hi : nat) : parsed (list A) :=
  if (lo <=? hi)%nat && (hi <=? length l)%nat then Parsed (take (hi - lo) (drop lo l)) else Crash.

(** [v[0]]. *)
Definition index_first {A} (l : list A) : parsed A :=
  match l with x :: _ => Parsed x | [] => Crash end.

(** [str::ends_with]. *)
Definition ends_with (s p : string) : bool := starts_with (str_rev s) (str_rev p).

(** ** One chunk of an update *)

Definition empty_chunk (context : option string) : UpdateFileChunk :=
  {| change_context := context; old_lines := []; new_lines := []; is_end_of_file := false |}.

Definition push_old (x : string) (c : UpdateFileChunk) : UpdateFileChunk :=
  {| change_context := change_context c; old_lines := old_lines c ++ [x];
     new_lines := new_lines c; is_end_of_file := is_end_of_file c |}.

Definition push_new (x : string) (c : UpdateFileChunk) : UpdateFileChunk :=
  {| change_context := change_context c; old_lines := old_lines c;
     new_lines := new_lines c ++ [x]; is_end_of_file := is_end_of_file c |}.

Definition set_end_of_file (c : UpdateFileChunk) : UpdateFileChunk :=
  {| change_context := change_context c; old_lines := old_lines c;
     new_lines := new_lines c; is_end_of_file := true |}.

Definition no_lines_error (line_number : nat) : ParseError :=
  InvalidHunkError "Update hunk does not contain any lines" line_number.

Definition unexpected_line (line : string) : string :=
  "Unexpected line found in update hunk: '" +:+ line +:+
  "'. Every line should start with ' ' (context line), '+' (added line), or '-' (removed line)".

Definition expected_context (line : string) : string :=
  "Expected update hunk to start with a @@ context marker, got: '" +:+ line +:+ "'".

(** The [for line in &lines[start_index..]] loop. *)
Fixpoint chunk_loop (line_number : nat) (lines : list string) (chunk : UpdateFileChunk)
    (parsed_lines : nat) : parsed (UpdateFileChunk * nat) :=
  match lines with
  | [] => Parsed (chunk, parsed_lines)
  | line :: rest =>
      if line == EOF_MARKER then
        if (parsed_lines =? 0)%nat then Rejected (no_lines_error (S line_number))
        else Parsed (set_end_of_file chunk, S parsed_lines)
      else
        match line with
        | EmptyString =>
            chunk_loop line_number rest (push_new "" (push_old "" chunk)) (S parsed_lines)
        | String a body =>
            if Ascii.eqb a " "%char then
              chunk_loop line_number rest (push_new body (push_old body chunk)) (S parsed_lines)
            else if Ascii.eqb a "+"%char then
              chunk_loop line_number rest (push_new body chunk) (S parsed_lines)
            else if Ascii.eqb a "-"%char then
              chunk_loop line_number rest (push_old body chunk) (S parsed_lines)
            else if (parsed_lines =? 0)%nat then
              Rejected (InvalidHunkError (unexpected_line line) (S line_number))
            else Parsed (chunk, parsed_lines)
        end
  end.

(** The context marker and how many lines it takes. *)
Definition chunk_header (line : string) (line_number : nat) (allow_missing_context : bool) :
    parsed (option string * nat) :=
  if line == EMPTY_CHANGE_CONTEXT_MARKER then Parsed (None, 1)
  else match strip_prefix CHANGE_CONTEXT_MARKER line with
       | Some context => Parsed (Some context, 1)
       | None =>
           if negb allow_missing_context then
             Rejected (InvalidHunkError (expected_context line) line_number)
           else Parsed (None, 0)
       end.

Definition parse_update_file_chunk (lines : list string) (line_number : nat)
    (allow_missing_context : bool) : parsed (UpdateFileChunk * nat) :=
  match lines with
  | [] => Rejected (no_lines_error line_number)
  | first :: _ =>
      '(context, start_index) ← chunk_header first line_number allow_missing_context;
      if (length lines <=? start_index)%nat then Rejected (no_lines_error (S line_number))
      else
        rest ← slice_from lines start_index;
        '(chunk, parsed_lines) ← chunk_loop line_number rest (empty_chunk context) 0;
        Parsed (chunk, (parsed_lines + start_index)%nat)
  end.

(** ** One hunk *)

(** The [for add_line in &lines[1..]] loop. *)
Fixpoint add_loop (lines : list string) (contents : string) (parsed_lines : nat) : string * nat :=
  match lines with
  | add_line :: rest =>
      match strip_prefix "+" add_line with
      | Some line_to_add =>
          add_loop rest (contents +:+ line_to_add +:+ String newline "") (S parsed_lines)
      | None => (contents, parsed_lines)
      end
  | [] => (contents, parsed_lines)
  end.

(** The [while !remaining_lines.is_empty()] loop of an update hunk; each round
    takes at least one line. *)
Fixpoint chunks_loop (fuel : nat) (line_number : nat) (remaining_lines : list string)
    (parsed_lines : nat) (chunks : list UpdateFileChunk) : parsed (list UpdateFileChunk * nat) :=
  match remaining_lines with
  | [] => Parsed (chunks, parsed_lines)
  | line :: rest =>
      match fuel with
      | O => Stuck
      | S fuel' =>
          if str_is_empty (trim line) then
            chunks_loop fuel' line_number rest (S parsed_lines) chunks
          else if starts_with line "*" then Parsed (chunks, parsed_lines)
          else
            '(chunk, chunk_lines) ←
              parse_update_file_chunk remaining_lines (line_number + parsed_lines)
                (match chunks with [] => true | _ :: _ => false end);
            remaining ← slice_from remaining_lines chunk_lines;
            chunks_loop fuel' line_number remaining (parsed_lines + chunk_lines) (chunks ++ [chunk])
      end
  end.

Definition invalid_header (first_line : string) : string :=
  "'" +:+ first_line +:+ "' is not a valid hunk header. Valid hunk headers: " +:+
  "'*** Add File: {path}', '*** Delete File: {path}', '*** Update File: {path}'".

Definition empty_update (path : string) : string :=
  "Update file hunk for path '" +:+ path +:+ "' is empty".

Definition parse_update_hunk (path : string) (lines : list string) (line_number : nat) :
    parsed (Hunk * nat) :=
  remaining ← slice_from lines 1;
  let move_path := match remaining with
                   | x :: _ => strip_prefix MOVE_TO_MARKER x
                   | [] => None
                   end in
  '(remaining, parsed_lines) ←
    match move_path with
    | Some _ => rest ← slice_from remaining 1; Parsed (rest, 2)
    | None => Parsed (remaining, 1)
    end;
  '(chunks, parsed_lines) ← chunks_loop (length lines) line_number remaining parsed_lines [];
  match chunks with
  | [] => Rejected (InvalidHunkError (empty_update path) line_number)
  | _ :: _ => Parsed (UpdateFile path move_path chunks, parsed_lines)
  end.

Definition parse_one_hunk (lines : list string) (line_number : nat) : parsed (Hunk * nat) :=
  line ← index_first lines;
  let first_line := trim line in
  match strip_prefix ADD_FILE_MARKER first_line with
  | Some path =>
      rest ← slice_from lines 1;
      let '(contents, parsed_lines) := add_loop rest "" 1 in
      Parsed (AddFile path contents, parsed_lines)
  | None =>
      match strip_prefix DELETE_FILE_MARKER first_line with
      | Some path => Parsed (DeleteFile path, 1)
      | None =>
          match strip_prefix UPDATE_FILE_MARKER first_line with
          | Some path => parse_update_hunk path lines line_number
          | None => Rejected (InvalidHunkError (invalid_header first_line) line_number)
          end
      end
  end.

(** ** The whole patch *)

Definition check_start_and_end_lines_strict (first_line last_line : option string) : parsed () :=
  match trim <$> first_line, trim <$> last_line with
  | Some first, Some last =>
      if (first == BEGIN_PATCH_MARKER) && (last == END_PATCH_MARKER) then Parsed ()
      else if negb (first == BEGIN_PATCH_MARKER) then
        Rejected (InvalidPatchError "The first line of the patch must be '*** Begin Patch'")
      else Rejected (InvalidPatchError "The last line of the patch must be '*** End Patch'")
  | Some first, None =>
      if negb (first == BEGIN_PATCH_MARKER) then
        Rejected (InvalidPatchError "The first line of the patch must be '*** Begin Patch'")
      else Rejected (InvalidPatchError "The last line of the patch must be '*** End Patch'")
  | None, _ => Rejected (InvalidPatchError "The last line of the patch must be '*** End Patch'")
  end.

Definition check_patch_boundaries_strict (lines : list string) :
    parsed (list string * list string) :=
  check_start_and_end_lines_strict (head lines) (last lines) ≫= λ _,
  inner ← slice_range lines 1 (length lines - 1);
  Parsed (lines, inner).

Definition is_heredoc_start (first : string) : bool :=
  (first == "<<EOF") || (first == "<<'EOF'") || (first == "<<" +:+ quote +:+ "EOF" +:+ quote).

Definition check_patch_boundaries_lenient (original_lines : list string) :
    parsed (list string * list string) :=
  match check_patch_boundaries_strict original_lines with
  | Rejected original_parse_error =>
      match original_lines with
      | first :: _ :: _ =>
          if is_heredoc_start first && ends_with (default "" (last original_lines)) "EOF"
             && (4 <=? length original_lines)%nat
          then
            inner_lines ← slice_range original_lines 1 (length original_lines - 1);
            check_patch_boundaries_strict inner_lines
          else Rejected original_parse_error
      | _ => Rejected original_parse_error
      end
  | lines => lines
  end.

Definition parse_environment_id_preamble (hunk_lines : list string) :
    parsed (option string * list string * nat) :=
  match hunk_lines with
  | [] => Parsed (None, hunk_lines, 2)
  | first_line :: _ =>
      match strip_prefix ENVIRONMENT_ID_MARKER (trim_start first_line) with
      | None => Parsed (None, hunk_lines, 2)
      | Some id =>
          let id := trim id in
          if str_is_empty id then
            Rejected (InvalidPatchError "apply_patch environment_id cannot be empty")
          else rest ← slice_from hunk_lines 1; Parsed (Some id, rest, 3)
      end
  end.

(** The [while !remaining_lines.is_empty()] loop over hunks. *)
Fixpoint hunks_loop (fuel : nat) (remaining_lines : list string) (line_number : nat)
    (hunks : list Hunk) : parsed (list Hunk) :=
  match remaining_lines with
  | [] => Parsed hunks
  | _ :: _ =>
      match fuel with
      | O => Stuck
      | S fuel' =>
          '(hunk, hunk_lines) ← parse_one_hunk remaining_lines line_number;
          rest ← slice_from remaining_lines hunk_lines;
          hunks_loop fuel' rest (line_number + hunk_lines) (hunks ++ [hunk])
      end
  end.

Definition parse_lines (mode : ParseMode) (lines : list string) : parsed ApplyPatchArgs :=
  '(patch_lines, hunk_lines) ←
    match mode with
    | Strict => check_patch_boundaries_strict lines
    | Lenient => check_patch_boundaries_lenient lines
    end;
  '(id, remaining_lines, line_number) ← parse_environment_id_preamble hunk_lines;
  hunks ← hunks_loop (length remaining_lines) remaining_lines line_number [];
  Parsed {| patch := join (String newline "") patch_lines; hunks := hunks;
            workdir := None; environment_id := id |}.

Definition parse_patch_text (text : string) (mode : ParseMode) : parsed ApplyPatchArgs :=
  parse_lines mode (lines (trim text)).

Definition parse_patch (text : string) : parsed ApplyPatchArgs :=
  parse_patch_text text (if PARSE_IN_STRICT_MODE then Strict else Lenient).

(** ** Totality and the line numbers of errors *)

(** A value satisfying [P] or an error satisfying [E]: neither a panic nor an
    unfinished loop. *)
Definition outcome {A} (P : A → Prop) (E : ParseError → Prop) (r : parsed A) : Prop :=
  match r with
  | Parsed a => P a
  | Rejected e => E e
  | Crash | Stuck => False
  end.

Lemma outcome_bind {A B} (P : A → Prop) (Q : B → Prop) E (m : parsed A) (f : A → parsed B) :
  outcome P E m → (∀ a, P a → outcome Q E (f a)) → outcome Q E (m ≫= f).
Proof. destruct m; cbn; auto. Qed.

Lemma outcome_impl {A} (P Q : A → Prop) (E F : ParseError → Prop) (m : parsed A) :
  outcome P E m → (∀ a, P a → Q a) → (∀ e, E e → F e) → outcome Q F m.
Proof. destruct m; cbn; auto. Qed.

Lemma slice_from_ok {A} (l : list A) n : (n <= length l)%nat → slice_from l n = Parsed (drop n l).
Proof. intros H. unfold slice_from. by rewrite (proj2 (Nat.leb_le _ _) H). Qed.

(** An error about a line in the given range. *)
Definition error_between (lo hi : nat) (e : ParseError) : Prop :=
  match e with
  | InvalidHunkError _ l => (lo <= l <= hi)%nat
  | InvalidPatchError _ => False
  end.

Lemma error_between_weaken lo hi lo' hi' e :
  (lo' <= lo)%nat → (hi <= hi')%nat → error_between lo hi e → error_between lo' hi' e.
Proof. destruct e; cbn; [done|lia]. Qed.

Lemma chunk_loop_outcome n lines c p :
  outcome (λ '(_, k), (p <= k <= p + length lines)%nat ∧ (lines ≠ [] → (1 <= k)%nat))
    (error_between (S n) (S n)) (chunk_loop n lines c p).
Proof.
  revert c p. induction lines as [|line lines IH]; intros c p; cbn [chunk_loop].
  { cbn. split; [lia|done]. }
  destruct (line == EOF_MARKER).
  { destruct (Nat.eqb_spec p 0); cbn; [lia|]. split; lia. }
  assert (∀ c', outcome (λ '(_, k), (p <= k <= p + length (line :: lines))%nat ∧ (line :: lines ≠ [] → (1 <= k)%nat))
    (error_between (S n) (S n)) (chunk_loop n lines c' (S p))) as Hnext.
  { intros c'. eapply outcome_impl; [apply IH| |done]. intros [c1 k] [? _]. cbn. split; [lia|]. lia. }
  destruct line as [|a body]; [apply Hnext|].
  repeat (destruct (Ascii.eqb a _); [apply Hnext|]).
  destruct (Nat.eqb_spec p 0); cbn; [lia|]. split; [lia|]. lia.
Qed.

Lemma parse_update_file_chunk_outcome lines n amc :
  lines ≠ [] →
  outcome (λ '(_, k), (1 <= k <= length lines)%nat) (error_between n (S n))
    (parse_update_file_chunk lines n amc).
Proof.
  destruct lines as [|first lines]; [done|]. intros _. unfold parse_update_file_chunk.
  apply outcome_bind with (P := λ '(_, i), (i <= 1)%nat).
  { unfold chunk_header. destruct (_ == _); cbn; [lia|].
    destruct (strip_prefix _ _); cbn; [lia|]. destruct amc; cbn; lia. }
  intros [context i] Hi. destruct (Nat.leb_spec (length (first :: lines)) i) as [|Hlt]; [cbn; lia|].
  rewrite slice_from_ok by lia. eapply outcome_bind
    with (P := λ '(_, k), (1 <= k <= length (first :: lines) - i)%nat).
  - eapply outcome_impl; [apply chunk_loop_outcome| |intros e; apply error_between_weaken; lia].
    intros [c k] [Hk Hpos]. rewrite length_drop in Hk. split; [|lia]. apply Hpos.
    intros E%(f_equal length). rewrite length_drop in E. cbn in *. lia.
  - intros [c k] Hk. cbn in *. lia.
Qed.

Lemma chunks_loop_outcome fuel n lines p cs :
  (length lines <= fuel)%nat →
  outcome (λ '(_, k), (p <= k <= p + length lines)%nat) (error_between n (n + p + length lines))
    (chunks_loop fuel n lines p cs).
Proof.
  revert lines p cs. induction fuel as [|fuel IH]; intros [|line lines] p cs Hf;
    cbn [chunks_loop]; try (cbn in *; lia).
  destruct (str_is_empty (trim line)).
  { eapply outcome_impl; [apply IH; cbn in *; lia| |].
    - intros [c k]. cbn. lia.
    - intros e. apply error_between_weaken; cbn; lia. }
  destruct (starts_with line "*"); [cbn; lia|].
  eapply outcome_bind with (P := λ '(_, k), (1 <= k <= length (line :: lines))%nat).
  { eapply outcome_impl; [by apply parse_update_file_chunk_outcome|done|].
    intros e. apply error_between_weaken; cbn; lia. }
  intros [c k] Hk. rewrite slice_from_ok by lia. cbn [mbind parsed_bind].
  eapply outcome_impl; [apply IH; rewrite length_drop; cbn in *; lia| |].
  - intros [c' k']. rewrite length_drop. lia.
  - intros e. apply error_between_weaken; rewrite ?length_drop; cbn in *; lia.
Qed.

Lemma parse_update_hunk_outcome path lines n :
  lines ≠ [] →
  outcome (λ '(_, k), (1 <= k <= length lines)%nat) (error_between n (n + length lines))
    (parse_update_hunk path lines n).
Proof.
  destruct lines as [|first lines]; [done|]. intros _. unfold parse_update_hunk.
  rewrite slice_from_ok by (cbn; lia). cbn [mbind parsed_bind drop].
  apply outcome_bind with (P := λ '(rest, p), (1 <= p)%nat ∧ (length rest + p = S (length lines))%nat).
  { destruct lines as [|x lines]; cbn; [lia|]. destruct (strip_prefix _ _); cbn; rewrite ?drop_0; lia. }
  intros [rest p] [Hp Hlen].
  eapply outcome_bind with (P := λ '(_, k), (1 <= k <= length (first :: lines))%nat).
  { eapply outcome_impl; [apply chunks_loop_outcome; cbn; lia| |].
    - intros [c k]. cbn. lia.
    - intros e. apply error_between_weaken; cbn; lia. }
  intros [[|c cs] k] Hk; cbn in *; lia.
Qed.

Lemma add_loop_count lines contents p :
  (p <= (add_loop lines contents p).2 <= p + length lines)%nat.
Proof.
  revert contents p. induction lines as [|x lines IH]; intros contents p; cbn; [lia|].
  destruct (strip_prefix "+" x) as [t|]; cbn; [|lia].
  specialize (IH (contents +:+ t +:+ String newline "") (S p)). lia.
Qed.

Lemma parse_one_hunk_outcome lines n :
  lines ≠ [] →
  outcome (λ '(_, k), (1 <= k <= length lines)%nat) (error_between n (n + length lines))
    (parse_one_hunk lines n).
Proof.
  destruct lines as [|first lines]; [done|]. intros _.
  unfold parse_one_hunk. cbn [index_first mbind parsed_bind].
  destruct (strip_prefix ADD_FILE_MARKER _) as [path|].
  { rewrite slice_from_ok by (cbn; lia). cbn [mbind parsed_bind]. change (drop 1 (first :: lines)) with lines.
    pose proof (add_loop_count lines "" 1) as Hk.
    destruct (add_loop lines "" 1) as [contents k]. cbn in *. lia. }
  destruct (strip_prefix DELETE_FILE_MARKER _) as [path|]; [cbn; lia|].
  destruct (strip_prefix UPDATE_FILE_MARKER _) as [path|]; [by apply parse_update_hunk_outcome|].
  cbn. lia.
Qed.

Lemma hunks_loop_outcome fuel lines n hs :
  (length lines <= fuel)%nat →
  outcome (λ _, True) (error_between n (n + length lines)) (hunks_loop fuel lines n hs).
Proof.
  revert lines n hs. induction fuel as [|fuel IH]; intros [|line lines] n hs Hf;
    cbn [hunks_loop]; try (cbn in *; lia); try done.
  eapply outcome_bind; [by apply parse_one_hunk_outcome|].
  intros [h k] Hk. rewrite slice_from_ok by lia. cbn [mbind parsed_bind].
  eapply outcome_impl; [apply IH; rewrite length_drop; cbn in *; lia|done|].
  intros e. apply error_between_weaken; rewrite ?length_drop; lia.
Qed.

(** The boundary checks: the lines kept are the inner ones. *)
Definition framed (lines : list string) (r : list string * list string) : Prop :=
  (length (snd r) + 2 <= length lines)%nat.

Definition patch_error (e : ParseError) : Prop :=
  match e with InvalidPatchError _ => True | InvalidHunkError _ _ => False end.

Lemma check_start_and_end_outcome f l :
  outcome (λ _, trim <$> f = Some BEGIN_PATCH_MARKER ∧ trim <$> l = Some END_PATCH_MARKER)
    patch_error (check_start_and_end_lines_strict f l).
Proof.
  unfold check_start_and_end_lines_strict. destruct f as [f|]; cbn; [|done].
  destruct l as [l|]; cbn.
  - destruct (String.eqb_spec (trim f) BEGIN_PATCH_MARKER),
      (String.eqb_spec (trim l) END_PATCH_MARKER); cbn; try done. split; congruence.
  - by destruct (_ == _).
Qed.

Lemma slice_inner {A} (l : list A) :
  (2 <= length l)%nat → slice_range l 1 (length l - 1) = Parsed (take (length l - 2) (drop 1 l)).
Proof.
  intros H. unfold slice_range. rewrite !(proj2 (Nat.leb_le _ _)) by lia. cbn [andb].
  by replace (length l - 1 - 1)%nat with (length l - 2)%nat by lia.
Qed.

Lemma check_strict_outcome lines :
  outcome (framed lines) patch_error (check_patch_boundaries_strict lines).
Proof.
  unfold check_patch_boundaries_strict. eapply outcome_bind; [apply check_start_and_end_outcome|].
  intros _ [Hf Hl]. destruct lines as [|a [|b lines]]; [done|pose proof (eq_trans (eq_sym Hf) Hl) as E; discriminate E|].
  rewrite slice_inner by (cbn; lia). unfold framed. cbn [mbind parsed_bind outcome snd].
  rewrite length_take, length_drop. cbn. lia.
Qed.

Lemma check_lenient_outcome lines :
  outcome (framed lines) patch_error (check_patch_boundaries_lenient lines).
Proof.
  unfold check_patch_boundaries_lenient. pose proof (check_strict_outcome lines) as Hs.
  destruct (check_patch_boundaries_strict lines) as [r|e| |]; try done.
  destruct lines as [|a [|b rest]] eqn:El; [done..|]. rewrite <- El in *.
  destruct (_ && _ && _) eqn:Hc; [|done]. apply andb_true_iff in Hc as [_ Hc%Nat.leb_le].
  rewrite slice_inner by lia. cbn [mbind parsed_bind].
  eapply outcome_impl; [apply check_strict_outcome| |done].
  intros r. unfold framed. rewrite length_take, length_drop. lia.
Qed.

Lemma preamble_outcome lines :
  outcome (λ '(_, rest, n), (2 <= n)%nat ∧ (n + length rest = length lines + 2)%nat) patch_error
    (parse_environment_id_preamble lines).
Proof.
  unfold parse_environment_id_preamble. destruct lines as [|x lines]; cbn; [lia|].
  destruct (strip_prefix _ _) as [id|]; cbn; [|lia]. destruct (str_is_empty _); cbn; [done|]. rewrite drop_0. lia.
Qed.

Definition line_in (n : nat) (e : ParseError) : Prop :=
  patch_error e ∨ error_between 2 n e.

Lemma parse_lines_outcome mode lines :
  outcome (λ _, True) (line_in (length lines)) (parse_lines mode lines).
Proof.
  unfold parse_lines. apply outcome_bind with (P := framed lines).
  { destruct mode; (eapply outcome_impl; [|done|by left]);
      [apply check_strict_outcome|apply check_lenient_outcome]. }
  intros [pl hl] Hframed. unfold framed in Hframed. cbn in Hframed.
  eapply outcome_bind; [eapply outcome_impl; [apply preamble_outcome|exact (λ _ H, H)|by left]|].
  intros [[id rest] n] [Hn Hlen].
  eapply outcome_bind; [eapply outcome_impl; [by apply hunks_loop_outcome|exact (λ _ H, H)|]|done].
  intros e He. right. revert He. apply error_between_weaken; lia.
Qed.

(** The parser always answers: it neither panics on an index nor loops
    forever, and when it rejects a hunk, the line it names is a line of the
    patch after the first. *)
Theorem parse_patch_total text :
  (∃ args, parse_patch text = Parsed args) ∨
  (∃ message, parse_patch text = Rejected (InvalidPatchError message)) ∨
  (∃ message l, parse_patch text = Rejected (InvalidHunkError message l) ∧
     (2 <= l <= length (lines (trim text)))%nat).
Proof.
  unfold parse_patch, parse_patch_text. pose proof (parse_lines_outcome Lenient (lines (trim text))) as H.
  cbn [PARSE_IN_STRICT_MODE].
  destruct (parse_lines _ _) as [args|[message|message l]| |]; [by left; eexists|..|done|done]; right.
  - left. by eexists.
  - right. exists message, l. split; [done|]. by destruct H as [H|H].
Qed.
