(* ===== verification/PatchPrint.v ===== *)
(** * Canonical patch texts

    The text of a patch with given hunks, which hunks have one, and that the
    parser reads it back.  The printer is a specification: it follows the
    grammar at the top of parser.rs. *)

From S2P Require Import Prelude RustStr PatchParser.

(** ** Printing *)

Definition chunk_marker (c : UpdateFileChunk) : string :=
  match change_context c with
  | None => EMPTY_CHANGE_CONTEXT_MARKER
  | Some context => CHANGE_CONTEXT_MARKER +:+ context
  end.

(** The lines both blocks begin with are context. *)
Fixpoint shared (old new : list string) : list string :=
  match old, new with
  | o :: old', n :: new' => if o == n then o :: shared old' new' else []
  | _, _ => []
  end.

Definition removed (c : UpdateFileChunk) : list string :=
  drop (length (shared (old_lines c) (new_lines c))) (old_lines c).
Definition inserted (c : UpdateFileChunk) : list string :=
  drop (length (shared (old_lines c) (new_lines c))) (new_lines c).

Definition print_chunk (c : UpdateFileChunk) : list string :=
  chunk_marker c :: map (String " ") (shared (old_lines c) (new_lines c))
  ++ map (String "-") (removed c) ++ map (String "+") (inserted c)
  ++ (if is_end_of_file c then [EOF_MARKER] else []).

(** The lines of a text in which every line is ended. *)
Definition text_lines (s : string) : list string := removelast (split_char newline s).

Fixpoint text_of (ls : list string) : string :=
  match ls with
  | [] => ""
  | l :: ls' => l +:+ String newline (text_of ls')
  end.

Definition print_hunk (h : Hunk) : list string :=
  match h with
  | AddFile path contents => (ADD_FILE_MARKER +:+ path) :: map (String "+") (text_lines contents)
  | DeleteFile path => [DELETE_FILE_MARKER +:+ path]
  | UpdateFile path move_path chunks =>
      (UPDATE_FILE_MARKER +:+ path)
      :: match move_path with Some dest => [MOVE_TO_MARKER +:+ dest] | None => [] end
      ++ concat (map print_chunk chunks)
  end.

Definition print_preamble (id : option string) : list string :=
  match id with Some id => [ENVIRONMENT_ID_MARKER +:+ id] | None => [] end.

Definition print_lines (id : option string) (hs : list Hunk) : list string :=
  BEGIN_PATCH_MARKER :: print_preamble id ++ concat (map print_hunk hs) ++ [END_PATCH_MARKER].

Definition print_patch (id : option string) (hs : list Hunk) : string :=
  join (String newline "") (print_lines id hs).

(** ** The hunks that have a text *)

Definition wf_path (p : string) : bool :=
  negb (str_is_empty p) && (trim_end p == p) && line_ok p.

Definition wf_chunk (c : UpdateFileChunk) : bool :=
  negb (length (old_lines c) + length (new_lines c) =? 0)%nat
  && forallb line_ok (old_lines c) && forallb line_ok (new_lines c)
  && match change_context c with Some context => line_ok context | None => true end.

Definition wf_hunk (h : Hunk) : bool :=
  match h with
  | AddFile path contents =>
      wf_path path && (contents == text_of (text_lines contents)) && forallb line_ok (text_lines contents)
  | DeleteFile path => wf_path path
  | UpdateFile path move_path chunks =>
      wf_path path && match move_path with Some dest => line_ok dest | None => true end
      && match chunks with [] => false | _ :: _ => true end && forallb wf_chunk chunks
  end.

Definition wf_id (id : option string) : bool :=
  match id with
  | Some id => negb (str_is_empty id) && (trim id == id) && line_ok id
  | None => true
  end.

(** ** Reading back a chunk *)

(** What may follow a hunk: nothing or another hunk's header. *)
Definition hunk_end (rest : list string) : Prop :=
  match rest with
  | [] => True
  | l :: _ => (l == EOF_MARKER) = false ∧ ∃ t, l = String "*" t
  end.

(** What may follow a chunk: that, or another chunk. *)
Definition chunk_end (rest : list string) : Prop :=
  match rest with
  | [] => True
  | l :: _ => (l == EOF_MARKER) = false ∧ ∃ a t, l = String a t ∧ (a = "*" ∨ a = "@")%char
  end.

Lemma hunk_end_chunk_end rest : hunk_end rest → chunk_end rest.
Proof. destruct rest; cbn; [done|]. intros (? & t & ->). eauto 6. Qed.

Definition add_lines (c : UpdateFileChunk) (old new : list string) : UpdateFileChunk :=
  {| change_context := change_context c; old_lines := old_lines c ++ old;
     new_lines := new_lines c ++ new; is_end_of_file := is_end_of_file c |}.

Lemma shared_split old new :
  old = shared old new ++ drop (length (shared old new)) old ∧
  new = shared old new ++ drop (length (shared old new)) new.
Proof.
  revert new. induction old as [|o old IH]; intros [|n new]; try done. cbn.
  destruct (String.eqb_spec o n) as [<-|]; [|done]. destruct (IH new) as [E1 E2]. cbn. split; congruence.
Qed.

Lemma old_lines_split c : old_lines c = shared (old_lines c) (new_lines c) ++ removed c.
Proof. apply shared_split. Qed.

Lemma new_lines_split c : new_lines c = shared (old_lines c) (new_lines c) ++ inserted c.
Proof. apply shared_split. Qed.

Lemma add_lines_split c :
  add_lines (add_lines (add_lines (empty_chunk (change_context c)) (shared (old_lines c) (new_lines c))
    (shared (old_lines c) (new_lines c))) (removed c) []) [] (inserted c) =
  {| change_context := change_context c; old_lines := old_lines c; new_lines := new_lines c;
     is_end_of_file := false |}.
Proof. unfold add_lines. cbn. rewrite !app_nil_r, <- old_lines_split, <- new_lines_split. done. Qed.

Lemma chunk_loop_context n ls rest c p :
  chunk_loop n (map (String " ") ls ++ rest) c p = chunk_loop n rest (add_lines c ls ls) (p + length ls).
Proof.
  revert c p. induction ls as [|x ls IH]; intros c p.
  - unfold add_lines. rewrite !app_nil_r, Nat.add_0_r. by destruct c.
  - cbn. rewrite IH. f_equal; [|lia]. unfold add_lines, push_old, push_new. cbn. by rewrite <- !app_assoc.
Qed.

Lemma chunk_loop_old n old rest c p :
  chunk_loop n (map (String "-") old ++ rest) c p = chunk_loop n rest (add_lines c old []) (p + length old).
Proof.
  revert c p. induction old as [|x old IH]; intros c p.
  - unfold add_lines. rewrite !app_nil_r, Nat.add_0_r. by destruct c.
  - cbn. rewrite IH. f_equal; [|lia]. unfold add_lines, push_old. cbn. by rewrite <- app_assoc.
Qed.

Lemma chunk_loop_new n new rest c p :
  chunk_loop n (map (String "+") new ++ rest) c p = chunk_loop n rest (add_lines c [] new) (p + length new).
Proof.
  revert c p. induction new as [|x new IH]; intros c p.
  - unfold add_lines. rewrite !app_nil_r, Nat.add_0_r. by destruct c.
  - cbn. rewrite IH. f_equal; [|lia]. unfold add_lines, push_new. cbn. by rewrite <- app_assoc.
Qed.

Lemma chunk_loop_end n rest c p :
  p ≠ 0%nat → chunk_end rest → chunk_loop n rest c p = Parsed (c, p).
Proof.
  intros Hp. destruct rest as [|l rest]; [done|]. cbn [chunk_end chunk_loop].
  intros (-> & a & t & -> & Ha). rewrite (proj2 (Nat.eqb_neq _ _) Hp).
  by destruct Ha as [-> | ->].
Qed.

Lemma chunk_header_printed c n amc :
  chunk_header (chunk_marker c) n amc = Parsed (change_context c, 1).
Proof.
  destruct c as [[context|] old new eof]; cbn; [|done]. unfold chunk_header.
  change (CHANGE_CONTEXT_MARKER +:+ context == EMPTY_CHANGE_CONTEXT_MARKER) with false.
  by rewrite strip_prefix_app.
Qed.

Lemma length_printed c :
  wf_chunk c = true →
  (1 <= length (shared (old_lines c) (new_lines c)) + length (removed c) + length (inserted c))%nat.
Proof.
  unfold wf_chunk. rewrite !andb_true_iff, negb_true_iff, Nat.eqb_neq. intros [[[Hne _] _] _].
  pose proof (f_equal length (old_lines_split c)) as Eo. pose proof (f_equal length (new_lines_split c)) as En.
  rewrite length_app in Eo, En. lia.
Qed.

Lemma parse_print_chunk c rest n amc :
  wf_chunk c = true → chunk_end rest →
  parse_update_file_chunk (print_chunk c ++ rest) n amc = Parsed (c, length (print_chunk c)).
Proof.
  intros Hne%length_printed Hend.
  unfold parse_update_file_chunk. pose proof (chunk_header_printed c n amc) as Hh.
  unfold print_chunk. cbn [app]. rewrite Hh. cbn [mbind parsed_bind].
  rewrite <- !app_assoc. match goal with |- context [(length ?l <=? 1)%nat] => set (ls := l) end.
  assert (2 <= length ls)%nat as Hlen.
  { unfold ls. cbn. rewrite !length_app, !length_map. lia. }
  rewrite (proj2 (Nat.leb_gt _ _)) by lia. rewrite slice_from_ok by lia.
  unfold ls. cbn [mbind parsed_bind]. change (drop 1 (?x :: ?l)) with l.
  rewrite chunk_loop_context, chunk_loop_old, chunk_loop_new, add_lines_split.
  destruct (is_end_of_file c) eqn:Ee; cbn.
  - rewrite (proj2 (Nat.eqb_neq _ _)) by lia. cbn. rewrite !length_app, !length_map. cbn.
    unfold set_end_of_file. cbn. destruct c; cbn in *; subst. do 2 f_equal. lia.
  - rewrite chunk_loop_end by (lia || done). cbn. rewrite !length_app, !length_map. cbn.
    destruct c; cbn in *; subst. do 2 f_equal. lia.
Qed.

(** ** Reading back a hunk *)

Lemma chunk_marker_first c : ∃ t, chunk_marker c = String "@" t.
Proof. unfold chunk_marker. destruct (change_context c); eexists; reflexivity. Qed.

Lemma print_chunks_end cs rest :
  hunk_end rest → chunk_end (concat (map print_chunk cs) ++ rest).
Proof.
  destruct cs as [|c cs]; [apply hunk_end_chunk_end|]. intros _. cbn.
  destruct (chunk_marker_first c) as [t ->]. split; [done|]. eauto 6.
Qed.

Lemma chunks_loop_end fuel n rest p cs :
  (1 <= fuel)%nat ∨ rest = [] → hunk_end rest → chunks_loop fuel n rest p cs = Parsed (cs, p).
Proof.
  destruct rest as [|l rest]; [by destruct fuel|]. intros [Hf|]; [|done]. intros (_ & t & ->).
  destruct fuel as [|fuel]; [lia|]. cbn [chunks_loop].
  destruct (str_is_empty _) eqn:E; [|by rewrite (starts_with_app "*" t : starts_with (String "*" t) "*" = true)].
  destruct (trim_keeps "*" t eq_refl) as [t' Et]. by rewrite Et in E.
Qed.

Lemma parse_print_chunks fuel n cs rest p acc :
  forallb wf_chunk cs = true → hunk_end rest → (length cs + length rest <= fuel)%nat →
  chunks_loop fuel n (concat (map print_chunk cs) ++ rest) p acc =
  Parsed (acc ++ cs, (p + length (concat (map print_chunk cs)))%nat).
Proof.
  intros Hwf Hend. revert fuel p acc Hwf. induction cs as [|c cs IH]; intros fuel p acc Hwf Hf.
  { cbn. rewrite app_nil_r, Nat.add_0_r. apply chunks_loop_end; [|done]. destruct rest; cbn in *; [auto|lia]. }
  cbn in Hwf. apply andb_true_iff in Hwf as [Hc Hcs]. destruct fuel as [|fuel]; [cbn in *; lia|].
  cbn [map concat]. rewrite <- app_assoc.
  pose proof (parse_print_chunk c (concat (map print_chunk cs) ++ rest) (n + p)
    (match acc with [] => true | _ :: _ => false end) Hc (print_chunks_end cs rest Hend)) as E.
  destruct (chunk_marker_first c) as [t Ht].
  assert (∃ l, print_chunk c = String "@" t :: l) as [l Hl].
  { unfold print_chunk. rewrite Ht. by eexists. }
  rewrite Hl in E |- *. cbn [app chunks_loop]. cbn [app] in E.
  destruct (str_is_empty _) eqn:Ee; [destruct (trim_keeps "@" t eq_refl) as [t' Et]; by rewrite Et in Ee|].
  change (starts_with (String "@" t) "*") with false. cbv iota. rewrite E. cbn [mbind parsed_bind].
  rewrite slice_from_ok by (cbn; rewrite length_app; lia). cbn [mbind parsed_bind].
  change (?x :: l ++ ?r) with ((x :: l) ++ r). rewrite drop_app_length, IH by (done || (cbn in *; lia)).
  rewrite <- app_assoc. cbn. rewrite length_app. do 2 f_equal. lia.
Qed.

(** A header is read as it was written. *)
Lemma trim_header m p :
  match m with String a _ => solid a | "" => false end = true → is_ascii m = true →
  wf_path p = true → trim (m +:+ p) = m +:+ p.
Proof.
  unfold wf_path. rewrite !andb_true_iff, negb_true_iff. destruct m as [|a m]; [done|].
  intros Ha Hm [[Hne Ht] _]. apply String.eqb_eq in Ht. apply String.eqb_neq in Hne.
  unfold trim. change (String a m +:+ p) with (String a (m +:+ p)).
  rewrite trim_start_solid by done. by apply (trim_end_app (String a m)).
Qed.

Lemma add_loop_lines ls rest contents p :
  hunk_end rest →
  add_loop (map (String "+") ls ++ rest) contents p = (contents +:+ text_of ls, (p + length ls)%nat).
Proof.
  intros Hend. revert contents p. induction ls as [|l ls IH]; intros contents p; cbn [map app add_loop].
  - rewrite Nat.add_0_r. cbn. rewrite str_app_nil. destruct rest as [|r rest]; [done|].
    destruct Hend as (_ & t & ->). done.
  - change (strip_prefix "+" (String "+" l)) with (strip_prefix "+" ("+" +:+ l)).
    rewrite strip_prefix_app, IH, !str_app_assoc. cbn. f_equal. lia.
Qed.

Lemma first_not_move cs rest :
  cs ≠ [] →
  match concat (map print_chunk cs) ++ rest with
  | x :: _ => strip_prefix MOVE_TO_MARKER x
  | [] => None
  end = None.
Proof.
  destruct cs as [|c cs]; [done|]. intros _. cbn [map concat print_chunk app].
  by destruct (chunk_marker_first c) as [t ->].
Qed.

Lemma parse_print_update path dest cs rest n :
  wf_hunk (UpdateFile path dest cs) = true → hunk_end rest →
  parse_update_hunk path (print_hunk (UpdateFile path dest cs) ++ rest) n =
  Parsed (UpdateFile path dest cs, length (print_hunk (UpdateFile path dest cs))).
Proof.
  cbn [wf_hunk]. rewrite !andb_true_iff. intros [[_ Hne] Hcs] Hend. unfold parse_update_hunk.
  cbn [print_hunk app]. rewrite slice_from_ok by (cbn; lia). cbn [mbind parsed_bind].
  change (drop 1 (?x :: ?l)) with l. rewrite <- app_assoc.
  assert (∀ p fuel, length cs + length rest <= fuel → ∃ cs', cs = cs' ∧ cs' ≠ [] ∧
    chunks_loop fuel n (concat (map print_chunk cs) ++ rest) p [] =
    Parsed (cs', (p + length (concat (map print_chunk cs)))%nat))%nat as Hloop.
  { intros p fuel Hf. exists cs. split; [done|]. split; [by destruct cs|]. by apply parse_print_chunks. }
  assert (length cs <= length (concat (map print_chunk cs)))%nat as Hlen.
  { clear. induction cs as [|c cs IH]; cbn; [lia|]. rewrite !length_app. lia. }
  destruct dest as [dest|].
  - cbn [app]. rewrite strip_prefix_app, slice_from_ok by (cbn; lia). cbn [mbind parsed_bind].
    change (drop 1 (?x :: ?l)) with l.
    edestruct (Hloop 2%nat) as (cs' & <- & Hne' & ->); [cbn; rewrite length_app; lia|].
    cbn [mbind parsed_bind]. by destruct cs.
  - cbn [app]. rewrite first_not_move by (by destruct cs). cbn [mbind parsed_bind].
    edestruct (Hloop 1%nat) as (cs' & <- & Hne' & ->); [cbn; rewrite length_app; lia|].
    cbn [mbind parsed_bind]. by destruct cs.
Qed.

Lemma parse_print_hunk h rest n :
  wf_hunk h = true → hunk_end rest →
  parse_one_hunk (print_hunk h ++ rest) n = Parsed (h, length (print_hunk h)).
Proof.
  intros Hwf Hend. unfold parse_one_hunk. destruct h as [path contents|path|path dest cs].
  - cbn [wf_hunk] in Hwf. rewrite !andb_true_iff in Hwf. destruct Hwf as [[Hp Hc] _].
    cbn [print_hunk app index_first mbind parsed_bind]. rewrite trim_header by done.
    rewrite (strip_prefix_app ADD_FILE_MARKER), slice_from_ok by (cbn; lia). cbn [mbind parsed_bind].
    change (drop 1 (?x :: ?l)) with l. rewrite add_loop_lines by done.
    apply String.eqb_eq in Hc. cbn. rewrite <- Hc, length_map. done.
  - cbn [print_hunk app index_first mbind parsed_bind]. rewrite trim_header by done.
    change (strip_prefix ADD_FILE_MARKER (DELETE_FILE_MARKER +:+ path)) with (@None string).
    by rewrite (strip_prefix_app DELETE_FILE_MARKER).
  - pose proof (parse_print_update path dest cs rest n Hwf Hend) as E.
    cbn [wf_hunk] in Hwf. rewrite !andb_true_iff in Hwf. destruct Hwf as [[[Hp _] _] _].
    cbn [print_hunk app index_first mbind parsed_bind] in E |- *. rewrite trim_header by done.
    change (strip_prefix ADD_FILE_MARKER (UPDATE_FILE_MARKER +:+ path)) with (@None string).
    change (strip_prefix DELETE_FILE_MARKER (UPDATE_FILE_MARKER +:+ path)) with (@None string).
    cbv iota. by rewrite (strip_prefix_app UPDATE_FILE_MARKER).
Qed.

(** ** Reading back a patch *)

Lemma print_hunk_first h : ∃ t, head (print_hunk h) = Some (String "*" t) ∧ (String "*" t == EOF_MARKER) = false.
Proof. destruct h; eexists; (split; [reflexivity|]); reflexivity. Qed.

Lemma print_hunks_end hs : hunk_end (concat (map print_hunk hs)).
Proof.
  destruct hs as [|h hs]; [done|]. cbn [map concat].
  destruct (print_hunk_first h) as (t & Hh & He).
  destruct (print_hunk h) as [|l ls]; [done|]. cbn in *. injection Hh as ->. eauto.
Qed.

Lemma parse_print_hunks fuel hs n acc :
  forallb wf_hunk hs = true → (length hs <= fuel)%nat →
  hunks_loop fuel (concat (map print_hunk hs)) n acc = Parsed (acc ++ hs).
Proof.
  intros Hwf. revert fuel n acc Hwf. induction hs as [|h hs IH]; intros fuel n acc Hwf Hf.
  { rewrite app_nil_r. by destruct fuel. }
  cbn in Hwf. apply andb_true_iff in Hwf as [Hh Hhs]. destruct fuel as [|fuel]; [cbn in *; lia|].
  cbn [map concat]. pose proof (parse_print_hunk h _ n Hh (print_hunks_end hs)) as E.
  destruct (print_hunk_first h) as (t & Hl & _).
  destruct (print_hunk h) as [|l ls] eqn:Ep; [done|]. cbn [hunks_loop app] in *.
  rewrite E. cbn [mbind parsed_bind]. rewrite slice_from_ok by (cbn; rewrite length_app; lia).
  cbn [mbind parsed_bind]. change (?x :: ?y ++ ?r) with ((x :: y) ++ r).
  rewrite drop_app_length, IH by (done || (cbn in *; lia)). by rewrite <- app_assoc.
Qed.

Lemma length_print_hunks hs : (length hs <= length (concat (map print_hunk hs)))%nat.
Proof.
  induction hs as [|h hs IH]; cbn; [lia|]. rewrite length_app.
  destruct (print_hunk_first h) as (t & Hl & _). destruct (print_hunk h); [done|]. cbn. lia.
Qed.

Lemma check_printed inner :
  check_patch_boundaries_strict (BEGIN_PATCH_MARKER :: inner ++ [END_PATCH_MARKER]) =
  Parsed (BEGIN_PATCH_MARKER :: inner ++ [END_PATCH_MARKER], inner).
Proof.
  unfold check_patch_boundaries_strict.
  assert (last (BEGIN_PATCH_MARKER :: inner ++ [END_PATCH_MARKER]) = Some END_PATCH_MARKER) as ->.
  { rewrite app_comm_cons, last_app. done. }
  cbn [head]. change (check_start_and_end_lines_strict _ _) with (Parsed ()). cbn [mbind parsed_bind].
  rewrite slice_inner by (cbn; rewrite length_app; cbn; lia). cbn [mbind parsed_bind].
  change (drop 1 (?x :: ?l)) with l. cbn [length]. rewrite length_app. cbn [length].
  replace (S (length inner + 1) - 2)%nat with (length inner) by lia. by rewrite take_app_length.
Qed.

Lemma preamble_printed id hs :
  wf_id id = true →
  parse_environment_id_preamble (print_preamble id ++ concat (map print_hunk hs)) =
  Parsed (id, concat (map print_hunk hs), match id with Some _ => 3 | None => 2 end).
Proof.
  intros Hid. unfold parse_environment_id_preamble. destruct id as [id|]; cbn [print_preamble app].
  - cbn in Hid. rewrite !andb_true_iff in Hid. destruct Hid as [[Hne Ht] _].
    change (ENVIRONMENT_ID_MARKER +:+ id) with (String "*" ("** Environment ID: " +:+ id)).
    rewrite trim_start_solid by done.
    change (String "*" ("** Environment ID: " +:+ id)) with (ENVIRONMENT_ID_MARKER +:+ id).
    rewrite strip_prefix_app. apply String.eqb_eq in Ht. rewrite Ht.
    apply negb_true_iff in Hne. rewrite Hne, slice_from_ok by (cbn; lia). done.
  - destruct hs as [|h hs]; [done|]. by destruct h.
Qed.

Lemma parse_printed_lines id hs :
  wf_id id = true → forallb wf_hunk hs = true →
  parse_lines Lenient (print_lines id hs) =
  Parsed {| patch := print_patch id hs; hunks := hs; workdir := None; environment_id := id |}.
Proof.
  intros Hid Hhs. unfold parse_lines, check_patch_boundaries_lenient, print_patch, print_lines.
  rewrite app_assoc, check_printed. cbn [mbind parsed_bind].
  rewrite preamble_printed by done. cbn [mbind parsed_bind].
  by rewrite parse_print_hunks by (done || apply length_print_hunks).
Qed.

(** Every printed line is one line of the text. *)
#[local] Abbreviation all_ok := (Forall (λ l, line_ok l = true)).

Lemma prefixed_ok a ls :
  Ascii.eqb a newline = false → Ascii.eqb a carriage_return = false →
  forallb line_ok ls = true → all_ok (map (String a) ls).
Proof.
  intros Ha Hb. induction ls as [|l ls IH]; cbn; [constructor|].
  rewrite andb_true_iff. intros [??]. constructor; [by apply line_ok_cons|auto].
Qed.

Lemma concat_ok {A} (f : A → list string) (wf : A → bool) xs :
  (∀ x, wf x = true → all_ok (f x)) → forallb wf xs = true → all_ok (concat (map f xs)).
Proof.
  intros Hf. induction xs as [|x xs IH]; cbn; [constructor|].
  rewrite andb_true_iff. intros [??]. apply Forall_app. auto.
Qed.

Lemma split_ok (pre post : list string) :
  forallb line_ok (pre ++ post) = true → forallb line_ok pre = true ∧ forallb line_ok post = true.
Proof. rewrite forallb_app. apply andb_true_iff. Qed.

Lemma print_chunk_ok c : wf_chunk c = true → all_ok (print_chunk c).
Proof.
  unfold wf_chunk. rewrite !andb_true_iff. intros [[[_ Ho] Hn] Hc].
  rewrite (old_lines_split c) in Ho. rewrite (new_lines_split c) in Hn.
  apply split_ok in Ho as [Hs Ho]. apply split_ok in Hn as [_ Hn]. unfold print_chunk. constructor.
  - unfold chunk_marker. destruct (change_context c); [by apply line_ok_app|done].
  - rewrite !Forall_app. split_and!; [by apply prefixed_ok..|]. destruct (is_end_of_file c); by repeat constructor.
Qed.

Lemma wf_path_ok p : wf_path p = true → line_ok p = true.
Proof. unfold wf_path. by rewrite !andb_true_iff; intros [_ ?]. Qed.

Lemma print_hunk_ok h : wf_hunk h = true → all_ok (print_hunk h).
Proof.
  destruct h as [path contents|path|path dest cs]; cbn [wf_hunk print_hunk].
  - rewrite !andb_true_iff. intros [[Hp%wf_path_ok _] Hl].
    constructor; [by apply line_ok_app|by apply prefixed_ok].
  - intros Hp%wf_path_ok. repeat constructor. by apply line_ok_app.
  - rewrite !andb_true_iff. intros [[[Hp%wf_path_ok Hd] _] Hcs].
    constructor; [by apply line_ok_app|]. apply Forall_app. split.
    + destruct dest; repeat constructor. by apply line_ok_app.
    + eapply concat_ok; [apply print_chunk_ok|done].
Qed.

Lemma print_lines_ok id hs :
  wf_id id = true → forallb wf_hunk hs = true → all_ok (print_lines id hs).
Proof.
  intros Hid Hhs. unfold print_lines. constructor; [done|]. rewrite !Forall_app. split_and!.
  - destruct id as [id|]; cbn in *; [|constructor]. rewrite !andb_true_iff in Hid.
    destruct Hid as [_ Hok]. repeat constructor. by apply line_ok_app.
  - eapply concat_ok; [apply print_hunk_ok|done].
  - by repeat constructor.
Qed.

Lemma join_last sep ls l : ∃ s, join sep (ls ++ [l]) = s +:+ l.
Proof.
  induction ls as [|x ls [s IH]]; [by exists ""|].
  destruct ls as [|y ls].
  - exists (x +:+ sep). cbn. by rewrite str_app_assoc.
  - exists (x +:+ sep +:+ s). change (join sep ((x :: y :: ls) ++ [l]))
      with (x +:+ sep +:+ join sep ((y :: ls) ++ [l])). by rewrite IH, !str_app_assoc.
Qed.

Lemma trim_printed id hs : trim (print_patch id hs) = print_patch id hs.
Proof.
  unfold trim, print_patch. assert (∃ s, join (String newline "") (print_lines id hs) = String "*" s) as [s E].
  { unfold print_lines. destruct (print_preamble id ++ _) eqn:Ee; eexists; reflexivity. }
  rewrite E, trim_start_solid by done. rewrite <- E. clear s E.
  unfold print_lines. rewrite app_assoc, app_comm_cons.
  destruct (join_last (String newline "") (BEGIN_PATCH_MARKER :: print_preamble id ++ concat (map print_hunk hs))
    END_PATCH_MARKER) as [s ->].
  change END_PATCH_MARKER with ("*** End Patc" +:+ String "h" ""). rewrite <- str_app_assoc.
  by apply trim_end_solid.
Qed.

(** C19. The parser reads a printed patch back: every well-formed list of hunks,
    with or without an environment id, has a text the parser maps to exactly
    that list. *)
Theorem parse_print_roundtrip id hs :
  wf_id id = true → forallb wf_hunk hs = true →
  parse_patch (print_patch id hs) =
  Parsed {| patch := print_patch id hs; hunks := hs; workdir := None; environment_id := id |}.
Proof.
  intros Hid Hhs. unfold parse_patch, parse_patch_text. cbn [PARSE_IN_STRICT_MODE].
  rewrite trim_printed. unfold print_patch at 1. rewrite lines_join.
  - by apply parse_printed_lines.
  - by apply print_lines_ok.
  - intros l. unfold print_lines. rewrite app_assoc, app_comm_cons, last_app. by intros [= <-].
Qed.
