(* ===== verification/StreamParser.v ===== *)
(** * The streaming parser (apply-patch: streaming_parser.rs)

    The parser that previews a patch while the model is still writing it.
    Text arrives in pieces of any size; complete lines are handled one by
    one.  An operation returns an outcome and the parser it leaves behind. *)

From S2P Require Import Prelude RustStr PatchParser PatchPrint.

Inductive StreamingParserMode :=
| NotStarted
| StartedPatch
| ModeAddFile
| ModeDeleteFile
| ModeUpdateFile (hunk_line_number : nat)
| EndedPatch.

Record StreamingParserState := { mode : StreamingParserMode; shown : list Hunk }.

Record StreamingPatchParser := {
  line_buffer : string;
  state : StreamingParserState;
  line_number : nat
}.

(** [StreamingPatchParser::default()]. *)
Definition parser_default : StreamingPatchParser :=
  {| line_buffer := ""; state := {| mode := NotStarted; shown := [] |}; line_number := 0 |}.

Definition set_state (st : StreamingParserState) (p : StreamingPatchParser) : StreamingPatchParser :=
  {| line_buffer := line_buffer p; state := st; line_number := line_number p |}.

Definition set_mode (m : StreamingParserMode) (p : StreamingPatchParser) : StreamingPatchParser :=
  set_state {| mode := m; shown := shown (state p) |} p.

Definition set_buffer (b : string) (p : StreamingPatchParser) : StreamingPatchParser :=
  {| line_buffer := b; state := state p; line_number := line_number p |}.

(** [std::mem::take(&mut self.line_buffer)] and the line count. *)
Definition take_line (p : StreamingPatchParser) : StreamingPatchParser :=
  {| line_buffer := ""; state := state p; line_number := S (line_number p) |}.

(** [last_mut]. *)
Fixpoint update_last {A} (f : A → A) (l : list A) : list A :=
  match l with
  | [] => []
  | [x] => [f x]
  | x :: l' => x :: update_last f l'
  end.

Definition chunk_is_empty (c : UpdateFileChunk) : bool :=
  match old_lines c, new_lines c with [], [] => true | _, _ => false end.

(** [chunks.last().is_some_and(..)] *)
Definition last_chunk_empty (chunks : list UpdateFileChunk) : bool :=
  match last chunks with Some c => chunk_is_empty c | None => false end.

Definition last_chunk_filled (chunks : list UpdateFileChunk) : bool :=
  match last chunks with Some c => negb (chunk_is_empty c) | None => false end.

Definition is_environment_id_preamble_line (line : string) : bool :=
  starts_with line ENVIRONMENT_ID_MARKER.

(** ** Hunk headers *)

Definition ensure_update_hunk_is_not_empty (p : StreamingPatchParser) (line : string) : parsed () :=
  match last (shown (state p)) with
  | Some (UpdateFile path _ chunks) =>
      match chunks, mode (state p) with
      | [], ModeUpdateFile hunk_line_number =>
          Rejected (InvalidHunkError (empty_update path) hunk_line_number)
      | _, _ =>
          if last_chunk_empty chunks then
            if line == END_PATCH_MARKER then Rejected (no_lines_error (line_number p))
            else Rejected (InvalidHunkError (unexpected_line line) (line_number p))
          else Parsed ()
      end
  | _ => Parsed ()
  end.

(** Show a new hunk. *)
Definition open_hunk (h : Hunk) (m : StreamingParserMode) (p : StreamingPatchParser) : StreamingPatchParser :=
  set_state {| mode := m; shown := shown (state p) ++ [h] |} p.

(** [ensure_update_hunk_is_not_empty(trimmed)?], then the change of mode. *)
Definition checked (p : StreamingPatchParser) (trimmed : string) (next : StreamingPatchParser) :
    parsed bool * StreamingPatchParser :=
  match ensure_update_hunk_is_not_empty p trimmed with
  | Parsed _ => (Parsed true, next)
  | Rejected e => (Rejected e, p)
  | Crash => (Crash, p)
  | Stuck => (Stuck, p)
  end.

Definition handle_hunk_headers_and_end_patch (p : StreamingPatchParser) (trimmed : string) :
    parsed bool * StreamingPatchParser :=
  if trimmed == END_PATCH_MARKER then checked p trimmed (set_mode EndedPatch p)
  else match strip_prefix ADD_FILE_MARKER trimmed with
  | Some path => checked p trimmed (open_hunk (AddFile path "") ModeAddFile p)
  | None =>
      match strip_prefix DELETE_FILE_MARKER trimmed with
      | Some path => checked p trimmed (open_hunk (DeleteFile path) ModeDeleteFile p)
      | None =>
          match strip_prefix UPDATE_FILE_MARKER trimmed with
          | Some path =>
              checked p trimmed (open_hunk (UpdateFile path None []) (ModeUpdateFile (line_number p)) p)
          | None => (Parsed false, p)
          end
      end
  end.

(** ** Lines of an update hunk *)

(** [if chunks.is_empty() { chunks.push(..) }]. *)
Definition some_chunk (chunks : list UpdateFileChunk) : list UpdateFileChunk :=
  match chunks with [] => [empty_chunk None] | _ :: _ => chunks end.

Definition update_step (line : string) (n : nat) (move_path : option string)
    (chunks : list UpdateFileChunk) : parsed (option string * list UpdateFileChunk) :=
  let update_line := trim_end line in
  match match chunks, move_path with
        | [], None => strip_prefix MOVE_TO_MARKER update_line
        | _, _ => None
        end with
  | Some move_to_path => Parsed (Some move_to_path, chunks)
  | None =>
      if ((update_line == EMPTY_CHANGE_CONTEXT_MARKER) || starts_with update_line CHANGE_CONTEXT_MARKER)
         && last_chunk_empty chunks
      then Rejected (InvalidHunkError (unexpected_line line) n)
      else if update_line == EMPTY_CHANGE_CONTEXT_MARKER then
        Parsed (move_path, chunks ++ [empty_chunk None])
      else match strip_prefix CHANGE_CONTEXT_MARKER update_line with
      | Some context => Parsed (move_path, chunks ++ [empty_chunk (Some context)])
      | None =>
          if update_line == EOF_MARKER then
            if last_chunk_empty chunks then Rejected (no_lines_error n)
            else Parsed (move_path, update_last set_end_of_file chunks)
          else match line with
          | EmptyString =>
              Parsed (move_path, update_last (λ c, push_new "" (push_old "" c)) (some_chunk chunks))
          | String a body =>
              if Ascii.eqb a " "%char then
                Parsed (move_path, update_last (λ c, push_new body (push_old body c)) (some_chunk chunks))
              else if Ascii.eqb a "+"%char then
                Parsed (move_path, update_last (push_new body) (some_chunk chunks))
              else if Ascii.eqb a "-"%char then
                Parsed (move_path, update_last (push_old body) (some_chunk chunks))
              else if last_chunk_filled chunks then
                Rejected (InvalidHunkError (expected_context line) n)
              else Rejected (InvalidHunkError (unexpected_line line) n)
          end
      end
  end.

(** ** One line *)

Definition header_or (p : StreamingPatchParser) (trimmed : string)
    (k : StreamingPatchParser → parsed () * StreamingPatchParser) : parsed () * StreamingPatchParser :=
  match handle_hunk_headers_and_end_patch p trimmed with
  | (Parsed true, p') => (Parsed (), p')
  | (Parsed false, p') => k p'
  | (Rejected e, p') => (Rejected e, p')
  | (Crash, p') => (Crash, p')
  | (Stuck, p') => (Stuck, p')
  end.

Definition replace_last (h : Hunk) (p : StreamingPatchParser) : StreamingPatchParser :=
  set_state {| mode := mode (state p); shown := update_last (λ _, h) (shown (state p)) |} p.

Definition bad_header (trimmed : string) (p : StreamingPatchParser) : parsed () * StreamingPatchParser :=
  (Rejected (InvalidHunkError (invalid_header trimmed) (line_number p)), p).

Definition process_line (line : string) (p : StreamingPatchParser) : parsed () * StreamingPatchParser :=
  let trimmed := trim line in
  match mode (state p) with
  | NotStarted =>
      if trimmed == BEGIN_PATCH_MARKER then (Parsed (), set_mode StartedPatch p)
      else (Rejected (InvalidPatchError "The first line of the patch must be '*** Begin Patch'"), p)
  | StartedPatch =>
      if is_environment_id_preamble_line line then (Parsed (), p)
      else header_or p trimmed (bad_header trimmed)
  | ModeAddFile =>
      header_or p trimmed (λ p,
        match strip_prefix "+" line, last (shown (state p)) with
        | Some line_to_add, Some (AddFile path contents) =>
            (Parsed (), replace_last (AddFile path (contents +:+ line_to_add +:+ String newline "")) p)
        | _, _ => bad_header trimmed p
        end)
  | ModeDeleteFile => header_or p trimmed (bad_header trimmed)
  | ModeUpdateFile _ =>
      header_or p (trim_end line) (λ p,
        match last (shown (state p)) with
        | Some (UpdateFile path move_path chunks) =>
            match update_step line (line_number p) move_path chunks with
            | Parsed (move_path, chunks) => (Parsed (), replace_last (UpdateFile path move_path chunks) p)
            | Rejected e => (Rejected e, p)
            | Crash => (Crash, p)
            | Stuck => (Stuck, p)
            end
        | _ => (Rejected (InvalidHunkError (unexpected_line line) (line_number p)), p)
        end)
  | EndedPatch => (Parsed (), p)
  end.

(** ** Pieces of text *)

(** The loop over the characters of a piece. *)
Fixpoint push_chars (delta : string) (p : StreamingPatchParser) : parsed () * StreamingPatchParser :=
  match delta with
  | EmptyString => (Parsed (), p)
  | String ch rest =>
      if Ascii.eqb ch newline then
        match process_line (strip_cr (line_buffer p)) (take_line p) with
        | (Parsed _, p') => push_chars rest p'
        | r => r
        end
      else push_chars rest (set_buffer (line_buffer p +:+ String ch "") p)
  end.

Definition push_delta (delta : string) (p : StreamingPatchParser) : parsed (list Hunk) * StreamingPatchParser :=
  match push_chars delta p with
  | (Parsed _, p') => (Parsed (shown (state p')), p')
  | (Rejected e, p') => (Rejected e, p')
  | (Crash, p') => (Crash, p')
  | (Stuck, p') => (Stuck, p')
  end.

Definition check_ended (p : StreamingPatchParser) : parsed (list Hunk) * StreamingPatchParser :=
  match mode (state p) with
  | EndedPatch => (Parsed (shown (state p)), p)
  | _ => (Rejected (InvalidPatchError "The last line of the patch must be '*** End Patch'"), p)
  end.

Definition finish (p : StreamingPatchParser) : parsed (list Hunk) * StreamingPatchParser :=
  if negb (str_is_empty (line_buffer p)) then
    let line := line_buffer p in
    let p := take_line p in
    match
      if trim line == END_PATCH_MARKER then
        match ensure_update_hunk_is_not_empty p (trim line) with
        | Parsed _ => (Parsed (), set_mode EndedPatch p)
        | r => (r, p)
        end
      else process_line line p
    with
    | (Parsed _, p') => check_ended p'
    | (Rejected e, p') => (Rejected e, p')
    | (Crash, p') => (Crash, p')
    | (Stuck, p') => (Stuck, p')
    end
  else check_ended p.

(** A whole session: the pieces in order, then the end, up to the first
    error. *)
Fixpoint feed (deltas : list string) (p : StreamingPatchParser) : parsed (list Hunk) :=
  match deltas with
  | [] => (finish p).1
  | delta :: rest =>
      match push_delta delta p with
      | (Parsed _, p') => feed rest p'
      | (r, _) => r
      end
  end.

(** ** How the text is cut does not matter *)

Lemma push_chars_app a b p :
  push_chars (a +:+ b) p =
  match push_chars a p with
  | (Parsed _, p') => push_chars b p'
  | r => r
  end.
Proof.
  revert p. induction a as [|ch a IH]; intros p; [done|].
  change (String ch a +:+ b) with (String ch (a +:+ b)). cbn [push_chars].
  destruct (Ascii.eqb ch newline); [|by rewrite IH].
  destruct (process_line _ _) as [[u|e| |] p']; [by rewrite IH|done..].
Qed.

(** One piece or many: a session depends only on the text. *)
Lemma feed_concat deltas p : feed deltas p = feed [String.concat "" deltas] p.
Proof.
  assert (∀ x l, String.concat "" (x :: l) = x +:+ String.concat "" l) as Hc.
  { intros x [|y l]; [by rewrite str_app_nil|done]. }
  revert p. induction deltas as [|d deltas IH]; intros p; [done|].
  rewrite Hc. cbn [feed]. unfold push_delta. rewrite push_chars_app.
  by destruct (push_chars d p) as [[u|e| |] p1].
Qed.

(** ** A session line by line *)

Fixpoint run_lines (ls : list string) (p : StreamingPatchParser) : parsed () * StreamingPatchParser :=
  match ls with
  | [] => (Parsed (), p)
  | l :: ls' =>
      match process_line l (take_line p) with
      | (Parsed _, p') => run_lines ls' p'
      | r => r
      end
  end.

Lemma run_lines_app a b p :
  run_lines (a ++ b) p = match run_lines a p with (Parsed _, p') => run_lines b p' | r => r end.
Proof.
  revert p. induction a as [|l a IH]; intros p; [done|]. cbn.
  destruct (process_line _ _) as [[u|e| |] p']; [by rewrite IH|done..].
Qed.

(** Lines change neither the buffer nor the count. *)
Definition same_input (p p' : StreamingPatchParser) : Prop :=
  line_buffer p' = line_buffer p ∧ line_number p' = line_number p.

Lemma handle_same_input p t : same_input p (handle_hunk_headers_and_end_patch p t).2.
Proof.
  unfold handle_hunk_headers_and_end_patch, checked. repeat case_goal; cbn; split; reflexivity.
Qed.

Lemma header_or_same_input p t k :
  (∀ p', same_input p' (k p').2) → same_input p (header_or p t k).2.
Proof.
  intros Hk. unfold header_or. pose proof (handle_same_input p t) as H.
  destruct (handle_hunk_headers_and_end_patch p t) as [[[]|e| |] p']; try done.
  specialize (Hk p'). unfold same_input in *. cbn in *. intuition congruence.
Qed.

Lemma process_line_same_input line p : same_input p (process_line line p).2.
Proof.
  unfold process_line. destruct (mode (state p)).
  - by destruct (_ == _).
  - destruct (is_environment_id_preamble_line line); [done|]. by apply header_or_same_input.
  - apply header_or_same_input. intros p'. repeat case_goal; done.
  - by apply header_or_same_input.
  - apply header_or_same_input. intros p'. repeat case_goal; done.
  - done.
Qed.

Lemma push_chars_partial l p :
  str_forall (λ a, negb (Ascii.eqb a newline)) l = true →
  push_chars l p = (Parsed (), set_buffer (line_buffer p +:+ l) p).
Proof.
  revert p. induction l as [|a l IH]; intros p; cbn.
  { intros _. rewrite str_app_nil. by destruct p. }
  destruct (Ascii.eqb a newline); cbn; [done|]. intros H. rewrite IH by done. cbn.
  rewrite str_app_assoc. done.
Qed.

(** Complete lines that arrive with an empty buffer. *)
Lemma push_chars_lines ls rest p :
  Forall (λ l, line_ok l = true) ls → line_buffer p = "" →
  push_chars (text_of ls +:+ rest) p =
  match run_lines ls p with (Parsed _, p') => push_chars rest p' | r => r end.
Proof.
  intros Hok. revert p. induction Hok as [|l ls Hl _ IH]; intros p Hb; [done|].
  apply andb_true_iff in Hl as [Hnl Hcr]. apply String.eqb_eq in Hcr.
  cbn [text_of run_lines]. rewrite str_app_assoc. rewrite push_chars_app, push_chars_partial by done.
  change (String newline ?x +:+ ?y) with (String newline (x +:+ y)). cbn [push_chars].
  rewrite Ascii.eqb_refl, Hb. cbn [set_buffer line_buffer].
  change ("" +:+ l) with l. rewrite Hcr. change (take_line (set_buffer l p)) with (take_line p).
  pose proof (process_line_same_input l (take_line p)) as [Hbuf _].
  destruct (process_line l (take_line p)) as [[u|e| |] p']; [|done..]. by apply IH.
Qed.
