(* ===== verification/StreamFacts.v ===== *)
(** * What the streaming parser shows

    Fed the text of a printed patch in any pieces, it ends with the hunks the
    batch parser reads; and while text arrives, hunks that have been shown
    only grow. *)

From S2P Require Import Prelude RustStr PatchParser PatchPrint StreamParser.

(** Trailing white space is trimmed from contexts and destinations here, and
    kept by the batch parser. *)
Definition trimmed_end (s : string) : bool := negb (str_is_empty s) && (trim_end s == s).

Definition stream_wf_hunk (h : Hunk) : bool :=
  match h with
  | UpdateFile _ dest chunks =>
      match dest with Some dest => trimmed_end dest | None => true end
      && forallb (λ c, match change_context c with Some x => trimmed_end x | None => true end) chunks
  | _ => true
  end.

Lemma trimmed_end_marker m s : is_ascii m = true → trimmed_end s = true → trim_end (m +:+ s) = m +:+ s.
Proof.
  unfold trimmed_end. rewrite andb_true_iff, negb_true_iff. intros Hm [Hne Ht].
  apply String.eqb_neq in Hne. apply String.eqb_eq in Ht. by apply trim_end_app.
Qed.

(** ** Headers *)

(** No update hunk is left without lines. *)
Definition settled (p : StreamingPatchParser) : Prop :=
  line_buffer p = "" ∧
  match mode (state p) with NotStarted | EndedPatch => False | _ => True end ∧
  match last (shown (state p)) with
  | Some (UpdateFile _ _ chunks) => last_chunk_filled chunks = true
  | _ => True
  end.

Lemma filled_not_empty cs : last_chunk_filled cs = true → last_chunk_empty cs = false ∧ cs ≠ [].
Proof.
  unfold last_chunk_filled, last_chunk_empty. destruct cs as [|c cs]; [done|].
  destruct (last (c :: cs)); [|done]. rewrite negb_true_iff. auto.
Qed.

Lemma settled_ensure p t : settled p → ensure_update_hunk_is_not_empty (take_line p) t = Parsed ().
Proof.
  intros (_ & _ & Hl). unfold ensure_update_hunk_is_not_empty. cbn [take_line state].
  destruct (last (shown (state p))) as [[| |path dest cs]|]; try done.
  apply filled_not_empty in Hl as [-> Hne]. by destruct cs.
Qed.

(** The parser after a header line. *)
Definition opened (h : Hunk) (m : StreamingParserMode) (p : StreamingPatchParser) : StreamingPatchParser :=
  open_hunk h m (take_line p).

Definition header_case (marker : string) (h : string → Hunk) (m : nat → StreamingParserMode) : Prop :=
  ∀ path p, wf_path path = true → settled p →
  process_line (marker +:+ path) (take_line p) = (Parsed (), opened (h path) (m (S (line_number p))) p).

Lemma header_case_intro marker h m :
  match marker with String a _ => solid a | "" => false end = true → is_ascii marker = true →
  (∀ path, is_environment_id_preamble_line (marker +:+ path) = false) →
  (∀ path p, settled p →
     handle_hunk_headers_and_end_patch (take_line p) (marker +:+ path) =
     (Parsed true, opened (h path) (m (S (line_number p))) p)) →
  header_case marker h m.
Proof.
  intros Hs Ha Henv Hh path p Hp Hset. unfold process_line, header_or.
  rewrite trim_header by done.
  assert (trim_end (marker +:+ path) = marker +:+ path) as Ht.
  { unfold wf_path in Hp. rewrite !andb_true_iff, negb_true_iff in Hp. destruct Hp as [[Hne Ht] _].
    apply String.eqb_neq in Hne. apply String.eqb_eq in Ht. by apply trim_end_app. }
  rewrite Ht, Henv, Hh by done. destruct Hset as (_ & Hm & _). cbn [take_line state].
  by destruct (mode (state p)).
Qed.

Lemma header_add : header_case ADD_FILE_MARKER (λ path, AddFile path "") (λ _, ModeAddFile).
Proof.
  apply header_case_intro; [done..|]. intros path p Hset. unfold handle_hunk_headers_and_end_patch.
  change (ADD_FILE_MARKER +:+ path == END_PATCH_MARKER) with false. cbv iota.
  rewrite strip_prefix_app. unfold checked. by rewrite settled_ensure.
Qed.

Lemma header_delete : header_case DELETE_FILE_MARKER DeleteFile (λ _, ModeDeleteFile).
Proof.
  apply header_case_intro; [done..|]. intros path p Hset. unfold handle_hunk_headers_and_end_patch.
  change (DELETE_FILE_MARKER +:+ path == END_PATCH_MARKER) with false.
  change (strip_prefix ADD_FILE_MARKER (DELETE_FILE_MARKER +:+ path)) with (@None string). cbv iota.
  rewrite strip_prefix_app. unfold checked. by rewrite settled_ensure.
Qed.

Lemma header_update : header_case UPDATE_FILE_MARKER (λ path, UpdateFile path None []) ModeUpdateFile.
Proof.
  apply header_case_intro; [done..|]. intros path p Hset. unfold handle_hunk_headers_and_end_patch.
  change (UPDATE_FILE_MARKER +:+ path == END_PATCH_MARKER) with false.
  change (strip_prefix ADD_FILE_MARKER (UPDATE_FILE_MARKER +:+ path)) with (@None string).
  change (strip_prefix DELETE_FILE_MARKER (UPDATE_FILE_MARKER +:+ path)) with (@None string). cbv iota.
  rewrite strip_prefix_app. unfold checked. by rewrite settled_ensure.
Qed.

Lemma update_last_app {A} (f : A → A) l x : update_last f (l ++ [x]) = l ++ [f x].
Proof. induction l as [|y l IH]; [done|]. cbn. rewrite IH. by destruct l. Qed.

(** A line that is no header, by its first character. *)
Lemma not_header a t p :
  Ascii.eqb a "*"%char = false → handle_hunk_headers_and_end_patch p (String a t) = (Parsed false, p).
Proof.
  intros Ha. unfold handle_hunk_headers_and_end_patch.
  assert (∀ m, strip_prefix (String "*" m) (String a t) = None) as Hs.
  { intros m. unfold strip_prefix. destruct (starts_with _ _) eqn:E; [|done].
    apply starts_with_spec in E as [u E]. injection E as E _. rewrite E in Ha. discriminate Ha. }
  assert ((String a t == END_PATCH_MARKER) = false) as ->.
  { apply String.eqb_neq. intros [= E _]. rewrite E in Ha. discriminate Ha. }
  unfold ADD_FILE_MARKER, DELETE_FILE_MARKER, UPDATE_FILE_MARKER. by rewrite !Hs.
Qed.

(** ** The lines of an added file *)

Definition adding (p : StreamingPatchParser) (hs : list Hunk) (path contents : string) : Prop :=
  line_buffer p = "" ∧ mode (state p) = ModeAddFile ∧ shown (state p) = hs ++ [AddFile path contents].

Lemma adding_settled p hs path contents : adding p hs path contents → settled p.
Proof.
  intros (Hb & Hm & Hs). unfold settled. rewrite Hb, Hm, Hs, last_snoc. done.
Qed.

Lemma process_add_line p hs path contents l :
  adding p hs path contents →
  ∃ p', process_line (String "+" l) (take_line p) = (Parsed (), p') ∧
    adding p' hs path (contents +:+ l +:+ String newline "").
Proof.
  intros (Hb & Hm & Hs). unfold process_line. cbn [take_line state]. rewrite Hm. unfold header_or.
  destruct (trim_keeps "+" l eq_refl) as [t ->]. rewrite not_header by done.
  rewrite (strip_prefix_app "+" l : strip_prefix "+" (String "+" l) = Some l).
  cbn [take_line state]. rewrite Hs, last_snoc. eexists. split; [reflexivity|].
  unfold adding, replace_last. cbn. rewrite Hm, Hs, update_last_app. done.
Qed.

Lemma run_add_lines ls p hs path contents :
  adding p hs path contents →
  ∃ p', run_lines (map (String "+") ls) p = (Parsed (), p') ∧ adding p' hs path (contents +:+ text_of ls).
Proof.
  revert p contents. induction ls as [|l ls IH]; intros p contents Ha; cbn [map run_lines].
  { exists p. cbn. by rewrite str_app_nil. }
  destruct (process_add_line p hs path contents l Ha) as (p1 & -> & H1).
  destruct (IH p1 _ H1) as (p' & -> & H'). exists p'. split; [done|].
  by rewrite !str_app_assoc in H'.
Qed.

(** ** The lines of an update *)

Definition updating (p : StreamingPatchParser) (hs : list Hunk) (path : string)
    (dest : option string) (cs : list UpdateFileChunk) : Prop :=
  line_buffer p = "" ∧ (∃ k, mode (state p) = ModeUpdateFile k) ∧
  shown (state p) = hs ++ [UpdateFile path dest cs].

Lemma updating_settled p hs path dest cs :
  updating p hs path dest cs → last_chunk_filled cs = true → settled p.
Proof.
  intros (Hb & [k Hm] & Hs) Hf. unfold settled. rewrite Hb, Hm, Hs, last_snoc. done.
Qed.

Lemma process_update_line p hs path dest cs line dest' cs' :
  updating p hs path dest cs →
  (∀ q, handle_hunk_headers_and_end_patch q (trim_end line) = (Parsed false, q)) →
  (∀ n, update_step line n dest cs = Parsed (dest', cs')) →
  ∃ p', process_line line (take_line p) = (Parsed (), p') ∧ updating p' hs path dest' cs'.
Proof.
  intros (Hb & [k Hm] & Hs) Hh Hu. unfold process_line. cbn [take_line state]. rewrite Hm. unfold header_or.
  rewrite Hh. cbn [take_line state]. rewrite Hs, last_snoc, Hu. eexists. split; [reflexivity|].
  unfold updating, replace_last. cbn. rewrite Hm, Hs, update_last_app. eauto.
Qed.

(** A line of a chunk: context, removed or added. *)
Inductive chunk_line : ascii → (string → UpdateFileChunk → UpdateFileChunk) →
    (list string → UpdateFileChunk → UpdateFileChunk) → Prop :=
| line_context : chunk_line " " (λ l c, push_new l (push_old l c)) (λ ls c, add_lines c ls ls)
| line_old : chunk_line "-" push_old (λ ls c, add_lines c ls [])
| line_new : chunk_line "+" push_new (λ ls c, add_lines c [] ls).

(** The trimmed line is empty or begins as the line. *)
Lemma trim_end_first a s : trim_end (String a s) = "" ∨ ∃ t, trim_end (String a s) = String a t.
Proof.
  destruct (trim_end_prefix (String a s)) as [q Hq]. destruct (trim_end (String a s)) as [|b t]; [by left|].
  right. exists t. by injection Hq as <- _.
Qed.

Lemma update_step_line a body n dest cs c push add :
  chunk_line a push add →
  update_step (String a body) n dest (cs ++ [c]) = Parsed (dest, cs ++ [push body c]).
Proof.
  intros Ha. unfold update_step.
  assert (∀ u, match cs ++ [c] with [] => match dest with None => strip_prefix MOVE_TO_MARKER u
    | Some _ => None end | _ :: _ => None end = None) as Hmove by (by destruct cs).
  assert (some_chunk (cs ++ [c]) = cs ++ [c]) as Hsc by (by destruct cs).
  rewrite Hmove, Hsc, !update_last_app.
  destruct (trim_end_first a body) as [-> | [t ->]]; by destruct Ha.
Qed.

Lemma not_header_line a body q :
  Ascii.eqb a "*"%char = false →
  handle_hunk_headers_and_end_patch q (trim_end (String a body)) = (Parsed false, q).
Proof. intros Ha. destruct (trim_end_first a body) as [-> | [t ->]]; [done|by apply not_header]. Qed.

Lemma run_chunk_lines a ls p hs path dest cs c push add :
  chunk_line a push add →
  updating p hs path dest (cs ++ [c]) →
  ∃ p', run_lines (map (String a) ls) p = (Parsed (), p') ∧ updating p' hs path dest (cs ++ [add ls c]).
Proof.
  intros Ha. revert p c. induction ls as [|l ls IH]; intros p c Hp; cbn [map run_lines].
  { exists p. split; [done|]. destruct Ha; unfold add_lines; cbn; rewrite !app_nil_r; by destruct c. }
  edestruct (process_update_line p hs path dest (cs ++ [c]) (String a l) dest (cs ++ [push l c])) as (p1 & -> & H1).
  - done.
  - intros q. apply not_header_line. by destruct Ha.
  - intros n. by eapply update_step_line.
  - destruct (IH p1 _ H1) as (p' & -> & H'). exists p'. split; [done|].
    assert (add ls (push l c) = add (l :: ls) c) as <-; [|done].
    destruct Ha; unfold add_lines, push_old, push_new; cbn; rewrite <- !app_assoc; done.
Qed.

Definition context_ok (c : UpdateFileChunk) : bool :=
  match change_context c with Some x => trimmed_end x | None => true end.

Lemma trim_end_chunk_marker c : context_ok c = true → trim_end (chunk_marker c) = chunk_marker c.
Proof.
  unfold context_ok, chunk_marker. destruct (change_context c); [|done]. by apply trimmed_end_marker.
Qed.

Lemma update_step_marker c n dest cs :
  context_ok c = true → last_chunk_empty cs = false →
  update_step (chunk_marker c) n dest cs = Parsed (dest, cs ++ [empty_chunk (change_context c)]).
Proof.
  intros Hc He. unfold update_step. rewrite trim_end_chunk_marker, He, andb_false_r by done.
  assert (strip_prefix MOVE_TO_MARKER (chunk_marker c) = None) as ->.
  { by destruct (chunk_marker_first c) as [t ->]. }
  assert (match cs with [] => match dest with None => None | Some _ => None end | _ :: _ => None end
    = @None string) as -> by (by destruct cs, dest).
  unfold chunk_marker. destruct (change_context c); [|done].
  change (CHANGE_CONTEXT_MARKER +:+ s == EMPTY_CHANGE_CONTEXT_MARKER) with false. cbv iota.
  by rewrite strip_prefix_app.
Qed.

Lemma wf_chunk_filled cs c : wf_chunk c = true → last_chunk_filled (cs ++ [c]) = true.
Proof.
  unfold wf_chunk, last_chunk_filled, chunk_is_empty. rewrite last_snoc, !andb_true_iff.
  intros [[[Hne _] _] _]. by destruct (old_lines c), (new_lines c).
Qed.

Lemma update_step_eof n dest cs c :
  last_chunk_filled (cs ++ [c]) = true →
  update_step EOF_MARKER n dest (cs ++ [c]) = Parsed (dest, cs ++ [set_end_of_file c]).
Proof.
  intros [He Hne]%filled_not_empty. unfold update_step.
  assert (match cs ++ [c] with [] => match dest with None => strip_prefix MOVE_TO_MARKER (trim_end EOF_MARKER)
    | Some _ => None end | _ :: _ => None end = None) as -> by (by destruct cs).
  rewrite He, update_last_app. done.
Qed.

Lemma run_chunk p hs path dest cs c :
  updating p hs path dest cs → last_chunk_empty cs = false → wf_chunk c = true → context_ok c = true →
  ∃ p', run_lines (print_chunk c) p = (Parsed (), p') ∧ updating p' hs path dest (cs ++ [c]).
Proof.
  intros Hp He Hwf Hc. unfold print_chunk. cbn [run_lines].
  edestruct (process_update_line p hs path dest cs (chunk_marker c)) as (p1 & -> & H1); [done|..].
  { intros q. rewrite trim_end_chunk_marker by done. destruct (chunk_marker_first c) as [t ->]. by apply not_header. }
  { intros n. by apply update_step_marker. }
  rewrite run_lines_app. destruct (run_chunk_lines _ (shared (old_lines c) (new_lines c)) p1 hs path dest cs _ _ _
    line_context H1) as (p2 & -> & H2).
  rewrite run_lines_app. destruct (run_chunk_lines _ (removed c) p2 hs path dest cs _ _ _ line_old H2) as (p3 & -> & H3).
  rewrite run_lines_app. destruct (run_chunk_lines _ (inserted c) p3 hs path dest cs _ _ _ line_new H3) as (p4 & -> & H4).
  rewrite add_lines_split in H4.
  destruct (is_end_of_file c) eqn:Eof; cbn [run_lines].
  - edestruct (λ l' c', process_update_line p4 hs path dest _ EOF_MARKER l' c' H4) as (p5 & -> & H5); [done|..].
    { intros n. apply update_step_eof. apply (wf_chunk_filled cs c) in Hwf.
      unfold last_chunk_filled in *. rewrite last_snoc in *. by destruct c. }
    exists p5. split; [done|]. unfold set_end_of_file in H5. cbn in H5. destruct c; cbn in *. by subst.
  - exists p4. split; [done|]. destruct c; cbn in *. by subst.
Qed.

Lemma run_chunks new p hs path dest cs :
  updating p hs path dest cs → last_chunk_empty cs = false →
  forallb wf_chunk new = true → forallb context_ok new = true →
  ∃ p', run_lines (concat (map print_chunk new)) p = (Parsed (), p') ∧ updating p' hs path dest (cs ++ new).
Proof.
  revert p cs. induction new as [|c new IH]; intros p cs Hp He; cbn [forallb map concat].
  { intros _ _. exists p. by rewrite app_nil_r. }
  rewrite !andb_true_iff. intros [Hc Hnew] [Hx Hxs]. rewrite run_lines_app.
  destruct (run_chunk p hs path dest cs c Hp He Hc Hx) as (p1 & -> & H1).
  destruct (IH p1 _ H1) as (p' & -> & H'); [|done..|].
  { by apply filled_not_empty, wf_chunk_filled. }
  exists p'. by rewrite <- app_assoc in H'.
Qed.

(** ** Hunks *)

Lemma run_hunk h p :
  settled p → wf_hunk h = true → stream_wf_hunk h = true →
  ∃ p', run_lines (print_hunk h) p = (Parsed (), p') ∧ settled p' ∧ shown (state p') = shown (state p) ++ [h].
Proof.
  intros Hp Hwf Hs. pose proof Hp as (Hb & _ & _). destruct h as [path contents|path|path dest cs];
    cbn [print_hunk run_lines wf_hunk stream_wf_hunk] in *; rewrite ?andb_true_iff in Hwf.
  - destruct Hwf as [[Hpath Hc] _]. apply String.eqb_eq in Hc. rewrite header_add by done.
    destruct (run_add_lines (text_lines contents) (opened (AddFile path "") ModeAddFile p) (shown (state p)) path "")
      as (p' & -> & H'); [done|]. exists p'. split; [done|]. split; [by eapply adding_settled|].
    destruct H' as (_ & _ & ->). by rewrite Hc at 2.
  - rewrite header_delete by done. eexists. split; [reflexivity|]. unfold settled. cbn. by rewrite last_snoc.
  - destruct Hwf as [[[Hpath Hd] Hne] Hcs]. rewrite andb_true_iff in Hs. destruct Hs as [Hsd Hsc].
    rewrite header_update by done. cbn [take_line line_number].
    set (p1 := opened _ _ p).
    assert (∃ p2, run_lines match dest with Some d => [MOVE_TO_MARKER +:+ d] | None => [] end p1 = (Parsed (), p2) ∧
      updating p2 (shown (state p)) path dest []) as (p2 & E2 & H2).
    { assert (updating p1 (shown (state p)) path None []) as H1 by (split; [done|]; split; [by eexists|done]).
      destruct dest as [d|]; [|by exists p1]. cbn [run_lines].
      edestruct (process_update_line p1 (shown (state p)) path None [] (MOVE_TO_MARKER +:+ d) (Some d) [])
        as (p2 & -> & H2); [done|..|by exists p2].
      - intros q. by rewrite trimmed_end_marker.
      - intros n. unfold update_step. rewrite trimmed_end_marker by done. by rewrite strip_prefix_app. }
    rewrite run_lines_app, E2. destruct (run_chunks cs p2 (shown (state p)) path dest []) as (p' & -> & H'); [done..|].
    exists p'. split; [done|]. cbn in H'. split; [|by destruct H' as (_ & _ & ->)].
    eapply updating_settled; [done|]. destruct cs as [|c cs _] using rev_ind; [done|].
    apply wf_chunk_filled. rewrite forallb_app in Hcs. cbn in Hcs. rewrite !andb_true_iff in Hcs. by destruct Hcs as (_ & ? & _).
Qed.

Lemma run_hunks hs p :
  settled p → forallb wf_hunk hs = true → forallb stream_wf_hunk hs = true →
  ∃ p', run_lines (concat (map print_hunk hs)) p = (Parsed (), p') ∧ settled p' ∧
    shown (state p') = shown (state p) ++ hs.
Proof.
  revert p. induction hs as [|h hs IH]; intros p Hp; cbn [forallb map concat].
  { intros _ _. exists p. by rewrite app_nil_r. }
  rewrite !andb_true_iff. intros [Hh Hhs] [Hs Hss]. rewrite run_lines_app.
  destruct (run_hunk h p Hp Hh Hs) as (p1 & -> & H1 & E1).
  destruct (IH p1 H1 Hhs Hss) as (p' & -> & H' & E'). exists p'. split; [done|]. split; [done|].
  by rewrite E', E1, <- app_assoc.
Qed.

(** ** The whole text *)

Lemma join_text_of ls l : join (String newline "") (ls ++ [l]) = text_of ls +:+ l.
Proof.
  induction ls as [|x ls IH]; [done|]. destruct ls as [|y ls].
  - cbn. by rewrite str_app_assoc.
  - change (join (String newline "") ((x :: y :: ls) ++ [l]))
      with (x +:+ String newline (join (String newline "") ((y :: ls) ++ [l]))).
    rewrite IH. change (text_of (x :: y :: ls)) with (x +:+ String newline (text_of (y :: ls))).
    by rewrite str_app_assoc.
Qed.

Lemma run_preamble id :
  ∃ p, run_lines (BEGIN_PATCH_MARKER :: print_preamble id) parser_default = (Parsed (), p) ∧
    settled p ∧ shown (state p) = [].
Proof.
  destruct id as [id|]; [|by eexists]. cbn [print_preamble run_lines].
  change (process_line BEGIN_PATCH_MARKER (take_line parser_default))
    with (Parsed (), set_mode StartedPatch (take_line parser_default)). cbv beta iota.
  unfold process_line at 1. cbn [mode state take_line set_mode set_state].
  rewrite (starts_with_app ENVIRONMENT_ID_MARKER id
    : is_environment_id_preamble_line (ENVIRONMENT_ID_MARKER +:+ id) = true). by eexists.
Qed.

(** C24. However the text of a printed patch is cut into pieces, the session ends
    with exactly its hunks, when contexts and destinations are not empty and do
    not end in white space, which this parser trims and the batch parser keeps. *)
Theorem stream_reads_printed id hs deltas :
  wf_id id = true → forallb wf_hunk hs = true → forallb stream_wf_hunk hs = true →
  String.concat "" deltas = print_patch id hs →
  feed deltas parser_default = Parsed hs.
Proof.
  intros Hid Hwf Hs Htext. rewrite feed_concat, Htext. unfold print_patch.
  pose proof (print_lines_ok id hs Hid Hwf) as Hok. unfold print_lines in *.
  rewrite app_assoc, app_comm_cons in Hok |- *. rewrite join_text_of. apply Forall_app in Hok as [Hok _].
  cbn [feed]. unfold push_delta. rewrite push_chars_lines by done.
  rewrite app_comm_cons, run_lines_app. destruct (run_preamble id) as (p & -> & Hp & E).
  destruct (run_hunks hs p Hp Hwf Hs) as (p' & -> & Hp' & E').
  rewrite push_chars_partial by done. pose proof Hp' as (Hb & _ & _). rewrite Hb.
  unfold finish. cbn [set_buffer line_buffer]. change (trim ("" +:+ END_PATCH_MARKER) == END_PATCH_MARKER) with true.
  change (negb (str_is_empty ("" +:+ END_PATCH_MARKER))) with true. cbv iota.
  pose proof (settled_ensure p' (trim ("" +:+ END_PATCH_MARKER)) Hp') as He.
  change (take_line (set_buffer ("" +:+ END_PATCH_MARKER) p')) with (take_line p'). rewrite He.
  cbn. by rewrite E', E.
Qed.

(** ** A preview never takes anything back *)

Definition list_grows {A} (R : A → A → Prop) (l l' : list A) : Prop :=
  ∀ i x, l !! i = Some x → ∃ y, l' !! i = Some y ∧ R x y.

Definition chunk_grows (c c' : UpdateFileChunk) : Prop :=
  change_context c' = change_context c ∧ old_lines c `prefix_of` old_lines c' ∧
  new_lines c `prefix_of` new_lines c' ∧ (is_end_of_file c = true → is_end_of_file c' = true).

(** The same change to the same path, with at least the text it had; a
    destination is set once. *)
Definition hunk_grows (h h' : Hunk) : Prop :=
  match h, h' with
  | AddFile path contents, AddFile path' contents' => path' = path ∧ ∃ t, contents' = contents +:+ t
  | DeleteFile path, DeleteFile path' => path' = path
  | UpdateFile path dest cs, UpdateFile path' dest' cs' =>
      path' = path ∧ (dest = None ∨ dest' = dest) ∧ list_grows chunk_grows cs cs'
  | _, _ => False
  end.

#[export] Instance list_grows_preorder {A} (R : A → A → Prop) `{!PreOrder R} : PreOrder (list_grows R).
Proof.
  split.
  - intros l i x Hx. exists x. split; [done|reflexivity].
  - intros l1 l2 l3 H12 H23 i x Hx. destruct (H12 i x Hx) as (y & Hy & Hxy).
    destruct (H23 i y Hy) as (z & Hz & Hyz). exists z. split; [done|by etrans].
Qed.

#[export] Instance chunk_grows_preorder : PreOrder chunk_grows.
Proof.
  split.
  - intros c. by repeat split.
  - intros c1 c2 c3 (? & ? & ? & ?) (? & ? & ? & ?). split_and!; [congruence|by etrans|by etrans|auto].
Qed.

#[export] Instance hunk_grows_preorder : PreOrder hunk_grows.
Proof.
  split.
  - intros [path contents|path|path dest cs]; cbn; [|done|].
    + split; [done|]. exists "". by rewrite str_app_nil.
    + split; [done|]. split; [by right|reflexivity].
  - intros [?|?|? d1 ?] [?|?|? d2 ?] [?|?|? d3 ?]; cbn; try done.
    + intros [-> [t ->]] [-> [u ->]]. split; [done|]. exists (t +:+ u). by rewrite str_app_assoc.
    + congruence.
    + intros (-> & Hd & Hc) (-> & Hd' & Hc'). split; [done|]. split; [|by etrans].
      destruct Hd as [->| ->]; [by left|done].
Qed.

Section grows.
Context {A} (R : A → A → Prop) `{!PreOrder R}.

Lemma list_grows_app l k : list_grows R l (l ++ k).
Proof.
  intros i x Hx. exists x. split; [by apply lookup_app_l_Some|reflexivity].
Qed.

Lemma list_grows_update_last l (f : A → A) x :
  last l = Some x → R x (f x) → list_grows R l (update_last f l).
Proof.
  intros (k & ->)%last_Some Hx. rewrite update_last_app. intros i y Hy.
  apply lookup_app_Some in Hy as [Hy|[Hi Hy]].
  - exists y. split; [by apply lookup_app_l_Some|reflexivity].
  - apply list_lookup_singleton_Some in Hy as [Hz ->]. exists (f y). split; [|done].
    rewrite lookup_app_r by done. by rewrite Hz.
Qed.
End grows.

(** [push_old] and the like only add. *)
Lemma some_chunk_grows f cs :
  (∀ c, chunk_grows c (f c)) → list_grows chunk_grows cs (update_last f (some_chunk cs)).
Proof.
  intros Hf. destruct cs as [|c cs]; [by intros i x|]. cbn [some_chunk].
  destruct (last (c :: cs)) as [x|] eqn:E; [by eapply list_grows_update_last; [apply _|exact E|apply Hf]|].
  by apply last_None in E.
Qed.

Lemma push_old_grows x c : chunk_grows c (push_old x c).
Proof. split_and!; [done|by exists [x]|done|done]. Qed.

Lemma push_new_grows x c : chunk_grows c (push_new x c).
Proof. split_and!; [done|done|by exists [x]|done]. Qed.

Lemma set_end_of_file_grows c : chunk_grows c (set_end_of_file c).
Proof. by split_and!. Qed.

Lemma update_last_grows f cs :
  (∀ c, chunk_grows c (f c)) → list_grows chunk_grows cs (update_last f cs).
Proof.
  intros Hf. destruct (last cs) as [x|] eqn:E; [by eapply list_grows_update_last; [apply _|exact E|apply Hf]|].
  apply last_None in E as ->. by intros i x.
Qed.

#[local] Hint Resolve push_old_grows push_new_grows set_end_of_file_grows some_chunk_grows
  update_last_grows : core.

Lemma update_step_grows line n path dest cs dest' cs' :
  update_step line n dest cs = Parsed (dest', cs') →
  hunk_grows (UpdateFile path dest cs) (UpdateFile path dest' cs').
Proof.
  assert (∀ x c, chunk_grows c (push_new x (push_old x c))) as Hboth.
  { intros x c. etrans; [apply push_old_grows|apply push_new_grows]. }
  unfold update_step. intros E. split; [done|].
  destruct (match cs with [] => _ | _ :: _ => _ end) as [d|] eqn:Em.
  { injection E as <- <-. destruct cs, dest; try done. split; [by left|reflexivity]. }
  clear Em. destruct (_ && _); [done|].
  repeat (case_match; try done); injection E as <- <-; (split; [by right|]);
    first [apply list_grows_app; apply _|apply update_last_grows; auto|apply some_chunk_grows; auto].
Qed.

#[local] Abbreviation grows p p' :=
  (list_grows hunk_grows (shown (state p)) (shown (state p'))).

Lemma handle_grows p t : grows p (handle_hunk_headers_and_end_patch p t).2.
Proof.
  unfold handle_hunk_headers_and_end_patch, checked. repeat case_goal; cbn;
    first [reflexivity|apply list_grows_app; apply _].
Qed.

Lemma header_or_grows p t k : (∀ p', grows p' (k p').2) → grows p (header_or p t k).2.
Proof.
  intros Hk. unfold header_or. pose proof (handle_grows p t) as H.
  destruct (handle_hunk_headers_and_end_patch p t) as [[[]|e| |] p']; try done.
  etrans; [exact H|apply Hk].
Qed.

Lemma replace_last_grows p h h' :
  last (shown (state p)) = Some h → hunk_grows h h' → grows p (replace_last h' p).
Proof. intros Hl Hh. cbn. eapply list_grows_update_last; [apply _|exact Hl|exact Hh]. Qed.

Lemma process_line_grows line p : grows p (process_line line p).2.
Proof.
  unfold process_line. destruct (mode (state p)).
  - by destruct (_ == _).
  - destruct (is_environment_id_preamble_line line); [reflexivity|]. by apply header_or_grows.
  - apply header_or_grows. intros p'. destruct (strip_prefix "+" line) as [x|]; [|reflexivity].
    destruct (last (shown (state p'))) as [[path contents|?|? ? ?]|] eqn:El; try reflexivity.
    eapply replace_last_grows; [done|]. split; [done|]. by eexists.
  - by apply header_or_grows.
  - apply header_or_grows. intros p'.
    destruct (last (shown (state p'))) as [[?|?|path dest cs]|] eqn:El; try reflexivity.
    destruct (update_step line (line_number p') dest cs) as [[dest' cs']|e| |] eqn:Eu; try reflexivity.
    eapply replace_last_grows; [done|]. by eapply update_step_grows.
  - reflexivity.
Qed.

Lemma push_chars_grows delta p : grows p (push_chars delta p).2.
Proof.
  revert p. induction delta as [|ch delta IH]; intros p; cbn; [reflexivity|].
  destruct (Ascii.eqb ch newline); [|apply (IH (set_buffer _ p))].
  pose proof (process_line_grows (strip_cr (line_buffer p)) (take_line p)) as H.
  destruct (process_line _ _) as [[u|e| |] p']; [|exact H..]. etrans; [exact H|apply IH].
Qed.

(** Whatever arrives, also text that is rejected, the hunks shown before are
    still there, for the same paths and with at least the text they had. *)
Theorem preview_grows delta p :
  list_grows hunk_grows (shown (state p)) (shown (state (push_delta delta p).2)).
Proof.
  unfold push_delta. pose proof (push_chars_grows delta p) as H.
  by destruct (push_chars delta p) as [[u|e| |] p'].
Qed.

(** The two parsers differ after an end-of-file marker: the batch parser wants
    a new chunk, the streaming one goes on with the finished one. *)
Example eof_chunk_goes_on :
  let text := join (String newline "")
    [BEGIN_PATCH_MARKER; "*** Update File: f"; "@@"; "+a"; EOF_MARKER; "+b"; END_PATCH_MARKER] in
  parse_patch text = Rejected (InvalidHunkError (expected_context "+b") 6) ∧
  feed [text] parser_default =
  Parsed [UpdateFile "f" None [{| change_context := None; old_lines := []; new_lines := ["a"; "b"];
                                  is_end_of_file := true |}]].
Proof. by vm_compute. Qed.
