(* ===== verification/ApplyChunks.v ===== *)
(** * Changing a file (apply-patch: lib.rs, from [derive_new_contents_from_chunks]
    to [apply_replacements])

    Where the chunks of an update go in the lines of a file, and the file
    with the replacements made.  [Vec::insert] past the end panics: it is
    [Panic]. *)

From S2P Require Import Prelude RustStr SeekSequence PatchParser.

(** [(start_index, old_len, new_lines)]. *)
Abbreviation Replacement := (nat * nat * list string)%type.

Definition failed_context (ctx_line path : string) : string :=
  "Failed to find context '" +:+ ctx_line +:+ "' in " +:+ path.

Definition failed_lines (path : string) (old : list string) : string :=
  "Failed to find expected lines in " +:+ path +:+ ":" +:+ String newline (join (String newline "") old).

(** [v.last().is_some_and(String::is_empty)]. *)
Definition last_is_empty (l : list string) : bool :=
  match last l with Some x => str_is_empty x | None => false end.

(** [&v[..v.len() - 1]] of a non-empty slice. *)
Definition without_last {A} (l : list A) : list A := take (length l - 1) l.

(** The context of a chunk moves the search forward. *)
Definition seek_context (original_lines : list string) (path : string) (line_index : nat)
    (ctx : option string) : res nat :=
  match ctx with
  | None => Ok line_index
  | Some ctx_line =>
      match seek_sequence original_lines [ctx_line] line_index false with
      | Some idx => Ok (S idx)
      | None => Err (failed_context ctx_line path)
      end
  end.

Definition insertion_idx (original_lines : list string) : nat :=
  if last_is_empty original_lines then length original_lines - 1 else length original_lines.

(** Where the old lines are, and what replaces them: first as written, then
    without a final empty line. *)
Definition locate (original_lines : list string) (line_index : nat) (chunk : UpdateFileChunk) :
    option Replacement :=
  let pattern := old_lines chunk in
  let new_slice := new_lines chunk in
  match seek_sequence original_lines pattern line_index (is_end_of_file chunk) with
  | Some start_idx => Some (start_idx, length pattern, new_slice)
  | None =>
      if last_is_empty pattern then
        let pattern := without_last pattern in
        let new_slice := if last_is_empty new_slice then without_last new_slice else new_slice in
        match seek_sequence original_lines pattern line_index (is_end_of_file chunk) with
        | Some start_idx => Some (start_idx, length pattern, new_slice)
        | None => None
        end
      else None
  end.

Fixpoint replacements_loop (original_lines : list string) (path : string) (line_index : nat)
    (chunks : list UpdateFileChunk) (replacements : list Replacement) : res (list Replacement) :=
  match chunks with
  | [] => Ok replacements
  | chunk :: rest =>
      line_index ← seek_context original_lines path line_index (change_context chunk);
      match old_lines chunk with
      | [] =>
          replacements_loop original_lines path line_index rest
            (replacements ++ [(insertion_idx original_lines, 0, new_lines chunk)])
      | _ :: _ =>
          match locate original_lines line_index chunk with
          | Some (start_idx, old_len, new_segment) =>
              replacements_loop original_lines path (start_idx + old_len) rest
                (replacements ++ [(start_idx, old_len, new_segment)])
          | None => Err (failed_lines path (old_lines chunk))
          end
      end
  end.

(** [sort_by_key(|(index, _, _)| *index)]: a stable sort. *)
Definition index_le (r r' : Replacement) : bool := (r.1.1 <=? r'.1.1)%nat.

Definition compute_replacements (original_lines : list string) (path : string)
    (chunks : list UpdateFileChunk) : res (list Replacement) :=
  replacements ← replacements_loop original_lines path 0 chunks [];
  Ok (sort_by index_le replacements).

(** [for _ in 0..old_len { if start_idx < lines.len() { lines.remove(start_idx) } }]. *)
Fixpoint remove_lines (start_idx old_len : nat) (lines : list string) : list string :=
  match old_len with
  | O => lines
  | S n =>
      remove_lines start_idx n
        (if (start_idx <? length lines)%nat then take start_idx lines ++ drop (S start_idx) lines else lines)
  end.

(** [Vec::insert]. *)
Definition vec_insert {A} (i : nat) (x : A) (l : list A) : res (list A) :=
  if (i <=? length l)%nat then Ok (take i l ++ x :: drop i l) else Panic.

(** [for (offset, new_line) in ..enumerate() { lines.insert(start_idx + offset, ..) }]. *)
Fixpoint insert_lines (i : nat) (new_segment : list string) (lines : list string) : res (list string) :=
  match new_segment with
  | [] => Ok lines
  | x :: rest => lines ← vec_insert i x lines; insert_lines (S i) rest lines
  end.

Definition apply_one (lines : list string) (r : Replacement) : res (list string) :=
  let '(start_idx, old_len, new_segment) := r in
  insert_lines start_idx new_segment (remove_lines start_idx old_len lines).

Fixpoint apply_each (lines : list string) (replacements : list Replacement) : res (list string) :=
  match replacements with
  | [] => Ok lines
  | r :: rest => lines ← apply_one lines r; apply_each lines rest
  end.

(** From the last replacement to the first. *)
Definition apply_replacements (lines : list string) (replacements : list Replacement) : res (list string) :=
  apply_each lines (rev replacements).

(** The lines of a file, without the empty piece after its final newline. *)
Definition file_lines (contents : string) : list string :=
  let original_lines := split_char newline contents in
  if last_is_empty original_lines then without_last original_lines else original_lines.

Definition lines_text (new_lines : list string) : string :=
  join (String newline "") (if last_is_empty new_lines then new_lines else new_lines ++ [""]).

(** [derive_new_contents_from_chunks] after the file has been read. *)
Definition derive_new_contents (path original_contents : string) (chunks : list UpdateFileChunk) : res string :=
  let original_lines := file_lines original_contents in
  replacements ← compute_replacements original_lines path chunks;
  new_lines ← apply_replacements original_lines replacements;
  Ok (lines_text new_lines).

(** ** Never a panic *)

Lemma remove_lines_length s n ls :
  length (remove_lines s n ls) = if (s <? length ls)%nat then (length ls - Nat.min n (length ls - s))%nat else length ls.
Proof.
  revert ls. induction n as [|n IH]; intros ls; cbn [remove_lines].
  { destruct (Nat.ltb_spec s (length ls)); lia. }
  rewrite IH. destruct (Nat.ltb_spec s (length ls)) as [H|H].
  - rewrite length_app, length_take, length_drop.
    destruct (Nat.ltb_spec s (s `min` length ls + (length ls - S s))); lia.
  - destruct (Nat.ltb_spec s (length ls)); lia.
Qed.

Lemma remove_lines_ok s n ls :
  (s + n <= length ls)%nat → remove_lines s n ls = take s ls ++ drop (s + n) ls.
Proof.
  revert ls. induction n as [|n IH]; intros ls Hlen; cbn [remove_lines].
  { by rewrite Nat.add_0_r, take_drop. }
  rewrite (proj2 (Nat.ltb_lt _ _)) by lia. rewrite IH.
  2:{ rewrite length_app, length_take, length_drop. lia. }
  rewrite take_app_le by (rewrite length_take; lia). rewrite take_take, Nat.min_id. f_equal.
  rewrite drop_app_ge by (rewrite length_take; lia). rewrite length_take, drop_drop. f_equal. lia.
Qed.

Lemma insert_lines_ok i new ls :
  (i <= length ls)%nat → insert_lines i new ls = Ok (take i ls ++ new ++ drop i ls).
Proof.
  revert i ls. induction new as [|x new IH]; intros i ls Hi; cbn [insert_lines].
  { cbn. by rewrite take_drop. }
  unfold vec_insert. rewrite (proj2 (Nat.leb_le _ _) Hi). cbn [mbind res_bind].
  rewrite IH by (rewrite length_app, length_take; cbn; rewrite length_drop; lia).
  rewrite (app_assoc (take i ls) [x] (drop i ls) : take i ls ++ x :: drop i ls = (take i ls ++ [x]) ++ drop i ls).
  rewrite take_app_le, drop_app_ge by (rewrite length_app, length_take; cbn; lia).
  rewrite take_ge by (rewrite length_app, length_take; cbn; lia).
  rewrite length_app, length_take. cbn [length].
  replace (S i - (i `min` length ls + 1))%nat with 0%nat by lia. by rewrite drop_0, <- app_assoc.
Qed.

(** One replacement whose start is in the file leaves a file at least that
    long, so the next one, whose start is not larger, is in range too. *)
Lemma apply_one_ok ls s n new :
  (s <= length ls)%nat →
  ∃ ls', apply_one ls (s, n, new) = Ok ls' ∧ (s <= length ls')%nat.
Proof.
  intros Hs. unfold apply_one.
  assert (s <= length (remove_lines s n ls))%nat as Hr.
  { rewrite remove_lines_length. destruct (Nat.ltb_spec s (length ls)); lia. }
  rewrite insert_lines_ok by done. eexists. split; [done|]. rewrite !length_app, length_take. lia.
Qed.

Lemma apply_each_ok rs ls :
  StronglySorted (λ r r', index_le r' r) rs → Forall (λ r, r.1.1 <= length ls)%nat rs →
  ∃ ls', apply_each ls rs = Ok ls'.
Proof.
  intros Hs. revert ls. induction Hs as [|[[s n] new] rs Hs IH Hr]; intros ls Hb; cbn [apply_each]; [by eexists|].
  apply Forall_cons in Hb as [Hb _]. cbn in Hb.
  destruct (apply_one_ok ls s n new Hb) as (ls1 & -> & H1). cbn [mbind res_bind]. apply IH.
  eapply Forall_impl; [exact Hr|]. intros r Hle. unfold index_le in Hle. cbn in Hle.
  apply Is_true_true, Nat.leb_le in Hle. lia.
Qed.

Lemma StronglySorted_rev {A} (R : relation A) l :
  StronglySorted R l → StronglySorted (flip R) (rev l).
Proof.
  induction 1 as [|x l Hl IH Hx]; cbn; [constructor|].
  assert (Forall (λ y, flip R y x) (rev l)) as Hx'.
  { rewrite Forall_forall in Hx |- *. intros y Hy. apply Hx.
    by rewrite list_elem_of_In, <- in_rev, <- list_elem_of_In in Hy. }
  clear -IH Hx'. induction IH as [|y l' Hl' IH2 Hy]; cbn; [repeat constructor|].
  apply Forall_cons in Hx' as [Hyx Hx']. constructor; [by apply IH2|].
  apply Forall_app. split; [done|]. by repeat constructor.
Qed.

Lemma index_le_trans r1 r2 r3 : index_le r1 r2 → index_le r2 r3 → index_le r1 r3.
Proof. unfold index_le. rewrite !Is_true_true, !Nat.leb_le. lia. Qed.

Lemma index_le_total r1 r2 : index_le r1 r2 ∨ index_le r2 r1.
Proof. unfold index_le. rewrite !Is_true_true, !Nat.leb_le. lia. Qed.

(** Starts stay within the file. *)
Lemma seek_context_range ls path i ctx j :
  (i <= length ls)%nat → seek_context ls path i ctx = Ok j →
  (i <= j <= length ls)%nat ∧
  match ctx with
  | Some x => ∃ level k, (i <= k < j)%nat ∧ matches_at level ls [x] k = true
  | None => True
  end.
Proof.
  intros Hi. unfold seek_context. destruct ctx as [x|]; [|intros [= <-]; split; [lia|done]].
  destruct (seek_sequence ls [x] i false) as [idx|] eqn:E; [|done]. intros [= <-].
  apply seek_sequence_found in E as (n & level & _ & Hlo & Hlen & Hm & _); [|done].
  cbn in *. split; [lia|]. exists level, idx. split; [lia|done].
Qed.

Lemma seek_lines_range ls pattern i eof j :
  (i <= length ls)%nat → seek_sequence ls pattern i eof = Some j →
  (j + length pattern <= length ls)%nat ∧ (eof = false → (i <= j)%nat) ∧
  ∃ level, matches_at level ls pattern j = true.
Proof.
  intros Hi E. destruct pattern as [|p pat].
  - injection E as <-. cbn. split; [lia|]. split; [done|]. exists Exact. unfold matches_at. by destruct (drop i ls).
  - apply seek_sequence_found in E as (n & level & _ & Hlo & Hlen & Hm & _); [|done].
    split; [done|]. split; [by intros ->|]. by exists level.
Qed.

(** What a located replacement puts in the place of what. *)
Definition swaps (c : UpdateFileChunk) (old new : list string) : Prop :=
  ∃ level pattern,
    Forall2 (λ l p, same_line level l p = true) old pattern ∧
    (pattern = old_lines c ∧ new = new_lines c ∨
     last_is_empty (old_lines c) = true ∧ pattern = without_last (old_lines c) ∧
     new = if last_is_empty (new_lines c) then without_last (new_lines c) else new_lines c).

Lemma matches_Forall2 level ls pattern :
  matches level ls pattern = true →
  Forall2 (λ l p, same_line level l p = true) (take (length pattern) ls) pattern.
Proof.
  revert ls. induction pattern as [|p pattern IH]; intros [|l ls]; cbn; try done.
  rewrite andb_true_iff. intros [??]. constructor; auto.
Qed.

Lemma locate_range ls i c s n new :
  (i <= length ls)%nat → locate ls i c = Some (s, n, new) →
  (s + n <= length ls)%nat ∧ (is_end_of_file c = false → (i <= s)%nat) ∧
  swaps c (take n (drop s ls)) new.
Proof.
  intros Hi. unfold locate.
  destruct (seek_sequence ls (old_lines c) i _) as [j|] eqn:E.
  - intros [= <- <- <-]. apply seek_lines_range in E as (? & ? & level & Hm); [|done].
    split; [done|]. split; [done|]. exists level, (old_lines c). split; [by apply matches_Forall2|by left].
  - destruct (last_is_empty (old_lines c)) eqn:El; [|done].
    destruct (seek_sequence ls (without_last _) i _) as [j|] eqn:E2; [|done].
    intros [= <- <- <-]. apply seek_lines_range in E2 as (? & ? & level & Hm); [|done].
    split; [done|]. split; [done|]. eexists level, _. split; [by apply matches_Forall2|by right].
Qed.

Lemma replacements_loop_range ls path i cs acc rs :
  (i <= length ls)%nat → Forall (λ r : Replacement, r.1.1 <= length ls)%nat acc →
  replacements_loop ls path i cs acc = Ok rs → Forall (λ r : Replacement, r.1.1 <= length ls)%nat rs.
Proof.
  revert i acc. induction cs as [|c cs IH]; intros i acc Hi Hacc; cbn [replacements_loop].
  { by intros [= <-]. }
  intros E. apply res_bind_Ok in E as (j & Hj & E). apply seek_context_range in Hj as [Hj _]; [|done].
  destruct (old_lines c) eqn:Eo.
  - revert E. apply IH; [lia|]. apply Forall_app. split; [done|]. repeat constructor. cbn.
    unfold insertion_idx. destruct (last_is_empty ls); lia.
  - destruct (locate ls j c) as [[[s' n] new]|] eqn:El; [|done].
    apply locate_range in El as (Hs & _ & _); [|lia]. revert E. apply IH; [lia|].
    apply Forall_app. split; [done|]. repeat constructor. cbn. lia.
Qed.

Lemma loop_no_panic ls path i cs acc : replacements_loop ls path i cs acc ≠ Panic.
Proof.
  revert i acc. induction cs as [|c cs IH]; intros i acc; cbn [replacements_loop]; [done|].
  unfold seek_context. destruct (change_context c) as [x|].
  - destruct (seek_sequence ls [x] i false); cbn [mbind res_bind]; [|done]. repeat case_goal; auto.
  - cbn [mbind res_bind]. repeat case_goal; auto.
Qed.

(** Making the changes of an update never indexes past the end of the file,
    whatever the file and the chunks: overlapping, out of order, or past the
    end. *)
Theorem derive_never_panics path contents chunks : derive_new_contents path contents chunks ≠ Panic.
Proof.
  unfold derive_new_contents, compute_replacements.
  pose proof (loop_no_panic (file_lines contents) path 0 chunks []) as Hnp.
  destruct (replacements_loop _ _ _ _ _) as [rs|e|] eqn:E; [|done..]. cbn [mbind res_bind].
  apply replacements_loop_range in E; [|lia|constructor].
  destruct (apply_each_ok (rev (sort_by index_le rs)) (file_lines contents)) as [ls' H'].
  - apply StronglySorted_rev, sort_by_sorted; [apply index_le_trans|apply index_le_total].
  - rewrite Forall_forall in E |- *. intros r Hr. apply E.
    rewrite list_elem_of_In, <- in_rev, <- list_elem_of_In in Hr. by apply sort_by_elem in Hr.
  - unfold apply_replacements. by rewrite H'.
Qed.

(** ** In-place changes are a splice *)

(** The reference: from the front, keep up to the next replacement, put its
    new lines, go on after its old ones. *)
Fixpoint splice (pos : nat) (ls : list string) (rs : list Replacement) : list string :=
  match rs with
  | [] => drop pos ls
  | (s, n, new) :: rs' => take (s - pos) (drop pos ls) ++ new ++ splice (s + n) ls rs'
  end.

(** In order, not overlapping, within the file. *)
Fixpoint ordered (pos : nat) (ls : list string) (rs : list Replacement) : bool :=
  match rs with
  | [] => (pos <=? length ls)%nat
  | (s, n, _) :: rs' => (pos <=? s)%nat && (s + n <=? length ls)%nat && ordered (s + n) ls rs'
  end.

Lemma take_cut {A} (l : list A) p s : (p <= s)%nat → take p l ++ take (s - p) (drop p l) = take s l.
Proof.
  intros H. rewrite <- (take_drop p l) at 3. destruct (decide (p <= length l)%nat).
  - rewrite take_app_ge by (rewrite length_take; lia). rewrite length_take. do 2 f_equal. lia.
  - rewrite drop_ge, take_nil, !app_nil_r by lia. rewrite take_take. by rewrite Nat.min_r.
Qed.

Lemma apply_each_app ls a b : apply_each ls (a ++ b) = apply_each ls a ≫= λ ls', apply_each ls' b.
Proof.
  revert ls. induction a as [|r a IH]; intros ls; [done|]. cbn.
  destruct (apply_one ls r); [apply IH|done..].
Qed.

Lemma apply_replacements_splice_from pos ls rs :
  ordered pos ls rs = true → apply_replacements ls rs = Ok (take pos ls ++ splice pos ls rs).
Proof.
  unfold apply_replacements. revert pos. induction rs as [|[[s n] new] rs IH]; intros pos; cbn [ordered rev splice].
  { cbn. by rewrite take_drop. }
  rewrite !andb_true_iff, !Nat.leb_le. intros [[Hp Hs] Ho]. rewrite apply_each_app, (IH _ Ho).
  cbn [mbind res_bind apply_each apply_one].
  assert (length (take (s + n) ls) = (s + n)%nat) as Hlen by (rewrite length_take; lia).
  rewrite remove_lines_ok by (rewrite length_app; lia).
  rewrite take_app_le by lia. rewrite take_take, Nat.min_l by lia.
  rewrite drop_app_ge by lia. rewrite Hlen, Nat.sub_diag, drop_0.
  assert (length (take s ls) = s) as Hs' by (rewrite length_take; lia).
  rewrite insert_lines_ok by (rewrite length_app; lia).
  rewrite take_app_le, drop_app_ge by lia. rewrite take_ge, Hs', Nat.sub_diag, drop_0 by lia.
  cbn [mbind res_bind]. by rewrite <- (take_cut ls pos s Hp), <- app_assoc.
Qed.

(** Replacing from the back, in place, line by line, is the splice. *)
Theorem apply_replacements_splice ls rs :
  ordered 0 ls rs = true → apply_replacements ls rs = Ok (splice 0 ls rs).
Proof. apply apply_replacements_splice_from. Qed.

(** ** What an update does to a file *)

(** A chunk that replaces lines, not bound to the end of the file. *)
Definition replacing (c : UpdateFileChunk) : bool :=
  negb (is_end_of_file c) && match old_lines c with [] => false | _ :: _ => true end.

Definition has_context (c : UpdateFileChunk) (kept : list string) : Prop :=
  match change_context c with
  | Some x => ∃ level l, l ∈ kept ∧ same_line level l x = true
  | None => True
  end.

(** The chunks change the lines one after the other: each keeps what comes
    before the lines it replaces, its context among them. *)
Inductive edited : list UpdateFileChunk → list string → list string → Prop :=
| edited_end ls : edited [] ls ls
| edited_chunk c cs kept old new rest rest' :
    has_context c kept → swaps c old new → edited cs rest rest' →
    edited (c :: cs) (kept ++ old ++ rest) (kept ++ new ++ rest').

Lemma matches_at_one level ls x k :
  matches_at level ls [x] k = true → ∃ l, ls !! k = Some l ∧ same_line level l x = true.
Proof.
  unfold matches_at. destruct (drop k ls) as [|l r] eqn:E; cbn; [done|].
  rewrite andb_true_iff. intros [Hl _]. exists l. split; [|done].
  apply (f_equal (.!! 0%nat)) in E. rewrite lookup_drop, Nat.add_0_r in E. done.
Qed.

Lemma context_kept ls path i c j s :
  (i <= length ls)%nat → (j <= s)%nat → seek_context ls path i (change_context c) = Ok j →
  has_context c (take (s - i) (drop i ls)).
Proof.
  intros Hi Hs Hj. apply seek_context_range in Hj as [_ Hx]; [|done]. unfold has_context.
  destruct (change_context c) as [x|]; [|done]. destruct Hx as (level & k & Hk & Hm).
  apply matches_at_one in Hm as (l & Hl & Hsame). exists level, l. split; [|done].
  apply list_elem_of_lookup. exists (k - i)%nat. rewrite lookup_take_lt by lia.
  rewrite lookup_drop. by replace (i + (k - i))%nat with k by lia.
Qed.

Lemma cut3 {A} (l : list A) i s n :
  (i <= s)%nat → drop i l = take (s - i) (drop i l) ++ take n (drop s l) ++ drop (s + n) l.
Proof.
  intros H. rewrite <- (take_drop (s - i) (drop i l)) at 1. f_equal. rewrite drop_drop.
  replace (i + (s - i))%nat with s by lia. by rewrite <- (take_drop n (drop s l)), drop_drop at 1.
Qed.

Lemma replacements_loop_edits ls path cs i acc rs :
  (i <= length ls)%nat → forallb replacing cs = true →
  replacements_loop ls path i cs acc = Ok rs →
  ∃ rs', rs = acc ++ rs' ∧ ordered i ls rs' = true ∧ edited cs (drop i ls) (splice i ls rs').
Proof.
  revert i acc. induction cs as [|c cs IH]; intros i acc Hi; cbn [forallb replacements_loop].
  { intros _ [= <-]. exists []. rewrite app_nil_r. split; [done|]. split; [by apply Nat.leb_le|constructor]. }
  rewrite andb_true_iff. intros [Hc Hcs] E. apply res_bind_Ok in E as (j & Hj & E).
  pose proof (seek_context_range _ _ _ _ _ Hi Hj) as [Hij _].
  apply andb_true_iff in Hc as [Heof Hold]. apply negb_true_iff in Heof.
  destruct (old_lines c) as [|x xs]; [done|].
  destruct (locate ls j c) as [[[s n] new]|] eqn:El; [|done].
  apply locate_range in El as (Hsn & Hjs & Hswap); [|lia]. specialize (Hjs Heof).
  apply IH in E as (rs' & -> & Ho & He); [|lia|done].
  exists ((s, n, new) :: rs'). split; [by rewrite <- app_assoc|]. split.
  - cbn [ordered]. rewrite Ho, !(proj2 (Nat.leb_le _ _)) by lia. done.
  - rewrite (cut3 ls i s n) by lia. cbn [splice]. constructor; [|done..]. by eapply context_kept.
Qed.

Lemma ordered_sorted i ls rs :
  ordered i ls rs = true →
  Forall (λ r : Replacement, i <= r.1.1)%nat rs ∧ StronglySorted (λ r r', index_le r r') rs.
Proof.
  revert i. induction rs as [|[[s n] new] rs IH]; intros i; cbn [ordered]; [repeat constructor|].
  rewrite !andb_true_iff, !Nat.leb_le. intros [[Hi _] Ho]. apply IH in Ho as [Hf Hs].
  split; constructor; [done|..|done|].
  - eapply Forall_impl; [exact Hf|]. cbn. intros r Hr. lia.
  - eapply Forall_impl; [exact Hf|]. intros r Hr. apply Is_true_true, Nat.leb_le. cbn in *. lia.
Qed.

(** Sorting what is sorted changes nothing. *)
(** A successful update by chunks that replace lines is an edit: the file is
    cut into the lines kept and the lines the chunks name, in order, and
    exactly the latter are replaced by the new ones. *)
Theorem update_is_edit path contents chunks text :
  forallb replacing chunks = true →
  derive_new_contents path contents chunks = Ok text →
  ∃ new, edited chunks (file_lines contents) new ∧ text = lines_text new.
Proof.
  intros Hc. unfold derive_new_contents, compute_replacements.
  destruct (replacements_loop _ _ _ _ _) as [rs|e|] eqn:E; [|done..]. cbn [mbind res_bind].
  apply replacements_loop_edits in E as (rs' & -> & Ho & He); [|lia|done]. cbn [app].
  apply ordered_sorted in Ho as Hs. rewrite sort_by_id by apply Hs.
  rewrite apply_replacements_splice_from with (pos := 0%nat) by done. intros [= <-].
  rewrite drop_0 in He. eauto.
Qed.

(** ** Where an update surprises *)

(** A chunk without old lines goes to the end of the file, whatever its
    context: the context only has to occur. *)
Theorem addition_goes_to_end path contents ctx new :
  (match ctx with
   | Some x => ∃ i, seek_sequence (file_lines contents) [x] 0 false = Some i
   | None => True
   end) →
  derive_new_contents path contents
    [{| change_context := ctx; old_lines := []; new_lines := new; is_end_of_file := false |}] =
  Ok (lines_text
        (let ls := file_lines contents in
         take (insertion_idx ls) ls ++ new ++ drop (insertion_idx ls) ls)).
Proof.
  intros Hctx. unfold derive_new_contents, compute_replacements. cbn [replacements_loop change_context old_lines].
  assert (∃ j, seek_context (file_lines contents) path 0 ctx = Ok j) as [j ->].
  { unfold seek_context. destruct ctx as [x|]; [|by eexists]. destruct Hctx as [i ->]. by eexists. }
  cbn. rewrite insert_lines_ok; [done|]. unfold insertion_idx. destruct (last_is_empty _); lia.
Qed.

(** Two changes that meet at the end of the file: the added line is put in
    first, and then removed as one of the old lines of the other chunk. *)
Example meeting_changes_lose_a_line :
  let nl := String newline "" in
  derive_new_contents "f" ("a" +:+ nl +:+ nl)
    [{| change_context := None; old_lines := ["a"; ""]; new_lines := ["b"; ""]; is_end_of_file := false |};
     {| change_context := None; old_lines := []; new_lines := ["c"]; is_end_of_file := false |}] =
  Ok ("b" +:+ nl +:+ nl).
Proof. by vm_compute. Qed.
