(* ===== verification/Types.v ===== *)
(** * Shared data of the harness (deterministic-protocol/src/types.rs)

    The enums with their wire names and sort keys, the bounds the daemon
    checks, and one record per request, response and persisted struct.  A
    field keeps its Rust name behind a prefix for its struct, since record
    projections share one name space.  Structs the code updates in place
    have one setter per updated field. *)

From S2P Require Import Prelude RustStr.

(** ** Bounds *)

Definition PRIORITY_REASON_MAX_LEN : usize := 500.
Definition LABEL_MAX_LEN : usize := 64.
Definition LABEL_MAX_COUNT : usize := 16.
Definition OPERATOR_NOTE_MAX_LEN : usize := 1000.
Definition PIN_REASON_MAX_LEN : usize := 500.
Definition SNOOZE_REASON_MAX_LEN : usize := 500.
Definition ASSIGNEE_MAX_LEN : usize := 64.
Definition OWNERSHIP_NOTE_MAX_LEN : usize := 500.
Definition MAX_DEPENDENCY_COUNT : usize := 32.
Definition VALID_OUTCOME_KINDS : list string := ["completed"; "failed"; "abandoned"].

(** ** Enums *)

Inductive RunPriority := Low | Normal | High | Urgent.
#[export] Instance RunPriority_eq_dec : EqDecision RunPriority.
Proof. solve_decision. Defined.

Definition priority_as_str (p : RunPriority) : string :=
  match p with Low => "low" | Normal => "normal" | High => "high" | Urgent => "urgent" end.

Definition priority_parse (s : string) : option RunPriority :=
  if s == "low" then Some Low else if s == "normal" then Some Normal
  else if s == "high" then Some High else if s == "urgent" then Some Urgent else None.

Definition priority_all : list RunPriority := [Low; Normal; High; Urgent].

Definition priority_sort_key (p : RunPriority) : i64 :=
  match p with Low => 0 | Normal => 1 | High => 2 | Urgent => 3 end.

Inductive RunEffort := Small | Medium | Large.
#[export] Instance RunEffort_eq_dec : EqDecision RunEffort.
Proof. solve_decision. Defined.

Definition effort_as_str (e : RunEffort) : string :=
  match e with Small => "small" | Medium => "medium" | Large => "large" end.

Definition effort_parse (s : string) : option RunEffort :=
  if s == "small" then Some Small else if s == "medium" then Some Medium
  else if s == "large" then Some Large else None.

Definition effort_all : list RunEffort := [Small; Medium; Large].

Definition effort_sort_key (e : RunEffort) : i64 :=
  match e with Small => 0 | Medium => 1 | Large => 2 end.

Inductive RunStaleness := Fresh | Aging | Stale.
#[export] Instance RunStaleness_eq_dec : EqDecision RunStaleness.
Proof. solve_decision. Defined.

Definition staleness_as_str (e : RunStaleness) : string :=
  match e with Fresh => "fresh" | Aging => "aging" | Stale => "stale" end.

Definition staleness_parse (s : string) : option RunStaleness :=
  if s == "fresh" then Some Fresh else if s == "aging" then Some Aging
  else if s == "stale" then Some Stale else None.

Definition staleness_sort_key (e : RunStaleness) : i64 :=
  match e with Fresh => 0 | Aging => 1 | Stale => 2 end.

Inductive RunTriageBucket := Critical | Attention | Ready | Blocked | Deferred | Done.
#[export] Instance RunTriageBucket_eq_dec : EqDecision RunTriageBucket.
Proof. solve_decision. Defined.

Definition triage_sort_key (b : RunTriageBucket) : i64 :=
  match b with
  | Critical => 5 | Attention => 4 | Ready => 3 | Blocked => 2 | Deferred => 1 | Done => 0
  end.

Definition triage_to_string (b : RunTriageBucket) : string :=
  match b with
  | Critical => "critical" | Attention => "attention" | Ready => "ready"
  | Blocked => "blocked" | Deferred => "deferred" | Done => "done"
  end.

Inductive PreflightDecision := PfProceed | PfRequiresApproval.
#[export] Instance PreflightDecision_eq_dec : EqDecision PreflightDecision.
Proof. solve_decision. Defined.

(** ** Structs *)

Record RunPolicy := mkRunPolicy {
  pol_patch_edit_threshold : usize;
  pol_delete_requires_approval : bool;
  pol_sensitive_path_requires_approval : bool;
  pol_outside_focus_requires_approval : bool;
  pol_extra_safe_make_targets : list string;
  pol_focus_paths : list string
}.

Record RunPolicyInput := mkRunPolicyInput {
  pin_patch_edit_threshold : option usize;
  pin_delete_requires_approval : option bool;
  pin_sensitive_path_requires_approval : option bool;
  pin_outside_focus_requires_approval : option bool;
  pin_extra_safe_make_targets : option (list string)
}.

Record RunPrepareParams := mkRunPrepareParams {
  rpp_workspace_id : string;
  rpp_user_goal : string;
  rpp_focus_paths : list string;
  rpp_mode : option string;
  rpp_policy : option RunPolicyInput
}.

Record RunPrepareResult := mkRunPrepareResult {
  rpr_run_id : string;
  rpr_objective : string;
  rpr_assistant_brief : string;
  rpr_constraints : list string;
  rpr_status : string;
  rpr_plan : list string;
  rpr_current_step : usize;
  rpr_recommended_next_action : string;
  rpr_recommended_tool : string;
  rpr_effective_policy : RunPolicy
}.

Record WorkspaceSummaryParams := mkWorkspaceSummaryParams {
  wsp_workspace_id : string;
  wsp_focus_paths : list string
}.

Record WorkspaceSummaryResult := mkWorkspaceSummaryResult {
  wsr_root : string;
  wsr_detected_languages : list string;
  wsr_dirty_files : list string;
  wsr_relevant_paths : list string
}.

Record FileReadParams := mkFileReadParams {
  frp_run_id : string;
  frp_path : string;
  frp_start_line : option u64;
  frp_end_line : option u64;
  frp_purpose : option string
}.

Record FileReadResult := mkFileReadResult {
  frr_path : string;
  frr_content : string;
  frr_start_line : u64;
  frr_end_line : u64;
  frr_total_lines : u64
}.

Record GitStatusParams := mkGitStatusParams {
  gsp_run_id : string
}.

Record GitStatusResult := mkGitStatusResult {
  gsr_branch : string;
  gsr_dirty_files : list string;
  gsr_untracked_files : list string
}.

Record CodeSearchParams := mkCodeSearchParams {
  csp_run_id : string;
  csp_query : string;
  csp_path_glob : option string;
  csp_max_results : option usize
}.

Record CodeSearchMatch := mkCodeSearchMatch {
  csm_path : string;
  csm_line : u64;
  csm_snippet : string
}.

Record CodeSearchResult := mkCodeSearchResult {
  csr_matches : list CodeSearchMatch
}.

Record PatchEdit := mkPatchEdit {
  pe_path : string;
  pe_operation : string;
  pe_start_line : option u64;
  pe_end_line : option u64;
  pe_old_text : option string;
  pe_new_text : string;
  pe_anchor_text : option string;
  pe_reason : option string
}.

Record PatchApplyParams := mkPatchApplyParams {
  pap_run_id : string;
  pap_edits : list PatchEdit
}.

Record PendingApproval := mkPendingApproval {
  pa_approval_id : string;
  pa_run_id : string;
  pa_action_description : string;
  pa_risk_reason : string;
  pa_policy_rationale : string;
  pa_status : string;
  pa_created_at : string
}.

Record PatchApplyResult := mkPatchApplyResult {
  par_changed_files : list string;
  par_diff_stats : string;
  par_approval_required : option PendingApproval
}.

Record TestsRunParams := mkTestsRunParams {
  trp_run_id : string;
  trp_scope : string;
  trp_target : option string;
  trp_reason : string
}.

Record TestsRunResult := mkTestsRunResult {
  trr_resolved_command : string;
  trr_exit_code : i32;
  trr_stdout : string;
  trr_stderr : string;
  trr_summary : string;
  trr_approval_required : option PendingApproval
}.

Record GitDiffParams := mkGitDiffParams {
  gdp_run_id : string;
  gdp_paths : list string;
  gdp_format : option string
}.

Record GitDiffResult := mkGitDiffResult {
  gdr_changed_files : list string;
  gdr_diff_summary : string;
  gdr_patch_text : option string
}.

Record RunRefreshParams := mkRunRefreshParams {
  rrfp_run_id : string
}.

Record RetryableAction := mkRetryableAction {
  ra_kind : string;
  ra_summary : string;
  ra_payload : option string;
  ra_retryable_reason : string;
  ra_is_valid : bool;
  ra_is_recommended : bool;
  ra_invalidation_reason : option string;
  ra_recommended_tool : string;
  ra_created_at : string
}.

Definition eta_RetryableAction (x : RetryableAction) : RetryableAction :=
  mkRetryableAction (ra_kind x) (ra_summary x) (ra_payload x) (ra_retryable_reason x) (ra_is_valid x) (ra_is_recommended x) (ra_invalidation_reason x) (ra_recommended_tool x) (ra_created_at x).

Definition set_ra_is_valid : bool → RetryableAction → RetryableAction := ltac:(mk_setter eta_RetryableAction ra_is_valid).
Definition set_ra_is_recommended : bool → RetryableAction → RetryableAction := ltac:(mk_setter eta_RetryableAction ra_is_recommended).
Definition set_ra_invalidation_reason : (option string) → RetryableAction → RetryableAction := ltac:(mk_setter eta_RetryableAction ra_invalidation_reason).

Record RunOutcome := mkRunOutcome {
  ro_outcome_kind : string;
  ro_summary : string;
  ro_reason : option string;
  ro_finalized_at : string
}.

Record ReopenMetadata := mkReopenMetadata {
  rm_reason : string;
  rm_reopened_at : string;
  rm_reopened_from_outcome_kind : string;
  rm_reopen_count : u32
}.

Record RunRefreshResult := mkRunRefreshResult {
  rrfr_run_id : string;
  rrfr_status : string;
  rrfr_current_step : usize;
  rrfr_completed_steps : list string;
  rrfr_pending_steps : list string;
  rrfr_last_action : option string;
  rrfr_last_observation : option string;
  rrfr_recommended_next_action : option string;
  rrfr_recommended_tool : option string;
  rrfr_pending_approvals : list PendingApproval;
  rrfr_latest_diff_summary : option string;
  rrfr_latest_test_result : option string;
  rrfr_retryable_action : option RetryableAction;
  rrfr_warnings : list string;
  rrfr_effective_policy : RunPolicy;
  rrfr_finalized_outcome : option RunOutcome;
  rrfr_reopen_metadata : option ReopenMetadata
}.

Record RunReplanParams := mkRunReplanParams {
  rrpp_run_id : string;
  rrpp_reason : string;
  rrpp_new_evidence : list string;
  rrpp_failure_context : option string
}.

Record RunReplanResult := mkRunReplanResult {
  rrpr_run_id : string;
  rrpr_status : string;
  rrpr_current_step : usize;
  rrpr_pending_steps : list string;
  rrpr_recommended_next_action : string;
  rrpr_recommended_tool : string;
  rrpr_replan_summary : string;
  rrpr_retryable_action : option RetryableAction;
  rrpr_replan_delta : option string
}.

Record ApprovalResolveParams := mkApprovalResolveParams {
  arp_run_id : string;
  arp_approval_id : string;
  arp_decision : string;
  arp_reason : option string
}.

Record ApprovalResolveResult := mkApprovalResolveResult {
  arr_approval_id : string;
  arr_run_id : string;
  arr_decision : string;
  arr_status : string;
  arr_summary : string;
  arr_recommended_next_action : option string;
  arr_recommended_tool : option string;
  arr_retryable_action : option RetryableAction
}.

Record RunSetPriorityParams := mkRunSetPriorityParams {
  rspp_run_id : string;
  rspp_priority : RunPriority;
  rspp_reason : string
}.

Record RunSetPriorityResult := mkRunSetPriorityResult {
  rspr_run_id : string;
  rspr_status : string;
  rspr_previous_priority : RunPriority;
  rspr_priority : RunPriority;
  rspr_reason : string;
  rspr_set_at : string;
  rspr_message : string
}.

Record ArchiveMetadata := mkArchiveMetadata {
  am_reason : string;
  am_archived_at : string
}.

Record UnarchiveMetadata := mkUnarchiveMetadata {
  um_reason : string;
  um_unarchived_at : string
}.

Record RunAnnotation := mkRunAnnotation {
  an_labels : list string;
  an_operator_note : option string
}.

Definition eta_RunAnnotation (x : RunAnnotation) : RunAnnotation :=
  mkRunAnnotation (an_labels x) (an_operator_note x).

Definition set_an_labels : (list string) → RunAnnotation → RunAnnotation := ltac:(mk_setter eta_RunAnnotation an_labels).
Definition set_an_operator_note : (option string) → RunAnnotation → RunAnnotation := ltac:(mk_setter eta_RunAnnotation an_operator_note).

Record PinMetadata := mkPinMetadata {
  pm_reason : string;
  pm_pinned_at : string
}.

Record SnoozeMetadata := mkSnoozeMetadata {
  snm_reason : string;
  snm_snoozed_at : string
}.

Record RunState := mkRunState {
  rs_run_id : string;
  rs_workspace_id : string;
  rs_user_goal : string;
  rs_status : string;
  rs_plan : list string;
  rs_current_step : usize;
  rs_completed_steps : list string;
  rs_pending_steps : list string;
  rs_last_action : option string;
  rs_last_observation : option string;
  rs_recommended_next_action : option string;
  rs_recommended_tool : option string;
  rs_latest_diff_summary : option string;
  rs_latest_test_result : option string;
  rs_focus_paths : list string;
  rs_warnings : list string;
  rs_retryable_action : option RetryableAction;
  rs_policy_profile : RunPolicy;
  rs_finalized_outcome : option RunOutcome;
  rs_reopen_metadata : option ReopenMetadata;
  rs_supersedes_run_id : option string;
  rs_superseded_by_run_id : option string;
  rs_supersession_reason : option string;
  rs_superseded_at : option string;
  rs_archive_metadata : option ArchiveMetadata;
  rs_unarchive_metadata : option UnarchiveMetadata;
  rs_annotation : option RunAnnotation;
  rs_pin_metadata : option PinMetadata;
  rs_snooze_metadata : option SnoozeMetadata;
  rs_priority : RunPriority;
  rs_assignee : option string;
  rs_ownership_note : option string;
  rs_due_date : option string;
  rs_blocked_by_run_ids : list string;
  rs_effort : option RunEffort;
  rs_created_at : string;
  rs_updated_at : string
}.

Definition eta_RunState (x : RunState) : RunState :=
  mkRunState (rs_run_id x) (rs_workspace_id x) (rs_user_goal x) (rs_status x) (rs_plan x) (rs_current_step x) (rs_completed_steps x) (rs_pending_steps x) (rs_last_action x) (rs_last_observation x) (rs_recommended_next_action x) (rs_recommended_tool x) (rs_latest_diff_summary x) (rs_latest_test_result x) (rs_focus_paths x) (rs_warnings x) (rs_retryable_action x) (rs_policy_profile x) (rs_finalized_outcome x) (rs_reopen_metadata x) (rs_supersedes_run_id x) (rs_superseded_by_run_id x) (rs_supersession_reason x) (rs_superseded_at x) (rs_archive_metadata x) (rs_unarchive_metadata x) (rs_annotation x) (rs_pin_metadata x) (rs_snooze_metadata x) (rs_priority x) (rs_assignee x) (rs_ownership_note x) (rs_due_date x) (rs_blocked_by_run_ids x) (rs_effort x) (rs_created_at x) (rs_updated_at x).

Definition set_rs_status : string → RunState → RunState := ltac:(mk_setter eta_RunState rs_status).
Definition set_rs_last_observation : (option string) → RunState → RunState := ltac:(mk_setter eta_RunState rs_last_observation).
Definition set_rs_pending_steps : (list string) → RunState → RunState := ltac:(mk_setter eta_RunState rs_pending_steps).
Definition set_rs_recommended_next_action : (option string) → RunState → RunState := ltac:(mk_setter eta_RunState rs_recommended_next_action).
Definition set_rs_recommended_tool : (option string) → RunState → RunState := ltac:(mk_setter eta_RunState rs_recommended_tool).
Definition set_rs_retryable_action : (option RetryableAction) → RunState → RunState := ltac:(mk_setter eta_RunState rs_retryable_action).
Definition set_rs_finalized_outcome : (option RunOutcome) → RunState → RunState := ltac:(mk_setter eta_RunState rs_finalized_outcome).
Definition set_rs_reopen_metadata : (option ReopenMetadata) → RunState → RunState := ltac:(mk_setter eta_RunState rs_reopen_metadata).
Definition set_rs_superseded_by_run_id : (option string) → RunState → RunState := ltac:(mk_setter eta_RunState rs_superseded_by_run_id).
Definition set_rs_supersession_reason : (option string) → RunState → RunState := ltac:(mk_setter eta_RunState rs_supersession_reason).
Definition set_rs_superseded_at : (option string) → RunState → RunState := ltac:(mk_setter eta_RunState rs_superseded_at).
Definition set_rs_archive_metadata : (option ArchiveMetadata) → RunState → RunState := ltac:(mk_setter eta_RunState rs_archive_metadata).
Definition set_rs_unarchive_metadata : (option UnarchiveMetadata) → RunState → RunState := ltac:(mk_setter eta_RunState rs_unarchive_metadata).
Definition set_rs_annotation : (option RunAnnotation) → RunState → RunState := ltac:(mk_setter eta_RunState rs_annotation).
Definition set_rs_pin_metadata : (option PinMetadata) → RunState → RunState := ltac:(mk_setter eta_RunState rs_pin_metadata).
Definition set_rs_snooze_metadata : (option SnoozeMetadata) → RunState → RunState := ltac:(mk_setter eta_RunState rs_snooze_metadata).
Definition set_rs_priority : RunPriority → RunState → RunState := ltac:(mk_setter eta_RunState rs_priority).
Definition set_rs_assignee : (option string) → RunState → RunState := ltac:(mk_setter eta_RunState rs_assignee).
Definition set_rs_ownership_note : (option string) → RunState → RunState := ltac:(mk_setter eta_RunState rs_ownership_note).
Definition set_rs_due_date : (option string) → RunState → RunState := ltac:(mk_setter eta_RunState rs_due_date).
Definition set_rs_blocked_by_run_ids : (list string) → RunState → RunState := ltac:(mk_setter eta_RunState rs_blocked_by_run_ids).
Definition set_rs_effort : (option RunEffort) → RunState → RunState := ltac:(mk_setter eta_RunState rs_effort).
Definition set_rs_updated_at : string → RunState → RunState := ltac:(mk_setter eta_RunState rs_updated_at).

Record RunSummary := mkRunSummary {
  sum_run_id : string;
  sum_workspace_id : string;
  sum_user_goal : string;
  sum_status : string;
  sum_current_step : usize;
  sum_total_steps : usize;
  sum_outcome_kind : option string;
  sum_reopen_count : option u32;
  sum_supersedes_run_id : option string;
  sum_superseded_by_run_id : option string;
  sum_is_archived : option bool;
  sum_archive_reason : option string;
  sum_archived_at : option string;
  sum_unarchive_reason : option string;
  sum_unarchived_at : option string;
  sum_labels : list string;
  sum_operator_note : option string;
  sum_is_pinned : option bool;
  sum_pin_reason : option string;
  sum_pinned_at : option string;
  sum_is_snoozed : option bool;
  sum_snooze_reason : option string;
  sum_snoozed_at : option string;
  sum_priority : RunPriority;
  sum_assignee : option string;
  sum_due_date : option string;
  sum_is_blocked : option bool;
  sum_blocked_by_count : option usize;
  sum_is_blocking : option bool;
  sum_blocking_run_count : option usize;
  sum_blocking_reason : option string;
  sum_effort : option RunEffort;
  sum_age_days : option u32;
  sum_is_stale : option bool;
  sum_staleness_reason : option string;
  sum_staleness_bucket : option RunStaleness;
  sum_triage_bucket : option RunTriageBucket;
  sum_triage_reason : option string;
  sum_created_at : string;
  sum_updated_at : string
}.

Definition eta_RunSummary (x : RunSummary) : RunSummary :=
  mkRunSummary (sum_run_id x) (sum_workspace_id x) (sum_user_goal x) (sum_status x) (sum_current_step x) (sum_total_steps x) (sum_outcome_kind x) (sum_reopen_count x) (sum_supersedes_run_id x) (sum_superseded_by_run_id x) (sum_is_archived x) (sum_archive_reason x) (sum_archived_at x) (sum_unarchive_reason x) (sum_unarchived_at x) (sum_labels x) (sum_operator_note x) (sum_is_pinned x) (sum_pin_reason x) (sum_pinned_at x) (sum_is_snoozed x) (sum_snooze_reason x) (sum_snoozed_at x) (sum_priority x) (sum_assignee x) (sum_due_date x) (sum_is_blocked x) (sum_blocked_by_count x) (sum_is_blocking x) (sum_blocking_run_count x) (sum_blocking_reason x) (sum_effort x) (sum_age_days x) (sum_is_stale x) (sum_staleness_reason x) (sum_staleness_bucket x) (sum_triage_bucket x) (sum_triage_reason x) (sum_created_at x) (sum_updated_at x).

Definition set_sum_is_blocking : (option bool) → RunSummary → RunSummary := ltac:(mk_setter eta_RunSummary sum_is_blocking).
Definition set_sum_blocking_run_count : (option usize) → RunSummary → RunSummary := ltac:(mk_setter eta_RunSummary sum_blocking_run_count).
Definition set_sum_blocking_reason : (option string) → RunSummary → RunSummary := ltac:(mk_setter eta_RunSummary sum_blocking_reason).
Definition set_sum_age_days : (option u32) → RunSummary → RunSummary := ltac:(mk_setter eta_RunSummary sum_age_days).
Definition set_sum_is_stale : (option bool) → RunSummary → RunSummary := ltac:(mk_setter eta_RunSummary sum_is_stale).
Definition set_sum_staleness_reason : (option string) → RunSummary → RunSummary := ltac:(mk_setter eta_RunSummary sum_staleness_reason).
Definition set_sum_staleness_bucket : (option RunStaleness) → RunSummary → RunSummary := ltac:(mk_setter eta_RunSummary sum_staleness_bucket).
Definition set_sum_triage_bucket : (option RunTriageBucket) → RunSummary → RunSummary := ltac:(mk_setter eta_RunSummary sum_triage_bucket).
Definition set_sum_triage_reason : (option string) → RunSummary → RunSummary := ltac:(mk_setter eta_RunSummary sum_triage_reason).

Record RunsListParams := mkRunsListParams {
  rlp_limit : option usize;
  rlp_workspace_id : option string;
  rlp_status : option string;
  rlp_include_archived : option bool;
  rlp_archived_only : option bool;
  rlp_label : option string;
  rlp_pinned_only : option bool;
  rlp_include_snoozed : option bool;
  rlp_snoozed_only : option bool;
  rlp_priority_filter : option RunPriority;
  rlp_sort_by_priority : option bool;
  rlp_assignee : option string;
  rlp_due_on_or_before : option string;
  rlp_sort_by_due_date : option bool;
  rlp_blocked_only : option bool;
  rlp_blocked_by_run_id : option string;
  rlp_blocking_only : option bool;
  rlp_blocking_run_count_at_least : option usize;
  rlp_effort_filter : option RunEffort;
  rlp_sort_by_effort : option bool;
  rlp_stale_only : option bool;
  rlp_fresh_only : option bool;
  rlp_sort_by_staleness : option bool;
  rlp_today : option string;
  rlp_triage_bucket_filter : option RunTriageBucket;
  rlp_sort_by_triage : option bool
}.

Record RunsListResult := mkRunsListResult {
  rlr_runs : list RunSummary;
  rlr_count : usize
}.

Record RunsQueueOverviewParams := mkRunsQueueOverviewParams {
  rqop_workspace_id : option string;
  rqop_include_archived : option bool;
  rqop_include_snoozed : option bool;
  rqop_today : option string
}.

Record PriorityCounts := mkPriorityCounts {
  pc_low : usize;
  pc_normal : usize;
  pc_high : usize;
  pc_urgent : usize
}.

Record RunQueueOverview := mkRunQueueOverview {
  rqo_total_visible : usize;
  rqo_ready_count : usize;
  rqo_blocked_count : usize;
  rqo_needs_attention_count : usize;
  rqo_pinned_count : usize;
  rqo_snoozed_count : usize;
  rqo_overdue_count : option usize;
  rqo_archived_count : option usize;
  rqo_by_priority : PriorityCounts;
  rqo_by_assignee : gmap string N;
  rqo_by_status : gmap string N
}.

Record QueueViewFilters := mkQueueViewFilters {
  qvf_workspace_id : option string;
  qvf_status : option string;
  qvf_label : option string;
  qvf_assignee : option string;
  qvf_include_archived : bool;
  qvf_include_snoozed : bool;
  qvf_pinned_only : bool;
  qvf_snoozed_only : bool;
  qvf_archived_only : bool;
  qvf_priority_filter : option RunPriority;
  qvf_effort_filter : option RunEffort;
  qvf_blocked_only : bool;
  qvf_blocked_by_run_id : option string;
  qvf_due_on_or_before : option string;
  qvf_triage_bucket_filter : option RunTriageBucket;
  qvf_stale_only : bool;
  qvf_fresh_only : bool;
  qvf_blocking_run_count_at_least : option usize;
  qvf_today : option string
}.

Record QueueViewSort := mkQueueViewSort {
  qvs_sort_by_priority : bool;
  qvs_sort_by_due_date : bool;
  qvs_sort_by_effort : bool;
  qvs_sort_by_triage : bool;
  qvs_sort_by_staleness : bool
}.

Record QueueView := mkQueueView {
  qv_view_id : string;
  qv_name : string;
  qv_description : option string;
  qv_filters : QueueViewFilters;
  qv_sort : QueueViewSort;
  qv_limit : option usize;
  qv_created_at : string;
  qv_updated_at : string
}.

Definition eta_QueueView (x : QueueView) : QueueView :=
  mkQueueView (qv_view_id x) (qv_name x) (qv_description x) (qv_filters x) (qv_sort x) (qv_limit x) (qv_created_at x) (qv_updated_at x).

Definition set_qv_name : string → QueueView → QueueView := ltac:(mk_setter eta_QueueView qv_name).
Definition set_qv_description : (option string) → QueueView → QueueView := ltac:(mk_setter eta_QueueView qv_description).
Definition set_qv_filters : QueueViewFilters → QueueView → QueueView := ltac:(mk_setter eta_QueueView qv_filters).
Definition set_qv_sort : QueueViewSort → QueueView → QueueView := ltac:(mk_setter eta_QueueView qv_sort).
Definition set_qv_limit : (option usize) → QueueView → QueueView := ltac:(mk_setter eta_QueueView qv_limit).
Definition set_qv_updated_at : string → QueueView → QueueView := ltac:(mk_setter eta_QueueView qv_updated_at).

Record CreateQueueViewParams := mkCreateQueueViewParams {
  cqvp_name : string;
  cqvp_description : option string;
  cqvp_filters : QueueViewFilters;
  cqvp_sort : QueueViewSort;
  cqvp_limit : option usize
}.

Record CreateQueueViewResult := mkCreateQueueViewResult {
  cqvr_view : QueueView
}.

Record UpdateQueueViewParams := mkUpdateQueueViewParams {
  uqvp_view_id : string;
  uqvp_name : option string;
  uqvp_description : option (option string);
  uqvp_filters : option QueueViewFilters;
  uqvp_sort : option QueueViewSort;
  uqvp_limit : option (option usize)
}.

Record UpdateQueueViewResult := mkUpdateQueueViewResult {
  uqvr_view : QueueView
}.

Record DeleteQueueViewParams := mkDeleteQueueViewParams {
  dqvp_view_id : string
}.

Record DeleteQueueViewResult := mkDeleteQueueViewResult {
  dqvr_deleted_view_id : string
}.

Record GetQueueViewParams := mkGetQueueViewParams {
  gqvp_view_id : string
}.

Record ListQueueViewsParams := mkListQueueViewsParams {
  lqvp_name_contains : option string
}.

Record ListQueueViewsResult := mkListQueueViewsResult {
  lqvr_views : list QueueView;
  lqvr_count : usize
}.

Record RunGetParams := mkRunGetParams {
  rgp_run_id : string
}.

Record RunGetResult := mkRunGetResult {
  rgr_run_state : RunState;
  rgr_pending_approvals : list PendingApproval;
  rgr_retryable_action : option RetryableAction;
  rgr_latest_diff_summary : option string;
  rgr_latest_test_result : option string;
  rgr_recommended_next_action : option string;
  rgr_recommended_tool : option string;
  rgr_warnings : list string;
  rgr_effective_policy : RunPolicy;
  rgr_finalized_outcome : option RunOutcome;
  rgr_reopen_metadata : option ReopenMetadata;
  rgr_supersedes_run_id : option string;
  rgr_superseded_by_run_id : option string;
  rgr_supersession_reason : option string;
  rgr_superseded_at : option string;
  rgr_archive_metadata : option ArchiveMetadata;
  rgr_unarchive_metadata : option UnarchiveMetadata;
  rgr_annotation : option RunAnnotation;
  rgr_pin_metadata : option PinMetadata;
  rgr_priority : RunPriority;
  rgr_due_date : option string;
  rgr_blocked_by_run_ids : list string;
  rgr_is_blocking : option bool;
  rgr_blocking_run_count : option usize;
  rgr_blocking_reason : option string;
  rgr_effort : option RunEffort;
  rgr_triage_bucket : option RunTriageBucket;
  rgr_triage_reason : option string
}.

Record RunHistoryEntry := mkRunHistoryEntry {
  rhe_entry_id : string;
  rhe_run_id : string;
  rhe_event_kind : string;
  rhe_summary : string;
  rhe_metadata : option string;
  rhe_occurred_at : string
}.

Record RunHistoryParams := mkRunHistoryParams {
  rhp_run_id : string;
  rhp_limit : option usize
}.

Record RunHistoryResult := mkRunHistoryResult {
  rhr_run_id : string;
  rhr_entries : list RunHistoryEntry;
  rhr_count : usize
}.

Record PreflightResult := mkPreflightResult {
  pfr_decision : PreflightDecision;
  pfr_action_summary : option string;
  pfr_risk_reason : option string;
  pfr_policy_rationale : option string;
  pfr_effective_policy : RunPolicy
}.

Record PatchPreflightParams := mkPatchPreflightParams {
  ppp_run_id : string;
  ppp_edits : list PatchEdit
}.

Record TestsPreflightParams := mkTestsPreflightParams {
  tpp_run_id : string;
  tpp_scope : string;
  tpp_target : option string;
  tpp_reason : option string
}.

Record RunReopenParams := mkRunReopenParams {
  rrop_run_id : string;
  rrop_reason : string
}.

Record RunReopenResult := mkRunReopenResult {
  rror_run_id : string;
  rror_status : string;
  rror_reopened_from_outcome_kind : string;
  rror_reopen_count : u32;
  rror_reopened_at : string;
  rror_recommended_next_action : string;
  rror_recommended_tool : string
}.

Record RunFinalizeParams := mkRunFinalizeParams {
  rfp_run_id : string;
  rfp_outcome_kind : string;
  rfp_summary : string;
  rfp_reason : option string
}.

Record RunFinalizeResult := mkRunFinalizeResult {
  rfr_run_id : string;
  rfr_outcome_kind : string;
  rfr_finalized_at : string;
  rfr_status : string;
  rfr_recommended_next_action : string
}.

Record RunSupersedeParams := mkRunSupersedeParams {
  rsup_run_id : string;
  rsup_new_user_goal : option string;
  rsup_reason : string
}.

Record RunSupersedeResult := mkRunSupersedeResult {
  rsur_original_run_id : string;
  rsur_successor_run_id : string;
  rsur_superseded_at : string;
  rsur_successor_status : string;
  rsur_recommended_next_action : string;
  rsur_recommended_tool : string
}.

Record RunArchiveParams := mkRunArchiveParams {
  rarp_run_id : string;
  rarp_reason : string
}.

Record RunArchiveResult := mkRunArchiveResult {
  rarr_run_id : string;
  rarr_status : string;
  rarr_archived_at : string;
  rarr_reason : string;
  rarr_message : string
}.

Record RunAnnotateParams := mkRunAnnotateParams {
  ranp_run_id : string;
  ranp_labels : option (list string);
  ranp_operator_note : option string
}.

Record RunAnnotateResult := mkRunAnnotateResult {
  ranr_run_id : string;
  ranr_annotation : RunAnnotation;
  ranr_message : string
}.

Record RunUnarchiveParams := mkRunUnarchiveParams {
  ruap_run_id : string;
  ruap_reason : string
}.

Record RunUnarchiveResult := mkRunUnarchiveResult {
  ruar_run_id : string;
  ruar_status : string;
  ruar_unarchived_at : string;
  ruar_reason : string;
  ruar_message : string
}.

Record RunPinParams := mkRunPinParams {
  rpip_run_id : string;
  rpip_reason : string
}.

Record RunPinResult := mkRunPinResult {
  rpir_run_id : string;
  rpir_status : string;
  rpir_pinned_at : string;
  rpir_reason : string;
  rpir_message : string
}.

Record RunUnpinParams := mkRunUnpinParams {
  rupp_run_id : string;
  rupp_reason : string
}.

Record RunUnpinResult := mkRunUnpinResult {
  rupr_run_id : string;
  rupr_status : string;
  rupr_message : string
}.

Record RunSnoozeParams := mkRunSnoozeParams {
  rsnp_run_id : string;
  rsnp_reason : string
}.

Record RunSnoozeResult := mkRunSnoozeResult {
  rsnr_run_id : string;
  rsnr_status : string;
  rsnr_snoozed_at : string;
  rsnr_reason : string;
  rsnr_message : string
}.

Record RunUnsnoozeParams := mkRunUnsnoozeParams {
  rusp_run_id : string;
  rusp_reason : string
}.

Record RunUnsnoozeResult := mkRunUnsnoozeResult {
  rusr_run_id : string;
  rusr_status : string;
  rusr_message : string
}.

Record RunAssignOwnerParams := mkRunAssignOwnerParams {
  raop_run_id : string;
  raop_assignee : option (option string);
  raop_ownership_note : option (option string)
}.

Record RunAssignOwnerResult := mkRunAssignOwnerResult {
  raor_run_id : string;
  raor_status : string;
  raor_previous_assignee : option string;
  raor_assignee : option string;
  raor_ownership_note : option string;
  raor_updated_at : string;
  raor_message : string
}.

Record RunSetDueDateParams := mkRunSetDueDateParams {
  rsddp_run_id : string;
  rsddp_due_date : option (option string)
}.

Record RunSetDueDateResult := mkRunSetDueDateResult {
  rsddr_run_id : string;
  rsddr_status : string;
  rsddr_previous_due_date : option string;
  rsddr_due_date : option string;
  rsddr_updated_at : string;
  rsddr_message : string
}.

Record RunSetDependenciesParams := mkRunSetDependenciesParams {
  rsdp_run_id : string;
  rsdp_blocked_by_run_ids : list string
}.

Record RunSetDependenciesResult := mkRunSetDependenciesResult {
  rsdr_run_id : string;
  rsdr_status : string;
  rsdr_blocked_by_run_ids : list string;
  rsdr_previous_blocked_by_run_ids : list string;
  rsdr_updated_at : string;
  rsdr_message : string
}.

Record RunSetEffortParams := mkRunSetEffortParams {
  rsep_run_id : string;
  rsep_effort : option (option RunEffort)
}.

Record RunSetEffortResult := mkRunSetEffortResult {
  rser_run_id : string;
  rser_status : string;
  rser_previous_effort : option RunEffort;
  rser_effort : option RunEffort;
  rser_updated_at : string;
  rser_message : string
}.

Record CommandRunParams := mkCommandRunParams {
  crp_run_id : string;
  crp_command : string;
  crp_args : list string;
  crp_workdir : option string;
  crp_timeout_secs : option u64
}.

Record CommandRunResult := mkCommandRunResult {
  crr_run_id : string;
  crr_command : string;
  crr_stdout : string;
  crr_stderr : string;
  crr_exit_code : i32;
  crr_duration_ms : u64;
  crr_allowed : bool;
  crr_denial_reason : option string
}.

(** ** Policy defaults and merging *)

Definition RunPolicy_default : RunPolicy := {|
  pol_patch_edit_threshold := 5;
  pol_delete_requires_approval := true;
  pol_sensitive_path_requires_approval := true;
  pol_outside_focus_requires_approval := true;
  pol_extra_safe_make_targets := [];
  pol_focus_paths := []
|}.

Definition RunPolicyInput_default : RunPolicyInput := mkRunPolicyInput None None None None None.

Definition into_policy `{Unicode} (self : RunPolicyInput) (focus_paths : list string) : RunPolicy :=
  let defaults := RunPolicy_default in {|
    pol_patch_edit_threshold :=
      default (pol_patch_edit_threshold defaults) (pin_patch_edit_threshold self);
    pol_delete_requires_approval :=
      default (pol_delete_requires_approval defaults) (pin_delete_requires_approval self);
    pol_sensitive_path_requires_approval :=
      default (pol_sensitive_path_requires_approval defaults)
        (pin_sensitive_path_requires_approval self);
    pol_outside_focus_requires_approval :=
      default (pol_outside_focus_requires_approval defaults)
        (pin_outside_focus_requires_approval self);
    pol_extra_safe_make_targets :=
      map to_lowercase (default [] (pin_extra_safe_make_targets self));
    pol_focus_paths := focus_paths
  |}.

Definition RunAnnotation_default : RunAnnotation := mkRunAnnotation [] None.

(** ** Wire names *)

(** Parsing the wire name of an enum value gives the value back, and only
    its wire name parses to it. *)
Lemma priority_parse_spec s p : priority_parse s = Some p ↔ s = priority_as_str p.
Proof.
  unfold priority_parse. split.
  - repeat case_match; intros [= <-]; by apply String.eqb_eq.
  - intros ->. by destruct p.
Qed.

Lemma effort_parse_spec s e : effort_parse s = Some e ↔ s = effort_as_str e.
Proof.
  unfold effort_parse. split.
  - repeat case_match; intros [= <-]; by apply String.eqb_eq.
  - intros ->. by destruct e.
Qed.

Lemma staleness_parse_spec s e : staleness_parse s = Some e ↔ s = staleness_as_str e.
Proof.
  unfold staleness_parse. split.
  - repeat case_match; intros [= <-]; by apply String.eqb_eq.
  - intros ->. by destruct e.
Qed.

(** The sort key orders priorities the way [all] lists them. *)
Lemma priority_sort_key_inj p q : priority_sort_key p = priority_sort_key q → p = q.
Proof. by destruct p, q. Qed.
