(* ===== verification/Lifecycle.v ===== *)
(** * Run lifecycle (deterministic-core: run_prepare, run_finalize, run_reopen,
    run_supersede, run_archive, run_unarchive, run_refresh, run_replan)

    Each Rust function takes [&mut RunState] and returns [Result<R>]; here it
    takes the state and returns the result with the new state.  A caller
    drops its copy of the state when the function fails, so a failing call
    returns no state.  The wall clock ([chrono::Utc::now().to_rfc3339()]), the
    random run id and the millisecond clock are arguments. *)

From S2P Require Import Prelude RustStr Types.

(** Whether the build checks integer overflow (the dev and test profiles do,
    the release profile wraps). *)
Class BuildProfile := overflow_checks : bool.

Definition u32_succ `{BuildProfile} (n : u32) : res u32 :=
  if (n <? u32_max)%N then Ok (n + 1)%N
  else if overflow_checks then Panic else Ok 0%N.

Definition is_finalized_status (status : string) : bool := starts_with status "finalized:".

(** ** run.prepare *)

Definition prepare_plan : list string :=
  ["inspect workspace"; "read relevant files"; "search code if needed";
   "apply patch"; "run tests"; "show diff"].

Definition prepare_constraints : list string :=
  ["All file writes must go through apply_patch";
   "All test execution must go through run_tests";
   "No autonomous continuation — each step requires explicit invocation"].

Definition prepare `{Unicode} (run_id now : string) (params : RunPrepareParams)
    : res (RunPrepareResult * RunState) :=
  let effective_policy :=
    into_policy (default RunPolicyInput_default (rpp_policy params)) (rpp_focus_paths params) in
  let plan := prepare_plan in
  let assistant_brief :=
    "Goal: " +:+ rpp_user_goal params +:+ ". Workspace: " +:+ rpp_workspace_id params +:+
    ". Plan has " +:+ pretty (len plan) +:+ " steps. Start by inspecting the workspace." in
  let result := {|
    rpr_run_id := run_id;
    rpr_objective := rpp_user_goal params;
    rpr_assistant_brief := assistant_brief;
    rpr_constraints := prepare_constraints;
    rpr_status := "prepared";
    rpr_plan := plan;
    rpr_current_step := 0;
    rpr_recommended_next_action := "Inspect the workspace to understand the codebase.";
    rpr_recommended_tool := "get_workspace_summary";
    rpr_effective_policy := effective_policy
  |} in
  let state := {|
    rs_run_id := run_id;
    rs_workspace_id := rpp_workspace_id params;
    rs_user_goal := rpp_user_goal params;
    rs_status := "prepared";
    rs_plan := plan;
    rs_current_step := 0;
    rs_completed_steps := [];
    rs_pending_steps := plan;
    rs_last_action := None;
    rs_last_observation := None;
    rs_recommended_next_action := Some "Inspect the workspace to understand the codebase.";
    rs_recommended_tool := Some "get_workspace_summary";
    rs_latest_diff_summary := None;
    rs_latest_test_result := None;
    rs_focus_paths := rpp_focus_paths params;
    rs_warnings := [];
    rs_retryable_action := None;
    rs_policy_profile := effective_policy;
    rs_finalized_outcome := None;
    rs_reopen_metadata := None;
    rs_supersedes_run_id := None;
    rs_superseded_by_run_id := None;
    rs_supersession_reason := None;
    rs_superseded_at := None;
    rs_archive_metadata := None;
    rs_unarchive_metadata := None;
    rs_annotation := None;
    rs_pin_metadata := None;
    rs_snooze_metadata := None;
    rs_priority := Normal;
    rs_assignee := None;
    rs_ownership_note := None;
    rs_due_date := None;
    rs_blocked_by_run_ids := [];
    rs_effort := None;
    rs_created_at := now;
    rs_updated_at := now
  |} in
  Ok (result, state).

(** ** run.finalize *)

Definition finalize_guidance (outcome_kind : string) : string :=
  if outcome_kind == "completed" then "Run is complete. Review results or prepare a new run."
  else if outcome_kind == "failed" then "Run failed. Inspect the audit trail or prepare a new run."
  else if outcome_kind == "abandoned" then
    "Run was abandoned. Prepare a new run if work should continue."
  else "Run finalized.".

Definition finalize (now : string) (params : RunFinalizeParams) (state : RunState)
    : res (RunFinalizeResult * RunState) :=
  if negb (contains_elem VALID_OUTCOME_KINDS (rfp_outcome_kind params)) then
    Err ("invalid outcome_kind '" +:+ rfp_outcome_kind params +:+ "': must be one of " +:+
         join ", " VALID_OUTCOME_KINDS)
  else if bool_decide (is_Some (rs_finalized_outcome state)) then
    Err ("run '" +:+ rfp_run_id params +:+ "' is already finalized (status: " +:+
         rs_status state +:+ "). Use reopen_run to continue work, or supersede_run to start a new approach.")
  else
    let outcome := {|
      ro_outcome_kind := rfp_outcome_kind params;
      ro_summary := rfp_summary params;
      ro_reason := rfp_reason params;
      ro_finalized_at := now
    |} in
    let state := set_rs_finalized_outcome (Some outcome) state in
    let state := set_rs_status ("finalized:" +:+ rfp_outcome_kind params) state in
    let state := set_rs_updated_at now state in
    Ok ({| rfr_run_id := rfp_run_id params;
           rfr_outcome_kind := rfp_outcome_kind params;
           rfr_finalized_at := now;
           rfr_status := rs_status state;
           rfr_recommended_next_action := finalize_guidance (rfp_outcome_kind params) |}, state).

(** ** run.reopen *)

Definition reopen_guidance (kind : string) : string :=
  if kind == "completed" then
    "Run reopened from a completed state. Call refresh_run_state to inspect current state, then replan or continue from where the run left off."
  else if kind == "failed" then
    "Run reopened from a failed state. Call refresh_run_state to inspect current state and use replan_run to update the plan with new evidence."
  else if kind == "abandoned" then
    "Run reopened from an abandoned state. Call refresh_run_state to inspect current state, then replan_run with the updated goal."
  else "Run reopened. Call refresh_run_state to inspect current state.".

Definition reopen `{BuildProfile} (now : string) (params : RunReopenParams) (state : RunState)
    : res (RunReopenResult * RunState) :=
  if negb (is_finalized_status (rs_status state)) then
    Err ("run '" +:+ rrop_run_id params +:+ "' cannot be reopened: status is '" +:+
         rs_status state +:+ "' (only finalized runs may be reopened). Use get_run_state to inspect the run, or finalize_run if work is complete.")
  else
    let kind := default "unknown" (strip_prefix "finalized:" (rs_status state)) in
    reopen_count ← match rs_reopen_metadata state with
                   | Some m => u32_succ (rm_reopen_count m)
                   | None => Ok 1%N
                   end;
    let meta := {|
      rm_reason := rrop_reason params;
      rm_reopened_at := now;
      rm_reopened_from_outcome_kind := kind;
      rm_reopen_count := reopen_count
    |} in
    let state := set_rs_status "active" state in
    let state := set_rs_finalized_outcome None state in
    let state := set_rs_reopen_metadata (Some meta) state in
    let state := set_rs_updated_at now state in
    Ok ({| rror_run_id := rrop_run_id params;
           rror_status := rs_status state;
           rror_reopened_from_outcome_kind := kind;
           rror_reopen_count := reopen_count;
           rror_reopened_at := now;
           rror_recommended_next_action := reopen_guidance kind;
           rror_recommended_tool := "refresh_run_state" |}, state).

(** ** run.supersede *)

Definition make_successor_run_id (timestamp_millis : i64) (original_run_id : string) : string :=
  original_run_id +:+ "-successor-" +:+ pretty timestamp_millis.

(** Returns the result, the updated original and the successor. *)
Definition supersede (now : string) (params : RunSupersedeParams) (original : RunState)
    (new_run_id : string) : res (RunSupersedeResult * RunState * RunState) :=
  if negb (is_finalized_status (rs_status original)) then
    Err ("run '" +:+ rsup_run_id params +:+ "' cannot be superseded: status is '" +:+
         rs_status original +:+ "' (only finalized runs may be superseded). Use finalize_run to close the run first, or reopen_run to continue work on it.")
  else
    let successor_goal :=
      match rsup_new_user_goal params with
      | Some g => if str_is_empty g then rs_user_goal original else g
      | None => rs_user_goal original
      end in
    let original := set_rs_superseded_by_run_id (Some new_run_id) original in
    let original := set_rs_supersession_reason (Some (rsup_reason params)) original in
    let original := set_rs_superseded_at (Some now) original in
    let original := set_rs_updated_at now original in
    let successor := {|
      rs_run_id := new_run_id;
      rs_workspace_id := rs_workspace_id original;
      rs_user_goal := successor_goal;
      rs_status := "prepared";
      rs_plan := [];
      rs_current_step := 0;
      rs_completed_steps := [];
      rs_pending_steps := [];
      rs_last_action := None;
      rs_last_observation := None;
      rs_recommended_next_action := Some "Successor run prepared. Call refresh_run_state to inspect its initial state, then replan_run to define the new plan.";
      rs_recommended_tool := Some "refresh_run_state";
      rs_latest_diff_summary := None;
      rs_latest_test_result := None;
      rs_focus_paths := rs_focus_paths original;
      rs_warnings := [];
      rs_retryable_action := None;
      rs_policy_profile := rs_policy_profile original;
      rs_finalized_outcome := None;
      rs_reopen_metadata := None;
      rs_supersedes_run_id := Some (rsup_run_id params);
      rs_superseded_by_run_id := None;
      rs_supersession_reason := Some (rsup_reason params);
      rs_superseded_at := Some now;
      rs_archive_metadata := None;
      rs_unarchive_metadata := None;
      rs_annotation := None;
      rs_pin_metadata := None;
      rs_snooze_metadata := None;
      rs_priority := rs_priority original;
      rs_assignee := None;
      rs_ownership_note := None;
      rs_due_date := None;
      rs_blocked_by_run_ids := [];
      rs_effort := None;
      rs_created_at := now;
      rs_updated_at := now
    |} in
    let result := {|
      rsur_original_run_id := rsup_run_id params;
      rsur_successor_run_id := new_run_id;
      rsur_superseded_at := now;
      rsur_successor_status := rs_status successor;
      rsur_recommended_next_action := "Supersession complete. Call refresh_run_state on the successor run to inspect its initial state, then replan_run to define the new plan.";
      rsur_recommended_tool := "refresh_run_state"
    |} in
    Ok (result, original, successor).

(** ** run.archive and run.unarchive *)

Definition archive (now : string) (params : RunArchiveParams) (state : RunState)
    : res (RunArchiveResult * RunState) :=
  if negb (is_finalized_status (rs_status state)) then
    Err ("run '" +:+ rarp_run_id params +:+ "' cannot be archived: status is '" +:+
         rs_status state +:+ "' (only finalized runs may be archived). Use finalize_run to close the run first, or wait for the run to complete.")
  else if bool_decide (is_Some (rs_archive_metadata state)) then
    Err ("run '" +:+ rarp_run_id params +:+ "' is already archived. Use unarchive_run to restore it to the active list.")
  else
    let meta := {| am_reason := rarp_reason params; am_archived_at := now |} in
    let state := set_rs_archive_metadata (Some meta) state in
    let state := set_rs_updated_at now state in
    Ok ({| rarr_run_id := rarp_run_id params;
           rarr_status := rs_status state;
           rarr_archived_at := now;
           rarr_reason := rarp_reason params;
           rarr_message := "Run '" +:+ rarp_run_id params +:+ "' archived. It remains preserved and inspectable but will be excluded from the default active list." |}, state).

Definition unarchive (now : string) (params : RunUnarchiveParams) (state : RunState)
    : res (RunUnarchiveResult * RunState) :=
  if bool_decide (rs_archive_metadata state = None) then
    Err ("run '" +:+ ruap_run_id params +:+ "' cannot be unarchived: it is not archived. Use list_runs with includeArchived=true to see archived runs, or archive_run to archive first.")
  else if bool_decide (is_Some (rs_unarchive_metadata state)) then
    Err ("run '" +:+ ruap_run_id params +:+ "' is already unarchived. Use get_run_state to inspect the run, or list_runs to see it in the default listing.")
  else
    let meta := {| um_reason := ruap_reason params; um_unarchived_at := now |} in
    let state := set_rs_unarchive_metadata (Some meta) state in
    let state := set_rs_updated_at now state in
    Ok ({| ruar_run_id := ruap_run_id params;
           ruar_status := rs_status state;
           ruar_unarchived_at := now;
           ruar_reason := ruap_reason params;
           ruar_message := "Run '" +:+ ruap_run_id params +:+ "' unarchived. It is now visible in the default active run listing." |}, state).

(** ** run.refresh *)

Definition refresh_warnings (state : RunState) (pending_approvals : list PendingApproval)
    : list string :=
  rs_warnings state
  ++ (if negb (bool_decide (pending_approvals = [])) && negb (rs_status state == "awaiting_approval")
      then ["Run has pending approvals but status is not awaiting_approval"] else [])
  ++ (if rs_status state == "failed"
      then ["Run is in a failed state — consider replanning"] else [])
  ++ match rs_retryable_action state with
     | Some ra =>
         if negb (ra_is_valid ra) then
           match ra_invalidation_reason ra with
           | Some reason => ["Retryable action '" +:+ ra_kind ra +:+ "' is stale: " +:+ reason]
           | None => ["Retryable action '" +:+ ra_kind ra +:+ "' is no longer valid"]
           end
         else []
     | None => []
     end.

Definition refresh (params : RunRefreshParams) (state : RunState)
    (pending_approvals : list PendingApproval) (live_diff_summary : option string)
    : res RunRefreshResult :=
  Ok {|
    rrfr_run_id := rs_run_id state;
    rrfr_status := rs_status state;
    rrfr_current_step := rs_current_step state;
    rrfr_completed_steps := rs_completed_steps state;
    rrfr_pending_steps := rs_pending_steps state;
    rrfr_last_action := rs_last_action state;
    rrfr_last_observation := rs_last_observation state;
    rrfr_recommended_next_action := rs_recommended_next_action state;
    rrfr_recommended_tool := rs_recommended_tool state;
    rrfr_pending_approvals := pending_approvals;
    rrfr_latest_diff_summary :=
      match live_diff_summary with Some d => Some d | None => rs_latest_diff_summary state end;
    rrfr_latest_test_result := rs_latest_test_result state;
    rrfr_retryable_action := rs_retryable_action state;
    rrfr_warnings := refresh_warnings state pending_approvals;
    rrfr_effective_policy := rs_policy_profile state;
    rrfr_finalized_outcome := rs_finalized_outcome state;
    rrfr_reopen_metadata := rs_reopen_metadata state
  |}.

(** ** run.replan *)

Definition truncate (s : string) (max_len : nat) : res string :=
  if (String.length s <=? max_len)%nat then Ok s else slice_to s max_len.

Definition recommend_tool `{Unicode} (step : string) : string :=
  let lower := to_lowercase step in
  let has := str_contains lower in
  if has "inspect" || has "workspace" || has "summary" then "get_workspace_summary"
  else if has "read" || has "file" then "read_file"
  else if has "search" || has "find" || has "grep" then "search_code"
  else if has "patch" || has "edit" || has "write" || has "apply" then "apply_patch"
  else if has "test" || has "verify" then "run_tests"
  else if has "diff" || has "review" then "show_diff"
  else if has "git" || has "status" then "git_status"
  else "read_file".

Definition recommend_for_step `{Unicode} (step : string) : res (string * string) :=
  t ← truncate step 100;
  Ok ("Execute step: " +:+ t, recommend_tool step).

(** The loop-free body of [replan], one stage per block of the source; each
    stage returns the state and the [delta_parts] so far. *)
Definition replan_evidence (params : RunReplanParams) (state : RunState)
    : RunState * list string :=
  let ev := rrpp_new_evidence params in
  if bool_decide (ev = []) then (state, [])
  else (set_rs_last_observation (Some ("Replan evidence: " +:+ join "; " ev)) state,
        ["absorbed " +:+ pretty (len ev) +:+ " new evidence item(s)"]).

Definition replan_failure (failure : string) (state : RunState) (delta : list string)
    : res (RunState * list string) :=
  let '(state, delta) :=
    if (rs_status state == "blocked") || (rs_status state == "awaiting_approval") then
      (set_rs_status "active" state, delta ++ ["status " +:+ rs_status state +:+ " → active"])
    else (state, delta) in
  t ← truncate failure 120;
  let recovery_step := "recover from failure: " +:+ t in
  let '(state, delta) :=
    if contains_elem (rs_pending_steps state) recovery_step then (state, delta)
    else (set_rs_pending_steps (recovery_step :: rs_pending_steps state) state,
          delta ++ ["inserted recovery step"]) in
  match rs_retryable_action state with
  | Some ra =>
      if ra_is_valid ra then
        t ← truncate failure 80;
        let ra := set_ra_is_valid false ra in
        let ra := set_ra_is_recommended false ra in
        let ra := set_ra_invalidation_reason
                    (Some ("Invalidated by replan failure context: " +:+ t)) ra in
        Ok (set_rs_retryable_action (Some ra) state,
            delta ++ ["invalidated retryable action '" +:+ ra_kind ra +:+ "'"])
      else Ok (state, delta)
  | None => Ok (state, delta)
  end.

Definition replan_no_failure (state : RunState) (delta : list string) : RunState * list string :=
  if rs_status state == "blocked" then
    let '(state, delta) :=
      match rs_retryable_action state with
      | Some ra =>
          if ra_is_valid ra then
            (set_rs_retryable_action (Some (set_ra_is_recommended false ra)) state,
             delta ++ ["retryable action '" +:+ ra_kind ra +:+
                       "' preserved but not recommended (blocked state replan)"])
          else (state, delta)
      | None => (state, delta)
      end in
    (set_rs_status "active" state, delta ++ ["status blocked → active"])
  else (state, delta).

Definition replan_next `{Unicode} (state : RunState) (delta : list string)
    : res (RunState * list string * string * string) :=
  match rs_pending_steps state with
  | [] => Ok (set_rs_status "done" state, delta ++ ["all steps complete"],
              "All steps complete — review diff and finalize.", "show_diff")
  | next :: _ =>
      '(action, tool) ← recommend_for_step next;
      Ok (state, delta, action, tool)
  end.

Definition replan `{Unicode} (now : string) (params : RunReplanParams) (state : RunState)
    : res (RunReplanResult * RunState) :=
  let '(state, delta) := replan_evidence params state in
  '(state, delta) ← match rrpp_failure_context params with
                    | Some failure => replan_failure failure state delta
                    | None => Ok (replan_no_failure state delta)
                    end;
  '(state, delta, action, tool) ← replan_next state delta;
  let '(state, delta) :=
    if rs_status state == "prepared" then
      (set_rs_status "active" state, delta ++ ["status prepared → active"])
    else (state, delta) in
  let state := set_rs_recommended_next_action (Some action) state in
  let state := set_rs_recommended_tool (Some tool) state in
  let state := set_rs_updated_at now state in
  t ← truncate (rrpp_reason params) 80;
  let summary :=
    "Replanned (reason: " +:+ t +:+ "): " +:+ pretty (len (rs_pending_steps state)) +:+
    " pending step(s). Next: " +:+ action in
  Ok ({| rrpr_run_id := rs_run_id state;
         rrpr_status := rs_status state;
         rrpr_current_step := rs_current_step state;
         rrpr_pending_steps := rs_pending_steps state;
         rrpr_recommended_next_action := action;
         rrpr_recommended_tool := tool;
         rrpr_replan_summary := summary;
         rrpr_retryable_action := rs_retryable_action state;
         rrpr_replan_delta :=
           if bool_decide (delta = []) then None else Some (join "; " delta) |}, state).

(** ** Shared facts *)

(** Discharge the guard of a lifecycle operation. *)
Ltac on_guard :=
  match goal with
  | |- context [if negb ?b then _ else _] => destruct b eqn:?; cbn [negb]
  | |- context [if bool_decide ?P then _ else _] => case_bool_decide
  end.

Lemma valid_kind_finalized k : is_finalized_status ("finalized:" +:+ k) = true.
Proof. apply starts_with_app. Qed.

Lemma finalize_Ok now p s r s' :
  finalize now p s = Ok (r, s') ↔
  rfp_outcome_kind p ∈ VALID_OUTCOME_KINDS ∧ rs_finalized_outcome s = None ∧
  s' = set_rs_updated_at now
         (set_rs_status ("finalized:" +:+ rfp_outcome_kind p)
           (set_rs_finalized_outcome
             (Some (mkRunOutcome (rfp_outcome_kind p) (rfp_summary p) (rfp_reason p) now)) s)) ∧
  r = mkRunFinalizeResult (rfp_run_id p) (rfp_outcome_kind p) now
        ("finalized:" +:+ rfp_outcome_kind p) (finalize_guidance (rfp_outcome_kind p)).
Proof.
  unfold finalize, contains_elem. split.
  - case_bool_decide; cbn [negb]; [|done]. case_bool_decide as Hf; [done|].
    intros [= <- <-]. rewrite <- eq_None_not_Some in Hf. done.
  - intros (Hk & Hn & -> & ->). rewrite bool_decide_true by done. cbn [negb].
    rewrite Hn, bool_decide_false by (intros [??]; done). done.
Qed.

Lemma finalize_refused now p s :
  is_Some (rs_finalized_outcome s) → ∃ e, finalize now p s = Err e.
Proof.
  intros Hs. unfold finalize. on_guard; [|eauto]. rewrite bool_decide_true by done. eauto.
Qed.

Lemma reopen_refused `{BuildProfile} now p s :
  is_finalized_status (rs_status s) = false → ∃ e, reopen now p s = Err e.
Proof. intros Hs. unfold reopen. rewrite Hs. cbn. eauto. Qed.

Lemma archive_refused now p s :
  is_finalized_status (rs_status s) = false ∨ is_Some (rs_archive_metadata s) →
  ∃ e, archive now p s = Err e.
Proof.
  unfold archive. intros [Hs|Hs]; [rewrite Hs; cbn; eauto|].
  on_guard; [|eauto]. rewrite bool_decide_true by done. eauto.
Qed.

Lemma supersede_refused now p s i :
  is_finalized_status (rs_status s) = false → ∃ e, supersede now p s i = Err e.
Proof. intros Hs. unfold supersede. rewrite Hs. cbn. eauto. Qed.

Lemma u32_succ_small `{BuildProfile} n : (n < u32_max)%N → u32_succ n = Ok (n + 1)%N.
Proof. intros Hn. unfold u32_succ. by rewrite (proj2 (N.ltb_lt _ _) Hn). Qed.

Lemma set_finalized_outcome_id s :
  rs_finalized_outcome s = None → set_rs_finalized_outcome None s = s.
Proof. destruct s; cbn. by intros ->. Qed.

(** Number of reopens recorded so far. *)
Definition reopens (s : RunState) : N :=
  match rs_reopen_metadata s with Some m => rm_reopen_count m | None => 0 end.

Lemma reopen_Ok `{BuildProfile} now p s :
  is_finalized_status (rs_status s) = true → (reopens s < u32_max)%N →
  ∃ r, reopen now p s =
    Ok (r, set_rs_updated_at now
             (set_rs_reopen_metadata
               (Some (mkReopenMetadata (rrop_reason p) now
                        (default "unknown" (strip_prefix "finalized:" (rs_status s)))
                        (reopens s + 1)))
               (set_rs_finalized_outcome None (set_rs_status "active" s)))) ∧
    rror_reopen_count r = (reopens s + 1)%N ∧
    rror_reopened_from_outcome_kind r =
      default "unknown" (strip_prefix "finalized:" (rs_status s)).
Proof.
  intros Hs Hn. unfold reopen, reopens in *. rewrite Hs. cbn [negb].
  destruct (rs_reopen_metadata s) as [m|]; cbn [mbind res_bind].
  - rewrite u32_succ_small by done. cbn. eauto.
  - cbn. eauto.
Qed.

(** ** The lifecycle as a transition system *)

(** One lifecycle operation accepted on a run. *)
Inductive lifecycle_step `{BuildProfile} : RunState → RunState → Prop :=
| step_finalize now p s r s' : finalize now p s = Ok (r, s') → lifecycle_step s s'
| step_reopen now p s r s' : reopen now p s = Ok (r, s') → lifecycle_step s s'
| step_supersede now p s i r s' t : supersede now p s i = Ok (r, s', t) → lifecycle_step s s'
| step_archive now p s r s' : archive now p s = Ok (r, s') → lifecycle_step s s'
| step_unarchive now p s r s' : unarchive now p s = Ok (r, s') → lifecycle_step s s'.

(** The outcome record is present exactly when the status says so, and a run
    is unarchived only after it was archived. *)
Definition lifecycle_ok (s : RunState) : Prop :=
  (is_finalized_status (rs_status s) = true ↔ is_Some (rs_finalized_outcome s)) ∧
  (is_Some (rs_unarchive_metadata s) → is_Some (rs_archive_metadata s)).

(** What a lifecycle step can do to the fields the invariants speak of. *)
Lemma lifecycle_step_effect `{BuildProfile} s s' :
  lifecycle_step s s' → lifecycle_ok s →
  lifecycle_ok s' ∧
  (is_Some (rs_archive_metadata s) → rs_archive_metadata s' = rs_archive_metadata s) ∧
  rs_run_id s' = rs_run_id s ∧ rs_created_at s' = rs_created_at s ∧ rs_plan s' = rs_plan s.
Proof.
  intros [now p s0 r s1 Hf|now p s0 r s1 Hf|now p s0 i r s1 t Hf|now p s0 r s1 Hf|now p s0 r s1 Hf] [H1 H2].
  - apply finalize_Ok in Hf as (Hk & Hn & -> & ->). repeat split; cbn; eauto.
    intros _. apply valid_kind_finalized.
  - unfold reopen in Hf. revert Hf. on_guard; [|done]. intros Hf. res_inv. cbn.
    repeat split; cbn; try done.
  - unfold supersede in Hf. revert Hf. on_guard; [|done]. intros [= <- <- <-].
    repeat split; cbn; try tauto.
  - unfold archive in Hf. revert Hf. on_guard; [|done]. on_guard; [done|]. intros [= <- <-].
    repeat split; cbn; try tauto.
  - unfold unarchive in Hf. revert Hf. on_guard; [done|]. on_guard; [done|]. intros [= <- <-].
    repeat split; cbn; try tauto. intros _. by apply not_eq_None_Some.
Qed.

Lemma lifecycle_steps_effect `{BuildProfile} s s' :
  rtc lifecycle_step s s' → lifecycle_ok s →
  lifecycle_ok s' ∧
  (is_Some (rs_archive_metadata s) → rs_archive_metadata s' = rs_archive_metadata s) ∧
  rs_run_id s' = rs_run_id s ∧ rs_created_at s' = rs_created_at s ∧ rs_plan s' = rs_plan s.
Proof.
  induction 1 as [s|s t u Hst Htu IH]; intros Hs; [done|].
  destruct (lifecycle_step_effect s t Hst Hs) as (Ht & Ha & ? & ? & ?).
  destruct (IH Ht) as (Hu & Ha' & ? & ? & ?). repeat split; try congruence; try apply Hu.
  intros Hs'. rewrite Ha'; [auto|]. by rewrite Ha.
Qed.

(** ** Properties *)

(** Reopening undoes finalizing: after a run is finalized, reopening it
    restores the run as it was before, except that it is active, carries the
    new reopen record (with the outcome kind that was cleared and the count
    raised by one) and the new time of update. *)
Theorem finalize_reopen_roundtrip `{BuildProfile} now1 now2 p q s r1 s1 :
  finalize now1 p s = Ok (r1, s1) → (reopens s < u32_max)%N →
  ∃ r2,
    reopen now2 q s1 =
      Ok (r2, set_rs_updated_at now2
                (set_rs_reopen_metadata
                  (Some (mkReopenMetadata (rrop_reason q) now2 (rfp_outcome_kind p)
                           (reopens s + 1)))
                  (set_rs_status "active" s))) ∧
    rror_reopened_from_outcome_kind r2 = rfp_outcome_kind p.
Proof.
  intros Hf Hn. apply finalize_Ok in Hf as (_ & Ho & -> & ->).
  match goal with |- context [reopen now2 q ?st] =>
    destruct (reopen_Ok now2 q st) as (r2 & Hr & _ & Hk) end.
  - apply valid_kind_finalized.
  - exact Hn.
  - exists r2. rewrite Hr, Hk. cbn. rewrite strip_prefix_app. split; [|done].
    do 2 f_equal. rewrite <- Ho. by destruct s.
Qed.

(** Every run a sequence of lifecycle operations can reach from a
    well-formed one is well-formed (its outcome record is there exactly when
    its status is [finalized:]; it was archived before it was unarchived),
    and keeps its id, its creation time and its plan. *)
Theorem lifecycle_invariant `{BuildProfile} s s' :
  rtc lifecycle_step s s' → lifecycle_ok s →
  lifecycle_ok s' ∧ rs_run_id s' = rs_run_id s ∧
  rs_created_at s' = rs_created_at s ∧ rs_plan s' = rs_plan s.
Proof.
  intros Hst Hs. destruct (lifecycle_steps_effect s s' Hst Hs) as (? & _ & ? & ? & ?).
  done.
Qed.

(** A run is archived at most once: after it was archived, whatever
    lifecycle operations follow (unarchiving included), archiving it is
    refused. *)
Theorem archive_once `{BuildProfile} now0 p0 s0 r s s' :
  archive now0 p0 s0 = Ok (r, s) → lifecycle_ok s0 → rtc lifecycle_step s s' →
  ∀ now p, ∃ e, archive now p s' = Err e.
Proof.
  intros Ha H0 Hst now p. apply archive_refused. right.
  assert (is_Some (rs_archive_metadata s)) as Hs.
  { unfold archive in Ha. revert Ha. on_guard; [|done]. on_guard; [done|].
    intros [= <- <-]. cbn. eauto. }
  destruct (lifecycle_step_effect s0 s) as [Hok _]; [econstructor; exact Ha|done|].
  destruct (lifecycle_steps_effect s s' Hst Hok) as (_ & Heq & _). by rewrite Heq.
Qed.

(** Superseding a finalized run links the two runs both ways, leaves the
    original finalized with its outcome, plan and history fields, and starts
    the successor prepared with an empty plan, the original's workspace,
    focus paths, policy and priority, and the original's goal unless a
    non-empty one was given. *)
Theorem supersede_lineage now p s i :
  is_finalized_status (rs_status s) = true →
  ∃ r s' t,
    supersede now p s i = Ok (r, s', t) ∧
    rs_superseded_by_run_id s' = Some (rs_run_id t) ∧
    rs_supersedes_run_id t = Some (rsup_run_id p) ∧
    s' = set_rs_updated_at now (set_rs_superseded_at (Some now)
           (set_rs_supersession_reason (Some (rsup_reason p))
             (set_rs_superseded_by_run_id (Some i) s))) ∧
    (rs_run_id t, rs_status t, rs_plan t) = (i, "prepared", []) ∧
    (rs_workspace_id t, rs_focus_paths t, rs_policy_profile t, rs_priority t) =
      (rs_workspace_id s, rs_focus_paths s, rs_policy_profile s, rs_priority s) ∧
    rs_user_goal t =
      match rsup_new_user_goal p with Some g => if g == "" then rs_user_goal s else g
                                    | None => rs_user_goal s end ∧
    lifecycle_ok t.
Proof.
  intros Hs. unfold supersede. rewrite Hs. cbn [negb]. do 3 eexists.
  split; [reflexivity|]. cbn. repeat split; try done; by intros [??].
Qed.

(** Replanning a finalized run whose steps are all done strands it: the
    call succeeds and leaves status [done] beside the outcome record, after
    which finalizing, reopening, archiving and superseding are all refused. *)
Theorem replan_strands_finalized_run `{Unicode} `{BuildProfile} now p s :
  is_Some (rs_finalized_outcome s) → is_finalized_status (rs_status s) = true →
  rs_pending_steps s = [] → rrpp_failure_context p = None →
  (String.length (rrpp_reason p) <= 80)%nat →
  ∃ r s', replan now p s = Ok (r, s') ∧ rs_status s' = "done" ∧
    (∀ n q, ∃ e, finalize n q s' = Err e) ∧ (∀ n q, ∃ e, reopen n q s' = Err e) ∧
    (∀ n q, ∃ e, archive n q s' = Err e) ∧ (∀ n q i, ∃ e, supersede n q s' i = Err e).
Proof.
  intros Ho Hs Hp Hf Hr. unfold replan.
  assert (∀ d, replan_no_failure (fst (replan_evidence p s)) d
          = (fst (replan_evidence p s), d)) as Hnf.
  { intros d. unfold replan_no_failure. replace (rs_status (fst (replan_evidence p s)))
      with (rs_status s) by (unfold replan_evidence; by case_bool_decide).
    destruct (String.eqb_spec (rs_status s) "blocked") as [E|]; [|done].
    by rewrite E in Hs. }
  assert (rs_pending_steps (fst (replan_evidence p s)) = []) as Hp'.
  { unfold replan_evidence. by case_bool_decide. }
  assert (rs_finalized_outcome (fst (replan_evidence p s)) = rs_finalized_outcome s) as Ho'.
  { unfold replan_evidence. by case_bool_decide. }
  destruct (replan_evidence p s) as [s1 d1]. cbn [fst] in *. rewrite Hf, Hnf.
  cbn [mbind res_bind]. unfold replan_next. rewrite Hp'. cbn [mbind res_bind].
  unfold truncate. rewrite (proj2 (Nat.leb_le _ _) Hr). cbn.
  do 2 eexists. split; [reflexivity|]. split; [done|].
  repeat split; intros.
  - apply finalize_refused. cbn. by rewrite Ho'.
  - by apply reopen_refused.
  - apply archive_refused. by left.
  - by apply supersede_refused.
Qed.

(** What replanning with a failure context does to the pending steps: the
    recovery step is there afterwards, and nothing else changes. *)
Lemma replan_failure_steps f s d s' d' :
  replan_failure f s d = Ok (s', d') →
  ∃ t, truncate f 120 = Ok t ∧
    rs_pending_steps s' =
      let step := "recover from failure: " +:+ t in
      if contains_elem (rs_pending_steps s) step then rs_pending_steps s
      else step :: rs_pending_steps s.
Proof.
  unfold replan_failure. intros Hf.
  set (x := if _ || _ then _ else _) in Hf.
  assert (rs_pending_steps (fst x) = rs_pending_steps s) as Hx.
  { subst x. by destruct (_ || _). }
  destruct x as [s1 d1]. cbn [fst] in Hx.
  apply res_bind_Ok in Hf as (t & Ht & Hf). exists t. split; [done|].
  rewrite Hx in Hf. revert Hf.
  destruct (contains_elem _ _); cbn;
    (destruct (rs_retryable_action s1) as [ra|]; [destruct (ra_is_valid ra)|]);
    intros Hf; res_inv; simplify_eq; cbn; congruence.
Qed.

Lemma replan_pending_steps `{Unicode} now p f s r s' :
  rrpp_failure_context p = Some f → replan now p s = Ok (r, s') →
  ∃ t, truncate f 120 = Ok t ∧
    rs_pending_steps s' =
      let step := "recover from failure: " +:+ t in
      if contains_elem (rs_pending_steps s) step then rs_pending_steps s
      else step :: rs_pending_steps s.
Proof.
  intros Hp Hr. unfold replan in Hr.
  assert (rs_pending_steps (fst (replan_evidence p s)) = rs_pending_steps s) as Hev.
  { unfold replan_evidence. by case_bool_decide. }
  destruct (replan_evidence p s) as [s1 d1]. cbn [fst] in Hev. rewrite Hp in Hr.
  apply res_bind_Ok in Hr as ([s2 d2] & Hf & Hr).
  apply replan_failure_steps in Hf as (t & Ht & Hs2). rewrite Hev in Hs2.
  exists t. split; [done|]. rewrite <- Hs2.
  apply res_bind_Ok in Hr as ([[[s3 d3] a] tl] & Hn & Hr).
  assert (rs_pending_steps s3 = rs_pending_steps s2) as <-.
  { unfold replan_next in Hn. destruct (rs_pending_steps s2) eqn:E.
    - by simplify_eq.
    - res_inv. destruct x as [a' tl']. by simplify_eq. }
  destruct (rs_status s3 == "prepared"); res_inv; by simplify_eq.
Qed.

(** Replanning again with the same failure adds no second recovery step:
    the pending steps are those of the first replan. *)
Theorem replan_recovery_idempotent `{Unicode} now1 now2 p q f s r1 s1 r2 s2 :
  rrpp_failure_context p = Some f → rrpp_failure_context q = Some f →
  replan now1 p s = Ok (r1, s1) → replan now2 q s1 = Ok (r2, s2) →
  rs_pending_steps s2 = rs_pending_steps s1.
Proof.
  intros Hp Hq H1 H2.
  destruct (replan_pending_steps now1 p f s r1 s1) as (t & Ht & E1); [done..|].
  destruct (replan_pending_steps now2 q f s1 r2 s2) as (t' & Ht' & E2); [done..|].
  rewrite Ht in Ht'. injection Ht' as <-. rewrite E2. cbn.
  assert (contains_elem (rs_pending_steps s1) ("recover from failure: " +:+ t) = true) as ->;
    [|done].
  rewrite E1. cbn. unfold contains_elem. apply bool_decide_true.
  case_bool_decide; [done|left].
Qed.

(** Replanning with a failure text that has a character across byte 120
    panics, whatever the run. *)
Theorem replan_panics_inside_character `{Unicode} now p f s :
  rrpp_failure_context p = Some f → (120 < String.length f)%nat →
  is_char_boundary f 120 = false →
  replan now p s = Panic.
Proof.
  intros Hp Hl Hb. unfold replan. destruct (replan_evidence p s) as [s1 d1]. rewrite Hp.
  unfold replan_failure.
  set (x := if _ || _ then _ else _). destruct x as [s2 d2].
  assert (truncate f 120 = Panic) as ->; [|done].
  unfold truncate, slice_to. rewrite Hb. case_match eqn:E; [|done].
  apply Nat.leb_le in E. lia.
Qed.

(** On ASCII text every offset is a boundary, so [truncate] returns. *)
Lemma ascii_boundary s n :
  is_ascii s = true → (n <= String.length s)%nat → is_char_boundary s n = true.
Proof.
  unfold is_char_boundary. revert n. induction s as [|a s IH]; intros n; cbn.
  - intros _ Hn. by destruct n; [|lia].
  - rewrite andb_true_iff. intros [Ha Hs] Hn. destruct n as [|n].
    + unfold is_continuation, in_range. apply N.ltb_lt in Ha. destruct (128 <=? byte a)%N eqn:E; [|done].
      apply N.leb_le in E. lia.
    + apply IH; [done|lia].
Qed.

Lemma str_forall_take f n s : str_forall f s = true → str_forall f (str_take n s) = true.
Proof.
  revert s. induction n as [|n IH]; intros [|a s]; cbn; [done..|].
  rewrite !andb_true_iff. intros [??]; auto.
Qed.

Lemma truncate_ascii s n :
  is_ascii s = true → ∃ t, truncate s n = Ok t ∧ is_ascii t = true.
Proof.
  intros Hs. unfold truncate. case_match eqn:E; [eauto|]. apply Nat.leb_gt in E.
  unfold slice_to. rewrite ascii_boundary by (done || lia).
  eexists. split; [done|]. by apply str_forall_take.
Qed.

Lemma replan_failure_ascii f s d :
  is_ascii f = true → Forall (λ x, is_ascii x = true) (rs_pending_steps s) →
  ∃ s' d', replan_failure f s d = Ok (s', d') ∧
    Forall (λ x, is_ascii x = true) (rs_pending_steps s').
Proof.
  intros Hf Hs. unfold replan_failure.
  set (x := if _ || _ then _ else _).
  assert (rs_pending_steps (fst x) = rs_pending_steps s) as Hx.
  { subst x. by destruct (_ || _). }
  destruct x as [s1 d1]. cbn [fst] in Hx.
  destruct (truncate_ascii f 120 Hf) as (t & -> & Ht).
  destruct (truncate_ascii f 80 Hf) as (t' & -> & _). cbn [mbind res_bind]. rewrite Hx.
  destruct (contains_elem _ _); cbn;
    (destruct (rs_retryable_action s1) as [ra|]; [destruct (ra_is_valid ra)|]);
    do 2 eexists; (split; [reflexivity|]); cbn; rewrite ?Hx; auto.
Qed.

(** Without such a character there is no panic: when the failure text,
    the reason and every pending step are ASCII, replanning always returns. *)
Theorem replan_ascii_returns `{Unicode} now p s :
  is_ascii (rrpp_reason p) = true →
  (∀ f, rrpp_failure_context p = Some f → is_ascii f = true) →
  Forall (λ x, is_ascii x = true) (rs_pending_steps s) →
  ∃ r s', replan now p s = Ok (r, s').
Proof.
  intros Hr Hf Hs. unfold replan.
  assert (rs_pending_steps (fst (replan_evidence p s)) = rs_pending_steps s) as Hev.
  { unfold replan_evidence. by case_bool_decide. }
  destruct (replan_evidence p s) as [s1 d1]. cbn [fst] in Hev. rewrite <- Hev in Hs.
  set (m := match rrpp_failure_context p with Some _ => _ | None => _ end).
  assert (∃ s2 d2, m = Ok (s2, d2) ∧
            Forall (λ x, is_ascii x = true) (rs_pending_steps s2)) as (s2 & d2 & -> & Hs2).
  { subst m. destruct (rrpp_failure_context p) as [f|]; [by apply replan_failure_ascii; auto|].
    unfold replan_no_failure. destruct (rs_status s1 == "blocked"); [|eauto].
    destruct (rs_retryable_action s1) as [ra|]; [destruct (ra_is_valid ra)|]; eauto. }
  cbn [mbind res_bind]. unfold replan_next.
  destruct (truncate_ascii (rrpp_reason p) 80 Hr) as (t & -> & _).
  destruct (rs_pending_steps s2) as [|x l]; cbn [mbind res_bind].
  - case_match; cbn; eauto.
  - apply Forall_cons in Hs2 as [Hx _]. unfold recommend_for_step.
    destruct (truncate_ascii x 100 Hx) as (u & -> & _). cbn. case_match; cbn; eauto.
Qed.

(** ** Concrete runs *)

Definition demo_unicode : Unicode := {| uni_lower s := s; uni_debug s := s |}.
Definition demo_profile : BuildProfile := true.

Definition demo_prepare_params : RunPrepareParams :=
  mkRunPrepareParams "/ws" "fix the bug" ["src/"] None None.

Definition demo_run : RunState := Eval vm_compute in
  match prepare (H:=demo_unicode) "r1" "2024-01-01T00:00:00+00:00" demo_prepare_params
    as x return match x with Ok _ => RunState | _ => () end
  with Ok x => snd x | _ => () end.

Definition demo_finalize_params : RunFinalizeParams :=
  mkRunFinalizeParams "r1" "completed" "all green" None.

Definition demo_finalized : RunState := Eval vm_compute in
  match finalize "2024-01-02T00:00:00+00:00" demo_finalize_params demo_run
    as x return match x with Ok _ => RunState | _ => () end
  with Ok x => snd x | _ => () end.

Definition demo_archived : RunState := Eval vm_compute in
  match archive "2024-01-03T00:00:00+00:00" (mkRunArchiveParams "r1" "old") demo_finalized
    as x return match x with Ok _ => RunState | _ => () end
  with Ok x => snd x | _ => () end.

Lemma finalize_reopen_roundtrip_witness :
  ∃ r2, reopen (H:=demo_profile) "t2" (mkRunReopenParams "r1" "more work") demo_finalized =
    Ok (r2, set_rs_updated_at "t2"
              (set_rs_reopen_metadata (Some (mkReopenMetadata "more work" "t2" "completed" 1))
                (set_rs_status "active" demo_run))) ∧
    rror_reopened_from_outcome_kind r2 = "completed".
Proof.
  apply (finalize_reopen_roundtrip (H:=demo_profile) "2024-01-02T00:00:00+00:00" "t2"
    demo_finalize_params (mkRunReopenParams "r1" "more work") demo_run
    (mkRunFinalizeResult "r1" "completed" "2024-01-02T00:00:00+00:00" "finalized:completed"
      "Run is complete. Review results or prepare a new run.")); vm_compute; reflexivity.
Defined.

Lemma demo_run_ok : lifecycle_ok demo_run.
Proof. split; [split|]; cbn; intros H; [discriminate H|by destruct H|by destruct H]. Qed.

Lemma demo_finalized_ok : lifecycle_ok demo_finalized.
Proof. split; [split|]; cbn; intros H; [by eexists|done|by destruct H]. Qed.

Lemma demo_step_finalize : lifecycle_step (H:=demo_profile) demo_run demo_finalized.
Proof.
  eapply (step_finalize "2024-01-02T00:00:00+00:00" demo_finalize_params).
  vm_compute. reflexivity.
Qed.

Lemma demo_step_archive : lifecycle_step (H:=demo_profile) demo_finalized demo_archived.
Proof.
  eapply (step_archive "2024-01-03T00:00:00+00:00" (mkRunArchiveParams "r1" "old")).
  vm_compute. reflexivity.
Qed.

Lemma lifecycle_invariant_witness :
  lifecycle_ok demo_archived ∧ rs_run_id demo_archived = "r1" ∧
  rs_created_at demo_archived = "2024-01-01T00:00:00+00:00" ∧
  rs_plan demo_archived = prepare_plan.
Proof.
  apply (lifecycle_invariant (H:=demo_profile) demo_run demo_archived); [|exact demo_run_ok].
  eapply rtc_l; [exact demo_step_finalize|]. eapply rtc_l; [exact demo_step_archive|].
  apply rtc_refl.
Defined.

Definition demo_unarchived : RunState := Eval vm_compute in
  match unarchive "2024-01-04T00:00:00+00:00" (mkRunUnarchiveParams "r1" "back") demo_archived
    as x return match x with Ok _ => RunState | _ => () end
  with Ok x => snd x | _ => () end.

Lemma archive_once_witness :
  ∃ e, archive "2024-01-05T00:00:00+00:00" (mkRunArchiveParams "r1" "again") demo_unarchived = Err e.
Proof.
  eapply (archive_once (H:=demo_profile) "2024-01-03T00:00:00+00:00"
    (mkRunArchiveParams "r1" "old") demo_finalized _ demo_archived demo_unarchived).
  - vm_compute. reflexivity.
  - exact demo_finalized_ok.
  - eapply rtc_l; [|apply rtc_refl].
    eapply (step_unarchive "2024-01-04T00:00:00+00:00" (mkRunUnarchiveParams "r1" "back")).
    vm_compute. reflexivity.
Defined.

Lemma supersede_lineage_witness :
  ∃ r s' t,
    supersede "t3" (mkRunSupersedeParams "r1" None "retry") demo_finalized "r2" = Ok (r, s', t) ∧
    rs_superseded_by_run_id s' = Some (rs_run_id t) ∧ rs_user_goal t = "fix the bug".
Proof.
  destruct (supersede_lineage "t3" (mkRunSupersedeParams "r1" None "retry") demo_finalized "r2")
    as (r & s' & t & H1 & H2 & _ & _ & _ & _ & H3 & _).
  - vm_compute. reflexivity.
  - exists r, s', t. auto.
Defined.

Lemma replan_strands_finalized_run_witness :
  ∃ r s', replan (H:=demo_unicode) "t4" (mkRunReplanParams "r1" "look again" [] None)
            (set_rs_pending_steps [] demo_finalized) = Ok (r, s') ∧ rs_status s' = "done" ∧
    (∃ e, finalize "t5" demo_finalize_params s' = Err e) ∧
    (∃ e, reopen (H:=demo_profile) "t5" (mkRunReopenParams "r1" "x") s' = Err e).
Proof.
  destruct (replan_strands_finalized_run (H:=demo_unicode) (H0:=demo_profile) "t4"
    (mkRunReplanParams "r1" "look again" [] None) (set_rs_pending_steps [] demo_finalized))
    as (r & s' & H1 & H2 & H3 & H4 & _).
  - by eexists.
  - vm_compute. reflexivity.
  - reflexivity.
  - reflexivity.
  - cbn. lia.
  - exists r, s'. auto.
Defined.

Definition demo_replan_params : RunReplanParams :=
  mkRunReplanParams "r1" "tests failed" [] (Some "assertion failed").

Definition demo_replanned : RunState := Eval vm_compute in
  match replan (H:=demo_unicode) "t1" demo_replan_params demo_run
    as x return match x with Ok _ => RunState | _ => () end
  with Ok x => snd x | _ => () end.

Definition demo_replanned_twice : RunState := Eval vm_compute in
  match replan (H:=demo_unicode) "t2" demo_replan_params demo_replanned
    as x return match x with Ok _ => RunState | _ => () end
  with Ok x => snd x | _ => () end.

Lemma replan_recovery_idempotent_witness :
  rs_pending_steps demo_replanned_twice = rs_pending_steps demo_replanned.
Proof.
  eapply (replan_recovery_idempotent (H:=demo_unicode) "t1" "t2" demo_replan_params
    demo_replan_params "assertion failed" demo_run); [reflexivity..| |];
    vm_compute; reflexivity.
Defined.

(** 119 ASCII bytes, then two-byte characters. *)
Definition demo_wide_failure : string := Eval vm_compute in
  String.concat "" (repeat "a" 119) +:+ "ééé".

Lemma replan_panics_inside_character_witness :
  replan (H:=demo_unicode) "t1" (mkRunReplanParams "r1" "why" [] (Some demo_wide_failure)) demo_run
  = Panic.
Proof.
  apply (replan_panics_inside_character (H:=demo_unicode) _ _ demo_wide_failure).
  - reflexivity.
  - vm_compute. lia.
  - vm_compute. reflexivity.
Defined.

Lemma replan_ascii_returns_witness :
  ∃ r s', replan (H:=demo_unicode) "t1" demo_replan_params demo_run = Ok (r, s').
Proof.
  apply replan_ascii_returns.
  - vm_compute. reflexivity.
  - intros f [= <-]. vm_compute. reflexivity.
  - repeat constructor.
Defined.
