(* ===== verification/Organize.v ===== *)
(** * Organizational metadata (deterministic-core: run_annotate, run_pin,
    run_unpin, run_snooze, run_unsnooze, run_set_priority, run_assign_owner,
    run_set_due_date, run_set_dependencies, run_set_effort)

    Operations that change one field of a run (and sometimes its time of
    update) after validating and normalizing their input.  As in [Lifecycle]
    a failing call returns no state. *)

From S2P Require Import Prelude RustStr Types Lifecycle.

(** ** run.annotate *)

Definition label_char (a : ascii) : bool :=
  is_ascii_lower a || is_ascii_digit a || (byte a =? 45)%N || (byte a =? 95)%N.

Definition normalize_label `{Unicode} (raw : string) : res string :=
  let trimmed := to_lowercase (trim raw) in
  if str_is_empty trimmed then Err "label must not be empty after trimming"
  else if (LABEL_MAX_LEN <? str_len trimmed)%N then
    Err ("label '" +:+ trimmed +:+ "' exceeds maximum length of " +:+
         pretty LABEL_MAX_LEN +:+ " characters")
  else match find_bad_char label_char trimmed with
       | Some ch =>
           Err ("label '" +:+ trimmed +:+ "' contains invalid character '" +:+ ch +:+
                "'; only lowercase ASCII letters, digits, hyphens, and underscores are allowed")
       | None => Ok trimmed
       end.

(** The loop of [normalize_labels], over the labels normalized so far. *)
Fixpoint collect_labels `{Unicode} (normalized raw_labels : list string) : res (list string) :=
  match raw_labels with
  | [] => Ok normalized
  | raw :: rest =>
      label ← normalize_label raw;
      collect_labels
        (if contains_elem normalized label then normalized else normalized ++ [label]) rest
  end.

Definition normalize_labels `{Unicode} (raw_labels : list string) : res (list string) :=
  if (LABEL_MAX_COUNT <? len raw_labels)%N then
    Err ("too many labels: " +:+ pretty (len raw_labels) +:+ " provided, maximum is " +:+
         pretty LABEL_MAX_COUNT)
  else
    normalized ← collect_labels [] raw_labels;
    Ok (sort_strings normalized).

Definition annotate `{Unicode} (now : string) (params : RunAnnotateParams) (state : RunState)
    : res (RunAnnotateResult * RunState) :=
  if bool_decide (ranp_labels params = None) && bool_decide (ranp_operator_note params = None) then
    Err "run.annotate requires at least one of 'labels' or 'operatorNote'"
  else
    let annotation := default RunAnnotation_default (rs_annotation state) in
    annotation ← match ranp_labels params with
                 | Some raw => labels ← normalize_labels raw; Ok (set_an_labels labels annotation)
                 | None => Ok annotation
                 end;
    annotation ← match ranp_operator_note params with
                 | Some note =>
                     if (OPERATOR_NOTE_MAX_LEN <? str_len note)%N then
                       Err ("operator note exceeds maximum length of " +:+
                            pretty OPERATOR_NOTE_MAX_LEN +:+ " characters")
                     else Ok (set_an_operator_note
                                (if str_is_empty note then None else Some note) annotation)
                 | None => Ok annotation
                 end;
    let state := set_rs_annotation (Some annotation) state in
    let state := set_rs_updated_at now state in
    Ok ({| ranr_run_id := ranp_run_id params;
           ranr_annotation := annotation;
           ranr_message := "Run '" +:+ ranp_run_id params +:+ "' annotation updated." |}, state).

(** ** run.pin, run.unpin *)

Definition pin (now : string) (params : RunPinParams) (state : RunState)
    : res (RunPinResult * RunState) :=
  let reason := trim (rpip_reason params) in
  if str_is_empty reason then Err "pin reason must not be empty"
  else if (PIN_REASON_MAX_LEN <? str_len reason)%N then
    Err ("pin reason exceeds maximum length of " +:+ pretty PIN_REASON_MAX_LEN +:+ " characters")
  else
    let state := set_rs_pin_metadata (Some (mkPinMetadata reason now)) state in
    let state := set_rs_updated_at now state in
    Ok ({| rpir_run_id := rpip_run_id params;
           rpir_status := rs_status state;
           rpir_pinned_at := now;
           rpir_reason := reason;
           rpir_message := "Run '" +:+ rpip_run_id params +:+ "' pinned." |}, state).

Definition unpin (now : string) (params : RunUnpinParams) (state : RunState)
    : res (RunUnpinResult * RunState) :=
  if bool_decide (rs_pin_metadata state = None) then
    Err ("run '" +:+ rupp_run_id params +:+ "' is not pinned")
  else
    let reason := trim (rupp_reason params) in
    if str_is_empty reason then Err "unpin reason must not be empty"
    else if (PIN_REASON_MAX_LEN <? str_len reason)%N then
      Err ("unpin reason exceeds maximum length of " +:+ pretty PIN_REASON_MAX_LEN +:+ " characters")
    else
      let state := set_rs_pin_metadata None state in
      let state := set_rs_updated_at now state in
      Ok ({| rupr_run_id := rupp_run_id params;
             rupr_status := rs_status state;
             rupr_message := "Run '" +:+ rupp_run_id params +:+ "' unpinned." |}, state).

(** ** run.snooze, run.unsnooze *)

Definition snooze (now : string) (params : RunSnoozeParams) (state : RunState)
    : res (RunSnoozeResult * RunState) :=
  let reason := trim (rsnp_reason params) in
  if str_is_empty reason then Err "snooze reason must not be empty"
  else if (SNOOZE_REASON_MAX_LEN <? str_len reason)%N then
    Err ("snooze reason exceeds maximum length of " +:+ pretty SNOOZE_REASON_MAX_LEN +:+ " characters")
  else
    let state := set_rs_snooze_metadata (Some (mkSnoozeMetadata reason now)) state in
    let state := set_rs_updated_at now state in
    Ok ({| rsnr_run_id := rsnp_run_id params;
           rsnr_status := rs_status state;
           rsnr_snoozed_at := now;
           rsnr_reason := reason;
           rsnr_message := "Run '" +:+ rsnp_run_id params +:+ "' snoozed." |}, state).

Definition unsnooze (now : string) (params : RunUnsnoozeParams) (state : RunState)
    : res (RunUnsnoozeResult * RunState) :=
  if bool_decide (rs_snooze_metadata state = None) then
    Err ("run '" +:+ rusp_run_id params +:+ "' is not snoozed. Use list_runs with includeSnoozed=true to see snoozed runs, or get_run_state to check snooze status.")
  else
    let reason := trim (rusp_reason params) in
    if str_is_empty reason then Err "unsnooze reason must not be empty"
    else if (SNOOZE_REASON_MAX_LEN <? str_len reason)%N then
      Err ("unsnooze reason exceeds maximum length of " +:+ pretty SNOOZE_REASON_MAX_LEN +:+ " characters")
    else
      let state := set_rs_snooze_metadata None state in
      let state := set_rs_updated_at now state in
      Ok ({| rusr_run_id := rusp_run_id params;
             rusr_status := rs_status state;
             rusr_message := "Run '" +:+ rusp_run_id params +:+ "' unsnoozed." |}, state).

(** ** run.set_priority *)

Definition set_priority (now : string) (params : RunSetPriorityParams) (state : RunState)
    : res (RunSetPriorityResult * RunState) :=
  let reason := trim (rspp_reason params) in
  if str_is_empty reason then Err "priority reason must not be empty"
  else if (PRIORITY_REASON_MAX_LEN <? str_len reason)%N then
    Err ("priority reason exceeds maximum length of " +:+ pretty PRIORITY_REASON_MAX_LEN +:+ " characters")
  else
    let previous_priority := rs_priority state in
    let new_priority := rspp_priority params in
    let state := set_rs_priority new_priority state in
    let state := set_rs_updated_at now state in
    Ok ({| rspr_run_id := rspp_run_id params;
           rspr_status := rs_status state;
           rspr_previous_priority := previous_priority;
           rspr_priority := new_priority;
           rspr_reason := reason;
           rspr_set_at := now;
           rspr_message := "Run '" +:+ rspp_run_id params +:+ "' priority set to '" +:+
                           priority_as_str new_priority +:+ "'." |}, state).

(** ** run.assign_owner *)

Definition assignee_char (a : ascii) : bool :=
  is_ascii_lower a || is_ascii_digit a || (byte a =? 46)%N || (byte a =? 95)%N || (byte a =? 45)%N.

Definition normalize_assignee `{Unicode} (s : string) : res string :=
  let trimmed := trim s in
  if str_is_empty trimmed then Err "assignee must not be empty after trimming whitespace"
  else
    let lower := to_lowercase trimmed in
    if (ASSIGNEE_MAX_LEN <? str_len lower)%N then
      Err ("assignee exceeds maximum length of " +:+ pretty ASSIGNEE_MAX_LEN +:+ " characters")
    else match find_bad_char assignee_char lower with
         | Some ch => Err ("assignee contains invalid character '" +:+ ch +:+
                           "'; allowed: [a-z0-9._-]")
         | None => Ok lower
         end.

Definition assign_owner `{Unicode} (now : string) (params : RunAssignOwnerParams) (state : RunState)
    : res (RunAssignOwnerResult * RunState) :=
  let previous_assignee := rs_assignee state in
  new_assignee ← match raop_assignee params with
                 | None => Ok (rs_assignee state)
                 | Some None => Ok None
                 | Some (Some s) => a ← normalize_assignee s; Ok (Some a)
                 end;
  new_note ← match raop_ownership_note params with
             | None => Ok (rs_ownership_note state)
             | Some None => Ok None
             | Some (Some s) =>
                 let trimmed := trim s in
                 if (OWNERSHIP_NOTE_MAX_LEN <? str_len trimmed)%N then
                   Err ("ownership_note exceeds maximum length of " +:+
                        pretty OWNERSHIP_NOTE_MAX_LEN +:+ " characters")
                 else Ok (if str_is_empty trimmed then None else Some trimmed)
             end;
  let state := set_rs_assignee new_assignee state in
  let state := set_rs_ownership_note new_note state in
  let message :=
    match previous_assignee, new_assignee with
    | None, None => "ownership unchanged (no assignee)"
    | None, Some a => "run assigned to " +:+ a
    | Some prev, None => "assignee " +:+ prev +:+ " cleared"
    | Some prev, Some next =>
        if prev == next then "assignee unchanged: " +:+ next
        else "run reassigned from " +:+ prev +:+ " to " +:+ next
    end in
  Ok ({| raor_run_id := raop_run_id params;
         raor_status := rs_status state;
         raor_previous_assignee := previous_assignee;
         raor_assignee := new_assignee;
         raor_ownership_note := new_note;
         raor_updated_at := now;
         raor_message := message |}, state).

(** ** run.set_due_date *)

Definition digit_positions : list nat := [0; 1; 2; 3; 5; 6; 8; 9].

(** The first position of the list that holds no digit. *)
Definition first_non_digit (s : string) : option nat :=
  find_first (λ i, match String.get i s with
                   | Some a => negb (is_ascii_digit a)
                   | None => true
                   end) digit_positions.

Definition two_digits (s : string) (i : nat) : u32 :=
  default 0%N (parse_uint u32_max (str_take 2 (str_drop i s))).

Definition byte_is (s : string) (i : nat) (n : N) : bool :=
  match String.get i s with Some a => (byte a =? n)%N | None => false end.

Definition validate_due_date (s : string) : res string :=
  let trimmed := trim s in
  if negb (String.length trimmed =? 10)%nat then
    Err ("due_date must be exactly 10 characters in YYYY-MM-DD format, got: '" +:+ trimmed +:+ "'")
  else if negb (byte_is trimmed 4 45) || negb (byte_is trimmed 7 45) then
    Err ("due_date must use '-' separators in YYYY-MM-DD format, got: '" +:+ trimmed +:+ "'")
  else match first_non_digit trimmed with
       | Some idx =>
           Err ("due_date contains non-digit character at position " +:+
                pretty (N.of_nat idx) +:+ " in '" +:+ trimmed +:+ "'")
       | None =>
           let month := two_digits trimmed 5 in
           let day := two_digits trimmed 8 in
           if negb ((1 <=? month) && (month <=? 12))%N then
             Err ("due_date month must be 01–12, got '" +:+ trimmed +:+ "'")
           else if negb ((1 <=? day) && (day <=? 31))%N then
             Err ("due_date day must be 01–31, got '" +:+ trimmed +:+ "'")
           else Ok trimmed
       end.

Definition set_due_date (now : string) (params : RunSetDueDateParams) (state : RunState)
    : res (RunSetDueDateResult * RunState) :=
  let previous_due_date := rs_due_date state in
  new_due_date ← match rsddp_due_date params with
                 | None => Ok (rs_due_date state)
                 | Some None => Ok None
                 | Some (Some s) => d ← validate_due_date s; Ok (Some d)
                 end;
  let state := set_rs_due_date new_due_date state in
  let message :=
    match previous_due_date, new_due_date with
    | None, None => "due date unchanged (no due date set)"
    | None, Some d => "due date set to " +:+ d
    | Some prev, None => "due date " +:+ prev +:+ " cleared"
    | Some prev, Some next =>
        if prev == next then "due date unchanged: " +:+ next
        else "due date updated from " +:+ prev +:+ " to " +:+ next
    end in
  Ok ({| rsddr_run_id := rsddp_run_id params;
         rsddr_status := rs_status state;
         rsddr_previous_due_date := previous_due_date;
         rsddr_due_date := new_due_date;
         rsddr_updated_at := now;
         rsddr_message := message |}, state).

(** ** run.set_dependencies *)

(** The validation loop. *)
Fixpoint check_dependencies (run_id : string) (known_run_ids ids : list string)
    : res (list string) :=
  match ids with
  | [] => Ok []
  | id :: rest =>
      let trimmed := trim id in
      if str_is_empty trimmed then Err "blocked_by_run_ids contains an empty string"
      else if trimmed == run_id then
        Err ("run cannot depend on itself: '" +:+ run_id +:+ "' appears in blocked_by_run_ids")
      else if negb (contains_elem known_run_ids trimmed) then
        Err ("unknown run ID in blocked_by_run_ids: '" +:+ trimmed +:+ "'")
      else
        more ← check_dependencies run_id known_run_ids rest;
        Ok (trimmed :: more)
  end.

Definition set_dependencies (now : string) (params : RunSetDependenciesParams) (state : RunState)
    (known_run_ids : list string) : res (RunSetDependenciesResult * RunState) :=
  checked ← check_dependencies (rsdp_run_id params) known_run_ids (rsdp_blocked_by_run_ids params);
  let normalized := dedup (sort_strings checked) in
  if (MAX_DEPENDENCY_COUNT <? len normalized)%N then
    Err ("blocked_by_run_ids exceeds maximum of " +:+ pretty MAX_DEPENDENCY_COUNT +:+
         " entries (got " +:+ pretty (len normalized) +:+ ")")
  else
    let previous := rs_blocked_by_run_ids state in
    let state := set_rs_blocked_by_run_ids normalized state in
    let message :=
      match bool_decide (previous = []), bool_decide (normalized = []) with
      | true, true => "dependencies unchanged (no dependencies set)"
      | true, false => "dependencies set: blocked by " +:+ join ", " normalized
      | false, true => "all dependencies cleared"
      | false, false =>
          if bool_decide (previous = normalized)
          then "dependencies unchanged: blocked by " +:+ join ", " normalized
          else "dependencies updated: now blocked by " +:+ join ", " normalized
      end in
    Ok ({| rsdr_run_id := rsdp_run_id params;
           rsdr_status := rs_status state;
           rsdr_blocked_by_run_ids := normalized;
           rsdr_previous_blocked_by_run_ids := previous;
           rsdr_updated_at := now;
           rsdr_message := message |}, state).

(** ** run.set_effort *)

Definition set_effort (now : string) (params : RunSetEffortParams) (state : RunState)
    : res (RunSetEffortResult * RunState) :=
  let previous_effort := rs_effort state in
  let new_effort :=
    match rsep_effort params with
    | None => rs_effort state
    | Some None => None
    | Some (Some e) => Some e
    end in
  let state := set_rs_effort new_effort state in
  let state := set_rs_updated_at now state in
  let message :=
    match previous_effort, new_effort with
    | None, None => "effort unchanged (no estimate set)"
    | None, Some e => "effort set to " +:+ effort_as_str e
    | Some prev, None => "effort " +:+ effort_as_str prev +:+ " cleared"
    | Some prev, Some next =>
        if bool_decide (prev = next) then "effort unchanged: " +:+ effort_as_str next
        else "effort updated from " +:+ effort_as_str prev +:+ " to " +:+ effort_as_str next
    end in
  Ok ({| rser_run_id := rsep_run_id params;
         rser_status := rs_status state;
         rser_previous_effort := previous_effort;
         rser_effort := new_effort;
         rser_updated_at := now;
         rser_message := message |}, state).

(** ** Facts about the normalizers *)

Lemma lower_plain a : is_ascii_lower a = true →
  (byte a <? 128)%N = true ∧ ascii_lower a = a ∧ ws1 a = false.
Proof.
  unfold is_ascii_lower, ascii_lower, ws1, in_range. rewrite andb_true_iff, !N.leb_le.
  intros [??]. split; [apply N.ltb_lt; lia|]. split.
  - destruct (N.leb_spec 65 (byte a)), (N.leb_spec (byte a) 90); done || lia.
  - destruct (N.leb_spec 9 (byte a)), (N.leb_spec (byte a) 13), (N.eqb_spec (byte a) 32);
      done || lia.
Qed.

Lemma range_plain lo hi a : in_range lo hi a = true → (33 <= lo)%N → (hi <= 64)%N →
  (byte a <? 128)%N = true ∧ ascii_lower a = a ∧ ws1 a = false.
Proof.
  unfold ascii_lower, ws1, in_range. rewrite andb_true_iff, !N.leb_le.
  intros [??] ??. split; [apply N.ltb_lt; lia|]. split.
  - destruct (N.leb_spec 65 (byte a)); done || lia.
  - destruct (N.leb_spec 9 (byte a)), (N.leb_spec (byte a) 13), (N.eqb_spec (byte a) 32);
      done || lia.
Qed.

Lemma point_plain n a : (byte a =? n)%N = true → n ∈ [45; 46; 95]%N →
  (byte a <? 128)%N = true ∧ ascii_lower a = a ∧ ws1 a = false.
Proof.
  intros Ha Hn.
  assert (a = ascii_of_N n) as -> by (apply N.eqb_eq in Ha; unfold byte in Ha;
    rewrite <- Ha; symmetry; apply ascii_N_embedding).
  apply list_elem_of_In in Hn. cbn in Hn.
  destruct Hn as [<-|[<-|[<-|[]]]]; vm_compute; auto.
Qed.

Lemma label_char_plain : plain_class label_char.
Proof.
  intros a. unfold label_char. rewrite !orb_true_iff.
  intros [[[?|?]|?]|?];
    [by apply lower_plain|by eapply range_plain|eapply point_plain; [done|set_solver]..].
Qed.

Lemma assignee_char_plain : plain_class assignee_char.
Proof.
  intros a. unfold assignee_char. rewrite !orb_true_iff.
  intros [[[[?|?]|?]|?]|?];
    [by apply lower_plain|by eapply range_plain|eapply point_plain; [done|set_solver]..].
Qed.

(** What a stored label looks like. *)
Definition valid_label (l : string) : Prop :=
  l ≠ "" ∧ (str_len l <= LABEL_MAX_LEN)%N ∧ str_forall label_char l = true.

Lemma normalize_label_valid `{Unicode} raw l : normalize_label raw = Ok l → valid_label l.
Proof.
  unfold normalize_label, valid_label, str_is_empty.
  destruct (String.eqb_spec (to_lowercase (trim raw)) "") as [|Hne]; [done|].
  destruct (N.ltb_spec LABEL_MAX_LEN (str_len (to_lowercase (trim raw)))) as [|Hl]; [done|].
  destruct (find_bad_char _ _) eqn:E; [done|]. intros [= <-].
  apply find_bad_char_None in E. done.
Qed.

Lemma normalize_label_fixed `{Unicode} l : valid_label l → normalize_label l = Ok l.
Proof.
  intros (Hne & Hl & Hc). unfold normalize_label, str_is_empty.
  rewrite (plain_trim _ label_char_plain), (plain_lower _ label_char_plain) by done.
  rewrite (proj2 (String.eqb_neq _ _) Hne).
  rewrite (proj2 (N.ltb_ge _ _) Hl). by rewrite (proj2 (find_bad_char_None _ _) Hc).
Qed.

Lemma collect_labels_spec `{Unicode} acc raw ls :
  collect_labels acc raw = Ok ls → NoDup acc →
  NoDup ls ∧ (length ls <= length acc + length raw)%nat ∧
  (∀ x, x ∈ ls ↔ x ∈ acc ∨ ∃ r, r ∈ raw ∧ normalize_label r = Ok x).
Proof.
  revert acc. induction raw as [|r raw IH]; intros acc Hc Hacc; cbn in Hc.
  - injection Hc as <-. repeat split; [done|lia|auto|]. intros [?|(?&?&?)]; [done|set_solver].
  - apply res_bind_Ok in Hc as (l & Hl & Hc).
    apply IH in Hc as (Hnd & Hlen & Hin); clear IH.
    + unfold contains_elem in *. case_bool_decide as Hm.
      * repeat split; [done|cbn; lia|..].
        -- intros Hx. apply Hin in Hx as [?|(r' & ? & ?)]; [auto|].
           right. exists r'. split; [by right|done].
        -- intros [?|(r' & Hr' & ?)]; apply Hin; [auto|].
           apply elem_of_cons in Hr' as [->|?]; [left; congruence|eauto].
      * rewrite length_app in Hlen. cbn in Hlen. repeat split; [done|cbn; lia|..].
        -- rewrite Hin, elem_of_app, list_elem_of_singleton.
           intros [[?| ->]|(r' & ? & ?)]; [auto|..]; right;
             [exists r; split; [left|done]|exists r'; split; [by right|done]].
        -- rewrite Hin, elem_of_app, list_elem_of_singleton.
           intros [?|(r' & Hr' & ?)]; [auto|].
           apply elem_of_cons in Hr' as [->|?]; [left; right; congruence|eauto].
    + unfold contains_elem. case_bool_decide as Hm; [done|].
      apply NoDup_app. repeat split; [done|set_solver|apply NoDup_singleton].
Qed.

Lemma collect_labels_fixed `{Unicode} acc ls :
  Forall valid_label ls → NoDup (acc ++ ls) → collect_labels acc ls = Ok (acc ++ ls).
Proof.
  revert acc. induction ls as [|l ls IH]; intros acc Hv Hnd; cbn; [by rewrite app_nil_r|].
  apply Forall_cons in Hv as [Hl Hv]. rewrite normalize_label_fixed by done. cbn.
  unfold contains_elem. rewrite bool_decide_false.
  - rewrite IH; [|done|]; rewrite <- app_assoc; done.
  - apply NoDup_app in Hnd as (_ & Hd & _). intros Hin. apply (Hd l Hin). left.
Qed.

Lemma normalize_labels_facts `{Unicode} raw ls :
  normalize_labels raw = Ok ls →
  StronglySorted (λ a b, str_le a b) ls ∧ NoDup ls ∧ (len ls <= LABEL_MAX_COUNT)%N ∧
  Forall valid_label ls ∧ (∀ x, x ∈ ls ↔ ∃ r, r ∈ raw ∧ normalize_label r = Ok x).
Proof.
  unfold normalize_labels. destruct (N.ltb_spec LABEL_MAX_COUNT (len raw)) as [|Hc]; [done|].
  intros Hn. res_inv. destruct (collect_labels_spec [] raw x) as (Hnd & Hl & Hin); [done|constructor|].
  split_and!.
  - apply sort_strings_sorted.
  - by apply sort_by_NoDup.
  - unfold len, sort_strings in *. rewrite length_sort_by. cbn in Hl. lia.
  - rewrite Forall_forall. intros l Hx. apply sort_by_elem, Hin in Hx as [Hx|(r & _ & Hr)];
      [by apply not_elem_of_nil in Hx|]. by eapply normalize_label_valid.
  - intros y. unfold sort_strings. rewrite sort_by_elem, Hin.
    split; [intros [Hx|?]; [by apply not_elem_of_nil in Hx|done]|auto].
Qed.

Lemma check_dependencies_spec run_id known ids out :
  check_dependencies run_id known ids = Ok out →
  out = map trim ids ∧ (run_id ∉ out) ∧ ("" ∉ out) ∧ ∀ x, x ∈ out → x ∈ known.
Proof.
  revert out. induction ids as [|i ids IH]; intros out; cbn.
  - intros [= <-]. repeat split; [by apply not_elem_of_nil..|set_solver].
  - unfold str_is_empty, contains_elem.
    destruct (String.eqb_spec (trim i) "") as [|He]; [done|].
    destruct (String.eqb_spec (trim i) run_id) as [|Hr]; [done|].
    case_bool_decide as Hk; [cbn [negb]|done]. intros Hc. res_inv.
    destruct (IH x) as (-> & ? & ? & ?); [done|].
    repeat split; [set_solver..|]. intros y [->|Hy]%elem_of_cons; auto.
Qed.

(** ** Organizational steps leave the lifecycle alone *)

Inductive organize_step `{Unicode} : RunState → RunState → Prop :=
| step_annotate now p s r s' : annotate now p s = Ok (r, s') → organize_step s s'
| step_pin now p s r s' : pin now p s = Ok (r, s') → organize_step s s'
| step_unpin now p s r s' : unpin now p s = Ok (r, s') → organize_step s s'
| step_snooze now p s r s' : snooze now p s = Ok (r, s') → organize_step s s'
| step_unsnooze now p s r s' : unsnooze now p s = Ok (r, s') → organize_step s s'
| step_set_priority now p s r s' : set_priority now p s = Ok (r, s') → organize_step s s'
| step_assign_owner now p s r s' : assign_owner now p s = Ok (r, s') → organize_step s s'
| step_set_due_date now p s r s' : set_due_date now p s = Ok (r, s') → organize_step s s'
| step_set_dependencies now p s k r s' :
    set_dependencies now p s k = Ok (r, s') → organize_step s s'
| step_set_effort now p s r s' : set_effort now p s = Ok (r, s') → organize_step s s'.

(** A run with its organizational fields blanked: what is left is the goal,
    plan, status, approvals, policy, lineage and archive state. *)
Definition lifecycle_view (s : RunState) : RunState :=
  set_rs_annotation None (set_rs_pin_metadata None (set_rs_snooze_metadata None
    (set_rs_priority Normal (set_rs_assignee None (set_rs_ownership_note None
      (set_rs_due_date None (set_rs_blocked_by_run_ids [] (set_rs_effort None
        (set_rs_updated_at "" s))))))))).

(** Follow one operation through its checks to the state it returns. *)
Ltac organize_cases H :=
  repeat match type of H with
  | (if ?b then _ else _) = Ok _ => destruct b; [try discriminate H|try discriminate H]
  | mbind _ _ = Ok _ => apply res_bind_Ok in H as (? & _ & H)
  end.

Ltac organize_op op E := unfold op in E; organize_cases E; injection E as <- <-; reflexivity.

Lemma organize_step_view `{Unicode} s s' :
  organize_step s s' → lifecycle_view s' = lifecycle_view s.
Proof.
  intros [now p x r y E|now p x r y E|now p x r y E|now p x r y E|now p x r y E
         |now p x r y E|now p x r y E|now p x r y E|now p x k r y E|now p x r y E];
    [organize_op @annotate E|organize_op pin E|organize_op unpin E|organize_op snooze E
    |organize_op unsnooze E|organize_op set_priority E|organize_op @assign_owner E
    |organize_op set_due_date E|organize_op set_dependencies E|organize_op set_effort E].
Qed.

(** ** Properties *)

(** Whatever sequence of annotating, pinning, snoozing, prioritizing,
    assigning, scheduling, linking and estimating is applied to a run, its
    status, plan, steps, outcome, approvals, policy, lineage and archive
    state stay as they were. *)
Theorem organize_preserves_lifecycle `{Unicode} s s' :
  rtc organize_step s s' → lifecycle_view s' = lifecycle_view s.
Proof.
  induction 1 as [|s t u Hst _ IH]; [done|]. rewrite IH. by apply organize_step_view.
Qed.

(** Accepted labels are stored sorted, without duplicates, at most 16 of
    them, each non-empty, at most 64 bytes and made of [a-z0-9_-]; they are
    exactly the normal forms of the labels given, and normalizing them again
    changes nothing. *)
Theorem normalize_labels_spec `{Unicode} raw ls :
  normalize_labels raw = Ok ls →
  StronglySorted (λ a b, str_le a b) ls ∧ NoDup ls ∧ (len ls <= LABEL_MAX_COUNT)%N ∧
  Forall valid_label ls ∧
  (∀ x, x ∈ ls ↔ ∃ r, r ∈ raw ∧ normalize_label r = Ok x) ∧
  normalize_labels ls = Ok ls.
Proof.
  intros Hn. destruct (normalize_labels_facts raw ls Hn) as (Hs & Hnd & Hl & Hv & Hin).
  split_and!; [done..|]. unfold normalize_labels. rewrite (proj2 (N.ltb_ge _ _) Hl).
  rewrite collect_labels_fixed by done. cbn. by rewrite sort_strings_id.
Qed.

(** An accepted assignee is non-empty, at most 64 bytes of [a-z0-9._-],
    and is its own normal form. *)
Theorem normalize_assignee_spec `{Unicode} s a :
  normalize_assignee s = Ok a →
  (str_len a <= ASSIGNEE_MAX_LEN)%N ∧ str_forall assignee_char a = true ∧
  (a ≠ "" → normalize_assignee a = Ok a).
Proof.
  unfold normalize_assignee, str_is_empty. destruct (trim s == ""); [done|].
  generalize (to_lowercase (trim s)); intros l.
  destruct (N.ltb_spec ASSIGNEE_MAX_LEN (str_len l)) as [|Hl]; [done|].
  destruct (find_bad_char _ _) eqn:E; [done|]. intros [= <-].
  pose proof (proj1 (find_bad_char_None _ _) E) as Hc. split_and!; [done..|]. intros Hne.
  rewrite (plain_trim _ assignee_char_plain), (plain_lower _ assignee_char_plain) by done.
  rewrite (proj2 (String.eqb_neq _ _) Hne), (proj2 (N.ltb_ge _ _) Hl). by rewrite E.
Qed.

(** Setting dependencies stores the given ids trimmed, sorted and without
    duplicates, at most 32 of them, none empty, none the run itself and every
    one the id of a known run; no other field of the run changes. *)
Theorem set_dependencies_spec now p s known r s' :
  set_dependencies now p s known = Ok (r, s') →
  let deps := rs_blocked_by_run_ids s' in
  s' = set_rs_blocked_by_run_ids deps s ∧ rsdr_blocked_by_run_ids r = deps ∧
  StronglySorted (λ a b, str_le a b) deps ∧ NoDup deps ∧
  (len deps <= MAX_DEPENDENCY_COUNT)%N ∧
  (rsdp_run_id p ∉ deps) ∧ ("" ∉ deps) ∧ (∀ x, x ∈ deps → x ∈ known) ∧
  (∀ x, x ∈ deps ↔ x ∈ map trim (rsdp_blocked_by_run_ids p)).
Proof.
  unfold set_dependencies. intros Hd. apply res_bind_Ok in Hd as (ids & Hc & Hd).
  apply check_dependencies_spec in Hc as (-> & Hself & Hempty & Hknown).
  destruct (N.ltb_spec MAX_DEPENDENCY_COUNT
    (len (dedup (sort_strings (map trim (rsdp_blocked_by_run_ids p)))))) as [|Hl]; [done|].
  injection Hd as <- <-. cbn.
  assert (∀ x, x ∈ dedup (sort_strings (map trim (rsdp_blocked_by_run_ids p))) ↔
            x ∈ map trim (rsdp_blocked_by_run_ids p)) as Hin.
  { intros x. rewrite dedup_elem. apply sort_by_elem. }
  split_and!; try done.
  - apply (dedup_sorted str_le), sort_strings_sorted.
  - apply (dedup_NoDup str_le); [apply str_le_antisym|apply sort_strings_sorted].
  - by rewrite Hin.
  - by rewrite Hin.
  - intros x. rewrite Hin. apply Hknown.
Qed.

(** Pinning then unpinning a run that was not pinned gives the run back
    but for its time of update. *)
Theorem pin_unpin_roundtrip now1 now2 p q s r1 s1 r2 s2 :
  rs_pin_metadata s = None →
  pin now1 p s = Ok (r1, s1) → unpin now2 q s1 = Ok (r2, s2) →
  s2 = set_rs_updated_at now2 s.
Proof.
  intros Hn Hp Hu. unfold pin in Hp. organize_cases Hp. injection Hp as <- <-.
  unfold unpin in Hu. organize_cases Hu. injection Hu as <- <-.
  rewrite <- Hn. by destruct s.
Qed.

(** Assigning an owner and setting a due date or dependencies report a
    time of update that is not stored: the run keeps its old one. *)
Theorem update_time_not_stored `{Unicode} now s :
  (∀ p r s', assign_owner now p s = Ok (r, s') →
     raor_updated_at r = now ∧ rs_updated_at s' = rs_updated_at s) ∧
  (∀ p r s', set_due_date now p s = Ok (r, s') →
     rsddr_updated_at r = now ∧ rs_updated_at s' = rs_updated_at s) ∧
  (∀ p k r s', set_dependencies now p s k = Ok (r, s') →
     rsdr_updated_at r = now ∧ rs_updated_at s' = rs_updated_at s).
Proof.
  split_and!.
  - intros p r s' E. unfold assign_owner in E. organize_cases E. by injection E as <- <-.
  - intros p r s' E. unfold set_due_date in E. organize_cases E. by injection E as <- <-.
  - intros p k r s' E. unfold set_dependencies in E. organize_cases E. by injection E as <- <-.
Qed.

(** ** Concrete inputs *)

Definition demo_annotate_params : RunAnnotateParams :=
  mkRunAnnotateParams "r1" (Some ["  Urgent-Fix "; "backend"; "BACKEND"]) (Some "see ticket").

Definition demo_pinned : RunState := Eval vm_compute in
  match pin "t1" (mkRunPinParams "r1" " keep ") demo_run
    as x return match x with Ok _ => RunState | _ => () end
  with Ok x => snd x | _ => () end.

Definition demo_annotated : RunState := Eval vm_compute in
  match annotate (H:=demo_unicode) "t2" demo_annotate_params demo_pinned
    as x return match x with Ok _ => RunState | _ => () end
  with Ok x => snd x | _ => () end.

Lemma organize_preserves_lifecycle_witness :
  lifecycle_view demo_annotated = lifecycle_view demo_run.
Proof.
  apply (organize_preserves_lifecycle (H:=demo_unicode)).
  eapply rtc_l; [|eapply rtc_l; [|apply rtc_refl]].
  - eapply (step_pin (H:=demo_unicode) "t1" (mkRunPinParams "r1" " keep ")). vm_compute. reflexivity.
  - eapply (step_annotate (H:=demo_unicode) "t2" demo_annotate_params). vm_compute. reflexivity.
Defined.

Lemma normalize_labels_spec_witness :
  NoDup ["backend"; "urgent-fix"] ∧
  normalize_labels (H:=demo_unicode) ["backend"; "urgent-fix"] = Ok ["backend"; "urgent-fix"].
Proof.
  destruct (normalize_labels_spec (H:=demo_unicode) ["  Urgent-Fix "; "backend"; "BACKEND"]
    ["backend"; "urgent-fix"]) as (_ & Hnd & _ & _ & _ & Hfix).
  - vm_compute. reflexivity.
  - split; assumption.
Defined.

Lemma normalize_assignee_spec_witness :
  (str_len "jane.doe" <= ASSIGNEE_MAX_LEN)%N ∧ str_forall assignee_char "jane.doe" = true ∧
  ("jane.doe" ≠ "" → normalize_assignee (H:=demo_unicode) "jane.doe" = Ok "jane.doe").
Proof.
  apply (normalize_assignee_spec (H:=demo_unicode) " Jane.Doe "). vm_compute. reflexivity.
Defined.

Definition demo_dependencies_params : RunSetDependenciesParams :=
  mkRunSetDependenciesParams "r1" ["b"; " a "; "b"].

Definition demo_dependencies : RunSetDependenciesResult * RunState := Eval vm_compute in
  match set_dependencies "t1" demo_dependencies_params demo_run ["a"; "b"; "r1"]
    as x return match x with Ok _ => RunSetDependenciesResult * RunState | _ => () end%type
  with Ok x => x | _ => () end.

Lemma set_dependencies_spec_witness :
  rs_blocked_by_run_ids (snd demo_dependencies) = ["a"; "b"] ∧
  NoDup (rs_blocked_by_run_ids (snd demo_dependencies)) ∧
  ("r1" ∉ rs_blocked_by_run_ids (snd demo_dependencies)).
Proof.
  destruct (set_dependencies_spec "t1" demo_dependencies_params
    demo_run ["a"; "b"; "r1"] (fst demo_dependencies) (snd demo_dependencies))
    as (_ & _ & _ & Hnd & _ & Hself & _).
  - vm_compute. reflexivity.
  - split; [reflexivity|]. split; assumption.
Defined.

Definition demo_unpinned : RunState := Eval vm_compute in
  match unpin "t2" (mkRunUnpinParams "r1" "done") demo_pinned
    as x return match x with Ok _ => RunState | _ => () end
  with Ok x => snd x | _ => () end.

Lemma pin_unpin_roundtrip_witness : demo_unpinned = set_rs_updated_at "t2" demo_run.
Proof.
  eapply (pin_unpin_roundtrip "t1" "t2" (mkRunPinParams "r1" " keep ")
    (mkRunUnpinParams "r1" "done") demo_run _ demo_pinned); vm_compute; reflexivity.
Defined.
