(* ===== verification/Policy.v ===== *)
(** * Approval policy (deterministic-core: approval_policy.rs)

    The rules that decide whether a patch or a test run proceeds or waits for
    an approval.  The rules are tried in order and the first that matches
    gives the texts of the approval. *)

From S2P Require Import Prelude RustStr Types Lifecycle.

Inductive PolicyDecision :=
| Proceed
| RequiresApproval (action_summary risk_reason policy_rationale : string).

#[export] Instance PolicyDecision_eq_dec : EqDecision PolicyDecision.
Proof. solve_decision. Defined.

(** ** Patches *)

Definition SENSITIVE_PATTERNS : list string :=
  [".env"; ".ssh"; ".git/"; "id_rsa"; "id_ed25519"; "secrets"; ".secret"; ".credentials";
   ".key"; ".pem"].

Definition matches_sensitive_pattern `{Unicode} (path : string) : option string :=
  let lower := to_lowercase path in
  find_first (λ pattern, str_contains lower pattern) SENSITIVE_PATTERNS.

Definition is_within_focus_paths (path : string) (focus_paths : list string) : bool :=
  existsb (λ fp, starts_with path fp) focus_paths.

(** The size of the set of paths. *)
Definition unique_paths (edits : list PatchEdit) : usize :=
  N.of_nat (size (list_to_set (map pe_path edits) : gset string)).

(** Rule 1. *)
Definition rule_delete (params : PatchApplyParams) (policy : RunPolicy) : option PolicyDecision :=
  if pol_delete_requires_approval policy then
    edit ← find_first (λ edit, pe_operation edit == "delete") (pap_edits params);
    Some (RequiresApproval ("Delete file: " +:+ pe_path edit)
            "File deletion is destructive and irreversible"
            "Policy: file deletion requires approval")
  else None.

(** Rule 2. *)
Definition rule_large (params : PatchApplyParams) (policy : RunPolicy) : option PolicyDecision :=
  let n := len (pap_edits params) in
  let threshold := pol_patch_edit_threshold policy in
  if (threshold <? n)%N then
    Some (RequiresApproval
      ("Patch with " +:+ pretty n +:+ " edits across " +:+
       pretty (unique_paths (pap_edits params)) +:+ " file(s)")
      ("Patch touches " +:+ pretty n +:+ " edits (threshold: " +:+ pretty threshold +:+ ")")
      ("Policy: large patch (>" +:+ pretty threshold +:+ " edits) requires approval"))
  else None.

(** Rule 3. *)
Definition rule_sensitive `{Unicode} (params : PatchApplyParams) (policy : RunPolicy)
    : option PolicyDecision :=
  if pol_sensitive_path_requires_approval policy then
    edit ← find_first (λ edit, bool_decide (is_Some (matches_sensitive_pattern (pe_path edit))))
             (pap_edits params);
    pattern ← matches_sensitive_pattern (pe_path edit);
    Some (RequiresApproval ("Edit sensitive file: " +:+ pe_path edit)
            ("Path '" +:+ pe_path edit +:+ "' matches sensitive pattern '" +:+ pattern +:+ "'")
            "Policy: sensitive file path requires approval")
  else None.

(** Rule 4. *)
Definition rule_outside_focus `{Unicode} (params : PatchApplyParams) (policy : RunPolicy)
    : option PolicyDecision :=
  let focus_paths := pol_focus_paths policy in
  if pol_outside_focus_requires_approval policy && negb (bool_decide (focus_paths = [])) then
    edit ← find_first (λ edit, negb (is_within_focus_paths (pe_path edit) focus_paths))
             (pap_edits params);
    Some (RequiresApproval ("Edit outside focus: " +:+ pe_path edit)
            ("Path '" +:+ pe_path edit +:+ "' is outside declared focus paths: " +:+
             debug_list focus_paths)
            "Policy: edit outside declared focus paths requires approval")
  else None.

Definition evaluate_patch `{Unicode} (params : PatchApplyParams) (policy : RunPolicy)
    : PolicyDecision :=
  match rule_delete params policy with
  | Some d => d
  | None =>
  match rule_large params policy with
  | Some d => d
  | None =>
  match rule_sensitive params policy with
  | Some d => d
  | None =>
  match rule_outside_focus params policy with
  | Some d => d
  | None => Proceed
  end end end end.

(** ** Test runs *)

Definition SAFE_MAKE_TARGETS : list string :=
  ["test"; "check"; "lint"; "build"; "clean"; "all"; "verify"; "fmt"; "format"].

Definition evaluate_test_run `{Unicode} (params : TestsRunParams) (policy : RunPolicy)
    : PolicyDecision :=
  let scope_lower := to_lowercase (trp_scope params) in
  match trp_target params with
  | Some target =>
      if scope_lower == "make" then
        let target_lower := to_lowercase target in
        let is_builtin_safe := contains_elem SAFE_MAKE_TARGETS target_lower in
        let is_extra_safe := existsb (λ t, t == target_lower) (pol_extra_safe_make_targets policy) in
        if negb is_builtin_safe && negb is_extra_safe then
          RequiresApproval ("Run make target: " +:+ target)
            ("Make target '" +:+ target +:+ "' is not in the safe-target list")
            "Policy: non-standard make target requires approval"
        else Proceed
      else Proceed
  | None => Proceed
  end.

(** ** What the rules accept *)

(** The edit passes every rule that looks at one edit. *)
Definition edit_allowed `{Unicode} (policy : RunPolicy) (edit : PatchEdit) : Prop :=
  (pol_delete_requires_approval policy = true → pe_operation edit ≠ "delete") ∧
  (pol_sensitive_path_requires_approval policy = true →
     ∀ pat, pat ∈ SENSITIVE_PATTERNS → ¬ ∃ l r, to_lowercase (pe_path edit) = l +:+ pat +:+ r) ∧
  (pol_outside_focus_requires_approval policy = true → pol_focus_paths policy ≠ [] →
     ∃ fp rest, fp ∈ pol_focus_paths policy ∧ pe_path edit = fp +:+ rest).

Lemma rule_delete_None params policy :
  rule_delete params policy = None ↔
  Forall (λ e, pol_delete_requires_approval policy = true → pe_operation e ≠ "delete")
    (pap_edits params).
Proof.
  unfold rule_delete. destruct (pol_delete_requires_approval policy).
  - transitivity (find_first (λ e, pe_operation e == "delete") (pap_edits params) = None).
    { by destruct (find_first _ _). }
    rewrite find_first_None. apply Forall_iff. intros e. rewrite String.eqb_neq. naive_solver.
  - split; [|done]. intros _. by apply Forall_true.
Qed.

Lemma rule_large_None params policy :
  rule_large params policy = None ↔
  (len (pap_edits params) <= pol_patch_edit_threshold policy)%N.
Proof.
  unfold rule_large. destruct (N.ltb_spec (pol_patch_edit_threshold policy) (len (pap_edits params)));
    split; intros; done || lia.
Qed.

Lemma matches_sensitive_pattern_None `{Unicode} path :
  matches_sensitive_pattern path = None ↔
  ∀ pat, pat ∈ SENSITIVE_PATTERNS → ¬ ∃ l r, to_lowercase path = l +:+ pat +:+ r.
Proof.
  unfold matches_sensitive_pattern. rewrite find_first_None, Forall_forall.
  split; intros Hp pat Hin; specialize (Hp pat Hin); rewrite <- str_contains_spec in *.
  - by rewrite Hp.
  - by apply not_true_is_false.
Qed.

Lemma rule_sensitive_None `{Unicode} params policy :
  rule_sensitive params policy = None ↔
  Forall (λ e, pol_sensitive_path_requires_approval policy = true →
     ∀ pat, pat ∈ SENSITIVE_PATTERNS → ¬ ∃ l r, to_lowercase (pe_path e) = l +:+ pat +:+ r)
    (pap_edits params).
Proof.
  unfold rule_sensitive. destruct (pol_sensitive_path_requires_approval policy).
  - set (f := λ e, bool_decide _). transitivity (find_first f (pap_edits params) = None).
    { destruct (find_first f _) as [e|] eqn:E; [|done].
      apply find_first_Some in E as [_ E]. unfold f in E. apply bool_decide_eq_true in E as [p Hp].
      unfold mbind, option_bind. by rewrite Hp. }
    rewrite find_first_None. apply Forall_iff. intros e. subst f.
    rewrite bool_decide_eq_false, <- eq_None_not_Some, matches_sensitive_pattern_None.
    naive_solver.
  - split; [|done]. intros _. by apply Forall_true.
Qed.

Lemma is_within_focus_paths_spec path fps :
  is_within_focus_paths path fps = true ↔ ∃ fp rest, fp ∈ fps ∧ path = fp +:+ rest.
Proof.
  unfold is_within_focus_paths. rewrite existsb_exists. split.
  - intros (fp & Hin & [t ->]%starts_with_spec). exists fp, t. by rewrite list_elem_of_In.
  - intros (fp & t & Hin & ->). exists fp. rewrite <- list_elem_of_In.
    split; [done|apply starts_with_app].
Qed.

Lemma rule_outside_focus_None `{Unicode} params policy :
  rule_outside_focus params policy = None ↔
  Forall (λ e, pol_outside_focus_requires_approval policy = true → pol_focus_paths policy ≠ [] →
     ∃ fp rest, fp ∈ pol_focus_paths policy ∧ pe_path e = fp +:+ rest) (pap_edits params).
Proof.
  unfold rule_outside_focus.
  destruct (pol_outside_focus_requires_approval policy); cbn [andb];
    [case_bool_decide as Hfp; cbn [negb]|].
  - split; [|done]. intros _. by apply Forall_true.
  - set (f := λ e, negb _). transitivity (find_first f (pap_edits params) = None).
    { by destruct (find_first f _). }
    rewrite find_first_None. apply Forall_iff. intros e. subst f.
    rewrite negb_false_iff, is_within_focus_paths_spec. naive_solver.
  - split; [|done]. intros _. by apply Forall_true.
Qed.

(** A rule that matches never answers [Proceed]. *)
Lemma rules_gate `{Unicode} params policy d :
  rule_delete params policy = Some d ∨ rule_large params policy = Some d ∨
  rule_sensitive params policy = Some d ∨ rule_outside_focus params policy = Some d →
  d ≠ Proceed.
Proof.
  unfold rule_delete, rule_large, rule_sensitive, rule_outside_focus.
  intros [E|[E|[E|E]]]; case_match; try done;
    repeat (apply bind_Some in E as (? & _ & E)); by injection E as <-.
Qed.

Lemma evaluate_patch_rules `{Unicode} params policy :
  evaluate_patch params policy = Proceed ↔
  rule_delete params policy = None ∧ rule_large params policy = None ∧
  rule_sensitive params policy = None ∧ rule_outside_focus params policy = None.
Proof.
  unfold evaluate_patch. pose proof (λ d, rules_gate params policy d) as Hg.
  destruct (rule_delete params policy) as [d|]; [split; [intros ->|by intros [? _]]|].
  { by destruct (Hg Proceed); [left|]. }
  destruct (rule_large params policy) as [d|]; [split; [intros ->|by intros (_ & ? & _)]|].
  { by destruct (Hg Proceed); [right; left|]. }
  destruct (rule_sensitive params policy) as [d|]; [split; [intros ->|by intros (_ & _ & ? & _)]|].
  { by destruct (Hg Proceed); [right; right; left|]. }
  destruct (rule_outside_focus params policy) as [d|]; [split; [intros ->|by intros (_ & _ & _ & ?)]|].
  { by destruct (Hg Proceed); [right; right; right|]. }
  done.
Qed.

Lemma evaluate_patch_allowed `{Unicode} params policy :
  evaluate_patch params policy = Proceed ↔
  (len (pap_edits params) <= pol_patch_edit_threshold policy)%N ∧
  Forall (edit_allowed policy) (pap_edits params).
Proof.
  rewrite evaluate_patch_rules, rule_delete_None, rule_large_None, rule_sensitive_None,
    rule_outside_focus_None.
  unfold edit_allowed. rewrite !Forall_and. tauto.
Qed.

(** A patch proceeds exactly when it has at most the policy's number of
    edits and each of its edits passes: no deletion (where the policy gates
    deletions), no path with a sensitive pattern in its lower-case form, and
    a path under a focus path when there are any.  So an edit that is gated
    on its own cannot be slipped through in a larger patch. *)
Theorem evaluate_patch_proceed_iff `{Unicode} params policy :
  (evaluate_patch params policy = Proceed ↔
   (len (pap_edits params) <= pol_patch_edit_threshold policy)%N ∧
   Forall (edit_allowed policy) (pap_edits params)) ∧
  (∀ e, e ∈ pap_edits params → (0 < pol_patch_edit_threshold policy)%N →
     evaluate_patch (mkPatchApplyParams (pap_run_id params) [e]) policy ≠ Proceed →
     evaluate_patch params policy ≠ Proceed).
Proof.
  split; [apply evaluate_patch_allowed|]. intros e He Ht.
  rewrite !evaluate_patch_allowed, (Forall_forall _ (pap_edits params)).
  intros Hone [_ Hall]. apply Hone. split; [unfold len; cbn; lia|].
  constructor; [by apply Hall|constructor].
Qed.

(** [policy'] gates at least what [policy] gates. *)
Definition stricter (policy policy' : RunPolicy) : Prop :=
  (pol_patch_edit_threshold policy' <= pol_patch_edit_threshold policy)%N ∧
  (pol_delete_requires_approval policy = true → pol_delete_requires_approval policy' = true) ∧
  (pol_sensitive_path_requires_approval policy = true →
     pol_sensitive_path_requires_approval policy' = true) ∧
  (pol_outside_focus_requires_approval policy = true →
     pol_outside_focus_requires_approval policy' = true) ∧
  pol_focus_paths policy = pol_focus_paths policy'.

#[export] Instance stricter_preorder : PreOrder stricter.
Proof. unfold stricter. split; [intros ?|intros ???]; intuition (done || lia || congruence). Qed.

Lemma edit_allowed_anti `{Unicode} policy policy' e :
  stricter policy policy' → edit_allowed policy' e → edit_allowed policy e.
Proof.
  unfold stricter, edit_allowed. intros (_ & H1 & H2 & H3 & Hf) (Ha & Hb & Hc).
  rewrite Hf. auto.
Qed.

(** Gating is monotone: a patch whose edits are among those of a patch
    that proceeds under a stricter policy proceeds too. *)
Theorem evaluate_patch_monotone `{Unicode} params params' policy policy' :
  stricter policy policy' → pap_edits params ⊆+ pap_edits params' →
  evaluate_patch params' policy' = Proceed → evaluate_patch params policy = Proceed.
Proof.
  rewrite !evaluate_patch_allowed. intros Hs Hsub [Hl Ha]. split.
  - apply submseteq_length in Hsub. destruct Hs as [? _]. unfold len in *. lia.
  - rewrite Forall_forall in Ha |- *. intros e He. eapply edit_allowed_anti; [done|].
    apply Ha. by eapply elem_of_submseteq.
Qed.

(** A test run is gated exactly when its scope is [make] in any case
    and its target, in lower case, is neither a built-in safe target nor one
    of the policy's extra ones. *)
Theorem evaluate_test_run_gates_iff `{Unicode} params policy :
  evaluate_test_run params policy ≠ Proceed ↔
  to_lowercase (trp_scope params) = "make" ∧
  ∃ target, trp_target params = Some target ∧
    (to_lowercase target ∉ SAFE_MAKE_TARGETS) ∧
    (to_lowercase target ∉ pol_extra_safe_make_targets policy).
Proof.
  unfold evaluate_test_run.
  destruct (trp_target params) as [t|]; [|naive_solver].
  destruct (String.eqb_spec (to_lowercase (trp_scope params)) "make") as [Hm|Hm];
    [|naive_solver].
  assert (existsb (λ x, x == to_lowercase t) (pol_extra_safe_make_targets policy) =
    bool_decide (to_lowercase t ∈ pol_extra_safe_make_targets policy)) as ->.
  { apply eq_iff_eq_true. rewrite existsb_exists, bool_decide_eq_true. split.
    - intros (x & Hin & ->%String.eqb_eq). by rewrite list_elem_of_In.
    - intros Hin. exists (to_lowercase t). by rewrite <- list_elem_of_In, String.eqb_refl. }
  unfold contains_elem. do 2 case_bool_decide; cbn; naive_solver.
Qed.

(** ** Concrete patches *)

Definition demo_edit (path operation : string) : PatchEdit :=
  mkPatchEdit path operation None None None "content" None None.

Lemma evaluate_patch_monotone_witness :
  evaluate_patch (H:=demo_unicode)
    (mkPatchApplyParams "r1" [demo_edit "src/b.rs" "create"]) RunPolicy_default = Proceed.
Proof.
  eapply (evaluate_patch_monotone (H:=demo_unicode) _
    (mkPatchApplyParams "r1" [demo_edit "src/a.rs" "create"; demo_edit "src/b.rs" "create"])
    RunPolicy_default (mkRunPolicy 2 true true true [] [])).
  - unfold stricter; cbn. split_and!; done.
  - cbn. apply submseteq_cons, submseteq_skip, submseteq_nil_l.
  - vm_compute. reflexivity.
Defined.

Example demo_delete_gated :
  evaluate_patch (H:=demo_unicode)
    (mkPatchApplyParams "r1" [demo_edit "src/b.rs" "delete"]) RunPolicy_default =
  RequiresApproval "Delete file: src/b.rs" "File deletion is destructive and irreversible"
    "Policy: file deletion requires approval".
Proof. vm_compute. reflexivity. Qed.

Example demo_sensitive_gated :
  evaluate_patch (H:=demo_unicode)
    (mkPatchApplyParams "r1" [demo_edit "config/.ENV.local" "create"]) RunPolicy_default =
  RequiresApproval "Edit sensitive file: config/.ENV.local"
    "Path 'config/.ENV.local' matches sensitive pattern '.env'"
    "Policy: sensitive file path requires approval".
Proof. vm_compute. reflexivity. Qed.
