(* ===== verification/Approval.v ===== *)
(** * Approvals (deterministic-core: approval.rs)

    Creation of a pending approval for a gated action, and its resolution by
    the operator.  The clock and the random part of the approval id are
    arguments. *)

From S2P Require Import Prelude RustStr Types Lifecycle Policy.

Definition create_approval (now uuid : string) (state : RunState)
    (action_description risk_reason policy_rationale : string) : PendingApproval * RunState :=
  let approval_id := "appr_" +:+ uuid in
  let state := set_rs_status "awaiting_approval" state in
  let state := set_rs_recommended_next_action
    (Some ("Approval required: " +:+ action_description +:+
           ". Use approve_action to approve or deny.")) state in
  let state := set_rs_recommended_tool (Some "approve_action") state in
  let state := set_rs_updated_at now state in
  ({| pa_approval_id := approval_id;
      pa_run_id := rs_run_id state;
      pa_action_description := action_description;
      pa_risk_reason := risk_reason;
      pa_policy_rationale := policy_rationale;
      pa_status := "pending";
      pa_created_at := now |}, state).

(** [opt.as_deref().map(|r| format!(": {r}")).unwrap_or_default()]. *)
Definition colon_reason (o : option string) : string :=
  match o with Some r => ": " +:+ r | None => "" end.

(** The advice once nothing is pending any more. *)
Definition unblocked_advice (ra : option RetryableAction) : string * string :=
  match ra with
  | Some ra =>
      if ra_is_valid ra then
        ("Retry the approved action: " +:+ ra_summary ra, ra_recommended_tool ra)
      else
        ("Previously gated action is no longer valid" +:+ colon_reason (ra_invalidation_reason ra)
         +:+ ". Consider replanning.", "replan_run")
  | None => ("Retry the previously gated action.", "refresh_run_state")
  end.

(** Marks a valid retryable action as recommended. *)
Definition recommend_retry (ra : RetryableAction) : RetryableAction :=
  if ra_is_valid ra then set_ra_is_recommended true ra else ra.

Definition invalidate_retry (reason : option string) (ra : RetryableAction) : RetryableAction :=
  let ra := set_ra_is_valid false ra in
  let ra := set_ra_is_recommended false ra in
  set_ra_invalidation_reason (Some ("Action denied" +:+ colon_reason reason)) ra.

(** The four texts the decision gives, and the state it leaves. *)
Definition resolve_decision (params : ApprovalResolveParams) (state : RunState)
    (remaining_pending_count : usize)
    : res (string * string * option string * option string * RunState) :=
  if arp_decision params == "approve" then
    let state := set_rs_retryable_action (recommend_retry <$> rs_retryable_action state) state in
    if (remaining_pending_count =? 0)%N then
      let state := set_rs_status "active" state in
      let '(action_text, tool) := unblocked_advice (rs_retryable_action state) in
      let state := set_rs_recommended_next_action (Some action_text) state in
      let state := set_rs_recommended_tool (Some tool) state in
      Ok ("active", "Approval granted; run unblocked.", Some action_text, Some tool, state)
    else
      let text := "Resolve remaining " +:+ pretty remaining_pending_count +:+
                  " pending approval(s)." in
      let state := set_rs_recommended_next_action (Some text) state in
      let state := set_rs_recommended_tool (Some "approve_action") state in
      Ok ("awaiting_approval",
          "Approval granted; " +:+ pretty remaining_pending_count +:+
          " approval(s) still pending.", Some text, Some "approve_action", state)
  else if arp_decision params == "deny" then
    let state := set_rs_retryable_action
      (invalidate_retry (arp_reason params) <$> rs_retryable_action state) state in
    let state := set_rs_status "blocked" state in
    let text := "Replan the run to work around the denied action." in
    let state := set_rs_recommended_next_action (Some text) state in
    let state := set_rs_recommended_tool (Some "replan_run") state in
    Ok ("blocked", "Approval denied" +:+ colon_reason (arp_reason params) +:+ "; run blocked.",
        Some text, Some "replan_run", state)
  else
    Err ("invalid decision '" +:+ arp_decision params +:+ "': must be 'approve' or 'deny'").

Definition resolve (now : string) (params : ApprovalResolveParams) (state : RunState)
    (remaining_pending_count : usize) : res (ApprovalResolveResult * RunState) :=
  '(new_status, summary, rec_action, rec_tool, state) ←
    resolve_decision params state remaining_pending_count;
  let state := set_rs_updated_at now state in
  Ok ({| arr_approval_id := arp_approval_id params;
         arr_run_id := arp_run_id params;
         arr_decision := arp_decision params;
         arr_status := new_status;
         arr_summary := summary;
         arr_recommended_next_action := rec_action;
         arr_recommended_tool := rec_tool;
         arr_retryable_action := rs_retryable_action state |}, state).

(** ** Properties *)

(** What the approvals can change of a run: everything else is equal. *)
Definition approval_frame (s s' : RunState) : Prop :=
  s' = set_rs_updated_at (rs_updated_at s')
        (set_rs_recommended_tool (rs_recommended_tool s')
          (set_rs_recommended_next_action (rs_recommended_next_action s')
            (set_rs_retryable_action (rs_retryable_action s')
              (set_rs_status (rs_status s') s)))).

#[export] Instance approval_frame_preorder : PreOrder approval_frame.
Proof.
  split; [intros []; reflexivity|]. unfold approval_frame. intros x y z -> ->.
  by destruct x.
Qed.

Lemma create_approval_frame now uuid s a b c :
  approval_frame s (snd (create_approval now uuid s a b c)).
Proof. by destruct s. Qed.

Lemma resolve_cases now p s n r s' :
  resolve now p s n = Ok (r, s') →
  approval_frame s s' ∧ rs_updated_at s' = now ∧ arr_retryable_action r = rs_retryable_action s' ∧
  arr_recommended_next_action r = rs_recommended_next_action s' ∧
  ((arp_decision p = "approve" ∧
    rs_retryable_action s' = recommend_retry <$> rs_retryable_action s ∧
    ((n = 0%N ∧ rs_status s' = "active" ∧ arr_status r = "active") ∨
     (n ≠ 0%N ∧ rs_status s' = rs_status s ∧ arr_status r = "awaiting_approval"))) ∨
   (arp_decision p = "deny" ∧ rs_status s' = "blocked" ∧ arr_status r = "blocked" ∧
    rs_retryable_action s' = invalidate_retry (arp_reason p) <$> rs_retryable_action s)).
Proof.
  unfold resolve, resolve_decision. intros E.
  apply res_bind_Ok in E as ([[[[st su] ra] rt] s1] & Hd & E). injection E as <- <-.
  destruct (String.eqb_spec (arp_decision p) "approve") as [Ha|Ha].
  - destruct (N.eqb_spec n 0) as [Hn|Hn].
    + destruct (unblocked_advice _) as [t u]. simplify_eq/=.
      split; [by destruct s|]. split_and!; try done. left. auto 10.
    + simplify_eq/=. split; [by destruct s|]. split_and!; try done. left. auto 10.
  - destruct (String.eqb_spec (arp_decision p) "deny") as [Hy|Hy]; [|done].
    simplify_eq/=. split; [by destruct s|]. split_and!; try done. right. auto.
Qed.

(** Resolving an approval touches the status, the advice, the retryable
    action and the time of update only.  A denial blocks the run and
    invalidates its retryable action; an approval recommends a valid one and
    makes the run active exactly when no approval is left pending. *)
Theorem resolve_spec now p s n r s' :
  resolve now p s n = Ok (r, s') →
  approval_frame s s' ∧ arr_retryable_action r = rs_retryable_action s' ∧
  (arp_decision p = "deny" →
     rs_status s' = "blocked" ∧
     ∀ ra, rs_retryable_action s' = Some ra → ra_is_valid ra = false ∧ ra_is_recommended ra = false) ∧
  (arp_decision p = "approve" →
     rs_status s' = (if (n =? 0)%N then "active" else rs_status s) ∧
     ∀ ra, rs_retryable_action s = Some ra → ra_is_valid ra = true →
       rs_retryable_action s' = Some (set_ra_is_recommended true ra)).
Proof.
  intros E. apply resolve_cases in E as (Hf & _ & Hr & _ & Hc).
  split; [done|]. split; [done|].
  destruct Hc as [(Hd & Hra & Hc)|(Hd & Hst & _ & Hra)]; rewrite Hd; split; try done.
  - intros _. split.
    + by destruct Hc as [(-> & -> & _)|(?%N.eqb_neq & -> & _)]; [|by case_match; simplify_eq].
    + intros ra Es Hv. rewrite Hra, Es. cbn. unfold recommend_retry. by rewrite Hv.
  - intros _. split; [done|]. intros ra. rewrite Hra.
    destruct (rs_retryable_action s); [|done]. by intros [= <-].
Qed.

(** Any text but [approve] and [deny] is an error; those two always succeed. *)
Lemma resolve_ok_iff now p s n :
  is_ok (resolve now p s n) =
  (arp_decision p == "approve") || (arp_decision p == "deny").
Proof.
  unfold resolve, resolve_decision.
  destruct (arp_decision p == "approve"); [|by destruct (arp_decision p == "deny")].
  destruct (n =? 0)%N; [|done]. by destruct (unblocked_advice _).
Qed.

Lemma resolve_valid now p s n :
  arp_decision p = "approve" ∨ arp_decision p = "deny" → is_ok (resolve now p s n) = true.
Proof. intros Hd. rewrite resolve_ok_iff. by destruct Hd as [->| ->]. Qed.

(** A denied action stays denied: approvals after a denial make the run
    active again, but they do not recommend the retry. *)
Theorem deny_is_final now1 now2 p q s n r1 s1 r2 s2 :
  arp_decision p = "deny" → arp_decision q = "approve" →
  resolve now1 p s n = Ok (r1, s1) → resolve now2 q s1 0 = Ok (r2, s2) →
  rs_status s2 = "active" ∧ rs_retryable_action s2 = rs_retryable_action s1 ∧
  (is_Some (rs_retryable_action s) → rs_recommended_tool s2 = Some "replan_run").
Proof.
  intros Hp Hq E1 E2. pose proof E2 as E2'.
  apply resolve_cases in E1 as (_ & _ & _ & _ & [(Hp' & _)|(_ & _ & _ & Hra1)]); [congruence|].
  apply resolve_cases in E2 as (_ & _ & _ & _ & [(_ & Hra2 & Hc)|(Hq' & _)]); [|congruence].
  destruct Hc as [(_ & Hst & _)|(? & _)]; [|done].
  assert (recommend_retry <$> rs_retryable_action s1 = rs_retryable_action s1) as Hid.
  { rewrite Hra1. by destruct (rs_retryable_action s). }
  split; [done|]. split; [by rewrite Hra2|]. intros [ra Hra].
  unfold resolve, resolve_decision in E2'. rewrite Hq in E2'. cbn in E2'.
  rewrite Hra1, Hra in E2'. cbn in E2'. by simplify_eq/=.
Qed.

(** ** Concrete approvals *)

Definition demo_gated : RunState := Eval vm_compute in
  set_rs_retryable_action
    (Some (mkRetryableAction "patch.apply" "Delete file: a.rs" None "gated" true false None
             "apply_patch" "t1"))
    (snd (create_approval "t1" "u1" demo_run "Delete file: a.rs" "risk" "policy")).

Definition demo_deny : ApprovalResolveParams :=
  mkApprovalResolveParams "r1" "appr_u1" "deny" (Some "no").
Definition demo_approve : ApprovalResolveParams :=
  mkApprovalResolveParams "r1" "appr_u1" "approve" None.

Definition demo_denied : ApprovalResolveResult * RunState := Eval vm_compute in
  match resolve "t2" demo_deny demo_gated 1
    as x return match x with Ok _ => ApprovalResolveResult * RunState | _ => () end%type
  with Ok x => x | _ => () end.

Definition demo_reactivated : ApprovalResolveResult * RunState := Eval vm_compute in
  match resolve "t3" demo_approve (snd demo_denied) 0
    as x return match x with Ok _ => ApprovalResolveResult * RunState | _ => () end%type
  with Ok x => x | _ => () end.

Lemma resolve_spec_witness :
  rs_status (snd demo_denied) = "blocked" ∧ approval_frame demo_gated (snd demo_denied).
Proof.
  destruct (resolve_spec "t2" demo_deny demo_gated 1 (fst demo_denied) (snd demo_denied))
    as (Hf & _ & Hd & _).
  - vm_compute. reflexivity.
  - split; [|exact Hf]. by destruct (Hd eq_refl).
Defined.

Lemma deny_is_final_witness :
  rs_status (snd demo_reactivated) = "active" ∧
  rs_recommended_tool (snd demo_reactivated) = Some "replan_run".
Proof.
  destruct (deny_is_final "t2" "t3" demo_deny demo_approve demo_gated 1 (fst demo_denied)
    (snd demo_denied) (fst demo_reactivated) (snd demo_reactivated)) as (H1 & _ & H2);
    [reflexivity..|].
  split; [exact H1|]. apply H2. by eexists.
Defined.
