(* ===== verification/Dates.v ===== *)
(** * Due dates (deterministic-core: run_set_due_date.rs)

    The harness keeps a due date as its text and compares texts.  This file
    shows what the validation accepts and that comparing accepted texts is
    comparing dates. *)

From S2P Require Import Prelude RustStr Types Lifecycle Organize.

(** ** The text of a date *)

Definition digit (n : N) : ascii := ascii_of_N (48 + n).

Definition date_str (y m d : N) : string :=
  String (digit (y / 1000)) (String (digit (y / 100 mod 10))
  (String (digit (y / 10 mod 10)) (String (digit (y mod 10)) (String "-"%char
  (String (digit (m / 10)) (String (digit (m mod 10)) (String "-"%char
  (String (digit (d / 10)) (String (digit (d mod 10)) ""))))))))).

Definition date_ok (y m d : N) : Prop :=
  (y < 10000 ∧ 1 <= m <= 12 ∧ 1 <= d <= 31)%N.

(** The number a date's digits spell. *)
Definition date_key (y m d : N) : N := (y * 10000 + m * 100 + d)%N.

Ltac lia_div := zify; Z.to_euclidean_division_equations; lia.

(** ** Digits *)

Lemma byte_digit n : (n < 10)%N → byte (digit n) = (48 + n)%N.
Proof. intros. apply N_ascii_embedding. lia. Qed.

Lemma is_digit_digit n : (n < 10)%N → is_ascii_digit (digit n) = true.
Proof.
  intros Hn. unfold is_ascii_digit, in_range. rewrite byte_digit by done.
  apply andb_true_iff. rewrite !N.leb_le. lia.
Qed.

Lemma digit_inv a : is_ascii_digit a = true → ∃ n, (n < 10)%N ∧ a = digit n.
Proof.
  unfold is_ascii_digit, in_range. rewrite andb_true_iff, !N.leb_le. intros [??].
  exists (byte a - 48)%N. split; [lia|]. unfold digit.
  replace (48 + (byte a - 48))%N with (byte a) by lia. symmetry. apply ascii_N_embedding.
Qed.

Lemma digit_value_digit n : (n < 10)%N → digit_value (digit n) = Some n.
Proof.
  intros Hn. unfold digit_value. rewrite is_digit_digit, byte_digit by done.
  f_equal. lia.
Qed.

Lemma digit_not_plus n : (n < 10)%N → Ascii.eqb (digit n) "+"%char = false.
Proof.
  intros Hn. apply Ascii.eqb_neq. intros E. apply (f_equal byte) in E.
  rewrite byte_digit in E by done. change (byte "+"%char) with 43%N in E. lia.
Qed.

(** Two digits read back as their number. *)
Lemma parse_two_digits a b :
  (a < 10)%N → (b < 10)%N →
  parse_uint u32_max (String (digit a) (String (digit b) "")) = Some (a * 10 + b)%N.
Proof.
  intros Ha Hb. unfold parse_uint. rewrite digit_not_plus by done. cbn [str_is_empty String.eqb].
  unfold str_is_empty. cbn [String.eqb digits_value].
  rewrite !digit_value_digit by done. cbn [mbind option_bind].
  replace ((0 * 10 + a) * 10 + b)%N with (a * 10 + b)%N by lia.
  rewrite (proj2 (N.leb_le _ _)); [done|]. unfold u32_max. lia.
Qed.

Lemma two_digits_at a b p q n :
  (a < 10)%N → (b < 10)%N → String.length p = n →
  two_digits (p +:+ String (digit a) (String (digit b) q)) n = (a * 10 + b)%N.
Proof.
  intros Ha Hb <-. unfold two_digits. rewrite str_drop_app. cbn [str_take].
  by rewrite parse_two_digits.
Qed.

(** ** Validation *)

Definition date_char (a : ascii) : bool := is_ascii_digit a || (byte a =? 45)%N.

Lemma date_char_plain : plain_class date_char.
Proof.
  intros a Ha. unfold date_char in Ha.
  assert (45 <= byte a <= 57)%N as Hr.
  { unfold is_ascii_digit, in_range in Ha. rewrite orb_true_iff, andb_true_iff, !N.leb_le, N.eqb_eq in Ha. lia. }
  split_and!.
  - apply N.ltb_lt. lia.
  - unfold ascii_lower, in_range. destruct (N.leb_spec 65 (byte a)); [lia|done].
  - unfold ws1, in_range. destruct (N.leb_spec (byte a) 13), (N.eqb_spec (byte a) 32); lia.
Qed.

Lemma date_str_chars y m d : date_ok y m d → str_forall date_char (date_str y m d) = true.
Proof.
  unfold date_ok. intros Ho. unfold date_str. cbn [str_forall]. unfold date_char.
  rewrite !is_digit_digit by lia_div. done.
Qed.

Lemma dash_inv a : byte a = 45%N → a = "-"%char.
Proof. intros Ha. rewrite <- (ascii_N_embedding a). unfold byte in Ha. by rewrite Ha. Qed.

(** A string of ten bytes that passes the position checks. *)
Lemma date_shape s :
  String.length s = 10 → byte_is s 4 45 = true → byte_is s 7 45 = true →
  first_non_digit s = None →
  ∃ a b c e f g h i, Forall (λ n, (n < 10)%N) [a; b; c; e; f; g; h; i] ∧
    s = String (digit a) (String (digit b) (String (digit c) (String (digit e) (String "-"%char
      (String (digit f) (String (digit g) (String "-"%char
      (String (digit h) (String (digit i) ""))))))))).
Proof.
  intros Hl H4 H7 Hd.
  do 10 (destruct s as [|? s]; [discriminate Hl|]). destruct s; [|discriminate Hl].
  unfold first_non_digit in Hd. apply find_first_None in Hd.
  unfold digit_positions in Hd. rewrite !Forall_cons in Hd. cbn in Hd, H4, H7.
  repeat match type of Hd with
  | _ ∧ _ => let H := fresh in destruct Hd as [H Hd]; apply negb_false_iff, digit_inv in H as (? & ? & ->)
  end.
  apply N.eqb_eq in H4, H7.
  apply dash_inv in H4 as ->. apply dash_inv in H7 as ->.
  do 8 eexists. split; [|reflexivity]. by repeat constructor.
Qed.

(** The validation accepts exactly the texts of dates: after trimming,
    four, two and two digits with dashes between, month 1 to 12 and day 1 to
    31; the accepted text is the trimmed one. *)
Lemma validate_due_date_iff s t :
  validate_due_date s = Ok t ↔
  t = trim s ∧ ∃ y m d, date_ok y m d ∧ t = date_str y m d.
Proof.
  unfold validate_due_date. split.
  - intros Hv.
    destruct (Nat.eqb_spec (String.length (trim s)) 10) as [Hl|]; [|discriminate Hv]. cbn [negb] in Hv.
    destruct (byte_is (trim s) 4 45) eqn:H4; [|discriminate Hv].
    destruct (byte_is (trim s) 7 45) eqn:H7; [|discriminate Hv]. cbn [negb orb] in Hv.
    destruct (first_non_digit (trim s)) eqn:Hd; [discriminate Hv|].
    destruct (date_shape (trim s)) as (a & b & c & e & f & g & h & i & Hr & E); [done..|].
    rewrite !Forall_cons in Hr. destruct Hr as (?&?&?&?&?&?&?&?&_).
    rewrite E in Hv. rewrite E.
    pose proof (two_digits_at f g (String (digit a) (String (digit b) (String (digit c)
      (String (digit e) (String "-"%char ""))))) (String "-"%char
      (String (digit h) (String (digit i) ""))) 5) as E1.
    pose proof (two_digits_at h i (String (digit a) (String (digit b) (String (digit c)
      (String (digit e) (String "-"%char (String (digit f) (String (digit g) (String "-"%char ""))))))))
      "" 8) as E2.
    unfold String.append in E1, E2. rewrite E1, E2 in Hv by done.
    destruct (N.leb_spec 1 (f * 10 + g)), (N.leb_spec (f * 10 + g) 12),
      (N.leb_spec 1 (h * 10 + i)), (N.leb_spec (h * 10 + i) 31); try discriminate Hv.
    injection Hv as <-. split; [done|].
    exists (a * 1000 + b * 100 + c * 10 + e)%N, (f * 10 + g)%N, (h * 10 + i)%N.
    split; [unfold date_ok; lia|]. unfold date_str.
    repeat (f_equal; try (f_equal; lia_div)).
  - intros (Ht & y & m & d & Ho & E). rewrite <- Ht, E. unfold date_ok in Ho.
    pose proof (two_digits_at (m / 10) (m mod 10) (String (digit (y / 1000))
      (String (digit (y / 100 mod 10)) (String (digit (y / 10 mod 10)) (String (digit (y mod 10))
      (String "-"%char ""))))) (String "-"%char
      (String (digit (d / 10)) (String (digit (d mod 10)) ""))) 5) as E1.
    pose proof (two_digits_at (d / 10) (d mod 10) (String (digit (y / 1000))
      (String (digit (y / 100 mod 10)) (String (digit (y / 10 mod 10)) (String (digit (y mod 10))
      (String "-"%char (String (digit (m / 10)) (String (digit (m mod 10)) (String "-"%char ""))))))))
      "" 8) as E2.
    unfold String.append in E1, E2. fold (date_str y m d) in E1, E2.
    rewrite E1, E2 by (lia_div || done).
    assert (first_non_digit (date_str y m d) = None) as ->.
    { unfold first_non_digit. apply find_first_None. repeat constructor; cbn;
        apply negb_false_iff, is_digit_digit; lia_div. }
    replace (m / 10 * 10 + m mod 10)%N with m by lia_div.
    replace (d / 10 * 10 + d mod 10)%N with d by lia_div. cbn [String.length date_str].
    change ((10 =? 10)%nat) with true. cbn.
    destruct (N.leb_spec 1 m), (N.leb_spec m 12), (N.leb_spec 1 d), (N.leb_spec d 31); lia || done.
Qed.

(** ** Comparison *)

Lemma str_le_digit a b s t :
  (a < 10)%N → (b < 10)%N →
  str_le (String (digit a) s) (String (digit b) t) ↔ (a < b)%N ∨ (a = b ∧ str_le s t).
Proof.
  intros. rewrite str_le_cons, !byte_digit by done.
  assert (48 + a < 48 + b ↔ a < b)%N as -> by lia.
  assert (48 + a = 48 + b ↔ a = b)%N as -> by lia. done.
Qed.

Lemma str_le_dash s t : str_le (String "-"%char s) (String "-"%char t) ↔ str_le s t.
Proof. rewrite str_le_cons. split; [intros [?|[_ ?]]; [lia|done]|auto]. Qed.

Lemma str_lt_not_le a b : str_lt a b = negb (str_le b a).
Proof.
  unfold str_lt, str_le, String.ltb, String.leb. rewrite (String.compare_antisym a b).
  by destruct (String.compare b a).
Qed.

(** Comparing by tens and then by units is comparing the number. *)
Lemma lex_digit (q q' : N) (P : Prop) :
  (q / 10 < q' / 10)%N ∨ (q / 10 = q' / 10)%N ∧
    ((q mod 10 < q' mod 10)%N ∨ (q mod 10 = q' mod 10)%N ∧ P) ↔
  (q < q')%N ∨ q = q' ∧ P.
Proof.
  pose proof (N.div_mod' q 10) as E. pose proof (N.mod_lt q 10 ltac:(done)) as L.
  pose proof (N.div_mod' q' 10) as E'. pose proof (N.mod_lt q' 10 ltac:(done)) as L'.
  generalize dependent (q mod 10)%N. generalize dependent (q' mod 10)%N.
  generalize (q / 10)%N (q' / 10)%N. intros a b c E' L' d E L. split.
  - intros [?|[? [?|[? HP]]]]; [left; lia|left; lia|right]. split; [lia|done].
  - intros [?|[? HP]]; [|assert (a = b ∧ d = c) as [-> ->] by lia; auto].
    destruct (N.lt_trichotomy a b) as [?|[?|?]]; [auto|right|exfalso; lia].
    split; [done|left; lia].
Qed.

(** Comparing the texts of two dates is comparing the dates by
    year, month and day. *)
Lemma date_str_order y m d y' m' d' :
  date_ok y m d → date_ok y' m' d' →
  (str_lt (date_str y m d) (date_str y' m' d') = true ↔
   (y < y' ∨ (y = y' ∧ (m < m' ∨ (m = m' ∧ d < d'))))%N).
Proof.
  intros H1 H2. unfold date_ok in *. rewrite str_lt_not_le, negb_true_iff, <- not_true_iff_false.
  rewrite <- Is_true_true. unfold date_str.
  rewrite !str_le_digit, str_le_dash, !str_le_digit, str_le_dash, !str_le_digit by lia_div.
  change (Is_true (str_le "" "")) with True.
  replace (y / 1000)%N with (y / 10 / 10 / 10)%N by lia_div.
  replace (y' / 1000)%N with (y' / 10 / 10 / 10)%N by lia_div.
  replace (y / 100)%N with (y / 10 / 10)%N by lia_div.
  replace (y' / 100)%N with (y' / 10 / 10)%N by lia_div.
  rewrite !lex_digit. lia.
Qed.

(** An accepted due date is, trimmed, four, two and two digits with
    dashes between, month 1 to 12 and day 1 to 31; the text stored is the
    trimmed one and is accepted again with any blanks around it; and comparing
    two stored texts, as sorts and overdue tests do, compares the dates by
    year, month and day. *)
Theorem due_dates_compare s s' t t' :
  validate_due_date s = Ok t → validate_due_date s' = Ok t' →
  t = trim s ∧ t' = trim s' ∧ ∃ y m d y' m' d',
    date_ok y m d ∧ t = date_str y m d ∧ date_ok y' m' d' ∧ t' = date_str y' m' d' ∧
    (str_lt t t' = true ↔ (y < y' ∨ (y = y' ∧ (m < m' ∨ (m = m' ∧ d < d'))))%N) ∧
    ∀ u, trim u = t → validate_due_date u = Ok t.
Proof.
  intros (-> & y & m & d & Hd & ->)%validate_due_date_iff
    (-> & y' & m' & d' & Hd' & ->)%validate_due_date_iff.
  do 2 (split; [done|]). exists y, m, d, y', m', d'. split_and!; try done.
  - by apply date_str_order.
  - intros u Hu. apply validate_due_date_iff. eauto 10.
Qed.

Lemma due_dates_compare_witness :
  "2024-09-30" = trim " 2024-09-30" ∧ "2024-10-01" = trim "2024-10-01" ∧
  str_lt "2024-09-30" "2024-10-01" = true.
Proof.
  destruct (due_dates_compare " 2024-09-30" "2024-10-01" "2024-09-30" "2024-10-01")
    as (E1 & E2 & _); [vm_compute; reflexivity..|].
  split; [exact E1|]. split; [exact E2|]. vm_compute. reflexivity.
Defined.

Example demo_due_date : validate_due_date " 2024-02-31 " = Ok "2024-02-31".
Proof. vm_compute. reflexivity. Qed.
