(* ===== verification/Derive.v ===== *)
(** * Derived summaries (deterministic-core: run_readiness.rs,
    run_staleness.rs, run_triage.rs)

    Readiness, staleness and triage are computed from a run's fields and a
    reference date.  Parsing of a date is chrono's ([NaiveDate::parse_from_str]
    with ["%Y-%m-%d"]); [parse_ymd] stands for it and gives the day number,
    so that the difference of two dates in days is a subtraction. *)

From S2P Require Import Prelude RustStr Types Lifecycle Organize Dates.

Class Chrono := parse_ymd : string → option i64.

(** ** Readiness and attention *)

Record RunReadinessSummary := mkRunReadinessSummary {
  is_ready : bool;
  readiness_reason : option string;
  needs_attention : bool;
  attention_reason : option string
}.

Definition derive_readiness (status : string) (is_archived is_snoozed : bool)
    (blocked_by_count : usize) (priority : RunPriority) (due_date : option string)
    (is_pinned : bool) (today : option string) : RunReadinessSummary :=
  let '(is_ready, readiness_reason) :=
    if is_archived then (false, Some "archived")
    else if starts_with status "finalized:" then (false, Some "finalized")
    else if is_snoozed then (false, Some "snoozed")
    else if (0 <? blocked_by_count)%N then
      (false, Some (if (blocked_by_count =? 1)%N then "blocked by 1 run"
                    else "blocked by " +:+ pretty blocked_by_count +:+ " runs"))
    else (true, None) in
  let visible := negb is_archived && negb is_snoozed && negb (starts_with status "finalized:") in
  let attention_reasons :=
    (if visible then
       (if bool_decide (priority = Urgent) && is_ready then ["urgent"] else []) ++
       (if is_pinned && (0 <? blocked_by_count)%N then ["pinned and blocked"] else [])
     else []) ++
    (if visible then
       match due_date, today with
       | Some due, Some today_val => if str_lt due today_val then ["overdue"] else []
       | _, _ => []
       end
     else []) in
  let needs_attention := negb (bool_decide (attention_reasons = [])) in
  {| is_ready := is_ready;
     readiness_reason := readiness_reason;
     needs_attention := needs_attention;
     attention_reason :=
       if needs_attention then Some (join ", " attention_reasons) else None |}.

(** ** Staleness *)

Record RunStalenessSummary := mkRunStalenessSummary {
  age_days : usize;
  is_stale : bool;
  staleness_reason : string;
  staleness_bucket : RunStaleness
}.

Definition compute_age_days `{Chrono} (updated_at reference_date : string) : usize :=
  match parse_ymd reference_date with
  | None => 0%N
  | Some ref_date =>
      let updated_date_str := split_first "T"%char updated_at in
      match parse_ymd updated_date_str with
      | None => 0%N
      | Some updated_date =>
          let days := (ref_date - updated_date)%Z in
          if (days <? 0)%Z then 0%N else Z.to_N days
      end
  end.

Definition derive_staleness `{Chrono} (updated_at reference_date : string)
    : RunStalenessSummary :=
  let age := compute_age_days updated_at reference_date in
  let '(bucket, reason, stale) :=
    if (age <=? 3)%N then (Fresh, "updated " +:+ pretty age +:+ " day(s) ago", false)
    else if (age <=? 7)%N then (Aging, "updated " +:+ pretty age +:+ " days ago", false)
    else (Stale, "stale: " +:+ pretty age +:+ " days since update", true) in
  {| age_days := age; is_stale := stale; staleness_reason := reason;
     staleness_bucket := bucket |}.

(** ** Triage *)

Record RunTriageSummary := mkRunTriageSummary {
  triage_bucket : RunTriageBucket;
  triage_reason : string
}.

Definition is_past_due `{Chrono} (due_date reference_date : string) : bool :=
  match parse_ymd reference_date with
  | None => false
  | Some ref_date =>
      match parse_ymd due_date with
      | None => false
      | Some due => (due <? ref_date)%Z
      end
  end.

Definition derive_triage `{Chrono} (status : string) (is_archived is_snoozed is_blocked : bool)
    (priority : string) (due_date : option string) (staleness_bucket : option RunStaleness)
    (reference_date : string) : RunTriageSummary :=
  let is_overdue :=
    match due_date with Some due => is_past_due due reference_date | None => false end in
  let is_stale := bool_decide (staleness_bucket = Some Stale) in
  if is_archived || starts_with status "finalized:" then
    mkRunTriageSummary Done "archived or finalized"
  else if is_snoozed then mkRunTriageSummary Deferred "snoozed"
  else if is_blocked then mkRunTriageSummary Blocked "has blocking dependencies"
  else if (priority == "urgent") && (is_overdue || is_stale) then
    mkRunTriageSummary Critical
      (if is_overdue && is_stale then "urgent, overdue, and stale"
       else if is_overdue then "urgent and overdue" else "urgent and stale")
  else if (priority == "urgent") || str_contains status "attention" || str_contains status "waiting"
  then
    mkRunTriageSummary Attention
      (if priority == "urgent" then "urgent priority" else "needs attention")
  else if negb is_blocked && negb (priority == "urgent") && negb is_stale && negb is_snoozed then
    mkRunTriageSummary Ready "ready to proceed"
  else mkRunTriageSummary Deferred "no specific priority".

(** ** Properties *)

Definition visible (status : string) (is_archived is_snoozed : bool) : Prop :=
  is_archived = false ∧ is_snoozed = false ∧ starts_with status "finalized:" = false.

(** A run is ready exactly when it is visible (not archived, snoozed or
    finalized) and nothing blocks it, and a reason is given exactly when it
    is not ready.  It needs attention exactly when it is visible and is
    urgent and unblocked, or pinned and blocked, or past its due date; the
    reason is given exactly then. *)
Theorem derive_readiness_spec status ar sn n prio due pinned today :
  let r := derive_readiness status ar sn n prio due pinned today in
  (is_ready r = true ↔ visible status ar sn ∧ n = 0%N) ∧
  (is_ready r = true ↔ readiness_reason r = None) ∧
  (needs_attention r = true ↔ visible status ar sn ∧
     ((prio = Urgent ∧ n = 0%N) ∨ (pinned = true ∧ n ≠ 0%N) ∨
      ∃ d t, due = Some d ∧ today = Some t ∧ str_lt d t = true)) ∧
  (needs_attention r = true ↔ is_Some (attention_reason r)).
Proof.
  intros r. subst r. assert ((∃ d t, due = Some d ∧ today = Some t ∧ str_lt d t = true) ↔
    match due, today with Some d, Some t => str_lt d t | _, _ => false end = true) as ->
    by (destruct due, today; naive_solver).
  set (od := match due, today with Some d, Some t => str_lt d t | _, _ => false end).
  unfold derive_readiness, visible.
  assert (match due, today with
          | Some d, Some t => if str_lt d t then ["overdue"] else []
          | _, _ => [] end = if od then ["overdue"] else []) as ->.
  { subst od. by destruct due, today. }
  rewrite is_Some_alt.
  destruct ar, sn, (starts_with status "finalized:"); cbn; try (intuition congruence).
  destruct (N.ltb_spec 0 n) as [Hn|Hn]; [assert (n ≠ 0%N) by lia|assert (n = 0%N) by lia];
    destruct (bool_decide_reflect (prio = Urgent)), pinned, od; cbn; intuition congruence.
Qed.

(** The age is the number of days from the date of the last update to
    the reference date, never negative, and 0 when a date does not parse;
    four to seven days are aging, more are stale, and only stale runs are
    flagged. *)
Theorem derive_staleness_spec `{Chrono} upd ref :
  let r := derive_staleness upd ref in
  (∀ a b, parse_ymd (split_first "T"%char upd) = Some a → parse_ymd ref = Some b →
     Z.of_N (age_days r) = Z.max 0 (b - a)) ∧
  (parse_ymd (split_first "T"%char upd) = None ∨ parse_ymd ref = None → age_days r = 0%N) ∧
  (staleness_bucket r = Fresh ↔ (age_days r <= 3)%N) ∧
  (staleness_bucket r = Aging ↔ (3 < age_days r <= 7)%N) ∧
  (staleness_bucket r = Stale ↔ (7 < age_days r)%N) ∧
  (is_stale r = true ↔ staleness_bucket r = Stale).
Proof.
  cbn zeta. assert (age_days (derive_staleness upd ref) = compute_age_days upd ref) as ->.
  { unfold derive_staleness. by repeat case_match. }
  split_and!.
  - intros a b Ha Hb. unfold compute_age_days. rewrite Ha, Hb. case_match; lia.
  - unfold compute_age_days. intros [->| ->]; [by case_match|done].
  - unfold derive_staleness. destruct (N.leb_spec (compute_age_days upd ref) 3); [done|].
    destruct (N.leb_spec (compute_age_days upd ref) 7); cbn; split; done || lia.
  - unfold derive_staleness. destruct (N.leb_spec (compute_age_days upd ref) 3); [cbn; split; done || lia|].
    destruct (N.leb_spec (compute_age_days upd ref) 7); cbn; split; done || lia.
  - unfold derive_staleness. destruct (N.leb_spec (compute_age_days upd ref) 3); [cbn; split; done || lia|].
    destruct (N.leb_spec (compute_age_days upd ref) 7); cbn; split; done || lia.
  - unfold derive_staleness. repeat case_match; simplify_eq; cbn; intuition congruence.
Qed.

(** The triage bucket by precedence: done, deferred, blocked, critical,
    attention, and for what is left ready or, when stale, deferred. *)
Theorem derive_triage_spec `{Chrono} status ar sn bl prio due st ref :
  let b := triage_bucket (derive_triage status ar sn bl prio due st ref) in
  let overdue := ∃ d, due = Some d ∧ is_past_due d ref = true in
  let waiting := str_contains status "attention" = true ∨ str_contains status "waiting" = true in
  (b = Done ↔ ar = true ∨ starts_with status "finalized:" = true) ∧
  (b = Blocked ↔ visible status ar sn ∧ bl = true) ∧
  (b = Critical ↔ visible status ar sn ∧ bl = false ∧ prio = "urgent" ∧
     (overdue ∨ st = Some Stale)) ∧
  (b = Attention ↔ visible status ar sn ∧ bl = false ∧
     ((prio = "urgent" ∧ ¬ overdue ∧ st ≠ Some Stale) ∨ (prio ≠ "urgent" ∧ waiting))) ∧
  (b = Ready ↔ visible status ar sn ∧ bl = false ∧ prio ≠ "urgent" ∧ ¬ waiting ∧
     st ≠ Some Stale) ∧
  (b = Deferred ↔ ar = false ∧ starts_with status "finalized:" = false ∧
     (sn = true ∨ (bl = false ∧ prio ≠ "urgent" ∧ ¬ waiting ∧ st = Some Stale))).
Proof.
  intros b overdue waiting. subst b.
  assert (overdue ↔ match due with Some d => is_past_due d ref | None => false end = true) as ->.
  { subst overdue. destruct due; naive_solver. }
  subst waiting. unfold derive_triage, visible.
  destruct ar; [cbn; intuition congruence|].
  destruct (starts_with status "finalized:"); [cbn; intuition congruence|].
  destruct sn; [cbn; intuition congruence|]. destruct bl; [cbn; intuition congruence|].
  destruct (match due with Some d => is_past_due d ref | None => false end),
    (str_contains status "attention"), (str_contains status "waiting");
    case_bool_decide; destruct (String.eqb_spec prio "urgent"); cbn; intuition congruence.
Qed.

Example demo_readiness :
  derive_readiness "active" false false 0 Urgent (Some "2024-01-01") true (Some "2024-01-02") =
  mkRunReadinessSummary true None true (Some "urgent, overdue").
Proof. vm_compute. reflexivity. Qed.
