(* ===== verification/Os.v ===== *)
(** * Paths, bytes and the operating system

    What the harness uses of [std::path], [String::from_utf8_lossy],
    [std::fs] and [std::process].  Paths and the decoding of bytes are
    computed; the file system and the processes are the fields of [Os], whose
    state is threaded through every call that can change it. *)

From S2P Require Import Prelude RustStr Lifecycle.

(** ** [std::path] on Unix *)

Definition slash : ascii := "/"%char.

(** The pieces between slashes. *)
Fixpoint split_slash (s : string) : list string :=
  match s with
  | EmptyString => [""]
  | String a s' =>
      if Ascii.eqb a slash then "" :: split_slash s'
      else match split_slash s' with
           | [] => [String a ""]
           | p :: ps => String a p :: ps
           end
  end.

Definition has_root (path : string) : bool := starts_with path "/".

(** A leading [.] is a component of a relative path. *)
Definition include_cur_dir (path : string) : bool :=
  (path == ".") || starts_with path "./".

(** The bytes before the body, and the pieces of the body. *)
Definition path_body (path : string) : string * list string :=
  if has_root path then ("/", split_slash (str_drop 1 path))
  else if include_cur_dir path then (".", split_slash (str_drop 1 path))
  else ("", split_slash path).

(** Pieces that are no component. *)
Definition no_component (p : string) : bool := (p == "") || (p == ".").

Fixpoint drop_no_component (rev_pieces : list string) : list string :=
  match rev_pieces with
  | [] => []
  | p :: ps => if no_component p then drop_no_component ps else p :: ps
  end.

(** The components, as text; ["/"] is the root. *)
Definition components (path : string) : list string :=
  let '(prefix, pieces) := path_body path in
  (if str_is_empty prefix then [] else [prefix]) ++
  List.filter (λ p, negb (no_component p)) pieces.

(** [Path::starts_with]: whole components. *)
Definition path_starts_with (path base : string) : bool :=
  bool_decide (components base `prefix_of` components path).

(** [Path::join]. *)
Definition path_join (base path : string) : string :=
  if has_root path then path
  else if str_is_empty base then path
  else if Ascii.eqb (default slash (String.get (String.length base - 1) base)) slash
       then base +:+ path
       else base +:+ "/" +:+ path.

(** [Path::file_name]. *)
Definition file_name (path : string) : option string :=
  match drop_no_component (rev (snd (path_body path))) with
  | [] => None
  | p :: _ => if p == ".." then None else Some p
  end.

(** [Path::file_stem]: the name up to its last dot, unless that starts it. *)
Fixpoint before_last_dot (s : string) : option string :=
  match s with
  | EmptyString => None
  | String a s' =>
      match before_last_dot s' with
      | Some t => Some (String a t)
      | None => if Ascii.eqb a "."%char then Some "" else None
      end
  end.

Definition file_stem (path : string) : option string :=
  name ← file_name path;
  Some (match before_last_dot name with
        | Some stem => if str_is_empty stem then name else stem
        | None => name
        end).

(** [Path::parent]. *)
Definition path_parent (path : string) : option string :=
  let '(prefix, pieces) := path_body path in
  match drop_no_component (rev pieces) with
  | _ :: ps => Some (prefix +:+ join "/" (rev (drop_no_component ps)))
  | [] => if prefix == "." then Some "" else None
  end.

(** ** [String::from_utf8_lossy]: invalid sequences become U+FFFD *)

Definition replacement : string :=
  String (ascii_of_N 239) (String (ascii_of_N 191) (String (ascii_of_N 189) "")).

Definition second_ok (a b : ascii) : bool :=
  let x := byte a in
  if (x =? 224)%N then in_range 160 191 b
  else if (x =? 237)%N then in_range 128 159 b
  else if (x =? 240)%N then in_range 144 191 b
  else if (x =? 244)%N then in_range 128 143 b
  else in_range 128 191 b.

(** Length of the first valid character, or of the invalid bytes to replace. *)
Definition next_chunk (s : string) : nat + nat :=
  match s with
  | EmptyString => inl 0
  | String a s1 =>
      if (byte a <? 128)%N then inl 1
      else if in_range 194 223 a then
        match s1 with
        | String b _ => if is_continuation b then inl 2 else inr 1
        | EmptyString => inr 1
        end
      else if in_range 224 239 a then
        match s1 with
        | String b s2 =>
            if second_ok a b then
              match s2 with
              | String c _ => if is_continuation c then inl 3 else inr 2
              | EmptyString => inr 2
              end
            else inr 1
        | EmptyString => inr 1
        end
      else if in_range 240 244 a then
        match s1 with
        | String b s2 =>
            if second_ok a b then
              match s2 with
              | String c s3 =>
                  if is_continuation c then
                    match s3 with
                    | String d _ => if is_continuation d then inl 4 else inr 3
                    | EmptyString => inr 3
                    end
                  else inr 2
              | EmptyString => inr 2
              end
            else inr 1
        | EmptyString => inr 1
        end
      else inr 1
  end%nat.

(** Every round drops at least one byte. *)
Fixpoint lossy_fuel (n : nat) (s : string) : string :=
  match n with
  | O => ""
  | S n' =>
      if str_is_empty s then ""
      else match next_chunk s with
           | inl k => str_take k s +:+ lossy_fuel n' (str_drop k s)
           | inr k => replacement +:+ lossy_fuel n' (str_drop k s)
           end
  end.

Definition from_utf8_lossy (bytes : string) : string := lossy_fuel (String.length bytes) bytes.

(** ** The operating system *)

(** Outcome of a system call: a value or the text of the error. *)
Inductive io (A : Type) : Type := IoOk (a : A) | IoErr (msg : string).
Arguments IoOk {A} a.
Arguments IoErr {A} msg.

(** [.with_context(|| msg)?].  An error is its text with the chain of causes,
    ["{e:#}"], which is what the router reports. *)
Definition with_context {A} (r : io A) (msg : string) : res A :=
  match r with IoOk a => Ok a | IoErr e => Err (msg +:+ ": " +:+ e) end.

(** [?] *)
Definition io_try {A} (r : io A) : res A :=
  match r with IoOk a => Ok a | IoErr e => Err e end.

(** [std::process::Output]; no code when a signal ended the process. *)
Record Output := mkOutput {
  out_code : option i32;
  out_stdout : string;
  out_stderr : string
}.

(** What the channel of a waiting thread delivers. *)
Inductive Received :=
| RecvOutput (output : Output)
| RecvWaitError (msg : string)
| RecvTimeout
| RecvDisconnected.

(** [read_dir] gives the entries that can be read and whose name is valid
    UTF-8, in the order of the system; [fs_write] is given the path and the
    new content, [run_process] the program, its arguments and its directory;
    [spawn_process] starts a process without waiting and gives its id,
    [wait_child] waits for it for the given number of seconds. *)
Class Os := {
  os : Type;
  is_dir : os → string → bool;
  is_file : os → string → bool;
  path_exists : os → string → bool;
  canonicalize : os → string → io string;
  read_to_string : os → string → io string;
  read_dir : os → string → option (list string);
  fs_write : string → string → os → io () * os;
  create_dir_all : string → os → io () * os;
  remove_file : string → os → io () * os;
  run_process : string → list string → string → os → io Output * os;
  spawn_process : string → list string → option string → os → io u32 * os;
  wait_child : u32 → u64 → os → Received * os
}.

(** A call that can change the state of the system. *)
Definition syscall `{Os} {A} (f : os → io A * os) : M os (io A) :=
  λ o, let '(r, o') := f o in (Ok r, o').

(** ** Machine-width sums *)

Definition usize_max : N := 18446744073709551615.

Definition usize_add `{BuildProfile} (a b : usize) : res usize :=
  let n := (a + b)%N in
  if (n <=? usize_max)%N then Ok n
  else if overflow_checks then Panic else Ok (n mod (usize_max + 1))%N.

Definition usize_sub `{BuildProfile} (a b : usize) : res usize :=
  if (b <=? a)%N then Ok (a - b)%N
  else if overflow_checks then Panic else Ok (a + (usize_max + 1) - b)%N.

(** [a + b] and [a - b] at type [i64], and [n as i64]. *)
Definition i64_fits (z : Z) : bool := (- Z.of_N i64_max - 1 <=? z)%Z && (z <=? Z.of_N i64_max)%Z.

Definition i64_wrap (z : Z) : Z := ((z + 2 ^ 63) mod 2 ^ 64 - 2 ^ 63)%Z.

Definition i64_add `{BuildProfile} (a b : i64) : res i64 :=
  if i64_fits (a + b) then Ok (a + b)%Z
  else if overflow_checks then Panic else Ok (i64_wrap (a + b)).

Definition i64_sub `{BuildProfile} (a b : i64) : res i64 := i64_add a (- b).

Definition u64_as_i64 (n : u64) : i64 := i64_wrap (Z.of_N n).

(** [saturating_add] and [saturating_sub]. *)
Definition i64_sat (z : Z) : i64 := Z.max (- Z.of_N i64_max - 1) (Z.min z (Z.of_N i64_max)).

Definition i64_sat_add (a b : i64) : i64 := i64_sat (a + b).

Definition i64_sat_sub (a b : i64) : i64 := i64_sat (a - b).

Definition sat_add (a b : usize) : usize := N.min (a + b) usize_max.

Definition sat_mul (a b : usize) : usize := N.min (a * b) usize_max.

(** ** Facts *)

Lemma path_starts_with_refl p : path_starts_with p p = true.
Proof. by apply bool_decide_eq_true. Qed.

Example path_examples :
  path_join "/ws" "src/a.rs" = "/ws/src/a.rs" ∧ path_join "/ws" "/etc/passwd" = "/etc/passwd" ∧
  path_join "/ws/" "a" = "/ws/a" ∧
  path_parent "/ws/src/a.rs" = Some "/ws/src" ∧ path_parent "/a" = Some "/" ∧
  path_parent "a//b" = Some "a" ∧ path_parent "./a" = Some "." ∧ path_parent "/" = None ∧
  file_name "./node_modules/.bin/tsc" = Some "tsc" ∧ file_name "a/.." = None ∧
  file_name "usr/bin/" = Some "bin" ∧ file_name "." = None ∧
  path_starts_with "/ws/a" "/ws" = true ∧ path_starts_with "/ws2/a" "/ws" = false.
Proof. vm_compute. repeat split. Qed.

(** Valid text decodes to itself, and the decoding never shortens ASCII. *)
Lemma next_chunk_ascii a s : (byte a <? 128)%N = true → next_chunk (String a s) = inl 1.
Proof. intros Ha. cbn. by rewrite Ha. Qed.

Lemma from_utf8_lossy_ascii s : is_ascii s = true → from_utf8_lossy s = s.
Proof.
  unfold from_utf8_lossy. induction s as [|a s IH]; [done|]. cbn [is_ascii str_forall].
  intros [Ha Hs]%andb_true_iff. cbn [String.length lossy_fuel].
  unfold str_is_empty. cbn [String.eqb]. rewrite next_chunk_ascii by done.
  cbn [str_take str_drop]. by rewrite IH.
Qed.

(** ** A concrete system

    Files as a map from absolute paths to contents and a list of directories,
    no links; a path is resolved by its text.  Processes print nothing and
    succeed.  It is what the concrete inputs of the other files run on. *)

Record DemoFs := mkDemoFs { fs_files : gmap string string; fs_dirs : list string }.

(** [..] drops the component before it. *)
Fixpoint resolve_dots (acc comps : list string) : list string :=
  match comps with
  | [] => rev acc
  | c :: cs =>
      if c == "/" then resolve_dots acc cs
      else if c == ".." then resolve_dots (tail acc) cs
      else resolve_dots (c :: acc) cs
  end.

Definition resolve_text (path : string) : string :=
  "/" +:+ join "/" (resolve_dots [] (components path)).

Definition demo_fs_exists (o : DemoFs) (path : string) : bool :=
  bool_decide (is_Some (fs_files o !! resolve_text path)) ||
  contains_elem (fs_dirs o) (resolve_text path).

Definition demo_fs_write (path content : string) (o : DemoFs) : io () * DemoFs :=
  let path := resolve_text path in
  if contains_elem (fs_dirs o) path then (IoErr "Is a directory (os error 21)", o)
  else (IoOk (), mkDemoFs (<[path := content]> (fs_files o)) (fs_dirs o)).

Definition demo_os : Os := {|
  os := DemoFs;
  is_dir o p := contains_elem (fs_dirs o) (resolve_text p);
  is_file o p := bool_decide (is_Some (fs_files o !! resolve_text p));
  path_exists := demo_fs_exists;
  canonicalize o p :=
    if demo_fs_exists o p then IoOk (resolve_text p)
    else IoErr "No such file or directory (os error 2)";
  read_to_string o p :=
    match fs_files o !! resolve_text p with
    | Some c => IoOk c
    | None => IoErr "No such file or directory (os error 2)"
    end;
  read_dir o p := None;
  fs_write := demo_fs_write;
  create_dir_all p o :=
    (IoOk (), if contains_elem (fs_dirs o) (resolve_text p) then o
              else mkDemoFs (fs_files o) (resolve_text p :: fs_dirs o));
  remove_file p o :=
    match fs_files o !! resolve_text p with
    | Some _ => (IoOk (), mkDemoFs (delete (resolve_text p) (fs_files o)) (fs_dirs o))
    | None => (IoErr "No such file or directory (os error 2)", o)
    end;
  run_process _ _ _ o := (IoOk (mkOutput (Some 0%Z) "" ""), o);
  spawn_process _ _ _ o := (IoOk 1%N, o);
  wait_child _ _ o := (RecvOutput (mkOutput (Some 0%Z) "" ""), o)
|}.

Definition demo_fs : DemoFs :=
  mkDemoFs {["/ws/a.txt" := "one" +:+ String newline "two"]} ["/"; "/ws"].
