(* ===== verification/Utf8.v ===== *)
(** * Texts in UTF-8

    [str::from_utf8] with the place and length of the first error, the
    characters of a text, and where a text may be cut. *)

From Stdlib Require Import ZifyBool.
From S2P Require Import Prelude RustStr Os.

(** ** Validation *)

(** [Utf8Error]: [error_len] is absent when the input ends too early. *)
Record Utf8Error := mkUtf8Error { valid_up_to : nat; error_len : option nat }.

(** The rest of the input is the beginning of a character. *)
Definition truncated (s : string) : bool :=
  match next_chunk s, s with
  | inr k, String a _ => (k =? String.length s)%nat && ((1 <? k)%nat || in_range 194 244 a)
  | _, _ => false
  end.

Fixpoint utf8_error_fuel (n : nat) (s : string) : option Utf8Error :=
  match n with
  | O => None
  | S n' =>
      if str_is_empty s then None
      else match next_chunk s with
           | inl k => (λ e, mkUtf8Error (k + valid_up_to e) (error_len e)) <$> utf8_error_fuel n' (str_drop k s)
           | inr k => Some (mkUtf8Error 0 (if truncated s then None else Some k))
           end
  end.

(** The error of [str::from_utf8], if there is one: every round drops at least
    one byte. *)
Definition utf8_error (bytes : string) : option Utf8Error := utf8_error_fuel (String.length bytes) bytes.

Definition valid (s : string) : Prop := utf8_error s = None.

(** ** Characters *)

(** [str::chars], as the bytes of each. *)
Fixpoint chars_fuel (n : nat) (s : string) : list string :=
  match n, s with
  | S n', String a _ => str_take (char_width a) s :: chars_fuel n' (str_drop (char_width a) s)
  | _, _ => []
  end.

Definition chars (s : string) : list string := chars_fuel (String.length s) s.

Definition is_char (c : string) : bool :=
  match next_chunk c with inl k => (k =? String.length c)%nat && negb (str_is_empty c) | inr _ => false end.

Definition concat_str (l : list string) : string := foldr String.append "" l.

(** ** Facts *)

Lemma str_app_cons a s t : String a s +:+ t = String a (s +:+ t).
Proof. done. Qed.

Lemma concat_str_app l1 l2 : concat_str (l1 ++ l2) = concat_str l1 +:+ concat_str l2.
Proof. unfold concat_str. induction l1 as [|s l IH]; [done|]. cbn. rewrite IH. by rewrite str_app_assoc. Qed.

Lemma str_app_inj_l p s t : p +:+ s = p +:+ t → s = t.
Proof. induction p as [|a p IH]; [done|]. cbn. intros [= E]. by apply IH. Qed.

Lemma str_take_app p t : str_take (String.length p) (p +:+ t) = p.
Proof. induction p as [|a p IH]; cbn [String.length String.append str_take]; [by destruct t|by f_equal]. Qed.

(** Two ways to cut one text. *)
Lemma str_cut p s q t :
  p +:+ s = q +:+ t → (∃ u, q = p +:+ u ∧ s = u +:+ t) ∨ (∃ u, u ≠ "" ∧ p = q +:+ u ∧ t = u +:+ s).
Proof.
  revert q. induction p as [|a p IH]; intros q E.
  - left. by exists q.
  - destruct q as [|b q].
    + right. by exists (String a p).
    + injection E as -> E. destruct (IH q E) as [(u & -> & ->)|(u & Hu & -> & ->)]; [left; by exists u|right; by exists u].
Qed.

(** Deciding what a character is takes no more than its own bytes. *)
Lemma is_char_next c r : is_char c = true → next_chunk (c +:+ r) = inl (String.length c).
Proof.
  assert (∀ k (b : bool), (k =? String.length c)%nat && b = true → inl k = (inl (String.length c) : nat + nat)) as Hleaf
    by (intros k b H; apply andb_true_iff in H as [->%Nat.eqb_eq _]; done).
  unfold is_char. destruct c as [|a c]; [done|]. rewrite str_app_cons. cbn [next_chunk].
  destruct (byte a <? 128)%N; [apply Hleaf|].
  destruct (in_range 194 223 a).
  { destruct c as [|b c]; rewrite ?str_app_cons; [done|]. destruct (is_continuation b); [apply Hleaf|done]. }
  destruct (in_range 224 239 a).
  { destruct c as [|b [|d c]]; rewrite ?str_app_cons; [done|by destruct (second_ok a b)|].
    destruct (second_ok a b); [|done]. destruct (is_continuation d); [apply Hleaf|done]. }
  destruct (in_range 240 244 a); [|done].
  destruct c as [|b [|d [|f c]]]; rewrite ?str_app_cons; [done|by destruct (second_ok a b)|..];
    (destruct (second_ok a b); [|done]; destruct (is_continuation d); [|done]); [done|].
  destruct (is_continuation f); [apply Hleaf|done].
Qed.

Lemma next_chunk_char s k : next_chunk s = inl k → s ≠ "" →
  is_char (str_take k s) = true ∧ String.length (str_take k s) = k.
Proof.
  unfold is_char. destruct s as [|a s]; [done|]. cbn [next_chunk]. intros E _.
  destruct (byte a <? 128)%N eqn:E1.
  { injection E as <-. cbn. by rewrite E1. }
  destruct (in_range 194 223 a) eqn:E2.
  { destruct s as [|b s]; [done|]. destruct (is_continuation b) eqn:Eb; [|done]. injection E as <-. cbn. by rewrite E1, E2, Eb. }
  destruct (in_range 224 239 a) eqn:E3.
  { destruct s as [|b [|d s]]; try done; destruct (second_ok a b) eqn:Eb; try done. destruct (is_continuation d) eqn:Ed; [|done].
    injection E as <-. cbn. by rewrite E1, E2, E3, Eb, Ed. }
  destruct (in_range 240 244 a) eqn:E4; [|done].
  destruct s as [|b [|d [|f s]]]; try done; destruct (second_ok a b) eqn:Eb; try done; destruct (is_continuation d) eqn:Ed; try done.
  destruct (is_continuation f) eqn:Ef; [|done]. injection E as <-. cbn. by rewrite E1, E2, E3, E4, Eb, Ed, Ef.
Qed.

Lemma next_chunk_pos s k : next_chunk s = inl k → s ≠ "" → (0 < k)%nat.
Proof.
  intros E Hs. destruct (next_chunk_char s k E Hs) as [Hc Hl]. destruct k; [|lia].
  destruct (str_take 0 s); [|done]. discriminate Hc.
Qed.

Lemma str_nonempty s : str_is_empty s = false ↔ s ≠ "".
Proof. unfold str_is_empty. apply String.eqb_neq. Qed.

Lemma is_char_nonempty c : is_char c = true → c ≠ "".
Proof. by intros H ->. Qed.

(** More fuel than bytes changes nothing. *)
Lemma utf8_error_enough n m s : (String.length s <= n)%nat → (String.length s <= m)%nat → utf8_error_fuel n s = utf8_error_fuel m s.
Proof.
  revert m s. induction n as [|n IH]; intros m s Hn Hm.
  - destruct s; [|cbn in Hn; lia]. by destruct m.
  - destruct m as [|m]; [destruct s; [done|cbn in Hm; lia]|].
    cbn [utf8_error_fuel]. destruct (str_is_empty s) eqn:Es; [done|]. destruct (next_chunk s) as [k|k] eqn:E; [|done].
    apply str_nonempty in Es. pose proof (next_chunk_pos s k E Es). f_equal. apply IH; rewrite str_drop_length; lia.
Qed.

Lemma utf8_error_step s : s ≠ "" →
  utf8_error s = match next_chunk s with
                 | inl k => (λ e, mkUtf8Error (k + valid_up_to e) (error_len e)) <$> utf8_error (str_drop k s)
                 | inr k => Some (mkUtf8Error 0 (if truncated s then None else Some k))
                 end.
Proof.
  intros Hs. unfold utf8_error. destruct (String.length s) as [|n] eqn:El; [by destruct s|].
  cbn [utf8_error_fuel]. rewrite (proj2 (str_nonempty s) Hs). destruct (next_chunk s) as [k|k] eqn:E; [|done].
  f_equal. pose proof (next_chunk_pos s k E Hs). apply utf8_error_enough; rewrite ?str_drop_length; lia.
Qed.

Lemma utf8_error_char c r : is_char c = true →
  utf8_error (c +:+ r) = (λ e, mkUtf8Error (String.length c + valid_up_to e) (error_len e)) <$> utf8_error r.
Proof.
  intros Hc. rewrite utf8_error_step.
  - rewrite is_char_next by done. by rewrite str_drop_app.
  - destruct c; [discriminate Hc|done].
Qed.

Lemma valid_char c r : is_char c = true → valid (c +:+ r) ↔ valid r.
Proof. intros Hc. unfold valid. rewrite utf8_error_char by done. by rewrite fmap_None. Qed.

Lemma valid_concat cs : Forall (λ c, is_char c = true) cs → valid (concat_str cs).
Proof. induction 1 as [|c cs Hc _ IH]; [done|]. cbn [concat_str foldr]. by apply valid_char. Qed.

Lemma str_len_ind (P : string → Prop) :
  (∀ s, (∀ t, (String.length t < String.length s)%nat → P t) → P s) → ∀ s, P s.
Proof.
  intros H s. remember (String.length s) as n eqn:En. revert s En. induction n as [n IH] using lt_wf_ind.
  intros s ->. apply H. intros t Ht. by eapply IH.
Qed.

Inductive text : string → Prop :=
| text_nil : text ""
| text_char c s : is_char c = true → text s → text (c +:+ s).

(** A text is the sequence of its characters. *)
Lemma valid_text s : valid s ↔ text s.
Proof.
  split; [|by induction 1; [|apply valid_char]].
  induction s as [s IH] using str_len_ind. intros Hv.
  destruct (decide (s = "")) as [->|Hs]; [constructor|].
  unfold valid in Hv. rewrite utf8_error_step in Hv by done. destruct (next_chunk s) as [k|k] eqn:E; [|done].
  apply fmap_None in Hv. destruct (next_chunk_char s k E Hs) as [Hc Hl]. pose proof (next_chunk_pos s k E Hs).
  rewrite <- (str_take_drop k s). constructor; [done|]. apply IH; [|done].
  rewrite str_drop_length. destruct s; [done|]. cbn. lia.
Qed.

Lemma valid_app s t : valid s → valid (s +:+ t) ↔ valid t.
Proof.
  intros Hs%valid_text. induction Hs as [|c s Hc _ IH]; [done|]. by rewrite str_app_assoc, valid_char.
Qed.

Lemma valid_app_2 s t : valid s → valid t → valid (s +:+ t).
Proof. intros Hs Ht. by apply valid_app. Qed.

Lemma is_char_width a c : is_char (String a c) = true → String.length (String a c) = char_width a.
Proof.
  unfold is_char, char_width. cbn [next_chunk]. unfold in_range.
  destruct (byte a <? 128)%N eqn:E1; [intros H; apply andb_true_iff in H as [H _]; by apply Nat.eqb_eq in H|].
  apply N.ltb_ge in E1.
  destruct ((194 <=? byte a)%N && (byte a <=? 223)%N) eqn:E2.
  { destruct c as [|b c]; [done|]. destruct (is_continuation b); [|done]. intros H. apply andb_true_iff in H as [H _].
    apply Nat.eqb_eq in H. rewrite <- H. assert ((byte a <? 224)%N = true) as -> by lia. done. }
  destruct ((224 <=? byte a)%N && (byte a <=? 239)%N) eqn:E3.
  { destruct c as [|b [|d c]]; try done; destruct (second_ok a b); try done. destruct (is_continuation d); [|done]. intros H.
    apply andb_true_iff in H as [H _]. apply Nat.eqb_eq in H. rewrite <- H.
    assert ((byte a <? 224)%N = false) as -> by lia. assert ((byte a <? 240)%N = true) as -> by lia. done. }
  destruct ((240 <=? byte a)%N && (byte a <=? 244)%N) eqn:E4; [|done].
  destruct c as [|b [|d [|f c]]]; try done; destruct (second_ok a b); try done; destruct (is_continuation d); try done.
  destruct (is_continuation f); [|done]. intros H. apply andb_true_iff in H as [H _]. apply Nat.eqb_eq in H. rewrite <- H.
  assert ((byte a <? 224)%N = false) as -> by lia. assert ((byte a <? 240)%N = false) as -> by lia. done.
Qed.

Lemma chars_enough n m s : (String.length s <= n)%nat → (String.length s <= m)%nat → chars_fuel n s = chars_fuel m s.
Proof.
  revert m s. induction n as [|n IH]; intros m s Hn Hm.
  - destruct s; [|cbn in Hn; lia]. by destruct m.
  - destruct s as [|a s]; [by destruct m|]. destruct m as [|m]; [cbn in Hm; lia|].
    cbn [chars_fuel]. f_equal. assert (0 < char_width a)%nat by (unfold char_width; repeat case_match; lia).
    apply IH; rewrite str_drop_length; cbn in *; lia.
Qed.

Lemma chars_char c s : is_char c = true → chars (c +:+ s) = c :: chars s.
Proof.
  intros Hc. destruct c as [|a c]; [discriminate Hc|]. unfold chars. rewrite str_app_cons. cbn [String.length chars_fuel].
  rewrite <- (is_char_width a c Hc). change (String a (c +:+ s)) with (String a c +:+ s).
  rewrite str_take_app, str_drop_app. f_equal. apply chars_enough; [|done]. rewrite str_length_app. lia.
Qed.

Lemma chars_app s t : valid s → chars (s +:+ t) = chars s ++ chars t.
Proof.
  intros Hs%valid_text. induction Hs as [|c s Hc _ IH]; [done|].
  rewrite str_app_assoc, chars_char by done. by rewrite IH, chars_char.
Qed.

Lemma chars_concat s : valid s → concat_str (chars s) = s.
Proof.
  intros Hs%valid_text. induction Hs as [|c s Hc _ IH]; [done|]. rewrite chars_char by done. cbn. by f_equal.
Qed.

Lemma chars_are s : valid s → Forall (λ c, is_char c = true) (chars s).
Proof.
  intros Hs%valid_text. induction Hs as [|c s Hc _ IH]; [constructor|]. rewrite chars_char by done. by constructor.
Qed.

(** Bytes after the first of a character are not ASCII. *)
Lemma is_char_tail a c : is_char (String a c) = true →
  str_forall (λ b, negb (byte b <? 128)%N) c = true ∧ ((byte a <? 128)%N = true → c = "").
Proof.
  assert (∀ b, is_continuation b = true → negb (byte b <? 128)%N = true) as Hcont.
  { intros b. unfold is_continuation, in_range. lia. }
  assert (∀ b, second_ok a b = true → negb (byte b <? 128)%N = true) as Hsecond.
  { intros b. unfold second_ok, in_range. repeat case_match; lia. }
  assert (∀ k n (b : bool), (k =? n)%nat && b = true → k = n) as Hk by (intros k n b; rewrite andb_true_iff, Nat.eqb_eq; by intros []).
  unfold is_char. cbn [next_chunk].
  destruct (byte a <? 128)%N; [intros H%Hk; by destruct c|].
  destruct (in_range 194 223 a).
  { destruct c as [|b c]; [done|]. destruct (is_continuation b) eqn:Eb; [|done]. intros H%Hk. destruct c; [|done].
    cbn. by rewrite Hcont. }
  destruct (in_range 224 239 a).
  { destruct c as [|b [|d c]]; [done|by destruct (second_ok a b)|].
    destruct (second_ok a b) eqn:Eb; [|done]. destruct (is_continuation d) eqn:Ed; [|done]. intros H%Hk. destruct c; [|done].
    cbn. by rewrite Hsecond, Hcont. }
  destruct (in_range 240 244 a); [|done].
  destruct c as [|b [|d [|f c]]]; [done|by destruct (second_ok a b)|..];
    (destruct (second_ok a b) eqn:Eb; [|done]; destruct (is_continuation d) eqn:Ed; [|done]); [done|].
  destruct (is_continuation f) eqn:Ef; [|done]. intros H%Hk. destruct c; [|done]. cbn. by rewrite Hsecond, !Hcont.
Qed.

(** A text may be cut before and after an ASCII character. *)
Lemma valid_cut l a r : (byte a <? 128)%N = true → valid (l +:+ String a r) → valid l ∧ valid r.
Proof.
  intros Ha Hs. apply valid_text in Hs. remember (l +:+ String a r) as s eqn:Es. revert l Es.
  induction Hs as [|c s Hc Hs IH]; intros l Es; [by destruct l|].
  destruct (str_cut c s l (String a r) Es) as [(u & -> & ->)|(u & Hu & -> & Er)].
  - destruct (IH u eq_refl) as [Hu Hr]. split; [|done]. by apply valid_char.
  - destruct u as [|b u]; [done|]. injection Er as <- ->. destruct l as [|d l].
    + change ("" +:+ String a u) with (String a u) in Hc. destruct (is_char_tail a u Hc) as [_ Hu']. rewrite Hu' by done.
      split; [done|]. by apply valid_text.
    + exfalso. rewrite str_app_cons in Hc. destruct (is_char_tail d _ Hc) as [Ht _].
      rewrite str_forall_app in Ht. cbn in Ht. rewrite Ha in Ht. by rewrite andb_false_r in Ht.
Qed.

Lemma ascii_valid s : is_ascii s = true → valid s.
Proof.
  unfold is_ascii. induction s as [|a s IH]; [done|]. cbn [str_forall]. intros [Ha Hs]%andb_true_iff.
  change (String a s) with (String a "" +:+ s). apply valid_char; [|by apply IH].
  unfold is_char. cbn. by rewrite Ha.
Qed.

Lemma valid_cut_ascii l d r : d ≠ "" → is_ascii d = true → valid (l +:+ d +:+ r) → valid l ∧ valid r.
Proof.
  destruct d as [|a d]; [done|]. intros _ [Ha Hd]%andb_true_iff. rewrite str_app_cons. intros [Hl Hr]%valid_cut; [|done].
  split; [done|]. apply (valid_app d); [|done]. by apply ascii_valid.
Qed.

(** ** Searching *)

Lemma starts_with_cut x rest p : starts_with (x +:+ rest) p = true → starts_with x p = true ∨ ∃ u, u ≠ "" ∧ p = x +:+ u.
Proof.
  intros [t E]%starts_with_spec. destruct (str_cut x rest p t E) as [(u & -> & ->)|(u & _ & -> & _)].
  - destruct (decide (u = "")) as [->|Hu]; [|right; by exists u]. left. rewrite str_app_nil. apply starts_with_spec.
    exists "". by rewrite str_app_nil.
  - left. apply starts_with_app.
Qed.

Lemma str_find_None p s l r : str_find p s = None → s = l +:+ r → starts_with r p = false.
Proof.
  intros E ->. revert E. induction l as [|a l IH]; cbn [str_find].
  - change ("" +:+ r) with r. destruct r; cbn [str_find]; by destruct (starts_with _ p).
  - rewrite str_app_cons. cbn [str_find]. destruct (starts_with (String a (l +:+ r)) p); [done|]. intros H. apply IH.
    by destruct (str_find p (l +:+ r)).
Qed.

Lemma str_find_before p s i l r : str_find p s = Some i → str_take i s = l +:+ r → r ≠ "" → starts_with (r +:+ str_drop i s) p = false.
Proof.
  revert i l. induction s as [|a s IH]; intros i l; cbn [str_find].
  - destruct (starts_with "" p); [|done]. intros [= <-] E Hr. destruct l; by destruct r.
  - destruct (starts_with (String a s) p) eqn:Es.
    + intros [= <-] E Hr. destruct l; by destruct r.
    + destruct (str_find p s) as [j|] eqn:Ej; [|done]. intros [= <-] E Hr. cbn [str_take str_drop] in *.
      destruct l as [|b l].
      * change ("" +:+ r) with r in E. subst r. rewrite str_app_cons, str_take_drop. done.
      * rewrite str_app_cons in E. injection E as -> E. by apply (IH j l).
Qed.

Lemma str_find_cut p s i : str_find p s = Some i → s = str_take i s +:+ p +:+ str_drop (i + String.length p) s ∧ str_drop i s = p +:+ str_drop (i + String.length p) s.
Proof.
  intros E. pose proof (str_find_Some _ _ _ E) as Hs. split; [done|].
  apply (str_app_inj_l (str_take i s)). by rewrite str_take_drop.
Qed.

Lemma str_find_le p l r j : str_find p (l +:+ r) = Some j → starts_with r p = true → (j <= String.length l)%nat.
Proof.
  revert j. induction l as [|a l IH]; intros j.
  - change ("" +:+ r) with r. intros E Hr. destruct r; cbn [str_find] in E; rewrite Hr in E; by injection E as <-.
  - rewrite str_app_cons. cbn [str_find String.length]. destruct (starts_with (String a (l +:+ r)) p); [intros [= <-]; lia|].
    destruct (str_find p (l +:+ r)) as [i|]; [|done]. intros [= <-] Hr. specialize (IH i eq_refl Hr). lia.
Qed.

Lemma valid_pieces pieces : Forall valid pieces → valid (concat_str pieces).
Proof. unfold concat_str. induction 1 as [|s l Hs _ IH]; [done|]. cbn [foldr]. by apply valid_app_2. Qed.
