(* ===== verification/TextStream.v ===== *)
(** * Streamed text with hidden tags (codex-rs/utils/stream-parser)

    The reply of the model arrives in pieces.  A parser of streamed text takes
    the pieces and answers what may be shown at once and what was extracted;
    here the interface (stream_text.rs), the parser of inline tags
    (inline_hidden_tag.rs) and the one of citations (citation.rs).  Offsets come
    from [find] and [ends_with], which answer character boundaries only, so no
    slice of these parsers panics. *)

From S2P Require Import Prelude RustStr Os Utf8.

(** ** The interface (stream_text.rs) *)

Record StreamTextChunk (X : Type) := mkTextChunk { visible_text : string; extracted : list X }.
Arguments mkTextChunk {X} _ _.
Arguments visible_text {X} _.
Arguments extracted {X} _.

Definition text_chunk_default {X} : StreamTextChunk X := mkTextChunk "" [].

Definition text_chunk_is_empty {X} (c : StreamTextChunk X) : bool :=
  str_is_empty (visible_text c) && match extracted c with [] => true | _ => false end.

(** [visible_text.push_str(..); extracted.extend(..)]. *)
Definition text_chunk_app {X} (a b : StreamTextChunk X) : StreamTextChunk X :=
  mkTextChunk (visible_text a +:+ visible_text b) (extracted a ++ extracted b).

Class StreamTextParser (P X : Type) := {
  push_str : string → P → StreamTextChunk X * P;
  finish_text : P → StreamTextChunk X * P
}.

(** All the pieces one after another, and the end of the stream. *)
Fixpoint stream_pieces `{StreamTextParser P X} (pieces : list string) (p : P) : StreamTextChunk X * P :=
  match pieces with
  | [] => (text_chunk_default, p)
  | piece :: pieces' =>
      let '(out, p1) := push_str piece p in
      let '(outs, p2) := stream_pieces pieces' p1 in
      (text_chunk_app out outs, p2)
  end.

Definition stream_all `{StreamTextParser P X} (pieces : list string) (p : P) : StreamTextChunk X :=
  let '(out, p1) := stream_pieces pieces p in
  text_chunk_app out (finish_text p1).1.

(** ** Inline tags (inline_hidden_tag.rs) *)

Record ExtractedInlineTag (T : Type) := mkExtracted { et_tag : T; et_content : string }.
Arguments mkExtracted {T} _ _.
Arguments et_tag {T} _.
Arguments et_content {T} _.

Record InlineTagSpec (T : Type) := mkInlineSpec { its_tag : T; its_open : string; its_close : string }.
Arguments mkInlineSpec {T} _ _ _.
Arguments its_tag {T} _.
Arguments its_open {T} _.
Arguments its_close {T} _.

Record ActiveTag (T : Type) := mkActive { at_tag : T; at_close : string; at_content : string }.
Arguments mkActive {T} _ _ _.
Arguments at_tag {T} _.
Arguments at_close {T} _.
Arguments at_content {T} _.

Record InlineHiddenTagParser (T : Type) := mkInline {
  ih_specs : list (InlineTagSpec T);
  ih_pending : string;
  ih_active : option (ActiveTag T)
}.
Arguments mkInline {T} _ _ _.
Arguments ih_specs {T} _.
Arguments ih_pending {T} _.
Arguments ih_active {T} _.

Definition inline_new {T} (specs : list (InlineTagSpec T)) : res (InlineHiddenTagParser T) :=
  match specs with
  | [] => Panic
  | _ =>
      if existsb (λ spec, str_is_empty (its_open spec) || str_is_empty (its_close spec)) specs then Panic
      else Ok (mkInline specs "" None)
  end.

Fixpoint suffix_prefix_loop (k : nat) (s needle : string) : nat :=
  match k with
  | O => 0
  | S k' =>
      if is_char_boundary needle k && str_ends_with s (str_take k needle) then k
      else suffix_prefix_loop k' s needle
  end.

Definition longest_suffix_prefix_len (s needle : string) : nat :=
  suffix_prefix_loop (Nat.min (String.length s) (String.length needle - 1)) s needle.

(** Where each opening tag is first found, in the order of the specs. *)
Definition open_candidates {T} (p : InlineHiddenTagParser T) : list (nat * nat * InlineTagSpec T) :=
  omap (λ spec, (λ pos, (pos, String.length (its_open spec), spec)) <$> str_find (its_open spec) (ih_pending p)) (ih_specs p).

(** [Iterator::min_by] by position, then the longer tag, then the earlier
    spec: the first of the least. *)
Definition earlier_open {T} (a b : nat * nat * InlineTagSpec T) : bool :=
  (a.1.1 <? b.1.1)%nat || ((a.1.1 =? b.1.1)%nat && (b.1.2 <=? a.1.2)%nat).

Definition find_next_open {T} (p : InlineHiddenTagParser T) : option (nat * InlineTagSpec T) :=
  match open_candidates p with
  | [] => None
  | c :: cs => let best := fold_left (λ best c, if earlier_open best c then best else c) cs c in Some (best.1.1, best.2)
  end.

Definition max_open_prefix_suffix_len {T} (p : InlineHiddenTagParser T) : nat :=
  fold_left Nat.max (map (λ spec, longest_suffix_prefix_len (ih_pending p) (its_open spec)) (ih_specs p)) 0%nat.

Definition visible {X} (s : string) : StreamTextChunk X := mkTextChunk s [].

Definition extract {X} (x : X) : StreamTextChunk X := mkTextChunk "" [x].

(** One round of the loop drops a delimiter, or is the last. *)
Fixpoint inline_loop {T} (fuel : nat) (p : InlineHiddenTagParser T) (out : StreamTextChunk (ExtractedInlineTag T)) :
    StreamTextChunk (ExtractedInlineTag T) * InlineHiddenTagParser T :=
  match fuel with
  | O => (out, p)
  | S fuel' =>
      let pending := ih_pending p in
      match ih_active p with
      | Some active =>
          let close := at_close active in
          match str_find close pending with
          | Some close_idx =>
              inline_loop fuel'
                (mkInline (ih_specs p) (str_drop (close_idx + String.length close) pending) None)
                (text_chunk_app out (extract (mkExtracted (at_tag active) (at_content active +:+ str_take close_idx pending))))
          | None =>
              let take := (String.length pending - longest_suffix_prefix_len pending close)%nat in
              (out, mkInline (ih_specs p) (str_drop take pending)
                      (Some (mkActive (at_tag active) close (at_content active +:+ str_take take pending))))
          end
      | None =>
          match find_next_open p with
          | Some (open_idx, spec) =>
              inline_loop fuel'
                (mkInline (ih_specs p) (str_drop (open_idx + String.length (its_open spec)) pending)
                   (Some (mkActive (its_tag spec) (its_close spec) "")))
                (text_chunk_app out (visible (str_take open_idx pending)))
          | None =>
              let take := (String.length pending - max_open_prefix_suffix_len p)%nat in
              (text_chunk_app out (visible (str_take take pending)), mkInline (ih_specs p) (str_drop take pending) None)
          end
      end
  end.

Definition inline_push_str {T} (chunk : string) (p : InlineHiddenTagParser T) :
    StreamTextChunk (ExtractedInlineTag T) * InlineHiddenTagParser T :=
  let pending := ih_pending p +:+ chunk in
  inline_loop (S (String.length pending)) (mkInline (ih_specs p) pending (ih_active p)) text_chunk_default.

Definition inline_finish {T} (p : InlineHiddenTagParser T) : StreamTextChunk (ExtractedInlineTag T) * InlineHiddenTagParser T :=
  match ih_active p with
  | Some active =>
      (extract (mkExtracted (at_tag active) (at_content active +:+ ih_pending p)), mkInline (ih_specs p) "" None)
  | None => (visible (ih_pending p), mkInline (ih_specs p) "" None)
  end.

#[export] Instance inline_parser {T} : StreamTextParser (InlineHiddenTagParser T) (ExtractedInlineTag T) := {
  push_str := inline_push_str;
  finish_text := inline_finish
}.

(** ** Citations (citation.rs) *)

Inductive CitationTag := Citation.

Definition CITATION_OPEN : string := "<oai-mem-citation>".
Definition CITATION_CLOSE : string := "</oai-mem-citation>".

Definition citation_specs : list (InlineTagSpec CitationTag) := [mkInlineSpec Citation CITATION_OPEN CITATION_CLOSE].

Record CitationStreamParser := mkCitations { cs_inner : InlineHiddenTagParser CitationTag }.

Definition citation_new : res CitationStreamParser := inner ← inline_new citation_specs; Ok (mkCitations inner).

Definition contents {T} (c : StreamTextChunk (ExtractedInlineTag T)) : StreamTextChunk string :=
  mkTextChunk (visible_text c) (map et_content (extracted c)).

Definition citation_push_str (chunk : string) (p : CitationStreamParser) : StreamTextChunk string * CitationStreamParser :=
  let '(inner, q) := inline_push_str chunk (cs_inner p) in (contents inner, mkCitations q).

Definition citation_finish (p : CitationStreamParser) : StreamTextChunk string * CitationStreamParser :=
  let '(inner, q) := inline_finish (cs_inner p) in (contents inner, mkCitations q).

#[export] Instance citation_parser : StreamTextParser CitationStreamParser string := {
  push_str := citation_push_str;
  finish_text := citation_finish
}.

Definition strip_citations (text : string) : res (string * list string) :=
  parser ← citation_new;
  let '(out, parser) := citation_push_str text parser in
  let '(tail, _) := citation_finish parser in
  let out := text_chunk_app out tail in
  Ok (visible_text out, extracted out).

(** ** What the inline tags mean: one pass over the whole text *)

(** [skip] bytes of a delimiter are left; [mode] is the open tag. *)
Fixpoint hide {T} (specs : list (InlineTagSpec T)) (skip : nat) (mode : option (ActiveTag T)) (s : string) :
    StreamTextChunk (ExtractedInlineTag T) :=
  match s with
  | EmptyString =>
      match mode with
      | Some active => extract (mkExtracted (at_tag active) (at_content active))
      | None => text_chunk_default
      end
  | String a s' =>
      match skip with
      | S skip' => hide specs skip' mode s'
      | O =>
          match mode with
          | Some active =>
              if starts_with s (at_close active) then
                text_chunk_app (extract (mkExtracted (at_tag active) (at_content active)))
                  (hide specs (String.length (at_close active) - 1) None s')
              else hide specs 0 (Some (mkActive (at_tag active) (at_close active) (at_content active +:+ String a ""))) s'
          | None =>
              match find (λ spec, starts_with s (its_open spec)) specs with
              | Some spec =>
                  hide specs (String.length (its_open spec) - 1) (Some (mkActive (its_tag spec) (its_close spec) "")) s'
              | None => text_chunk_app (visible (String a "")) (hide specs 0 None s')
              end
          end
      end
  end.

Definition hidden {T} (specs : list (InlineTagSpec T)) (text : string) : StreamTextChunk (ExtractedInlineTag T) :=
  hide specs 0 None text.

Example demo_strip :
  strip_citations "hello <oai-mem-citation>doc A</oai-mem-citation> world<oai-mem" = Ok ("hello  world<oai-mem", ["doc A"]).
Proof. vm_compute. reflexivity. Qed.

Example demo_hidden :
  contents (hidden citation_specs "a<oai-mem-citation>x</oai-mem-citation>b<oai-mem-citation>y") = mkTextChunk "ab" ["x"; "y"].
Proof. vm_compute. reflexivity. Qed.
