(* ===== verification/TextStreamFacts.v ===== *)
(** * Hidden tags, however the text is cut

    The parser of inline tags shows and extracts the same as one pass over the
    whole text, for every way of cutting the text into pieces. *)

From S2P Require Import Prelude RustStr Os Utf8 TextStream.

(** ** Outputs *)

Lemma text_chunk_app_assoc {X} (a b c : StreamTextChunk X) :
  text_chunk_app (text_chunk_app a b) c = text_chunk_app a (text_chunk_app b c).
Proof. unfold text_chunk_app. cbn. by rewrite str_app_assoc, (assoc_L (++)). Qed.

Lemma text_chunk_app_default {X} (c : StreamTextChunk X) : text_chunk_app text_chunk_default c = c.
Proof. by destruct c. Qed.

Lemma text_chunk_app_default_r {X} (c : StreamTextChunk X) : text_chunk_app c text_chunk_default = c.
Proof. destruct c. unfold text_chunk_app. cbn. by rewrite str_app_nil, app_nil_r. Qed.

(** ** Suffixes that begin a delimiter *)

Lemma ascii_char_boundary n s : is_ascii s = true → (n <= String.length s)%nat → is_char_boundary s n = true.
Proof.
  unfold is_ascii, is_char_boundary. revert n. induction s as [|a s IH]; intros n; cbn [str_forall String.length].
  - intros _ Hn. destruct n; [done|lia].
  - intros [Ha Hs]%andb_true_iff Hn. destruct n as [|n]; cbn [String.get].
    + unfold is_continuation, in_range. apply N.ltb_lt in Ha. apply negb_true_iff, andb_false_iff. left. apply N.leb_gt. lia.
    + change (S n =? S (String.length s))%nat with (n =? String.length s)%nat. apply IH; [done|lia].
Qed.

Lemma str_ends_with_app l r : str_ends_with (l +:+ r) r = true.
Proof.
  unfold str_ends_with. rewrite str_length_app. apply andb_true_iff. split; [apply Nat.leb_le; lia|].
  replace (String.length l + String.length r - String.length r)%nat with (String.length l) by lia.
  rewrite str_drop_app. apply String.eqb_refl.
Qed.

Lemma suffix_prefix_loop_max k s needle l r u :
  is_ascii needle = true → s = l +:+ r → needle = r +:+ u → (String.length r <= k)%nat → (String.length r <= suffix_prefix_loop k s needle)%nat.
Proof.
  intros Ha -> -> Hk. induction k as [|k IH]; [done|]. cbn [suffix_prefix_loop].
  destruct (is_char_boundary _ _ && _) eqn:E; [done|].
  destruct (decide (String.length r = S k)) as [Er|]; [|apply IH; lia].
  exfalso. rewrite <- Er, str_take_app, str_ends_with_app, andb_true_r in E.
  rewrite ascii_char_boundary in E; [done|done|]. rewrite str_length_app. lia.
Qed.

Lemma longest_max s needle l r u :
  is_ascii needle = true → s = l +:+ r → needle = r +:+ u → u ≠ "" → (String.length r <= longest_suffix_prefix_len s needle)%nat.
Proof.
  intros Ha Hs Hn Hu. eapply suffix_prefix_loop_max; [done..|]. subst. rewrite !str_length_app.
  destruct u; [done|]. cbn. lia.
Qed.

Lemma str_drop_all s : str_drop (String.length s) s = "".
Proof. rewrite <- (str_app_nil s) at 2. apply str_drop_app. Qed.

Lemma suffix_prefix_loop_suffix k s needle :
  (k <= String.length s)%nat → (k <= String.length needle)%nat →
  (suffix_prefix_loop k s needle <= k)%nat ∧
  str_drop (String.length s - suffix_prefix_loop k s needle) s = str_take (suffix_prefix_loop k s needle) needle.
Proof.
  induction k as [|k IH]; intros Hs Hn; cbn [suffix_prefix_loop].
  - split; [done|]. rewrite Nat.sub_0_r, str_drop_all. by destruct needle.
  - destruct (is_char_boundary needle (S k) && str_ends_with s (str_take (S k) needle)) eqn:E.
    + split; [done|]. apply andb_true_iff in E as [_ [_ E%String.eqb_eq]%andb_true_iff].
      by rewrite str_length_take, Nat.min_l in E by done.
    + destruct IH as [IH1 IH2]; [lia..|]. split; [lia|done].
Qed.

Lemma longest_suffix s needle :
  let n := longest_suffix_prefix_len s needle in
  (n <= String.length s)%nat ∧ str_drop (String.length s - n) s = str_take n needle.
Proof.
  cbn zeta. unfold longest_suffix_prefix_len.
  destruct (suffix_prefix_loop_suffix (Nat.min (String.length s) (String.length needle - 1)) s needle) as [H1 H2]; [lia..|].
  split; [lia|done].
Qed.

(** No delimiter begins in what is taken, whatever comes next. *)
Lemma taken_clear s needle take l r rest :
  is_ascii needle = true → str_find needle s = None → (take <= String.length s - longest_suffix_prefix_len s needle)%nat →
  str_take take s = l +:+ r → r ≠ "" → starts_with (r +:+ str_drop take s +:+ rest) needle = false.
Proof.
  intros Ha Hf Ht El Hr. rewrite <- str_app_assoc.
  assert (s = l +:+ (r +:+ str_drop take s)) as Hs by (by rewrite <- str_app_assoc, <- El, str_take_drop).
  destruct (starts_with _ needle) eqn:E; [|done]. exfalso.
  apply starts_with_cut in E as [E|(u & Hu & Hn)]; [by rewrite (str_find_None _ _ _ _ Hf Hs) in E|].
  pose proof (longest_max s needle l _ u Ha Hs Hn Hu) as Hle. rewrite str_length_app, str_drop_length in Hle.
  assert (String.length (str_take take s) = String.length l + String.length r)%nat as Hlen by (by rewrite El, str_length_app).
  rewrite str_length_take in Hlen. destruct r; [done|]. cbn in *. lia.
Qed.

(** ** One pass *)

Section hide.
Context {T : Type} (specs : list (InlineTagSpec T)).

Lemma hide_skip mode n s : (n <= String.length s)%nat → hide specs n mode s = hide specs 0 mode (str_drop n s).
Proof.
  revert n. induction s as [|a s IH]; intros n Hn; [by destruct n|].
  destruct n as [|n]; [done|]. cbn [hide str_drop]. apply IH. cbn in Hn. lia.
Qed.

Lemma hide_after mode d rest : hide specs (String.length d) mode (d +:+ rest) = hide specs 0 mode rest.
Proof. rewrite hide_skip by (rewrite str_length_app; lia). by rewrite str_drop_app. Qed.

Lemma hide_inside tag close content t rest :
  (∀ l r, t = l +:+ r → r ≠ "" → starts_with (r +:+ rest) close = false) →
  hide specs 0 (Some (mkActive tag close content)) (t +:+ rest) = hide specs 0 (Some (mkActive tag close (content +:+ t))) rest.
Proof.
  revert content. induction t as [|a t IH]; intros content Ht.
  - by rewrite str_app_nil.
  - pose proof (Ht "" (String a t) eq_refl ltac:(done)) as Ha. rewrite str_app_cons in *. cbn [hide at_close at_tag at_content].
    rewrite Ha, IH; [|intros l r -> Hr; by apply (Ht (String a l) r)].
    by rewrite str_app_assoc.
Qed.

Lemma hide_close tag close content rest :
  close ≠ "" → hide specs 0 (Some (mkActive tag close content)) (close +:+ rest) =
  text_chunk_app (extract (mkExtracted tag content)) (hide specs 0 None rest).
Proof.
  destruct close as [|a close]; [done|]. intros _. rewrite str_app_cons. cbn [hide at_close at_tag at_content].
  rewrite <- str_app_cons, starts_with_app. cbn [String.length]. rewrite Nat.sub_succ, Nat.sub_0_r. by rewrite hide_after.
Qed.

Lemma hide_outside t rest :
  (∀ spec l r, spec ∈ specs → t = l +:+ r → r ≠ "" → starts_with (r +:+ rest) (its_open spec) = false) →
  hide specs 0 None (t +:+ rest) = text_chunk_app (visible t) (hide specs 0 None rest).
Proof.
  induction t as [|a t IH]; intros Ht.
  - symmetry. apply text_chunk_app_default.
  - rewrite str_app_cons. cbn [hide]. rewrite <- str_app_cons.
    destruct (find _ specs) as [spec|] eqn:E.
    + apply List.find_some in E as [Hin E]. apply list_elem_of_In in Hin. by rewrite (Ht spec "" (String a t)) in E.
    + rewrite IH; [|intros spec l r Hin -> Hr; by apply (Ht spec (String a l) r)].
      by rewrite <- text_chunk_app_assoc.
Qed.

Lemma hide_open spec rest :
  its_open spec ≠ "" → spec ∈ specs →
  (∀ other, other ∈ specs → starts_with (its_open spec +:+ rest) (its_open other) = true → other = spec) →
  hide specs 0 None (its_open spec +:+ rest) = hide specs 0 (Some (mkActive (its_tag spec) (its_close spec) "")) rest.
Proof.
  intros Hne Hin Hu. destruct (its_open spec) as [|a open] eqn:Eo; [done|].
  rewrite str_app_cons. cbn [hide]. rewrite <- str_app_cons, <- Eo.
  destruct (find _ specs) as [other|] eqn:E.
  - apply List.find_some in E as [Ho E]. apply list_elem_of_In in Ho.
    assert (other = spec) as -> by (apply Hu; [done|by rewrite <- Eo]). rewrite Eo. cbn [String.length].
    rewrite Nat.sub_succ, Nat.sub_0_r. by rewrite hide_after.
  - exfalso. apply list_elem_of_In in Hin. pose proof (List.find_none _ _ E spec Hin) as Hf. cbn in Hf.
    by rewrite starts_with_app in Hf.
Qed.
End hide.

(** ** The loop *)

(** No opening tag is found in another one before its end. *)
Definition opens_apart {T} (specs : list (InlineTagSpec T)) : bool :=
  forallb (λ a, forallb (λ b, negb (str_contains (str_take (String.length (its_open a) - 1) (its_open a)) (its_open b))) specs) specs.

Definition specs_ascii {T} (specs : list (InlineTagSpec T)) : bool :=
  forallb (λ spec, is_ascii (its_open spec) && is_ascii (its_close spec)) specs.

Lemma opens_apart_spec {T} (specs : list (InlineTagSpec T)) a b l r :
  opens_apart specs = true → a ∈ specs → b ∈ specs → its_open a = l +:+ its_open b +:+ r → r = "".
Proof.
  intros H Ha Hb E. unfold opens_apart in H. rewrite forallb_forall in H.
  specialize (H a (proj1 (list_elem_of_In _ _) Ha)). rewrite forallb_forall in H.
  specialize (H b (proj1 (list_elem_of_In _ _) Hb)). apply negb_true_iff in H.
  destruct (decide (r = "")) as [|Hr]; [done|]. exfalso.
  assert (str_contains (str_take (String.length (its_open a) - 1) (its_open a)) (its_open b) = true) as Hc; [|congruence].
  apply str_contains_spec. exists l, (str_take (String.length r - 1) r).
  rewrite <- (str_take_app (l +:+ its_open b +:+ str_take (String.length r - 1) r) (str_drop (String.length r - 1) r)).
  rewrite !str_app_assoc, str_take_drop, <- E. f_equal. rewrite E, !str_length_app, str_length_take. destruct r; [done|]. cbn. lia.
Qed.

Section inline.
Context {T : Type} (specs : list (InlineTagSpec T)).
Hypothesis (Hnonempty : ∀ spec, spec ∈ specs → its_open spec ≠ "" ∧ its_close spec ≠ "").
Hypothesis (Hascii : specs_ascii specs = true).
Hypothesis (Hdistinct : NoDup (map its_open specs)).
Hypothesis (Hapart : opens_apart specs = true).

Lemma spec_ascii spec : spec ∈ specs → is_ascii (its_open spec) = true ∧ is_ascii (its_close spec) = true.
Proof.
  intros Hin%list_elem_of_In. unfold specs_ascii in Hascii. rewrite forallb_forall in Hascii.
  by apply andb_true_iff, Hascii.
Qed.

Lemma same_open a b : a ∈ specs → b ∈ specs → its_open a = its_open b → a = b.
Proof.
  intros Ha Hb E. apply list_elem_of_lookup in Ha as [i Hi]. apply list_elem_of_lookup in Hb as [j Hj].
  assert (i = j) as ->; [|congruence].
  eapply NoDup_lookup; [done|..]; rewrite list_lookup_fmap; [by rewrite Hi|rewrite Hj; cbn; by rewrite E].
Qed.

(** The earliest opening tag. *)
Lemma find_next_open_Some p pos spec :
  ih_specs p = specs → find_next_open p = Some (pos, spec) →
  spec ∈ specs ∧ str_find (its_open spec) (ih_pending p) = Some pos ∧
  ∀ other j, other ∈ specs → str_find (its_open other) (ih_pending p) = Some j → (pos <= j)%nat.
Proof.
  intros Hsp E. unfold find_next_open in E.
  assert (∀ c, c ∈ open_candidates p ↔ c.2 ∈ specs ∧ str_find (its_open c.2) (ih_pending p) = Some c.1.1 ∧ c.1.2 = String.length (its_open c.2)) as Hc.
  { intros [[i n] sp]. unfold open_candidates. rewrite list_elem_of_omap, Hsp. cbn. split.
    - intros (sp' & Hin & E'). destruct (str_find (its_open sp') (ih_pending p)) eqn:Ef; [|done]. by injection E' as <- <- <-.
    - intros (Hin & Hf & ->). exists sp. by rewrite Hf. }
  destruct (open_candidates p) as [|c cs]; [done|]. injection E as <- <-.
  set (best := fold_left _ cs c).
  assert (best ∈ c :: cs ∧ ∀ d, d ∈ c :: cs → (best.1.1 <= d.1.1)%nat) as [Hin Hmin].
  { subst best. clear Hc. revert c. induction cs as [|d cs IH]; intros c; cbn [fold_left].
    - split; [by left|]. intros d Hd. by apply list_elem_of_singleton in Hd as ->.
    - destruct (IH (if earlier_open c d then c else d)) as [H1 H2]. split.
      + apply elem_of_cons in H1 as [->|H1]; [|by do 2 right]. destruct (earlier_open c d); [by left|by right; left].
      + pose proof (H2 _ (list_elem_of_here _ _)) as Hb. intros e He.
        assert ((if earlier_open c d then c else d).1.1 <= c.1.1 ∧ (if earlier_open c d then c else d).1.1 <= d.1.1)%nat as [Hx Hy].
        { unfold earlier_open. destruct (c.1.1 <? d.1.1)%nat eqn:E1; [apply Nat.ltb_lt in E1; cbn; lia|].
          apply Nat.ltb_ge in E1. destruct (c.1.1 =? d.1.1)%nat eqn:E2; [apply Nat.eqb_eq in E2|]; cbn; [|lia].
          destruct (d.1.2 <=? c.1.2)%nat; lia. }
        apply elem_of_cons in He as [->|He]; [lia|]. apply elem_of_cons in He as [->|He]; [lia|]. apply H2. by right. }
  apply Hc in Hin as (H1 & H2 & _). split_and!; [done|done|]. intros other j Ho Hf.
  by apply (Hmin (j, String.length (its_open other), other)), Hc.
Qed.

Lemma find_next_open_None p spec :
  ih_specs p = specs → find_next_open p = None → spec ∈ specs → str_find (its_open spec) (ih_pending p) = None.
Proof.
  intros Hsp E Hin. unfold find_next_open in E. destruct (open_candidates p) eqn:Ec; [|done].
  destruct (str_find (its_open spec) (ih_pending p)) as [i|] eqn:Ef; [|done]. exfalso.
  assert ((i, String.length (its_open spec), spec) ∈ open_candidates p) as Hx; [|rewrite Ec in Hx; by apply elem_of_nil in Hx].
  unfold open_candidates. rewrite Hsp. apply list_elem_of_omap. exists spec. by rewrite Ef.
Qed.

Lemma max_open_spec p :
  ih_specs p = specs →
  (∀ spec, spec ∈ specs → (longest_suffix_prefix_len (ih_pending p) (its_open spec) <= max_open_prefix_suffix_len p)%nat) ∧
  (max_open_prefix_suffix_len p = 0%nat ∨ ∃ spec, spec ∈ specs ∧ max_open_prefix_suffix_len p = longest_suffix_prefix_len (ih_pending p) (its_open spec)).
Proof.
  intros Hsp. unfold max_open_prefix_suffix_len. rewrite Hsp.
  assert (∀ (l : list nat) n, (∀ x, x ∈ l → (x <= fold_left Nat.max l n)%nat) ∧ (n <= fold_left Nat.max l n)%nat ∧
            (fold_left Nat.max l n = n ∨ fold_left Nat.max l n ∈ l)) as Hmax.
  { induction l as [|y l IH]; intros n; cbn [fold_left].
    - split_and!; [intros x Hx; by apply elem_of_nil in Hx|done|by left].
    - destruct (IH (Nat.max n y)) as (H1 & H2 & H3). split_and!.
      + intros x [->|Hx]%elem_of_cons; [lia|by apply H1].
      + lia.
      + destruct H3 as [H3|H3]; [|right; by right]. rewrite H3. destruct (Nat.max_spec n y) as [[_ ->]|[_ ->]]; [right; by left|by left]. }
  destruct (Hmax (map (λ spec, longest_suffix_prefix_len (ih_pending p) (its_open spec)) specs) 0%nat) as (H1 & _ & H3). split.
  - intros spec Hin. apply H1. apply list_elem_of_fmap. by exists spec.
  - destruct H3 as [H3|H3]; [by left|right]. apply list_elem_of_fmap in H3 as (spec & E & Hin). by exists spec.
Qed.

(** States between pieces: the open tag is one of the specs, and no delimiter
    is left in the text that waits. *)
Definition inline_ok (p : InlineHiddenTagParser T) : Prop :=
  ih_specs p = specs ∧ match ih_active p with Some a => at_close a ≠ "" ∧ is_ascii (at_close a) = true | None => True end.

Definition inline_quiet (p : InlineHiddenTagParser T) : Prop :=
  match ih_active p with
  | Some a => str_find (at_close a) (ih_pending p) = None
  | None => ∀ spec, spec ∈ specs → str_find (its_open spec) (ih_pending p) = None
  end.

(** What a state is worth: the pass over the text that waits and what follows. *)
Definition worth (p : InlineHiddenTagParser T) (rest : string) : StreamTextChunk (ExtractedInlineTag T) :=
  hide specs 0 (ih_active p) (ih_pending p +:+ rest).

(** [o] was shown on the way from [p] to [q]. *)
Definition passes (p q : InlineHiddenTagParser T) (o : StreamTextChunk (ExtractedInlineTag T)) : Prop :=
  inline_ok q ∧ (∀ rest, worth p rest = text_chunk_app o (worth q rest)) ∧
  (valid (ih_pending p) → valid (visible_text o) ∧ valid (ih_pending q)).

Lemma passes_trans p q r o1 o2 : passes p q o1 → passes q r o2 → passes p r (text_chunk_app o1 o2).
Proof.
  intros (_ & H1 & H2) (H3 & H4 & H5). split_and!; [done|..].
  - intros rest. by rewrite H1, H4, text_chunk_app_assoc.
  - intros Hp. destruct (H2 Hp) as [? Hq]. destruct (H5 Hq). split; [by apply valid_app_2|done].
Qed.

Lemma find_drop_None needle s n : str_find needle s = None → str_find needle (str_drop n s) = None.
Proof.
  intros H. destruct (str_find needle (str_drop n s)) as [i|] eqn:E; [|done]. exfalso.
  apply str_find_Some in E. pose proof (str_find_None _ _ (str_take n s +:+ str_take i (str_drop n s))
    (needle +:+ str_drop (i + String.length needle) (str_drop n s)) H) as Hn.
  rewrite starts_with_app in Hn. discriminate Hn. by rewrite str_app_assoc, <- E, str_take_drop.
Qed.

Lemma close_passes active pending i :
  inline_ok (mkInline specs pending (Some active)) → str_find (at_close active) pending = Some i →
  passes (mkInline specs pending (Some active)) (mkInline specs (str_drop (i + String.length (at_close active)) pending) None)
    (extract (mkExtracted (at_tag active) (at_content active +:+ str_take i pending))).
Proof.
  intros [_ [Hne Ha]] Hf. destruct active as [tag close content]. cbn in *.
  destruct (str_find_cut _ _ _ Hf) as [Hs Hd]. split_and!; [done|..].
  - intros rest. unfold worth. cbn [ih_active ih_pending]. rewrite Hs at 1. rewrite !str_app_assoc, hide_inside.
    + by rewrite hide_close.
    + intros l r El Hr. rewrite <- (str_app_assoc close), <- Hd.
      destruct (starts_with _ close) eqn:E; [|done]. rewrite <- str_app_assoc in E. exfalso.
      apply starts_with_cut in E as [E|(u & Hu & En)]; [by rewrite (str_find_before _ _ _ _ _ Hf El Hr) in E|].
      rewrite Hd, !str_app_assoc in En. apply (f_equal String.length) in En. rewrite !str_length_app in En. destruct r; [done|]. cbn in En. lia.
  - intros Hv. cbn in *. split; [done|]. rewrite Hs in Hv. by apply valid_cut_ascii in Hv as [_ ?].
Qed.

Lemma inside_passes active pending :
  inline_ok (mkInline specs pending (Some active)) → str_find (at_close active) pending = None →
  let take := (String.length pending - longest_suffix_prefix_len pending (at_close active))%nat in
  passes (mkInline specs pending (Some active))
    (mkInline specs (str_drop take pending) (Some (mkActive (at_tag active) (at_close active) (at_content active +:+ str_take take pending))))
    text_chunk_default.
Proof.
  intros [_ [Hne Ha]] Hf take. destruct active as [tag close content]. cbn in *. split_and!; [done|..].
  - intros rest. unfold worth. cbn [ih_active ih_pending]. rewrite text_chunk_app_default.
    rewrite <- (str_take_drop take pending) at 1. rewrite str_app_assoc. apply hide_inside.
    intros l r El Hr. by eapply taken_clear.
  - intros _. cbn. split; [done|]. apply ascii_valid. subst take. destruct (longest_suffix pending close) as [_ ->].
    rewrite <- (str_take_drop (longest_suffix_prefix_len pending close) close) in Ha.
    unfold is_ascii in *. rewrite str_forall_app in Ha. by apply andb_true_iff in Ha as [? _].
Qed.

Lemma open_passes pending pos spec :
  find_next_open (mkInline specs pending None) = Some (pos, spec) →
  passes (mkInline specs pending None)
    (mkInline specs (str_drop (pos + String.length (its_open spec)) pending) (Some (mkActive (its_tag spec) (its_close spec) "")))
    (visible (str_take pos pending)).
Proof.
  intros Hf. apply find_next_open_Some in Hf as (Hin & Hf & Hmin); [|done]. cbn in Hf, Hmin.
  destruct (Hnonempty _ Hin) as [Ho Hc]. destruct (spec_ascii _ Hin) as [Hao Hac].
  destruct (str_find_cut _ _ _ Hf) as [Hs Hd]. split_and!; [done|..].
  - intros rest. unfold worth. cbn [ih_active ih_pending]. rewrite Hs at 1. rewrite !str_app_assoc, hide_outside.
    + rewrite hide_open; [done|done|done|]. intros other Hother E. rewrite <- str_app_assoc in E.
      apply starts_with_cut in E as [E|(u & Hu & En)].
      * apply starts_with_cut in E as [[v E]%starts_with_spec|(u & Hu & En)].
        -- symmetry in E. destruct (decide (v = "")) as [->|Hv]; [|by pose proof (opens_apart_spec _ _ _ "" v Hapart Hin Hother (eq_sym E))].
           rewrite str_app_nil in E. by apply same_open.
        -- by pose proof (opens_apart_spec _ _ _ "" u Hapart Hother Hin En).
      * rewrite str_app_assoc in En.
        pose proof (opens_apart_spec _ _ _ "" _ Hapart Hother Hin En) as Hz. destruct u; [done|]. by destruct (str_drop _ pending).
    + intros other l r Hother El Hr. rewrite <- (str_app_assoc (its_open spec)), <- Hd.
      destruct (starts_with _ (its_open other)) eqn:E; [|done]. rewrite <- str_app_assoc in E. exfalso.
      apply starts_with_cut in E as [E|(u & Hu & En)].
      * destruct (str_find (its_open other) pending) as [j|] eqn:Ej.
        -- pose proof (Hmin other j Hother Ej) as Hle.
           rewrite <- (str_take_drop pos pending), El, str_app_assoc in Ej. pose proof (str_find_le _ _ _ _ Ej E) as Hj.
           assert (String.length (str_take pos pending) <= pos)%nat as Hp by (rewrite str_length_take; lia).
           rewrite El, str_length_app in Hp. destruct r; [done|]. cbn in Hp. lia.
        -- by rewrite (str_find_None _ _ l (r +:+ str_drop pos pending) Ej ltac:(by rewrite <- str_app_assoc, <- El, str_take_drop)) in E.
      * rewrite Hd, !str_app_assoc in En.
        pose proof (opens_apart_spec _ _ _ r _ Hapart Hother Hin En) as Hz. destruct u; [done|]. by destruct (str_drop _ pending).
  - intros Hv. cbn in *. rewrite Hs in Hv. by apply valid_cut_ascii in Hv as [? ?].
Qed.

Lemma outside_passes pending :
  find_next_open (mkInline specs pending None) = None →
  let p := mkInline specs pending None in
  let take := (String.length pending - max_open_prefix_suffix_len p)%nat in
  passes p (mkInline specs (str_drop take pending) None) (visible (str_take take pending)).
Proof.
  intros Hf p take. destruct (max_open_spec p eq_refl) as [Hmax Hsome]. change (ih_pending p) with pending in Hmax, Hsome. split_and!; [done|..].
  - intros rest. unfold worth. cbn [ih_active ih_pending p]. rewrite <- (str_take_drop take pending) at 1.
    rewrite str_app_assoc. apply hide_outside. intros spec l r Hin El Hr.
    eapply taken_clear; [by apply spec_ascii|by apply (find_next_open_None p)| |done|done].
    pose proof (Hmax spec Hin). subst take. lia.
  - intros Hv. change (ih_pending p) with pending in Hv. cbn [visible visible_text ih_pending]. destruct Hsome as [E|(spec & Hin & E)]; subst take.
    + rewrite E, Nat.sub_0_r, str_drop_all. rewrite <- (str_app_nil pending) at 2. by rewrite str_take_app.
    + destruct (longest_suffix pending (its_open spec)) as [_ Hd]. rewrite <- E in Hd.
      destruct (spec_ascii _ Hin) as [Ha _].
      assert (is_ascii (str_drop (String.length pending - max_open_prefix_suffix_len p) pending) = true) as Hsuf.
      { rewrite Hd. rewrite <- (str_take_drop (max_open_prefix_suffix_len p) (its_open spec)) in Ha.
        unfold is_ascii in *. rewrite str_forall_app in Ha. by apply andb_true_iff in Ha as [? _]. }
      split; [|by apply ascii_valid].
      rewrite <- (str_take_drop (String.length pending - max_open_prefix_suffix_len p) pending) in Hv.
      destruct (str_drop _ pending) as [|b d] eqn:Eb; [by rewrite str_app_nil in Hv|].
      rewrite <- (str_app_nil (String b d)) in Hv. by apply valid_cut_ascii in Hv as [? _].
Qed.

Lemma inline_loop_passes fuel p out :
  inline_ok p → (String.length (ih_pending p) < fuel)%nat →
  ∃ o, (inline_loop fuel p out).1 = text_chunk_app out o ∧ passes p (inline_loop fuel p out).2 o ∧ inline_quiet (inline_loop fuel p out).2.
Proof.
  revert p out. induction fuel as [|fuel IH]; intros [sp pending act] out Hok Hfuel; [lia|].
  pose proof Hok as [Hsp Hact]. cbn in Hsp, Hact, Hfuel. subst sp. cbn [inline_loop ih_pending ih_active ih_specs].
  assert (∀ q o, passes (mkInline specs pending act) q o → (String.length (ih_pending q) < fuel)%nat →
    ∃ o', (inline_loop fuel q (text_chunk_app out o)).1 = text_chunk_app out o' ∧
      passes (mkInline specs pending act) (inline_loop fuel q (text_chunk_app out o)).2 o' ∧ inline_quiet (inline_loop fuel q (text_chunk_app out o)).2) as Hnext.
  { intros q o Hp Hq. destruct (IH q (text_chunk_app out o) (proj1 Hp) Hq) as (o' & E & Hp' & Hquiet).
    exists (text_chunk_app o o'). rewrite E, text_chunk_app_assoc. split_and!; [done|by eapply passes_trans|done]. }
  destruct act as [active|].
  - destruct (str_find (at_close active) pending) as [i|] eqn:Ef.
    + apply Hnext; [by apply close_passes|]. cbn. rewrite str_drop_length. destruct Hact as [Hne _]. destruct (at_close active); [done|]. cbn. 
      apply str_find_Some in Ef. apply (f_equal String.length) in Ef. rewrite !str_length_app in Ef. cbn in Ef. lia.
    + eexists. split; [symmetry; apply text_chunk_app_default_r|]. split; [by apply inside_passes|]. cbn. by apply find_drop_None.
  - destruct (find_next_open _) as [[pos spec]|] eqn:Ef.
    + apply Hnext; [by apply open_passes|]. cbn. apply find_next_open_Some in Ef as (Hin & Ef & _); [|done]. cbn in Ef.
      destruct (Hnonempty _ Hin) as [Hne _]. apply str_find_Some in Ef. apply (f_equal String.length) in Ef.
      rewrite !str_length_app in Ef. rewrite str_drop_length in *. destruct (its_open spec); [done|]. cbn in *. lia.
    + eexists. split; [done|]. split; [by apply outside_passes|]. cbn. intros spec Hin. apply find_drop_None.
      by apply (find_next_open_None (mkInline specs pending None)).
Qed.

Lemma inline_push_passes p piece :
  inline_ok p → inline_quiet p → ∃ o, (inline_push_str piece p).1 = o ∧
    inline_ok (inline_push_str piece p).2 ∧ inline_quiet (inline_push_str piece p).2 ∧
    (∀ rest, worth p (piece +:+ rest) = text_chunk_app o (worth (inline_push_str piece p).2 rest)) ∧
    (valid (ih_pending p) → valid piece → valid (visible_text o) ∧ valid (ih_pending (inline_push_str piece p).2)).
Proof.
  intros Hok _. unfold inline_push_str. set (q := mkInline _ _ _).
  destruct (inline_loop_passes (S (String.length (ih_pending p +:+ piece))) q text_chunk_default) as (o & E & (H1 & H2 & H3) & Hq).
  { by destruct p. }
  { cbn. lia. }
  exists o. rewrite E, text_chunk_app_default. split_and!; [done|done|done|..].
  - intros rest. rewrite <- H2. unfold worth. cbn. by rewrite str_app_assoc.
  - intros Hp Hv. apply H3. cbn. by apply valid_app_2.
Qed.

Lemma inline_finish_worth p : inline_ok p → inline_quiet p → (inline_finish p).1 = worth p "".
Proof.
  intros [_ _] Hq. unfold inline_finish, worth, inline_quiet in *. destruct (ih_active p) as [[tag close content]|].
  - rewrite hide_inside; [done|]. intros l r El Hr. rewrite str_app_nil. by eapply str_find_None.
  - rewrite hide_outside; [|intros spec l r Hin El Hr; rewrite str_app_nil; eapply str_find_None; [by apply Hq|done]].
    symmetry. apply text_chunk_app_default_r.
Qed.

Lemma inline_stream_worth pieces p :
  inline_ok p → inline_quiet p → stream_all pieces p = worth p (concat_str pieces).
Proof.
  unfold stream_all. revert p. induction pieces as [|piece pieces IH]; intros p Hok Hq; cbn [stream_pieces].
  - rewrite text_chunk_app_default. by apply inline_finish_worth.
  - destruct (inline_push_passes p piece Hok Hq) as (o & E & Hok' & Hq' & Hw & _).
    cbn [push_str inline_parser]. destruct (inline_push_str piece p) as [o' q] eqn:Ep. cbn in *. subst o'.
    specialize (IH q Hok' Hq'). destruct (stream_pieces pieces q) as [outs q2]. cbn in *.
    change (concat_str (piece :: pieces)) with (piece +:+ concat_str pieces). by rewrite text_chunk_app_assoc, IH, Hw.
Qed.
End inline.

Lemma inline_new_ok {T} (specs : list (InlineTagSpec T)) p :
  inline_new specs = Ok p → p = mkInline specs "" None ∧ ∀ spec, spec ∈ specs → its_open spec ≠ "" ∧ its_close spec ≠ "".
Proof.
  unfold inline_new. destruct specs as [|s specs]; [done|]. destruct (existsb _ _) eqn:E; [done|]. intros [= <-]. split; [done|].
  intros spec Hin%list_elem_of_In. rewrite <- !str_nonempty.
  assert (str_is_empty (its_open spec) || str_is_empty (its_close spec) = false) as H; [|by apply orb_false_iff].
  apply not_true_iff_false. intros H. apply not_true_iff_false in E. apply E. apply existsb_exists. by exists spec.
Qed.

(** However the text of the model is cut into pieces, the parser of inline tags
    shows and extracts what one pass over the whole text does: the text outside
    the tags, and the content of each tag in order, the last one even if it was
    never closed. *)
Theorem inline_stream_hides {T} (specs : list (InlineTagSpec T)) p pieces :
  inline_new specs = Ok p → specs_ascii specs = true → NoDup (map its_open specs) → opens_apart specs = true →
  stream_all pieces p = hidden specs (concat_str pieces).
Proof.
  intros [-> Hne]%inline_new_ok Ha Hd Hap. rewrite (inline_stream_worth specs Hne Ha Hd Hap); [done|done|].
  intros spec Hin. destruct (Hne spec Hin) as [Ho _]. cbn. by destruct (its_open spec).
Qed.

Lemma inline_stream_hides_witness :
  stream_all ["a<oai-mem-"; "citation>x</oai-"; "mem-citation>b"] (mkInline citation_specs "" None) =
  hidden citation_specs "a<oai-mem-citation>x</oai-mem-citation>b".
Proof. apply (inline_stream_hides citation_specs (mkInline citation_specs "" None)); [reflexivity..|repeat constructor; set_solver|reflexivity]. Defined.

(** Without the condition on the opening tags the pieces matter: the shorter of
    two tags is taken when the longer has not arrived. *)
Example overlapping_tags :
  let specs := [mkInlineSpec 1%nat "<a" ">"; mkInlineSpec 2%nat "<ab" ">"] in
  stream_all ["<ab>"] (mkInline specs "" None) = mkTextChunk "" [mkExtracted 2%nat ""] ∧
  stream_all ["<a"; "b>"] (mkInline specs "" None) = mkTextChunk "" [mkExtracted 1%nat "b"].
Proof. split; vm_compute; reflexivity. Qed.
