(* ===== verification/TaggedLines.v ===== *)
(** * Tag lines, plans and the text of the assistant (codex-rs/utils/stream-parser)

    tagged_line_parser.rs finds tags that stand alone on a line, holding a line
    back only as long as it may still become a tag; proposed_plan.rs reads plans
    with it, assistant_text.rs takes out citations first, and utf8_stream.rs
    feeds any of these parsers with bytes. *)

From S2P Require Import Prelude RustStr Os Utf8 TextStream.

(** ** Tag lines (tagged_line_parser.rs) *)

Record TagSpec (T : Type) := mkTagSpec { ts_open : string; ts_close : string; ts_tag : T }.
Arguments mkTagSpec {T} _ _ _.
Arguments ts_open {T} _.
Arguments ts_close {T} _.
Arguments ts_tag {T} _.

Inductive TaggedLineSegment (T : Type) :=
| NormalText (text : string)
| TagStart (tag : T)
| TagDelta (tag : T) (text : string)
| TagEnd (tag : T).
Arguments NormalText {T} _.
Arguments TagStart {T} _.
Arguments TagDelta {T} _ _.
Arguments TagEnd {T} _.

Record TaggedLineParser (T : Type) := mkTagged {
  tl_specs : list (TagSpec T);
  active_tag : option T;
  detect_tag : bool;
  tl_line_buffer : string
}.
Arguments mkTagged {T} _ _ _ _.
Arguments tl_specs {T} _.
Arguments active_tag {T} _.
Arguments detect_tag {T} _.
Arguments tl_line_buffer {T} _.

Definition tagged_new {T} (specs : list (TagSpec T)) : TaggedLineParser T := mkTagged specs None true "".

Section tagged.
Context {T : Type} `{EqDecision T}.

(** Text is joined with text of the same kind before it. *)
Definition push_segment (segments : list (TaggedLineSegment T)) (segment : TaggedLineSegment T) : list (TaggedLineSegment T) :=
  match segment with
  | NormalText delta =>
      if str_is_empty delta then segments
      else match last segments with
           | Some (NormalText existing) => removelast segments ++ [NormalText (existing +:+ delta)]
           | _ => segments ++ [NormalText delta]
           end
  | TagDelta tag delta =>
      if str_is_empty delta then segments
      else match last segments with
           | Some (TagDelta existing_tag existing) =>
               if decide (existing_tag = tag) then removelast segments ++ [TagDelta existing_tag (existing +:+ delta)]
               else segments ++ [TagDelta tag delta]
           | _ => segments ++ [TagDelta tag delta]
           end
  | TagStart tag => segments ++ [TagStart tag]
  | TagEnd tag => segments ++ [TagEnd tag]
  end.

Definition text_segment (active : option T) (text : string) : TaggedLineSegment T :=
  match active with Some tag => TagDelta tag text | None => NormalText text end.

Definition push_text (p : TaggedLineParser T) (text : string) (segments : list (TaggedLineSegment T)) : list (TaggedLineSegment T) :=
  push_segment segments (text_segment (active_tag p) text).

Definition is_tag_prefix (p : TaggedLineParser T) (slug : string) : bool :=
  let slug := trim_end slug in
  existsb (λ spec, starts_with (ts_open spec) slug || starts_with (ts_close spec) slug) (tl_specs p).

Definition match_open (specs : list (TagSpec T)) (slug : string) : option T :=
  ts_tag <$> find (λ spec, ts_open spec == slug) specs.

Definition match_close (specs : list (TagSpec T)) (slug : string) : option T :=
  ts_tag <$> find (λ spec, ts_close spec == slug) specs.

(** [line.strip_suffix('\n').unwrap_or(line)]. *)
Definition without_newline (line : string) : string :=
  if str_ends_with line (String newline "") then str_take (String.length line - 1) line else line.

(** A whole line: an opening tag outside of tags, the closing tag of the active
    one, or text. *)
Definition settle_line (specs : list (TagSpec T)) (active : option T) (line : string) : TaggedLineSegment T * option T :=
  let slug := trim_end (trim_start (without_newline line)) in
  match match_open specs slug, active with
  | Some tag, None => (TagStart tag, Some tag)
  | _, _ =>
      match match_close specs slug with
      | Some tag => if decide (active = Some tag) then (TagEnd tag, None) else (text_segment active line, active)
      | None => (text_segment active line, active)
      end
  end.

Definition finish_line (p : TaggedLineParser T) (segments : list (TaggedLineSegment T)) :
    TaggedLineParser T * list (TaggedLineSegment T) :=
  let '(segment, active) := settle_line (tl_specs p) (active_tag p) (tl_line_buffer p) in
  (mkTagged (tl_specs p) active true "", push_segment segments segment).

(** The state of the loop of [parse]: the parser, the text collected and the
    segments. *)
Definition LineState : Type := TaggedLineParser T * string * list (TaggedLineSegment T).

Definition flush_run (p : TaggedLineParser T) (run : string) (segments : list (TaggedLineSegment T)) : list (TaggedLineSegment T) :=
  if str_is_empty run then segments else push_text p run segments.

Definition parse_char (st : LineState) (ch : string) : LineState :=
  let '(p, run, segments) := st in
  if detect_tag p then
    let segments := flush_run p run segments in
    let buffered := tl_line_buffer p +:+ ch in
    let p := mkTagged (tl_specs p) (active_tag p) true buffered in
    if ch == String newline "" then
      let '(p, segments) := finish_line p segments in (p, "", segments)
    else
      let slug := trim_start buffered in
      if str_is_empty slug || is_tag_prefix p slug then (p, "", segments)
      else (mkTagged (tl_specs p) (active_tag p) false "", "", push_text p buffered segments)
  else
    let run := run +:+ ch in
    if ch == String newline "" then
      (mkTagged (tl_specs p) (active_tag p) true (tl_line_buffer p), "", push_text p run segments)
    else (p, run, segments).

Definition tagged_parse (delta : string) (p : TaggedLineParser T) : list (TaggedLineSegment T) * TaggedLineParser T :=
  let '(p, run, segments) := fold_left parse_char (chars delta) (p, "", []) in
  (flush_run p run segments, p).

Definition tagged_finish (p : TaggedLineParser T) : list (TaggedLineSegment T) * TaggedLineParser T :=
  let '(active, segments) :=
    if str_is_empty (tl_line_buffer p) then (active_tag p, [])
    else let '(segment, active) := settle_line (tl_specs p) (active_tag p) (tl_line_buffer p) in (active, push_segment [] segment) in
  (match active with Some tag => push_segment segments (TagEnd tag) | None => segments end,
   mkTagged (tl_specs p) None true "").

(** ** What tag lines mean: line by line over the whole text *)

(** The lines of a text, each with its newline. *)
Fixpoint whole_lines (s : string) : list string :=
  match s with
  | EmptyString => []
  | String a s' =>
      if Ascii.eqb a newline then String a "" :: whole_lines s'
      else match whole_lines s' with
           | [] => [String a ""]
           | line :: lines => String a line :: lines
           end
  end.

Definition read_line (specs : list (TagSpec T)) (st : option T * list (TaggedLineSegment T)) (line : string) :
    option T * list (TaggedLineSegment T) :=
  let '(segment, active) := settle_line specs st.1 line in (active, push_segment st.2 segment).

Definition tagged_lines (specs : list (TagSpec T)) (text : string) : list (TaggedLineSegment T) :=
  let '(active, segments) := fold_left (read_line specs) (whole_lines text) (None, []) in
  match active with Some tag => push_segment segments (TagEnd tag) | None => segments end.

Definition merge_segments (segments : list (TaggedLineSegment T)) : list (TaggedLineSegment T) :=
  fold_left push_segment segments [].
End tagged.

(** ** Plans (proposed_plan.rs) *)

Definition OPEN_TAG : string := "<proposed_plan>".
Definition CLOSE_TAG : string := "</proposed_plan>".

Inductive PlanTag := ProposedPlan.

#[export] Instance plan_tag_eq_dec : EqDecision PlanTag.
Proof. solve_decision. Defined.

Inductive ProposedPlanSegment :=
| PlanNormal (text : string)
| ProposedPlanStart
| ProposedPlanDelta (text : string)
| ProposedPlanEnd.

Definition plan_specs : list (TagSpec PlanTag) := [mkTagSpec OPEN_TAG CLOSE_TAG ProposedPlan].

Record ProposedPlanParser := mkPlanParser { pp_parser : TaggedLineParser PlanTag }.

Definition plan_new : ProposedPlanParser := mkPlanParser (tagged_new plan_specs).

Definition map_segment (segment : TaggedLineSegment PlanTag) : ProposedPlanSegment :=
  match segment with
  | NormalText text => PlanNormal text
  | TagStart ProposedPlan => ProposedPlanStart
  | TagDelta ProposedPlan text => ProposedPlanDelta text
  | TagEnd ProposedPlan => ProposedPlanEnd
  end.

Definition segment_visible (segment : ProposedPlanSegment) : string :=
  match segment with PlanNormal text => text | _ => "" end.

Definition map_segments (segments : list (TaggedLineSegment PlanTag)) : StreamTextChunk ProposedPlanSegment :=
  fold_left (λ out segment,
    let mapped := map_segment segment in
    mkTextChunk (visible_text out +:+ segment_visible mapped) (extracted out ++ [mapped])) segments text_chunk_default.

Definition plan_push_str (chunk : string) (p : ProposedPlanParser) : StreamTextChunk ProposedPlanSegment * ProposedPlanParser :=
  let '(segments, q) := tagged_parse chunk (pp_parser p) in (map_segments segments, mkPlanParser q).

Definition plan_finish (p : ProposedPlanParser) : StreamTextChunk ProposedPlanSegment * ProposedPlanParser :=
  let '(segments, q) := tagged_finish (pp_parser p) in (map_segments segments, mkPlanParser q).

#[export] Instance plan_parser : StreamTextParser ProposedPlanParser ProposedPlanSegment := {
  push_str := plan_push_str;
  finish_text := plan_finish
}.

Definition strip_proposed_plan_blocks (text : string) : string :=
  let '(out, parser) := plan_push_str text plan_new in
  visible_text out +:+ visible_text (plan_finish parser).1.

Definition plan_text_step (st : string * bool) (segment : ProposedPlanSegment) : string * bool :=
  match segment with
  | ProposedPlanStart => ("", true)
  | ProposedPlanDelta delta => (st.1 +:+ delta, st.2)
  | ProposedPlanEnd | PlanNormal _ => st
  end.

Definition extract_proposed_plan_text (text : string) : option string :=
  let '(out, parser) := plan_push_str text plan_new in
  let '(plan_text, saw_plan_block) :=
    fold_left plan_text_step (extracted out ++ extracted (plan_finish parser).1) ("", false) in
  if saw_plan_block : bool then Some plan_text else None.

(** ** The text of the assistant (assistant_text.rs) *)

Record AssistantTextChunk := mkAssistantChunk {
  ac_visible_text : string;
  ac_citations : list string;
  ac_plan_segments : list ProposedPlanSegment
}.

Definition assistant_chunk_is_empty (c : AssistantTextChunk) : bool :=
  str_is_empty (ac_visible_text c)
  && match ac_citations c with [] => true | _ => false end
  && match ac_plan_segments c with [] => true | _ => false end.

Record AssistantTextStreamParser := mkAssistant {
  plan_mode : bool;
  as_citations : CitationStreamParser;
  as_plan : ProposedPlanParser
}.

Definition assistant_new (plan_mode : bool) : res AssistantTextStreamParser :=
  citations ← citation_new; Ok (mkAssistant plan_mode citations plan_new).

Definition parse_visible_text (p : AssistantTextStreamParser) (visible_text : string) :
    AssistantTextChunk * AssistantTextStreamParser :=
  if negb (plan_mode p) then (mkAssistantChunk visible_text [] [], p)
  else
    let '(plan_chunk, plan) := plan_push_str visible_text (as_plan p) in
    (mkAssistantChunk (TextStream.visible_text plan_chunk) [] (extracted plan_chunk), mkAssistant (plan_mode p) (as_citations p) plan).

Definition assistant_push_str (chunk : string) (p : AssistantTextStreamParser) : AssistantTextChunk * AssistantTextStreamParser :=
  let '(citation_chunk, citations) := citation_push_str chunk (as_citations p) in
  let '(out, p) := parse_visible_text (mkAssistant (plan_mode p) citations (as_plan p)) (visible_text citation_chunk) in
  (mkAssistantChunk (ac_visible_text out) (extracted citation_chunk) (ac_plan_segments out), p).

Definition assistant_finish (p : AssistantTextStreamParser) : AssistantTextChunk * AssistantTextStreamParser :=
  let '(citation_chunk, citations) := citation_finish (as_citations p) in
  let '(out, p) := parse_visible_text (mkAssistant (plan_mode p) citations (as_plan p)) (visible_text citation_chunk) in
  let '(out, p) :=
    if plan_mode p then
      let '(tail, plan) := plan_finish (as_plan p) in
      let p := mkAssistant (plan_mode p) (as_citations p) plan in
      if text_chunk_is_empty tail then (out, p)
      else (mkAssistantChunk (ac_visible_text out +:+ visible_text tail) (ac_citations out)
              (ac_plan_segments out ++ extracted tail), p)
    else (out, p) in
  (mkAssistantChunk (ac_visible_text out) (extracted citation_chunk) (ac_plan_segments out), p).

(** ** Bytes (utf8_stream.rs) *)

Inductive Utf8StreamParserError :=
| InvalidUtf8 (at_offset : nat) (length : nat)
| IncompleteUtf8AtEof.

Record Utf8StreamParser (P : Type) := mkUtf8Parser { us_inner : P; pending_utf8 : string }.
Arguments mkUtf8Parser {P} _ _.
Arguments us_inner {P} _.
Arguments pending_utf8 {P} _.

Section utf8_stream.
Context `{StreamTextParser P X}.

Definition utf8_new (inner : P) : Utf8StreamParser P := mkUtf8Parser inner "".

(** An error leaves the parser as it was.  The prefix up to [valid_up_to] is
    valid, so that its own check, which the code repeats, does not fail. *)
Definition push_bytes (chunk : string) (p : Utf8StreamParser P) :
    (Utf8StreamParserError + StreamTextChunk X) * Utf8StreamParser P :=
  let pending := pending_utf8 p +:+ chunk in
  match utf8_error pending with
  | None => let '(out, inner) := push_str pending (us_inner p) in (inr out, mkUtf8Parser inner "")
  | Some (mkUtf8Error at_offset (Some error_len)) => (inl (InvalidUtf8 at_offset error_len), p)
  | Some (mkUtf8Error at_offset None) =>
      if (at_offset =? 0)%nat then (inr text_chunk_default, mkUtf8Parser (us_inner p) pending)
      else
        match utf8_error (str_take at_offset pending) with
        | Some e => (inl (InvalidUtf8 (valid_up_to e) (default 0%nat (error_len e))), p)
        | None =>
            let '(out, inner) := push_str (str_take at_offset pending) (us_inner p) in
            (inr out, mkUtf8Parser inner (str_drop at_offset pending))
        end
  end.

Definition pending_error (p : Utf8StreamParser P) : option Utf8StreamParserError :=
  match utf8_error (pending_utf8 p) with
  | None => None
  | Some (mkUtf8Error at_offset (Some error_len)) => Some (InvalidUtf8 at_offset error_len)
  | Some (mkUtf8Error _ None) => Some IncompleteUtf8AtEof
  end.

Definition utf8_finish (p : Utf8StreamParser P) : (Utf8StreamParserError + StreamTextChunk X) * Utf8StreamParser P :=
  match pending_error p with
  | Some e => (inl e, p)
  | None =>
      let '(out, inner) :=
        if str_is_empty (pending_utf8 p) then (text_chunk_default, us_inner p)
        else push_str (pending_utf8 p) (us_inner p) in
      let '(tail, inner) := finish_text inner in
      (inr (text_chunk_app out tail), mkUtf8Parser inner "")
  end.

Definition into_inner (p : Utf8StreamParser P) : Utf8StreamParserError + P :=
  if str_is_empty (pending_utf8 p) then inr (us_inner p)
  else match pending_error p with Some e => inl e | None => inr (us_inner p) end.

Definition into_inner_lossy (p : Utf8StreamParser P) : P := us_inner p.

(** Pieces of bytes until the first error, and the end of the stream. *)
Fixpoint bytes_all (pieces : list string) (p : Utf8StreamParser P) : Utf8StreamParserError + StreamTextChunk X :=
  match pieces with
  | [] => (utf8_finish p).1
  | piece :: pieces' =>
      match push_bytes piece p with
      | (inl e, _) => inl e
      | (inr out, q) => match bytes_all pieces' q with inl e => inl e | inr outs => inr (text_chunk_app out outs) end
      end
  end.
End utf8_stream.

Definition utf8_stream_error_text (e : Utf8StreamParserError) : string :=
  match e with
  | InvalidUtf8 at_offset length =>
      "invalid UTF-8 in streamed bytes at offset " +:+ pretty at_offset +:+ " (error length " +:+ pretty length +:+ ")"
  | IncompleteUtf8AtEof => "incomplete UTF-8 code point at end of stream"
  end.

Definition demo_text : string :=
  "Intro" +:+ String newline "" +:+ "<proposed_plan>" +:+ String newline "" +:+ "- step" +:+ String newline "" +:+ "</proposed_plan>" +:+ String newline "" +:+ "Outro".

Example demo_plan :
  extract_proposed_plan_text demo_text = Some ("- step" +:+ String newline "") ∧
  strip_proposed_plan_blocks demo_text = "Intro" +:+ String newline "" +:+ "Outro".
Proof. split; vm_compute; reflexivity. Qed.
