(* ===== verification/AssistantFacts.v ===== *)
(** * The text of the assistant, however it arrives

    Holding back the beginning of a line as long as it may become a tag, and
    showing the rest at once, gives the segments of a reading line by line.
    Citations are taken out first and plans are read from what is left; bytes
    are handed on as the texts they encode.  None of it depends on how the
    stream is cut. *)

From Stdlib Require Import ZifyBool.
From S2P Require Import Prelude RustStr Os Utf8 TextStream TextStreamFacts TaggedLines.

(** ** White space, character by character *)

Definition ws_char (c : string) : bool :=
  match c with
  | String a EmptyString => ws1 a
  | String a (String b EmptyString) => ws2 a b
  | String a (String b (String d EmptyString)) => ws3 a b d
  | _ => false
  end.

Inductive char_shape : string → Prop :=
| shape1 a : (byte a < 128)%N → char_shape (String a "")
| shape2 a b : (194 <= byte a <= 223)%N → (128 <= byte b <= 191)%N → char_shape (String a (String b ""))
| shape3 a b d : (224 <= byte a <= 239)%N → (128 <= byte b <= 191)%N → (128 <= byte d <= 191)%N → char_shape (String a (String b (String d "")))
| shape4 a b d f : (240 <= byte a)%N → (128 <= byte b <= 191)%N → (128 <= byte d <= 191)%N → (128 <= byte f <= 191)%N →
    char_shape (String a (String b (String d (String f "")))).

Lemma is_char_shape c : is_char c = true → char_shape c.
Proof.
  assert (∀ k n (b : bool), (k =? n)%nat && b = true → k = n) as Hk by (intros k n b; rewrite andb_true_iff, Nat.eqb_eq; by intros []).
  assert (∀ a b, second_ok a b = true → (128 <= byte b <= 191)%N) as Hsecond.
  { intros a b. unfold second_ok, in_range. repeat case_match; lia. }
  assert (∀ b, is_continuation b = true → (128 <= byte b <= 191)%N) as Hcont.
  { intros b. unfold is_continuation, in_range. lia. }
  destruct c as [|a c]; [done|]. unfold is_char. cbn [next_chunk].
  destruct (byte a <? 128)%N eqn:E1; [intros H%Hk; destruct c; [|done]; constructor; lia|].
  destruct (in_range 194 223 a) eqn:E2.
  { destruct c as [|b c]; [done|]. destruct (is_continuation b) eqn:Eb; [|done]. intros H%Hk. destruct c; [|done].
    constructor; [unfold in_range in E2; lia|by apply Hcont]. }
  destruct (in_range 224 239 a) eqn:E3.
  { destruct c as [|b [|d c]]; [done|by destruct (second_ok a b)|].
    destruct (second_ok a b) eqn:Eb; [|done]. destruct (is_continuation d) eqn:Ed; [|done]. intros H%Hk. destruct c; [|done].
    constructor; [unfold in_range in E3; lia|by apply (Hsecond a)|by apply Hcont]. }
  destruct (in_range 240 244 a) eqn:E4; [|done].
  destruct c as [|b [|d [|f c]]]; [done|by destruct (second_ok a b)|..];
    (destruct (second_ok a b) eqn:Eb; [|done]; destruct (is_continuation d) eqn:Ed; [|done]); [done|].
  destruct (is_continuation f) eqn:Ef; [|done]. intros H%Hk. destruct c; [|done].
  constructor; [unfold in_range in E4; lia|by apply (Hsecond a)|by apply Hcont|by apply Hcont].
Qed.

Ltac no_ws := unfold ws1, ws2, ws3, in_range; lia.

Lemma trim_start_char c s : is_char c = true → trim_start (c +:+ s) = if ws_char c then trim_start s else c +:+ s.
Proof.
  intros Hc%is_char_shape. destruct Hc as [a Ha|a b Ha Hb|a b d Ha Hb Hd|a b d f Ha Hb Hd Hf];
    rewrite !str_app_cons; change ("" +:+ s) with s; cbn [trim_start ws_char].
  - destruct (ws1 a); [done|]. destruct s as [|b s]; [done|]. assert (ws2 a b = false) as -> by no_ws.
    destruct s as [|d s]; [done|]. by assert (ws3 a b d = false) as -> by no_ws.
  - assert (ws1 a = false) as -> by no_ws. destruct (ws2 a b); [done|]. destruct s as [|d s]; [done|].
    by assert (ws3 a b d = false) as -> by no_ws.
  - assert (ws1 a = false) as -> by no_ws. by assert (ws2 a b = false) as -> by no_ws.
  - assert (ws1 a = false) as -> by no_ws. assert (ws2 a b = false) as -> by no_ws. by assert (ws3 a b d = false) as -> by no_ws.
Qed.

Lemma trim_end_char_last c s : is_char c = true → trim_end (s +:+ c) = if ws_char c then trim_end s else s +:+ c.
Proof.
  intros Hc. unfold trim_end. rewrite str_rev_append.
  assert (trim_start_rev (str_rev c +:+ str_rev s) = if ws_char c then trim_start_rev (str_rev s) else str_rev c +:+ str_rev s) as ->.
  { apply is_char_shape in Hc. generalize (str_rev s). clear s. intros s.
    destruct Hc as [a Ha|a b Ha Hb|a b d Ha Hb Hd|a b d f Ha Hb Hd Hf]; unfold str_rev; cbn [str_rev_app];
      rewrite !str_app_cons; change ("" +:+ s) with s; cbn [trim_start_rev ws_char].
    - destruct (ws1 a); [done|]. destruct s as [|b s]; [done|]. assert (ws2 b a = false) as -> by no_ws.
      destruct s as [|d s]; [done|]. by assert (ws3 d b a = false) as -> by no_ws.
    - assert (ws1 b = false) as -> by no_ws. destruct (ws2 a b); [done|]. destruct s as [|d s]; [done|].
      by assert (ws3 d a b = false) as -> by no_ws.
    - assert (ws1 d = false) as -> by no_ws. by assert (ws2 b d = false) as -> by no_ws.
    - assert (ws1 f = false) as -> by no_ws. assert (ws2 d f = false) as -> by no_ws. by assert (ws3 b d f = false) as -> by no_ws. }
  destruct (ws_char c); [done|]. by rewrite <- str_rev_append, str_rev_involutive.
Qed.

(** ** Trimming lists of characters *)

Fixpoint drop_ws (cs : list string) : list string :=
  match cs with
  | [] => []
  | c :: cs' => if ws_char c then drop_ws cs' else cs
  end.

Definition trim_ws (cs : list string) : list string := reverse (drop_ws (reverse cs)).

Lemma trim_ws_snoc cs c : trim_ws (cs ++ [c]) = if ws_char c then trim_ws cs else cs ++ [c].
Proof.
  unfold trim_ws. rewrite reverse_snoc. cbn [drop_ws]. destruct (ws_char c); [done|]. by rewrite reverse_cons, reverse_involutive.
Qed.

Lemma trim_start_chars cs : Forall (λ c, is_char c = true) cs → trim_start (concat_str cs) = concat_str (drop_ws cs).
Proof.
  induction 1 as [|c cs Hc _ IH]; [done|]. change (concat_str (c :: cs)) with (c +:+ concat_str cs).
  rewrite trim_start_char by done. cbn [drop_ws]. by destruct (ws_char c).
Qed.

Lemma trim_end_chars cs : Forall (λ c, is_char c = true) cs → trim_end (concat_str cs) = concat_str (trim_ws cs).
Proof.
  induction cs as [|c cs IH] using rev_ind; [done|]. rewrite Forall_app, Forall_singleton. intros [Hcs Hc].
  rewrite concat_str_app, trim_ws_snoc. change (concat_str [c]) with (c +:+ ""). rewrite str_app_nil, trim_end_char_last by done.
  destruct (ws_char c); [by apply IH|]. rewrite concat_str_app. change (concat_str [c]) with (c +:+ ""). by rewrite str_app_nil.
Qed.

Lemma drop_ws_app cs ds : drop_ws cs = [] ∨ drop_ws (cs ++ ds) = drop_ws cs ++ ds.
Proof. induction cs as [|c cs IH]; [by left|]. cbn. destruct (ws_char c); [done|by right]. Qed.

Lemma drop_ws_chars cs : Forall (λ c, is_char c = true) cs → Forall (λ c, is_char c = true) (drop_ws cs).
Proof. induction 1 as [|c cs Hc Hcs IH]; [constructor|]. cbn. destruct (ws_char c); [done|by constructor]. Qed.

Lemma trim_ws_prefix cs ds : trim_ws cs `prefix_of` trim_ws (cs ++ ds).
Proof.
  induction ds as [|d ds IH] using rev_ind; [by rewrite app_nil_r|].
  rewrite app_assoc, trim_ws_snoc. destruct (ws_char d); [done|]. rewrite <- app_assoc.
  apply prefix_app_r. clear IH. induction cs as [|c cs IH] using rev_ind; [done|].
  rewrite trim_ws_snoc. destruct (ws_char c); [by apply prefix_app_r|done].
Qed.

(** What a beginning of a line is trimmed to begins what the line is trimmed
    to. *)
Lemma slug_prefix cs ds :
  Forall (λ c, is_char c = true) (cs ++ ds) →
  trim_start (concat_str cs) = "" ∨
  starts_with (trim_end (trim_start (concat_str (cs ++ ds)))) (trim_end (trim_start (concat_str cs))) = true.
Proof.
  intros Hf. pose proof Hf as [Hc _]%Forall_app. rewrite !trim_start_chars by done.
  destruct (drop_ws_app cs ds) as [->|E]; [by left|right].
  rewrite !trim_end_chars by (by apply drop_ws_chars). rewrite E.
  destruct (trim_ws_prefix (drop_ws cs) ds) as [u ->]. rewrite concat_str_app. apply starts_with_app.
Qed.

(** ** Segments *)

Section segments.
Context {T : Type} `{EqDecision T}.
Implicit Types (segments : list (TaggedLineSegment T)) (active : option T).

Lemma str_app_nonempty a b : a ≠ "" → a +:+ b ≠ "".
Proof. by destruct a. Qed.

Lemma push_segment_empty segments active : push_segment segments (text_segment active "") = segments.
Proof. by destruct active. Qed.

Lemma push_text_app segments active a b :
  push_segment segments (text_segment active (a +:+ b)) = push_segment (push_segment segments (text_segment active a)) (text_segment active b).
Proof.
  destruct (decide (a = "")) as [->|Ha]; [by rewrite push_segment_empty|].
  destruct (decide (b = "")) as [->|Hb]; [by rewrite str_app_nil, push_segment_empty|].
  pose proof (str_app_nonempty a b Ha) as Hab. apply str_nonempty in Ha, Hb, Hab.
  destruct active as [tag|]; cbn [text_segment push_segment]; rewrite Ha, Hb, Hab.
  - destruct (last segments) as [[| |tag' text|]|] eqn:El; cbn [app];
      try (rewrite last_snoc, decide_True by done; by rewrite List.removelast_last).
    destruct (decide (tag' = tag)) as [->|Ht]; rewrite last_snoc, decide_True, List.removelast_last by done; by rewrite ?str_app_assoc.
  - destruct (last segments) as [[text| | |]|] eqn:El; rewrite last_snoc, List.removelast_last; by rewrite ?str_app_assoc.
Qed.

(** A segment pushed is joined with the last one, or added. *)
Lemma push_segment_cases segments x :
  (push_segment segments x = segments ∧ ∃ active, x = text_segment active "") ∨
  push_segment segments x = segments ++ [x] ∨
  ∃ segments' active a b, segments = segments' ++ [text_segment active a] ∧ x = text_segment active b ∧
    push_segment segments x = segments' ++ [text_segment active (a +:+ b)].
Proof.
  assert (∀ y, last segments = Some y → segments = removelast segments ++ [y]) as Hlast.
  { intros y Hy. apply last_Some in Hy as [l ->]. by rewrite List.removelast_last. }
  destruct x as [text|tag|tag text|tag]; cbn [push_segment]; [|by right; left| |by right; left].
  - destruct (str_is_empty text) eqn:Et; [left; split; [done|]; exists None; by apply String.eqb_eq in Et as ->|].
    destruct (last segments) as [[text'| | |]|] eqn:El; [|by right; left..]. do 2 right. exists (removelast segments), None, text', text. auto.
  - destruct (str_is_empty text) eqn:Et; [left; split; [done|]; exists (Some tag); by apply String.eqb_eq in Et as ->|].
    destruct (last segments) as [[| |tag' text'|]|] eqn:El; try (by right; left).
    destruct (decide (tag' = tag)) as [->|]; [|by right; left]. do 2 right. exists (removelast segments), (Some tag), text', text. auto.
Qed.

Lemma push_segments_last base segments x :
  fold_left push_segment (push_segment segments x) base = push_segment (fold_left push_segment segments base) x.
Proof.
  destruct (push_segment_cases segments x) as [[-> [active ->]]|[->|(segs & active & a & b & -> & -> & ->)]].
  - by rewrite push_segment_empty.
  - by rewrite fold_left_app.
  - rewrite !fold_left_app. cbn. apply push_text_app.
Qed.

Lemma push_segments_join base segments more :
  fold_left push_segment (fold_left push_segment more segments) base = fold_left push_segment more (fold_left push_segment segments base).
Proof.
  revert segments. induction more as [|x more IH]; intros segments; [done|]. cbn [fold_left].
  by rewrite IH, push_segments_last.
Qed.

(** Operations that only push: what they do to [segments] is pushing what they
    do to nothing. *)
Definition pushes (f : list (TaggedLineSegment T) → list (TaggedLineSegment T)) : Prop :=
  ∀ segments, f segments = fold_left push_segment (f []) segments.

Lemma pushes_id : pushes (λ segments, segments).
Proof. done. Qed.

Lemma pushes_segment x : pushes (λ segments, push_segment segments x).
Proof. intros segments. by rewrite push_segments_last. Qed.

Lemma pushes_comp f g : pushes f → pushes g → pushes (λ segments, f (g segments)).
Proof. intros Hf Hg segments. rewrite (Hf (g segments)), (Hg segments), (Hf (g [])). by rewrite push_segments_join. Qed.

(** ** One character *)

Definition st_parser (st : LineState (T := T)) : TaggedLineParser T := st.1.1.
Definition st_run (st : LineState (T := T)) : string := st.1.2.
Definition st_segments (st : LineState (T := T)) : list (TaggedLineSegment T) := st.2.

(** The parser and the text collected do not depend on the segments. *)
Lemma parse_char_pushes p run ch :
  ∃ q run' f, pushes f ∧ ∀ segments, parse_char (p, run, segments) ch = (q, run', f segments).
Proof.
  unfold parse_char. destruct (detect_tag p).
  - set (r := mkTagged _ _ _ _). set (g := λ segments, flush_run p run segments).
    assert (pushes g) as Hg by (unfold g, flush_run; destruct (str_is_empty run); [apply pushes_id|apply pushes_segment]).
    destruct (ch == _).
    + unfold finish_line. destruct (settle_line _ _ _) as [x act]. eexists _, _, (λ segments, push_segment (g segments) x).
      split; [|done]. apply (pushes_comp (λ s, push_segment s x) g); [apply pushes_segment|done].
    + destruct (_ || _); [by eexists _, _, g|].
      eexists _, _, (λ segments, push_segment (g segments) (text_segment (active_tag r) (tl_line_buffer p +:+ ch))).
      split; [|done]. apply (pushes_comp (λ s, push_segment s _) g); [apply pushes_segment|done].
  - destruct (ch == _); [eexists _, _, (λ segments, push_segment segments (text_segment (active_tag p) (run +:+ ch))); split; [apply pushes_segment|done]|].
    eexists _, _, (λ segments, segments). split; [apply pushes_id|done].
Qed.

Lemma parse_chars_pushes cs p run :
  ∃ q run' f, pushes f ∧ ∀ segments, fold_left parse_char cs (p, run, segments) = (q, run', f segments).
Proof.
  revert p run. induction cs as [|c cs IH]; intros p run; cbn [fold_left].
  - eexists _, _, (λ segments, segments). split; [apply pushes_id|done].
  - destruct (parse_char_pushes p run c) as (q & run1 & f & Hf & E). destruct (IH q run1) as (q' & run2 & g & Hg & E').
    eexists q', run2, (λ segments, g (f segments)). split; [by apply pushes_comp|]. intros segments. by rewrite E, E'.
Qed.
End segments.

(** ** Pieces and the whole *)

Section pieces.
Context {T : Type} `{EqDecision T}.

Lemma flush_run_push (p : TaggedLineParser T) run segments : flush_run p run segments = push_segment segments (text_segment (active_tag p) run).
Proof.
  unfold flush_run, push_text. destruct (str_is_empty run) eqn:E; [|done]. apply String.eqb_eq in E as ->. by rewrite push_segment_empty.
Qed.

(** The same but for text that has been pushed already. *)
Definition same_reading (a b : LineState (T := T)) : Prop :=
  st_parser a = st_parser b ∧ flush_run (st_parser a) (st_run a) (st_segments a) = flush_run (st_parser b) (st_run b) (st_segments b).

Lemma parse_char_same a b ch : same_reading a b → same_reading (parse_char a ch) (parse_char b ch).
Proof.
  destruct a as [[p run] segs], b as [[p' run'] segs']. unfold same_reading, st_parser, st_run, st_segments. cbn. intros [<- E].
  destruct (detect_tag p); [by rewrite E|].
  rewrite !flush_run_push in E.
  destruct (ch == _); cbn; unfold push_text; rewrite ?flush_run_push, ?push_segment_empty, !push_text_app, E; done.
Qed.

Lemma parse_chars_same cs a b : same_reading a b → same_reading (fold_left parse_char cs a) (fold_left parse_char cs b).
Proof. revert a b. induction cs as [|c cs IH]; intros a b Hab; [done|]. by apply IH, parse_char_same. Qed.

Lemma tagged_parse_from piece (p : TaggedLineParser T) base :
  same_reading (fold_left parse_char (chars piece) (p, "", base))
    ((tagged_parse piece p).2, "", fold_left push_segment (tagged_parse piece p).1 base).
Proof.
  unfold tagged_parse. destruct (parse_chars_pushes (chars piece) p "") as (q & run & f & Hf & E).
  rewrite !E. unfold same_reading, st_parser, st_run, st_segments. cbn. split; [done|].
  rewrite !flush_run_push, ?push_segment_empty, push_segments_last. by rewrite <- Hf.
Qed.

(** All the pieces one after another. *)
Fixpoint tagged_pieces (pieces : list string) (p : TaggedLineParser T) : list (TaggedLineSegment T) * TaggedLineParser T :=
  match pieces with
  | [] => ([], p)
  | piece :: pieces' =>
      let '(segments, q) := tagged_parse piece p in
      let '(more, q') := tagged_pieces pieces' q in
      (segments ++ more, q')
  end.

Lemma tagged_pieces_whole pieces (p : TaggedLineParser T) base :
  Forall valid pieces →
  same_reading (fold_left parse_char (chars (concat_str pieces)) (p, "", base))
    ((tagged_pieces pieces p).2, "", fold_left push_segment (tagged_pieces pieces p).1 base).
Proof.
  intros Hv. revert p base. induction Hv as [|piece pieces Hp _ IH]; intros p base; [done|].
  change (concat_str (piece :: pieces)) with (piece +:+ concat_str pieces). rewrite chars_app, fold_left_app by done.
  destruct (parse_chars_same (chars (concat_str pieces)) _ _ (tagged_parse_from piece p base)) as [E1 E2].
  cbn [tagged_pieces]. destruct (tagged_parse piece p) as [segments q]. cbn in E1, E2.
  destruct (IH q (fold_left push_segment segments base)) as [E3 E4].
  destruct (tagged_pieces pieces q) as [more q']. cbn in *. rewrite fold_left_app. split; [by rewrite E1|by rewrite E2].
Qed.
End pieces.

(** ** Line by line *)

Definition one_line (s : string) : bool := str_forall (λ a, negb (Ascii.eqb a newline)) s.

Definition nl : string := String newline "".

Lemma char_one_line c : is_char c = true → c ≠ nl → one_line c = true.
Proof.
  assert (∀ a, (128 <= byte a)%N → Ascii.eqb a newline = false) as Hbig.
  { intros a Ha. apply Ascii.eqb_neq. intros ->. by vm_compute in Ha. }
  intros Hc%is_char_shape Hn. unfold one_line.
  destruct Hc as [a Ha|a b Ha Hb|a b d Ha Hb Hd|a b d f Ha Hb Hd Hf]; cbn [str_forall]; [|by rewrite !Hbig by lia..].
  rewrite andb_true_r. apply negb_true_iff, Ascii.eqb_neq. by intros ->.
Qed.

Lemma whole_lines_line s rest : one_line s = true → whole_lines (s +:+ nl +:+ rest) = (s +:+ nl) :: whole_lines rest.
Proof.
  unfold one_line. induction s as [|a s IH]; [done|]. cbn [str_forall]. intros [Ha Hs]%andb_true_iff.
  rewrite str_app_cons. cbn [whole_lines]. apply negb_true_iff in Ha. rewrite Ha, IH by done. done.
Qed.

Lemma whole_lines_last s : one_line s = true → s ≠ "" → whole_lines s = [s].
Proof.
  unfold one_line. induction s as [|a s IH]; [done|]. cbn [str_forall whole_lines]. intros [Ha Hs]%andb_true_iff _.
  apply negb_true_iff in Ha. rewrite Ha. destruct s as [|b s]; [done|]. by rewrite IH.
Qed.

Lemma without_newline_line s : without_newline (s +:+ nl) = s.
Proof.
  unfold without_newline. rewrite str_ends_with_app, str_length_app. cbn.
  replace (String.length s + 1 - 1)%nat with (String.length s) by lia. apply str_take_app.
Qed.

Lemma without_newline_last s : one_line s = true → without_newline s = s.
Proof.
  intros H. unfold without_newline. destruct (str_ends_with s _) eqn:E; [|done]. exfalso.
  unfold str_ends_with in E. apply andb_true_iff in E as [_ E%String.eqb_eq].
  rewrite <- (str_take_drop (String.length s - 1) s) in H. cbn [String.length] in E. rewrite E in H.
  unfold one_line in H. rewrite str_forall_app in H. cbn in H. by rewrite andb_false_r in H.
Qed.

Section lines.
Context {T : Type} `{EqDecision T} (specs : list (TagSpec T)).

Definition slug_of (s : string) : string := trim_end (trim_start s).

Lemma settle_text active line s :
  without_newline line = s → match_open specs (slug_of s) = None → match_close specs (slug_of s) = None →
  settle_line specs active line = (text_segment active line, active).
Proof. intros <- Ho Hc. unfold settle_line, slug_of in *. by rewrite Ho, Hc. Qed.

(** A line that was shown before its end is no tag, whatever its end. *)
Lemma shown_is_text (p : TaggedLineParser T) cs more :
  tl_specs p = specs → Forall (λ c, is_char c = true) (cs ++ more) →
  str_is_empty (trim_start (concat_str cs)) = false → is_tag_prefix p (trim_start (concat_str cs)) = false →
  match_open specs (slug_of (concat_str (cs ++ more))) = None ∧ match_close specs (slug_of (concat_str (cs ++ more))) = None.
Proof.
  intros Hsp Hcs Hne Hpre. apply str_nonempty in Hne.
  destruct (slug_prefix cs more Hcs) as [?|Hslug]; [done|]. unfold is_tag_prefix in Hpre. rewrite Hsp in Hpre.
  apply not_true_iff_false in Hpre. unfold match_open, match_close, slug_of. split.
  - destruct (find _ specs) as [spec|] eqn:E; [|done]. exfalso. apply List.find_some in E as [Hin E%String.eqb_eq]. apply Hpre.
    apply existsb_exists. exists spec. split; [done|]. apply orb_true_iff. left. by rewrite E.
  - destruct (find _ specs) as [spec|] eqn:E; [|done]. exfalso. apply List.find_some in E as [Hin E%String.eqb_eq]. apply Hpre.
    apply existsb_exists. exists spec. split; [done|]. apply orb_true_iff. right. by rewrite E.
Qed.

(** After the lines [read] and the characters [cs] of the next one. *)
Definition line_inv (read cs : list string) (st : LineState (T := T)) : Prop :=
  let p := st_parser st in
  let ref := fold_left (read_line specs) read (None, []) in
  Forall (λ c, is_char c = true) cs ∧ one_line (concat_str cs) = true ∧ tl_specs p = specs ∧ active_tag p = ref.1 ∧
  ((detect_tag p = true ∧ tl_line_buffer p = concat_str cs ∧ st_run st = "" ∧ st_segments st = ref.2) ∨
   (detect_tag p = false ∧ tl_line_buffer p = "" ∧ cs ≠ [] ∧
    push_segment (st_segments st) (text_segment ref.1 (st_run st)) = push_segment ref.2 (text_segment ref.1 (concat_str cs)) ∧
    ∀ more, Forall (λ c, is_char c = true) more →
      match_open specs (slug_of (concat_str (cs ++ more))) = None ∧ match_close specs (slug_of (concat_str (cs ++ more))) = None)).

Lemma concat_str_snoc cs c : concat_str (cs ++ [c]) = concat_str cs +:+ c.
Proof. rewrite concat_str_app. change (concat_str [c]) with (c +:+ ""). by rewrite str_app_nil. Qed.

Lemma line_inv_newline read cs st : line_inv read cs st → line_inv (read ++ [concat_str cs +:+ nl]) [] (parse_char st nl).
Proof.
  destruct st as [[p run] segs]. unfold line_inv, st_parser, st_run, st_segments. cbn [fst snd].
  rewrite fold_left_app. cbn [fold_left]. destruct (fold_left (read_line specs) read (None, [])) as [act rs]. cbn [fst snd].
  intros (Hcs & Hone & Hsp & Hact & Hst). unfold parse_char, read_line. cbn [fst snd].
  change (nl == String newline "") with true.
  destruct Hst as [(Hd & Hb & -> & ->)|(Hd & Hb & Hne & Hpush & Hmore)]; rewrite Hd.
  - cbn [flush_run str_is_empty String.eqb]. unfold finish_line. cbn [tl_specs active_tag tl_line_buffer].
    rewrite Hsp, Hact, Hb. destruct (settle_line specs act (concat_str cs +:+ nl)) as [x act']. cbn.
    split_and!; [constructor|done|done|done|by left].
  - destruct (Hmore [] (Forall_nil_2 _)) as [Ho Hc]. rewrite app_nil_r in Ho, Hc.
    rewrite (settle_text act _ _ (without_newline_line _) Ho Hc). cbn. rewrite Hb, Hact.
    split_and!; [constructor|done|done|done|]. left. split_and!; [done|done|done|].
    unfold push_text. cbn. by rewrite Hact, !push_text_app, Hpush.
Qed.

Lemma line_inv_char read cs st c : is_char c = true → c ≠ nl → line_inv read cs st → line_inv read (cs ++ [c]) (parse_char st c).
Proof.
  intros Hc Hn. destruct st as [[p run] segs]. unfold line_inv, st_parser, st_run, st_segments. cbn [fst snd].
  destruct (fold_left (read_line specs) read (None, [])) as [act rs]. cbn [fst snd].
  intros (Hcs & Hone & Hsp & Hact & Hst). unfold parse_char.
  assert ((c == String newline "") = false) as -> by (by apply String.eqb_neq).
  assert (Forall (λ c, is_char c = true) (cs ++ [c])) as Hcs' by (apply Forall_app; split; [done|by constructor]).
  assert (one_line (concat_str (cs ++ [c])) = true) as Hone'.
  { rewrite concat_str_snoc. unfold one_line in *. rewrite str_forall_app, Hone. by apply char_one_line. }
  destruct Hst as [(Hd & Hb & -> & ->)|(Hd & Hb & Hne & Hpush & Hmore)]; rewrite Hd.
  - cbn [flush_run str_is_empty String.eqb]. rewrite Hb, <- concat_str_snoc. set (b := concat_str (cs ++ [c])) in *. set (q := mkTagged _ _ _ b).
    destruct (str_is_empty (trim_start b) || is_tag_prefix q (trim_start b)) eqn:E; cbn.
    + split_and!; [done|done|done|done|by left].
    + apply orb_false_iff in E as [E1 E2]. split_and!; [done|done|done|done|]. right. split_and!; [done|done|by destruct cs|..].
      * rewrite push_segment_empty. unfold push_text, q. cbn [active_tag]. by rewrite Hact.
      * intros more Hm. by apply (shown_is_text q); [|apply Forall_app|..].
  - cbn. split_and!; [done|done|done|done|]. right. split_and!; [done|done|by destruct cs|..].
    + by rewrite concat_str_snoc, !push_text_app, Hpush.
    + intros more Hm. rewrite <- app_assoc. apply Hmore. by constructor.
Qed.

Lemma lines_of_chars cs :
  Forall (λ c, is_char c = true) cs →
  ∃ read last, line_inv read last (fold_left parse_char cs (tagged_new specs, "", [])) ∧
    ∀ rest, whole_lines (concat_str cs +:+ rest) = read ++ whole_lines (concat_str last +:+ rest).
Proof.
  induction cs as [|c cs IH] using rev_ind.
  - intros _. exists [], []. split; [|done]. unfold line_inv. cbn. split_and!; [constructor|done|done|done|by left].
  - rewrite Forall_app, Forall_singleton. intros [Hcs Hc]. destruct (IH Hcs) as (read & last & Hinv & Hlines).
    rewrite fold_left_app. cbn [fold_left]. destruct (decide (c = nl)) as [->|Hn].
    + exists (read ++ [concat_str last +:+ nl]), []. split; [by apply line_inv_newline|]. intros rest.
      rewrite concat_str_snoc, str_app_assoc, Hlines, whole_lines_line by apply Hinv. by rewrite <- app_assoc.
    + exists read, (last ++ [c]). split; [by apply line_inv_char|]. intros rest. by rewrite !concat_str_snoc, !str_app_assoc, Hlines.
Qed.

Lemma finish_line_inv read last st :
  line_inv read last st →
  fold_left push_segment (tagged_finish (st_parser st)).1 (flush_run (st_parser st) (st_run st) (st_segments st)) =
  let '(active, segments) := fold_left (read_line specs) (read ++ whole_lines (concat_str last)) (None, []) in
  match active with Some tag => push_segment segments (TagEnd tag) | None => segments end.
Proof.
  destruct st as [[p run] segs]. unfold line_inv, st_parser, st_run, st_segments. cbn [fst snd].
  rewrite fold_left_app. destruct (fold_left (read_line specs) read (None, [])) as [act rs]. cbn [fst snd].
  intros (Hcs & Hone & Hsp & Hact & Hst). rewrite flush_run_push, Hact. unfold tagged_finish.
  destruct Hst as [(Hd & Hb & -> & ->)|(Hd & Hb & Hne & Hpush & Hmore)]; rewrite Hb.
  - rewrite push_segment_empty. destruct (str_is_empty (concat_str last)) eqn:E.
    + apply String.eqb_eq in E as ->. rewrite Hact. cbn. by destruct act.
    + apply str_nonempty in E. rewrite whole_lines_last by done. cbn [fold_left]. unfold read_line. cbn [fst snd]. rewrite Hsp, Hact.
      destruct (settle_line specs act (concat_str last)) as [x act']. cbn [fst].
      destruct act' as [tag|]; rewrite ?push_segments_last; cbn; done.
  - cbn [str_is_empty String.eqb]. rewrite Hact, Hpush.
    destruct (Hmore [] (Forall_nil_2 _)) as [Ho Hc]. rewrite app_nil_r in Ho, Hc.
    assert (concat_str last ≠ "") as Hlast.
    { destruct last as [|c last]; [done|]. apply Forall_cons in Hcs as [Hc' _]. cbn. by destruct c. }
    rewrite whole_lines_last by done. cbn [fold_left]. unfold read_line. cbn [fst snd].
    rewrite (settle_text act _ _ (without_newline_last _ Hone) Ho Hc). by destruct act.
Qed.

Lemma tagged_stream_lines pieces :
  Forall valid pieces →
  merge_segments (let '(segments, q) := tagged_pieces pieces (tagged_new specs) in segments ++ (tagged_finish q).1) =
  tagged_lines specs (concat_str pieces).
Proof.
  intros Hv. unfold merge_segments.
  destruct (tagged_pieces_whole pieces (tagged_new specs) [] Hv) as [E1 E2].
  pose proof (valid_pieces _ Hv) as Hc.
  destruct (lines_of_chars (chars (concat_str pieces)) (chars_are _ Hc)) as (read & last & Hinv & Hlines).
  pose proof (finish_line_inv _ _ _ Hinv) as Hfin. 
  destruct (tagged_pieces pieces (tagged_new specs)) as [segments q]. cbn [fst snd] in *.
  rewrite fold_left_app. rewrite E2, E1 in Hfin. unfold st_parser, st_run, st_segments in Hfin. cbn [fst snd] in Hfin.
  rewrite flush_run_push, push_segment_empty in Hfin. rewrite Hfin. unfold tagged_lines.
  pose proof (Hlines "") as Hl. rewrite !str_app_nil, chars_concat in Hl by done. by rewrite Hl.
Qed.
End lines.

(** ** Outputs one by one *)

Section outputs.
Context `{StreamTextParser P X}.

Fixpoint stream_outputs (pieces : list string) (p : P) : list (StreamTextChunk X) :=
  match pieces with
  | [] => [(finish_text p).1]
  | piece :: pieces' => let '(out, q) := push_str piece p in out :: stream_outputs pieces' q
  end.

Definition join_chunks (outs : list (StreamTextChunk X)) : StreamTextChunk X := foldr text_chunk_app text_chunk_default outs.

Lemma stream_all_outputs pieces p : stream_all pieces p = join_chunks (stream_outputs pieces p).
Proof.
  unfold stream_all, join_chunks. revert p. induction pieces as [|piece pieces IH]; intros p; cbn [stream_pieces stream_outputs].
  - cbn [foldr]. by rewrite text_chunk_app_default, text_chunk_app_default_r.
  - destruct (push_str piece p) as [out q]. specialize (IH q). destruct (stream_pieces pieces q) as [outs q']. cbn [foldr].
    by rewrite text_chunk_app_assoc, IH.
Qed.

Lemma join_chunks_visible outs : visible_text (join_chunks outs) = concat_str (map visible_text outs).
Proof. unfold join_chunks, concat_str. induction outs as [|o outs IH]; [done|]. cbn. by rewrite IH. Qed.

Lemma join_chunks_extracted outs : extracted (join_chunks outs) = concat (map extracted outs).
Proof. unfold join_chunks. induction outs as [|o outs IH]; [done|]. cbn. by rewrite IH. Qed.
End outputs.

(** ** Citations *)

Lemma citation_outputs pieces p : stream_outputs pieces (mkCitations p) = map contents (stream_outputs pieces p).
Proof.
  revert p. induction pieces as [|piece pieces IH]; intros p; cbn [stream_outputs].
  - cbn. unfold citation_finish. cbn. by destruct (inline_finish p).
  - cbn [push_str citation_parser inline_parser]. unfold citation_push_str. cbn [cs_inner].
    destruct (inline_push_str piece p) as [out q]. cbn [map]. by rewrite IH.
Qed.

Lemma citation_nonempty spec : spec ∈ citation_specs → its_open spec ≠ "" ∧ its_close spec ≠ "".
Proof. by intros ->%list_elem_of_singleton. Qed.

Lemma citation_distinct : NoDup (map its_open citation_specs).
Proof. apply NoDup_singleton. Qed.

Lemma citation_stream_hides pieces :
  stream_all pieces (mkCitations (mkInline citation_specs "" None)) = contents (hidden citation_specs (concat_str pieces)).
Proof.
  rewrite stream_all_outputs, citation_outputs.
  assert (∀ outs : list (StreamTextChunk (ExtractedInlineTag CitationTag)), join_chunks (map contents outs) = contents (join_chunks outs)) as ->.
  { unfold join_chunks. induction outs as [|o outs IH]; [done|]. cbn [map foldr]. rewrite IH. unfold contents, text_chunk_app. cbn. by rewrite map_app. }
  rewrite <- stream_all_outputs. f_equal.
  rewrite (inline_stream_worth citation_specs citation_nonempty eq_refl citation_distinct eq_refl); [done|done|].
  intros spec ->%list_elem_of_singleton. done.
Qed.

(** What is shown is text again. *)
Lemma citation_outputs_valid pieces p :
  inline_ok citation_specs p → inline_quiet citation_specs p → valid (ih_pending p) → Forall valid pieces →
  Forall valid (map visible_text (stream_outputs pieces p)).
Proof.
  intros Hok Hq Hp Hv. revert p Hok Hq Hp. induction Hv as [|piece pieces Hpiece _ IH]; intros p Hok Hq Hp; cbn [stream_outputs].
  - cbn. unfold inline_finish. by destruct (ih_active p); constructor.
  - destruct (inline_push_passes citation_specs citation_nonempty eq_refl citation_distinct eq_refl p piece Hok Hq) as (o & E & H1 & H2 & _ & H3).
    destruct (H3 Hp Hpiece) as [Ho Hpend]. cbn [push_str inline_parser]. destruct (inline_push_str piece p) as [o' q]. cbn in *. subst o'.
    constructor; [done|]. by apply IH.
Qed.

(** ** Plans *)

Definition shown_text (segments : list (TaggedLineSegment PlanTag)) : string :=
  concat_str (map (λ s, segment_visible (map_segment s)) segments).

Lemma shown_text_app a b : shown_text (a ++ b) = shown_text a +:+ shown_text b.
Proof. unfold shown_text. by rewrite map_app, concat_str_app. Qed.

Lemma map_segments_spec segments : map_segments segments = mkTextChunk (shown_text segments) (map map_segment segments).
Proof.
  unfold map_segments. induction segments as [|x segments IH] using rev_ind; [done|].
  rewrite fold_left_app, IH, shown_text_app, map_app. cbn. unfold shown_text. cbn. by rewrite str_app_nil.
Qed.

Lemma shown_text_push segments x : shown_text (push_segment segments x) = shown_text segments +:+ shown_text [x].
Proof.
  destruct (push_segment_cases segments x) as [[-> [active ->]]|[->|(segs & active & a & b & -> & -> & ->)]].
  - destruct active as [[]|]; cbn; by rewrite str_app_nil.
  - apply shown_text_app.
  - rewrite !shown_text_app, str_app_assoc. f_equal. unfold shown_text. destruct active as [[]|]; cbn; by rewrite ?str_app_nil.
Qed.

Lemma shown_text_merge segments : shown_text (merge_segments segments) = shown_text segments.
Proof.
  unfold merge_segments. induction segments as [|x segments IH] using rev_ind; [done|].
  rewrite fold_left_app. cbn [fold_left]. by rewrite shown_text_push, IH, shown_text_app.
Qed.

Lemma plan_stream pieces p :
  stream_all pieces (mkPlanParser p) =
  let '(segments, q) := tagged_pieces pieces p in map_segments (segments ++ (tagged_finish q).1).
Proof.
  rewrite stream_all_outputs. revert p. induction pieces as [|piece pieces IH]; intros p; cbn [stream_outputs tagged_pieces].
  - cbn. unfold plan_finish. cbn. destruct (tagged_finish p) as [s q]. apply text_chunk_app_default_r.
  - cbn [push_str plan_parser]. unfold plan_push_str. cbn [pp_parser]. destruct (tagged_parse piece p) as [segments q].
    change (join_chunks (?o :: ?l)) with (text_chunk_app o (join_chunks l)). rewrite IH.
    destruct (tagged_pieces pieces q) as [more q']. rewrite <- app_assoc, !map_segments_spec.
    unfold text_chunk_app. cbn. by rewrite (shown_text_app segments), (map_app _ segments).
Qed.

(** ** The assistant *)

Definition assistant_chunk_app (a b : AssistantTextChunk) : AssistantTextChunk :=
  mkAssistantChunk (ac_visible_text a +:+ ac_visible_text b) (ac_citations a ++ ac_citations b) (ac_plan_segments a ++ ac_plan_segments b).

Fixpoint assistant_all (pieces : list string) (p : AssistantTextStreamParser) : AssistantTextChunk :=
  match pieces with
  | [] => (assistant_finish p).1
  | piece :: pieces' => let '(out, q) := assistant_push_str piece p in assistant_chunk_app out (assistant_all pieces' q)
  end.

Lemma text_chunk_empty {X} (c : StreamTextChunk X) : text_chunk_is_empty c = true → c = text_chunk_default.
Proof.
  destruct c as [v e]. unfold text_chunk_is_empty. cbn. intros [Hv He]%andb_true_iff. apply String.eqb_eq in Hv as ->. by destruct e.
Qed.

Lemma assistant_plan_mode pieces c pl :
  assistant_all pieces (mkAssistant true c pl) =
  let outs := stream_outputs pieces c in
  let plan := stream_all (map visible_text outs) pl in
  mkAssistantChunk (visible_text plan) (concat (map extracted outs)) (extracted plan).
Proof.
  cbn zeta. rewrite stream_all_outputs. revert c pl. induction pieces as [|piece pieces IH]; intros c pl; cbn [assistant_all stream_outputs].
  - unfold assistant_finish, parse_visible_text. cbn [finish_text citation_parser plan_parser as_citations plan_mode as_plan negb].
    destruct (citation_finish c) as [cc c']. cbn [plan_mode negb as_plan as_citations fst map stream_outputs].
    cbn [push_str plan_parser]. destruct (plan_push_str (visible_text cc) pl) as [pc pl']. cbn [plan_mode as_plan finish_text plan_parser].
    destruct (plan_finish pl') as [tail pl'']. cbn [fst]. 
    change (join_chunks [pc; tail]) with (text_chunk_app pc (text_chunk_app tail text_chunk_default)). rewrite text_chunk_app_default_r.
    destruct (text_chunk_is_empty tail) eqn:E; cbn; rewrite !app_nil_r; [|done].
    apply text_chunk_empty in E as ->. cbn. by rewrite str_app_nil, app_nil_r.
  - unfold assistant_push_str, parse_visible_text. cbn [push_str citation_parser as_citations plan_mode as_plan negb].
    destruct (citation_push_str piece c) as [cc c']. cbn [plan_mode negb as_plan as_citations map stream_outputs].
    cbn [push_str plan_parser]. destruct (plan_push_str (visible_text cc) pl) as [pc pl']. rewrite IH. done.
Qed.

Lemma assistant_text_mode pieces c pl :
  assistant_all pieces (mkAssistant false c pl) =
  let out := join_chunks (stream_outputs pieces c) in mkAssistantChunk (visible_text out) (extracted out) [].
Proof.
  cbn zeta. revert c pl. induction pieces as [|piece pieces IH]; intros c pl; cbn [assistant_all stream_outputs].
  - unfold assistant_finish, parse_visible_text. cbn [finish_text citation_parser as_citations plan_mode as_plan negb]. destruct (citation_finish c) as [cc c']. cbn.
    by rewrite str_app_nil, app_nil_r.
  - unfold assistant_push_str, parse_visible_text. cbn [push_str citation_parser as_citations plan_mode as_plan negb].
    destruct (citation_push_str piece c) as [cc c']. cbn [plan_mode negb]. by rewrite IH.
Qed.

(** C25. However the reply of the model is cut into pieces: the citations are those
    of the whole text; outside plan mode the rest is shown; in plan mode what is
    shown and the plan segments, once neighbours are joined, are those of a
    reading line by line of the text without citations. *)
Theorem assistant_stream_reads mode pieces p :
  assistant_new mode = Ok p → Forall valid pieces →
  let out := assistant_all pieces p in
  let h := contents (hidden citation_specs (concat_str pieces)) in
  ac_citations out = extracted h ∧
  if mode : bool then
    let lines := tagged_lines plan_specs (visible_text h) in
    ac_visible_text out = shown_text lines ∧
    ∃ segments, ac_plan_segments out = map map_segment segments ∧ merge_segments segments = lines
  else ac_visible_text out = visible_text h ∧ ac_plan_segments out = [].
Proof.
  intros [= <-] Hv. cbn zeta. pose proof (citation_stream_hides pieces) as Hc. rewrite stream_all_outputs in Hc. rewrite <- Hc.
  destruct mode; [|by rewrite assistant_text_mode].
  rewrite assistant_plan_mode, join_chunks_visible, join_chunks_extracted. cbn zeta. cbn [ac_citations ac_visible_text ac_plan_segments].
  split; [done|]. set (vs := map visible_text _).
  assert (Forall valid vs) as Hvs.
  { subst vs. rewrite citation_outputs, map_map. cbn. apply citation_outputs_valid; [done| |done|done].
    intros spec ->%list_elem_of_singleton. done. }
  unfold plan_new. rewrite plan_stream. pose proof (tagged_stream_lines plan_specs vs Hvs) as Hl.
  destruct (tagged_pieces vs (tagged_new plan_specs)) as [segments q]. rewrite map_segments_spec. cbn [visible_text extracted].
  rewrite <- Hl, shown_text_merge. split; [done|]. by eexists.
Qed.

Lemma assistant_stream_reads_witness :
  let out := assistant_all ["a<oai-mem-citation>x</oai"; "-mem-citation>"] (mkAssistant true (mkCitations (mkInline citation_specs "" None)) plan_new) in
  ac_citations out = ["x"] ∧ ac_visible_text out = "a".
Proof.
  destruct (assistant_stream_reads true ["a<oai-mem-citation>x</oai"; "-mem-citation>"]
    (mkAssistant true (mkCitations (mkInline citation_specs "" None)) plan_new)) as [H1 [H2 _]];
    [reflexivity|repeat constructor|].
  split; [rewrite H1|rewrite H2]; vm_compute; reflexivity.
Defined.

(** * Bytes cut anywhere (utf8_stream.rs)

    A character cut by the end of a piece waits for the next one, and an error
    of the stream is the first error of all its bytes. *)

(** ** Errors as bytes arrive *)

Lemma utf8_error_valid_app s t : valid s →
  utf8_error (s +:+ t) = (λ e, mkUtf8Error (String.length s + valid_up_to e) (error_len e)) <$> utf8_error t.
Proof.
  intros Hs%valid_text. induction Hs as [|c s Hc _ IH].
  - change ("" +:+ t) with t. by destruct (utf8_error t) as [[]|].
  - rewrite str_app_assoc, utf8_error_char, IH, str_length_app by done. destruct (utf8_error t) as [[]|]; [|done]. cbn. by rewrite Nat.add_assoc.
Qed.

(** An error splits the bytes into a text and the bytes that are wrong. *)
Lemma utf8_error_split s e : utf8_error s = Some e →
  ∃ a b, s = a +:+ b ∧ valid a ∧ String.length a = valid_up_to e ∧ utf8_error b = Some (mkUtf8Error 0 (error_len e)) ∧
    b ≠ "" ∧ ∃ k, next_chunk b = inr k ∧ error_len e = if truncated b then None else Some k.
Proof.
  revert e. induction s as [s IH] using str_len_ind. intros e E.
  destruct (decide (s = "")) as [->|Hs]; [done|]. pose proof E as E'. rewrite utf8_error_step in E by done.
  destruct (next_chunk s) as [k|k] eqn:Ek.
  - apply fmap_Some in E as (e' & E & ->). destruct (next_chunk_char s k Ek Hs) as [Hc Hl]. pose proof (next_chunk_pos s k Ek Hs).
    destruct (IH (str_drop k s)) with (e := e') as (a & b & Hab & Ha & Hla & Hb); [rewrite str_drop_length; destruct s; [done|cbn; lia]|done|].
    exists (str_take k s +:+ a), b. cbn. repeat split; try apply Hb.
    + by rewrite str_app_assoc, <- Hab, str_take_drop.
    + by apply valid_char.
    + by rewrite str_length_app, Hl, Hla.
  - injection E as <-. exists "", s. cbn in *. repeat split; try done. by exists k.
Qed.

(** Bytes that are wrong stay wrong. *)
Lemma next_chunk_wrong s k t : next_chunk s = inr k → truncated s = false →
  next_chunk (s +:+ t) = inr k ∧ truncated (s +:+ t) = false.
Proof.
  intros E. unfold truncated. rewrite E. destruct s as [|a s]; [done|]. rewrite str_app_cons. intros Ht.
  enough (next_chunk (String a (s +:+ t)) = inr k) as Hn.
  { split; [done|]. rewrite Hn. rewrite andb_false_iff in Ht |- *. destruct Ht as [Ht|Ht]; [|by right].
    assert (k ≤ String.length (String a s))%nat as Hk.
    { clear Ht Hn. cbn [next_chunk] in E. repeat case_match; simplify_eq; cbn; lia. }
    left. apply Nat.eqb_neq in Ht. apply Nat.eqb_neq. cbn in *. rewrite str_length_app. lia. }
  cbn [next_chunk] in E |- *. destruct (byte a <? 128)%N eqn:E1; [done|].
  destruct (in_range 194 223 a) eqn:E2.
  { destruct s as [|b s]; rewrite ?str_app_cons; [|done]. injection E as <-. cbn in Ht. unfold in_range in *. lia. }
  destruct (in_range 224 239 a) eqn:E3.
  { destruct s as [|b [|c s]]; rewrite ?str_app_cons; [|destruct (second_ok a b); [|done]|done]; injection E as <-; cbn in Ht;
      unfold in_range in *; lia. }
  destruct (in_range 240 244 a) eqn:E4; [|done].
  destruct s as [|b [|c [|d s]]]; rewrite ?str_app_cons; [|destruct (second_ok a b); [|done]|destruct (second_ok a b); [|done];
    destruct (is_continuation c); [|done]|done]; injection E as <-; cbn in Ht; unfold in_range in *; lia.
Qed.

Lemma utf8_error_stays s k n t : utf8_error s = Some (mkUtf8Error k (Some n)) → utf8_error (s +:+ t) = Some (mkUtf8Error k (Some n)).
Proof.
  intros E. destruct (utf8_error_split s _ E) as (a & b & -> & Ha & Hl & _ & Hb & j & Ej & Hn). cbn in Hl, Hn.
  destruct (truncated b) eqn:Et; [done|]. injection Hn as ->. destruct (next_chunk_wrong b j t Ej Et) as [Hj Ht].
  rewrite str_app_assoc, utf8_error_valid_app, utf8_error_step, Hj, Ht by first [done|by destruct b]. cbn. by rewrite Hl, Nat.add_0_r.
Qed.

Lemma utf8_error_waits s k : utf8_error s = Some (mkUtf8Error k None) →
  valid (str_take k s) ∧ utf8_error (str_drop k s) = Some (mkUtf8Error 0 None) ∧ (k <= String.length s)%nat.
Proof.
  intros E. destruct (utf8_error_split s _ E) as (a & b & -> & Ha & Hl & Hb & _). cbn in Hl, Hb. subst k.
  rewrite str_take_app, str_drop_app, str_length_app. repeat split; [done|done|lia].
Qed.

(** ** The stream *)

Section stream.
Context `{StreamTextParser P X}.
Implicit Types p : Utf8StreamParser P.

(** What waits is nothing, or the beginning of a character. *)
Definition waiting p : Prop := pending_utf8 p = "" ∨ utf8_error (pending_utf8 p) = Some (mkUtf8Error 0 None).

(** A piece is refused, and the parser is as before, or its characters go to the
    parser inside as one text. *)
Lemma push_bytes_cases piece p : waiting p →
  let whole := pending_utf8 p +:+ piece in
  (∃ off n, utf8_error whole = Some (mkUtf8Error off (Some n)) ∧ push_bytes piece p = (inl (InvalidUtf8 off n), p)) ∨
  (∃ rest, push_bytes piece p = (inr text_chunk_default, mkUtf8Parser (us_inner p) rest) ∧ rest = whole ∧
     waiting (mkUtf8Parser (us_inner p) rest)) ∨
  (∃ t rest out inner, push_str t (us_inner p) = (out, inner) ∧ push_bytes piece p = (inr out, mkUtf8Parser inner rest) ∧
     valid t ∧ whole = t +:+ rest ∧ waiting (mkUtf8Parser inner rest)).
Proof.
  intros Hw whole. unfold push_bytes. fold whole. destruct (utf8_error whole) as [[off [n|]]|] eqn:E.
  - left. by exists off, n.
  - right. destruct (utf8_error_waits _ _ E) as (Hv & Hd & _). destruct (Nat.eqb_spec off 0) as [->|Ho].
    + left. exists whole. repeat split. by right.
    + right. unfold valid in Hv. rewrite Hv. exists (str_take off whole), (str_drop off whole).
      destruct (push_str (str_take off whole) (us_inner p)) as [out inner]. exists out, inner. repeat split; [done|by rewrite str_take_drop|by right].
  - right. right. destruct (push_str whole (us_inner p)) as [out inner] eqn:Ep. exists whole, "", out, inner.
    repeat split; [done|done|by rewrite str_app_nil|by left].
Qed.

(** What a parser of bytes answers to the bytes that wait and those to come. *)
Definition answers (whole : string) (inner : P) (r : Utf8StreamParserError + StreamTextChunk X) : Prop :=
  match utf8_error whole with
  | None => ∃ texts, Forall valid texts ∧ concat_str texts = whole ∧ r = inr (stream_all texts inner)
  | Some (mkUtf8Error _ None) => r = inl IncompleteUtf8AtEof
  | Some (mkUtf8Error k (Some n)) => ∃ off, (off <= k)%nat ∧ r = inl (InvalidUtf8 off n)
  end.

Lemma stream_all_cons t texts (p q : P) out : push_str t p = (out, q) →
  stream_all (t :: texts) p = text_chunk_app out (stream_all texts q).
Proof. rewrite !stream_all_outputs. cbn [stream_outputs]. by intros ->. Qed.

Lemma answers_after t whole out inner inner' r : valid t → push_str t inner = (out, inner') → answers whole inner' r →
  answers (t +:+ whole) inner (match r with inl e => inl e | inr outs => inr (text_chunk_app out outs) end).
Proof.
  intros Ht Ep. unfold answers. rewrite utf8_error_valid_app by done. destruct (utf8_error whole) as [[k [n|]]|]; cbn.
  - intros (off & Hoff & ->). exists off. split; [lia|done].
  - by intros ->.
  - intros (texts & Hv & <- & ->). exists (t :: texts). repeat split; [by constructor|]. by rewrite (stream_all_cons _ _ _ _ _ Ep).
Qed.

Lemma bytes_all_answers pieces p : waiting p → answers (pending_utf8 p +:+ concat_str pieces) (us_inner p) (bytes_all pieces p).
Proof.
  revert p. induction pieces as [|piece pieces IH]; intros p Hw; cbn [bytes_all].
  - change (concat_str []) with "". rewrite str_app_nil. unfold answers, utf8_finish, pending_error.
    destruct Hw as [Hw|Hw]; rewrite Hw; [|done]. cbn. exists []. repeat split; [constructor|].
    rewrite stream_all_outputs. cbn. destruct (finish_text (us_inner p)) as [tail inner]. cbn. by rewrite text_chunk_app_default, text_chunk_app_default_r.
  - cbn [concat_str foldr]. fold (concat_str pieces). rewrite <- str_app_assoc.
    destruct (push_bytes_cases piece p Hw) as [(off & n & E & ->)|[(rest & -> & Hr & Hw')|(t & rest & out & inner & Ep & -> & Ht & -> & Hw')]].
    + unfold answers. rewrite (utf8_error_stays _ _ _ _ E). by exists off.
    + specialize (IH _ Hw'). cbn [pending_utf8 us_inner] in IH. rewrite <- Hr.
      destruct (bytes_all pieces _); [done|]. by rewrite text_chunk_app_default.
    + specialize (IH _ Hw'). cbn [pending_utf8 us_inner] in IH. rewrite str_app_assoc. by eapply answers_after.
Qed.
End stream.

(** C26. Bytes that arrive in any pieces: when together they are a text, the parser
    inside is given that text, in pieces that are texts; when they end inside of
    a character that is reported at the end; a wrong sequence is reported with
    its length, at an offset in the bytes that were still buffered. *)
Theorem utf8_stream_sound `{StreamTextParser P X} (inner : P) pieces :
  let whole := concat_str pieces in
  let r := bytes_all pieces (utf8_new inner) in
  match utf8_error whole with
  | None => ∃ texts, Forall valid texts ∧ concat_str texts = whole ∧ r = inr (stream_all texts inner)
  | Some (mkUtf8Error _ None) => r = inl IncompleteUtf8AtEof
  | Some (mkUtf8Error k (Some n)) => ∃ off, (off <= k)%nat ∧ r = inl (InvalidUtf8 off n)
  end.
Proof. apply (bytes_all_answers pieces (utf8_new inner)). by left. Qed.

(** Citations in bytes are those of the text, however the bytes are cut. *)
Corollary utf8_citations pieces : valid (concat_str pieces) →
  bytes_all pieces (utf8_new (mkCitations (mkInline citation_specs "" None))) =
  inr (contents (hidden citation_specs (concat_str pieces))).
Proof.
  intros Hv. pose proof (bytes_all_answers pieces (utf8_new (mkCitations (mkInline citation_specs "" None)))) as Ha.
  specialize (Ha (or_introl eq_refl)). unfold answers in Ha. cbn [pending_utf8 utf8_new us_inner] in Ha.
  change ("" +:+ ?s) with s in Ha. rewrite Hv in Ha. destruct Ha as (texts & _ & <- & ->). by rewrite citation_stream_hides.
Qed.
