(* ===== verification/Truncate.v ===== *)
(** * Truncation of long texts (codex-rs/utils/string, codex-rs/utils/output-truncation)

    Output of tools is cut in the middle, at characters, with a marker that says
    how much is missing; a list of content items shares one budget.  A [usize]
    has 64 bits, a Rust string at most [isize::MAX] bytes. *)

From Stdlib Require Import SpecFloat ZifyBool.
From S2P Require Import Prelude RustStr Os Utf8.

Definition isize_max : N := 9223372036854775807.

(** ** Budgets (truncate.rs) *)

Definition APPROX_BYTES_PER_TOKEN : usize := 4.

Definition approx_token_count (text : string) : usize :=
  (sat_add (str_len text) (APPROX_BYTES_PER_TOKEN - 1) / APPROX_BYTES_PER_TOKEN)%N.

Definition approx_bytes_for_tokens (tokens : usize) : usize := sat_mul tokens APPROX_BYTES_PER_TOKEN.

Definition approx_tokens_from_byte_count (bytes : usize) : u64 :=
  (sat_add bytes (APPROX_BYTES_PER_TOKEN - 1) / APPROX_BYTES_PER_TOKEN)%N.

(** ** Cutting (truncate.rs) *)

Record SplitState := mkSplit {
  sp_idx : usize;
  prefix_end : usize;
  suffix_start : usize;
  removed_chars : usize;
  suffix_started : bool
}.

Definition split_char_step (beginning_bytes tail_start_target : usize) (st : SplitState) (ch : string) : SplitState :=
  let idx := sp_idx st in
  let char_end := (idx + str_len ch)%N in
  if (char_end <=? beginning_bytes)%N then mkSplit char_end char_end (suffix_start st) (removed_chars st) (suffix_started st)
  else if (tail_start_target <=? idx)%N then
    if suffix_started st then mkSplit char_end (prefix_end st) (suffix_start st) (removed_chars st) true
    else mkSplit char_end (prefix_end st) idx (removed_chars st) true
  else mkSplit char_end (prefix_end st) (suffix_start st) (sat_add (removed_chars st) 1) (suffix_started st).

(** Where [split_string] cuts; both places are ends of characters
    ([split_string_spec]), so that the slices do not panic. *)
Definition split_points (s : string) (beginning_bytes end_bytes : usize) : usize * usize * usize :=
  let st := fold_left (split_char_step beginning_bytes (str_len s - end_bytes)) (chars s) (mkSplit 0 0 (str_len s) 0 false) in
  (removed_chars st, prefix_end st, if (suffix_start st <? prefix_end st)%N then prefix_end st else suffix_start st).

Definition split_string (s : string) (beginning_bytes end_bytes : usize) : usize * string * string :=
  if str_is_empty s then (0%N, "", "")
  else
    let '(removed, prefix_end, suffix_start) := split_points s beginning_bytes end_bytes in
    (removed, str_take (N.to_nat prefix_end) s, str_drop (N.to_nat suffix_start) s).

Definition split_budget (budget : usize) : usize * usize :=
  let half := (budget / 2)%N in (half, budget - half)%N.

Definition format_truncation_marker (use_tokens : bool) (removed_count : u64) : string :=
  if use_tokens then "…" +:+ pretty removed_count +:+ " tokens truncated…"
  else "…" +:+ pretty removed_count +:+ " chars truncated…".

Definition removed_units (use_tokens : bool) (removed_bytes removed_chars : usize) : u64 :=
  if use_tokens then approx_tokens_from_byte_count removed_bytes else removed_chars.

Definition assemble_truncated_output (prefix suffix marker : string) : string := prefix +:+ marker +:+ suffix.

Definition truncate_with_byte_estimate (s : string) (max_bytes : usize) (use_tokens : bool) : string :=
  if str_is_empty s then ""
  else
    let total_chars := len (chars s) in
    if (max_bytes =? 0)%N then format_truncation_marker use_tokens (removed_units use_tokens (str_len s) total_chars)
    else if (str_len s <=? max_bytes)%N then s
    else
      let '(left_budget, right_budget) := split_budget max_bytes in
      let '(removed_chars, before, after) := split_string s left_budget right_budget in
      let marker := format_truncation_marker use_tokens (removed_units use_tokens (str_len s - max_bytes) removed_chars) in
      assemble_truncated_output before after marker.

Definition truncate_middle_chars (s : string) (max_bytes : usize) : string := truncate_with_byte_estimate s max_bytes false.

Definition truncate_middle_with_token_budget (s : string) (max_tokens : usize) : string * option u64 :=
  if str_is_empty s then ("", None)
  else if (0 <? max_tokens)%N && (str_len s <=? approx_bytes_for_tokens max_tokens)%N then (s, None)
  else
    let truncated := truncate_with_byte_estimate s (approx_bytes_for_tokens max_tokens) true in
    let total_tokens := approx_token_count s in
    if truncated == s then (truncated, None) else (truncated, Some total_tokens).

(** ** Policies (protocol.rs) *)

Inductive TruncationPolicy :=
| Bytes (bytes : usize)
| Tokens (tokens : usize).

Definition token_budget (policy : TruncationPolicy) : usize :=
  match policy with Bytes bytes => approx_tokens_from_byte_count bytes | Tokens tokens => tokens end.

Definition byte_budget (policy : TruncationPolicy) : usize :=
  match policy with Bytes bytes => bytes | Tokens tokens => approx_bytes_for_tokens tokens end.

(** [f64]: IEEE 754 with 53 bits of precision, as the Standard Library specifies
    it. *)
Definition usize_as_f64 (n : usize) : spec_float := binary_normalize 53 1024 (Z.of_N n) 0 false.

(** [x.ceil() as usize]: saturating, and 0 for NaN. *)
Definition ceil_as_usize (x : spec_float) : usize :=
  match x with
  | S754_finite false m e =>
      let z := if (0 <=? e)%Z then (Z.pos m * 2 ^ e)%Z else (- (- Z.pos m / 2 ^ (- e)))%Z in
      N.min (Z.to_N z) usize_max
  | S754_infinity false => usize_max
  | _ => 0%N
  end.

Definition policy_mul (policy : TruncationPolicy) (multiplier : spec_float) : TruncationPolicy :=
  let scale n := ceil_as_usize (SFmul 53 1024 (usize_as_f64 n) multiplier) in
  match policy with Bytes bytes => Bytes (scale bytes) | Tokens tokens => Tokens (scale tokens) end.

(** ** Texts and content items (output-truncation) *)

Definition truncate_text (content : string) (policy : TruncationPolicy) : string :=
  match policy with
  | Bytes bytes => truncate_middle_chars content bytes
  | Tokens tokens => (truncate_middle_with_token_budget content tokens).1
  end.

Definition formatted_truncate_text (content : string) (policy : TruncationPolicy) : string :=
  if (str_len content <=? byte_budget policy)%N then content
  else
    let total_lines := len (lines content) in
    let result := truncate_text content policy in
    "Total output lines: " +:+ pretty total_lines +:+ String newline (String newline "") +:+ result.

Inductive ImageDetail := DetailAuto | DetailLow | DetailHigh | DetailOriginal.

Inductive FunctionCallOutputContentItem :=
| OutInputText (text : string)
| OutInputImage (image_url : string) (detail : option ImageDetail)
| OutEncryptedContent (encrypted_content : string).

Definition out_text (item : FunctionCallOutputContentItem) : option string :=
  match item with OutInputText text => Some text | _ => None end.

Definition is_out_text (item : FunctionCallOutputContentItem) : bool :=
  match item with OutInputText _ => true | _ => false end.

Definition combine_text (combined text : string) : string :=
  (if str_is_empty combined then combined else combined +:+ String newline "") +:+ text.

Definition formatted_truncate_text_content_items_with_policy (items : list FunctionCallOutputContentItem)
    (policy : TruncationPolicy) : list FunctionCallOutputContentItem * option usize :=
  let text_segments := omap out_text items in
  match text_segments with
  | [] => (items, None)
  | _ =>
      let combined := fold_left combine_text text_segments "" in
      if (str_len combined <=? byte_budget policy)%N then (items, None)
      else
        (OutInputText (formatted_truncate_text combined policy) :: List.filter (λ item, negb (is_out_text item)) items,
         Some (approx_token_count combined))
  end.

Definition text_cost (policy : TruncationPolicy) (text : string) : usize :=
  match policy with Bytes _ => str_len text | Tokens _ => approx_token_count text end.

Definition snippet_policy (policy : TruncationPolicy) (remaining_budget : usize) : TruncationPolicy :=
  match policy with Bytes _ => Bytes remaining_budget | Tokens _ => Tokens remaining_budget end.

Record ItemsState := mkItems {
  it_out : list FunctionCallOutputContentItem;
  remaining_budget : usize;
  omitted_text_items : usize
}.

Definition truncate_item_step (policy : TruncationPolicy) (st : ItemsState) (item : FunctionCallOutputContentItem) : ItemsState :=
  match item with
  | OutInputText text =>
      if (remaining_budget st =? 0)%N then mkItems (it_out st) (remaining_budget st) (omitted_text_items st + 1)
      else
        let cost := text_cost policy text in
        if (cost <=? remaining_budget st)%N then
          mkItems (it_out st ++ [OutInputText text]) (remaining_budget st - cost) (omitted_text_items st)
        else
          let snippet := truncate_text text (snippet_policy policy (remaining_budget st)) in
          if str_is_empty snippet then mkItems (it_out st) 0 (omitted_text_items st + 1)
          else mkItems (it_out st ++ [OutInputText snippet]) 0 (omitted_text_items st)
  | _ => mkItems (it_out st ++ [item]) (remaining_budget st) (omitted_text_items st)
  end.

Definition items_budget (policy : TruncationPolicy) : usize :=
  match policy with Bytes _ => byte_budget policy | Tokens _ => token_budget policy end.

Definition truncate_function_output_items_with_policy (items : list FunctionCallOutputContentItem) (policy : TruncationPolicy) :
    list FunctionCallOutputContentItem :=
  let st := fold_left (truncate_item_step policy) items (mkItems [] (items_budget policy) 0) in
  if (0 <? omitted_text_items st)%N
  then it_out st ++ [OutInputText ("[omitted " +:+ pretty (omitted_text_items st) +:+ " text items ...]")]
  else it_out st.

Definition approx_tokens_from_byte_count_i64 (bytes : i64) : i64 :=
  if (bytes <=? 0)%Z then 0%Z
  else Z.min (Z.of_N (approx_tokens_from_byte_count (N.min (Z.to_N bytes) usize_max))) (Z.of_N i64_max).

(** ** How a text is cut *)

Definition bytes_of (cs : list string) : N := str_len (concat_str cs).

Lemma bytes_of_cons c cs : bytes_of (c :: cs) = (str_len c + bytes_of cs)%N.
Proof. unfold bytes_of, str_len. cbn [concat_str foldr]. rewrite str_length_app. fold (concat_str cs). lia. Qed.

Lemma bytes_of_app a b : bytes_of (a ++ b) = (bytes_of a + bytes_of b)%N.
Proof. unfold bytes_of, str_len. rewrite concat_str_app, str_length_app. lia. Qed.

(** Characters have one to four bytes. *)
Definition is_chars (cs : list string) : Prop := Forall (λ c, (0 < str_len c <= 4)%N) cs.

Lemma is_char_size c : is_char c = true → (0 < str_len c <= 4)%N.
Proof.
  destruct c as [|a c]; [done|]. intros H%is_char_width. unfold str_len. rewrite H. unfold char_width.
  repeat case_match; lia.
Qed.

Lemma chars_size s : valid s → is_chars (chars s).
Proof. intros H%chars_are. unfold is_chars. by eapply Forall_impl; [|apply is_char_size]. Qed.

(** After the prefix every character is removed until the tail begins. *)
Lemma split_tail b t cs st : (b < sp_idx st)%N ∨ cs = [] → (t <= sp_idx st)%N → suffix_started st = true → is_chars cs →
  fold_left (split_char_step b t) cs st =
  mkSplit (sp_idx st + bytes_of cs) (prefix_end st) (suffix_start st) (removed_chars st) true.
Proof.
  intros Hb Ht Hs Hc. revert st Hb Ht Hs. induction Hc as [|c cs Hc _ IH]; intros [i p q r k] Hb Ht Hs; cbn in Ht, Hs |- *.
  - change (bytes_of []) with 0%N. subst k. f_equal; lia.
  - destruct Hb as [Hb|?]; [|done]. cbn in Hb. unfold split_char_step at 2. cbn.
    destruct (N.leb_spec (i + str_len c) b); [lia|]. destruct (N.leb_spec t i); [|lia]. rewrite Hs.
    rewrite IH; cbn; [|left; lia|lia|done]. rewrite bytes_of_cons. f_equal; lia.
Qed.

Lemma split_middle b t cs i r : (b < i)%N ∨ (∃ c cs', cs = c :: cs' ∧ b < i + str_len c)%N → is_chars cs →
  (r + len cs <= usize_max)%N → ∀ p n, ∃ mid after,
  cs = mid ++ after ∧
  fold_left (split_char_step b t) cs (mkSplit i p n r false) =
    mkSplit (i + bytes_of cs) p (if decide (after = []) then n else (i + bytes_of mid)%N) (r + len mid) (bool_decide (after ≠ [])) ∧
  (after = [] ∨ t <= i + bytes_of mid)%N ∧ (i < t → cs ≠ [] → mid ≠ [])%N ∧ (mid = [] ∨ i + bytes_of mid < t + 4)%N.
Proof.
  intros Hb Hc Hr p n. revert i r Hb Hr. induction Hc as [|c cs Hc Hcs IH]; intros i r Hb Hr.
  - exists [], []. split; [done|]. cbn. change (bytes_of []) with 0%N. rewrite !N.add_0_r. repeat split; [by left|done|by left].
  - assert (b < i + str_len c)%N as Hb' by (destruct Hb as [?|(? & ? & [= <- <-] & ?)]; lia).
    cbn [fold_left]. unfold split_char_step at 2. cbn [sp_idx prefix_end suffix_start removed_chars suffix_started].
    destruct (N.leb_spec (i + str_len c) b); [lia|]. destruct (N.leb_spec t i) as [Ht|Ht].
    + exists [], (c :: cs). split; [done|]. rewrite split_tail; cbn [sp_idx prefix_end suffix_start removed_chars suffix_started];
        [|left; lia|lia|done|done]. change (bytes_of []) with 0%N. rewrite bytes_of_cons. cbn. rewrite !N.add_0_r.
      repeat split; [f_equal; lia|right; lia|lia|by left].
    + assert (r + 1 + len cs <= usize_max)%N as Hr' by (revert Hr; unfold len; cbn; lia).
      assert (sat_add r 1 = r + 1)%N as -> by (unfold sat_add; revert Hr; unfold len; cbn; lia).
      destruct (IH (i + str_len c)%N (r + 1)%N) as (mid & after & -> & -> & Ha & _ & Hm); [left; lia|done|].
      exists (c :: mid), after. rewrite !bytes_of_cons. split; [done|]. split; [|split; [|split; [done|]]].
      * f_equal; [lia|case_decide; lia|unfold len; cbn; lia].
      * destruct Ha as [?|?]; [by left|right; lia].
      * right. destruct Hm as [->|Hm]; [change (bytes_of []) with 0%N|]; lia.
Qed.

Lemma split_fold b t cs i n : is_chars cs → (len cs <= usize_max)%N → (i <= b)%N → ∃ pre mid after,
  cs = pre ++ mid ++ after ∧
  fold_left (split_char_step b t) cs (mkSplit i i n 0 false) =
    mkSplit (i + bytes_of cs) (i + bytes_of pre) (if decide (after = []) then n else (i + bytes_of pre + bytes_of mid)%N)
      (len mid) (bool_decide (after ≠ [])) ∧
  (i + bytes_of pre <= b)%N ∧ (mid ++ after = [] ∨ b < i + bytes_of pre + 4)%N ∧
  (after = [] ∨ t <= i + bytes_of pre + bytes_of mid)%N ∧ (i + bytes_of pre < t → mid ++ after ≠ [] → mid ≠ [])%N ∧
  (mid = [] ∨ i + bytes_of pre + bytes_of mid < t + 4)%N.
Proof.
  intros Hc. revert i. induction Hc as [|c cs Hc Hcs IH]; intros i Hl Hi.
  - exists [], [], []. cbn. change (bytes_of []) with 0%N. rewrite !N.add_0_r. repeat split; [done|by left|by left|done|by left].
  - destruct (N.leb_spec (i + str_len c) b) as [Hb|Hb].
    + destruct (IH (i + str_len c)%N) as (pre & mid & after & -> & E & H1 & H2 & H3 & H4 & H5); [revert Hl; unfold len; cbn; lia|done|].
      exists (c :: pre), mid, after. cbn [fold_left]. unfold split_char_step at 2. cbn.
      destruct (N.leb_spec (i + str_len c) b); [|lia]. rewrite E, !bytes_of_cons, !N.add_assoc. done.
    + destruct (split_middle b t (c :: cs) i 0) with (p := i) (n := n) as (mid & after & E & Ef & H1 & H2 & H3);
        [right; by exists c, cs|by constructor|done|].
      exists [], mid, after. rewrite Ef. change (bytes_of []) with 0%N. rewrite !N.add_0_r, N.add_0_l, E.
      repeat split; [done|right; lia|done|intros ? _; apply H2; by try lia|done].
Qed.

Lemma chars_concat_str cs : Forall (λ c, is_char c = true) cs → chars (concat_str cs) = cs.
Proof. induction 1 as [|c cs Hc _ IH]; [done|]. cbn [concat_str foldr]. rewrite chars_char by done. by f_equal. Qed.

Lemma chars_length s : (len (chars s) <= str_len s)%N.
Proof.
  unfold len, str_len, chars. enough (∀ n t, length (chars_fuel n t) ≤ n)%nat as H by (specialize (H (String.length s) s); lia).
  induction n as [|n IH]; intros t; [done|]. destruct t; cbn; [lia|]. by apply le_n_S.
Qed.

Lemma char_first_byte a c : is_char (String a c) = true → is_continuation a = false.
Proof.
  unfold is_char, is_continuation, in_range. cbn [next_chunk]. unfold in_range.
  destruct (byte a <? 128)%N eqn:E1; [lia|]. destruct ((194 <=? byte a)%N && (byte a <=? 223)%N) eqn:E2; [lia|].
  destruct ((224 <=? byte a)%N && (byte a <=? 239)%N) eqn:E3; [lia|]. destruct ((240 <=? byte a)%N && (byte a <=? 244)%N) eqn:E4; [lia|done].
Qed.

(** The beginning of a text after any bytes is a character boundary. *)
Lemma char_boundary_app a b : valid b → is_char_boundary (a +:+ b) (String.length a) = true.
Proof.
  intros Hb. unfold is_char_boundary. assert (String.get (String.length a) (a +:+ b) = String.get 0 b) as ->.
  { induction a as [|c a IH]; [done|]. by rewrite str_app_cons. }
  destruct b as [|c b].
  - rewrite str_app_nil. apply Nat.eqb_refl.
  - apply valid_text in Hb. remember (String c b) as t eqn:Et. destruct Hb as [|ch s Hc Hs]; [done|].
    destruct ch as [|d ch]; [done|]. rewrite str_app_cons. cbn [String.get]. by rewrite (char_first_byte d ch).
Qed.

Lemma str_drop_take_app a b : str_drop (N.to_nat (str_len a)) (a +:+ b) = b ∧ str_take (N.to_nat (str_len a)) (a +:+ b) = a.
Proof. unfold str_len. rewrite Nat2N.id. split; [apply str_drop_app|apply str_take_app]. Qed.

(** A text longer than the two budgets is cut into three texts: the first and
    the last are within their budgets by less than a character. *)
Lemma split_string_spec s b e : valid s → (str_len s <= isize_max)%N → (b + e < str_len s)%N → ∃ before mid after,
  s = before +:+ mid +:+ after ∧ valid before ∧ valid mid ∧ valid after ∧ mid ≠ "" ∧
  split_points s b e = (len (chars mid), str_len before, str_len (before +:+ mid)) ∧
  split_string s b e = (len (chars mid), before, after) ∧
  (str_len before <= b < str_len before + 4)%N ∧ (str_len after <= e < str_len after + 4)%N.
Proof.
  intros Hv Hmax Hlen. pose proof (chars_size s Hv) as Hc. pose proof (chars_are s Hv) as Hare.
  pose proof (chars_concat s Hv) as Econ. pose proof (chars_length s) as Hlc.
  destruct (split_fold b (str_len s - e) (chars s) 0 (str_len s) Hc) as (pre & mid & after & E & Ef & H1 & H2 & H3 & H4 & H5);
    [unfold isize_max, usize_max in *; lia|lia|].
  rewrite E in Hare. apply Forall_app in Hare as [Hpre Hare]. apply Forall_app in Hare as [Hmid Hafter].
  assert (s = concat_str pre +:+ concat_str mid +:+ concat_str after) as Es.
  { rewrite <- !concat_str_app, <- E. by symmetry. }
  assert (str_len s = bytes_of pre + bytes_of mid + bytes_of after)%N as Els.
  { rewrite Es. unfold bytes_of, str_len. rewrite !str_length_app. lia. }
  assert (mid ++ after ≠ []) as Hne.
  { intros H0. apply app_eq_nil in H0 as [-> ->]. change (bytes_of []) with 0%N in *. lia. }
  assert (mid ≠ []) as Hm by (apply H4; [lia|done]).
  destruct H2 as [?|H2]; [done|]. destruct H5 as [?|H5]; [done|].
  assert (split_points s b e = (len mid, bytes_of pre, bytes_of pre + bytes_of mid)%N) as Ep.
  { unfold split_points. rewrite Ef. cbn [removed_chars prefix_end suffix_start].
    assert ((if decide (after = []) then str_len s else 0 + bytes_of pre + bytes_of mid) = bytes_of pre + bytes_of mid)%N as ->.
    { case_decide as Ha; [subst after; change (bytes_of []) with 0%N in Els|]; lia. }
    rewrite N.add_0_l. by destruct (N.ltb_spec (bytes_of pre + bytes_of mid) (bytes_of pre)); [lia|]. }
  exists (concat_str pre), (concat_str mid), (concat_str after). rewrite chars_concat_str by done.
  split; [done|]. do 3 (split; [by apply valid_concat|]). split.
  { destruct mid as [|c mid]; [done|]. inversion Hmid as [|? ? Hch _]. destruct c; [discriminate Hch|done]. }
  assert (bytes_of pre + bytes_of mid = str_len (concat_str pre +:+ concat_str mid))%N as Elm.
  { unfold bytes_of, str_len. rewrite str_length_app. lia. }
  split; [by rewrite Ep, Elm|]. split.
  - unfold split_string. rewrite Ep, Elm. destruct (str_is_empty s) eqn:E0.
    { apply String.eqb_eq in E0 as ->. change (str_len "") with 0%N in *. lia. }
    rewrite Es at 1. rewrite (proj2 (str_drop_take_app (concat_str pre) _)).
    rewrite Es, <- str_app_assoc. by rewrite (proj1 (str_drop_take_app _ (concat_str after))).
  - fold (bytes_of pre) (bytes_of after). destruct H3 as [->|H3]; [change (bytes_of []) with 0%N in *|]; lia.
Qed.

(** The slices of [split_string] are at characters and in order. *)
Lemma split_slices_ok s b e : valid s → (str_len s <= isize_max)%N → (b + e < str_len s)%N →
  let '(_, p, q) := split_points s b e in
  is_char_boundary s (N.to_nat p) = true ∧ is_char_boundary s (N.to_nat q) = true ∧ (p <= q)%N.
Proof.
  intros Hv Hmax Hlen. destruct (split_string_spec s b e Hv Hmax Hlen) as (before & mid & after & -> & _ & Hm & Ha & _ & -> & _).
  unfold str_len. rewrite !Nat2N.id. split; [apply char_boundary_app; by apply valid_app_2|].
  split; [rewrite <- str_app_assoc; by apply char_boundary_app|]. rewrite str_length_app. lia.
Qed.

Definition cut_marker (policy : TruncationPolicy) (s mid : string) : string :=
  match policy with
  | Bytes _ => format_truncation_marker false (len (chars mid))
  | Tokens _ => format_truncation_marker true ((str_len s - byte_budget policy + 3) / 4)
  end.

Lemma truncate_estimate s max use_tokens : valid s → (str_len s <= isize_max)%N →
  let r := truncate_with_byte_estimate s max use_tokens in
  if (str_len s <=? max)%N then r = s
  else ∃ before mid after, s = before +:+ mid +:+ after ∧ valid before ∧ valid mid ∧ valid after ∧ mid ≠ "" ∧
    r = before +:+ format_truncation_marker use_tokens (if use_tokens then ((str_len s - max + 3) / 4)%N else len (chars mid)) +:+ after ∧
    (str_len before <= max / 2 < str_len before + 4)%N ∧ (str_len after <= max - max / 2 < str_len after + 4)%N.
Proof.
  intros Hv Hmax. cbn zeta. unfold truncate_with_byte_estimate. destruct (str_is_empty s) eqn:E0.
  { apply String.eqb_eq in E0 as ->. by destruct max. }
  apply str_nonempty in E0. assert (∀ n, n <= str_len s → approx_tokens_from_byte_count n = (n + 3) / 4)%N as Htok.
  { intros n Hn. unfold approx_tokens_from_byte_count, sat_add, APPROX_BYTES_PER_TOKEN, isize_max, usize_max in *.
    by rewrite N.min_l by lia. }
  destruct (N.leb_spec (str_len s) max) as [Hl|Hl]; destruct (N.eqb_spec max 0) as [->|Hz].
  - destruct s; [done|]. exfalso. revert Hl. unfold str_len. cbn. lia.
  - done.
  - exists "", s, "". rewrite str_app_nil. repeat split; try done; try (cbn; lia). unfold removed_units. rewrite str_app_nil, Htok by lia.
    by rewrite N.sub_0_r.
  - unfold split_budget. assert (max / 2 + (max - max / 2) < str_len s)%N as Hb by (pose proof (N.Div0.div_le_upper_bound max 2 max); lia).
    destruct (split_string_spec s _ _ Hv Hmax Hb) as (before & mid & after & Es & H1 & H2 & H3 & H4 & _ & E & H5 & H6).
    rewrite E. exists before, mid, after. repeat (split; [done|]). split; [|by split].
    unfold assemble_truncated_output, removed_units. by rewrite Htok by lia.
Qed.

(** C29. A text within the budget stays as it is.  A longer one loses a text from the
    middle: what is left before and after it is within half of the budget each,
    and less than a character short of it, and the marker between them tells the
    number of characters removed or the tokens they are over the budget. *)
Theorem truncate_text_cuts s policy : valid s → (str_len s <= isize_max)%N →
  let budget := byte_budget policy in
  if (str_len s <=? budget)%N then truncate_text s policy = s
  else ∃ before mid after, s = before +:+ mid +:+ after ∧ valid before ∧ valid mid ∧ valid after ∧ mid ≠ "" ∧
    truncate_text s policy = before +:+ cut_marker policy s mid +:+ after ∧
    (str_len before <= budget / 2 < str_len before + 4)%N ∧ (str_len after <= budget - budget / 2 < str_len after + 4)%N.
Proof.
  intros Hv Hmax. cbn zeta. destruct policy as [bytes|tokens]; cbn [truncate_text byte_budget].
  - apply (truncate_estimate s bytes false Hv Hmax).
  - unfold truncate_middle_with_token_budget. pose proof (truncate_estimate s (approx_bytes_for_tokens tokens) true Hv Hmax) as H.
    destruct (str_is_empty s) eqn:E0.
    { apply String.eqb_eq in E0 as ->. change (str_len "") with 0%N in *. by destruct (approx_bytes_for_tokens tokens). }
    cbn zeta in H. destruct (str_len s <=? approx_bytes_for_tokens tokens)%N eqn:El.
    + destruct (0 <? tokens)%N; [done|]. cbn. rewrite H. by destruct (s == s).
    + rewrite andb_false_r. by destruct (_ == s).
Qed.

Lemma truncate_text_cuts_witness :
  truncate_text "abcdefgh" (Bytes 4) = "ab…4 chars truncated…gh" ∧
  ∃ before mid after, "abcdefgh" = before +:+ mid +:+ after ∧ (str_len before <= 2)%N.
Proof.
  split; [vm_compute; reflexivity|].
  destruct (truncate_text_cuts "abcdefgh" (Bytes 4)) as (before & mid & after & E & _ & _ & _ & _ & _ & H & _);
    [vm_compute; reflexivity|vm_compute; discriminate|].
  exists before, mid, after. split; [exact E|exact (proj1 H)].
Defined.

(** ** Content items *)

Lemma truncate_items_fold policy items st : ∃ more,
  it_out (fold_left (truncate_item_step policy) items st) = it_out st ++ more ∧
  List.filter (λ i, negb (is_out_text i)) more = List.filter (λ i, negb (is_out_text i)) items.
Proof.
  revert st. induction items as [|i items IH]; intros st.
  - exists []. by rewrite app_nil_r.
  - cbn [fold_left]. destruct (IH (truncate_item_step policy st i)) as (more & -> & H).
    assert (∃ l, it_out (truncate_item_step policy st i) = it_out st ++ l ∧
      List.filter (λ i, negb (is_out_text i)) l = List.filter (λ i, negb (is_out_text i)) [i]) as (l & -> & Hl).
    { destruct i; cbn; repeat case_match; cbn; first [by exists []; rewrite app_nil_r|by eexists [_]]. }
    exists (l ++ more). rewrite app_assoc. split; [done|]. by rewrite List.filter_app, Hl, H, <- List.filter_app.
Qed.

(** Images and encrypted content pass, in order, whatever the budget. *)
Lemma truncate_items_keep_others items policy :
  List.filter (λ i, negb (is_out_text i)) (truncate_function_output_items_with_policy items policy) =
  List.filter (λ i, negb (is_out_text i)) items.
Proof.
  unfold truncate_function_output_items_with_policy.
  destruct (truncate_items_fold policy items (mkItems [] (items_budget policy) 0)) as (more & -> & H).
  cbn [it_out app]. case_match; [by rewrite List.filter_app, H, app_nil_r|done].
Qed.

Definition items_cost (policy : TruncationPolicy) (items : list FunctionCallOutputContentItem) : N :=
  foldr (λ i n, (match out_text i with Some t => text_cost policy t | None => 0 end + n)%N) 0%N items.

(** Items within the budget are not touched; an empty text costs nothing, but is
    left out once the budget is used up. *)
Lemma truncate_items_fit policy items out budget : (items_cost policy items < budget)%N →
  fold_left (truncate_item_step policy) items (mkItems out budget 0) =
  mkItems (out ++ items) (budget - items_cost policy items) 0.
Proof.
  revert out budget. induction items as [|i items IH]; intros out budget Hb; cbn [fold_left items_cost foldr] in *.
  - by rewrite app_nil_r, N.sub_0_r.
  - fold (items_cost policy items) in *. assert (∀ x, (out ++ [x]) ++ items = out ++ x :: items) as Happ by (intros; by rewrite <- app_assoc).
    destruct i as [t| |]; cbn [truncate_item_step remaining_budget it_out omitted_text_items out_text] in *; [|rewrite IH, Happ by lia; f_equal; lia..].
    destruct (N.eqb_spec budget 0); [lia|]. destruct (N.leb_spec (text_cost policy t) budget); [|lia].
    rewrite IH, Happ by lia. f_equal; lia.
Qed.

Example scaled_policy :
  let f64_1_2 := S754_finite false 5404319552844595 (-52) in
  policy_mul (Bytes 10000) f64_1_2 = Bytes 12000 ∧ policy_mul (Tokens 10001) f64_1_2 = Tokens 12002 ∧
  policy_mul (Bytes usize_max) f64_1_2 = Bytes usize_max.
Proof. split; [|split]; vm_compute; reflexivity. Qed.
