(* ===== verification/History.v ===== *)
(** * The history of a conversation (codex-rs/core/src/context_manager)

    The items exchanged with the model, as they are recorded, repaired for the
    next prompt (normalize.rs), shortened from the front, and rolled back by
    turns (history.rs), with the estimate of their tokens. *)

From Stdlib Require Import SpecFloat.
From S2P Require Import Prelude RustStr Json Lifecycle Os Utf8 TextStream Truncate.

(** ** Items (protocol/src/models.rs) *)

Inductive InputModality := TextModality | ImageModality.

Inductive ContentItem :=
| InputText (text : string)
| InputImage (image_url : string) (detail : option ImageDetail)
| OutputText (text : string).

Inductive AgentMessageInputContent := AgentEncryptedContent (encrypted_content : string).

Inductive MessagePhase := Commentary | FinalAnswer.

Inductive ReasoningItemReasoningSummary := SummaryText (text : string).

Inductive ReasoningItemContent := ReasoningText (text : string) | PlainReasoning (text : string).

Inductive LocalShellStatus := ShellCompleted | ShellInProgress | ShellIncomplete.

Record LocalShellExecAction := mkShellExec {
  lse_command : list string;
  lse_timeout_ms : option u64;
  lse_working_directory : option string;
  lse_env : option (gmap string string);
  lse_user : option string
}.

Inductive LocalShellAction := ShellExec (action : LocalShellExecAction).

Inductive WebSearchAction :=
| WebSearch (query : option string) (queries : option (list string))
| WebOpenPage (url : option string)
| WebFindInPage (url : option string) (pattern : option string)
| WebOther.

Inductive FunctionCallOutputBody :=
| OutputBodyText (content : string)
| OutputBodyItems (items : list FunctionCallOutputContentItem).

Record FunctionCallOutputPayload := mkPayload { fo_body : FunctionCallOutputBody; fo_success : option bool }.

Definition payload_from_text (content : string) : FunctionCallOutputPayload := mkPayload (OutputBodyText content) None.

Inductive ResponseItem :=
| Message (id : option string) (role : string) (content : list ContentItem) (phase : option MessagePhase)
| AgentMessage (author recipient : string) (content : list AgentMessageInputContent)
| Reasoning (id : string) (summary : list ReasoningItemReasoningSummary) (content : option (list ReasoningItemContent))
    (encrypted_content : option string)
| LocalShellCall (id call_id : option string) (status : LocalShellStatus) (action : LocalShellAction)
| FunctionCall (id : option string) (name : string) (namespace : option string) (arguments call_id : string)
| ToolSearchCall (id call_id status : option string) (execution : string) (arguments : Value)
| FunctionCallOutput (call_id : string) (output : FunctionCallOutputPayload)
| CustomToolCall (id status : option string) (call_id name input : string)
| CustomToolCallOutput (call_id : string) (name : option string) (output : FunctionCallOutputPayload)
| ToolSearchOutput (call_id : option string) (status execution : string) (tools : list Value)
| WebSearchCall (id status : option string) (action : option WebSearchAction)
| ImageGenerationCall (id status : string) (revised_prompt : option string) (result : string)
| Compaction (encrypted_content : string)
| CompactionTrigger
| ContextCompaction (encrypted_content : option string)
| OtherItem.

(** What the history takes from other crates: the length of an item written as
    JSON, whether a text reads as a message between agents, the text and run id
    of a hook prompt in XML, and the size of the image in a base64 payload; and
    whether the build has debug assertions. *)
Class HistoryHost := {
  item_json_len : ResponseItem → option usize;
  is_communication_json : string → bool;
  hook_prompt_xml : string → option (string * string);
  decode_image : string → option (u32 * u32);
  debug_assertions : bool
}.

(** ** Injected fragments (context-fragments, core/src/context, event_mapping.rs) *)

(** [s.get(..n)]. *)
Definition get_to (s : string) (n : nat) : option string := if is_char_boundary s n then Some (str_take n s) else None.

Definition has_prefix_ignore_case (text prefix : string) : bool :=
  match get_to text (String.length prefix) with Some candidate => eq_ignore_ascii_case candidate prefix | None => false end.

Definition matches_marked_text (start_marker end_marker text : string) : bool :=
  if str_is_empty start_marker || str_is_empty end_marker then false
  else
    let trimmed := trim_start text in
    let starts_with_marker := has_prefix_ignore_case trimmed start_marker in
    let trimmed := trim_end trimmed in
    let ends_with_marker :=
      match get_from trimmed (String.length trimmed - String.length end_marker) with
      | Some candidate => eq_ignore_ascii_case candidate end_marker
      | None => false
      end in
    starts_with_marker && ends_with_marker.

Definition matches_additional_context (text : string) : bool :=
  let trimmed := trim text in
  match strip_prefix "<external_" trimmed with
  | None => false
  | Some rest =>
      match split_once rest ">" with
      | None => false
      | Some (key, value_and_close) => str_ends_with value_and_close ("</external_" +:+ key +:+ ">")
      end
  end.

Definition matches_legacy_goal_context (text : string) : bool :=
  starts_with text "<goal_context>" && str_ends_with text "</goal_context>".

Definition is_valid_source (source : string) : bool :=
  match source with
  | EmptyString => false
  | String first rest =>
      is_ascii_lower first
      && str_forall (λ ch, is_ascii_lower ch || is_ascii_digit ch || Ascii.eqb ch "_"%char) rest
  end.

Definition matches_internal_context (text : string) : bool :=
  let trimmed := trim text in
  if matches_legacy_goal_context trimmed then true
  else match strip_prefix "<codex_internal_context" trimmed with
       | None => false
       | Some rest =>
           match strip_prefix (" source=" +:+ quote) rest with
           | None => false
           | Some rest =>
               match split_once rest (quote +:+ ">") with
               | None => false
               | Some (source, body_and_close) => is_valid_source source && str_ends_with body_and_close "</codex_internal_context>"
               end
           end
       end.

Definition CONTEXTUAL_USER_FRAGMENTS : list (string → bool) :=
  [matches_marked_text "# AGENTS.md instructions for " "</INSTRUCTIONS>";
   matches_marked_text "<environment_context>" "</environment_context>";
   matches_additional_context;
   matches_marked_text "<skill>" "</skill>";
   matches_marked_text "<user_shell_command>" "</user_shell_command>";
   matches_marked_text "<turn_aborted>" "</turn_aborted>";
   matches_marked_text "<subagent_notification>" "</subagent_notification>";
   matches_internal_context;
   (λ text, starts_with (trim text) "Warning: The maximum number of unified exec processes you can keep open is");
   (λ text, starts_with (trim text) "Warning: apply_patch was requested via "
            && str_ends_with (trim text) "Use the apply_patch tool instead of exec_command.");
   (λ text, starts_with (trim text) "Warning: Your account was flagged for potentially high-risk cyber activity")].

Definition is_standard_contextual_user_text (text : string) : bool :=
  existsb (λ matches_text, matches_text text) CONTEXTUAL_USER_FRAGMENTS.

Definition CONTEXTUAL_DEVELOPER_PREFIXES : list string :=
  ["<permissions instructions>"; "<model_switch>"; "<collaboration_mode>"; "<realtime_conversation>"; "<personality_spec>"].

Definition is_contextual_dev_fragment (content_item : ContentItem) : bool :=
  match content_item with
  | InputText text =>
      let trimmed := trim_start text in
      existsb (has_prefix_ignore_case trimmed) CONTEXTUAL_DEVELOPER_PREFIXES
  | _ => false
  end.

Definition is_contextual_dev_message_content (message : list ContentItem) : bool := existsb is_contextual_dev_fragment message.

Definition has_non_contextual_dev_message_content (message : list ContentItem) : bool :=
  existsb (λ content_item, negb (is_contextual_dev_fragment content_item)) message.

Section fragments.
Context `{HistoryHost}.

Definition parse_hook_prompt_fragment (text : string) : option (string * string) :=
  '(text, hook_run_id) ← hook_prompt_xml (trim text);
  if str_is_empty (trim hook_run_id) then None else Some (text, hook_run_id).

Definition is_contextual_user_fragment (content_item : ContentItem) : bool :=
  match content_item with
  | InputText text => bool_decide (is_Some (parse_hook_prompt_fragment text)) || is_standard_contextual_user_text text
  | _ => false
  end.

Definition is_contextual_user_message_content (message : list ContentItem) : bool := existsb is_contextual_user_fragment message.

(** [InterAgentCommunication::is_message_content]. *)
Definition is_inter_agent_instruction_content (content : list ContentItem) : bool :=
  match content with
  | [InputText text] | [OutputText text] => is_communication_json text
  | _ => false
  end.

(** Where a turn begins: an instruction of the user or of another agent. *)
Definition is_user_turn_boundary (item : ResponseItem) : bool :=
  match item with
  | AgentMessage _ _ _ => true
  | Message _ role content _ =>
      ((role == "user") && negb (is_contextual_user_message_content content))
      || ((role == "assistant") && is_inter_agent_instruction_content content)
  | _ => false
  end.
End fragments.

(** ** Repairs for the prompt (normalize.rs) *)

Definition IMAGE_CONTENT_OMITTED_PLACEHOLDER : string := "image content omitted because you do not support image input".

Definition is_function_output (call_id : string) (i : ResponseItem) : bool :=
  match i with FunctionCallOutput existing _ => existing == call_id | _ => false end.

Definition is_search_output (call_id : string) (i : ResponseItem) : bool :=
  match i with ToolSearchOutput (Some existing) _ _ _ => existing == call_id | _ => false end.

Definition is_custom_output (call_id : string) (i : ResponseItem) : bool :=
  match i with CustomToolCallOutput existing _ _ => existing == call_id | _ => false end.

Section normalize.
Context `{HistoryHost}.

(** [error_or_panic] (util.rs). *)
Definition error_or_panic : res () := if debug_assertions then Panic else Ok ().

(** The output made up for a call that has none. *)
Definition missing_output (items : list ResponseItem) (item : ResponseItem) : res (option ResponseItem) :=
  match item with
  | FunctionCall _ _ _ _ call_id =>
      if existsb (is_function_output call_id) items then Ok None
      else Ok (Some (FunctionCallOutput call_id (payload_from_text "aborted")))
  | ToolSearchCall _ (Some call_id) _ _ _ =>
      if existsb (is_search_output call_id) items then Ok None
      else Ok (Some (ToolSearchOutput (Some call_id) "completed" "client" []))
  | CustomToolCall _ _ call_id _ _ =>
      if existsb (is_custom_output call_id) items then Ok None
      else _ ← error_or_panic; Ok (Some (CustomToolCallOutput call_id None (payload_from_text "aborted")))
  | LocalShellCall _ (Some call_id) _ _ =>
      if existsb (is_function_output call_id) items then Ok None
      else _ ← error_or_panic; Ok (Some (FunctionCallOutput call_id (payload_from_text "aborted")))
  | _ => Ok None
  end.

Fixpoint missing_outputs (items : list ResponseItem) (idx : nat) (rest : list ResponseItem) : res (list (nat * ResponseItem)) :=
  match rest with
  | [] => Ok []
  | item :: rest' =>
      missing ← missing_output items item;
      more ← missing_outputs items (S idx) rest';
      Ok (match missing with Some output => (idx, output) :: more | None => more end)
  end.

(** [Vec::insert]; the index is in range. *)
Definition insert_output (idx : nat) (x : ResponseItem) (items : list ResponseItem) : list ResponseItem :=
  take idx items ++ x :: drop idx items.

Definition ensure_call_outputs_present (items : list ResponseItem) : res (list ResponseItem) :=
  missing_outputs_to_insert ← missing_outputs items 0 items;
  Ok (fold_left (λ items '(idx, output_item), insert_output (idx + 1) output_item items) (rev missing_outputs_to_insert) items).

Definition function_call_ids (items : list ResponseItem) : list string :=
  omap (λ i, match i with FunctionCall _ _ _ _ call_id => Some call_id | _ => None end) items.

Definition tool_search_call_ids (items : list ResponseItem) : list string :=
  omap (λ i, match i with ToolSearchCall _ call_id _ _ _ => call_id | _ => None end) items.

Definition local_shell_call_ids (items : list ResponseItem) : list string :=
  omap (λ i, match i with LocalShellCall _ call_id _ _ => call_id | _ => None end) items.

Definition custom_tool_call_ids (items : list ResponseItem) : list string :=
  omap (λ i, match i with CustomToolCall _ _ call_id _ _ => Some call_id | _ => None end) items.

(** Whether an output has a call; one without is reported. *)
Definition report_orphan (has_match : bool) : res bool := _ ← (if has_match then Ok () else error_or_panic); Ok has_match.

Definition retain_output (items : list ResponseItem) (item : ResponseItem) : res bool :=
  match item with
  | FunctionCallOutput call_id _ =>
      report_orphan (contains_elem (function_call_ids items) call_id || contains_elem (local_shell_call_ids items) call_id)
  | CustomToolCallOutput call_id _ _ => report_orphan (contains_elem (custom_tool_call_ids items) call_id)
  | ToolSearchOutput call_id _ execution _ =>
      if execution == "server" then Ok true
      else match call_id with
           | Some call_id => report_orphan (contains_elem (tool_search_call_ids items) call_id)
           | None => Ok true
           end
  | _ => Ok true
  end.

Fixpoint retain_res (f : ResponseItem → res bool) (items : list ResponseItem) : res (list ResponseItem) :=
  match items with
  | [] => Ok []
  | item :: rest =>
      keep ← f item;
      kept ← retain_res f rest;
      Ok (if keep : bool then item :: kept else kept)
  end.

Definition remove_orphan_outputs (items : list ResponseItem) : res (list ResponseItem) := retain_res (retain_output items) items.

(** [iter().position(p)], then [remove(pos)]. *)
Fixpoint remove_first_matching (predicate : ResponseItem → bool) (items : list ResponseItem) : list ResponseItem :=
  match items with
  | [] => []
  | i :: items' => if predicate i then items' else i :: remove_first_matching predicate items'
  end.

Definition is_function_call (call_id : string) (i : ResponseItem) : bool :=
  match i with FunctionCall _ _ _ _ existing => existing == call_id | _ => false end.

Definition is_local_shell_call (call_id : string) (i : ResponseItem) : bool :=
  match i with LocalShellCall _ (Some existing) _ _ => existing == call_id | _ => false end.

Definition is_search_call (call_id : string) (i : ResponseItem) : bool :=
  match i with ToolSearchCall _ (Some existing) _ _ _ => existing == call_id | _ => false end.

Definition is_custom_call (call_id : string) (i : ResponseItem) : bool :=
  match i with CustomToolCall _ _ existing _ _ => existing == call_id | _ => false end.

Definition remove_corresponding_for (items : list ResponseItem) (item : ResponseItem) : list ResponseItem :=
  match item with
  | FunctionCall _ _ _ _ call_id => remove_first_matching (is_function_output call_id) items
  | FunctionCallOutput call_id _ =>
      if existsb (is_function_call call_id) items then remove_first_matching (is_function_call call_id) items
      else remove_first_matching (is_local_shell_call call_id) items
  | ToolSearchCall _ (Some call_id) _ _ _ => remove_first_matching (is_search_output call_id) items
  | ToolSearchOutput (Some call_id) _ _ _ => remove_first_matching (is_search_call call_id) items
  | CustomToolCall _ _ call_id _ _ => remove_first_matching (is_custom_output call_id) items
  | CustomToolCallOutput call_id _ _ => remove_first_matching (is_custom_call call_id) items
  | LocalShellCall _ (Some call_id) _ _ => remove_first_matching (is_function_output call_id) items
  | _ => items
  end.
End normalize.

Definition strip_content_image (content_item : ContentItem) : ContentItem :=
  match content_item with InputImage _ _ => InputText IMAGE_CONTENT_OMITTED_PLACEHOLDER | _ => content_item end.

Definition replace_output_image (placeholder : string) (content_item : FunctionCallOutputContentItem) : FunctionCallOutputContentItem :=
  match content_item with OutInputImage _ _ => OutInputText placeholder | _ => content_item end.

Definition map_output_items (f : FunctionCallOutputContentItem → FunctionCallOutputContentItem) (output : FunctionCallOutputPayload) :
    FunctionCallOutputPayload :=
  match fo_body output with
  | OutputBodyText _ => output
  | OutputBodyItems items => mkPayload (OutputBodyItems (map f items)) (fo_success output)
  end.

Definition strip_item_images (item : ResponseItem) : ResponseItem :=
  let strip := map_output_items (replace_output_image IMAGE_CONTENT_OMITTED_PLACEHOLDER) in
  match item with
  | Message id role content phase => Message id role (map strip_content_image content) phase
  | FunctionCallOutput call_id output => FunctionCallOutput call_id (strip output)
  | CustomToolCallOutput call_id name output => CustomToolCallOutput call_id name (strip output)
  | ImageGenerationCall id status revised_prompt _ => ImageGenerationCall id status revised_prompt ""
  | _ => item
  end.

#[export] Instance modality_eq_dec : EqDecision InputModality.
Proof. solve_decision. Defined.

Definition strip_images_when_unsupported (input_modalities : list InputModality) (items : list ResponseItem) : list ResponseItem :=
  if contains_elem input_modalities ImageModality then items else map strip_item_images items.

(** ** Token counts (protocol/src/protocol.rs) *)

Record TokenUsage := mkUsage {
  input_tokens : i64;
  cached_input_tokens : i64;
  output_tokens : i64;
  reasoning_output_tokens : i64;
  total_tokens : i64
}.

Definition usage_default : TokenUsage := mkUsage 0 0 0 0 0.

Record TokenUsageInfo := mkUsageInfo {
  total_token_usage : TokenUsage;
  last_token_usage : TokenUsage;
  model_context_window : option i64
}.

Section usage.
Context `{BuildProfile}.

Definition usage_add_assign (usage other : TokenUsage) : res TokenUsage :=
  a ← i64_add (input_tokens usage) (input_tokens other);
  b ← i64_add (cached_input_tokens usage) (cached_input_tokens other);
  c ← i64_add (output_tokens usage) (output_tokens other);
  d ← i64_add (reasoning_output_tokens usage) (reasoning_output_tokens other);
  e ← i64_add (total_tokens usage) (total_tokens other);
  Ok (mkUsage a b c d e).

Definition append_last_usage (info : TokenUsageInfo) (last_usage : TokenUsage) : res TokenUsageInfo :=
  total ← usage_add_assign (total_token_usage info) last_usage;
  Ok (mkUsageInfo total last_usage (model_context_window info)).

Definition new_or_append (info : option TokenUsageInfo) (last_usage : option TokenUsage) (context_window : option i64) :
    res (option TokenUsageInfo) :=
  match info, last_usage with
  | None, None => Ok None
  | _, _ =>
      let info := default (mkUsageInfo usage_default usage_default context_window) info in
      info ← match last_usage with Some u => append_last_usage info u | None => Ok info end;
      Ok (Some (match context_window with
                | Some _ => mkUsageInfo (total_token_usage info) (last_token_usage info) context_window
                | None => info
                end))
  end.

Definition fill_to_context_window (info : TokenUsageInfo) (context_window : i64) : res TokenUsageInfo :=
  difference ← i64_sub context_window (total_tokens (total_token_usage info));
  let delta := Z.max difference 0 in
  Ok (mkUsageInfo (mkUsage 0 0 0 0 context_window) (mkUsage 0 0 0 0 delta) (Some context_window)).

Definition full_context_window (context_window : i64) : res TokenUsageInfo :=
  fill_to_context_window (mkUsageInfo usage_default usage_default (Some context_window)) context_window.
End usage.

(** ** Estimates (history.rs) *)

Definition usize_as_i64 (n : usize) : i64 := Z.of_N (N.min n i64_max).

Definition estimate_reasoning_length (encoded_len : usize) : usize := (sat_mul encoded_len 3 / 4 - 650)%N.

Definition estimate_encrypted_function_output_length (encoded_len : usize) : usize := ((sat_mul encoded_len 9 + 15) / 16)%N.

Definition RESIZED_IMAGE_BYTES_ESTIMATE : i64 := 7373.
Definition ORIGINAL_IMAGE_PATCH_SIZE : i64 := 32.
Definition ORIGINAL_IMAGE_MAX_PATCHES : usize := 10000.

Definition parse_base64_image_data_url (url : string) : option string :=
  if negb (has_prefix_ignore_case url "data:") then None
  else
    comma_index ← str_find "," url;
    let metadata := str_take comma_index url in
    let payload := str_drop (comma_index + 1) url in
    let metadata_without_scheme := str_drop (String.length "data:") metadata in
    let '(mime_type, metadata_parts) :=
      match split_char ";"%char metadata_without_scheme with [] => ("", []) | first :: parts => (first, parts) end in
    let has_base64_marker := existsb (λ part, eq_ignore_ascii_case part "base64") metadata_parts in
    if negb (has_prefix_ignore_case mime_type "image/") then None
    else if negb has_base64_marker then None
    else Some payload.

Section estimates.
Context `{HistoryHost}.

(** The code keeps the result in a cache under the SHA-1 digest of the url. *)
Definition estimate_original_image_bytes (image_url : string) : option i64 :=
  payload ← parse_base64_image_data_url image_url;
  '(width, height) ← decode_image payload;
  let patch_size := ORIGINAL_IMAGE_PATCH_SIZE in
  let patches_wide := (i64_sat_add (Z.of_N width) (i64_sat_sub patch_size 1) / patch_size)%Z in
  let patches_high := (i64_sat_add (Z.of_N height) (i64_sat_sub patch_size 1) / patch_size)%Z in
  let patch_count := Z.to_N (i64_sat (patches_wide * patches_high)) in
  let patch_count := N.min patch_count ORIGINAL_IMAGE_MAX_PATCHES in
  Some (usize_as_i64 (approx_bytes_for_tokens patch_count)).

Definition accumulate_image (acc : i64 * i64) (image : string * option ImageDetail) : i64 * i64 :=
  let '(image_url, detail) := image in
  match parse_base64_image_data_url image_url with
  | None => acc
  | Some payload =>
      (i64_sat_add acc.1 (usize_as_i64 (str_len payload)),
       i64_sat_add acc.2
         (match detail with
          | Some DetailOriginal => default RESIZED_IMAGE_BYTES_ESTIMATE (estimate_original_image_bytes image_url)
          | _ => RESIZED_IMAGE_BYTES_ESTIMATE
          end))
  end.

Definition output_images (output : FunctionCallOutputPayload) : list (string * option ImageDetail) :=
  match fo_body output with
  | OutputBodyText _ => []
  | OutputBodyItems items =>
      omap (λ i, match i with OutInputImage image_url detail => Some (image_url, detail) | _ => None end) items
  end.

Definition item_images (item : ResponseItem) : list (string * option ImageDetail) :=
  match item with
  | Message _ _ content _ =>
      omap (λ i, match i with InputImage image_url detail => Some (image_url, detail) | _ => None end) content
  | FunctionCallOutput _ output | CustomToolCallOutput _ _ output => output_images output
  | _ => []
  end.

Definition image_data_url_estimate_adjustment (item : ResponseItem) : i64 * i64 :=
  fold_left accumulate_image (item_images item) (0%Z, 0%Z).

Definition encrypted_function_output_estimate_adjustment (item : ResponseItem) : i64 * i64 :=
  match item with
  | FunctionCallOutput _ output =>
      match fo_body output with
      | OutputBodyItems items =>
          fold_left (λ acc i,
            match i with
            | OutEncryptedContent encrypted_content =>
                (i64_sat_add acc.1 (usize_as_i64 (str_len encrypted_content)),
                 i64_sat_add acc.2 (usize_as_i64 (estimate_encrypted_function_output_length (str_len encrypted_content))))
            | _ => acc
            end) items (0%Z, 0%Z)
      | OutputBodyText _ => (0%Z, 0%Z)
      end
  | _ => (0%Z, 0%Z)
  end.

Definition estimate_response_item_model_visible_bytes (item : ResponseItem) : i64 :=
  match item with
  | Reasoning _ _ _ (Some content) | Compaction content | ContextCompaction (Some content) =>
      usize_as_i64 (estimate_reasoning_length (str_len content))
  | _ =>
      let raw := match item_json_len item with Some n => usize_as_i64 n | None => 0%Z end in
      let '(image_payload_bytes, image_replacement_bytes) := image_data_url_estimate_adjustment item in
      let '(encrypted_payload_bytes, encrypted_replacement_bytes) := encrypted_function_output_estimate_adjustment item in
      let raw := i64_sat_add (i64_sat_sub raw image_payload_bytes) image_replacement_bytes in
      i64_sat_add (i64_sat_sub raw encrypted_payload_bytes) encrypted_replacement_bytes
  end.

Definition estimate_item_token_count (item : ResponseItem) : i64 :=
  approx_tokens_from_byte_count_i64 (estimate_response_item_model_visible_bytes item).

Definition sum_tokens (items : list ResponseItem) : i64 := fold_left i64_sat_add (map estimate_item_token_count items) 0%Z.
End estimates.

(** ** The history (history.rs) *)

Definition is_api_message (message : ResponseItem) : bool :=
  match message with
  | Message _ role _ _ => negb (role == "system")
  | CompactionTrigger | OtherItem => false
  | _ => true
  end.

Definition is_model_generated_item (item : ResponseItem) : bool :=
  match item with
  | Message _ role _ _ => role == "assistant"
  | Reasoning _ _ _ _ | FunctionCall _ _ _ _ _ | ToolSearchCall _ _ _ _ _ | WebSearchCall _ _ _ | ImageGenerationCall _ _ _ _
  | CustomToolCall _ _ _ _ _ | LocalShellCall _ _ _ _ | Compaction _ | ContextCompaction _ => true
  | CompactionTrigger | FunctionCallOutput _ _ | ToolSearchOutput _ _ _ _ | CustomToolCallOutput _ _ _ | AgentMessage _ _ _
  | OtherItem => false
  end.

Fixpoint position (f : ResponseItem → bool) (items : list ResponseItem) : option nat :=
  match items with
  | [] => None
  | i :: items' => if f i then Some 0%nat else S <$> position f items'
  end.

(** [iter().rposition(f)]. *)
Definition rposition (f : ResponseItem → bool) (items : list ResponseItem) : option nat :=
  (λ n, (length items - 1 - n)%nat) <$> position f (rev items).

Definition truncate_function_output_payload (output : FunctionCallOutputPayload) (policy : TruncationPolicy) :
    FunctionCallOutputPayload :=
  mkPayload
    (match fo_body output with
     | OutputBodyText content => OutputBodyText (truncate_text content policy)
     | OutputBodyItems items => OutputBodyItems (truncate_function_output_items_with_policy items policy)
     end) (fo_success output).

(** The [f64] nearest to 1.2. *)
Definition f64_1_2 : spec_float := S754_finite false 5404319552844595 (-52).

Definition process_item (item : ResponseItem) (policy : TruncationPolicy) : ResponseItem :=
  let policy_with_serialization_budget := policy_mul policy f64_1_2 in
  match item with
  | FunctionCallOutput call_id output =>
      FunctionCallOutput call_id (truncate_function_output_payload output policy_with_serialization_budget)
  | CustomToolCallOutput call_id name output =>
      CustomToolCallOutput call_id name (truncate_function_output_payload output policy_with_serialization_budget)
  | _ => item
  end.

(** The baseline of the context is stored and cleared here, and not looked into. *)
Record ContextManager (T : Type) := mkHistory {
  cm_items : list ResponseItem;
  history_version : u64;
  cm_token_info : option TokenUsageInfo;
  reference_context_item : option T
}.
Arguments mkHistory {T} _ _ _ _.
Arguments cm_items {T} _.
Arguments history_version {T} _.
Arguments cm_token_info {T} _.
Arguments reference_context_item {T} _.

Definition set_items {T} (items : list ResponseItem) (h : ContextManager T) : ContextManager T :=
  mkHistory items (history_version h) (cm_token_info h) (reference_context_item h).

Definition set_token_info {T} (info : option TokenUsageInfo) (h : ContextManager T) : ContextManager T :=
  mkHistory (cm_items h) (history_version h) info (reference_context_item h).

Definition set_reference_context_item {T} (item : option T) (h : ContextManager T) : ContextManager T :=
  mkHistory (cm_items h) (history_version h) (cm_token_info h) item.

Section history.
Context `{HistoryHost} {T : Type}.
Implicit Types h : ContextManager T.

Definition history_new : ContextManager T := mkHistory [] 0 None None.

Definition set_token_usage_full `{BuildProfile} (context_window : i64) h : res (ContextManager T) :=
  info ← match cm_token_info h with
         | Some info => fill_to_context_window info context_window
         | None => full_context_window context_window
         end;
  Ok (set_token_info (Some info) h).

Definition update_token_info `{BuildProfile} (usage : TokenUsage) (context_window : option i64) h : res (ContextManager T) :=
  info ← new_or_append (cm_token_info h) (Some usage) context_window;
  Ok (set_token_info info h).

Definition record_item (policy : TruncationPolicy) h (item : ResponseItem) : ContextManager T :=
  if negb (is_api_message item) then h else set_items (cm_items h ++ [process_item item policy]) h.

Definition record_items (items : list ResponseItem) (policy : TruncationPolicy) h : ContextManager T :=
  fold_left (record_item policy) items h.

Definition normalize_history (input_modalities : list InputModality) h : res (ContextManager T) :=
  items ← ensure_call_outputs_present (cm_items h);
  items ← remove_orphan_outputs items;
  Ok (set_items (strip_images_when_unsupported input_modalities items) h).

Definition for_prompt (input_modalities : list InputModality) h : res (list ResponseItem) :=
  h ← normalize_history input_modalities h; Ok (cm_items h).

Definition estimate_token_count_with_base_instructions (base_instructions : string) h : i64 :=
  i64_sat_add (usize_as_i64 (approx_token_count base_instructions)) (sum_tokens (cm_items h)).

Definition remove_first_item h : ContextManager T :=
  match cm_items h with
  | [] => h
  | removed :: items => set_items (remove_corresponding_for items removed) h
  end.

Definition replace_items (items : list ResponseItem) h : ContextManager T :=
  mkHistory items (sat_add (history_version h) 1) (cm_token_info h) (reference_context_item h).

Definition is_function_call_output (item : ResponseItem) : bool :=
  match item with FunctionCallOutput _ _ => true | _ => false end.

Definition is_out_image (item : FunctionCallOutputContentItem) : bool :=
  match item with OutInputImage _ _ => true | _ => false end.

Definition replace_last_turn_images (placeholder : string) h : bool * ContextManager T :=
  match rposition (λ item, is_function_call_output item || is_user_turn_boundary item) (cm_items h) with
  | None => (false, h)
  | Some index =>
      match cm_items h !! index with
      | Some (FunctionCallOutput call_id output) =>
          match fo_body output with
          | OutputBodyText _ => (false, h)
          | OutputBodyItems content_items =>
              let replaced := existsb is_out_image content_items in
              let output := map_output_items (replace_output_image placeholder) output in
              let h := set_items (<[index := FunctionCallOutput call_id output]> (cm_items h)) h in
              (replaced, if replaced then replace_items (cm_items h) h else h)
          end
      | _ => (false, h)
      end
  end.

Fixpoint user_message_positions (idx : nat) (items : list ResponseItem) : list nat :=
  match items with
  | [] => []
  | item :: items' =>
      if is_user_turn_boundary item then idx :: user_message_positions (S idx) items' else user_message_positions (S idx) items'
  end.

(** A message of the context of a turn, and whether it also has text of its own. *)
Definition pre_turn_context (item : ResponseItem) : option bool :=
  match item with
  | Message _ role content _ =>
      if (role == "developer") && is_contextual_dev_message_content content then Some (has_non_contextual_dev_message_content content)
      else if (role == "user") && is_contextual_user_message_content content then Some false
      else None
  | _ => None
  end.

Fixpoint trim_pre_turn_context_updates (snapshot : list ResponseItem) (first_instruction_turn_idx cut_idx : nat)
    (baseline : option T) : nat * option T :=
  match cut_idx with
  | O => (cut_idx, baseline)
  | S before =>
      if (first_instruction_turn_idx <? cut_idx)%nat then
        match snapshot !! before ≫= pre_turn_context with
        | Some mixed =>
            trim_pre_turn_context_updates snapshot first_instruction_turn_idx before (if mixed : bool then None else baseline)
        | None => (cut_idx, baseline)
        end
      else (cut_idx, baseline)
  end.

Definition drop_last_n_user_turns (num_turns : u32) h : ContextManager T :=
  if (num_turns =? 0)%N then h
  else
    let snapshot := cm_items h in
    match user_message_positions 0 snapshot with
    | [] => replace_items snapshot h
    | (first_instruction_turn_idx :: _) as user_positions =>
        let n_from_end := N.to_nat num_turns in
        let cut_idx :=
          if (length user_positions <=? n_from_end)%nat then first_instruction_turn_idx
          else nth (length user_positions - n_from_end) user_positions 0%nat in
        let '(cut_idx, baseline) :=
          trim_pre_turn_context_updates snapshot first_instruction_turn_idx cut_idx (reference_context_item h) in
        replace_items (take cut_idx snapshot) (set_reference_context_item baseline h)
    end.

Definition get_non_last_reasoning_items_tokens h : i64 :=
  match rposition is_user_turn_boundary (cm_items h) with
  | None => 0%Z
  | Some last_user_index =>
      sum_tokens (List.filter (λ item, match item with Reasoning _ _ _ (Some _) => true | _ => false end) (take last_user_index (cm_items h)))
  end.

Definition items_after_last_model_generated_item h : list ResponseItem :=
  match rposition is_model_generated_item (cm_items h) with
  | None => []
  | Some index => drop (S index) (cm_items h)
  end.

Definition estimated_tokens_after_last_model_generated_item h : i64 := sum_tokens (items_after_last_model_generated_item h).

Definition get_total_token_usage (server_reasoning_included : bool) h : i64 :=
  let last_tokens := match cm_token_info h with Some info => total_tokens (last_token_usage info) | None => 0%Z end in
  let after := estimated_tokens_after_last_model_generated_item h in
  if server_reasoning_included then i64_sat_add last_tokens after
  else i64_sat_add (i64_sat_add last_tokens (get_non_last_reasoning_items_tokens h)) after.
End history.
