(* ===== verification/HistoryFacts.v ===== *)
(** * Facts about the history of a conversation

    What the model is sent is a list in which calls and outputs are paired;
    dropping the oldest item keeps them paired, and a rollback drops exactly the
    last turns. *)

From S2P Require Import Prelude RustStr Json Lifecycle Os Utf8 TextStream Truncate History.

(** ** Calls and outputs *)

(** What pairs a call with its output.  Calls of the local shell are answered
    like function calls. *)
Inductive CallKey :=
| FunctionKey (call_id : string)
| SearchKey (call_id : string)
| CustomKey (call_id : string).

#[export] Instance call_key_eq_dec : EqDecision CallKey.
Proof. solve_decision. Defined.

Definition call_key (item : ResponseItem) : option CallKey :=
  match item with
  | FunctionCall _ _ _ _ call_id => Some (FunctionKey call_id)
  | LocalShellCall _ call_id _ _ => FunctionKey <$> call_id
  | ToolSearchCall _ call_id _ _ _ => SearchKey <$> call_id
  | CustomToolCall _ _ call_id _ _ => Some (CustomKey call_id)
  | _ => None
  end.

Definition output_key (item : ResponseItem) : option CallKey :=
  match item with
  | FunctionCallOutput call_id _ => Some (FunctionKey call_id)
  | ToolSearchOutput call_id _ _ _ => SearchKey <$> call_id
  | CustomToolCallOutput call_id _ _ => Some (CustomKey call_id)
  | _ => None
  end.

(** Searches the server ran by itself need no call. *)
Definition by_server (item : ResponseItem) : bool :=
  match item with ToolSearchOutput _ _ execution _ => execution == "server" | _ => false end.

Definition has_call (items : list ResponseItem) (k : CallKey) : Prop := ∃ c, c ∈ items ∧ call_key c = Some k.

Definition has_output (items : list ResponseItem) (k : CallKey) : Prop := ∃ o, o ∈ items ∧ output_key o = Some k.

(** Items without an id take no part, and the outputs of the server need no call,
    as in normalize.rs. *)
Definition paired (items : list ResponseItem) : Prop :=
  (∀ k, has_call items k → has_output items k) ∧
  (∀ o k, o ∈ items → output_key o = Some k → by_server o = false → has_call items k).

Definition is_tool_output (item : ResponseItem) : bool :=
  match item with FunctionCallOutput _ _ | ToolSearchOutput _ _ _ _ | CustomToolCallOutput _ _ _ => true | _ => false end.

Lemma call_key_not_output i k : call_key i = Some k → is_tool_output i = false ∧ output_key i = None.
Proof. by destruct i. Qed.

Lemma output_key_not_call i k : output_key i = Some k → is_tool_output i = true ∧ call_key i = None.
Proof. by destruct i. Qed.

(** The tests of the code against the keys. *)
Lemma function_output_key id i : is_function_output id i = bool_decide (output_key i = Some (FunctionKey id)).
Proof.
  destruct i as [| | | | | |c| | |[c|]| | | | | |]; cbn; try (symmetry; apply bool_decide_eq_false; congruence).
  destruct (String.eqb_spec c id) as [->|]; symmetry; [by apply bool_decide_eq_true|apply bool_decide_eq_false; congruence].
Qed.

Lemma search_output_key id i : is_search_output id i = bool_decide (output_key i = Some (SearchKey id)).
Proof.
  destruct i as [| | | | | | | | |[c|]| | | | | |]; cbn; try (symmetry; apply bool_decide_eq_false; congruence).
  destruct (String.eqb_spec c id) as [->|]; symmetry; [by apply bool_decide_eq_true|apply bool_decide_eq_false; congruence].
Qed.

Lemma custom_output_key id i : is_custom_output id i = bool_decide (output_key i = Some (CustomKey id)).
Proof.
  destruct i as [| | | | | | | |c|[?|]| | | | | |]; cbn; try (symmetry; apply bool_decide_eq_false; congruence).
  destruct (String.eqb_spec c id) as [->|]; symmetry; [by apply bool_decide_eq_true|apply bool_decide_eq_false; congruence].
Qed.

Lemma search_call_key id i : is_search_call id i = bool_decide (call_key i = Some (SearchKey id)).
Proof.
  destruct i as [| | |? [?|]| |? [c|]| | | | | | | | | |]; cbn; try (symmetry; apply bool_decide_eq_false; congruence).
  destruct (String.eqb_spec c id) as [->|]; symmetry; [by apply bool_decide_eq_true|apply bool_decide_eq_false; congruence].
Qed.

Lemma custom_call_key id i : is_custom_call id i = bool_decide (call_key i = Some (CustomKey id)).
Proof.
  destruct i as [| | |? [?|]| |? [?|]| |? ? c| | | | | | | |]; cbn; try (symmetry; apply bool_decide_eq_false; congruence).
  destruct (String.eqb_spec c id) as [->|]; symmetry; [by apply bool_decide_eq_true|apply bool_decide_eq_false; congruence].
Qed.

Lemma function_call_key id i :
  is_function_call id i || is_local_shell_call id i = bool_decide (call_key i = Some (FunctionKey id)).
Proof.
  destruct i as [| | |? [c|]|? ? ? ? c|? [?|]| | | | | | | | | |]; cbn; try (symmetry; apply bool_decide_eq_false; congruence);
    rewrite ?orb_false_r; (destruct (String.eqb_spec c id) as [->|]; symmetry; [by apply bool_decide_eq_true|apply bool_decide_eq_false; congruence]).
Qed.

Lemma existsb_key {f : ResponseItem → option CallKey} {k p items} : (∀ i, p i = bool_decide (f i = Some k)) →
  existsb p items = true ↔ ∃ i, i ∈ items ∧ f i = Some k.
Proof.
  intros Hp. rewrite existsb_exists. split.
  - intros (i & Hi & E). rewrite Hp in E. apply bool_decide_eq_true in E. exists i. by rewrite list_elem_of_In.
  - intros (i & Hi & E). exists i. rewrite <- list_elem_of_In, Hp. split; [done|]. by apply bool_decide_eq_true.
Qed.

(** ** Repairs *)

Section repairs.
Context `{HistoryHost}.

(** A call without an output gets one of its own kind. *)
Lemma missing_output_spec items i m : missing_output items i = Ok m →
  match call_key i with
  | None => m = None
  | Some k =>
      match m with
      | None => has_output items k
      | Some o => output_key o = Some k ∧ call_key o = None ∧ by_server o = false ∧ item_images o = [] ∧ is_tool_output o = true
      end
  end.
Proof.
  destruct i as [| | |? [id|] ? ?|? ? ? ? id|? [id|] ? ? ?| |? ? id ? ?| | | | | | | |]; cbn; intros E; simplify_eq; try done.
  - destruct (existsb _ items) eqn:Ee; [simplify_eq; by apply (existsb_key (function_output_key id))|].
    unfold error_or_panic in E. destruct debug_assertions; cbn in E; by simplify_eq.
  - destruct (existsb _ items) eqn:Ee; [simplify_eq; by apply (existsb_key (function_output_key id))|by simplify_eq].
  - destruct (existsb _ items) eqn:Ee; [simplify_eq; by apply (existsb_key (search_output_key id))|by simplify_eq].
  - destruct (existsb _ items) eqn:Ee; [simplify_eq; by apply (existsb_key (custom_output_key id))|].
    unfold error_or_panic in E. destruct debug_assertions; cbn in E; by simplify_eq.
Qed.

Lemma missing_output_done items i : (∀ k, call_key i = Some k → has_output items k) → missing_output items i = Ok None.
Proof.
  intros Hk. destruct i as [| | |? [id|] ? ?|? ? ? ? id|? [id|] ? ? ?| |? ? id ? ?| | | | | | | |]; cbn; try done.
  - by rewrite (proj2 (existsb_key (function_output_key id))) by (by apply Hk).
  - by rewrite (proj2 (existsb_key (function_output_key id))) by (by apply Hk).
  - by rewrite (proj2 (existsb_key (search_output_key id))) by (by apply Hk).
  - by rewrite (proj2 (existsb_key (custom_output_key id))) by (by apply Hk).
Qed.

Definition made (items : list ResponseItem) (i : ResponseItem) : list ResponseItem :=
  match missing_output items i with Ok (Some o) => [o] | _ => [] end.

Lemma missing_outputs_insert all rest pre l : missing_outputs all (length pre) rest = Ok l →
  fold_left (λ items '(idx, output_item), insert_output (idx + 1) output_item items) (rev l) (pre ++ rest) =
  pre ++ concat (map (λ i, i :: made all i) rest).
Proof.
  revert pre l. induction rest as [|i rest IH]; intros pre l; cbn [missing_outputs].
  - by intros [= <-].
  - destruct (missing_output all i) as [m| |] eqn:Em; [|done..]. cbn.
    destruct (missing_outputs all (S (length pre)) rest) as [more| |] eqn:El; [|done..]. cbn. intros [= <-].
    assert (length (pre ++ [i]) = S (length pre)) as Hlen by (rewrite length_app; cbn; lia).
    specialize (IH (pre ++ [i]) more). rewrite Hlen in IH. specialize (IH El). rewrite <- !app_assoc in IH. cbn in IH.
    unfold made. rewrite Em. destruct m as [o|]; cbn; [|by rewrite IH].
    rewrite fold_left_app, IH. cbn. unfold insert_output. rewrite Nat.add_1_r, <- Hlen.
    assert (∀ l, pre ++ i :: l = (pre ++ [i]) ++ l) as Hs by (intros; by rewrite <- app_assoc).
    rewrite (Hs (concat _)), take_app_length, drop_app_length. by rewrite <- app_assoc.
Qed.

Lemma missing_outputs_ok all rest n l : missing_outputs all n rest = Ok l → ∀ i, i ∈ rest → ∃ m, missing_output all i = Ok m.
Proof.
  revert n l. induction rest as [|j rest IH]; intros n l; cbn; [intros _ i Hi; by apply not_elem_of_nil in Hi|].
  destruct (missing_output all j) as [m| |] eqn:Em; [|done..]. cbn.
  destruct (missing_outputs all (S n) rest) as [more| |] eqn:El; [|done..]. intros _ i [->|Hi]%elem_of_cons; [by exists m|by eapply IH].
Qed.

Lemma ensure_outputs items out : ensure_call_outputs_present items = Ok out →
  out = concat (map (λ i, i :: made items i) items) ∧ ∀ i, i ∈ items → ∃ m, missing_output items i = Ok m.
Proof.
  unfold ensure_call_outputs_present. destruct (missing_outputs items 0 items) as [l| |] eqn:E; [|done..]. cbn. intros [= <-].
  split; [apply (missing_outputs_insert items items [] l E)|by eapply missing_outputs_ok].
Qed.

Lemma elem_of_made (f : ResponseItem → list ResponseItem) items x :
  x ∈ concat (map (λ i, i :: f i) items) ↔ x ∈ items ∨ ∃ i, i ∈ items ∧ x ∈ f i.
Proof.
  induction items as [|i items IH]; cbn.
  - split; [by left|]. intros [?|(i & Hi & _)]; [done|]. by apply not_elem_of_nil in Hi.
  - rewrite !elem_of_cons, elem_of_app, IH. setoid_rewrite elem_of_cons. naive_solver.
Qed.

(** After the first repair every call has an output; nothing else was added. *)
Lemma ensure_call_outputs_spec items out : ensure_call_outputs_present items = Ok out →
  (∀ k, has_call out k → has_output out k) ∧ (∀ k, has_call out k ↔ has_call items k) ∧
  List.filter (λ i, negb (is_tool_output i)) out = List.filter (λ i, negb (is_tool_output i)) items.
Proof.
  intros [-> Hok]%ensure_outputs. pose proof (λ i m, missing_output_spec items i m) as Hspec.
  assert (∀ i o, i ∈ items → o ∈ made items i → call_key o = None ∧ is_tool_output o = true) as Hmade.
  { intros i o Hi. destruct (Hok i Hi) as [m Em]. specialize (Hspec i m Em). unfold made. rewrite Em.
    destruct m as [o'|]; [|by intros ?%not_elem_of_nil]. intros ->%list_elem_of_singleton.
    destruct (call_key i); [|done]. naive_solver. }
  assert (∀ k, has_call (concat (map (λ i, i :: made items i) items)) k ↔ has_call items k) as Hcalls.
  { intros k. unfold has_call. setoid_rewrite elem_of_made. split; [|naive_solver].
    intros (c & [Hc|(i & Hi & Hc)] & E); [by exists c|]. destruct (Hmade i c Hi Hc). congruence. }
  split; [|split; [done|]].
  - intros k (c & Hc & E)%Hcalls. destruct (Hok c Hc) as [m Em]. pose proof (Hspec c m Em) as Hm. rewrite E in Hm.
    unfold has_output. setoid_rewrite elem_of_made. destruct m as [o|].
    + exists o. split; [|apply Hm]. right. exists c. split; [done|]. unfold made. rewrite Em. by apply list_elem_of_singleton.
    + destruct Hm as (o & Ho & Eo). exists o. split; [by left|done].
  - assert (∀ l, (∀ i, i ∈ l → i ∈ items) →
      List.filter (λ i, negb (is_tool_output i)) (concat (map (λ i, i :: made items i) l)) = List.filter (λ i, negb (is_tool_output i)) l) as H0.
    { induction l as [|i l IH]; intros Hl; [done|]. cbn. rewrite List.filter_app, IH by (intros; apply Hl; by constructor).
      assert (List.filter (λ i, negb (is_tool_output i)) (made items i) = []) as ->; [|done].
      assert (∀ o, o ∈ made items i → is_tool_output o = true) as Ho by (intros o Ho; apply (Hmade i o); [apply Hl; by constructor|done]).
      clear -Ho. induction (made items i) as [|o l IH]; [done|]. cbn. rewrite (Ho o) by constructor. apply IH. intros x Hx. apply Ho. by constructor. }
    by apply H0.
Qed.

Definition keeps (f : ResponseItem → res bool) (i : ResponseItem) : bool := match f i with Ok b => b | _ => false end.

Lemma retain_res_filter f items out : retain_res f items = Ok out →
  out = List.filter (keeps f) items ∧ ∀ i, i ∈ items → ∃ b, f i = Ok b.
Proof.
  revert out. induction items as [|i items IH]; intros out; cbn.
  - intros [= <-]. split; [done|]. intros i Hi. by apply not_elem_of_nil in Hi.
  - unfold keeps at 1. destruct (f i) as [b| |] eqn:E; [|done..]. cbn. destruct (retain_res f items) as [kept| |]; [|done..]. cbn.
    intros [= <-]. destruct (IH kept eq_refl) as [-> Hi]. split; [by destruct b|].
    intros j [->|Hj]%elem_of_cons; [by exists b|by apply Hi].
Qed.

Lemma report_orphan_Ok b b' : report_orphan b = Ok b' → b' = b.
Proof. unfold report_orphan. destruct b; cbn; [by intros [= <-]|]. unfold error_or_panic. destruct debug_assertions; cbn; [done|by intros [= <-]]. Qed.

Lemma contains_id (g : ResponseItem → option string) items id : contains_elem (omap g items) id = true ↔ ∃ i, i ∈ items ∧ g i = Some id.
Proof. unfold contains_elem. rewrite bool_decide_eq_true. apply list_elem_of_omap. Qed.

Lemma function_ids_calls items id :
  contains_elem (function_call_ids items) id || contains_elem (local_shell_call_ids items) id = true ↔ has_call items (FunctionKey id).
Proof.
  rewrite orb_true_iff. unfold function_call_ids, local_shell_call_ids. rewrite !contains_id. split.
  - intros [(i & Hi & E)|(i & Hi & E)]; exists i; (split; [done|]); destruct i; by simplify_eq/=.
  - intros (i & Hi & E). destruct i as [| | |? [c|]| |? [?|]| | | | | | | | | |]; simplify_eq/=; [right|left]; by eexists.
Qed.

Lemma custom_ids_calls items id : contains_elem (custom_tool_call_ids items) id = true ↔ has_call items (CustomKey id).
Proof.
  unfold custom_tool_call_ids. rewrite contains_id.
  split; intros (i & Hi & E); exists i; (split; [done|]); destruct i as [| | |? [?|]| |? [?|]| | | | | | | | | |]; by simplify_eq/=.
Qed.

Lemma search_ids_calls items id : contains_elem (tool_search_call_ids items) id = true ↔ has_call items (SearchKey id).
Proof.
  unfold tool_search_call_ids. rewrite contains_id.
  split; intros (i & Hi & E); exists i; (split; [done|]); destruct i as [| | |? [?|]| |? [?|]| | | | | | | | | |]; by simplify_eq/=.
Qed.

(** An output is kept exactly when it has a call or needs none. *)
Lemma retain_output_spec items i b : retain_output items i = Ok b →
  b = true ↔ ∀ k, output_key i = Some k → by_server i = false → has_call items k.
Proof.
  destruct i as [| | | | | |id out| |id name out|[id|] status execution tools| | | | | |]; cbn; try (intros [= <-]; naive_solver).
  - intros ->%report_orphan_Ok. rewrite function_ids_calls. naive_solver.
  - intros ->%report_orphan_Ok. rewrite custom_ids_calls. naive_solver.
  - destruct (execution == "server"); [intros [= <-]; naive_solver|]. intros ->%report_orphan_Ok. rewrite search_ids_calls. naive_solver.
  - destruct (execution == "server"); intros [= <-]; naive_solver.
Qed.

Lemma retain_output_done items i : (∀ k, output_key i = Some k → by_server i = false → has_call items k) → retain_output items i = Ok true.
Proof.
  intros Hk. destruct i as [| | | | | |id out| |id name out|[id|] status execution tools| | | | | |]; cbn in *; try done.
  - by rewrite (proj2 (function_ids_calls items id)) by (by apply Hk).
  - by rewrite (proj2 (custom_ids_calls items id)) by (by apply Hk).
  - destruct (execution == "server"); [done|]. by rewrite (proj2 (search_ids_calls items id)) by (by apply Hk).
  - by destruct (execution == "server").
Qed.

Lemma filter_filter_true {A} (f g : A → bool) l : (∀ x, g x = true → f x = true) → List.filter g (List.filter f l) = List.filter g l.
Proof.
  intros Hfg. induction l as [|x l IH]; [done|]. cbn. destruct (f x) eqn:Ef; cbn; [by rewrite IH|].
  destruct (g x) eqn:Eg; [by rewrite Hfg in Ef|done].
Qed.

(** The second repair leaves calls and outputs paired and touches nothing but
    outputs. *)
Lemma remove_orphans_spec items out : remove_orphan_outputs items = Ok out → (∀ k, has_call items k → has_output items k) →
  paired out ∧ List.filter (λ i, negb (is_tool_output i)) out = List.filter (λ i, negb (is_tool_output i)) items.
Proof.
  intros [-> Hok]%retain_res_filter Hpair. set (f := keeps (retain_output items)).
  assert (∀ i, i ∈ items → f i = true ↔ ∀ k, output_key i = Some k → by_server i = false → has_call items k) as Hf.
  { intros i Hi. destruct (Hok i Hi) as [b Eb]. subst f. unfold keeps. rewrite Eb. by apply retain_output_spec. }
  assert (∀ i, is_tool_output i = false → f i = true) as Hother by (intros i Hi; subst f; unfold keeps; by destruct i).
  assert (∀ i, i ∈ List.filter f items ↔ i ∈ items ∧ f i = true) as Hin by (intros i; by rewrite !list_elem_of_In, filter_In).
  assert (∀ k, has_call (List.filter f items) k ↔ has_call items k) as Hcalls.
  { intros k. unfold has_call. setoid_rewrite Hin. split; [naive_solver|]. intros (c & Hc & E). exists c.
    split; [|done]. split; [done|]. apply Hother. by destruct (call_key_not_output c k E). }
  split; [split|].
  - intros k Hk. apply Hcalls in Hk. destruct (Hpair k Hk) as (o & Ho & E). exists o. split; [|done]. apply Hin. split; [done|].
    apply Hf; [done|]. intros k' E' _. congruence.
  - intros o k [Ho Hfo]%Hin E Hs. apply Hcalls. by apply (Hf o Ho).
  - apply filter_filter_true. intros i Hi. apply Hother. by destruct (is_tool_output i).
Qed.

(** Neither repair drops an item that is no orphan. *)
Lemma repairs_keep items o1 o2 i : ensure_call_outputs_present items = Ok o1 → remove_orphan_outputs o1 = Ok o2 →
  i ∈ items → (∀ k, output_key i = Some k → by_server i = false → has_call items k) → i ∈ o2.
Proof.
  intros E1 [-> Hok]%retain_res_filter Hi Hcall. destruct (ensure_call_outputs_spec _ _ E1) as (_ & Hiff & _).
  assert (i ∈ o1) as Hi1 by (apply ensure_outputs in E1 as [-> _]; rewrite list_elem_of_In, in_concat; exists (i :: made items i); split; [apply in_map_iff; exists i; by rewrite <- list_elem_of_In|by left]).
  rewrite list_elem_of_In, filter_In, <- list_elem_of_In. split; [done|]. unfold keeps. destruct (Hok i Hi1) as [b Eb]. rewrite Eb.
  apply (retain_output_spec o1 i b Eb). intros k Hk Hs. apply Hiff. by apply Hcall.
Qed.

(** Paired items need no repair, in any build. *)
Lemma paired_stable items : paired items →
  ensure_call_outputs_present items = Ok items ∧ remove_orphan_outputs items = Ok items.
Proof.
  intros [Hcalls Houts]. split.
  - unfold ensure_call_outputs_present. enough (∀ rest n, (∀ i, i ∈ rest → i ∈ items) → missing_outputs items n rest = Ok []) as Hm by (by rewrite Hm).
    induction rest as [|i rest IH]; intros n Hr; [done|]. cbn [missing_outputs].
    rewrite missing_output_done by (intros k Ek; apply Hcalls; exists i; split; [apply Hr; by constructor|done]).
    cbn. rewrite IH; [done|]. intros j Hj. apply Hr. by constructor.
  - unfold remove_orphan_outputs. enough (∀ rest, (∀ i, i ∈ rest → i ∈ items) → retain_res (retain_output items) rest = Ok rest) as Hm by (by apply Hm).
    induction rest as [|i rest IH]; intros Hr; [done|]. cbn [retain_res].
    rewrite retain_output_done by (intros k; apply Houts, Hr; by constructor). cbn. rewrite IH; [done|]. intros j Hj. apply Hr. by constructor.
Qed.

(** ** Images *)

Lemma strip_keys i : call_key (strip_item_images i) = call_key i ∧ output_key (strip_item_images i) = output_key i ∧
  by_server (strip_item_images i) = by_server i ∧ is_tool_output (strip_item_images i) = is_tool_output i.
Proof. by destruct i. Qed.

Lemma strip_output_idemp o :
  map_output_items (replace_output_image IMAGE_CONTENT_OMITTED_PLACEHOLDER) (map_output_items (replace_output_image IMAGE_CONTENT_OMITTED_PLACEHOLDER) o) =
  map_output_items (replace_output_image IMAGE_CONTENT_OMITTED_PLACEHOLDER) o.
Proof.
  destruct o as [[t|l] b]; [done|]. unfold map_output_items. cbn. f_equal. f_equal. rewrite map_map. apply map_ext. by intros [].
Qed.

Lemma strip_idemp i : strip_item_images (strip_item_images i) = strip_item_images i.
Proof.
  destruct i; cbn; rewrite ?strip_output_idemp; try done. f_equal. rewrite map_map. apply map_ext. by intros [].
Qed.

Lemma strip_no_images i : item_images (strip_item_images i) = [].
Proof.
  assert (∀ o, output_images (map_output_items (replace_output_image IMAGE_CONTENT_OMITTED_PLACEHOLDER) o) = []) as Ho.
  { intros [[t|l] b]; [done|]. cbn. induction l as [|[] l IH]; cbn; try done. }
  destruct i as [? ? content ?| | | | | | | | | | | | | | |]; cbn; try done. induction content as [|[] l IH]; cbn; try done.
Qed.

Lemma paired_strip items : paired items → paired (map strip_item_images items).
Proof.
  assert (∀ x, x ∈ map strip_item_images items ↔ ∃ i, x = strip_item_images i ∧ i ∈ items) as Hin by (intros; apply list_elem_of_fmap).
  intros [Hc Ho]. split.
  - intros k (c & Hcm & E). apply Hin in Hcm as (i & -> & Hi). rewrite (proj1 (strip_keys i)) in E.
    destruct (Hc k) as (o & Hom & Eo); [by exists i|]. exists (strip_item_images o). rewrite (proj1 (proj2 (strip_keys o))).
    split; [apply Hin; by exists o|done].
  - intros o k Hom Ek Hs. apply Hin in Hom as (i & -> & Hi). destruct (strip_keys i) as (_ & E2 & E3 & _). rewrite E2 in Ek. rewrite E3 in Hs.
    destruct (Ho i k Hi Ek Hs) as (c & Hcm & Ec). exists (strip_item_images c). rewrite (proj1 (strip_keys c)). split; [apply Hin; by exists c|done].
Qed.
End repairs.

(** ** The prompt *)

Section prompt.
Context `{HistoryHost} {T : Type}.
Implicit Types h : ContextManager T.

Definition prompt_view (modalities : list InputModality) (items : list ResponseItem) : list ResponseItem :=
  strip_images_when_unsupported modalities (List.filter (λ i, negb (is_tool_output i)) items).

Lemma filter_strip items :
  List.filter (λ i, negb (is_tool_output i)) (map strip_item_images items) = map strip_item_images (List.filter (λ i, negb (is_tool_output i)) items).
Proof.
  induction items as [|i items IH]; [done|]. cbn. destruct (strip_keys i) as (_ & _ & _ & ->). destruct (negb (is_tool_output i)); cbn; by rewrite IH.
Qed.

Lemma paired_prompt modalities items h : paired items → (contains_elem modalities ImageModality = false → map strip_item_images items = items) →
  for_prompt modalities (set_items items h) = Ok items.
Proof.
  intros [E1 E2]%paired_stable Hs. unfold for_prompt, normalize_history. cbn [cm_items set_items]. rewrite E1. cbn. rewrite E2. cbn.
  unfold strip_images_when_unsupported. destruct (contains_elem modalities ImageModality); [done|]. by rewrite Hs.
Qed.

Lemma for_prompt_inv modalities h out : for_prompt modalities h = Ok out → ∃ o1 o2,
  ensure_call_outputs_present (cm_items h) = Ok o1 ∧ remove_orphan_outputs o1 = Ok o2 ∧ out = strip_images_when_unsupported modalities o2.
Proof.
  unfold for_prompt, normalize_history. destruct (ensure_call_outputs_present (cm_items h)) as [o1| |] eqn:E1; [|done..]. cbn.
  destruct (remove_orphan_outputs o1) as [o2| |] eqn:E2; [|done..]. cbn. intros [= <-]. by exists o1, o2.
Qed.

Lemma ensure_total items : debug_assertions = false → ∃ out, ensure_call_outputs_present items = Ok out.
Proof.
  intros Hd. unfold ensure_call_outputs_present. enough (∀ rest n, ∃ l, missing_outputs items n rest = Ok l) as He.
  { destruct (He items 0%nat) as [l ->]. by eexists. }
  induction rest as [|i rest IH]; intros n; [by exists []|]. cbn [missing_outputs]. destruct (IH (S n)) as [l ->].
  assert (∃ m, missing_output items i = Ok m) as [m ->]; [|by eexists].
  unfold missing_output, error_or_panic. rewrite Hd. destruct i as [| | |? [?|] ? ?| |? [?|] ? ? ?| | | | | | | | | |]; try case_match; by eexists.
Qed.

Lemma orphans_total items : debug_assertions = false → ∃ out, remove_orphan_outputs items = Ok out.
Proof.
  intros Hd. unfold remove_orphan_outputs. enough (∀ rest, ∃ out, retain_res (retain_output items) rest = Ok out) as Hr by apply Hr.
  induction rest as [|i rest [kept IH]]; [by exists []|]. cbn [retain_res].
  rewrite IH. assert (∃ b, retain_output items i = Ok b) as [b ->]; [|by eexists].
  unfold retain_output, report_orphan, error_or_panic. rewrite Hd. destruct i as [| | | | | | | | |[?|] ? ? ?| | | | | |]; repeat case_match; by eexists.
Qed.

(** C27. What the model is sent: every call that has an id has an output with that
    id, and every output that has an id and is not of a search the server ran by
    itself has a call with that id; there are no images if the model takes none,
    everything but outputs is as recorded and in order, no output that has its
    call is dropped, and sending it again changes nothing.  Outside of debug builds there is always an answer. *)
Theorem for_prompt_repairs modalities h :
  (debug_assertions = false → is_ok (for_prompt modalities h) = true) ∧
  ∀ out, for_prompt modalities h = Ok out →
    paired out ∧
    List.filter (λ i, negb (is_tool_output i)) out = prompt_view modalities (cm_items h) ∧
    (∀ i, i ∈ cm_items h → (∀ k, output_key i = Some k → by_server i = false → has_call (cm_items h) k) →
       (if contains_elem modalities ImageModality then i else strip_item_images i) ∈ out) ∧
    (contains_elem modalities ImageModality = false → Forall (λ i, item_images i = []) out) ∧
    for_prompt modalities (set_items out h) = Ok out.
Proof.
  split.
  - intros Hd. unfold for_prompt, normalize_history. destruct (ensure_total (cm_items h) Hd) as [o1 ->]. cbn. by destruct (orphans_total o1 Hd) as [o2 ->].
  - intros out (o1 & o2 & E1 & E2 & ->)%for_prompt_inv.
    destruct (ensure_call_outputs_spec _ _ E1) as (Hc & _ & F1). destruct (remove_orphans_spec _ _ E2 Hc) as [Hp F2].
    unfold prompt_view, strip_images_when_unsupported. destruct (contains_elem modalities ImageModality) eqn:Em.
    + split; [done|]. split; [by rewrite F2|]. split; [intros i; by apply (repairs_keep _ _ _ _ E1 E2)|]. split; [done|]. by apply paired_prompt; [|congruence].
    + split; [by apply paired_strip|]. split; [by rewrite filter_strip, F2, F1|].
      split; [intros i Hi Hk; apply list_elem_of_fmap_2; by apply (repairs_keep _ _ _ _ E1 E2)|].
      split; [intros _; apply Forall_fmap, Forall_true; intros i; apply strip_no_images|].
      apply paired_prompt; [by apply paired_strip|]. intros _. rewrite map_map. apply map_ext. apply strip_idemp.
Qed.

(** ** The oldest item *)

(** No two calls and no two outputs share an id. *)
Definition unique (items : list ResponseItem) : Prop := NoDup (omap call_key items) ∧ NoDup (omap output_key items).

Definition counterpart (x i : ResponseItem) : bool :=
  match call_key x, output_key x with
  | Some k, _ => bool_decide (output_key i = Some k)
  | None, Some k => bool_decide (call_key i = Some k)
  | None, None => false
  end.

Lemma no_key_filter (f : ResponseItem → option CallKey) k items : k ∉ omap f items →
  List.filter (λ i, negb (bool_decide (f i = Some k))) items = items ∧ ∀ i, i ∈ items → f i ≠ Some k.
Proof.
  intros Hk. assert (∀ i, i ∈ items → f i ≠ Some k) as Hi.
  { intros i Hi E. apply Hk. apply list_elem_of_omap. by exists i. }
  split; [|done]. clear Hk. induction items as [|i items IH]; [done|]. cbn. rewrite bool_decide_false by (apply Hi; by constructor). cbn.
  by rewrite IH by (intros; apply Hi; by constructor).
Qed.

Lemma remove_first_key (f : ResponseItem → option CallKey) k p items : (∀ i, p i = bool_decide (f i = Some k)) → NoDup (omap f items) →
  remove_first_matching p items = List.filter (λ i, negb (bool_decide (f i = Some k))) items.
Proof.
  intros Hp. induction items as [|i items IH]; [done|]. cbn. rewrite Hp. intros Hn. case_bool_decide as E; cbn.
  - rewrite E in Hn. apply NoDup_cons in Hn as [Hk _]. by rewrite (proj1 (no_key_filter f k items Hk)).
  - rewrite IH; [done|]. destruct (f i); [by apply NoDup_cons in Hn as [_ ?]|done].
Qed.

Lemma remove_function_call id items : NoDup (omap call_key items) →
  (if existsb (is_function_call id) items then remove_first_matching (is_function_call id) items
   else remove_first_matching (is_local_shell_call id) items) =
  List.filter (λ i, negb (bool_decide (call_key i = Some (FunctionKey id)))) items.
Proof.
  induction items as [|i items IH]; [done|]. intros Hn. cbn. rewrite <- !(function_call_key id i).
  destruct (is_function_call id i || is_local_shell_call id i) eqn:Ei.
  - assert (call_key i = Some (FunctionKey id)) as Ek by (by rewrite function_call_key, bool_decide_eq_true in Ei).
    cbn in Hn. rewrite Ek in Hn. apply NoDup_cons in Hn as [Hk _]. destruct (no_key_filter call_key _ items Hk) as [-> Hno]. cbn.
    assert (existsb (is_function_call id) items = false) as ->.
    { apply not_true_is_false. intros (j & Hj & Ej)%existsb_exists. apply (Hno j); [by apply list_elem_of_In|].
      apply (bool_decide_eq_true_1 _). by rewrite <- function_call_key, Ej. }
    destruct (is_function_call id i); [done|]. cbn in Ei |- *. by rewrite Ei.
  - apply orb_false_iff in Ei as [-> ->]. cbn. rewrite <- IH by (cbn in Hn; destruct (call_key i); [by apply NoDup_cons in Hn as [_ ?]|done]).
    by destruct (existsb (is_function_call id) items).
Qed.

Lemma filter_all_true {A} (f : A → bool) l : (∀ x, f x = true) → List.filter f l = l.
Proof. intros Hf. induction l as [|x l IH]; [done|]. cbn. by rewrite Hf, IH. Qed.

Lemma remove_corresponding_filter items x : unique items →
  remove_corresponding_for items x = List.filter (λ i, negb (counterpart x i)) items.
Proof.
  intros [Hc Ho]. unfold counterpart.
  destruct x as [| | |? [id|] ? ?|? ? ? ? id|? [id|] ? ? ?|id ?|? ? id ? ?|id ? ?|[id|] ? ? ?| | | | | |]; cbn;
    try (by rewrite filter_all_true).
  - apply (remove_first_key output_key); [apply function_output_key|done].
  - apply (remove_first_key output_key); [apply function_output_key|done].
  - apply (remove_first_key output_key); [apply search_output_key|done].
  - by apply remove_function_call.
  - apply (remove_first_key output_key); [apply custom_output_key|done].
  - apply (remove_first_key call_key); [apply custom_call_key|done].
  - apply (remove_first_key call_key); [apply search_call_key|done].
Qed.

Lemma omap_sublist {A B} (f : A → option B) l1 l2 : l1 `sublist_of` l2 → omap f l1 `sublist_of` omap f l2.
Proof. induction 1 as [|x l1 l2 _ IH|x l1 l2 _ IH]; cbn; [done| |]; destruct (f x); by try constructor. Qed.

Lemma filter_sublist {A} (f : A → bool) l : List.filter f l `sublist_of` l.
Proof. induction l as [|x l IH]; cbn; [done|]. destruct (f x); by constructor. Qed.

Lemma unique_sublist l1 l2 : l1 `sublist_of` l2 → unique l2 → unique l1.
Proof. intros Hs [H1 H2]. split; (eapply sublist_NoDup; [|by apply omap_sublist]); done. Qed.

(** When the history is too long its oldest item is dropped together with its
    counterpart, so that calls and outputs stay paired without another repair,
    provided that no id is used twice. *)
Theorem remove_first_keeps_pairs h : paired (cm_items h) → unique (cm_items h) →
  paired (cm_items (remove_first_item h)) ∧ unique (cm_items (remove_first_item h)).
Proof.
  intros Hp Hu. unfold remove_first_item. destruct (cm_items h) as [|x items] eqn:Ei; [by rewrite Ei|]. cbn [cm_items set_items].
  assert (unique items) as Hu' by (eapply unique_sublist; [|done]; by apply sublist_cons).
  rewrite remove_corresponding_filter by done. split; [|eapply unique_sublist; [apply filter_sublist|done]].
  assert (∀ i, i ∈ List.filter (λ i, negb (counterpart x i)) items ↔ i ∈ items ∧ counterpart x i = false) as Hin.
  { intros i. rewrite !list_elem_of_In, filter_In. by rewrite negb_true_iff. }
  assert (∀ f k, (f = call_key ∨ f = output_key) → f x = Some k → ∀ i, i ∈ items → f i ≠ Some k) as Hfresh.
  { intros f k Hf E i Hi Ek. destruct Hu as [Hu1 Hu2]. assert (NoDup (omap f (x :: items))) as Hn by (by destruct Hf as [->| ->]).
    cbn in Hn. rewrite E in Hn. apply NoDup_cons in Hn as [Hn _]. apply Hn, list_elem_of_omap. by exists i. }
  destruct Hp as [Hc Ho]. split.
  - intros k (c & Hcm & Ek). apply Hin in Hcm as [Hcm Hcx]. destruct (Hc k) as (o & Hom & Eo); [exists c; by split; [constructor|]|].
    apply elem_of_cons in Hom as [->|Hom].
    + exfalso. revert Hcx. unfold counterpart. destruct (output_key_not_call x k Eo) as [_ ->]. rewrite Eo. by rewrite bool_decide_true.
    + exists o. split; [|done]. apply Hin. split; [done|]. unfold counterpart. destruct (output_key_not_call o k Eo) as [_ Eoc].
      destruct (call_key x) as [kx|] eqn:Ex; [|destruct (output_key x); [by rewrite Eoc|done]].
      apply bool_decide_eq_false. intros Eq. rewrite Eo in Eq. injection Eq as ->. by apply (Hfresh call_key kx (or_introl eq_refl) Ex c Hcm).
  - intros o k Hom Eo Hs. apply Hin in Hom as [Hom Hox]. destruct (Ho o k) as (c & Hcm & Ek); [by constructor|done|done|].
    apply elem_of_cons in Hcm as [->|Hcm].
    + exfalso. revert Hox. unfold counterpart. rewrite Ek. by rewrite bool_decide_true.
    + exists c. split; [|done]. apply Hin. split; [done|]. unfold counterpart. destruct (call_key_not_output c k Ek) as [_ Ecc].
      destruct (call_key x) as [kx|] eqn:Ex; [by rewrite Ecc|]. destruct (output_key x) as [kx|] eqn:Exo; [|done].
      apply bool_decide_eq_false. intros Eq. rewrite Ek in Eq. injection Eq as ->. by apply (Hfresh output_key kx (or_intror eq_refl) Exo o Hom).
Qed.

(** ** Rollback *)

Definition turns (items : list ResponseItem) : nat := length (List.filter is_user_turn_boundary items).

Lemma turns_app a b : turns (a ++ b) = (turns a + turns b)%nat.
Proof. unfold turns. by rewrite List.filter_app, length_app. Qed.

Lemma turns_cons i l : turns (i :: l) = ((if is_user_turn_boundary i then 1 else 0) + turns l)%nat.
Proof. unfold turns. cbn. by destruct (is_user_turn_boundary i). Qed.

Lemma positions_length n items : length (user_message_positions n items) = turns items.
Proof.
  revert n. induction items as [|i items IH]; intros n; [done|]. rewrite turns_cons. cbn [user_message_positions].
  destruct (is_user_turn_boundary i); cbn [length]; by rewrite IH.
Qed.

Lemma positions_lookup items n j p : user_message_positions n items !! j = Some p →
  ∃ pre b post, items = pre ++ b :: post ∧ p = (n + length pre)%nat ∧ is_user_turn_boundary b = true ∧ turns pre = j.
Proof.
  revert n j. induction items as [|i items IH]; intros n j; cbn [user_message_positions]; [done|].
  destruct (is_user_turn_boundary i) eqn:Ei; [destruct j as [|j]; cbn [lookup list_lookup]|].
  - intros [= <-]. exists [], i, items. cbn. by rewrite Nat.add_0_r.
  - intros (pre & b & post & -> & -> & Hb & <-)%IH. exists (i :: pre), b, post. rewrite turns_cons, Ei. repeat split; [cbn; lia|done].
  - intros (pre & b & post & -> & -> & Hb & <-)%IH. exists (i :: pre), b, post. rewrite turns_cons, Ei. repeat split; [cbn; lia|done].
Qed.

(** Items before the first turn come before every turn. *)
Lemma first_prefix pre b post pre0 b0 post0 : pre ++ b :: post = pre0 ++ b0 :: post0 → is_user_turn_boundary b = true → turns pre0 = 0%nat →
  pre0 `prefix_of` pre.
Proof.
  intros E Hb H0. destruct (app_eq_inv _ _ _ _ E) as [(k & -> & Ek)|(k & -> & Ek)]; [by exists k|].
  destruct k as [|x k]; [exists []; by rewrite !app_nil_r|]. cbn in Ek. injection Ek as -> ->. rewrite turns_app, turns_cons, Hb in H0. lia.
Qed.

(** Context of a turn does not begin a turn. *)
Lemma context_no_boundary i : is_Some (pre_turn_context i) → is_user_turn_boundary i = false.
Proof.
  intros [m E]. destruct i as [? role content ?| | | | | | | | | | | | | | |]; try done. cbn in E |- *.
  destruct (String.eqb_spec role "developer") as [->|]; cbn in E; [done|]. destruct (String.eqb_spec role "user") as [->|]; [|done].
  cbn in *. destruct (is_contextual_user_message_content content); done.
Qed.

Lemma context_turns ctx : Forall (λ i, is_Some (pre_turn_context i)) ctx → turns ctx = 0%nat.
Proof. induction 1 as [|i l Hi _ IH]; [done|]. rewrite turns_cons, context_no_boundary by done. done. Qed.

Definition is_mixed (i : ResponseItem) : bool := match pre_turn_context i with Some mixed => mixed | None => false end.

Definition kept_baseline (ctx : list ResponseItem) (baseline : option T) : option T := if existsb is_mixed ctx then None else baseline.

Lemma trim_spec snapshot first cut baseline cut' baseline' :
  trim_pre_turn_context_updates snapshot first cut baseline = (cut', baseline') → (cut <= length snapshot)%nat → (first <= cut)%nat →
  ∃ ctx, take cut snapshot = take cut' snapshot ++ ctx ∧ (first <= cut' <= cut)%nat ∧
    Forall (λ i, is_Some (pre_turn_context i)) ctx ∧ baseline' = kept_baseline ctx baseline ∧
    (cut' = first ∨ ∀ i, last (take cut' snapshot) = Some i → pre_turn_context i = None).
Proof.
  revert baseline. induction cut as [|cut IH]; intros baseline E Hl Hf; cbn [trim_pre_turn_context_updates] in E.
  - injection E as <- <-. exists []. rewrite app_nil_r. split_and!; [done|lia|lia|constructor|done|left; lia].
  - destruct (Nat.ltb_spec first (S cut)) as [Hlt|].
    2: { injection E as <- <-. exists []. rewrite app_nil_r. split_and!; [done|lia|lia|constructor|done|left; lia]. }
    destruct (lookup_lt_is_Some_2 snapshot cut) as [i Ei]; [lia|]. rewrite Ei in E. cbn [mbind option_bind] in E.
    destruct (pre_turn_context i) as [mixed|] eqn:Ep.
    2: { injection E as <- <-. exists []. rewrite app_nil_r. split_and!; [done|lia|lia|constructor|done|right]. intros i'.
         rewrite (take_S_r _ _ i) by done. rewrite last_snoc. by intros [= <-]. }
    destruct (IH _ E) as (ctx & Et & Hr & Hctx & -> & Hend); [lia|lia|]. exists (ctx ++ [i]).
    rewrite (take_S_r _ _ i) by done. rewrite Et, app_assoc. split_and!; [done|lia|lia|apply Forall_app; split; [done|]; by repeat constructor| |done].
    assert (is_mixed i = mixed) as Em by (unfold is_mixed; by rewrite Ep). unfold kept_baseline. rewrite existsb_app. cbn [existsb]. rewrite Em, orb_false_r.
    by destruct (existsb is_mixed ctx), mixed.
Qed.

(** C28. A rollback drops exactly the last turns, with all the context messages
    right before the first of them: unless no turn is left, what remains does not
    end in such a message.  What came before the first turn stays, and the
    baseline is forgotten exactly when a dropped context message had text of its
    own. *)
Theorem rollback_spec n h : (n ≠ 0)%N →
  let h' := drop_last_n_user_turns n h in
  history_version h' = sat_add (history_version h) 1 ∧ cm_token_info h' = cm_token_info h ∧
  turns (cm_items h') = (turns (cm_items h) - N.to_nat n)%nat ∧
  (∀ pre b post, cm_items h = pre ++ b :: post → turns pre = 0%nat → pre `prefix_of` cm_items h') ∧
  ∃ ctx dropped, cm_items h = cm_items h' ++ ctx ++ dropped ∧
    Forall (λ i, is_Some (pre_turn_context i)) ctx ∧
    reference_context_item h' = kept_baseline ctx (reference_context_item h) ∧
    match dropped with [] => ctx = [] | b :: _ => is_user_turn_boundary b = true end ∧
    if (turns (cm_items h') =? 0)%nat then ctx = [] else ∀ i, last (cm_items h') = Some i → pre_turn_context i = None.
Proof.
  intros Hn. cbn zeta. unfold drop_last_n_user_turns. destruct (N.eqb_spec n 0); [done|].
  pose proof (positions_length 0 (cm_items h)) as Hlen. pose proof (positions_lookup (cm_items h) 0) as Hpos.
  destruct (user_message_positions 0 (cm_items h)) as [|first ps] eqn:Ep.
  { split; [done|]. split; [done|]. cbn [length cm_items replace_items] in *. split; [lia|]. split; [intros pre b post -> _; by eexists|].
    exists [], []. rewrite !app_nil_r. split_and!; [done|constructor|done|done|]. cbn [length] in Hlen. by rewrite <- Hlen. }
  set (j := (length (first :: ps) - N.to_nat n)%nat).
  set (cut := if (length (first :: ps) <=? N.to_nat n)%nat then first else nth j (first :: ps) 0%nat).
  assert ((first :: ps) !! j = Some cut) as Hcut.
  { subst j cut. destruct (Nat.leb_spec (length (first :: ps)) (N.to_nat n)).
    - by replace (length (first :: ps) - N.to_nat n)%nat with 0%nat by lia.
    - destruct (nth_lookup_or_length (first :: ps) (length (first :: ps) - N.to_nat n) 0%nat) as [E|]; [done|]. cbn in *. lia. }
  clearbody cut. destruct (Hpos j cut Hcut) as (pre & b & post & Ei & Ecut & Hb & Hj). destruct (Hpos 0%nat first eq_refl) as (pre0 & b0 & post0 & Ei0 & Ef & Hb0 & H0).
  cbn in Ecut, Ef. assert (pre0 `prefix_of` pre) as Hpre by (eapply first_prefix; [by rewrite <- Ei, Ei0|done|done]).
  pose proof (prefix_length _ _ Hpre) as Hle. destruct (trim_pre_turn_context_updates _ _ _ _) as [cut' baseline'] eqn:Et.
  destruct (trim_spec _ _ _ _ _ _ Et) as (ctx & Htake & Hr & Hctx & -> & Hend); [rewrite Ei, length_app; lia|lia|].
  rewrite Ecut, Ei, take_app_length in Htake. rewrite <- Ei in Htake.
  cbn [history_version cm_token_info cm_items reference_context_item replace_items set_reference_context_item]. split; [done|]. split; [done|].
  split; [|split].
  - assert (turns pre = turns (take cut' (cm_items h)) + turns ctx)%nat as Hsum by (rewrite Htake at 1; apply turns_app).
    rewrite (context_turns ctx Hctx) in Hsum. rewrite <- Hlen. subst j. lia.
  - intros pre1 b1 post1 Ei1 H1. assert (pre1 `prefix_of` pre0) as [k ->] by (eapply first_prefix; [by rewrite <- Ei0, Ei1|done|done]).
    assert (pre1 ++ k = take first (cm_items h)) as Ek by (by rewrite Ei0, Ef, take_app_length).
    assert (take first (take cut' (cm_items h)) = take first (cm_items h)) as Et' by (rewrite take_take; f_equal; lia).
    rewrite <- (take_drop first (take cut' (cm_items h))), Et', <- Ek. rewrite <- app_assoc. by eexists.
  - exists ctx, (b :: post). split; [by rewrite app_assoc, <- Htake|]. split; [done|]. split; [done|]. split; [done|].
    assert (turns (take cut' (cm_items h)) = turns pre) as Hturns by (rewrite Htake, turns_app, (context_turns ctx Hctx); lia).
    destruct (Nat.eqb_spec (turns (take cut' (cm_items h))) 0) as [Hz|Hz].
    + assert (pre `prefix_of` pre0) as Hpre' by (eapply first_prefix; [by rewrite <- Ei0, Ei|done|by rewrite <- Hturns]).
      apply prefix_length in Hpre'. apply (f_equal length) in Htake. rewrite length_app, length_take in Htake.
      destruct ctx as [|x ctx]; [done|]. assert (length pre <= length (cm_items h))%nat by (rewrite Ei, length_app; lia). cbn in Htake. lia.
    + destruct Hend as [->|Hend]; [|done]. destruct Hz. by rewrite Ef, Ei0, take_app_length.
Qed.
End prompt.

(** ** A conversation *)

#[local] Instance demo_host : HistoryHost := {|
  item_json_len _ := Some 40%N;
  is_communication_json _ := false;
  hook_prompt_xml _ := None;
  decode_image _ := None;
  debug_assertions := false
|}.

Definition user_says (text : string) : ResponseItem := Message None "user" [InputText text] None.

Definition demo_call (id : string) : ResponseItem := FunctionCall None "shell" None "{}" id.

Definition demo_output (id : string) : ResponseItem := FunctionCallOutput id (payload_from_text "done").

Definition demo_history : ContextManager unit :=
  mkHistory
    [user_says "<environment_context>cwd</environment_context>"; user_says "first"; demo_call "a"; demo_output "a";
     Message None "developer" [InputText "<model_switch>other"; InputText "more"] None; user_says "second"; demo_call "b"]
    0 None (Some ()).

(** The second call gets an output, and the history is sent with it. *)
Lemma for_prompt_repairs_witness :
  ∃ out, for_prompt [TextModality] demo_history = Ok out ∧ last out = Some (FunctionCallOutput "b" (payload_from_text "aborted")) ∧ paired out.
Proof.
  destruct (for_prompt_repairs [TextModality] demo_history) as [Hok H].
  eexists. split; [vm_compute; reflexivity|]. split; [vm_compute; reflexivity|]. apply H. vm_compute. reflexivity.
Defined.

Lemma rollback_spec_witness :
  let h' := drop_last_n_user_turns 1 demo_history in
  cm_items h' = take 4 (cm_items demo_history) ∧ reference_context_item h' = None ∧ turns (cm_items h') = 1%nat.
Proof.
  split; [vm_compute; reflexivity|]. split; [vm_compute; reflexivity|].
  destruct (rollback_spec 1 demo_history) as (_ & _ & H & _); [discriminate|]. rewrite H. vm_compute. reflexivity.
Defined.

Definition paired_history : ContextManager unit := mkHistory [demo_call "a"; user_says "x"; demo_output "a"; demo_call "b"; demo_output "b"] 0 None None.

Lemma demo_paired : paired (cm_items paired_history) ∧ unique (cm_items paired_history).
Proof.
  split.
  - split.
    + intros k (c & Hc & E). repeat (apply elem_of_cons in Hc as [->|Hc]); simplify_eq/=;
        [exists (demo_output "a")|exists (demo_output "b")|by apply not_elem_of_nil in Hc]; (split; [|done]); set_solver.
    + intros o k Ho E _. repeat (apply elem_of_cons in Ho as [->|Ho]); simplify_eq/=;
        [exists (demo_call "a")|exists (demo_call "b")|by apply not_elem_of_nil in Ho]; (split; [|done]); set_solver.
  - split; apply (bool_decide_unpack _); vm_compute; exact I.
Qed.

Lemma remove_first_keeps_pairs_witness :
  paired (cm_items (remove_first_item paired_history)) ∧
  cm_items (remove_first_item paired_history) = [user_says "x"; demo_call "b"; demo_output "b"].
Proof.
  split; [|vm_compute; reflexivity].
  exact (proj1 (remove_first_keeps_pairs paired_history (proj1 demo_paired) (proj2 demo_paired))).
Defined.

(** With an id used twice an output is left without its call. *)
Example shared_id_unpaired :
  cm_items (remove_first_item (mkHistory (T := unit) [demo_call "a"; demo_output "a"; demo_output "a"] 0 None None)) = [demo_output "a"].
Proof. vm_compute. reflexivity. Qed.
