(* ===== verification/AbsPath.v ===== *)
(** * Absolute paths (utils/absolute-path: lib.rs, absolutize.rs)

    How a path of a patch becomes an absolute one, on Unix.  A path is its
    text; the home directory is a parameter. *)

From S2P Require Import Prelude RustStr Os.

(** ** absolutize.rs *)

Definition path_with_base (path base_path : string) : string :=
  if has_root path then path else path_join base_path path.

(** One round of the loop: [..] pops, names and the root are pushed. *)
Definition normalize_component (normalized component : string) : string :=
  if component == "." then normalized
  else if component == ".." then default normalized (path_parent normalized)
  else path_join normalized component.

Definition normalize_path (path : string) : string :=
  let normalized := fold_left normalize_component (components path) "" in
  if str_is_empty normalized then "." else normalized.

Definition absolutize_from (path base_path : string) : string :=
  normalize_path (path_with_base path base_path).

(** The working directory may be unreadable. *)
Definition absolutize (current_dir : io string) (path : string) : io string :=
  if has_root path then IoOk (normalize_path path)
  else match current_dir with
       | IoOk dir => IoOk (absolutize_from path dir)
       | IoErr e => IoErr e
       end.

(** ** lib.rs *)

(** [str::trim_start_matches('/')]. *)
Fixpoint trim_slashes (s : string) : string :=
  match s with
  | String a s' => if Ascii.eqb a slash then trim_slashes s' else s
  | EmptyString => s
  end.

Definition maybe_expand_home_directory (home_dir : option string) (path : string) : string :=
  match home_dir, strip_prefix "~" path with
  | Some home, Some rest =>
      if str_is_empty rest then home
      else match strip_prefix "/" rest with
           | Some rest => path_join home (trim_slashes rest)
           | None => path
           end
  | _, _ => path
  end.

(** [cfg!(windows)] is false. *)
Definition normalize_path_for_platform (path : string) : string := path.

Definition resolve_path_against_base (home_dir : option string) (path base_path : string) : string :=
  let expanded := maybe_expand_home_directory home_dir path in
  let expanded := normalize_path_for_platform expanded in
  let base_path := normalize_path_for_platform base_path in
  absolutize_from expanded base_path.

Definition from_absolute_path (home_dir : option string) (current_dir : io string) (path : string) : io string :=
  let expanded := maybe_expand_home_directory home_dir path in
  absolutize current_dir (normalize_path_for_platform expanded).

Definition from_absolute_path_checked (home_dir : option string) (path : string) : io string :=
  let expanded := maybe_expand_home_directory home_dir path in
  let expanded := normalize_path_for_platform expanded in
  if negb (has_root expanded) then IoErr ("path is not absolute: " +:+ path)
  else IoOk (absolutize_from expanded "/").

(** [AbsolutePathBuf::join]. *)
Definition abs_join (home_dir : option string) (self path : string) : string :=
  resolve_path_against_base home_dir path self.

(** The home and the working directory of the process. *)
Class HostDirs := { home_dir : option string; current_dir : io string }.

(** [AbsolutePathBuf::try_from]. *)
Definition try_absolute `{HostDirs} (path : string) : io string :=
  from_absolute_path home_dir current_dir path.

(** Paths are equal when their components are. *)
Definition path_eqb (a b : string) : bool := bool_decide (components a = components b).

(** The device prefixes of Windows paths. *)
Definition is_ascii_alphabetic (a : ascii) : bool := in_range 65 90 a || in_range 97 122 a.

Definition is_windows_drive_absolute_path (path : string) : bool :=
  match path with
  | String d (String c (String s _)) =>
      is_ascii_alphabetic d && Ascii.eqb c ":"%char && (Ascii.eqb s "\"%char || Ascii.eqb s "/"%char)
  | _ => false
  end.

Definition normalize_windows_device_path (path : string) : option string :=
  match strip_prefix "\\?\UNC\" path with
  | Some unc => Some ("\\" +:+ unc)
  | None =>
      match strip_prefix "\\.\UNC\" path with
      | Some unc => Some ("\\" +:+ unc)
      | None =>
          match strip_prefix "\\?\" path with
          | Some p =>
              if is_windows_drive_absolute_path p then Some p
              else match strip_prefix "\\.\" path with
                   | Some p => if is_windows_drive_absolute_path p then Some p else None
                   | None => None
                   end
          | None =>
              match strip_prefix "\\.\" path with
              | Some p => if is_windows_drive_absolute_path p then Some p else None
              | None => None
              end
          end
      end
  end.

(** ** The normal form *)

(** A name: what lies between two slashes, neither empty nor [.]. *)
Definition is_name (c : string) : bool :=
  negb (no_component c) && str_forall (λ a, negb (Ascii.eqb a slash)) c.

Definition abs_text (names : list string) : string := "/" +:+ join "/" names.

(** Absolute, without [.], [..], empty components or a slash at the end. *)
Definition normal (path : string) : Prop :=
  ∃ names, path = abs_text names ∧ Forall (λ c, is_name c = true ∧ c ≠ "..") names.

Lemma split_slash_char s : split_slash s = split_char slash s.
Proof.
  induction s as [|a s IH]; [done|]. cbn. rewrite IH. destruct (Ascii.eqb a slash); [done|].
  by destruct (split_char slash s).
Qed.

Lemma split_names names :
  names ≠ [] → Forall (λ c, is_name c = true) names → split_slash (join "/" names) = names.
Proof.
  intros Hne Hall. rewrite split_slash_char. induction Hall as [|c names Hc Hall IH]; [done|].
  apply andb_true_iff in Hc as [_ Hc]. destruct names as [|d names].
  - by apply split_char_absent.
  - change (join "/" (c :: d :: names)) with (c +:+ String slash (join "/" (d :: names))).
    rewrite split_char_app by done. by rewrite IH.
Qed.

Lemma abs_body names :
  Forall (λ c, is_name c = true) names →
  path_body (abs_text names) = ("/", match names with [] => [""] | _ :: _ => names end).
Proof.
  intros Hall. unfold path_body, abs_text, has_root. rewrite starts_with_app.
  change (str_drop 1 ("/" +:+ join "/" names)) with (str_drop (String.length "/") ("/" +:+ join "/" names)).
  rewrite str_drop_app. destruct names as [|c names]; [done|]. by rewrite split_names.
Qed.

Lemma drop_no_component_names names :
  Forall (λ c, is_name c = true) names → drop_no_component names = names.
Proof.
  destruct 1 as [|c names Hc _]; [done|]. cbn. apply andb_true_iff in Hc as [Hc _].
  apply negb_true_iff in Hc. by rewrite Hc.
Qed.

Lemma parent_abs names c :
  Forall (λ c, is_name c = true) (names ++ [c]) → path_parent (abs_text (names ++ [c])) = Some (abs_text names).
Proof.
  intros Hall. unfold path_parent. rewrite abs_body by done.
  assert (match names ++ [c] with [] => [""] | _ :: _ => names ++ [c] end = names ++ [c]) as -> by (by destruct names).
  apply Forall_app in Hall as [Hn Hc]. rewrite rev_app_distr. cbn [rev app].
  apply Forall_cons in Hc as [Hc _]. cbn [drop_no_component].
  apply andb_true_iff in Hc as [Hc _]. apply negb_true_iff in Hc. rewrite Hc.
  rewrite drop_no_component_names, rev_involutive; [done|]. by apply List.Forall_rev.
Qed.

Lemma is_name_first c : is_name c = true → ∃ a t, c = String a t ∧ Ascii.eqb a slash = false.
Proof.
  unfold is_name. rewrite andb_true_iff. destruct c as [|a t]; [by intros [H _]; discriminate H|].
  cbn [str_forall]. rewrite andb_true_iff, !negb_true_iff. intros (_ & Ha & _). by exists a, t.
Qed.

Lemma name_not_rooted c : is_name c = true → has_root c = false.
Proof.
  intros (a & t & -> & Ha)%is_name_first. unfold has_root. destruct (starts_with _ _) eqn:E; [|done].
  apply starts_with_spec in E as [u E]. injection E as E _. rewrite E in Ha. discriminate Ha.
Qed.

(** The last byte of a text that ends in a name. *)
Lemma str_get_last s a : String.get (String.length (s +:+ String a "") - 1) (s +:+ String a "") = Some a.
Proof.
  rewrite str_length_app, Nat.add_sub. induction s as [|b s IH]; [done|]. exact IH.
Qed.

Lemma name_snoc c : is_name c = true → ∃ t a, c = t +:+ String a "" ∧ Ascii.eqb a slash = false.
Proof.
  intros Hc. unfold is_name in Hc. apply andb_true_iff in Hc as [Hne Hs].
  destruct c as [|b c]; [discriminate Hne|]. clear Hne. revert b Hs. induction c as [|a c IH]; intros b Hs.
  - cbn in Hs. rewrite andb_true_r, negb_true_iff in Hs. by exists "", b.
  - cbn [str_forall] in Hs. apply andb_true_iff in Hs as [_ Hs].
    destruct (IH a Hs) as (t & x & -> & Hx). by exists (String b t), x.
Qed.

Lemma join_snoc sep l x : l ≠ [] → join sep (l ++ [x]) = join sep l +:+ sep +:+ x.
Proof.
  induction l as [|y l IH]; [done|]. intros _. destruct l as [|z l]; [done|].
  change (y +:+ sep +:+ join sep ((z :: l) ++ [x]) = (y +:+ sep +:+ join sep (z :: l)) +:+ sep +:+ x).
  rewrite IH by done. by rewrite !str_app_assoc.
Qed.

Lemma join_abs names c :
  Forall (λ c, is_name c = true) names → is_name c = true →
  path_join (abs_text names) c = abs_text (names ++ [c]).
Proof.
  intros Hall Hc. unfold path_join. rewrite name_not_rooted by done.
  change (str_is_empty (abs_text names)) with false. cbv iota.
  destruct names as [|d names _] using rev_ind; [done|].
  apply Forall_app in Hall as [_ Hd]. apply Forall_cons in Hd as [Hd _].
  assert (∃ s, abs_text (names ++ [d]) = s +:+ d) as [s E].
  { unfold abs_text. destruct names as [|x names]; [by exists "/"|].
    rewrite join_snoc by done. eexists. by rewrite <- !str_app_assoc. }
  assert (Ascii.eqb (default slash (String.get (String.length (abs_text (names ++ [d])) - 1)
    (abs_text (names ++ [d])))) slash = false) as ->.
  { destruct (name_snoc d Hd) as (t & a & -> & Ha). by rewrite E, <- str_app_assoc, str_get_last. }
  unfold abs_text. rewrite (join_snoc "/" (names ++ [d])) by (by destruct names). by rewrite str_app_assoc.
Qed.

(** The loop over components computes what [resolve_dots] does on names. *)
Lemma normalize_loop comps acc :
  Forall (λ c, is_name c = true) comps → Forall (λ c, is_name c = true ∧ c ≠ "..") acc →
  fold_left normalize_component comps (abs_text (rev acc)) = abs_text (resolve_dots acc comps) ∧
  Forall (λ c, is_name c = true ∧ c ≠ "..") (resolve_dots acc comps).
Proof.
  intros Hcs. revert acc. induction Hcs as [|c cs Hc Hcs IH]; intros acc Hacc; cbn [fold_left resolve_dots].
  { split; [done|]. by apply List.Forall_rev. }
  assert (Forall (λ c, is_name c = true) (rev acc)) as Hrev.
  { apply List.Forall_rev. by eapply Forall_impl; [exact Hacc|]; intros x [??]. }
  unfold normalize_component at 2.
  destruct (String.eqb_spec c ".") as [->|_]; [done|].
  destruct (String.eqb_spec c "/") as [->|_]; [done|].
  destruct (String.eqb_spec c "..") as [->|Hne].
  - destruct acc as [|d acc]; [by apply IH|]. cbn [rev tail] in *. rewrite parent_abs by done.
    apply IH. by apply Forall_cons in Hacc as [_ ?].
  - rewrite join_abs by done. change (rev acc ++ [c]) with (rev (c :: acc)). apply IH. by constructor.
Qed.

Lemma piece_names l :
  Forall (λ x, str_forall (λ a, negb (Ascii.eqb a slash)) x = true) l →
  Forall (λ c, is_name c = true) (List.filter (λ p, negb (no_component p)) l).
Proof.
  induction 1 as [|x l Hx _ IH]; cbn; [constructor|]. destruct (negb (no_component x)) eqn:E; [|done].
  constructor; [|done]. unfold is_name. by rewrite E, Hx.
Qed.

(** The components of an absolute path are the root and names. *)
Lemma components_abs path :
  has_root path = true →
  ∃ names, components path = "/" :: names ∧ Forall (λ c, is_name c = true) names.
Proof.
  intros Hr. unfold components, path_body. rewrite Hr. eexists. split; [reflexivity|].
  apply piece_names. rewrite split_slash_char. apply split_char_pieces.
Qed.

Lemma normalize_abs path :
  has_root path = true →
  normalize_path path = resolve_text path ∧ normal (normalize_path path).
Proof.
  intros Hr. unfold normalize_path, resolve_text.
  destruct (components_abs path Hr) as (names & -> & Hn). cbn [fold_left].
  change (normalize_component "" "/") with (abs_text (rev [])).
  destruct (normalize_loop names [] Hn (List.Forall_nil _)) as [-> Hnorm].
  change (str_is_empty (abs_text _)) with false. cbv iota. split; [done|].
  by exists (resolve_dots [] names).
Qed.

Lemma join_rooted base path : has_root base = true → has_root (path_join base path) = true.
Proof.
  unfold path_join. destruct (has_root path) eqn:E; [done|]. unfold has_root.
  intros (t & ->)%starts_with_spec. change (str_is_empty ("/" +:+ t)) with false. cbv iota.
  destruct (Ascii.eqb _ _); rewrite !str_app_assoc; apply starts_with_app.
Qed.

Lemma resolve_dots_names acc names :
  Forall (λ c, is_name c = true ∧ c ≠ "..") names → resolve_dots acc names = rev acc ++ names.
Proof.
  intros Hn. revert acc. induction Hn as [|c names [Hc Hne] _ IH]; intros acc; cbn [resolve_dots].
  { by rewrite app_nil_r. }
  destruct (String.eqb_spec c "/") as [->|_]; [done|].
  destruct (String.eqb_spec c "..") as [|_]; [done|]. rewrite IH. cbn. by rewrite <- app_assoc.
Qed.

Lemma components_abs_text names :
  Forall (λ c, is_name c = true) names → components (abs_text names) = "/" :: names.
Proof.
  intros Hn. unfold components. rewrite abs_body by done. change (str_is_empty "/") with false. cbn [app]. f_equal.
  destruct names as [|c names]; [done|]. induction Hn as [|x l Hx _ IH]; cbn; [done|].
  apply andb_true_iff in Hx as [-> _]. by rewrite IH.
Qed.

(** A normal path is its own normal form. *)
Lemma normalize_normal path : normal path → normalize_path path = path.
Proof.
  intros (names & -> & Hnames).
  assert (Forall (λ c, is_name c = true) names) as Hn.
  { eapply Forall_impl; [exact Hnames|]. by intros x [??]. }
  destruct (normalize_abs (abs_text names)) as [-> _]; [apply (starts_with_app "/")|].
  unfold resolve_text. rewrite components_abs_text by done. change (resolve_dots [] ("/" :: names)) with (resolve_dots [] names).
  by rewrite resolve_dots_names.
Qed.

Lemma resolve_is_normal home path base :
  has_root base = true → normal (resolve_path_against_base home path base).
Proof.
  intros Hb. unfold resolve_path_against_base, absolutize_from. apply normalize_abs.
  unfold path_with_base, normalize_path_for_platform.
  destruct (has_root (maybe_expand_home_directory home path)) eqn:E; [done|]. by apply join_rooted.
Qed.

(** Whatever path a patch names and wherever the home directory is, the path
    resolved against an absolute directory is absolute and normal: no [.] or
    [..] is left in it, so comparing such paths component by component is
    sound; and resolving it again changes nothing. *)
Theorem resolve_normal home path base :
  has_root base = true →
  let resolved := resolve_path_against_base home path base in
  normal resolved ∧ normalize_path resolved = resolved.
Proof.
  intros Hb. cbn zeta. pose proof (resolve_is_normal home path base Hb) as Hn.
  split; [done|by apply normalize_normal].
Qed.

Lemma resolve_normal_witness :
  has_root "/work/repo" = true ∧
  (let resolved := resolve_path_against_base (Some "/home/u") "src/../../x/./y" "/work/repo" in
   normal resolved ∧ normalize_path resolved = resolved) ∧
  resolve_path_against_base (Some "/home/u") "src/../../x/./y" "/work/repo" = "/work/x/y" ∧
  resolve_path_against_base (Some "/home/u") "~//notes" "/work/repo" = "/home/u/notes".
Proof. split; [reflexivity|]. split; [by apply resolve_normal|]. by vm_compute. Defined.
