(* ===== verification/NetPolicy.v ===== *)
(** * Hosts, domain patterns and settings of the network proxy
      (codex-rs/network-proxy: policy.rs, config.rs)

    The proxy in front of sandboxed commands decides by host.  This file has
    addresses as the standard library reads them, the normalisation of hosts,
    domain patterns and their globs, and the settings. *)

From S2P Require Import Prelude RustStr Json Lifecycle Os AbsPath.

(** ** Addresses *)

Record Ipv4Addr := mkIpv4 { ip_a : N; ip_b : N; ip_c : N; ip_d : N }.

(** Eight 16-bit groups. *)
Record Ipv6Addr := mkIpv6 { segments : list N }.

Inductive IpAddr := V4 (ip : Ipv4Addr) | V6 (ip : Ipv6Addr).

Record SocketAddr := mkSocketAddr { sa_ip : IpAddr; sa_port : N }.

#[export] Instance ipv4_eq_dec : EqDecision Ipv4Addr.
Proof. solve_decision. Defined.
#[export] Instance ipv6_eq_dec : EqDecision Ipv6Addr.
Proof. solve_decision. Defined.
#[export] Instance ip_eq_dec : EqDecision IpAddr.
Proof. solve_decision. Defined.

(** The parser of the standard library.  A reader takes the text and gives a
    value with the rest of the text; when it fails nothing is taken. *)
Definition Reader (A : Type) : Type := string → option (A * string).

Definition to_digit (radix : N) (a : ascii) : option N :=
  let d := if is_ascii_digit a then Some (byte a - 48)%N
           else if in_range 97 122 a then Some (byte a - 87)%N
           else if in_range 65 90 a then Some (byte a - 55)%N
           else None in
  d ← d; if (d <? radix)%N then Some d else None.

Fixpoint read_digits (radix : N) (max_digits count : nat) (result : N) (s : string) : option (N * nat * string) :=
  match s with
  | String a s' =>
      match to_digit radix a with
      | Some digit =>
          if (max_digits <? S count)%nat then None
          else read_digits radix max_digits (S count) (result * radix + digit) s'
      | None => Some (result, count, s)
      end
  | EmptyString => Some (result, count, s)
  end.

Definition read_number (radix : N) (max_digits : nat) (allow_zero_prefix : bool) (max : N) : Reader N := λ s,
  match read_digits radix max_digits 0 0 s with
  | Some (result, digit_count, rest) =>
      if (digit_count =? 0)%nat then None
      else if negb allow_zero_prefix && starts_with s "0" && (1 <? digit_count)%nat then None
      else if (result <=? max)%N then Some (result, rest) else None
  | None => None
  end.

Definition read_given_char (c : ascii) : Reader () := λ s,
  match s with String a s' => if Ascii.eqb a c then Some ((), s') else None | EmptyString => None end.

(** A separator in front of all but the first item. *)
Definition read_separator {A} (sep : ascii) (index : nat) (inner : Reader A) : Reader A := λ s,
  match index with
  | O => inner s
  | S _ => '(_, s) ← read_given_char sep s; inner s
  end.

Definition read_octet (index : nat) : Reader N := read_separator "."%char index (read_number 10 3 false 255).

Definition read_ipv4_addr : Reader Ipv4Addr := λ s,
  '(a, s) ← read_octet 0 s;
  '(b, s) ← read_octet 1 s;
  '(c, s) ← read_octet 2 s;
  '(d, s) ← read_octet 3 s;
  Some (mkIpv4 a b c d, s).

(** [u16::from_be_bytes]. *)
Definition be16 (hi lo : N) : N := (hi * 256 + lo)%N.

(** [left] groups may still be read, of which the next has the given index. *)
Fixpoint read_groups (left index : nat) (s : string) : list N * bool * string :=
  match left with
  | O => ([], false, s)
  | S left' =>
      let ipv4 := if (0 <? left')%nat then read_separator ":"%char index read_ipv4_addr s else None in
      match ipv4 with
      | Some (mkIpv4 one two three four, rest) => ([be16 one two; be16 three four], true, rest)
      | None =>
          match read_separator ":"%char index (read_number 16 4 true 65535) s with
          | Some (group, rest) =>
              let '(groups, v4, rest) := read_groups left' (S index) rest in (group :: groups, v4, rest)
          | None => ([], false, s)
          end
      end
  end.

Definition read_ipv6_addr : Reader Ipv6Addr := λ s,
  let '(head, head_ipv4, s) := read_groups 8 0 s in
  if (length head =? 8)%nat then Some (mkIpv6 head, s)
  else if head_ipv4 then None
  else
    '(_, s) ← read_given_char ":"%char s;
    '(_, s) ← read_given_char ":"%char s;
    let '(tail, _, s) := read_groups (8 - (length head + 1)) 0 s in
    Some (mkIpv6 (head ++ repeat 0%N (8 - length head - length tail) ++ tail), s).

Definition read_ip_addr : Reader IpAddr := λ s,
  match read_ipv4_addr s with
  | Some (ip, rest) => Some (V4 ip, rest)
  | None => '(ip, rest) ← read_ipv6_addr s; Some (V6 ip, rest)
  end.

(** [str::parse::<IpAddr>]. *)
Definition parse_ip (s : string) : option IpAddr :=
  match read_ip_addr s with Some (ip, EmptyString) => Some ip | _ => None end.

Definition is_ip (s : string) : bool := match parse_ip s with Some _ => true | None => false end.

(** Classification of addresses by the standard library. *)
Definition v4_is_loopback (ip : Ipv4Addr) : bool := (ip_a ip =? 127)%N.

Definition v4_is_private (ip : Ipv4Addr) : bool :=
  (ip_a ip =? 10)%N
  || ((ip_a ip =? 172)%N && (16 <=? ip_b ip)%N && (ip_b ip <=? 31)%N)
  || ((ip_a ip =? 192)%N && (ip_b ip =? 168)%N).

Definition v4_is_link_local (ip : Ipv4Addr) : bool := (ip_a ip =? 169)%N && (ip_b ip =? 254)%N.

Definition v4_is_unspecified (ip : Ipv4Addr) : bool :=
  (ip_a ip =? 0)%N && (ip_b ip =? 0)%N && (ip_c ip =? 0)%N && (ip_d ip =? 0)%N.

Definition v4_is_multicast (ip : Ipv4Addr) : bool := (224 <=? ip_a ip)%N && (ip_a ip <=? 239)%N.

Definition v4_is_broadcast (ip : Ipv4Addr) : bool :=
  (ip_a ip =? 255)%N && (ip_b ip =? 255)%N && (ip_c ip =? 255)%N && (ip_d ip =? 255)%N.

(** [u32::from]. *)
Definition v4_to_u32 (ip : Ipv4Addr) : N := (((ip_a ip * 256 + ip_b ip) * 256 + ip_c ip) * 256 + ip_d ip)%N.

Definition v6_is_loopback (ip : Ipv6Addr) : bool := bool_decide (segments ip = [0; 0; 0; 0; 0; 0; 0; 1]%N).

Definition v6_is_unspecified (ip : Ipv6Addr) : bool := bool_decide (segments ip = [0; 0; 0; 0; 0; 0; 0; 0]%N).

Definition first_segment (ip : Ipv6Addr) : N := default 0%N (head (segments ip)).

(** [is_multicast] compares the first byte with 0xff. *)
Definition v6_is_multicast (ip : Ipv6Addr) : bool := (first_segment ip / 256 =? 255)%N.

Definition v6_is_unique_local (ip : Ipv6Addr) : bool := (N.land (first_segment ip) 0xfe00 =? 0xfc00)%N.

Definition v6_is_unicast_link_local (ip : Ipv6Addr) : bool := (N.land (first_segment ip) 0xffc0 =? 0xfe80)%N.

(** [to_ipv4]: compatible and mapped addresses. *)
Definition to_ipv4 (ip : Ipv6Addr) : option Ipv4Addr :=
  match segments ip with
  | [a; b; c; d; e; f; ab; cd] =>
      if (a =? 0)%N && (b =? 0)%N && (c =? 0)%N && (d =? 0)%N && (e =? 0)%N && ((f =? 0)%N || (f =? 0xffff)%N)
      then Some (mkIpv4 (ab / 256) (ab mod 256) (cd / 256) (cd mod 256))
      else None
  | _ => None
  end.

Definition ip_is_loopback (ip : IpAddr) : bool :=
  match ip with V4 ip => v4_is_loopback ip | V6 ip => v6_is_loopback ip end.

(** ** Addresses that are not public *)

Definition ipv4_in_cidr (ip base : Ipv4Addr) (prefix : N) : bool :=
  let mask := if (prefix =? 0)%N then 0%N else N.land (N.shiftl u32_max (32 - prefix)) u32_max in
  (N.land (v4_to_u32 ip) mask =? N.land (v4_to_u32 base) mask)%N.

Definition is_non_public_ipv4 (ip : Ipv4Addr) : bool :=
  v4_is_loopback ip
  || v4_is_private ip
  || v4_is_link_local ip
  || v4_is_unspecified ip
  || v4_is_multicast ip
  || v4_is_broadcast ip
  || ipv4_in_cidr ip (mkIpv4 0 0 0 0) 8
  || ipv4_in_cidr ip (mkIpv4 100 64 0 0) 10
  || ipv4_in_cidr ip (mkIpv4 192 0 0 0) 24
  || ipv4_in_cidr ip (mkIpv4 192 0 2 0) 24
  || ipv4_in_cidr ip (mkIpv4 198 18 0 0) 15
  || ipv4_in_cidr ip (mkIpv4 198 51 100 0) 24
  || ipv4_in_cidr ip (mkIpv4 203 0 113 0) 24
  || ipv4_in_cidr ip (mkIpv4 240 0 0 0) 4.

Definition is_non_public_ipv6 (ip : Ipv6Addr) : bool :=
  match to_ipv4 ip with
  | Some v4 => is_non_public_ipv4 v4 || v6_is_loopback ip
  | None =>
      v6_is_loopback ip
      || v6_is_unspecified ip
      || v6_is_multicast ip
      || v6_is_unique_local ip
      || v6_is_unicast_link_local ip
  end.

Definition is_non_public_ip (ip : IpAddr) : bool :=
  match ip with V4 ip => is_non_public_ipv4 ip | V6 ip => is_non_public_ipv6 ip end.

(** ** Hosts *)

Definition unscoped_ip_literal (host : string) : option string :=
  match split_at_char "%"%char host with
  | (ip, Some _) => if is_ip ip then Some ip else None
  | (_, None) => None
  end.

(** The text of a scoped address with the delimiter in its short form. *)
Definition scoped_ip_literal (host delimiter : string) : option string :=
  '(ip, scope) ← split_once host delimiter;
  if is_ip ip then Some (ip +:+ "%" +:+ scope) else None.

Definition normalize_ip_literal (host : string) : option string :=
  if is_ip host then Some host
  else match scoped_ip_literal host "%25" with
       | Some ip => Some ip
       | None => scoped_ip_literal host "%"
       end.

Definition normalize_dns_host_or_ip_literal (host : string) : string :=
  let host := trim_end_char "."%char (to_ascii_lowercase host) in
  default host (normalize_ip_literal host).

Fixpoint count_char (c : ascii) (s : string) : nat :=
  match s with
  | EmptyString => 0
  | String a s' => (if Ascii.eqb a c then 1 else 0) + count_char c s'
  end.

Definition normalize_host (host : string) : string :=
  let host := trim host in
  match (if starts_with host "[" then str_find "]" host else None) with
  | Some end_ => normalize_dns_host_or_ip_literal (str_take (end_ - 1) (str_drop 1 host))
  | None =>
      if (count_char ":"%char host =? 1)%nat then normalize_dns_host_or_ip_literal (split_first ":"%char host)
      else normalize_dns_host_or_ip_literal host
  end.

Record Host := mkHost { host_text : string }.

Definition host_parse (input : string) : res Host :=
  let normalized := normalize_host input in
  _ ← ensure (negb (str_is_empty normalized)) "host is empty";
  Ok (mkHost normalized).

Definition is_loopback_host (host : Host) : bool :=
  let host := default (host_text host) (unscoped_ip_literal (host_text host)) in
  if host == "localhost" then true
  else match parse_ip host with Some ip => ip_is_loopback ip | None => false end.

(** ** Libraries

    globset with case-insensitive host patterns (errors of single globs and of
    the whole set) and with the globs of hooks, which may keep [*] from crossing
    a slash; [url::Host::parse] with the canonical text; [Url::parse] with its
    host and explicit port. *)
Class NetLibs := {
  host_glob_error : string → option string;
  host_glob_match : string → string → bool;
  globset_error : list string → option string;
  hook_glob_error : bool → string → option string;
  hook_glob_match : bool → string → string → bool;
  url_host : string → option string;
  url_authority : string → option (option string * option N)
}.

(** [anyhow] context. *)
Definition err_context {A} (r : res A) (context : string) : res A :=
  match r with Err e => Err (context +:+ ": " +:+ e) | _ => r end.

(** ** Domain patterns *)

Definition normalize_pattern (pattern : string) : string :=
  let pattern := trim pattern in
  if pattern == "*" then "*"
  else
    let '(prefix, remainder) :=
      match strip_prefix "**." pattern with
      | Some domain => ("**.", domain)
      | None => match strip_prefix "*." pattern with
                | Some domain => ("*.", domain)
                | None => ("", pattern)
                end
      end in
    let remainder := normalize_host remainder in
    if str_is_empty prefix then remainder else prefix +:+ remainder.

Inductive DomainPattern :=
| ApexAndSubdomains (domain : string)
| SubdomainsOnly (domain : string)
| Exact (domain : string).

Definition parse_domain (domain : string) (build : string → DomainPattern) : DomainPattern :=
  let domain := trim domain in
  if str_is_empty domain then Exact "" else build domain.

Definition pattern_parse (input : string) : DomainPattern :=
  let input := trim input in
  if str_is_empty input then Exact ""
  else match strip_prefix "**." input with
       | Some domain => parse_domain domain ApexAndSubdomains
       | None => match strip_prefix "*." input with
                 | Some domain => parse_domain domain SubdomainsOnly
                 | None => Exact input
                 end
       end.

Definition expand_domain_pattern (pattern : string) : list string :=
  match pattern_parse pattern with
  | Exact domain => [domain]
  | SubdomainsOnly domain => ["?*." +:+ domain]
  | ApexAndSubdomains domain => [domain; "?*." +:+ domain]
  end.

Definition is_global_wildcard_domain_pattern (pattern : string) : bool :=
  existsb (λ candidate, candidate == "*") (expand_domain_pattern (normalize_pattern pattern)).

(** A compiled set is the list of its globs. *)
Record GlobSet := mkGlobSet { globs : list string }.

Definition globset_is_match `{NetLibs} (set : GlobSet) (host : string) : bool :=
  existsb (λ glob, host_glob_match glob host) (globs set).

Inductive GlobalWildcard := AllowWildcard | RejectWildcard.

Section patterns.
Context `{NetLibs}.

(** The set of seen candidates is that of the globs in the builder. *)
Fixpoint add_candidates (candidates builder : list string) : res (list string) :=
  match candidates with
  | [] => Ok builder
  | candidate :: candidates =>
      if existsb (λ seen, seen == candidate) builder then add_candidates candidates builder
      else match host_glob_error candidate with
           | Some e => Err ("invalid glob pattern: " +:+ candidate +:+ ": " +:+ e)
           | None => add_candidates candidates (builder ++ [candidate])
           end
  end.

Definition wildcard_message : string :=
  "unsupported global wildcard domain pattern " +:+ quote +:+ "*" +:+ quote
  +:+ "; use exact hosts or scoped wildcards like *.example.com or **.example.com".

Fixpoint add_patterns (patterns : list string) (global_wildcard : GlobalWildcard) (builder : list string) : res (list string) :=
  match patterns with
  | [] => Ok builder
  | pattern :: patterns =>
      match global_wildcard, is_global_wildcard_domain_pattern pattern with
      | RejectWildcard, true => Err wildcard_message
      | _, _ =>
          builder ← add_candidates (expand_domain_pattern (normalize_pattern pattern)) builder;
          add_patterns patterns global_wildcard builder
      end
  end.

Definition compile_globset_with_policy (patterns : list string) (global_wildcard : GlobalWildcard) : res GlobSet :=
  builder ← add_patterns patterns global_wildcard [];
  match globset_error builder with Some e => Err e | None => Ok (mkGlobSet builder) end.

Definition compile_allowlist_globset (patterns : list string) : res GlobSet := compile_globset_with_policy patterns AllowWildcard.

Definition compile_denylist_globset (patterns : list string) : res GlobSet := compile_globset_with_policy patterns RejectWildcard.

Definition parse_domain_for_constraints (domain : string) : string :=
  let domain := trim_end_char "."%char (trim domain) in
  if str_is_empty domain then ""
  else
    let host := if starts_with domain "[" && str_ends_with domain "]"
                then str_take (String.length domain - 1 - 1) (str_drop 1 domain) else domain in
    if str_contains host "*" || str_contains host "?" || str_contains host "%" then domain
    else default "" (url_host host).

Definition parse_for_constraints (input : string) : DomainPattern :=
  let input := trim input in
  if str_is_empty input then Exact ""
  else match strip_prefix "**." input with
       | Some domain => ApexAndSubdomains (parse_domain_for_constraints domain)
       | None => match strip_prefix "*." input with
                 | Some domain => SubdomainsOnly (parse_domain_for_constraints domain)
                 | None => Exact (parse_domain_for_constraints input)
                 end
       end.
End patterns.

Definition normalize_domain (domain : string) : string := to_ascii_lowercase (trim_end_char "."%char domain).

Definition domain_eq (left right : string) : bool := normalize_domain left == normalize_domain right.

Definition is_subdomain_or_equal (child parent : string) : bool :=
  let child := normalize_domain child in
  let parent := normalize_domain parent in
  if child == parent then true else str_ends_with child ("." +:+ parent).

Definition is_strict_subdomain (child parent : string) : bool :=
  let child := normalize_domain child in
  let parent := normalize_domain parent in
  negb (child == parent) && str_ends_with child ("." +:+ parent).

Definition allows (self candidate : DomainPattern) : bool :=
  match self, candidate with
  | Exact domain, Exact candidate => domain_eq candidate domain
  | Exact _, _ => false
  | SubdomainsOnly domain, Exact candidate => is_strict_subdomain candidate domain
  | SubdomainsOnly domain, SubdomainsOnly candidate => is_subdomain_or_equal candidate domain
  | SubdomainsOnly domain, ApexAndSubdomains candidate => is_strict_subdomain candidate domain
  | ApexAndSubdomains domain, (Exact candidate | SubdomainsOnly candidate | ApexAndSubdomains candidate) =>
      is_subdomain_or_equal candidate domain
  end.

(** ** Settings *)

(** Later permissions win over earlier ones for the same pattern. *)
Inductive NetworkDomainPermission := NoPermission | AllowDomain | DenyDomain.

#[export] Instance domain_permission_eq_dec : EqDecision NetworkDomainPermission.
Proof. solve_decision. Defined.

Definition permission_rank (p : NetworkDomainPermission) : nat :=
  match p with NoPermission => 0 | AllowDomain => 1 | DenyDomain => 2 end.

Record NetworkDomainPermissionEntry := mkDomainEntry {
  de_pattern : string;
  de_permission : NetworkDomainPermission
}.

Record NetworkDomainPermissions := mkDomains { domain_list : list NetworkDomainPermissionEntry }.

#[export] Instance domain_entry_eq_dec : EqDecision NetworkDomainPermissionEntry.
Proof. solve_decision. Defined.
#[export] Instance domains_eq_dec : EqDecision NetworkDomainPermissions.
Proof. solve_decision. Defined.

Definition effective_step (acc : list string * gmap string NetworkDomainPermission) (entry : NetworkDomainPermissionEntry) :
    list string * gmap string NetworkDomainPermission :=
  let '(order, effective_permissions) := acc in
  match effective_permissions !! de_pattern entry with
  | None => (order ++ [de_pattern entry], <[de_pattern entry := de_permission entry]> effective_permissions)
  | Some permission =>
      if (permission_rank permission <? permission_rank (de_permission entry))%nat
      then (order, <[de_pattern entry := de_permission entry]> effective_permissions)
      else (order, effective_permissions)
  end.

Fixpoint remove_in_order (order : list string) (permissions : gmap string NetworkDomainPermission) :
    list NetworkDomainPermissionEntry :=
  match order with
  | [] => []
  | pattern :: order =>
      match permissions !! pattern with
      | Some permission => mkDomainEntry pattern permission :: remove_in_order order (delete pattern permissions)
      | None => remove_in_order order permissions
      end
  end.

Definition effective_entries (d : NetworkDomainPermissions) : list NetworkDomainPermissionEntry :=
  let '(order, effective_permissions) := fold_left effective_step (domain_list d) ([], ∅) in
  remove_in_order order effective_permissions.

Inductive NetworkUnixSocketPermission := AllowSocket | DenySocket.

#[export] Instance socket_permission_eq_dec : EqDecision NetworkUnixSocketPermission.
Proof. solve_decision. Defined.

Inductive NetworkMode := Limited | Full.

#[export] Instance network_mode_eq_dec : EqDecision NetworkMode.
Proof. solve_decision. Defined.

Definition allows_method (self : NetworkMode) (method : string) : bool :=
  match self with
  | Full => true
  | Limited => (method == "GET") || (method == "HEAD") || (method == "OPTIONS")
  end.

(** [BTreeMap::iter]: the entries in the order of the keys. *)
Definition btree_entries {A} (m : gmap string A) : list (string * A) :=
  omap (λ k, pair k <$> m !! k) (sort_strings (map fst (map_to_list m))).

(** Hooks on intercepted requests, as configured (mitm_hook.rs). *)
Record MitmHookMatchConfig := mkHookMatchConfig {
  mc_methods : list string;
  mc_path_prefixes : list string;
  mc_query : gmap string (list string);
  mc_headers : gmap string (list string);
  mc_body : option Value
}.

Record InjectedHeaderConfig := mkInjectedConfig {
  ih_name : string;
  ih_secret_env_var : option string;
  ih_secret_file : option string;
  ih_prefix : option string
}.

Record MitmHookActionsConfig := mkHookActionsConfig {
  ac_strip_request_headers : list string;
  ac_inject_request_headers : list InjectedHeaderConfig
}.

Record MitmHookConfig := mkHookConfig {
  hc_host : string;
  hc_matcher : MitmHookMatchConfig;
  hc_actions : MitmHookActionsConfig
}.

#[export] Instance number_eq_dec : EqDecision Number.
Proof. solve_decision. Defined.
#[export] Instance value_eq_dec : EqDecision Value.
Proof.
  refine (fix go v w := let r : EqDecision Value := @go in
    match v, w with
    | VNull, VNull => left eq_refl
    | VBool a, VBool b => cast_if (decide (a = b))
    | VNumber a, VNumber b => cast_if (decide (a = b))
    | VString a, VString b => cast_if (decide (a = b))
    | VArray a, VArray b => cast_if (decide (a = b))
    | VObject a, VObject b => cast_if (decide (a = b))
    | _, _ => right _
    end); clear r go; abstract congruence.
Defined.
#[export] Instance hook_match_config_eq_dec : EqDecision MitmHookMatchConfig.
Proof. solve_decision. Defined.
#[export] Instance injected_config_eq_dec : EqDecision InjectedHeaderConfig.
Proof. solve_decision. Defined.
#[export] Instance hook_actions_config_eq_dec : EqDecision MitmHookActionsConfig.
Proof. solve_decision. Defined.
#[export] Instance hook_config_eq_dec : EqDecision MitmHookConfig.
Proof. solve_decision. Defined.

Record NetworkProxySettings := mkSettings {
  enabled : bool;
  proxy_url : string;
  enable_socks5 : bool;
  socks_url : string;
  enable_socks5_udp : bool;
  allow_upstream_proxy : bool;
  dangerously_allow_non_loopback_proxy : bool;
  dangerously_allow_all_unix_sockets : bool;
  mode : NetworkMode;
  domains : option NetworkDomainPermissions;
  unix_sockets : option (gmap string NetworkUnixSocketPermission);
  allow_local_binding : bool;
  mitm : bool;
  mitm_hooks : list MitmHookConfig
}.

(** [NetworkProxyConfig] has the settings as its only field. *)
Record NetworkProxyConfig := mkConfig { network : NetworkProxySettings }.

#[export] Instance settings_eq_dec : EqDecision NetworkProxySettings.
Proof. solve_decision. Defined.
#[export] Instance config_eq_dec : EqDecision NetworkProxyConfig.
Proof. solve_decision. Defined.

Definition set_mode (m : NetworkMode) (s : NetworkProxySettings) : NetworkProxySettings :=
  mkSettings (enabled s) (proxy_url s) (enable_socks5 s) (socks_url s) (enable_socks5_udp s) (allow_upstream_proxy s)
    (dangerously_allow_non_loopback_proxy s) (dangerously_allow_all_unix_sockets s) m (domains s) (unix_sockets s)
    (allow_local_binding s) (mitm s) (mitm_hooks s).

Definition set_domains (d : option NetworkDomainPermissions) (s : NetworkProxySettings) : NetworkProxySettings :=
  mkSettings (enabled s) (proxy_url s) (enable_socks5 s) (socks_url s) (enable_socks5_udp s) (allow_upstream_proxy s)
    (dangerously_allow_non_loopback_proxy s) (dangerously_allow_all_unix_sockets s) (mode s) d (unix_sockets s)
    (allow_local_binding s) (mitm s) (mitm_hooks s).

Definition set_unix_sockets (u : option (gmap string NetworkUnixSocketPermission)) (s : NetworkProxySettings) : NetworkProxySettings :=
  mkSettings (enabled s) (proxy_url s) (enable_socks5 s) (socks_url s) (enable_socks5_udp s) (allow_upstream_proxy s)
    (dangerously_allow_non_loopback_proxy s) (dangerously_allow_all_unix_sockets s) (mode s) (domains s) u
    (allow_local_binding s) (mitm s) (mitm_hooks s).

Definition default_proxy_url : string := "http://127.0.0.1:3128".

Definition default_socks_url : string := "http://127.0.0.1:8081".

Definition settings_default : NetworkProxySettings :=
  mkSettings false default_proxy_url true default_socks_url true true false false Full None None false false [].

(** [Option::filter] of an empty list. *)
Definition non_empty_list {A} (l : list A) : option (list A) := match l with [] => None | _ => Some l end.

Definition domain_entries (s : NetworkProxySettings) (permission : NetworkDomainPermission) : option (list string) :=
  d ← domains s;
  non_empty_list (map de_pattern (List.filter (λ e, bool_decide (de_permission e = permission)) (effective_entries d))).

Definition allowed_domains (s : NetworkProxySettings) : option (list string) := domain_entries s AllowDomain.

Definition denied_domains (s : NetworkProxySettings) : option (list string) := domain_entries s DenyDomain.

Definition allow_unix_sockets (s : NetworkProxySettings) : list string :=
  match unix_sockets s with
  | Some u => map fst (List.filter (λ '(_, permission), bool_decide (permission = AllowSocket)) (btree_entries u))
  | None => []
  end.

Definition non_empty_domains (entries : list NetworkDomainPermissionEntry) : option NetworkDomainPermissions :=
  mkDomains <$> non_empty_list entries.

(** [domains.take().unwrap_or_default()]. *)
Definition taken_domains (s : NetworkProxySettings) : list NetworkDomainPermissionEntry :=
  match domains s with Some d => domain_list d | None => [] end.

Definition upsert_domain_permission (host : string) (permission : NetworkDomainPermission) (normalize : string → string)
    (s : NetworkProxySettings) : NetworkProxySettings :=
  let normalized_host := normalize host in
  let entries := List.filter (λ e, negb (normalize (de_pattern e) == normalized_host)) (taken_domains s) in
  set_domains (non_empty_domains (entries ++ [mkDomainEntry host permission])) s.

Definition push_domain (permission : NetworkDomainPermission) (entries : list NetworkDomainPermissionEntry) (entry : string) :
    list NetworkDomainPermissionEntry :=
  if existsb (λ e, (de_pattern e == entry) && bool_decide (de_permission e = permission)) entries then entries
  else entries ++ [mkDomainEntry entry permission].

Definition set_domain_entries (entries : list string) (permission : NetworkDomainPermission) (s : NetworkProxySettings) :
    NetworkProxySettings :=
  let kept := List.filter (λ e, negb (bool_decide (de_permission e = permission))) (taken_domains s) in
  set_domains (non_empty_domains (fold_left (push_domain permission) entries kept)) s.

Definition set_allowed_domains (l : list string) (s : NetworkProxySettings) : NetworkProxySettings :=
  set_domain_entries l AllowDomain s.

Definition set_denied_domains (l : list string) (s : NetworkProxySettings) : NetworkProxySettings :=
  set_domain_entries l DenyDomain s.

Definition set_unix_socket_entries (entries : list string) (permission : NetworkUnixSocketPermission) (s : NetworkProxySettings) :
    NetworkProxySettings :=
  let kept := filter (λ '(_, existing), existing ≠ permission) (default ∅ (unix_sockets s)) in
  let sockets := fold_left (λ m entry, <[entry := permission]> m) entries kept in
  set_unix_sockets (if bool_decide (sockets = ∅) then None else Some sockets) s.

Definition set_allow_unix_sockets (l : list string) (s : NetworkProxySettings) : NetworkProxySettings :=
  set_unix_socket_entries l AllowSocket s.

(** ** Listening addresses *)

Definition loopback (port : N) : SocketAddr := mkSocketAddr (V4 (mkIpv4 127 0 0 1)) port.

Definition clamp_non_loopback (addr : SocketAddr) (allow_non_loopback : bool) : SocketAddr :=
  if ip_is_loopback (sa_ip addr) then addr
  else if allow_non_loopback then addr
  else loopback (sa_port addr).

Definition clamp_bind_addrs (http_addr socks_addr : SocketAddr) (cfg : NetworkProxySettings) : SocketAddr * SocketAddr :=
  let http_addr := clamp_non_loopback http_addr (dangerously_allow_non_loopback_proxy cfg) in
  let socks_addr := clamp_non_loopback socks_addr (dangerously_allow_non_loopback_proxy cfg) in
  match allow_unix_sockets cfg with
  | [] =>
      if dangerously_allow_all_unix_sockets cfg then (loopback (sa_port http_addr), loopback (sa_port socks_addr))
      else (http_addr, socks_addr)
  | _ => (loopback (sa_port http_addr), loopback (sa_port socks_addr))
  end.

Record RuntimeConfig := mkRuntime { http_addr : SocketAddr; socks_addr : SocketAddr }.

Inductive ValidatedUnixSocketPath := Native (path : string) | UnixStyleAbsolute (path : string).

Section sockets.
Context `{Unicode} `{HostDirs} `{NetLibs}.

Definition socket_path_parse (socket_path : string) : res ValidatedUnixSocketPath :=
  if has_root socket_path then
    Native <$> with_context (try_absolute socket_path) ("failed to normalize unix socket path " +:+ debug_str socket_path)
  else if starts_with socket_path "/" then Ok (UnixStyleAbsolute socket_path)
  else Err ("expected an absolute path, got " +:+ debug_str socket_path).

Fixpoint validate_sockets (index : nat) (paths : list string) : res () :=
  match paths with
  | [] => Ok ()
  | socket_path :: paths =>
      _ ← err_context (socket_path_parse socket_path) ("invalid network.allow_unix_sockets[" +:+ pretty index +:+ "]");
      validate_sockets (S index) paths
  end.

Definition validate_unix_socket_allowlist_paths (cfg : NetworkProxyConfig) : res () :=
  validate_sockets 0 (allow_unix_sockets (network cfg)).

Record SocketAddressParts := mkParts { part_host : string; part_port : N }.

Definition missing_host {A} (url : string) : res A := Err ("missing host in network proxy address: " +:+ url).

Definition port_or (default_port : N) (port : option string) : N :=
  default default_port (p ← port; parse_uint 65535 p).

Definition parse_host_port_fallback (input : string) (default_port : N) : res SocketAddressParts :=
  let without_scheme := match split_once input "://" with Some (_, rest) => rest | None => input end in
  let host_port := split_first "/"%char without_scheme in
  let host_port := match rsplit_once "@" host_port with Some (_, rest) => rest | None => host_port end in
  match (if starts_with host_port "[" then str_find "]" host_port else None) with
  | Some end_ =>
      let host := str_take (end_ - 1) (str_drop 1 host_port) in
      let port := port_or default_port (strip_prefix ":" (str_drop (end_ + 1) host_port)) in
      if str_is_empty host then missing_host input else Ok (mkParts host port)
  | None =>
      match (if (count_char ":"%char host_port =? 1)%nat then rsplit_once ":" host_port else None) with
      | Some (host, port) =>
          if str_is_empty host then missing_host input else Ok (mkParts host (port_or default_port (Some port)))
      | None => if str_is_empty host_port then missing_host input else Ok (mkParts host_port default_port)
      end
  end.

(** [trim_matches] of brackets. *)
Fixpoint drop_brackets (s : string) : string :=
  match s with
  | String a s' => if Ascii.eqb a "["%char || Ascii.eqb a "]"%char then drop_brackets s' else s
  | EmptyString => s
  end.

Definition trim_brackets (s : string) : string := str_rev (drop_brackets (str_rev (drop_brackets s))).

Definition parse_host_port (url : string) (default_port : N) : res SocketAddressParts :=
  let trimmed := trim url in
  if str_is_empty trimmed then missing_host url
  else if match parse_ip trimmed with Some (V6 _) => negb (starts_with trimmed "[") | _ => false end
  then Ok (mkParts trimmed default_port)
  else
    let candidate := if str_contains trimmed "://" then trimmed else "http://" +:+ trimmed in
    match url_authority candidate with
    | Some (Some host, port) =>
        let host := trim_brackets host in
        if str_is_empty host then missing_host url else Ok (mkParts host (default default_port port))
    | _ => parse_host_port_fallback trimmed default_port
    end.

Definition resolve_addr (url : string) (default_port : N) : res SocketAddr :=
  addr_parts ← parse_host_port url default_port;
  let host := if eq_ignore_ascii_case (part_host addr_parts) "localhost" then "127.0.0.1" else part_host addr_parts in
  match parse_ip host with
  | Some ip => Ok (mkSocketAddr ip (part_port addr_parts))
  | None => Ok (loopback (part_port addr_parts))
  end.

Definition resolve_runtime (cfg : NetworkProxyConfig) : res RuntimeConfig :=
  _ ← validate_unix_socket_allowlist_paths cfg;
  http_addr ← err_context (resolve_addr (proxy_url (network cfg)) 3128) ("invalid network.proxy_url: " +:+ proxy_url (network cfg));
  socks_addr ← err_context (resolve_addr (socks_url (network cfg)) 8081) ("invalid network.socks_url: " +:+ socks_url (network cfg));
  let '(http_addr, socks_addr) := clamp_bind_addrs http_addr socks_addr (network cfg) in
  Ok (mkRuntime http_addr socks_addr).

Definition format_host_and_port (host : string) (port : N) : string :=
  if str_contains host ":" then "[" +:+ host +:+ "]:" +:+ pretty port else host +:+ ":" +:+ pretty port.

Definition host_and_port_from_network_addr (value : string) (default_port : N) : string :=
  let trimmed := trim value in
  if str_is_empty trimmed then "<missing>"
  else match parse_host_port trimmed default_port with
       | Ok parts => format_host_and_port (part_host parts) (part_port parts)
       | _ => format_host_and_port trimmed default_port
       end.
End sockets.
