(* ===== verification/NetworkProxy.v ===== *)
(** * State of the network proxy
      (codex-rs/network-proxy: mitm_hook.rs, state.rs, runtime.rs)

    Hooks on intercepted requests, the administrator's constraints, and the
    shared state behind a lock.  The operations on the state are processes: each
    time the lock is taken is one atomic action, and so is each call of the
    reloader, the resolver and the clock. *)

From S2P Require Import Prelude RustStr Json Lifecycle Os AbsPath Proc NetPolicy.

(** ** Hooks *)

(** A result whose error is the chain of messages, the outermost first. *)
Inductive hooked (A : Type) : Type := HookOk (a : A) | HookErr (chain : list string).
Arguments HookOk {A} a.
Arguments HookErr {A} chain.

#[export] Instance hooked_ret : MRet hooked := λ A a, HookOk a.
#[export] Instance hooked_bind : MBind hooked := λ A B f m, match m with HookOk a => f a | HookErr e => HookErr e end.

Definition hook_context {A} (r : hooked A) (context : string) : hooked A :=
  match r with HookErr chain => HookErr (context :: chain) | _ => r end.

Definition hook_error {A} (msg : string) : hooked A := HookErr [msg].

(** An [anyhow] error with its chain. *)
Definition hook_res {A} (r : hooked A) : res A :=
  match r with HookOk a => Ok a | HookErr chain => Err (join ": " chain) end.

(** [err.to_string()], the outermost message. *)
Definition outermost (chain : list string) : string := default "" (head chain).

(** The http crate: names of headers are read to lower case, [to_str] fails on
    bytes that are not visible; the form_urlencoded crate. *)
Class HttpLib := {
  header_name_from : string → string + string;
  header_value_error : string → option string;
  header_value_to_str : string → option string;
  form_pairs : string → list (string * string)
}.

(** [Uri] as the http crate splits it. *)
Record Uri := mkUri {
  uri_scheme : option string;
  uri_authority : option string;
  uri_path : string;
  uri_query : option string;
  uri_path_and_query : option string
}.

(** Headers in order; a name may occur several times. *)
Definition HeaderMap := list (string * string).

Record Request := mkRequest {
  req_method : string;
  req_uri : Uri;
  req_headers : HeaderMap;
  req_body : string;
  req_peer : option string
}.

Definition get_all (headers : HeaderMap) (name : string) : list string :=
  map snd (List.filter (λ '(n, _), n == name) headers).

Definition header_get (headers : HeaderMap) (name : string) : option string := head (get_all headers name).

Definition header_remove (name : string) (headers : HeaderMap) : HeaderMap :=
  List.filter (λ '(n, _), negb (n == name)) headers.

(** [HeaderMap::insert] replaces every value of the name. *)
Definition header_insert (name value : string) (headers : HeaderMap) : HeaderMap :=
  header_remove name headers ++ [(name, value)].

Record CompiledGlobMatcher := mkGlobMatcher { gm_pattern : string; gm_literal_separator : bool }.

Inductive PathMatcher := PathPrefix (prefix : string) | PathGlob (glob : CompiledGlobMatcher).

Inductive ValueMatcher := ValueExact (value : string) | ValueGlob (glob : CompiledGlobMatcher).

Inductive MatcherPattern := LiteralPattern (text : string) | GlobPattern (text : string).

Record QueryConstraint := mkQueryConstraint { qc_name : string; qc_allowed_values : list ValueMatcher }.

Record HeaderConstraint := mkHeaderConstraint { hd_name : string; hd_allowed_values : list ValueMatcher }.

Inductive SecretSource := EnvVar (name : string) | SecretFile (path : string).

Record ResolvedInjectedHeader := mkInjected { inj_name : string; inj_value : string; inj_source : SecretSource }.

Record MitmHookActions := mkHookActions {
  strip_request_headers : list string;
  inject_request_headers : list ResolvedInjectedHeader
}.

Record MitmHookMatcher := mkHookMatcher {
  hm_methods : list string;
  hm_path_prefixes : list PathMatcher;
  hm_query : list QueryConstraint;
  hm_headers : list HeaderConstraint
}.

Record MitmHook := mkHook { hk_host : string; hk_matcher : MitmHookMatcher; hk_actions : MitmHookActions }.

Inductive HookEvaluation := NoHooksForHost | Matched (actions : MitmHookActions) | HookedHostNoMatch.

Definition LITERAL_PREFIX : string := "literal:".

Definition PATTERN_PREFIX : string := "pattern:".

Definition ascii_upper (a : ascii) : ascii := if is_ascii_lower a then ascii_of_N (byte a - 32) else a.

Definition to_ascii_uppercase (s : string) : string := str_map ascii_upper s.

Section hooks.
Context `{Unicode} `{HostDirs} `{NetLibs} `{HttpLib}.

Definition parse_matcher_pattern (pattern : string) : hooked MatcherPattern :=
  match strip_prefix LITERAL_PREFIX pattern with
  | Some literal => HookOk (LiteralPattern literal)
  | None =>
      match strip_prefix PATTERN_PREFIX pattern with
      | None => HookOk (LiteralPattern pattern)
      | Some glob_pattern =>
          if str_is_empty glob_pattern then hook_error "glob pattern must not be empty" else HookOk (GlobPattern glob_pattern)
      end
  end.

Definition compile_glob_matcher (pattern : string) (literal_separator : bool) : hooked CompiledGlobMatcher :=
  match hook_glob_error literal_separator pattern with
  | Some e => hook_error ("invalid glob pattern " +:+ debug_str pattern +:+ ": " +:+ e)
  | None => HookOk (mkGlobMatcher pattern literal_separator)
  end.

Definition glob_is_match (g : CompiledGlobMatcher) (candidate : string) : bool :=
  hook_glob_match (gm_literal_separator g) (gm_pattern g) candidate.

Definition path_matcher_matches (m : PathMatcher) (candidate : string) : bool :=
  match m with PathPrefix prefix => starts_with candidate prefix | PathGlob glob => glob_is_match glob candidate end.

Definition value_matcher_matches (m : ValueMatcher) (candidate : string) : bool :=
  match m with ValueExact value => value == candidate | ValueGlob glob => glob_is_match glob candidate end.

Definition compile_path_matcher (prefix : string) : hooked PathMatcher :=
  p ← parse_matcher_pattern prefix;
  match p with
  | LiteralPattern prefix =>
      if str_is_empty prefix then hook_error "path_prefixes must not contain empty entries" else HookOk (PathPrefix prefix)
  | GlobPattern glob_pattern => g ← compile_glob_matcher glob_pattern true; HookOk (PathGlob g)
  end.

Definition compile_path_matchers (path_prefixes : list string) : hooked (list PathMatcher) := mapM compile_path_matcher path_prefixes.

Definition compile_value_matcher (value : string) : hooked ValueMatcher :=
  p ← parse_matcher_pattern value;
  match p with
  | LiteralPattern value => HookOk (ValueExact value)
  | GlobPattern glob_pattern => g ← compile_glob_matcher glob_pattern false; HookOk (ValueGlob g)
  end.

Definition compile_value_matchers (values : list string) : hooked (list ValueMatcher) := mapM compile_value_matcher values.

Definition normalize_hook_host (host : string) : hooked string :=
  let normalized := normalize_host host in
  if str_is_empty normalized then hook_error "host must not be empty"
  else if str_contains normalized "*" then hook_error "MITM hook hosts must be exact hosts and cannot contain wildcards"
  else HookOk normalized.

Definition normalize_method (method : string) : hooked string :=
  let normalized := to_ascii_uppercase (trim method) in
  if str_is_empty normalized then hook_error "methods must not contain empty entries" else HookOk normalized.

Definition normalize_methods (methods : list string) : hooked (list string) := mapM normalize_method methods.

Definition normalize_query_name (name : string) : hooked string :=
  if str_is_empty name then hook_error "query keys must not be empty" else HookOk name.

Definition parse_header_name (name : string) : hooked string :=
  match header_name_from name with
  | inl name => HookOk name
  | inr e => hook_error ("invalid header name " +:+ debug_str name +:+ ": " +:+ e)
  end.

Definition parse_secret_file (path : string) : hooked string :=
  if str_is_empty (trim path) then hook_error "secret_file must not be empty"
  else
    let message := "secret_file must be an absolute path: " +:+ debug_str path in
    if negb (has_root path) then hook_error message
    else match try_absolute path with IoOk path => HookOk path | IoErr e => HookErr [message; e] end.

(** A check of every entry in order. *)
Fixpoint check_each {A} (check : A → hooked ()) (l : list A) : hooked () :=
  match l with [] => HookOk () | a :: l => _ ← check a; check_each check l end.

Definition validate_query_constraint (entry : string * list string) : hooked () :=
  let '(name, values) := entry in
  normalized ← normalize_query_name name;
  if str_is_empty normalized then hook_error "query keys must not be empty"
  else match values with
       | [] => hook_error ("query key " +:+ debug_str name +:+ " must list at least one allowed value")
       | _ =>
           _ ← hook_context (compile_value_matchers values) ("invalid matcher for query key " +:+ debug_str name);
           HookOk ()
       end.

Definition validate_query_constraints (query : gmap string (list string)) : hooked () :=
  check_each validate_query_constraint (btree_entries query).

Definition validate_header_constraint (entry : string * list string) : hooked () :=
  let '(name, values) := entry in
  _ ← parse_header_name name;
  _ ← hook_context (compile_value_matchers values) ("invalid matcher for header " +:+ debug_str name);
  HookOk ().

Definition validate_header_constraints (headers : gmap string (list string)) : hooked () :=
  check_each validate_header_constraint (btree_entries headers).

Definition validate_strip_request_headers (header_names : list string) : hooked () :=
  check_each (λ name, _ ← parse_header_name name; HookOk ()) header_names.

Definition one_secret {A} : hooked A := hook_error "expected exactly one of secret_env_var or secret_file".

Definition validate_injected_header (header : InjectedHeaderConfig) : hooked () :=
  _ ← parse_header_name (ih_name header);
  match ih_secret_env_var header, ih_secret_file header with
  | Some secret_env_var, None =>
      if str_is_empty (trim secret_env_var) then hook_error "secret_env_var must not be empty" else HookOk ()
  | None, Some secret_file => _ ← parse_secret_file secret_file; HookOk ()
  | _, _ => one_secret
  end.

Definition validate_injected_headers (headers : list InjectedHeaderConfig) : hooked () :=
  check_each validate_injected_header headers.

Definition hook_field (hook_index : nat) (field : string) : string :=
  "network.mitm_hooks[" +:+ pretty hook_index +:+ "]." +:+ field.

Definition validate_hook (hook_index : nat) (hook : MitmHookConfig) : hooked () :=
  let invalid field := "invalid " +:+ hook_field hook_index field in
  let m := hc_matcher hook in
  host ← hook_context (normalize_hook_host (hc_host hook)) (invalid "host");
  methods ← hook_context (normalize_methods (mc_methods m)) (invalid "match.methods");
  if (length methods =? 0)%nat then hook_error (hook_field hook_index "match.methods must not be empty")
  else
    path_prefixes ← hook_context (compile_path_matchers (mc_path_prefixes m)) (invalid "match.path_prefixes");
    if (length path_prefixes =? 0)%nat then hook_error (hook_field hook_index "match.path_prefixes must not be empty")
    else match mc_body m with
         | Some _ => hook_error (hook_field hook_index "match.body is reserved for a future release and is not yet supported")
         | None =>
             _ ← hook_context (validate_query_constraints (mc_query m)) (invalid "match.query");
             _ ← hook_context (validate_header_constraints (mc_headers m)) (invalid "match.headers");
             _ ← hook_context (validate_strip_request_headers (ac_strip_request_headers (hc_actions hook)))
                   (invalid "actions.strip_request_headers");
             _ ← hook_context (validate_injected_headers (ac_inject_request_headers (hc_actions hook)))
                   (invalid "actions.inject_request_headers");
             if str_is_empty host then hook_error (hook_field hook_index "host must not be empty") else HookOk ()
         end.

Fixpoint validate_hooks (hook_index : nat) (hooks : list MitmHookConfig) : hooked () :=
  match hooks with
  | [] => HookOk ()
  | hook :: hooks => _ ← validate_hook hook_index hook; validate_hooks (S hook_index) hooks
  end.

Definition validate_mitm_hook_config (config : NetworkProxyConfig) : hooked () :=
  match mitm_hooks (network config) with
  | [] => HookOk ()
  | hooks =>
      if negb (mitm (network config)) then hook_error "network.mitm_hooks requires network.mitm = true"
      else validate_hooks 0 hooks
  end.

Definition compile_injected_header (resolve_env_var : string → option string) (read_secret_file : string → hooked string)
    (header : InjectedHeaderConfig) : hooked ResolvedInjectedHeader :=
  name ← parse_header_name (ih_name header);
  '(secret, source) ←
    match ih_secret_env_var header, ih_secret_file header with
    | Some env_var, None =>
        match resolve_env_var env_var with
        | Some value => HookOk (value, EnvVar env_var)
        | None => hook_error ("missing required environment variable " +:+ env_var)
        end
    | None, Some secret_file =>
        path ← parse_secret_file secret_file;
        value ← read_secret_file path;
        HookOk (value, SecretFile path)
    | _, _ => one_secret
    end;
  let value := default "" (ih_prefix header) +:+ secret in
  match header_value_error value with
  | Some e => HookErr ["invalid value for injected header " +:+ ih_name header; e]
  | None => HookOk (mkInjected name value source)
  end.

Definition compile_query (entry : string * list string) : hooked QueryConstraint :=
  name ← normalize_query_name entry.1;
  allowed_values ← compile_value_matchers entry.2;
  HookOk (mkQueryConstraint name allowed_values).

Definition compile_header (entry : string * list string) : hooked HeaderConstraint :=
  name ← parse_header_name entry.1;
  allowed_values ← compile_value_matchers entry.2;
  HookOk (mkHeaderConstraint name allowed_values).

Definition compile_hook (resolve_env_var : string → option string) (read_secret_file : string → hooked string)
    (hook : MitmHookConfig) : hooked MitmHook :=
  host ← normalize_hook_host (hc_host hook);
  methods ← normalize_methods (mc_methods (hc_matcher hook));
  path_prefixes ← compile_path_matchers (mc_path_prefixes (hc_matcher hook));
  query ← mapM compile_query (btree_entries (mc_query (hc_matcher hook)));
  headers ← mapM compile_header (btree_entries (mc_headers (hc_matcher hook)));
  strip ← mapM parse_header_name (ac_strip_request_headers (hc_actions hook));
  inject ← mapM (λ header, hook_context (compile_injected_header resolve_env_var read_secret_file header)
                             ("failed to compile injected header " +:+ ih_name header))
             (ac_inject_request_headers (hc_actions hook));
  HookOk (mkHook host (mkHookMatcher methods path_prefixes query headers) (mkHookActions strip inject)).

Definition MitmHooksByHost := gmap string (list MitmHook).

Fixpoint compile_hooks (resolve_env_var : string → option string) (read_secret_file : string → hooked string)
    (hooks : list MitmHookConfig) (hooks_by_host : MitmHooksByHost) : hooked MitmHooksByHost :=
  match hooks with
  | [] => HookOk hooks_by_host
  | hook :: hooks =>
      h ← compile_hook resolve_env_var read_secret_file hook;
      compile_hooks resolve_env_var read_secret_file hooks
        (<[hk_host h := default [] (hooks_by_host !! hk_host h) ++ [h]]> hooks_by_host)
  end.

Definition compile_mitm_hooks_with_resolvers (config : NetworkProxyConfig) (resolve_env_var : string → option string)
    (read_secret_file : string → hooked string) : hooked MitmHooksByHost :=
  _ ← validate_mitm_hook_config config;
  compile_hooks resolve_env_var read_secret_file (mitm_hooks (network config)) ∅.

Definition query_matches (query_constraints : list QueryConstraint) (req : Request) : bool :=
  match query_constraints with
  | [] => true
  | _ =>
      let pairs := form_pairs (default "" (uri_query (req_uri req))) in
      forallb (λ constraint,
        match map snd (List.filter (λ '(name, _), name == qc_name constraint) pairs) with
        | [] => false
        | actual => existsb (λ candidate, existsb (λ m, value_matcher_matches m candidate) (qc_allowed_values constraint)) actual
        end) query_constraints
  end.

Definition headers_match (header_constraints : list HeaderConstraint) (req : Request) : bool :=
  forallb (λ constraint,
    match get_all (req_headers req) (hd_name constraint) with
    | [] => false
    | actual =>
        match hd_allowed_values constraint with
        | [] => true
        | allowed =>
            existsb (λ value,
              match header_value_to_str value with
              | Some candidate => existsb (λ m, value_matcher_matches m candidate) allowed
              | None => false
              end) actual
        end
    end) header_constraints.

Definition path_matches (path_prefixes : list PathMatcher) (path : string) : bool :=
  existsb (λ m, path_matcher_matches m path) path_prefixes.

Definition hook_matches (hook : MitmHook) (req : Request) : bool :=
  let m := hk_matcher hook in
  let method := to_ascii_uppercase (req_method req) in
  existsb (λ allowed, allowed == method) (hm_methods m)
  && path_matches (hm_path_prefixes m) (uri_path (req_uri req))
  && query_matches (hm_query m) req
  && headers_match (hm_headers m) req.

Definition evaluate_mitm_hooks (hooks_by_host : MitmHooksByHost) (host : string) (req : Request) : HookEvaluation :=
  match hooks_by_host !! normalize_host host with
  | None => NoHooksForHost
  | Some hooks =>
      match List.find (λ hook, hook_matches hook req) hooks with
      | Some hook => Matched (hk_actions hook)
      | None => HookedHostNoMatch
      end
  end.
End hooks.

(** ** The administrator's constraints (state.rs) *)

Record NetworkProxyConstraints := mkConstraints {
  c_enabled : option bool;
  c_mode : option NetworkMode;
  c_allow_upstream_proxy : option bool;
  c_dangerously_allow_non_loopback_proxy : option bool;
  c_dangerously_allow_all_unix_sockets : option bool;
  c_allowed_domains : option (list string);
  c_allowlist_expansion_enabled : option bool;
  c_denied_domains : option (list string);
  c_denylist_expansion_enabled : option bool;
  c_allow_unix_sockets : option (list string);
  c_allow_local_binding : option bool
}.

#[export] Instance constraints_eq_dec : EqDecision NetworkProxyConstraints.
Proof. solve_decision. Defined.

Definition constraints_default : NetworkProxyConstraints :=
  mkConstraints None None None None None None None None None None None.

Record NetworkProxyConstraintError := InvalidValue { field_name : string; candidate : string; allowed : string }.

Definition constraint_error_text (e : NetworkProxyConstraintError) : string :=
  "invalid value for " +:+ field_name e +:+ ": " +:+ candidate e +:+ " (allowed " +:+ allowed e +:+ ")".

(** A check is the error it reports; checks are made in order. *)
Fixpoint first_error {E} (checks : list (option E)) : option E :=
  match checks with
  | [] => None
  | Some e :: _ => Some e
  | None :: checks => first_error checks
  end.

(** [Err(..)] when the condition holds. *)
Definition err_when {E} (b : bool) (e : E) : option E := if b then Some e else None.

Definition network_mode_rank (m : NetworkMode) : nat := match m with Limited => 0 | Full => 1 end.

Definition debug_mode (m : NetworkMode) : string := match m with Limited => "Limited" | Full => "Full" end.

Definition validate_non_global_wildcard_domain_patterns (field : string) (patterns : list string) :
    option NetworkProxyConstraintError :=
  match List.find is_global_wildcard_domain_pattern patterns with
  | Some pattern =>
      Some (InvalidValue field (trim pattern) "exact hosts or scoped wildcards like *.example.com or **.example.com")
  | None => None
  end.

(** A set of entries up to case. *)
Definition lowered (l : list string) : gset string := list_to_set (map to_ascii_lowercase l).

Definition disabled_by_managed_config (field : string) : NetworkProxyConstraintError :=
  InvalidValue field "true" "false (disabled by managed config)".

Section constraints.
Context `{Unicode} `{HostDirs} `{NetLibs} `{HttpLib} `{HashOrder}.

Definition check_allowed_domains (constraints : NetworkProxyConstraints) (managed candidate denied : list string) :
    option NetworkProxyConstraintError :=
  match c_allowlist_expansion_enabled constraints with
  | Some true =>
      let missing := hash_order (List.filter (λ e, negb (bool_decide (e ∈ lowered candidate)) && negb (bool_decide (e ∈ lowered denied)))
                                   (elements (lowered managed))) in
      err_when (negb (bool_decide (missing = [])))
        (InvalidValue "network.allowed_domains" "missing managed allowed_domains entries" (debug_list missing))
  | Some false =>
      err_when (negb (bool_decide (lowered candidate = lowered managed ∖ lowered denied)))
        (InvalidValue "network.allowed_domains" (debug_list candidate) "must match managed allowed_domains")
  | None =>
      let managed_patterns := map parse_for_constraints managed in
      let invalid := List.filter (λ entry, negb (existsb (λ m, allows m (parse_for_constraints entry)) managed_patterns)) candidate in
      err_when (negb (bool_decide (invalid = [])))
        (InvalidValue "network.allowed_domains" (debug_list invalid) "subset of managed allowed_domains")
  end.

Definition check_denied_domains (constraints : NetworkProxyConstraints) (managed candidate : list string) :
    option NetworkProxyConstraintError :=
  match c_denylist_expansion_enabled constraints with
  | Some false =>
      err_when (negb (bool_decide (lowered candidate = lowered managed)))
        (InvalidValue "network.denied_domains" (debug_list candidate) "must match managed denied_domains")
  | Some true | None =>
      let missing := hash_order (List.filter (λ e, negb (bool_decide (e ∈ lowered candidate))) (elements (lowered managed))) in
      err_when (negb (bool_decide (missing = [])))
        (InvalidValue "network.denied_domains" "missing managed denied_domains entries" (debug_list missing))
  end.

Definition check_unix_sockets (managed candidate : list string) : option NetworkProxyConstraintError :=
  let invalid := List.filter (λ e, negb (bool_decide (to_ascii_lowercase e ∈ lowered managed))) candidate in
  err_when (negb (bool_decide (invalid = [])))
    (InvalidValue "network.allow_unix_sockets" (debug_list invalid) "subset of managed allow_unix_sockets").

Definition invalid_mitm_hook_configuration (chain : list string) : NetworkProxyConstraintError :=
  InvalidValue "network.mitm_hooks" (outermost chain) "valid MITM hook configuration".

Definition validate_policy_against_constraints (config : NetworkProxyConfig) (constraints : NetworkProxyConstraints) :
    option NetworkProxyConstraintError :=
  let net := network config in
  let config_allowed_domains := default [] (allowed_domains net) in
  let config_denied_domains := default [] (denied_domains net) in
  first_error
    [ match validate_mitm_hook_config config with
      | HookErr chain => Some (invalid_mitm_hook_configuration chain)
      | HookOk _ => None
      end;
      validate_non_global_wildcard_domain_patterns "network.denied_domains" config_denied_domains;
      match c_enabled constraints with
      | Some max_enabled => err_when (enabled net && negb max_enabled) (disabled_by_managed_config "network.enabled")
      | None => None
      end;
      match c_mode constraints with
      | Some max_mode =>
          err_when (network_mode_rank max_mode <? network_mode_rank (mode net))%nat
            (InvalidValue "network.mode" (debug_mode (mode net)) (debug_mode max_mode +:+ " or more restrictive"))
      | None => None
      end;
      match c_allow_upstream_proxy constraints with
      | Some false => err_when (allow_upstream_proxy net) (disabled_by_managed_config "network.allow_upstream_proxy")
      | _ => None
      end;
      match c_dangerously_allow_non_loopback_proxy constraints with
      | Some false =>
          err_when (dangerously_allow_non_loopback_proxy net)
            (disabled_by_managed_config "network.dangerously_allow_non_loopback_proxy")
      | _ => None
      end;
      (let allow_all_unix_sockets :=
         default (bool_decide (c_allow_unix_sockets constraints = None)) (c_dangerously_allow_all_unix_sockets constraints) in
       err_when (dangerously_allow_all_unix_sockets net && negb allow_all_unix_sockets)
         (disabled_by_managed_config "network.dangerously_allow_all_unix_sockets"));
      match c_allow_local_binding constraints with
      | Some max => err_when (allow_local_binding net && negb max) (disabled_by_managed_config "network.allow_local_binding")
      | None => None
      end;
      match c_allowed_domains constraints with
      | Some managed =>
          first_error [validate_non_global_wildcard_domain_patterns "network.allowed_domains" managed;
                       check_allowed_domains constraints managed config_allowed_domains config_denied_domains]
      | None => None
      end;
      match c_denied_domains constraints with
      | Some managed =>
          first_error [validate_non_global_wildcard_domain_patterns "network.denied_domains" managed;
                       check_denied_domains constraints managed config_denied_domains]
      | None => None
      end;
      match c_allow_unix_sockets constraints with
      | Some managed => check_unix_sockets managed (allow_unix_sockets net)
      | None => None
      end ].
End constraints.

(** ** The shared state (runtime.rs) *)

Definition MAX_BLOCKED_EVENTS : nat := 200.

Definition REASON_DENIED : string := "denied".

Definition REASON_NOT_ALLOWED : string := "not_allowed".

Definition REASON_NOT_ALLOWED_LOCAL : string := "not_allowed_local".

Inductive HostBlockReason := Denied | NotAllowed | NotAllowedLocal.

Definition block_reason_as_str (r : HostBlockReason) : string :=
  match r with Denied => REASON_DENIED | NotAllowed => REASON_NOT_ALLOWED | NotAllowedLocal => REASON_NOT_ALLOWED_LOCAL end.

Inductive HostBlockDecision := Allowed | Blocked (reason : HostBlockReason).

#[export] Instance block_reason_eq_dec : EqDecision HostBlockReason.
Proof. solve_decision. Defined.
#[export] Instance block_decision_eq_dec : EqDecision HostBlockDecision.
Proof. solve_decision. Defined.

Record BlockedRequestArgs := mkBlockedArgs {
  ba_host : string;
  ba_reason : string;
  ba_client : option string;
  ba_method : option string;
  ba_mode : option NetworkMode;
  ba_protocol : string;
  ba_decision : option string;
  ba_source : option string;
  ba_port : option N
}.

Record BlockedRequest := mkBlocked { br_args : BlockedRequestArgs; br_timestamp : i64 }.

Record MitmUpstreamConfig := mkUpstream { mu_allow_upstream_proxy : bool; mu_allow_local_binding : bool }.

(** The certificate authority of the interception is an opaque value. *)
Record MitmState := mkMitmState { ms_ca : string; ms_upstream : MitmUpstreamConfig }.

Record ConfigState := mkConfigState {
  config : NetworkProxyConfig;
  allow_set : GlobSet;
  deny_set : GlobSet;
  cs_mitm : option MitmState;
  cs_mitm_hooks : MitmHooksByHost;
  constraints : NetworkProxyConstraints;
  blocked : list BlockedRequest;
  blocked_total : u64
}.

Definition set_blocked (l : list BlockedRequest) (s : ConfigState) : ConfigState :=
  mkConfigState (config s) (allow_set s) (deny_set s) (cs_mitm s) (cs_mitm_hooks s) (constraints s) l (blocked_total s).

Definition set_blocked_total (n : u64) (s : ConfigState) : ConfigState :=
  mkConfigState (config s) (allow_set s) (deny_set s) (cs_mitm s) (cs_mitm_hooks s) (constraints s) (blocked s) n.

Definition set_config (c : NetworkProxyConfig) (s : ConfigState) : ConfigState :=
  mkConfigState c (allow_set s) (deny_set s) (cs_mitm s) (cs_mitm_hooks s) (constraints s) (blocked s) (blocked_total s).

(** A lookup of addresses with its time limit. *)
Inductive Lookup := Resolved (addrs : list SocketAddr) | LookupFailed | LookupTimedOut.

(** What is outside of the proxy, at each tick: the environment and the files
    with secrets, the certificate authority, the reloader, the resolver, the
    clock, links of the file system, and whether this is macOS.  Observers of
    blocked requests are values of a type; [Ext] is the state of whatever else
    lives in the process, which observers and deciders may use. *)
Class NetEnv := {
  Observer : Type;
  Ext : Type;
  env_var_at : nat → string → option string;
  secret_file_at : nat → string → io string;
  ca_at : nat → res string;
  maybe_reload : nat → res (option ConfigState);
  reload_now : nat → res ConfigState;
  lookup_at : nat → string → N → Lookup;
  unix_time_at : nat → i64;
  canonical_at : nat → string → option string;
  target_macos : bool
}.

(** A line of the audit trail (network_policy.rs). *)
Record AuditEvent := mkAudit {
  au_scope : string;
  au_decision : string;
  au_source : string;
  au_reason : string;
  au_protocol : string;
  au_server_address : string;
  au_server_port : N;
  au_method : string;
  au_client_address : string;
  au_policy_override : bool
}.

(** The proxy's state, the observer, the audit trail, the tick, and the rest. *)
Record NetWorld `{NetEnv} := mkNetWorld {
  nw_state : ConfigState;
  nw_observer : option Observer;
  nw_audit : list AuditEvent;
  nw_tick : nat;
  nw_ext : Ext
}.

(** The reaction of an observer to a blocked request. *)
Class NetObserver `{NetEnv} := on_blocked_request : Observer → BlockedRequest → Proc NetWorld ().

Section build.
Context `{Unicode} `{HostDirs} `{NetLibs} `{HttpLib} `{HashOrder} `{NetEnv}.

Definition read_secret_file (t : nat) (path : string) : hooked string :=
  match secret_file_at t path with
  | IoOk value => HookOk (trim value)
  | IoErr e => HookErr ["failed to read secret file " +:+ path; e]
  end.

Definition compile_mitm_hooks (t : nat) (config : NetworkProxyConfig) : hooked MitmHooksByHost :=
  compile_mitm_hooks_with_resolvers config (env_var_at t) (read_secret_file t).

Definition mitm_state_new (t : nat) (upstream : MitmUpstreamConfig) : res MitmState :=
  ca ← ca_at t; Ok (mkMitmState ca upstream).

Definition into_anyhow (e : option NetworkProxyConstraintError) : res () :=
  match e with Some e => Err (constraint_error_text e) | None => Ok () end.

Definition build_config_state (t : nat) (config : NetworkProxyConfig) (constraints : NetworkProxyConstraints) : res ConfigState :=
  _ ← validate_unix_socket_allowlist_paths config;
  let net := network config in
  let allowed := default [] (allowed_domains net) in
  let denied := default [] (denied_domains net) in
  _ ← into_anyhow (validate_non_global_wildcard_domain_patterns "network.denied_domains" denied);
  deny_set ← compile_denylist_globset denied;
  allow_set ← compile_allowlist_globset allowed;
  hooks ← hook_res (compile_mitm_hooks t config);
  mitm ← (if mitm net
          then Some <$> mitm_state_new t (mkUpstream (allow_upstream_proxy net) (allow_local_binding net))
          else Ok None);
  Ok (mkConfigState config allow_set deny_set mitm hooks constraints [] 0).
End build.

Inductive DomainListKind := AllowList | DenyList.

Definition list_name (k : DomainListKind) : string := match k with AllowList => "allowlist" | DenyList => "denylist" end.

Definition constraint_field (k : DomainListKind) : string :=
  match k with AllowList => "network.allowed_domains" | DenyList => "network.denied_domains" end.

Definition list_permission (k : DomainListKind) : NetworkDomainPermission :=
  match k with AllowList => AllowDomain | DenyList => DenyDomain end.

Definition list_entries (k : DomainListKind) (net : NetworkProxySettings) : list string :=
  match k with AllowList => default [] (allowed_domains net) | DenyList => default [] (denied_domains net) end.

Definition opposite_entries (k : DomainListKind) (net : NetworkProxySettings) : list string :=
  match k with AllowList => default [] (denied_domains net) | DenyList => default [] (allowed_domains net) end.

Definition globset_matches_host_or_unscoped `{NetLibs} (set : GlobSet) (host : string) : bool :=
  globset_is_match set host || match unscoped_ip_literal host with Some ip => globset_is_match set ip | None => false end.

Definition is_explicit_local_allowlisted (allowed : list string) (host : Host) : bool :=
  let normalized_host := host_text host in
  let unscoped_host := unscoped_ip_literal normalized_host in
  existsb (λ pattern,
    let pattern := trim pattern in
    if (pattern == "*") || starts_with pattern "*." || starts_with pattern "**." then false
    else if str_contains pattern "*" || str_contains pattern "?" then false
    else
      let normalized_pattern := normalize_host pattern in
      (normalized_pattern == normalized_host)
      || match unscoped_host with Some ip => normalized_pattern == ip | None => false end) allowed.

(** Whether the lookup of a name, given by its outcome, shows an address that is
    not public; failures count as such. *)
Definition lookup_is_non_public (l : Lookup) : bool :=
  match l with
  | Resolved addrs => existsb (λ addr, is_non_public_ip (sa_ip addr)) addrs
  | LookupFailed | LookupTimedOut => true
  end.

Definition local_literal (host : Host) : bool :=
  let host_no_scope := default (host_text host) (unscoped_ip_literal (host_text host)) in
  if is_loopback_host host then true
  else match parse_ip host_no_scope with Some ip => is_non_public_ip ip | None => false end.

(** The oldest entries go first. *)
Fixpoint pop_front_while_full (l : list BlockedRequest) : list BlockedRequest :=
  match l with
  | [] => []
  | _ :: l' => if (MAX_BLOCKED_EVENTS <? length l)%nat then pop_front_while_full l' else l
  end.

Section runtime.
Context `{Unicode} `{HostDirs} `{NetLibs} `{HttpLib} `{HashOrder} `{HE : NetEnv} `{!NetObserver}.

Definition next_tick : Proc NetWorld nat :=
  atomic (λ w, (Ok (nw_tick w), mkNetWorld _ (nw_state w) (nw_observer w) (nw_audit w) (S (nw_tick w)) (nw_ext w))).

(** [self.state.read().await]. *)
Definition read_state : Proc NetWorld ConfigState := atomic (gets nw_state).

(** What is done while [self.state.write().await] is held. *)
Definition write_state {A} (f : ConfigState → A * ConfigState) : Proc NetWorld A :=
  atomic (λ w, let '(a, s) := f (nw_state w) in (Ok a, mkNetWorld _ s (nw_observer w) (nw_audit w) (nw_tick w) (nw_ext w))).

Definition reload_if_needed : Proc NetWorld () :=
  t ← next_tick;
  reloaded ← plift (maybe_reload t);
  match reloaded with
  | None => mret ()
  | Some new_state =>
      guard ← read_state;
      write_state (λ _, ((), set_blocked_total (blocked_total guard) (set_blocked (blocked guard) new_state)))
  end.

(** Reload, then read something of the state. *)
Definition read_current {A} (f : ConfigState → A) : Proc NetWorld A :=
  _ ← reload_if_needed;
  guard ← read_state;
  mret (f guard).

Definition current_cfg : Proc NetWorld NetworkProxyConfig := read_current config.

Definition current_patterns : Proc NetWorld (list string * list string) :=
  read_current (λ s, (default [] (allowed_domains (network (config s))), default [] (denied_domains (network (config s))))).

Definition is_enabled : Proc NetWorld bool := read_current (λ s, enabled (network (config s))).

Definition force_reload : Proc NetWorld () :=
  _ ← read_state;
  t ← next_tick;
  new_state ← plift (reload_now t);
  write_state (λ guard, ((), set_blocked (blocked guard) new_state)).

Definition replace_config_state (new_state : ConfigState) : Proc NetWorld () :=
  _ ← reload_if_needed;
  write_state (λ guard, ((), set_blocked_total (blocked_total guard) (set_blocked (blocked guard) new_state))).

Definition host_resolves_to_non_public_ip (host : string) (port : N) : Proc NetWorld bool :=
  match parse_ip host with
  | Some ip => mret (is_non_public_ip ip)
  | None => t ← next_tick; mret (lookup_is_non_public (lookup_at t host port))
  end.

Definition host_blocked (host : string) (port : N) : Proc NetWorld HostBlockDecision :=
  _ ← reload_if_needed;
  match host_parse host with
  | Ok host =>
      guard ← read_state;
      let net := network (config guard) in
      let is_allowlisted := globset_matches_host_or_unscoped (allow_set guard) (host_text host) in
      if globset_matches_host_or_unscoped (deny_set guard) (host_text host) then mret (Blocked Denied)
      else
        local ← (if allow_local_binding net then mret false
                 else if local_literal host
                 then mret (negb (is_explicit_local_allowlisted (default [] (allowed_domains net)) host))
                 else host_resolves_to_non_public_ip (host_text host) port);
        if local : bool then mret (Blocked NotAllowedLocal)
        else if bool_decide (allowed_domains net = None) || negb is_allowlisted then mret (Blocked NotAllowed)
        else mret Allowed
  | _ => mret (Blocked NotAllowed)
  end.

Definition blocked_request_new (args : BlockedRequestArgs) : Proc NetWorld BlockedRequest :=
  t ← next_tick; mret (mkBlocked args (unix_time_at t)).

Definition push_blocked (entry : BlockedRequest) (guard : ConfigState) : ConfigState :=
  set_blocked_total (sat_add (blocked_total guard) 1) (set_blocked (pop_front_while_full (blocked guard ++ [entry])) guard).

Definition record_blocked (entry : BlockedRequest) : Proc NetWorld () :=
  _ ← reload_if_needed;
  observer ← atomic (gets nw_observer);
  _ ← write_state (λ guard, ((), push_blocked entry guard));
  match observer with
  | Some observer => on_blocked_request observer entry
  | None => mret ()
  end.

Definition set_blocked_request_observer (observer : option Observer) : Proc NetWorld () :=
  atomic (λ w, (Ok (), mkNetWorld _ (nw_state w) observer (nw_audit w) (nw_tick w) (nw_ext w))).

Definition blocked_snapshot : Proc NetWorld (list BlockedRequest) := read_current blocked.

Definition drain_blocked : Proc NetWorld (list BlockedRequest) :=
  _ ← reload_if_needed;
  write_state (λ guard, (blocked guard, set_blocked [] guard)).

Definition unix_socket_permissions_supported : bool := target_macos.

Definition socket_entry_allows (t : nat) (requested_abs : string) (requested_canonical : option string) (allowed : string) : bool :=
  match socket_path_parse allowed with
  | Ok (Native path) =>
      if path_eqb path requested_abs then true
      else match requested_canonical, canonical_at t path with
           | Some requested_canonical, Some allowed_canonical => path_eqb allowed_canonical requested_canonical
           | _, _ => false
           end
  | _ => false
  end.

Definition is_unix_socket_allowed (path : string) : Proc NetWorld bool :=
  _ ← reload_if_needed;
  if negb unix_socket_permissions_supported then mret false
  else if negb (has_root path) then mret false
  else
    guard ← read_state;
    if dangerously_allow_all_unix_sockets (network (config guard)) then mret true
    else match try_absolute path with
         | IoErr _ => mret false
         | IoOk requested_abs =>
             t ← next_tick;
             mret (existsb (socket_entry_allows t requested_abs (canonical_at t requested_abs))
                     (allow_unix_sockets (network (config guard))))
         end.

Definition method_allowed (method : string) : Proc NetWorld bool :=
  read_current (λ s, allows_method (mode (network (config s))) method).

Definition is_upstream_proxy_allowed : Proc NetWorld bool := read_current (λ s, allow_upstream_proxy (network (config s))).

Definition is_local_binding_allowed : Proc NetWorld bool := read_current (λ s, allow_local_binding (network (config s))).

Definition network_mode : Proc NetWorld NetworkMode := read_current (λ s, mode (network (config s))).

Definition mitm_state : Proc NetWorld (option MitmState) := read_current cs_mitm.

Definition evaluate_mitm_hook_request (host : string) (req : Request) : Proc NetWorld HookEvaluation :=
  read_current (λ s, evaluate_mitm_hooks (cs_mitm_hooks s) host req).

Definition host_has_mitm_hooks (host : string) : Proc NetWorld bool :=
  read_current (λ s, bool_decide (is_Some (cs_mitm_hooks s !! normalize_host host))).

(** The loop goes round again when the constraints changed between reading and
    writing; [None] when the rounds given are used up. *)
Fixpoint set_network_mode (rounds : nat) (m : NetworkMode) : Proc NetWorld (option ()) :=
  match rounds with
  | O => mret None
  | S rounds =>
      _ ← reload_if_needed;
      guard ← read_state;
      let candidate := mkConfig (set_mode m (network (config guard))) in
      _ ← plift (err_context (into_anyhow (validate_policy_against_constraints candidate (constraints guard)))
                   "network.mode constrained by managed config");
      stored ← write_state (λ g,
        if bool_decide (constraints g = constraints guard)
        then (true, set_config (mkConfig (set_mode m (network (config g)))) g)
        else (false, g));
      if stored : bool then mret (Some ()) else set_network_mode rounds m
  end.

Fixpoint update_rounds (rounds : nat) (normalized_host : string) (target : DomainListKind) : Proc NetWorld (option ()) :=
  match rounds with
  | O => mret None
  | S rounds =>
      _ ← reload_if_needed;
      guard ← read_state;
      let net := network (config guard) in
      let contains := existsb (λ entry, normalize_host entry == normalized_host) in
      if contains (list_entries target net) && negb (contains (opposite_entries target net)) then mret (Some ())
      else
        let candidate := mkConfig (upsert_domain_permission normalized_host (list_permission target) normalize_host net) in
        _ ← plift (err_context (into_anyhow (validate_policy_against_constraints candidate (constraints guard)))
                     (constraint_field target +:+ " constrained by managed config"));
        t ← next_tick;
        new_state ← plift (err_context (build_config_state t candidate (constraints guard))
                             ("failed to compile updated network " +:+ list_name target));
        stored ← write_state (λ g,
          if bool_decide (constraints g = constraints guard) && bool_decide (config g = config guard)
          then (true, set_blocked_total (blocked_total guard) (set_blocked (blocked guard) new_state))
          else (false, g));
        if stored : bool then mret (Some ()) else update_rounds rounds normalized_host target
  end.

Definition update_domain_list (rounds : nat) (host : string) (target : DomainListKind) : Proc NetWorld (option ()) :=
  host ← plift (err_context (host_parse host) "invalid network host");
  update_rounds rounds (host_text host) target.

Definition add_allowed_domain (rounds : nat) (host : string) : Proc NetWorld (option ()) := update_domain_list rounds host AllowList.

Definition add_denied_domain (rounds : nat) (host : string) : Proc NetWorld (option ()) := update_domain_list rounds host DenyList.
End runtime.
