(* ===== verification/ProxyHandlers.v ===== *)
(** * Requests through the network proxy
      (codex-rs/network-proxy: network_policy.rs, responses.rs, connect_policy.rs,
      http_proxy.rs, socks5.rs, mitm.rs)

    How a plain HTTP request, a CONNECT, a request inside of an intercepted
    tunnel and a SOCKS5 connection are answered.  A handler is a process on the
    state of the proxy; it ends with an answer or with what is to be contacted. *)

From S2P Require Import Prelude RustStr Json Lifecycle Os AbsPath Proc NetPolicy NetworkProxy.

(** ** Decisions (network_policy.rs) *)

Definition REASON_METHOD_NOT_ALLOWED : string := "method_not_allowed".

Definition REASON_MITM_HOOK_DENIED : string := "mitm_hook_denied".

Definition REASON_MITM_REQUIRED : string := "mitm_required".

Definition REASON_POLICY_DENIED : string := "policy_denied".

Definition REASON_PROXY_DISABLED : string := "proxy_disabled".

Definition REASON_UNIX_SOCKET_UNSUPPORTED : string := "unix_socket_unsupported".

Inductive NetworkProtocol := Http | HttpsConnect | Socks5Tcp | Socks5Udp.

Definition as_policy_protocol (p : NetworkProtocol) : string :=
  match p with Http => "http" | HttpsConnect => "https_connect" | Socks5Tcp => "socks5_tcp" | Socks5Udp => "socks5_udp" end.

Inductive NetworkPolicyDecision := PolicyDeny | PolicyAsk.

Definition policy_decision_as_str (d : NetworkPolicyDecision) : string := match d with PolicyDeny => "deny" | PolicyAsk => "ask" end.

Inductive NetworkDecisionSource := BaselinePolicy | ModeGuard | ProxyState | Decider.

Definition source_as_str (s : NetworkDecisionSource) : string :=
  match s with BaselinePolicy => "baseline_policy" | ModeGuard => "mode_guard" | ProxyState => "proxy_state" | Decider => "decider" end.

Record NetworkPolicyRequest := mkPolicyRequest {
  pr_protocol : NetworkProtocol;
  pr_host : string;
  pr_port : N;
  pr_client_addr : option string;
  pr_method : option string;
  pr_command : option string;
  pr_exec_policy_hint : option string
}.

Inductive NetworkDecision :=
| Allow
| Deny (reason : string) (source : NetworkDecisionSource) (decision : NetworkPolicyDecision).

Definition reason_or_default (reason : string) : string := if str_is_empty reason then REASON_POLICY_DENIED else reason.

Definition deny_with_source (reason : string) (source : NetworkDecisionSource) : NetworkDecision :=
  Deny (reason_or_default reason) source PolicyDeny.

Definition ask_with_source (reason : string) (source : NetworkDecisionSource) : NetworkDecision :=
  Deny (reason_or_default reason) source PolicyAsk.

Definition map_decider_decision (d : NetworkDecision) : NetworkDecision :=
  match d with Allow => Allow | Deny reason _ decision => Deny reason Decider decision end.

Record BlockDecisionAuditEventArgs := mkAuditArgs {
  aa_source : NetworkDecisionSource;
  aa_reason : string;
  aa_protocol : NetworkProtocol;
  aa_server_address : string;
  aa_server_port : N;
  aa_method : option string;
  aa_client_addr : option string
}.

(** ** Answers (responses.rs) *)

Inductive Body := TextBody (text : string) | JsonBody (value : Value).

Record Response := mkResponse { rsp_status : N; rsp_headers : HeaderMap; rsp_body : Body }.

Definition text_response (status : N) (body : string) : Response :=
  mkResponse status [("content-type", "text/plain")] (TextBody body).

Definition blocked_header_value (reason : string) : string :=
  if (reason == REASON_NOT_ALLOWED) || (reason == REASON_NOT_ALLOWED_LOCAL) then "blocked-by-allowlist"
  else if reason == REASON_DENIED then "blocked-by-denylist"
  else if reason == REASON_METHOD_NOT_ALLOWED then "blocked-by-method-policy"
  else if reason == REASON_MITM_HOOK_DENIED then "blocked-by-mitm-hook"
  else if reason == REASON_MITM_REQUIRED then "blocked-by-mitm-required"
  else "blocked-by-policy".

Definition blocked_message (reason : string) : string :=
  if reason == REASON_NOT_ALLOWED then "Domain not in allowlist."
  else if reason == REASON_NOT_ALLOWED_LOCAL then "Sandbox policy blocks local/private network addresses."
  else if reason == REASON_DENIED then "Domain denied by the sandbox policy."
  else if reason == REASON_METHOD_NOT_ALLOWED then "Method not allowed in limited mode."
  else if reason == REASON_MITM_HOOK_DENIED then "HTTPS request denied by MITM hook policy."
  else if reason == REASON_MITM_REQUIRED then "MITM required for limited HTTPS."
  else if reason == REASON_PROXY_DISABLED then "network proxy is disabled"
  else "Request blocked by network policy.".

Definition blocked_text_response (reason : string) : Response :=
  mkResponse 403 [("content-type", "text/plain"); ("x-proxy-error", blocked_header_value reason)]
    (TextBody (blocked_message reason)).

Record PolicyDecisionDetails := mkDetails {
  pd_decision : NetworkPolicyDecision;
  pd_reason : string;
  pd_source : NetworkDecisionSource;
  pd_protocol : NetworkProtocol;
  pd_host : string;
  pd_port : N
}.

Definition blocked_message_with_policy (reason : string) (_ : PolicyDecisionDetails) : string := blocked_message reason.

Definition blocked_text_response_with_policy (reason : string) (details : PolicyDecisionDetails) : Response :=
  mkResponse 403 [("content-type", "text/plain"); ("x-proxy-error", blocked_header_value reason)]
    (TextBody (blocked_message_with_policy reason details)).

(** [BlockedResponse] leaves out what is not known. *)
Definition json_field (name : string) (v : option Value) : list (string * Value) :=
  match v with Some v => [(name, v)] | None => [] end.

Definition json_blocked (host reason : string) (details : option PolicyDecisionDetails) : Response :=
  mkResponse 403 [("content-type", "application/json"); ("x-proxy-error", blocked_header_value reason)]
    (JsonBody (VObject
      ([("status", VString "blocked"); ("host", VString host); ("reason", VString reason)]
       ++ json_field "decision" ((λ d, VString (policy_decision_as_str (pd_decision d))) <$> details)
       ++ json_field "source" ((λ d, VString (source_as_str (pd_source d))) <$> details)
       ++ json_field "protocol" ((λ d, VString (as_policy_protocol (pd_protocol d))) <$> details)
       ++ json_field "port" ((λ d, value_of_u64 (pd_port d)) <$> details)
       ++ json_field "message" ((λ d, VString (blocked_message_with_policy reason d)) <$> details)))).

Definition internal_error : Response := text_response 500 "error".

(** ** The HTTP stack (rama)

    Hosts of requests are values with a text and an equality; a request has a
    context with its target, or none; the typed [Host] header may be absent or
    malformed ([None]); the address of a proxy comes with whether its protocol
    is absent or HTTP. *)
Record RequestContext (H : Type) := mkContext {
  rc_host : H;
  rc_port : option N;
  rc_target_port : N;
  rc_has_default_port : bool
}.
Arguments mkContext {H} _ _ _ _.
Arguments rc_host {H} _.
Arguments rc_port {H} _.
Arguments rc_target_port {H} _.
Arguments rc_has_default_port {H} _.

Inductive UpstreamClient := EnvProxyClient | DirectClient | UnixSocketClient (path : string).

Class RamaLib := {
  RamaHost : Type;
  host_display : RamaHost → string;
  host_eqb : RamaHost → RamaHost → bool;
  request_context : Request → option (RequestContext RamaHost);
  host_header : Request → option (option (RamaHost * option N));
  uri_from : string → option Uri;
  proxy_address_from : string → option (string * bool)
}.

(** The result of handling a request: an answer of the proxy itself, or the
    request as it is handed to a client that contacts the server. *)
Inductive Handled := Respond (r : Response) | Upstream (client : UpstreamClient) (req : Request).

(** A CONNECT that was accepted, with what the tunnel is told. *)
Record ConnectAccepted := mkAccepted {
  ca_host : string;
  ca_port : N;
  ca_mitm_enabled : bool;
  ca_mode : NetworkMode;
  ca_mitm : option MitmState
}.

Inductive Tunnel :=
| MitmTunnel (host : string) (port : N) (m : NetworkMode) (s : MitmState)
| ForwardTunnel (host : string) (port : N) (proxy : option string).

(** A SOCKS request ends with a connection to the target or an error. *)
Inductive SocksOutcome := SocksDial (host : string) (port : N) | SocksError (msg : string).

Inductive UdpOutcome := Relay (payload : string) | UdpError (msg : string).

Inductive MitmPolicyDecision := MitmAllow (hook_actions : option MitmHookActions) | MitmBlock (r : Response).

(** Requests to the server through the interception. *)
Inductive MitmHandled := MitmRespond (r : Response) | MitmUpstream (upstream : MitmUpstreamConfig) (req : Request).

Record MitmPolicyContext := mkMitmContext { target_host : string; target_port : N; mc_mode : NetworkMode }.

(** ** Proxies of the environment (upstream.rs) *)

Record ProxyConfig := mkProxyConfig { px_http : option string; px_https : option string; px_all : option string }.

(** [Option::or_else]. *)
Definition or_else {A} (a b : option A) : option A := match a with Some _ => a | None => b end.

Definition proxy_for_protocol (p : ProxyConfig) (is_secure : bool) : option string :=
  if is_secure then or_else (or_else (px_https p) (px_http p)) (px_all p) else or_else (px_http p) (px_all p).

Section environment.
Context `{NetEnv} `{RamaLib}.

Fixpoint read_proxy_env (t : nat) (keys : list string) : option string :=
  match keys with
  | [] => None
  | key :: keys =>
      match env_var_at t key with
      | None => read_proxy_env t keys
      | Some value =>
          let value := trim value in
          if str_is_empty value then read_proxy_env t keys
          else match proxy_address_from value with
               | Some (proxy, true) => Some proxy
               | _ => read_proxy_env t keys
               end
      end
  end.

Definition proxy_config_from_env (t : nat) : ProxyConfig :=
  mkProxyConfig (read_proxy_env t ["HTTP_PROXY"; "http_proxy"]) (read_proxy_env t ["HTTPS_PROXY"; "https_proxy"])
    (read_proxy_env t ["ALL_PROXY"; "all_proxy"]).

Definition proxy_for_connect (t : nat) : option string := proxy_for_protocol (proxy_config_from_env t) true.
End environment.

Section handlers.
Context `{Unicode} `{HostDirs} `{NetLibs} `{HttpLib} `{HashOrder} `{HE : NetEnv} `{!NetObserver} `{RamaLib}.

Abbreviation Handler := (Proc NetWorld) (only parsing).

(** ** The audit trail *)

Definition emit_policy_audit_event (e : AuditEvent) : Handler () :=
  atomic (λ w, (Ok (), mkNetWorld _ (nw_state w) (nw_observer w) (nw_audit w ++ [e]) (nw_tick w) (nw_ext w))).

Definition emit_non_domain_policy_decision_audit_event (args : BlockDecisionAuditEventArgs) (decision : string) : Handler () :=
  emit_policy_audit_event
    (mkAudit "non_domain" decision (source_as_str (aa_source args)) (aa_reason args) (as_policy_protocol (aa_protocol args))
       (aa_server_address args) (aa_server_port args) (default "none" (aa_method args)) (default "unknown" (aa_client_addr args)) false).

Definition emit_block_decision_audit_event (args : BlockDecisionAuditEventArgs) : Handler () :=
  emit_non_domain_policy_decision_audit_event args "deny".

Definition emit_allow_decision_audit_event (args : BlockDecisionAuditEventArgs) : Handler () :=
  emit_non_domain_policy_decision_audit_event args "allow".

(** ** The decision for a host *)

(** What decides about hosts that are not on the list; it may change the state. *)
Definition NetworkPolicyDecider := NetworkPolicyRequest → Handler NetworkDecision.

Definition audit_fields (decision : NetworkDecision) (policy_override : bool) : string * NetworkDecisionSource * string :=
  match decision with
  | Allow => ("allow", if policy_override then Decider else BaselinePolicy,
              if policy_override then block_reason_as_str NotAllowed else "allow")
  | Deny reason source decision => (policy_decision_as_str decision, source, reason)
  end.

Definition evaluate_host_policy (decider : option NetworkPolicyDecider) (request : NetworkPolicyRequest) : Handler NetworkDecision :=
  host_decision ← host_blocked (pr_host request) (pr_port request);
  '(decision, policy_override) ←
    match host_decision with
    | Allowed => mret (Allow, false)
    | Blocked NotAllowed =>
        match decider with
        | Some decide =>
            d ← decide request;
            let decider_decision := map_decider_decision d in
            mret (decider_decision, match decider_decision with Allow => true | _ => false end)
        | None => mret (deny_with_source (block_reason_as_str NotAllowed) BaselinePolicy, false)
        end
    | Blocked reason => mret (deny_with_source (block_reason_as_str reason) BaselinePolicy, false)
    end;
  let '(policy_decision, source, reason) := audit_fields decision policy_override in
  _ ← emit_policy_audit_event
        (mkAudit "domain" policy_decision (source_as_str source) reason (as_policy_protocol (pr_protocol request))
           (pr_host request) (pr_port request) (default "none" (pr_method request)) (default "unknown" (pr_client_addr request))
           policy_override);
  mret decision.

(** ** Connecting to an address (connect_policy.rs) *)

Inductive TargetPolicy := PolicyConfig (allow_local_binding : bool) | PolicyState.

Definition policy_allow_local_binding (p : TargetPolicy) : Handler bool :=
  match p with PolicyConfig allow => mret allow | PolicyState => is_local_binding_allowed end.

(** The address is connected to, or the error. *)
Definition checked_connect (p : TargetPolicy) (addr : SocketAddr) : Handler (SocketAddr + string) :=
  r ← attempt (policy_allow_local_binding p);
  match r with
  | Ok allow =>
      if negb allow && is_non_public_ip (sa_ip addr) then mret (inr "network target rejected by policy") else mret (inl addr)
  | Err e => mret (inr ("read network proxy config: " +:+ e))
  | Panic => plift Panic
  end.

(** ** Shared steps *)

(** [.map_err(..)?] and [let _ = ..]. *)
Definition or_reply {A B} (p : Handler A) (reply : B) (k : A → Handler B) : Handler B :=
  r ← attempt p;
  match r with Ok a => k a | _ => mret reply end.

Definition note_blocked (args : BlockedRequestArgs) : Handler () :=
  entry ← blocked_request_new args;
  _ ← attempt (record_blocked entry);
  mret ().

(** The arguments of the record of a refusal with its details. *)
Definition blocked_args (details : PolicyDecisionDetails) (client method : option string) (m : option NetworkMode)
    (protocol : string) : BlockedRequestArgs :=
  mkBlockedArgs (pd_host details) (pd_reason details) client method m protocol
    (Some (policy_decision_as_str (pd_decision details))) (Some (source_as_str (pd_source details))) (Some (pd_port details)).

Definition proxy_disabled_response (host : string) (port : N) (client method : option string) (protocol : NetworkProtocol)
    (audit_endpoint_override : option (string * N)) : Handler Response :=
  let '(address, audit_port) := default (host, port) audit_endpoint_override in
  _ ← emit_block_decision_audit_event (mkAuditArgs ProxyState REASON_PROXY_DISABLED protocol address audit_port method client);
  _ ← note_blocked (mkBlockedArgs host REASON_PROXY_DISABLED client method None (as_policy_protocol protocol)
                      (Some "deny") (Some "proxy_state") (Some port));
  let details := mkDetails PolicyDeny REASON_PROXY_DISABLED ProxyState protocol host port in
  mret (text_response 503 (blocked_message_with_policy REASON_PROXY_DISABLED details)).

(** ** CONNECT (http_proxy.rs) *)

Definition http_connect_accept (policy_decider : option NetworkPolicyDecider) (req : Request) :
    Handler (ConnectAccepted + Response) :=
  match request_context req with
  | None => mret (inr (text_response 400 "missing authority"))
  | Some ctx =>
      let host := normalize_host (host_display (rc_host ctx)) in
      let port := rc_target_port ctx in
      if str_is_empty host then mret (inr (text_response 400 "invalid host"))
      else
        let client := req_peer req in
        let connect := Some "CONNECT" in
        or_reply is_enabled (inr internal_error) (λ enabled,
          if negb enabled then r ← proxy_disabled_response host port client connect HttpsConnect None; mret (inr r)
          else
            or_reply (evaluate_host_policy policy_decider (mkPolicyRequest HttpsConnect host port client connect None None))
              (inr (text_response 500 "error")) (λ decision,
              match decision with
              | Deny reason source decision =>
                  let details := mkDetails decision reason source HttpsConnect host port in
                  _ ← note_blocked (blocked_args details client connect None "http-connect");
                  mret (inr (blocked_text_response_with_policy reason details))
              | Allow =>
                  or_reply network_mode (inr internal_error) (λ m,
                  or_reply mitm_state (inr (text_response 500 "error")) (λ mitm,
                  or_reply (host_has_mitm_hooks host) (inr (text_response 500 "error")) (λ has_hooks,
                    let connect_needs_mitm := bool_decide (m = Limited) || has_hooks in
                    if connect_needs_mitm && bool_decide (mitm = None) then
                      _ ← emit_block_decision_audit_event (mkAuditArgs ModeGuard REASON_MITM_REQUIRED HttpsConnect host port connect client);
                      let details := mkDetails PolicyDeny REASON_MITM_REQUIRED ModeGuard HttpsConnect host port in
                      _ ← note_blocked (blocked_args details client connect (Some m) "http-connect");
                      mret (inr (blocked_text_response_with_policy REASON_MITM_REQUIRED details))
                    else mret (inl (mkAccepted (host_display (rc_host ctx)) port connect_needs_mitm m
                                      (if connect_needs_mitm then mitm else None))))))
              end))
  end.

(** The tunnel of an accepted CONNECT. *)
Definition http_connect_proxy (accepted : ConnectAccepted) : Handler Tunnel :=
  match (if ca_mitm_enabled accepted then ca_mitm accepted else None) with
  | Some s => mret (MitmTunnel (normalize_host (ca_host accepted)) (ca_port accepted) (ca_mode accepted) s)
  | None =>
      r ← attempt is_upstream_proxy_allowed;
      let allow := match r with Ok allowed => allowed | _ => false end in
      t ← next_tick;
      mret (ForwardTunnel (ca_host accepted) (ca_port accepted) (if allow then proxy_for_connect t else None))
  end.
(** ** Plain requests *)

Definition mismatched_host : string := "Host header does not match request target".

(** The error of a [Host] header that does not name the target. *)
Definition validate_absolute_form_host_header (req : Request) (ctx : RequestContext RamaHost) : option string :=
  match uri_scheme (req_uri req) with
  | None => None
  | Some _ =>
      match host_header req with
      | None => Some "invalid Host header"
      | Some None => None
      | Some (Some (host, port)) =>
          if negb (host_eqb host (rc_host ctx)) then Some mismatched_host
          else match port with
               | Some port => if negb (bool_decide (Some port = rc_port ctx)) then Some mismatched_host else None
               | None => if negb (rc_has_default_port ctx) then Some mismatched_host else None
               end
      end
  end.

Definition connection_tokens (raw_connection : string) : list string :=
  List.filter (λ token, negb (str_is_empty token)) (map trim (split_char ","%char raw_connection)).

Definition remove_token (headers : HeaderMap) (token : string) : HeaderMap :=
  match header_name_from token with inl name => header_remove name headers | inr _ => headers end.

(** Every round removes a [connection] header. *)
Fixpoint remove_connection_headers (fuel : nat) (headers : HeaderMap) : HeaderMap :=
  match fuel, header_get headers "connection" with
  | S fuel, Some raw_connection =>
      let headers := header_remove "connection" headers in
      remove_connection_headers fuel
        (match header_value_to_str raw_connection with
         | Some raw_connection => fold_left remove_token (connection_tokens raw_connection) headers
         | None => headers
         end)
  | _, _ => headers
  end.

Definition HOP_BY_HOP : list string :=
  ["keep-alive"; "proxy-connection"; "proxy-authorization"; "trailer"; "transfer-encoding"; "upgrade"; "te"].

Definition remove_hop_by_hop_request_headers (headers : HeaderMap) : HeaderMap :=
  fold_left (λ headers name, header_remove name headers) HOP_BY_HOP (remove_connection_headers (length headers) headers).

Definition set_headers (headers : HeaderMap) (req : Request) : Request :=
  mkRequest (req_method req) (req_uri req) headers (req_body req) (req_peer req).

Definition set_uri (uri : Uri) (req : Request) : Request :=
  mkRequest (req_method req) uri (req_headers req) (req_body req) (req_peer req).

Definition path_and_query (uri : Uri) : string := default "/" (uri_path_and_query uri).

Definition proxy_via_unix_socket (req : Request) (socket_path : string) : Handled :=
  match uri_from (path_and_query (req_uri req)) with
  | None => Respond (text_response 502 "unix socket proxy failed")
  | Some uri =>
      let headers := remove_hop_by_hop_request_headers (header_remove "x-unix-socket" (req_headers req)) in
      Upstream (UnixSocketClient socket_path) (set_headers headers (set_uri uri req))
  end.

Definition unix_socket_audit (source : NetworkDecisionSource) (reason : string) (req : Request) : BlockDecisionAuditEventArgs :=
  mkAuditArgs source reason Http "unix-socket" 0 (Some (req_method req)) (req_peer req).

Definition unix_socket_request (method_allowed : bool) (unix_socket_header : string) (req : Request) : Handler Handled :=
  match header_value_to_str unix_socket_header with
  | None => mret (Respond (text_response 400 "invalid x-unix-socket header"))
  | Some socket_path =>
      or_reply is_enabled (Respond internal_error) (λ enabled,
        if negb enabled then
          r ← proxy_disabled_response socket_path 0 (req_peer req) (Some (req_method req)) Http (Some ("unix-socket", 0%N));
          mret (Respond r)
        else if negb method_allowed then
          _ ← emit_block_decision_audit_event (unix_socket_audit ModeGuard REASON_METHOD_NOT_ALLOWED req);
          mret (Respond (json_blocked "unix-socket" REASON_METHOD_NOT_ALLOWED None))
        else if negb unix_socket_permissions_supported then
          _ ← emit_block_decision_audit_event (unix_socket_audit ProxyState REASON_UNIX_SOCKET_UNSUPPORTED req);
          mret (Respond (text_response 501 "unix sockets unsupported"))
        else
          or_reply (is_unix_socket_allowed socket_path) (Respond (text_response 500 "error")) (λ allowed,
            if allowed : bool then
              _ ← emit_allow_decision_audit_event (unix_socket_audit ProxyState "allow" req);
              mret (proxy_via_unix_socket req socket_path)
            else
              _ ← emit_block_decision_audit_event (unix_socket_audit ProxyState REASON_NOT_ALLOWED req);
              mret (Respond (json_blocked "unix-socket" REASON_NOT_ALLOWED None))))
  end.

Definition http_plain_proxy (policy_decider : option NetworkPolicyDecider) (req : Request) : Handler Handled :=
  let client := req_peer req in
  let method := Some (req_method req) in
  or_reply (method_allowed (req_method req)) (Respond internal_error) (λ method_allowed,
    match header_get (req_headers req) "x-unix-socket" with
    | Some unix_socket_header => unix_socket_request method_allowed unix_socket_header req
    | None =>
        match request_context req with
        | None => mret (Respond (text_response 400 "missing host"))
        | Some ctx =>
            let host := normalize_host (host_display (rc_host ctx)) in
            let port := rc_target_port ctx in
            match validate_absolute_form_host_header req ctx with
            | Some reason => mret (Respond (text_response 400 reason))
            | None =>
                or_reply is_enabled (Respond internal_error) (λ enabled,
                  if negb enabled then
                    r ← proxy_disabled_response host port client method Http None; mret (Respond r)
                  else
                    or_reply (evaluate_host_policy policy_decider (mkPolicyRequest Http host port client method None None))
                      (Respond (text_response 500 "error")) (λ decision,
                      match decision with
                      | Deny reason source decision =>
                          let details := mkDetails decision reason source Http host port in
                          _ ← note_blocked (blocked_args details client method None "http");
                          mret (Respond (json_blocked host reason (Some details)))
                      | Allow =>
                          if negb method_allowed then
                            _ ← emit_block_decision_audit_event (mkAuditArgs ModeGuard REASON_METHOD_NOT_ALLOWED Http host port method client);
                            let details := mkDetails PolicyDeny REASON_METHOD_NOT_ALLOWED ModeGuard Http host port in
                            _ ← note_blocked (blocked_args details client method (Some Limited) "http");
                            mret (Respond (json_blocked host REASON_METHOD_NOT_ALLOWED (Some details)))
                          else
                            or_reply is_upstream_proxy_allowed (Respond internal_error) (λ allow_upstream_proxy,
                              mret (Upstream (if allow_upstream_proxy : bool then EnvProxyClient else DirectClient)
                                      (set_headers (remove_hop_by_hop_request_headers (req_headers req)) req)))
                      end))
            end
        end
    end).

(** ** SOCKS5 (socks5.rs) *)

Definition policy_denied_error (reason : string) (details : PolicyDecisionDetails) : string :=
  blocked_message_with_policy reason details.

(** A refusal by the proxy's state or mode: audited, recorded, reported. *)
Definition socks_refusal (source : NetworkDecisionSource) (reason : string) (protocol : NetworkProtocol) (host : string) (port : N)
    (client : option string) (m : option NetworkMode) (name : string) : Handler string :=
  _ ← emit_block_decision_audit_event (mkAuditArgs source reason protocol host port None client);
  let details := mkDetails PolicyDeny reason source protocol host port in
  _ ← note_blocked (blocked_args details client None m name);
  mret (policy_denied_error reason details).

Definition handle_socks5_tcp (policy_decider : option NetworkPolicyDecider) (target : string) (port : N) (client : option string) :
    Handler SocksOutcome :=
  let host := normalize_host target in
  let refuse source reason m := msg ← socks_refusal source reason Socks5Tcp host port client m "socks5"; mret (SocksError msg) in
  if str_is_empty host then mret (SocksError "invalid host")
  else
    or_reply is_enabled (SocksError "proxy error") (λ enabled,
      if negb enabled then refuse ProxyState REASON_PROXY_DISABLED None
      else
        or_reply network_mode (SocksError "proxy error") (λ m,
          match m with
          | Limited => refuse ModeGuard REASON_METHOD_NOT_ALLOWED (Some Limited)
          | Full =>
              or_reply (host_has_mitm_hooks host) (SocksError "proxy error") (λ has_hooks,
                if has_hooks : bool then refuse ModeGuard REASON_MITM_REQUIRED (Some Full)
                else
                  or_reply (evaluate_host_policy policy_decider (mkPolicyRequest Socks5Tcp host port client None None None))
                    (SocksError "proxy error") (λ decision,
                    match decision with
                    | Deny reason source decision =>
                        let details := mkDetails decision reason source Socks5Tcp host port in
                        _ ← note_blocked (blocked_args details client None None "socks5");
                        mret (SocksError (policy_denied_error reason details))
                    | Allow => mret (SocksDial target port)
                    end))
          end)).

Definition inspect_socks5_udp (policy_decider : option NetworkPolicyDecider) (server_address : string) (port : N)
    (payload : string) (client : option string) : Handler UdpOutcome :=
  let host := normalize_host server_address in
  let refuse source reason m := msg ← socks_refusal source reason Socks5Udp host port client m "socks5-udp"; mret (UdpError msg) in
  if str_is_empty host then mret (UdpError "invalid host")
  else
    or_reply is_enabled (UdpError "proxy error") (λ enabled,
      if negb enabled then refuse ProxyState REASON_PROXY_DISABLED None
      else
        or_reply network_mode (UdpError "proxy error") (λ m,
          match m with
          | Limited => refuse ModeGuard REASON_METHOD_NOT_ALLOWED (Some Limited)
          | Full =>
              or_reply (evaluate_host_policy policy_decider (mkPolicyRequest Socks5Udp host port client None None None))
                (UdpError "proxy error") (λ decision,
                match decision with
                | Deny reason source decision =>
                    let details := mkDetails decision reason source Socks5Udp host port in
                    _ ← note_blocked (blocked_args details client None None "socks5-udp");
                    mret (UdpError (policy_denied_error reason details))
                | Allow => mret (Relay payload)
                end)
          end)).

(** ** Intercepted requests (mitm.rs) *)

Definition extract_request_host (req : Request) : option string :=
  or_else (v ← header_get (req_headers req) "host"; header_value_to_str v) (uri_authority (req_uri req)).

Definition mitm_blocked_args (policy : MitmPolicyContext) (reason : string) (req : Request) : BlockedRequestArgs :=
  mkBlockedArgs (target_host policy) reason (req_peer req) (Some (req_method req)) (Some (mc_mode policy)) "https"
    None None (Some (target_port policy)).

Definition host_mismatch (req : Request) (policy : MitmPolicyContext) : bool :=
  match extract_request_host req with
  | Some request_host =>
      let normalized := normalize_host request_host in
      negb (str_is_empty normalized) && negb (normalized == target_host policy)
  | None => false
  end.

Definition evaluate_mitm_policy (req : Request) (policy : MitmPolicyContext) : Handler MitmPolicyDecision :=
  let block reason := _ ← note_blocked (mitm_blocked_args policy reason req); mret (MitmBlock (blocked_text_response reason)) in
  if req_method req == "CONNECT" then mret (MitmBlock (text_response 405 "CONNECT not supported inside MITM"))
  else if host_mismatch req policy then mret (MitmBlock (text_response 400 "host mismatch"))
  else
    host_decision ← host_blocked (target_host policy) (target_port policy);
    if bool_decide (host_decision = Blocked NotAllowedLocal) then block (block_reason_as_str NotAllowedLocal)
    else
      hook ← evaluate_mitm_hook_request (target_host policy) req;
      match hook with
      | HookedHostNoMatch => block REASON_MITM_HOOK_DENIED
      | Matched _ | NoHooksForHost =>
          let hook_actions := match hook with Matched actions => Some actions | _ => None end in
          if negb (allows_method (mc_mode policy) (req_method req)) then block REASON_METHOD_NOT_ALLOWED
          else mret (MitmAllow hook_actions)
      end.

Definition apply_mitm_hook_actions (headers : HeaderMap) (actions : option MitmHookActions) : HeaderMap :=
  match actions with
  | None => headers
  | Some actions =>
      let headers := fold_left (λ headers name, header_remove name headers) (strip_request_headers actions) headers in
      fold_left (λ headers injected, header_insert (inj_name injected) (inj_value injected) headers)
        (inject_request_headers actions) headers
  end.

Definition authority_header_value (host : string) (port : N) : string :=
  if str_contains host ":" then
    if (port =? 443)%N then "[" +:+ host +:+ "]" else "[" +:+ host +:+ "]:" +:+ pretty port
  else if (port =? 443)%N then host
  else host +:+ ":" +:+ pretty port.

Definition build_https_uri (authority path : string) : option Uri := uri_from ("https://" +:+ authority +:+ path).

Definition mitm_upstream_error : MitmHandled := MitmRespond (text_response 502 "mitm upstream error").

(** [handle_mitm_request] around [forward_request]: errors become an answer. *)
Definition handle_mitm_request (req : Request) (policy : MitmPolicyContext) (s : MitmState) : Handler MitmHandled :=
  or_reply (evaluate_mitm_policy req policy) mitm_upstream_error (λ decision,
    match decision with
    | MitmBlock response => mret (MitmRespond response)
    | MitmAllow hook_actions =>
        let headers := apply_mitm_hook_actions (req_headers req) hook_actions in
        let authority := authority_header_value (target_host policy) (target_port policy) in
        match build_https_uri authority (path_and_query (req_uri req)), header_value_error authority with
        | Some uri, None =>
            mret (MitmUpstream (ms_upstream s) (set_headers (header_insert "host" authority headers) (set_uri uri req)))
        | _, _ => mret mitm_upstream_error
        end
    end).
End handlers.
