(* ===== verification/NetworkFacts.v ===== *)
(** * Facts about the network proxy

    Which addresses are public, which hosts a list of patterns covers, what the
    administrator's constraints guarantee, what every interleaving of operations
    keeps, and what a handler has checked when it contacts a server. *)

From Stdlib Require Import ZifyBool.
From S2P Require Import Prelude RustStr Json Lifecycle Os AbsPath Proc NetPolicy NetworkProxy ProxyHandlers.

(** ** Addresses *)

Definition v4_wf (ip : Ipv4Addr) : Prop := (ip_a ip < 256 ∧ ip_b ip < 256 ∧ ip_c ip < 256 ∧ ip_d ip < 256)%N.

(** The special-purpose ranges, as first and last address. *)
Definition special_ranges : list (Ipv4Addr * Ipv4Addr) :=
  [ (mkIpv4 0 0 0 0, mkIpv4 0 255 255 255);
    (mkIpv4 10 0 0 0, mkIpv4 10 255 255 255);
    (mkIpv4 100 64 0 0, mkIpv4 100 127 255 255);
    (mkIpv4 127 0 0 0, mkIpv4 127 255 255 255);
    (mkIpv4 169 254 0 0, mkIpv4 169 254 255 255);
    (mkIpv4 172 16 0 0, mkIpv4 172 31 255 255);
    (mkIpv4 192 0 0 0, mkIpv4 192 0 0 255);
    (mkIpv4 192 0 2 0, mkIpv4 192 0 2 255);
    (mkIpv4 192 168 0 0, mkIpv4 192 168 255 255);
    (mkIpv4 198 18 0 0, mkIpv4 198 19 255 255);
    (mkIpv4 198 51 100 0, mkIpv4 198 51 100 255);
    (mkIpv4 203 0 113 0, mkIpv4 203 0 113 255);
    (mkIpv4 224 0 0 0, mkIpv4 255 255 255 255) ].

Definition between (ip lo hi : Ipv4Addr) : bool := (v4_to_u32 lo <=? v4_to_u32 ip)%N && (v4_to_u32 ip <=? v4_to_u32 hi)%N.

Definition in_special_range (ip : Ipv4Addr) : bool := existsb (λ '(lo, hi), between ip lo hi) special_ranges.

Lemma v4_to_u32_bound ip : v4_wf ip → (v4_to_u32 ip < 2 ^ 32)%N.
Proof. intros (? & ? & ? & ?). unfold v4_to_u32. lia. Qed.

(** Masking the low bits away is division. *)
Lemma land_mask x k : (x < 2 ^ 32)%N → (k <= 32)%N → N.land x (N.land (N.shiftl u32_max k) u32_max) = (x / 2 ^ k * 2 ^ k)%N.
Proof.
  intros Hx Hk. rewrite <- N.shiftr_div_pow2, <- N.shiftl_mul_pow2. change u32_max with (N.ones 32).
  apply N.bits_inj. intros n. rewrite !N.land_spec. destruct (N.lt_ge_cases n k) as [Hn|Hn].
  - rewrite !N.shiftl_spec_low by done. by rewrite andb_false_r.
  - rewrite !N.shiftl_spec_high' by done. rewrite N.shiftr_spec'. replace (n - k + k)%N with n by lia.
    destruct (N.lt_ge_cases n 32) as [H32|H32].
    + rewrite !N.ones_spec_low by lia. by rewrite !andb_true_r.
    + rewrite (N.ones_spec_high 32 n) by done. rewrite !andb_false_r. destruct (N.eq_dec x 0%N) as [->|H0]; [by rewrite N.bits_0|].
      symmetry. apply N.bits_above_log2. apply N.log2_lt_pow2 in Hx; lia.
Qed.

(** A block of addresses is an interval. *)
Lemma cidr_interval ip base prefix : v4_wf ip → v4_wf base → (0 < prefix <= 32)%N →
  ipv4_in_cidr ip base prefix = (v4_to_u32 ip / 2 ^ (32 - prefix) =? v4_to_u32 base / 2 ^ (32 - prefix))%N.
Proof.
  intros Hi Hb Hp. unfold ipv4_in_cidr. destruct (N.eqb_spec prefix 0); [lia|].
  rewrite !land_mask by (try apply v4_to_u32_bound; done || lia).
  assert (2 ^ (32 - prefix) ≠ 0)%N by (apply N.pow_nonzero; lia). apply eq_true_iff_eq. rewrite !N.eqb_eq.
  split; [|by intros ->]. intros E. by apply N.mul_cancel_r in E.
Qed.

Lemma div_interval x m q : (0 < m)%N → (x / m =? q)%N = (q * m <=? x)%N && (x <? (q + 1) * m)%N.
Proof.
  intros Hm. apply eq_true_iff_eq. rewrite N.eqb_eq, andb_true_iff, N.leb_le, N.ltb_lt. split.
  - intros <-. assert (m ≠ 0)%N as H0 by lia. generalize (N.div_mod x m H0), (N.mod_lt x m H0).
    generalize (x / m)%N, (x mod m)%N. intros; split; nia.
  - intros [H1 H2]. symmetry. apply (N.div_unique _ _ _ (x - q * m)); nia.
Qed.

Lemma cidr_between ip base hi prefix : v4_wf ip → v4_wf base → (0 < prefix <= 32)%N →
  (v4_to_u32 base mod 2 ^ (32 - prefix) = 0 ∧ v4_to_u32 hi + 1 = v4_to_u32 base + 2 ^ (32 - prefix))%N →
  ipv4_in_cidr ip base prefix = between ip base hi.
Proof.
  intros Hi Hb Hp [Hm Hh]. rewrite cidr_interval by done. assert (2 ^ (32 - prefix) ≠ 0)%N as H0 by (apply N.pow_nonzero; lia).
  rewrite div_interval by lia. pose proof (N.div_mod (v4_to_u32 base) _ H0) as E. rewrite Hm in E. unfold between.
  apply eq_true_iff_eq. rewrite !andb_true_iff, !N.leb_le, N.ltb_lt. nia.
Qed.

Lemma loopback_between ip : v4_wf ip → v4_is_loopback ip = between ip (mkIpv4 127 0 0 0) (mkIpv4 127 255 255 255).
Proof. intros (? & ? & ? & ?). unfold between, v4_is_loopback, v4_to_u32. cbn [ip_a ip_b ip_c ip_d]. lia. Qed.

Lemma link_local_between ip : v4_wf ip → v4_is_link_local ip = between ip (mkIpv4 169 254 0 0) (mkIpv4 169 254 255 255).
Proof. intros (? & ? & ? & ?). unfold between, v4_is_link_local, v4_to_u32. cbn [ip_a ip_b ip_c ip_d]. lia. Qed.

Lemma private_between ip : v4_wf ip →
  v4_is_private ip = between ip (mkIpv4 10 0 0 0) (mkIpv4 10 255 255 255) || between ip (mkIpv4 172 16 0 0) (mkIpv4 172 31 255 255)
                     || between ip (mkIpv4 192 168 0 0) (mkIpv4 192 168 255 255).
Proof.
  intros (? & ? & ? & ?). unfold between, v4_is_private, v4_to_u32. cbn [ip_a ip_b ip_c ip_d].
  f_equal; [f_equal|]; lia.
Qed.

Lemma high_between ip : v4_wf ip →
  v4_is_multicast ip || v4_is_broadcast ip || between ip (mkIpv4 240 0 0 0) (mkIpv4 255 255 255 255)
  = between ip (mkIpv4 224 0 0 0) (mkIpv4 255 255 255 255).
Proof. intros (? & ? & ? & ?). unfold between, v4_is_multicast, v4_is_broadcast, v4_to_u32. cbn [ip_a ip_b ip_c ip_d]. lia. Qed.

Lemma unspecified_between ip : v4_wf ip →
  v4_is_unspecified ip || between ip (mkIpv4 0 0 0 0) (mkIpv4 0 255 255 255) = between ip (mkIpv4 0 0 0 0) (mkIpv4 0 255 255 255).
Proof. intros (? & ? & ? & ?). unfold between, v4_is_unspecified, v4_to_u32. cbn [ip_a ip_b ip_c ip_d]. lia. Qed.

(** The address check knows exactly the special-purpose ranges. *)
Lemma non_public_ipv4_ranges ip : v4_wf ip → is_non_public_ipv4 ip = in_special_range ip.
Proof.
  intros Hip. unfold is_non_public_ipv4, in_special_range, special_ranges. cbn [existsb].
  pose proof (high_between ip Hip) as Hh. pose proof (unspecified_between ip Hip) as Hu.
  rewrite loopback_between, link_local_between, private_between by done.
  rewrite (cidr_between ip (mkIpv4 0 0 0 0) (mkIpv4 0 255 255 255)), (cidr_between ip (mkIpv4 100 64 0 0) (mkIpv4 100 127 255 255)),
    (cidr_between ip (mkIpv4 192 0 0 0) (mkIpv4 192 0 0 255)), (cidr_between ip (mkIpv4 192 0 2 0) (mkIpv4 192 0 2 255)),
    (cidr_between ip (mkIpv4 198 18 0 0) (mkIpv4 198 19 255 255)), (cidr_between ip (mkIpv4 198 51 100 0) (mkIpv4 198 51 100 255)),
    (cidr_between ip (mkIpv4 203 0 113 0) (mkIpv4 203 0 113 255)), (cidr_between ip (mkIpv4 240 0 0 0) (mkIpv4 255 255 255 255))
    by (done || (unfold v4_wf; cbn; lia)).
  rewrite <- Hh, <- Hu, orb_false_r.
  apply eq_true_iff_eq. rewrite !orb_true_iff. tauto.
Qed.

(** What the parser reads is an address. *)
Definition ip_wf (ip : IpAddr) : Prop :=
  match ip with
  | V4 ip => v4_wf ip
  | V6 ip => length (segments ip) = 8%nat ∧ Forall (λ g, g < 65536)%N (segments ip)
  end.

Lemma read_number_max radix digits zero max s n rest : read_number radix digits zero max s = Some (n, rest) → (n <= max)%N.
Proof.
  unfold read_number. destruct (read_digits _ _ _ _ _) as [[[r k] t]|]; [|done]. repeat case_match; try done.
  intros [= <- <-]. lia.
Qed.

Lemma read_separator_inner {A} sep i (inner : Reader A) s a rest : read_separator sep i inner s = Some (a, rest) → ∃ s', inner s' = Some (a, rest).
Proof. destruct i; cbn; [by exists s|]. destruct (read_given_char sep s) as [[? s']|]; cbn; [by exists s'|done]. Qed.

Lemma read_octet_max i s n rest : read_octet i s = Some (n, rest) → (n < 256)%N.
Proof. intros (s' & H)%read_separator_inner. apply read_number_max in H. lia. Qed.

Lemma read_ipv4_wf s ip rest : read_ipv4_addr s = Some (ip, rest) → v4_wf ip.
Proof.
  unfold read_ipv4_addr. destruct (read_octet 0 s) as [[a s1]|] eqn:Ea; [|done]. cbn [mbind option_bind].
  destruct (read_octet 1 s1) as [[b s2]|] eqn:Eb; [|done]. cbn [mbind option_bind].
  destruct (read_octet 2 s2) as [[c s3]|] eqn:Ec; [|done]. cbn [mbind option_bind].
  destruct (read_octet 3 s3) as [[d s4]|] eqn:Ed; [|done]. intros [= <- <-].
  repeat split; cbn; by eapply read_octet_max.
Qed.

Lemma read_groups_wf left i s groups v4 rest : read_groups left i s = (groups, v4, rest) →
  (length groups <= left)%nat ∧ Forall (λ g, g < 65536)%N groups.
Proof.
  revert i s groups v4 rest. induction left as [|left IH]; intros i s groups v4 rest; cbn [read_groups]; [intros [= <- <- <-]; by repeat constructor|].
  destruct (if (0 <? left)%nat then _ else _) as [[[a b c d] r]|] eqn:E4.
  - intros [= <- <- <-]. destruct (Nat.ltb_spec 0 left); [|done].
    apply read_separator_inner in E4 as (s' & (? & ? & ? & ?)%read_ipv4_wf). cbn in *. split; [lia|].
    repeat constructor; unfold be16; lia.
  - clear E4. destruct (read_separator _ _ (read_number _ _ _ _) s) as [[g r]|] eqn:En.
    + destruct (read_groups left (S i) r) as [[gs v] r'] eqn:Er. intros [= <- <- <-]. apply IH in Er as [Hl Hf].
      apply read_separator_inner in En as (s' & Hn%read_number_max). cbn. split; [lia|]. constructor; [lia|done].
    + intros [= <- <- <-]. cbn. split; [lia|constructor].
Qed.

Lemma parse_ip_wf s ip : parse_ip s = Some ip → ip_wf ip.
Proof.
  unfold parse_ip, read_ip_addr. destruct (read_ipv4_addr s) as [[v4 r]|] eqn:E4.
  { destruct r; [|done]. intros [= <-]. by eapply read_ipv4_wf. }
  clear E4. unfold read_ipv6_addr. destruct (read_groups 8 0 s) as [[head v4] r] eqn:Eh. apply read_groups_wf in Eh as [Hl Hf].
  destruct (Nat.eqb_spec (length head) 8) as [E8|E8]; cbn.
  { destruct r; [|done]. intros [= <-]. done. }
  destruct v4; [done|]. destruct (read_given_char _ r) as [[? r1]|]; cbn; [|done].
  destruct (read_given_char _ r1) as [[? r2]|]; cbn; [|done].
  destruct (read_groups (8 - (length head + 1)) 0 r2) as [[tail v] r3] eqn:Et. apply read_groups_wf in Et as [Hlt Hft]. cbn.
  destruct r3; [|done]. intros [= <-]. cbn. rewrite !length_app, repeat_length. split; [lia|].
  apply Forall_app. split; [done|]. apply Forall_app. split; [|done]. by apply Forall_forall; intros g ->%list_elem_of_In%repeat_spec.
Qed.

(** ** Domain patterns *)

Lemma ends_with_spec s p : str_ends_with s p = true ↔ ∃ u, s = u +:+ p.
Proof.
  unfold str_ends_with. rewrite andb_true_iff, Nat.leb_le. split.
  - intros [Hl E%String.eqb_eq]. exists (str_take (String.length s - String.length p) s). rewrite <- E at 2. by rewrite str_take_drop.
  - intros [u ->]. rewrite str_length_app. split; [lia|]. replace (String.length u + String.length p - String.length p)%nat with (String.length u) by lia.
    rewrite str_drop_app. apply str_eqb_refl.
Qed.

(** The hosts of a pattern by the comparisons of the code; [covers_spec] says
    which they are. *)
Definition covers (p : DomainPattern) (h : string) : bool :=
  match p with
  | Exact d => domain_eq h d
  | SubdomainsOnly d => is_strict_subdomain h d
  | ApexAndSubdomains d => is_subdomain_or_equal h d
  end.

Definition below (h d : string) : Prop := ∃ u, normalize_domain h = u +:+ "." +:+ normalize_domain d.

Lemma strict_subdomain_spec h d : is_strict_subdomain h d = true ↔ below h d.
Proof.
  unfold is_strict_subdomain, below. rewrite andb_true_iff, ends_with_spec. split; [by intros [_ ?]|]. intros [u E]. split; [|by exists u].
  apply negb_true_iff, String.eqb_neq. intros E'. rewrite E' in E. apply (f_equal String.length) in E. rewrite !str_length_app in E. cbn in E. lia.
Qed.

Lemma subdomain_or_equal_spec h d : is_subdomain_or_equal h d = true ↔ normalize_domain h = normalize_domain d ∨ below h d.
Proof.
  unfold is_subdomain_or_equal, below. destruct (String.eqb_spec (normalize_domain h) (normalize_domain d)) as [->|Hne].
  - split; [by left|done].
  - rewrite ends_with_spec. split; [by right|]. by intros [?|?].
Qed.

Lemma domain_eq_spec h d : domain_eq h d = true ↔ normalize_domain h = normalize_domain d.
Proof. apply String.eqb_eq. Qed.

Lemma below_trans a b c : below a b → below b c → below a c.
Proof. intros [u Ea] [v Eb]. exists (u +:+ "." +:+ v). rewrite Ea, Eb. by rewrite !str_app_assoc. Qed.

Lemma below_eq_l a b c : normalize_domain a = normalize_domain b → below b c → below a c.
Proof. unfold below. by intros ->. Qed.

Lemma below_eq_r a b c : below a b → normalize_domain b = normalize_domain c → below a c.
Proof. unfold below. by intros ? <-. Qed.

(** A candidate that a pattern allows covers no other hosts. *)
Lemma allows_sound p q h : allows p q = true → covers q h = true → covers p h = true.
Proof.
  destruct p, q; cbn; try done;
    rewrite ?strict_subdomain_spec, ?subdomain_or_equal_spec, ?domain_eq_spec; intros H1 H2;
    repeat match goal with H : _ ∨ _ |- _ => destruct H end;
    eauto using below_trans, below_eq_l, below_eq_r, eq_trans.
Qed.

Lemma drop_leading_app c s t : drop_leading c s ≠ "" → drop_leading c (s +:+ t) = drop_leading c s +:+ t.
Proof.
  induction s as [|a s IH]; [done|]. change (String a s +:+ t) with (String a (s +:+ t)). cbn. case_match; [by apply IH|done].
Qed.

Lemma trim_end_char_app c s t : trim_end_char c t ≠ "" → trim_end_char c (s +:+ t) = s +:+ trim_end_char c t.
Proof.
  unfold trim_end_char. intros Ht. rewrite str_rev_append, drop_leading_app.
  - by rewrite str_rev_append, str_rev_involutive.
  - intros E. by rewrite E in Ht.
Qed.

Lemma str_map_app f s t : str_map f (s +:+ t) = str_map f s +:+ str_map f t.
Proof. induction s as [|a s IH]; [done|]. change (str_map f (String a (s +:+ t)) = String (f a) (str_map f s +:+ str_map f t)). cbn. by rewrite IH. Qed.

Lemma normalize_domain_app s d : normalize_domain d ≠ "" → normalize_domain (s +:+ d) = to_ascii_lowercase s +:+ normalize_domain d.
Proof.
  unfold normalize_domain. intros Hd. rewrite trim_end_char_app by (intros E; by rewrite E in Hd). apply str_map_app.
Qed.

Definition pattern_domain (p : DomainPattern) : string :=
  match p with Exact d | SubdomainsOnly d | ApexAndSubdomains d => d end.

Lemma below_label a c : normalize_domain c ≠ "" → below (String a "." +:+ c) c.
Proof. intros Hc. exists (to_ascii_lowercase (String a "")). rewrite normalize_domain_app by done. done. Qed.

Lemma below_of_label a c d : normalize_domain c ≠ "" → ascii_lower a ≠ "."%char → below (String a "." +:+ c) d →
  normalize_domain c = normalize_domain d ∨ below c d.
Proof.
  intros Hc Ha [u E]. rewrite normalize_domain_app in E by done. change (to_ascii_lowercase (String a ".")) with (String (ascii_lower a) ".") in E.
  destruct u as [|b u]; [by injection E|]. injection E as _ E. destruct u as [|b' u]; [injection E as E; by left|].
  injection E as _ E. right. by exists u.
Qed.

Lemma label_not_eq a b c d : normalize_domain c ≠ "" → ascii_lower a ≠ ascii_lower b →
  normalize_domain (String a "." +:+ c) = normalize_domain d → normalize_domain (String b "." +:+ c) = normalize_domain d → False.
Proof. intros Hc Hne. rewrite !normalize_domain_app by done. intros <-. cbn. by intros [=]. Qed.

(** *** What a pattern stands for

    Names are compared without case and without the dots at their end. *)
Definition host_name (h n : string) : Prop :=
  ∃ x dots, h = x +:+ dots ∧ str_forall (Ascii.eqb "."%char) dots = true ∧ (∀ y, x ≠ y +:+ ".") ∧ n = str_map ascii_lower x.

(** The hosts of a pattern: the domain itself, the names that end in a dot and
    the domain, or both. *)
Definition covered (p : DomainPattern) (h : string) : Prop :=
  ∃ n d, host_name h n ∧ host_name (pattern_domain p) d ∧
    let is_apex := n = d in let is_sub := ∃ u, n = u +:+ "." +:+ d in
    match p with
    | Exact _ => is_apex
    | SubdomainsOnly _ => is_sub
    | ApexAndSubdomains _ => is_apex ∨ is_sub
    end.

Lemma drop_leading_spec c s : ∃ t, s = t +:+ drop_leading c s ∧ str_forall (Ascii.eqb c) t = true ∧ ∀ y, drop_leading c s ≠ String c y.
Proof.
  induction s as [|a s (t & E & Ht & Hd)]; [by exists ""|]. cbn [drop_leading]. destruct (Ascii.eqb_spec a c) as [->|Hne].
  - exists (String c t). split; [change (String c s = String c (t +:+ drop_leading c s)); by rewrite <- E|]. split; [|done].
    cbn [str_forall]. by rewrite Ascii.eqb_refl.
  - exists "". split; [done|]. split; [done|]. by intros y [= ->].
Qed.

Lemma drop_leading_run c t s : str_forall (Ascii.eqb c) t = true → (∀ y, s ≠ String c y) → drop_leading c (t +:+ s) = s.
Proof.
  intros Ht Hs. induction t as [|a t IH].
  - destruct s as [|a s]; [done|]. change (drop_leading c (String a s) = String a s). cbn. destruct (Ascii.eqb_spec a c) as [->|]; [by destruct (Hs s)|done].
  - cbn in Ht. apply andb_true_iff in Ht as [<-%Ascii.eqb_eq Ht]. change (drop_leading c (String c (t +:+ s)) = s). cbn. rewrite Ascii.eqb_refl. by apply IH.
Qed.

Lemma str_forall_rev f s : str_forall f (str_rev s) = str_forall f s.
Proof. unfold str_rev. rewrite str_rev_app_forall. cbn. by rewrite andb_true_r. Qed.

Lemma host_name_iff h n : host_name h n ↔ n = normalize_domain h.
Proof.
  split.
  - intros (x & dots & -> & Hd & Hx & ->). unfold normalize_domain, trim_end_char. rewrite str_rev_append, drop_leading_run.
    + by rewrite str_rev_involutive.
    + by rewrite str_forall_rev.
    + intros y E. apply (Hx (str_rev y)). rewrite <- (str_rev_involutive x), E. change (String "." y) with ("." +:+ y). by rewrite str_rev_append.
  - intros ->. destruct (drop_leading_spec "." (str_rev h)) as (t & E & Ht & Hd). exists (trim_end_char "." h), (str_rev t).
    unfold trim_end_char. split; [|split; [by rewrite str_forall_rev|split; [|done]]].
    + by rewrite <- str_rev_append, <- E, str_rev_involutive.
    + intros y Ey. apply (Hd (str_rev y)). rewrite <- (str_rev_involutive (drop_leading _ _)), Ey, str_rev_append. done.
Qed.

Lemma covers_spec p h : covers p h = true ↔ covered p h.
Proof.
  assert (∀ P : string → string → Prop, (∃ n d, host_name h n ∧ host_name (pattern_domain p) d ∧ P n d) ↔
    P (normalize_domain h) (normalize_domain (pattern_domain p))) as Hex.
  { intros P. split; [by intros (n & d & ->%host_name_iff & ->%host_name_iff & ?)|]. intros HP.
    exists (normalize_domain h), (normalize_domain (pattern_domain p)). by rewrite !host_name_iff. }
  unfold covered. rewrite Hex. destruct p as [d|d|d]; cbn; [apply subdomain_or_equal_spec|apply strict_subdomain_spec|apply domain_eq_spec].
Qed.

(** C32. The subset test on patterns is exact: a candidate with a domain that is not
    empty (or only dots) passes if and only if all of its hosts are hosts of the
    managed pattern.  Hosts of a pattern are defined by their text, apart from the
    comparisons of the code. *)
Theorem allows_exact p q : normalize_domain (pattern_domain q) ≠ "" →
  allows p q = true ↔ ∀ h, covered q h → covered p h.
Proof.
  intros Hq. setoid_rewrite <- covers_spec. split; [intros Ha h; by apply allows_sound|]. intros Hall.
  assert (∀ a, below (String a "." +:+ pattern_domain q) (pattern_domain q)) as Hb by (intros a; by apply below_label).
  assert ((∀ c, q ≠ Exact c) → ∀ a, covers p (String a "." +:+ pattern_domain q) = true) as Hlab.
  { intros Hne a. apply Hall. destruct q as [| |c]; [| |by destruct (Hne c)]; cbn in *; rewrite ?subdomain_or_equal_spec, ?strict_subdomain_spec; auto. }
  assert (∀ c, q = Exact c ∨ q = ApexAndSubdomains c → covers p c = true) as Hself.
  { intros c [->| ->]; apply Hall; cbn; [|apply subdomain_or_equal_spec; left]; by rewrite ?domain_eq_spec. }
  destruct q as [c|c|c]; cbn in Hq.
  - destruct p as [d|d|d]; cbn; [by apply (Hself c); right|by apply (Hself c); right|].
    pose proof (Hlab ltac:(done) "a"%char) as H1%domain_eq_spec. pose proof (Hlab ltac:(done) "b"%char) as H2%domain_eq_spec.
    by destruct (label_not_eq "a" "b" c d Hq).
  - pose proof (Hlab ltac:(done) "a"%char) as H1. pose proof (Hlab ltac:(done) "b"%char) as H2.
    destruct p as [d|d|d]; cbn in *; rewrite ?domain_eq_spec, ?strict_subdomain_spec, ?subdomain_or_equal_spec in *.
    + destruct H1 as [H1|H1]; [|by apply (below_of_label "a")]. destruct H2 as [H2|H2]; [|by apply (below_of_label "b")].
      by destruct (label_not_eq "a" "b" c d Hq).
    + by apply (below_of_label "a").
    + by destruct (label_not_eq "a" "b" c d Hq).
  - by destruct p; apply (Hself c); left.
Qed.

(** A managed wildcard and a narrower one. *)
Lemma allows_exact_witness :
  normalize_domain "B.example.com." ≠ "" ∧
  (allows (SubdomainsOnly "example.com") (ApexAndSubdomains "B.example.com.") = true ↔
   ∀ h, covered (ApexAndSubdomains "B.example.com.") h → covered (SubdomainsOnly "example.com") h).
Proof. split; [done|]. by apply (allows_exact (SubdomainsOnly "example.com") (ApexAndSubdomains "B.example.com.")). Defined.

(** ** Compiled sets *)

Section sets.
Context `{HL : NetLibs}.

Definition entry_matches (p h : string) : bool :=
  existsb (λ c, host_glob_match c h) (expand_domain_pattern (normalize_pattern p)).

Definition list_matches (ps : list string) (h : string) : bool := existsb (λ p, entry_matches p h) ps.

Lemma add_candidates_matches cs b b' h : add_candidates cs b = Ok b' →
  existsb (λ c, host_glob_match c h) b' = existsb (λ c, host_glob_match c h) b || existsb (λ c, host_glob_match c h) cs.
Proof.
  revert b. induction cs as [|c cs IH]; intros b; cbn; [intros [= <-]; by rewrite orb_false_r|].
  destruct (existsb (λ seen, seen == c) b) eqn:Es.
  - intros ->%IH. apply existsb_exists in Es as (c' & Hc & E%String.eqb_eq). subst c'.
    destruct (host_glob_match c h) eqn:Em; [|done]. cbn. rewrite orb_true_r.
    rewrite (proj2 (existsb_exists (λ c, host_glob_match c h) b)); [done|by exists c].
  - destruct (host_glob_error c); [done|]. intros ->%IH. rewrite existsb_app. cbn. by rewrite orb_false_r, orb_assoc.
Qed.

Lemma add_patterns_matches ps g b b' h : add_patterns ps g b = Ok b' →
  existsb (λ c, host_glob_match c h) b' = existsb (λ c, host_glob_match c h) b || list_matches ps h.
Proof.
  revert b. induction ps as [|p ps IH]; intros b; cbn; [intros [= <-]; by rewrite orb_false_r|].
  intros H. assert (∃ b1, add_candidates (expand_domain_pattern (normalize_pattern p)) b = Ok b1 ∧ add_patterns ps g b1 = Ok b') as (b1 & E1 & E2).
  { destruct g; [|destruct (is_global_wildcard_domain_pattern p); [done|]]; by apply res_bind_Ok in H. }
  rewrite (IH _ E2), (add_candidates_matches _ _ _ h E1). by rewrite orb_assoc.
Qed.

(** A compiled set matches exactly what its patterns match. *)
Lemma compiled_matches ps g set h : compile_globset_with_policy ps g = Ok set → globset_is_match set h = list_matches ps h.
Proof.
  unfold compile_globset_with_policy. intros (b & Hb & H)%res_bind_Ok. destruct (globset_error b); [done|]. injection H as <-.
  unfold globset_is_match. cbn [globs]. by rewrite (add_patterns_matches _ _ _ _ h Hb).
Qed.

(** Letters, digits and the other characters of host names. *)
Definition domain_char (a : ascii) : bool :=
  is_ascii_digit a || in_range 97 122 a || in_range 65 90 a || (byte a =? 45)%N || (byte a =? 46)%N || (byte a =? 95)%N.

Definition plain_domain (d : string) : bool := str_forall domain_char d.

(** globset on such texts: a text matches itself up to case; [?*.] takes at
    least one byte in front of the dot; [*] takes anything. *)
Class NetLibsLaws : Prop := {
  plain_glob_ok d : plain_domain d = true → host_glob_error d = None;
  plain_glob_match d h : plain_domain d = true → host_glob_match d h = eq_ignore_ascii_case d h;
  sub_glob_match d h : plain_domain d = true →
    host_glob_match ("?*." +:+ d) h = true ↔ ∃ x e, h = x +:+ "." +:+ e ∧ x ≠ "" ∧ eq_ignore_ascii_case d e = true;
  star_glob_match h : host_glob_match "*" h = true
}.
Context `{!NetLibsLaws}.

Lemma domain_char_solid a : domain_char a = true → solid a = true.
Proof. destruct a as [[] [] [] [] [] [] [] []]; vm_compute; congruence. Qed.

Lemma domain_char_lower a : domain_char a = true → domain_char (ascii_lower a) = true.
Proof. destruct a as [[] [] [] [] [] [] [] []]; vm_compute; congruence. Qed.

Lemma ascii_lower_idemp a : ascii_lower (ascii_lower a) = ascii_lower a.
Proof. by destruct a as [[] [] [] [] [] [] [] []]. Qed.

Lemma lower_idemp s : to_ascii_lowercase (to_ascii_lowercase s) = to_ascii_lowercase s.
Proof. unfold to_ascii_lowercase. induction s as [|a s IH]; [done|]. cbn. by rewrite ascii_lower_idemp, IH. Qed.

Lemma plain_lower_domain d : plain_domain d = true → plain_domain (to_ascii_lowercase d) = true.
Proof.
  unfold plain_domain, to_ascii_lowercase. induction d as [|a d IH]; [done|]. cbn. rewrite !andb_true_iff. intros [Ha Hd].
  split; [by apply domain_char_lower|by apply IH].
Qed.

(** Text that begins and ends with solid characters is not trimmed. *)
Lemma solid_trim s : str_forall solid s = true → trim s = s.
Proof.
  intros Hs. unfold trim. assert (trim_start s = s) as ->.
  { destruct s as [|a s]; [done|]. cbn in Hs. apply andb_true_iff in Hs as [Ha _]. by apply trim_start_solid. }
  rewrite <- (str_rev_involutive s). assert (str_forall solid (str_rev s) = true) as Hr.
  { unfold str_rev. rewrite str_rev_app_forall. by rewrite Hs. }
  destruct (str_rev s) as [|a t]; [done|]. cbn in Hr. apply andb_true_iff in Hr as [Ha _].
  unfold trim_end. rewrite str_rev_involutive. by rewrite trim_start_rev_solid.
Qed.

Lemma plain_solid d : plain_domain d = true → str_forall solid d = true.
Proof. apply str_forall_impl, domain_char_solid. Qed.

(** Without a character that is not one of domains. *)
Lemma plain_without d c : domain_char c = false → plain_domain d = true → str_forall (λ a, negb (Ascii.eqb a c)) d = true.
Proof. intros Hc. apply str_forall_impl. intros a Ha. apply negb_true_iff, Ascii.eqb_neq. by intros ->; rewrite Ha in Hc. Qed.

Lemma count_char_absent c s : str_forall (λ a, negb (Ascii.eqb a c)) s = true → count_char c s = 0%nat.
Proof. induction s as [|a s IH]; [done|]. cbn. rewrite andb_true_iff, negb_true_iff. intros [-> ?]. by apply IH. Qed.

Lemma starts_with_absent c s t : str_forall (λ a, negb (Ascii.eqb a c)) s = true → starts_with s (String c t) = false.
Proof.
  intros Hs. destruct (starts_with s (String c t)) eqn:E; [|done]. apply starts_with_spec in E as [r ->].
  change (String c t +:+ r) with (String c (t +:+ r)) in Hs. cbn in Hs. by rewrite Ascii.eqb_refl in Hs.
Qed.

Lemma split_once_absent c s t : str_forall (λ a, negb (Ascii.eqb a c)) s = true → split_once s (String c t) = None.
Proof.
  intros Hs. unfold split_once. destruct (str_find (String c t) s) as [i|] eqn:E; [|done]. exfalso.
  assert (str_contains s (String c "") = true) as Hc.
  { apply str_contains_spec. assert (str_contains s (String c t) = true) as (l & r & ->)%str_contains_spec by (unfold str_contains; by rewrite E).
    exists l, (t +:+ r). done. }
  rewrite str_contains_char, Hs in Hc. done.
Qed.

Lemma drop_leading_lower c s : (∀ a, Ascii.eqb (ascii_lower a) c = Ascii.eqb a c) →
  drop_leading c (to_ascii_lowercase s) = to_ascii_lowercase (drop_leading c s).
Proof. intros Hc. unfold to_ascii_lowercase. induction s as [|a s IH]; [done|]. cbn. rewrite Hc. by case_match. Qed.

Lemma str_rev_map f s : str_rev (str_map f s) = str_map f (str_rev s).
Proof.
  induction s as [|a s IH]; [done|]. change (String a s) with (String a "" +:+ s). rewrite str_map_app, !str_rev_append, str_map_app, IH. done.
Qed.

Lemma trim_end_lower s : trim_end_char "." (to_ascii_lowercase s) = normalize_domain s.
Proof.
  unfold normalize_domain, trim_end_char, to_ascii_lowercase. rewrite str_rev_map. fold (to_ascii_lowercase (str_rev s)).
  rewrite drop_leading_lower; [apply str_rev_map|]. by intros [[] [] [] [] [] [] [] []].
Qed.

Lemma normalize_domain_plain d : plain_domain d = true → plain_domain (normalize_domain d) = true.
Proof. intros Hd. rewrite <- trim_end_lower. apply trim_end_char_forall. by apply plain_lower_domain. Qed.

Lemma normalize_host_plain d : plain_domain d = true → normalize_host d = normalize_domain d.
Proof.
  intros Hd. unfold normalize_host. rewrite solid_trim by (by apply plain_solid).
  rewrite starts_with_absent by (by apply plain_without). rewrite count_char_absent by (by apply plain_without). cbn [Nat.eqb].
  unfold normalize_dns_host_or_ip_literal. rewrite trim_end_lower. unfold normalize_ip_literal. case_match; [done|].
  pose proof (normalize_domain_plain d Hd) as Hn. unfold scoped_ip_literal.
  by rewrite !split_once_absent by (by apply plain_without).
Qed.

(** A pattern with its prefix. *)
Definition entry_of (p : DomainPattern) : string :=
  match p with Exact d => d | SubdomainsOnly d => "*." +:+ d | ApexAndSubdomains d => "**." +:+ d end.

Definition plain_pattern (p : DomainPattern) : Prop :=
  plain_domain (pattern_domain p) = true ∧ normalize_domain (pattern_domain p) ≠ "".

(** A host in the form in which it is looked up. *)
Definition host_form (h : string) : Prop := normalize_domain h = h ∧ starts_with h "." = false.

Lemma star_solid d pre : plain_domain d = true → str_forall solid pre = true → trim (pre +:+ d) = pre +:+ d.
Proof. intros Hd Hp. apply solid_trim. rewrite str_forall_app, Hp. by apply plain_solid. Qed.

Lemma plain_no_star d t : plain_domain d = true → strip_prefix (String "*" t) d = None.
Proof. intros Hd. unfold strip_prefix. by rewrite starts_with_absent by (by apply plain_without). Qed.

Lemma not_empty s : s ≠ "" → str_is_empty s = false.
Proof. intros Hs. by apply String.eqb_neq. Qed.

Definition with_domain (p : DomainPattern) (d : string) : DomainPattern :=
  match p with Exact _ => Exact d | SubdomainsOnly _ => SubdomainsOnly d | ApexAndSubdomains _ => ApexAndSubdomains d end.

Lemma normalize_pattern_plain p : plain_pattern p →
  normalize_pattern (entry_of p) = entry_of (with_domain p (normalize_domain (pattern_domain p))).
Proof.
  intros [Hd Hne]. unfold normalize_pattern. destruct p as [d|d|d]; cbn [entry_of with_domain pattern_domain] in *.
  - rewrite star_solid by done. change ("**." +:+ d == "*") with false. cbn iota. rewrite strip_prefix_app. cbn. by rewrite normalize_host_plain.
  - rewrite star_solid by done. change ("*." +:+ d == "*") with false. cbn iota. change (strip_prefix "**." ("*." +:+ d)) with (@None string).
    cbn iota. rewrite strip_prefix_app. cbn. by rewrite normalize_host_plain.
  - rewrite solid_trim by (by apply plain_solid). destruct (String.eqb_spec d "*") as [->|_]; [done|].
    rewrite !plain_no_star by done. cbn. by rewrite normalize_host_plain.
Qed.

Lemma pattern_parse_plain p : plain_domain (pattern_domain p) = true → pattern_domain p ≠ "" → pattern_parse (entry_of p) = p.
Proof.
  intros Hd Hne. unfold pattern_parse, parse_domain. destruct p as [d|d|d]; cbn [entry_of pattern_domain] in *.
  - rewrite star_solid by done. change (str_is_empty ("**." +:+ d)) with false. cbn iota. rewrite strip_prefix_app. cbn iota.
    by rewrite (solid_trim d), not_empty by (done || by apply plain_solid).
  - rewrite star_solid by done. change (str_is_empty ("*." +:+ d)) with false. change (strip_prefix "**." ("*." +:+ d)) with (@None string).
    cbn iota. rewrite strip_prefix_app. cbn iota. by rewrite (solid_trim d), not_empty by (done || by apply plain_solid).
  - rewrite solid_trim by (by apply plain_solid). rewrite not_empty by done. by rewrite !plain_no_star by done.
Qed.

Lemma pattern_domain_with p d : pattern_domain (with_domain p d) = d.
Proof. by destruct p. Qed.

Lemma candidates_plain p : plain_pattern p →
  expand_domain_pattern (normalize_pattern (entry_of p)) =
  let n := normalize_domain (pattern_domain p) in
  match p with Exact _ => [n] | SubdomainsOnly _ => ["?*." +:+ n] | ApexAndSubdomains _ => [n; "?*." +:+ n] end.
Proof.
  intros Hp. destruct Hp as [Hd Hne]. rewrite normalize_pattern_plain by done. unfold expand_domain_pattern.
  rewrite pattern_parse_plain by (rewrite pattern_domain_with; auto using normalize_domain_plain). by destruct p.
Qed.

Lemma lower_normalize d : to_ascii_lowercase (normalize_domain d) = normalize_domain d.
Proof. apply lower_idemp. Qed.

Lemma host_form_lower h : host_form h → to_ascii_lowercase h = h.
Proof. intros [E _]. rewrite <- E. apply lower_normalize. Qed.

Lemma glob_exact d h : plain_domain d = true → host_form h → host_glob_match (normalize_domain d) h = domain_eq h d.
Proof.
  intros Hd Hh. rewrite plain_glob_match by (by apply normalize_domain_plain). unfold eq_ignore_ascii_case, domain_eq.
  rewrite lower_normalize, (host_form_lower h Hh). destruct Hh as [-> _]. apply String.eqb_sym.
Qed.

Lemma glob_sub d h : plain_domain d = true → host_form h → host_glob_match ("?*." +:+ normalize_domain d) h = is_strict_subdomain h d.
Proof.
  intros Hd Hh. apply eq_true_iff_eq. rewrite sub_glob_match by (by apply normalize_domain_plain). rewrite strict_subdomain_spec.
  unfold below. pose proof (host_form_lower h Hh) as Hl. destruct Hh as [E Hdot]. rewrite E. split.
  - intros (x & e & -> & _ & He). exists x. f_equal. f_equal. unfold eq_ignore_ascii_case in He. apply String.eqb_eq in He.
    rewrite lower_normalize in He. rewrite He. unfold to_ascii_lowercase in *. rewrite !str_map_app in Hl.
    assert (String.length (str_map ascii_lower x) = String.length x) as Hx by (clear; induction x as [|a x IH]; cbn; lia).
    apply (f_equal (str_drop (String.length x))) in Hl. rewrite <- Hx in Hl at 1. rewrite !str_drop_app in Hl. by injection Hl.
  - intros [u Hu]. exists u, (normalize_domain d). split; [done|]. split; [|unfold eq_ignore_ascii_case; apply str_eqb_refl].
    intros ->. rewrite Hu in Hdot. change ("" +:+ "." +:+ normalize_domain d) with ("." +:+ normalize_domain d) in Hdot.
    by rewrite starts_with_app in Hdot.
Qed.

(** On plain patterns the globs match the hosts of the pattern. *)
Lemma entry_matches_covers p h : plain_pattern p → host_form h → entry_matches (entry_of p) h = covers p h.
Proof.
  intros Hp Hh. unfold entry_matches. rewrite candidates_plain by done. destruct Hp as [Hd Hne].
  destruct p as [d|d|d]; cbn [existsb covers pattern_domain] in *; rewrite ?orb_false_r, ?glob_exact, ?glob_sub by done; [|done|done].
  apply eq_true_iff_eq. rewrite orb_true_iff, domain_eq_spec, strict_subdomain_spec. symmetry. apply subdomain_or_equal_spec.
Qed.

Lemma covers_with p d h : normalize_domain d = normalize_domain (pattern_domain p) → covers (with_domain p d) h = covers p h.
Proof.
  intros E. destruct p; cbn in *; unfold is_subdomain_or_equal, is_strict_subdomain, domain_eq; by rewrite E.
Qed.

Lemma drop_leading_idemp c s : drop_leading c (drop_leading c s) = drop_leading c s.
Proof. induction s as [|a s IH]; [done|]. cbn. destruct (Ascii.eqb a c) eqn:E; [done|]. cbn. by rewrite E. Qed.

Lemma normalize_domain_idemp d : normalize_domain (normalize_domain d) = normalize_domain d.
Proof.
  rewrite <- (trim_end_lower (normalize_domain d)), lower_normalize. rewrite <- (trim_end_lower d). unfold trim_end_char.
  by rewrite str_rev_involutive, drop_leading_idemp.
Qed.

Lemma lower_char_eq a b s t : to_ascii_lowercase (String a s) = to_ascii_lowercase (String b t) → ascii_lower a = ascii_lower b ∧ to_ascii_lowercase s = to_ascii_lowercase t.
Proof. by intros [=]. Qed.

Lemma plain_head_no_star d s : plain_domain d = true → to_ascii_lowercase d = to_ascii_lowercase (String "*" s) → False.
Proof.
  destruct d as [|a d]; [done|]. unfold plain_domain. cbn [str_forall]. intros [Ha _]%andb_true_iff [Hl _]%lower_char_eq.
  revert Ha Hl. by destruct a as [[] [] [] [] [] [] [] []].
Qed.

(** Entries that agree up to case have the same hosts. *)
Lemma same_entry_covers p q h : plain_pattern p → plain_pattern q →
  to_ascii_lowercase (entry_of p) = to_ascii_lowercase (entry_of q) → covers p h = covers q h.
Proof.
  intros [Hp _] [Hq _] E.
  assert (∀ d d', to_ascii_lowercase d = to_ascii_lowercase d' → normalize_domain d = normalize_domain d') as Hn.
  { intros d d' El. by rewrite <- !trim_end_lower, El. }
  assert (∀ d d', to_ascii_lowercase (String "*" (String "*" (String "." d))) = to_ascii_lowercase (String "*" (String "." d')) → False) as Hs.
  { intros d d' [_ [Hl _]%lower_char_eq]%lower_char_eq. done. }
  destruct p as [d|d|d], q as [d'|d'|d']; cbn [entry_of pattern_domain] in *;
    try (exfalso; first [exact (plain_head_no_star d _ Hp E)|exact (plain_head_no_star d' _ Hq (eq_sym E))|exact (Hs _ _ E)|exact (Hs _ _ (eq_sym E))]).
  - apply lower_char_eq in E as [_ [_ [_ E]%lower_char_eq]%lower_char_eq]. symmetry. apply (covers_with (ApexAndSubdomains d) d'). symmetry. by apply Hn.
  - apply lower_char_eq in E as [_ [_ E]%lower_char_eq]. symmetry. apply (covers_with (SubdomainsOnly d) d'). symmetry. by apply Hn.
  - symmetry. apply (covers_with (Exact d) d'). symmetry. by apply Hn.
Qed.

(** An entry the url crate reads back as it is. *)
Definition canonical_entry (e : string) : Prop :=
  ∃ p, e = entry_of p ∧ plain_pattern p ∧
    url_host (trim_end_char "." (pattern_domain p)) = Some (normalize_domain (pattern_domain p)).

Lemma constraint_domain d : plain_domain d = true → normalize_domain d ≠ "" →
  url_host (trim_end_char "." d) = Some (normalize_domain d) → parse_domain_for_constraints d = normalize_domain d.
Proof.
  intros Hd Hne Hu. unfold parse_domain_for_constraints. rewrite (solid_trim d) by (by apply plain_solid).
  assert (plain_domain (trim_end_char "." d) = true) as Ht by (by apply trim_end_char_forall).
  rewrite not_empty by (intros E; unfold normalize_domain in Hne; by rewrite E in Hne).
  rewrite starts_with_absent by (by apply plain_without). cbn [andb].
  rewrite !str_contains_char. rewrite !(plain_without (trim_end_char "." d)) by done. cbn [negb orb]. by rewrite Hu.
Qed.

Lemma constraint_entry e h : canonical_entry e → host_form h → covers (parse_for_constraints e) h = entry_matches e h.
Proof.
  intros (p & -> & Hp & Hu) Hh. rewrite entry_matches_covers by done. destruct Hp as [Hd Hne].
  assert (pattern_domain p ≠ "") as Hne' by (by intros E; rewrite E in Hne).
  rewrite <- (covers_with p (normalize_domain (pattern_domain p))) by apply normalize_domain_idemp. f_equal.
  unfold parse_for_constraints. destruct p as [d|d|d]; cbn [entry_of pattern_domain with_domain] in *.
  - rewrite star_solid by done. change (str_is_empty ("**." +:+ d)) with false. cbn iota. rewrite strip_prefix_app. cbn iota. by rewrite constraint_domain.
  - rewrite star_solid by done. change (str_is_empty ("*." +:+ d)) with false. change (strip_prefix "**." ("*." +:+ d)) with (@None string).
    cbn iota. rewrite strip_prefix_app. cbn iota. by rewrite constraint_domain.
  - rewrite solid_trim by (by apply plain_solid). rewrite not_empty by done. rewrite !plain_no_star by done. by rewrite constraint_domain.
Qed.

Lemma list_matches_spec ps h : list_matches ps h = true ↔ ∃ e, e ∈ ps ∧ entry_matches e h = true.
Proof. unfold list_matches. rewrite existsb_exists. by setoid_rewrite <- list_elem_of_In. Qed.

Lemma lowered_spec l x : x ∈ lowered l ↔ ∃ e, e ∈ l ∧ to_ascii_lowercase e = x.
Proof. unfold lowered. rewrite elem_of_list_to_set, list_elem_of_fmap. naive_solver. Qed.

(** Entries of one list that are in the other up to case. *)
Lemma lowered_matches l l' h : Forall canonical_entry l → Forall canonical_entry l' → lowered l ⊆ lowered l' → host_form h →
  list_matches l h = true → list_matches l' h = true.
Proof.
  rewrite !Forall_forall. intros Hl Hl' Hsub Hh (e & He & Hm)%list_matches_spec.
  assert (to_ascii_lowercase e ∈ lowered l') as (e' & He' & El)%lowered_spec by (apply Hsub, lowered_spec; by exists e).
  apply list_matches_spec. exists e'. split; [done|]. destruct (Hl e He) as (p & -> & Hp & _). destruct (Hl' e' He') as (q & -> & Hq & _).
  rewrite entry_matches_covers in * by done. by rewrite (same_entry_covers q p).
Qed.
End sets.

(** ** The administrator's constraints *)

Lemma first_error_None {E} (l : list (option E)) : first_error l = None ↔ Forall (λ c, c = None) l.
Proof.
  induction l as [|[e|] l IH]; cbn; [split; [constructor|done]|split; [done|by inversion 1]|].
  rewrite IH. split; [by constructor|by inversion 1].
Qed.

Lemma err_when_None {E} b (e : E) : err_when b e = None ↔ b = false.
Proof. by destruct b. Qed.

Section constraints.
Context `{HU : Unicode} `{HD : HostDirs} `{HL : NetLibs} `{HH : HttpLib} `{HO : HashOrder} `{!HashOrderLaws} `{!NetLibsLaws}.

Lemma hash_order_nil {A} (l : list A) : hash_order l = [] → l = [].
Proof. intros E. pose proof (hash_perm l) as Hp. rewrite E in Hp. by apply Permutation_nil. Qed.

Lemma filter_nil_all {A} (f : A → bool) l : List.filter f l = [] → ∀ x, x ∈ l → f x = false.
Proof.
  induction l as [|a l IH]; cbn; [by intros _ x ?%not_elem_of_nil|]. destruct (f a) eqn:E; [done|].
  intros Hl x [->|Hx]%elem_of_cons; [done|by apply IH].
Qed.

Lemma missing_none (P : string → bool) (s : gset string) (e : NetworkProxyConstraintError) :
  err_when (negb (bool_decide (hash_order (List.filter P (elements s)) = []))) e = None → ∀ x, x ∈ s → P x = false.
Proof.
  rewrite err_when_None, negb_false_iff, bool_decide_eq_true. intros Hn%hash_order_nil x Hx. apply (filter_nil_all _ _ Hn). by apply elem_of_elements.
Qed.

(** The lists of a configuration that passed: whoever gets through by the
    allow list also does by the managed one, unless it may be extended, and
    whoever the managed deny list stops is stopped. *)
Lemma managed_lists_bound config k : validate_policy_against_constraints config k = None →
  (∀ managed, c_allowed_domains k = Some managed → c_allowlist_expansion_enabled k ≠ Some true →
     Forall canonical_entry managed → Forall canonical_entry (default [] (allowed_domains (network config))) →
     ∀ h, host_form h → list_matches (default [] (allowed_domains (network config))) h = true → list_matches managed h = true) ∧
  (∀ managed, c_denied_domains k = Some managed →
     Forall canonical_entry managed → Forall canonical_entry (default [] (denied_domains (network config))) →
     ∀ h, host_form h → list_matches managed h = true → list_matches (default [] (denied_domains (network config))) h = true).
Proof.
  unfold validate_policy_against_constraints. rewrite first_error_None, !Forall_cons. intros (_ & _ & _ & _ & _ & _ & _ & _ & Hv & Hv' & _).
  set (cand := default [] (allowed_domains (network config))) in *. set (den := default [] (denied_domains (network config))) in *.
  split; intros managed Em.
  - intros Hx Hm Hc h Hh Hin. assert (check_allowed_domains k managed cand den = None) as Hk.
    { rewrite Em, first_error_None, !Forall_cons in Hv. by destruct Hv as (_ & ? & _). }
    clear Hv Hv'. unfold check_allowed_domains in Hk. destruct (c_allowlist_expansion_enabled k) as [[]|] eqn:Ee; [done| |].
    + apply err_when_None in Hk. apply negb_false_iff, bool_decide_eq_true in Hk. eapply lowered_matches; [exact Hc|done| |done|done]. set_solver.
    + apply err_when_None in Hk. apply negb_false_iff, bool_decide_eq_true in Hk. pose proof (filter_nil_all _ _ Hk) as Hall.
      apply list_matches_spec in Hin as (e & He & Hin). specialize (Hall e He). apply negb_false_iff, existsb_exists in Hall as (pm & Hpm & Ha).
      apply in_map_iff in Hpm as (m & <- & Hmin%list_elem_of_In). rewrite Forall_forall in Hm, Hc.
      apply list_matches_spec. exists m. split; [done|]. rewrite <- constraint_entry by auto. eapply allows_sound; [done|]. by rewrite constraint_entry by auto.
  - intros Hm Hc h Hh Hin. assert (check_denied_domains k managed den = None) as Hk.
    { rewrite Em, first_error_None, !Forall_cons in Hv'. by destruct Hv' as (_ & ? & _). }
    eapply lowered_matches; [exact Hm|done| |done|done]. unfold check_denied_domains in Hk. destruct (c_denylist_expansion_enabled k) as [[]|].
    + intros x Hx. pose proof (missing_none _ _ _ Hk x Hx) as Hp. by apply negb_false_iff, bool_decide_eq_true in Hp.
    + apply err_when_None in Hk. apply negb_false_iff, bool_decide_eq_true in Hk. set_solver.
    + intros x Hx. pose proof (missing_none _ _ _ Hk x Hx) as Hp. by apply negb_false_iff, bool_decide_eq_true in Hp.
Qed.
End constraints.

(** ** What every operation keeps *)

Section invariant.
Context `{HU : Unicode} `{HD : HostDirs} `{HL : NetLibs} `{HH : HttpLib} `{HO : HashOrder} `{HE : NetEnv} `{HB : !NetObserver} `{HR : RamaLib}.

(** The configuration passed the constraints and the sets are compiled from it. *)
Definition lists_ok (s : ConfigState) : Prop :=
  validate_policy_against_constraints (config s) (constraints s) = None ∧
  compile_allowlist_globset (default [] (allowed_domains (network (config s)))) = Ok (allow_set s) ∧
  compile_denylist_globset (default [] (denied_domains (network (config s)))) = Ok (deny_set s).

Definition state_ok (s : ConfigState) : Prop := lists_ok s ∧ (length (blocked s) <= MAX_BLOCKED_EVENTS)%nat.

Definition net_inv (w : NetWorld) : Prop := state_ok (nw_state w).

(** Every action of the process keeps the invariant. *)
Definition keeps {A} (p : Proc NetWorld A) : Prop := all_acts net_inv (λ w w', net_inv w → net_inv w') p.

Lemma keeps_ret {A} (a : A) : keeps (mret a).
Proof. apply all_acts_ret. Qed.

Lemma keeps_lift {A} (r : res A) : keeps (plift r).
Proof. apply all_acts_lift. Qed.

Lemma keeps_bind {A B} (p : Proc NetWorld A) (k : A → Proc NetWorld B) : keeps p → (∀ a, keeps (k a)) → keeps (p ≫= k).
Proof. apply all_acts_bind. Qed.

Lemma keeps_attempt {A} (p : Proc NetWorld A) : keeps p → keeps (attempt p).
Proof. apply all_acts_attempt. Qed.

(** After a pure step its success is known. *)
Lemma keeps_lift_bind {A B} (r : res A) (k : A → Proc NetWorld B) : (∀ a, r = Ok a → keeps (k a)) → keeps (plift r ≫= k).
Proof. intros Hk. destruct r as [a|e|]; [by apply Hk|constructor..]. Qed.

Lemma keeps_tick : keeps next_tick.
Proof. by apply all_acts_atomic. Qed.

Lemma keeps_read_bind {A} (k : ConfigState → Proc NetWorld A) : (∀ s, state_ok s → keeps (k s)) → keeps (read_state ≫= k).
Proof. intros Hk. apply all_acts_atomic_bind; [done|]. intros w s Hw [= <-]. by apply Hk. Qed.

Lemma keeps_write {A} (f : ConfigState → A * ConfigState) : (∀ s, state_ok s → state_ok (snd (f s))) → keeps (write_state f).
Proof. intros Hf. apply all_acts_atomic. intros w Hw _. unfold net_inv. cbn. specialize (Hf _ Hw). by destruct (f (nw_state w)). Qed.

Lemma keeps_emit e : keeps (emit_policy_audit_event e).
Proof. by apply all_acts_atomic. Qed.

Lemma keeps_or_reply {A B} (p : Proc NetWorld A) (r : B) k : keeps p → (∀ a, keeps (k a)) → keeps (or_reply p r k).
Proof. intros Hp Hk. apply keeps_bind; [by apply keeps_attempt|]. intros [a|e|]; [done|apply keeps_ret..]. Qed.

(** Replacing the record of blocked requests. *)
Lemma lists_ok_blocked s l n : lists_ok s → lists_ok (set_blocked_total n (set_blocked l s)).
Proof. done. Qed.

Lemma pop_front_length l : (length (pop_front_while_full l) <= MAX_BLOCKED_EVENTS)%nat.
Proof. induction l as [|b l IH]; [cbn; lia|]. cbn [pop_front_while_full]. case_match; [done|]. lia. Qed.

(** The newest entries are kept, in order. *)
Lemma pop_front_drop l : pop_front_while_full l = drop (length l - MAX_BLOCKED_EVENTS) l.
Proof.
  induction l as [|b l IH]; [done|]. cbn [pop_front_while_full]. destruct (Nat.ltb_spec MAX_BLOCKED_EVENTS (length (b :: l))) as [Hl|Hl].
  - rewrite IH. cbn [length] in *. by replace (S (length l) - MAX_BLOCKED_EVENTS)%nat with (S (length l - MAX_BLOCKED_EVENTS)) by lia.
  - by replace (length (b :: l) - MAX_BLOCKED_EVENTS)%nat with 0%nat by lia.
Qed.

(** The mode is checked by itself. *)
Lemma validate_set_mode m c c' k : validate_policy_against_constraints c k = None →
  validate_policy_against_constraints (mkConfig (set_mode m (network c'))) k = None →
  validate_policy_against_constraints (mkConfig (set_mode m (network c))) k = None.
Proof.
  unfold validate_policy_against_constraints. rewrite !first_error_None, !Forall_cons.
  intros (H1 & H2 & H3 & _ & Hs) (_ & _ & _ & H4 & _). repeat (split; [done|]). exact Hs.
Qed.

Lemma build_config_state_inv t c k s : build_config_state t c k = Ok s → config s = c ∧ constraints s = k ∧
  compile_allowlist_globset (default [] (allowed_domains (network c))) = Ok (allow_set s) ∧
  compile_denylist_globset (default [] (denied_domains (network c))) = Ok (deny_set s).
Proof.
  unfold build_config_state. intros (_ & _ & H)%res_bind_Ok. apply res_bind_Ok in H as (_ & _ & H).
  apply res_bind_Ok in H as (ds & Hd & H). apply res_bind_Ok in H as (als & Ha & H). apply res_bind_Ok in H as (hs & _ & H).
  apply res_bind_Ok in H as (m & _ & H). by injection H as <-.
Qed.

Context (reload_ok : ∀ t s, maybe_reload t = Ok (Some s) → lists_ok s) (reload_now_ok : ∀ t s, reload_now t = Ok s → lists_ok s)
  (observer_ok : ∀ o b, keeps (on_blocked_request o b)).

Lemma keeps_reload : keeps reload_if_needed.
Proof using reload_ok.
  apply keeps_bind; [apply keeps_tick|]. intros t. apply keeps_lift_bind. intros [s|] Hs; [|apply keeps_ret].
  apply keeps_read_bind. intros g [_ Hg]. apply keeps_write. intros s' _. split; [|done]. apply lists_ok_blocked. by eapply reload_ok.
Qed.

Lemma keeps_read_current {A} (f : ConfigState → A) : keeps (read_current f).
Proof using reload_ok. apply keeps_bind; [apply keeps_reload|]. intros _. apply keeps_read_bind. intros s _. apply keeps_ret. Qed.

Lemma keeps_host_blocked host port : keeps (host_blocked host port).
Proof using reload_ok.
  apply keeps_bind; [apply keeps_reload|]. intros _. destruct (host_parse host) as [h|e|]; [|apply keeps_ret..].
  apply keeps_read_bind. intros s _. cbn zeta. case_match; [apply keeps_ret|]. apply keeps_bind.
  - repeat case_match; try apply keeps_ret. unfold host_resolves_to_non_public_ip. case_match; [apply keeps_ret|].
    apply keeps_bind; [apply keeps_tick|]. intros t. apply keeps_ret.
  - intros local. repeat case_match; apply keeps_ret.
Qed.

Lemma keeps_record_blocked entry : keeps (record_blocked entry).
Proof using reload_ok observer_ok.
  apply keeps_bind; [apply keeps_reload|]. intros _. apply all_acts_atomic_bind; [done|]. intros w o _ _.
  apply keeps_bind; [|intros _; case_match; [apply observer_ok|apply keeps_ret]].
  apply keeps_write. intros s [Hs _]. split; [by apply lists_ok_blocked|]. apply pop_front_length.
Qed.

Lemma keeps_note_blocked args : keeps (note_blocked args).
Proof using reload_ok observer_ok.
  apply keeps_bind; [apply keeps_bind; [apply keeps_tick|intros; apply keeps_ret]|]. intros e.
  apply keeps_bind; [apply keeps_attempt, keeps_record_blocked|intros; apply keeps_ret].
Qed.

Lemma keeps_force_reload : keeps force_reload.
Proof using reload_now_ok.
  apply keeps_read_bind. intros _ _. apply keeps_bind; [apply keeps_tick|]. intros t. apply keeps_lift_bind. intros s Hs.
  apply keeps_write. intros g [_ Hg]. split; [|done]. exact (reload_now_ok t s Hs).
Qed.

Lemma keeps_replace s : lists_ok s → keeps (replace_config_state s).
Proof using reload_ok.
  intros Hs. apply keeps_bind; [apply keeps_reload|]. intros _. apply keeps_write. intros g [_ Hg]. by split.
Qed.

Lemma keeps_drain : keeps drain_blocked.
Proof using reload_ok.
  apply keeps_bind; [apply keeps_reload|]. intros _. apply keeps_write. intros g [Hg _]. split; [done|]. cbn. lia.
Qed.

Lemma into_anyhow_context e c u : err_context (into_anyhow e) c = Ok u → e = None.
Proof. by destruct e. Qed.

Lemma keeps_set_mode rounds m : keeps (set_network_mode rounds m).
Proof using reload_ok.
  induction rounds as [|rounds IH]; cbn [set_network_mode]; [apply keeps_ret|].
  apply keeps_bind; [apply keeps_reload|]. intros _. apply keeps_read_bind. intros g _. apply keeps_lift_bind. intros _ Hv%into_anyhow_context.
  apply keeps_bind; [|intros []; [apply keeps_ret|apply IH]]. apply keeps_write. intros s [(Hs & Ha & Hd) Hl].
  case_bool_decide as Ek; [|done]. split; [|done]. cbn. rewrite <- Ek in Hv. split; [by apply (validate_set_mode m (config s) (config g))|done].
Qed.

Lemma keeps_update rounds host target : keeps (update_rounds rounds host target).
Proof using reload_ok.
  induction rounds as [|rounds IH]; cbn [update_rounds]; [apply keeps_ret|].
  apply keeps_bind; [apply keeps_reload|]. intros _. apply keeps_read_bind. intros g [_ Hg]. cbn zeta. case_match; [apply keeps_ret|].
  apply keeps_lift_bind. intros _ Hv%into_anyhow_context. apply keeps_bind; [apply keeps_tick|]. intros t.
  apply keeps_lift_bind. intros s Hb. apply keeps_bind; [|intros []; [apply keeps_ret|apply IH]].
  apply keeps_write. intros s' Hs'. case_match; [|done]. cbn. split; [|done]. apply lists_ok_blocked.
  destruct (build_config_state t _ (constraints g)) as [s0|e|] eqn:Eb; [|done..]. injection Hb as ->.
  apply build_config_state_inv in Eb as (Ec & Ek & Ha & Hd). unfold lists_ok. by rewrite Ec, Ek.
Qed.

(** One step of a handler. *)
Ltac keep_step :=
  first
    [ apply keeps_ret | apply keeps_lift | apply keeps_tick | apply keeps_emit | apply keeps_read_current | apply keeps_host_blocked
    | apply keeps_note_blocked | apply keeps_record_blocked | apply keeps_reload | assumption
    | apply keeps_or_reply; [|intros ?] | apply keeps_bind; [|intros ?] | apply keeps_attempt
    | progress case_match ].

Lemma keeps_evaluate_host_policy decider request : (∀ d, decider = Some d → ∀ r, keeps (d r)) → keeps (evaluate_host_policy decider request).
Proof using reload_ok.
  intros Hd. apply keeps_bind; [apply keeps_host_blocked|]. intros [|r]; [repeat keep_step|]. apply keeps_bind; [|intros []; repeat keep_step].
  destruct r; [apply keeps_ret| |apply keeps_ret]. destruct decider as [d|]; [|apply keeps_ret].
  apply keeps_bind; [by apply Hd|]. intros; apply keeps_ret.
Qed.

Lemma keeps_proxy_disabled host port client method protocol o : keeps (proxy_disabled_response host port client method protocol o).
Proof using reload_ok observer_ok. unfold proxy_disabled_response. repeat keep_step. Qed.

Lemma keeps_socket_allowed path : keeps (is_unix_socket_allowed path).
Proof using reload_ok.
  unfold is_unix_socket_allowed. apply keeps_bind; [apply keeps_reload|]. intros _. case_match; [apply keeps_ret|]. case_match; [apply keeps_ret|].
  apply keeps_read_bind. intros s _. repeat keep_step.
Qed.

Section decided.
Context (decider : option NetworkPolicyDecider) (decider_ok : ∀ d, decider = Some d → ∀ r, keeps (d r)).

Lemma keeps_connect req : keeps (http_connect_accept decider req).
Proof using reload_ok observer_ok decider_ok.
  unfold http_connect_accept. destruct (request_context req) as [ctx|]; [|apply keeps_ret]. cbn zeta. case_match; [apply keeps_ret|].
  apply keeps_or_reply; [apply keeps_read_current|]. intros en. case_match.
  { apply keeps_bind; [apply keeps_proxy_disabled|]. intros; apply keeps_ret. }
  apply keeps_or_reply; [by apply keeps_evaluate_host_policy|]. intros [|reason source d]; repeat keep_step.
Qed.

Lemma keeps_plain req : keeps (http_plain_proxy decider req).
Proof using reload_ok observer_ok decider_ok.
  unfold http_plain_proxy. cbn zeta. apply keeps_or_reply; [apply keeps_read_current|]. intros ma. case_match.
  - unfold unix_socket_request. case_match; [|apply keeps_ret]. apply keeps_or_reply; [apply keeps_read_current|]. intros en.
    case_match; [apply keeps_bind; [apply keeps_proxy_disabled|intros; apply keeps_ret]|]. case_match; [repeat keep_step|].
    case_match; [repeat keep_step|]. apply keeps_or_reply; [apply keeps_socket_allowed|]. intros al. repeat keep_step.
  - case_match; [|apply keeps_ret]. case_match; [apply keeps_ret|]. apply keeps_or_reply; [apply keeps_read_current|]. intros en.
    case_match; [apply keeps_bind; [apply keeps_proxy_disabled|intros; apply keeps_ret]|].
    apply keeps_or_reply; [by apply keeps_evaluate_host_policy|]. intros [|reason source d]; repeat keep_step.
Qed.

Lemma keeps_socks_refusal source reason protocol host port client m name : keeps (socks_refusal source reason protocol host port client m name).
Proof using reload_ok observer_ok. unfold socks_refusal. repeat keep_step. Qed.

Lemma keeps_socks_tcp target port client : keeps (handle_socks5_tcp decider target port client).
Proof using reload_ok observer_ok decider_ok.
  unfold handle_socks5_tcp. cbn zeta. case_match; [apply keeps_ret|]. apply keeps_or_reply; [apply keeps_read_current|]. intros en.
  case_match; [apply keeps_bind; [apply keeps_socks_refusal|intros; apply keeps_ret]|]. apply keeps_or_reply; [apply keeps_read_current|].
  intros []; [apply keeps_bind; [apply keeps_socks_refusal|intros; apply keeps_ret]|]. apply keeps_or_reply; [apply keeps_read_current|].
  intros []; [apply keeps_bind; [apply keeps_socks_refusal|intros; apply keeps_ret]|].
  apply keeps_or_reply; [by apply keeps_evaluate_host_policy|]. intros [|reason source d]; repeat keep_step.
Qed.

Lemma keeps_socks_udp address port payload client : keeps (inspect_socks5_udp decider address port payload client).
Proof using reload_ok observer_ok decider_ok.
  unfold inspect_socks5_udp. cbn zeta. case_match; [apply keeps_ret|]. apply keeps_or_reply; [apply keeps_read_current|]. intros en.
  case_match; [apply keeps_bind; [apply keeps_socks_refusal|intros; apply keeps_ret]|]. apply keeps_or_reply; [apply keeps_read_current|].
  intros []; [apply keeps_bind; [apply keeps_socks_refusal|intros; apply keeps_ret]|].
  apply keeps_or_reply; [by apply keeps_evaluate_host_policy|]. intros [|reason source d]; repeat keep_step.
Qed.
End decided.

Lemma keeps_mitm req policy s : keeps (handle_mitm_request req policy s).
Proof using reload_ok observer_ok.
  unfold handle_mitm_request. apply keeps_or_reply.
  - unfold evaluate_mitm_policy. cbn zeta. case_match; [apply keeps_ret|]. case_match; [apply keeps_ret|].
    apply keeps_bind; [apply keeps_host_blocked|]. intros hd. case_match; [repeat keep_step|].
    apply keeps_bind; [apply keeps_read_current|]. intros []; repeat keep_step.
  - intros []; cbn zeta; repeat keep_step.
Qed.
End invariant.

(** ** Any interleaving *)

Section pool.
Context `{HU : Unicode} `{HD : HostDirs} `{HL : NetLibs} `{HH : HttpLib} `{HO : HashOrder} `{HE : NetEnv} `{HB : !NetObserver} `{HR : RamaLib}.

(** What may run at the same time: requests of clients and operations on the
    state. *)
Inductive NetCall :=
| CallConnect (decider : option NetworkPolicyDecider) (req : Request)
| CallTunnel (accepted : ConnectAccepted)
| CallPlain (decider : option NetworkPolicyDecider) (req : Request)
| CallSocksTcp (decider : option NetworkPolicyDecider) (target : string) (port : N) (client : option string)
| CallSocksUdp (decider : option NetworkPolicyDecider) (address : string) (port : N) (payload : string) (client : option string)
| CallMitm (req : Request) (policy : MitmPolicyContext) (s : MitmState)
| CallAddAllowed (rounds : nat) (host : string)
| CallAddDenied (rounds : nat) (host : string)
| CallSetMode (rounds : nat) (m : NetworkMode)
| CallForceReload
| CallReplace (s : ConfigState)
| CallDrain
| CallObserve (o : option Observer).

Definition forget {A} (p : Proc NetWorld A) : Proc NetWorld () := _ ← p; mret ().

Definition perform (c : NetCall) : Proc NetWorld () :=
  match c with
  | CallConnect decider req => forget (http_connect_accept decider req)
  | CallTunnel accepted => forget (http_connect_proxy accepted)
  | CallPlain decider req => forget (http_plain_proxy decider req)
  | CallSocksTcp decider target port client => forget (handle_socks5_tcp decider target port client)
  | CallSocksUdp decider address port payload client => forget (inspect_socks5_udp decider address port payload client)
  | CallMitm req policy s => forget (handle_mitm_request req policy s)
  | CallAddAllowed rounds host => forget (add_allowed_domain rounds host)
  | CallAddDenied rounds host => forget (add_denied_domain rounds host)
  | CallSetMode rounds m => forget (set_network_mode rounds m)
  | CallForceReload => force_reload
  | CallReplace s => replace_config_state s
  | CallDrain => forget drain_blocked
  | CallObserve o => set_blocked_request_observer o
  end.

(** Deciders keep the invariant themselves; a state that replaces the current
    one was checked. *)
Definition call_ok (c : NetCall) : Prop :=
  match c with
  | CallConnect decider _ | CallPlain decider _ | CallSocksTcp decider _ _ _ | CallSocksUdp decider _ _ _ _ =>
      ∀ d, decider = Some d → ∀ r, keeps (d r)
  | CallReplace s => lists_ok s
  | _ => True
  end.

Lemma keeps_forget {A} (p : Proc NetWorld A) : keeps p → keeps (forget p).
Proof. intros Hp. apply keeps_bind; [done|]. intros. apply keeps_ret. Qed.

Section kept.
Context (reload_ok : ∀ t s, maybe_reload t = Ok (Some s) → lists_ok s) (reload_now_ok : ∀ t s, reload_now t = Ok s → lists_ok s)
  (observer_ok : ∀ o b, keeps (on_blocked_request o b)).

Lemma keeps_domain_list rounds host target : keeps (update_domain_list rounds host target).
Proof using reload_ok. apply keeps_bind; [apply keeps_lift|]. intros h. by apply keeps_update. Qed.

Lemma keeps_tunnel accepted : keeps (http_connect_proxy accepted).
Proof using reload_ok.
  unfold http_connect_proxy. case_match; [apply keeps_ret|]. apply keeps_bind; [by apply keeps_attempt, keeps_read_current|]. intros r.
  apply keeps_bind; [apply keeps_tick|]. intros; apply keeps_ret.
Qed.

Lemma keeps_perform c : call_ok c → keeps (perform c).
Proof using All.
  destruct c; cbn [perform call_ok]; unfold add_allowed_domain, add_denied_domain; intros Hc; try apply keeps_forget;
    auto using keeps_connect, keeps_tunnel, keeps_plain, keeps_socks_tcp, keeps_socks_udp, keeps_mitm, keeps_domain_list, keeps_set_mode,
      keeps_force_reload, keeps_replace, keeps_drain.
  by apply all_acts_atomic.
Qed.

Lemma pool_keeps calls w ps' w' : Forall call_ok calls → state_ok (nw_state w) →
  rtc pstep (map perform calls, w) (ps', w') → state_ok (nw_state w').
Proof using All.
  intros Hc Hw Hsteps. eapply (psteps_all_acts net_inv (λ w w', net_inv w → net_inv w') _ _ _ Hsteps); [|done|done].
  cbn. rewrite Forall_fmap. eapply Forall_impl; [exact Hc|]. apply keeps_perform.
  Unshelve. all: first [by intros ? ? ? ?; auto|split; [by intros ??|intros ??????; auto]].
Qed.
End kept.

Context `{!HashOrderLaws} `{!NetLibsLaws}.

(** What the administrator's constraints promise of a state. *)
Definition managed_state (s : ConfigState) : Prop :=
  let k := constraints s in let net := network (config s) in
  validate_policy_against_constraints (config s) k = None ∧ (length (blocked s) <= MAX_BLOCKED_EVENTS)%nat ∧
  (∀ managed, c_allowed_domains k = Some managed → c_allowlist_expansion_enabled k ≠ Some true →
     Forall canonical_entry managed → Forall canonical_entry (default [] (allowed_domains net)) →
     ∀ h, host_form h → globset_is_match (allow_set s) h = true → list_matches managed h = true) ∧
  (∀ managed, c_denied_domains k = Some managed →
     Forall canonical_entry managed → Forall canonical_entry (default [] (denied_domains net)) →
     ∀ h, host_form h → list_matches managed h = true → globset_is_match (deny_set s) h = true).

Lemma state_ok_managed s : state_ok s → managed_state s.
Proof.
  intros [(Hv & Ha & Hd) Hl]. destruct (managed_lists_bound _ _ Hv) as [Hal Hde]. split; [done|]. split; [done|]. split.
  - intros managed Em Hx Hm Hc' h Hh. rewrite (compiled_matches _ _ _ h Ha). by apply Hal.
  - intros managed Em Hm Hc' h Hh Hin. rewrite (compiled_matches _ _ _ h Hd). by eapply Hde.
Qed.

(** C2. However requests and operations interleave, the configuration satisfies the
    administrator's constraints and at most MAX_BLOCKED_EVENTS refusals are
    buffered.  When the entries of the managed list and of the configuration are
    plain domains, with or without a leading [*.] or [**.], that the URL parser
    reads back as they are, then for every host in the form in which it is looked
    up: what the allow set lets through the managed list lets through (unless it
    may be extended), and what the managed deny list stops the deny set stops.
    Reloaded and replaced states are checked ones, and deciders and observers keep
    the invariant themselves. *)
Theorem managed_hosts_enforced calls w ps' w' :
  (∀ t s, maybe_reload t = Ok (Some s) → lists_ok s) → (∀ t s, reload_now t = Ok s → lists_ok s) →
  (∀ o b, keeps (on_blocked_request o b)) → Forall call_ok calls → state_ok (nw_state w) →
  rtc pstep (map perform calls, w) (ps', w') →
  let s := nw_state w' in let k := constraints s in let net := network (config s) in
  validate_policy_against_constraints (config s) k = None ∧ (length (blocked s) <= MAX_BLOCKED_EVENTS)%nat ∧
  (∀ managed, c_allowed_domains k = Some managed → c_allowlist_expansion_enabled k ≠ Some true →
     Forall canonical_entry managed → Forall canonical_entry (default [] (allowed_domains net)) →
     ∀ h, host_form h → globset_is_match (allow_set s) h = true → list_matches managed h = true) ∧
  (∀ managed, c_denied_domains k = Some managed →
     Forall canonical_entry managed → Forall canonical_entry (default [] (denied_domains net)) →
     ∀ h, host_form h → list_matches managed h = true → globset_is_match (deny_set s) h = true).
Proof.
  intros Hr Hn Ho Hc Hw Hsteps. by apply state_ok_managed, (pool_keeps Hr Hn Ho calls w ps' w').
Qed.
End pool.

(** ** One request at a time *)

Section alone.
Context `{HU : Unicode} `{HD : HostDirs} `{HL : NetLibs} `{HH : HttpLib} `{HO : HashOrder} `{HE : NetEnv} `{HB : !NetObserver} `{HR : RamaLib}.

Lemma run_or_reply {A B} (p : Proc NetWorld A) (r : B) k w :
  run (or_reply p r k) w =
  match run p w with
  | (Ok a, w1) => run (k a) w1
  | (Err _, w1) => (Ok r, w1)
  | (Panic, w1) => (Panic, w1)
  end.
Proof. unfold or_reply. rewrite run_bind, run_attempt. by destruct (run p w) as [[a|e|] w1]. Qed.

(** A continuation that ran. *)
Lemma run_bind_Ok {A B} (p : Proc NetWorld A) (k : A → Proc NetWorld B) w b w' :
  run (p ≫= k) w = (Ok b, w') ↔ ∃ a w1, run p w = (Ok a, w1) ∧ run (k a) w1 = (Ok b, w').
Proof. rewrite run_bind. destruct (run p w) as [[a|e|] w1]; naive_solver. Qed.

Lemma run_or_reply_Ok {A B} (p : Proc NetWorld A) (r : B) k w b w' : run (or_reply p r k) w = (Ok b, w') → b ≠ r →
  ∃ a w1, run p w = (Ok a, w1) ∧ run (k a) w1 = (Ok b, w').
Proof. rewrite run_or_reply. destruct (run p w) as [[a|e|] w1]; naive_solver. Qed.

Lemma run_tick w : run next_tick w = (Ok (nw_tick w), mkNetWorld _ (nw_state w) (nw_observer w) (nw_audit w) (S (nw_tick w)) (nw_ext w)).
Proof. done. Qed.

Lemma run_read w : run read_state w = (Ok (nw_state w), w).
Proof. done. Qed.

Lemma run_plift_ret {A} (a : A) (w : NetWorld) r w' : run (mret a) w = (r, w') → r = Ok a ∧ w' = w.
Proof. intros [= <- <-]. done. Qed.

(** The state after a reload. *)
Lemma run_reload_lists w r w1 : (∀ t s, maybe_reload t = Ok (Some s) → lists_ok s) → lists_ok (nw_state w) →
  run reload_if_needed w = (r, w1) → lists_ok (nw_state w1).
Proof.
  intros Hr Hw. unfold reload_if_needed. rewrite run_bind, run_tick, run_bind, run_lift.
  destruct (maybe_reload (nw_tick w)) as [[s|]|e|] eqn:E; cbn; intros [= <- <-]; cbn; [|done..]. apply lists_ok_blocked. by eapply Hr.
Qed.

(** Whether a list of patterns covers a host or, for a scoped address, the
    address without its scope. *)
Definition listed (patterns : option (list string)) (n : string) : bool :=
  list_matches (default [] patterns) n
  || match unscoped_ip_literal n with Some ip => list_matches (default [] patterns) ip | None => false end.

Lemma listed_compiled patterns g set n : compile_globset_with_policy (default [] patterns) g = Ok set →
  globset_matches_host_or_unscoped set n = listed patterns n.
Proof.
  intros Hc. unfold globset_matches_host_or_unscoped, listed. rewrite (compiled_matches _ _ _ n Hc). f_equal.
  case_match; [|done]. by rewrite (compiled_matches _ _ _ _ Hc).
Qed.

(** A name whose lookup gives only public addresses, or a public address. *)
Definition public_target (t : nat) (n : string) (port : N) : Prop :=
  match parse_ip n with
  | Some ip => is_non_public_ip ip = false
  | None => ∃ addrs, lookup_at t n port = Resolved addrs ∧ Forall (λ a, is_non_public_ip (sa_ip a) = false) addrs
  end.

(** Local addresses are let through only when they are named, and names only
    when they lead to public addresses. *)
Definition local_ok (s : ConfigState) (t : nat) (n : string) (port : N) : Prop :=
  allow_local_binding (network (config s)) = true ∨
  if local_literal (mkHost n) then is_explicit_local_allowlisted (default [] (allowed_domains (network (config s)))) (mkHost n) = true
  else public_target t n port.

Lemma lookup_public l : lookup_is_non_public l = false ↔ ∃ addrs, l = Resolved addrs ∧ Forall (λ a, is_non_public_ip (sa_ip a) = false) addrs.
Proof.
  destruct l as [addrs| |]; cbn; [|naive_solver..]. split.
  - intros He. exists addrs. split; [done|]. apply Forall_forall. intros a Ha. apply not_true_is_false. intros Hp.
    assert (existsb (λ addr, is_non_public_ip (sa_ip addr)) addrs = true) as Ht by (apply existsb_exists; exists a; by rewrite <- list_elem_of_In).
    congruence.
  - intros (addrs' & [= <-] & Hf). apply not_true_is_false. intros (a & Ha%list_elem_of_In & Hp)%existsb_exists.
    rewrite Forall_forall in Hf. specialize (Hf a Ha). cbn in Hf. congruence.
Qed.

(** The check of local addresses in the decision. *)
Definition local_check (s : ConfigState) (n : string) (port : N) : Proc NetWorld bool :=
  if allow_local_binding (network (config s)) then mret false
  else if local_literal (mkHost n) then mret (negb (is_explicit_local_allowlisted (default [] (allowed_domains (network (config s)))) (mkHost n)))
  else host_resolves_to_non_public_ip n port.

Lemma run_local_check s n port w r w' : run (local_check s n port) w = (r, w') →
  ∃ b, r = Ok b ∧ nw_state w' = nw_state w ∧ (b = false ↔ local_ok s (pred (nw_tick w')) n port).
Proof.
  unfold local_check, local_ok. destruct (allow_local_binding _); [intros [-> ->]%run_plift_ret; exists false; naive_solver|].
  destruct (local_literal _).
  { intros [-> ->]%run_plift_ret. eexists. split; [done|]. split; [done|]. rewrite negb_false_iff. naive_solver. }
  unfold host_resolves_to_non_public_ip, public_target. destruct (parse_ip n).
  { intros [-> ->]%run_plift_ret. eexists. split; [done|]. split; [done|]. naive_solver. }
  rewrite run_bind, run_tick. intros [-> ->]%run_plift_ret. eexists. split; [done|]. split; [done|]. cbn. rewrite lookup_public. naive_solver.
Qed.

(** Case analysis on a known answer. *)
Ltac verdict := repeat split; intros; destruct_and?; destruct_or?; destruct_and?; try congruence; try tauto; try (left; congruence).

(** Each answer about a host, by the lists of the configuration. *)
Lemma host_decision_spec host port w d w' :
  (∀ t s, maybe_reload t = Ok (Some s) → lists_ok s) → lists_ok (nw_state w) →
  run (host_blocked host port) w = (Ok d, w') →
  let s := nw_state w' in let net := network (config s) in let n := normalize_host host in let t := pred (nw_tick w') in
  (d = Blocked Denied ↔ n ≠ "" ∧ listed (denied_domains net) n = true) ∧
  (d = Blocked NotAllowedLocal ↔ n ≠ "" ∧ listed (denied_domains net) n = false ∧ ¬ local_ok s t n port) ∧
  (d = Allowed ↔ n ≠ "" ∧ listed (denied_domains net) n = false ∧ local_ok s t n port ∧ listed (allowed_domains net) n = true) ∧
  (d = Blocked NotAllowed ↔ n = "" ∨ listed (denied_domains net) n = false ∧ local_ok s t n port ∧ listed (allowed_domains net) n = false).
Proof.
  intros Hr Hw. unfold host_blocked. intros (u & w1 & E1 & H)%run_bind_Ok. pose proof (run_reload_lists _ _ _ Hr Hw E1) as (_ & Ha & Hd).
  unfold host_parse in H. destruct (str_is_empty (normalize_host host)) eqn:En; cbn in H.
  { apply String.eqb_eq in En. apply run_plift_ret in H as [[= ->] ->]. cbn zeta. rewrite En. verdict. }
  apply String.eqb_neq in En.
  rewrite (listed_compiled _ _ _ _ Ha), (listed_compiled _ _ _ _ Hd) in H. generalize dependent (normalize_host host). intros n En H. cbn zeta.
  destruct (listed (denied_domains (network (config (nw_state w1)))) n) eqn:Ed.
  { apply run_plift_ret in H as [[= ->] ->]. verdict. }
  apply run_bind_Ok in H as (b & w3 & El & H). fold (local_check (nw_state w1) n port) in El. destruct (run_local_check _ _ _ _ _ _ El) as (b' & [= <-] & Est & Hb).
  destruct b.
  { assert (¬ local_ok (nw_state w1) (pred (nw_tick w3)) n port) by (by intros ?%Hb). apply run_plift_ret in H as [[= ->] ->]. rewrite Est in *. verdict. }
  assert (local_ok (nw_state w1) (pred (nw_tick w3)) n port) by (by apply Hb). clear Hb.
  case_bool_decide as Ea; cbn [orb] in H.
  { apply run_plift_ret in H as [[= ->] ->]. rewrite Est in *. assert (listed (allowed_domains (network (config (nw_state w1)))) n = false) by (unfold listed; rewrite Ea; cbn; by case_match). verdict. }
  destruct (listed (allowed_domains _) n) eqn:Eal; apply run_plift_ret in H as [[= ->] ->]; rewrite Est in *; verdict.
Qed.

Lemma run_emit e w : run (emit_policy_audit_event e) w = (Ok (), mkNetWorld _ (nw_state w) (nw_observer w) (nw_audit w ++ [e]) (nw_tick w) (nw_ext w)).
Proof. done. Qed.

(** The decision by cases of the answer about the host, with its audit entry. *)
Lemma evaluate_host_policy_run decider request w d w' : run (evaluate_host_policy decider request) w = (Ok d, w') →
  ∃ v w1, run (host_blocked (pr_host request) (pr_port request)) w = (Ok v, w1) ∧
    match v with
    | Allowed => d = Allow ∧ nw_state w' = nw_state w1
    | Blocked NotAllowed =>
        match decider with
        | Some decide => ∃ a w2, run (decide request) w1 = (Ok a, w2) ∧ d = map_decider_decision a ∧ nw_state w' = nw_state w2
        | None => d = Deny REASON_NOT_ALLOWED BaselinePolicy PolicyDeny ∧ nw_state w' = nw_state w1
        end
    | Blocked r => d = Deny (block_reason_as_str r) BaselinePolicy PolicyDeny ∧ nw_state w' = nw_state w1
    end ∧
    ∃ e, last (nw_audit w') = Some e ∧ au_server_address e = pr_host request ∧
      au_decision e = match d with Allow => "allow" | Deny _ _ p => policy_decision_as_str p end ∧
      (au_policy_override e = true ↔ d = Allow ∧ v = Blocked NotAllowed).
Proof.
  unfold evaluate_host_policy. intros (v & w1 & E1 & H)%run_bind_Ok. exists v, w1. split; [done|].
  apply run_bind_Ok in H as ([d' o] & w2 & E2 & H). destruct (audit_fields d' o) as [[pd src] reason] eqn:Ef.
  apply run_bind_Ok in H as (u & w3 & E3 & H). rewrite run_emit in E3. injection E3 as _ <-. apply run_plift_ret in H as [[= <-] ->]. cbn [nw_state nw_audit].
  assert (∀ P : Prop, (o = true ↔ P) → ∃ e, last (nw_audit w2 ++ [mkAudit "domain" pd (source_as_str src) reason (as_policy_protocol (pr_protocol request))
            (pr_host request) (pr_port request) (default "none" (pr_method request)) (default "unknown" (pr_client_addr request)) o]) = Some e ∧
      au_server_address e = pr_host request ∧ au_decision e = match d with Allow => "allow" | Deny _ _ p => policy_decision_as_str p end ∧
      (au_policy_override e = true ↔ P)) as Haudit.
  { intros P HP. eexists. split; [apply last_snoc|]. split; [done|]. split; [|done]. cbn. destruct d; by injection Ef. }
  destruct v as [|[]].
  - apply run_plift_ret in E2 as [[= -> ->] ->]. split; [done|]. apply Haudit. naive_solver.
  - apply run_plift_ret in E2 as [[= -> ->] ->]. split; [done|]. apply Haudit. naive_solver.
  - destruct decider as [decide|].
    + apply run_bind_Ok in E2 as (a & w4 & Ed & E2). apply run_plift_ret in E2 as [[= -> ->] ->]. split; [by exists a, w4|].
      apply Haudit. destruct a; cbn; naive_solver.
    + apply run_plift_ret in E2 as [[= -> ->] ->]. split; [done|]. apply Haudit. naive_solver.
  - apply run_plift_ret in E2 as [[= -> ->] ->]. split; [done|]. apply Haudit. naive_solver.
Qed.

(** What a decider can change: a request goes through only if the lists let the
    host through, or the host is merely not listed and the decider allowed it; a
    denied or local host is refused whatever the decider is, and every override
    is the last entry of the audit trail. *)
Theorem decider_bounded decider request w d w' : run (evaluate_host_policy decider request) w = (Ok d, w') →
  ∃ v w1 e, run (host_blocked (pr_host request) (pr_port request)) w = (Ok v, w1) ∧ last (nw_audit w') = Some e ∧
    (d = Allow → v = Allowed ∨ v = Blocked NotAllowed ∧ au_policy_override e = true ∧
       ∃ decide w2, decider = Some decide ∧ run (decide request) w1 = (Ok Allow, w2)) ∧
    (v = Blocked Denied ∨ v = Blocked NotAllowedLocal → (∃ reason, d = Deny reason BaselinePolicy PolicyDeny) ∧
       (∀ other, fst (run (evaluate_host_policy other request) w) = Ok d) ∧ au_policy_override e = false) ∧
    au_server_address e = pr_host request ∧ (au_decision e = "allow" ↔ d = Allow).
Proof.
  intros H. destruct (evaluate_host_policy_run _ _ _ _ _ H) as (v & w1 & Ev & Hcase & e & He & Ha & Hd & Ho). exists v, w1, e.
  split; [done|]. split; [done|]. split; [|split; [|split]].
  - intros ->. destruct v as [|[]]; [by left|by destruct Hcase| |by destruct Hcase]. right. split; [done|]. split; [by apply Ho|].
    destruct decider as [decide|]; [|by destruct Hcase]. destruct Hcase as (a & w2 & Er & Em & _). exists decide, w2. split; [done|]. by destruct a.
  - intros Hv. assert (au_policy_override e = false) as Hf by (apply not_true_is_false; rewrite Ho; naive_solver).
    assert (∀ other, fst (run (evaluate_host_policy other request) w) = Ok d) as Hother; [|by destruct Hv as [-> | ->]; destruct Hcase; eauto].
    intros other. unfold evaluate_host_policy. rewrite run_bind, Ev. destruct Hv as [-> | ->]; destruct Hcase as [-> _]; done.
  - done.
  - rewrite Hd. destruct d as [|r s []]; cbn; naive_solver.
Qed.

(** ** Without reloads *)

Section quiet.
Context (quiet : ∀ t, maybe_reload t = Ok None).

Definition later (w : NetWorld) : NetWorld := mkNetWorld _ (nw_state w) (nw_observer w) (nw_audit w) (S (nw_tick w)) (nw_ext w).

Lemma run_quiet_reload w : run reload_if_needed w = (Ok (), later w).
Proof using quiet. unfold reload_if_needed. rewrite run_bind, run_tick, run_bind, run_lift, quiet. done. Qed.

Lemma run_current {A} (f : ConfigState → A) w : run (read_current f) w = (Ok (f (nw_state w)), later w).
Proof using quiet. unfold read_current. rewrite run_bind, run_quiet_reload. done. Qed.

Lemma or_reply_current {A B} (f : ConfigState → A) (r : B) k w : run (or_reply (read_current f) r k) w = run (k (f (nw_state w))) (later w).
Proof using quiet. by rewrite run_or_reply, run_current. Qed.

(** Time has passed and nothing else. *)
Definition passed (w w' : NetWorld) : Prop := nw_state w' = nw_state w ∧ nw_ext w' = nw_ext w ∧ (nw_tick w <= nw_tick w')%nat.

Lemma passed_later w w' : passed w w' → passed w (later w').
Proof. intros (? & ? & ?). split; [done|]. split; [done|]. cbn. lia. Qed.

Lemma passed_refl w : passed w w.
Proof. by split. Qed.

(** The policy lets the request through. *)
Definition policy_allows (decider : option NetworkPolicyDecider) (request : NetworkPolicyRequest) (w w' : NetWorld) : Prop :=
  run (evaluate_host_policy decider request) w = (Ok Allow, w').

Lemma plain_upstream decider req w client req' w' : run (http_plain_proxy decider req) w = (Ok (Upstream client req'), w') →
  header_get (req_headers req) "x-unix-socket" = None →
  ∃ ctx w1 w2, request_context req = Some ctx ∧ validate_absolute_form_host_header req ctx = None ∧
    enabled (network (config (nw_state w))) = true ∧ allows_method (mode (network (config (nw_state w)))) (req_method req) = true ∧
    passed w w1 ∧
    policy_allows decider (mkPolicyRequest Http (normalize_host (host_display (rc_host ctx))) (rc_target_port ctx) (req_peer req)
                             (Some (req_method req)) None None) w1 w2 ∧
    client = (if allow_upstream_proxy (network (config (nw_state w2))) then EnvProxyClient else DirectClient) ∧
    req' = set_headers (remove_hop_by_hop_request_headers (req_headers req)) req.
Proof using quiet.
  unfold http_plain_proxy. cbn zeta. intros H Hn. unfold method_allowed in H. rewrite or_reply_current, Hn in H.
  destruct (request_context req) as [ctx|]; [|done]. destruct (validate_absolute_form_host_header req ctx) eqn:Ev; [done|].
  unfold is_enabled in H. rewrite or_reply_current in H. cbn [nw_state later] in H.
  destruct (enabled _) eqn:Een; cbn [negb] in H.
  2:{ apply run_bind_Ok in H as (? & ? & _ & H). by apply run_plift_ret in H as [? _]. }
  apply run_or_reply_Ok in H as (d & w2 & Ed & H); [|done]. destruct d.
  2:{ apply run_bind_Ok in H as (? & ? & _ & H). by apply run_plift_ret in H as [? _]. }
  destruct (allows_method _ _) eqn:Em; cbn [negb] in H.
  2:{ apply run_bind_Ok in H as (? & ? & _ & H). apply run_bind_Ok in H as (? & ? & _ & H). by apply run_plift_ret in H as [? _]. }
  unfold is_upstream_proxy_allowed in H. rewrite or_reply_current in H. apply run_plift_ret in H as [[= -> ->] _].
  exists ctx, (later (later w)), w2. repeat (split; [done || (by repeat apply passed_later; apply passed_refl)|]). done.
Qed.

(** Refusals do not end with a contact. *)
Ltac refused := repeat match goal with H : run (_ ≫= _) _ = (Ok _, _) |- _ => apply run_bind_Ok in H as (? & ? & _ & H) end;
  match goal with H : run (mret _) _ = (Ok _, _) |- _ => by apply run_plift_ret in H as [? _] end.

Lemma connect_accepted decider req w acc w' : run (http_connect_accept decider req) w = (Ok (inl acc), w') →
  ∃ ctx w1 w2, request_context req = Some ctx ∧ enabled (network (config (nw_state w))) = true ∧ passed w w1 ∧
    let host := normalize_host (host_display (rc_host ctx)) in
    policy_allows decider (mkPolicyRequest HttpsConnect host (rc_target_port ctx) (req_peer req) (Some "CONNECT") None None) w1 w2 ∧
    let needs := bool_decide (mode (network (config (nw_state w2))) = Limited) || bool_decide (is_Some (cs_mitm_hooks (nw_state w2) !! normalize_host host)) in
    (needs = true → is_Some (cs_mitm (nw_state w2))) ∧
    acc = mkAccepted (host_display (rc_host ctx)) (rc_target_port ctx) needs (mode (network (config (nw_state w2))))
            (if needs then cs_mitm (nw_state w2) else None).
Proof using quiet.
  unfold http_connect_accept. intros H. destruct (request_context req) as [ctx|]; [|refused]. cbn zeta in H. case_match; [refused|].
  unfold is_enabled in H. rewrite or_reply_current in H. destruct (enabled _) eqn:Een; cbn [negb] in H; [|refused].
  apply run_or_reply_Ok in H as (d & w2 & Ed & H); [|done]. destruct d; [|refused].
  unfold network_mode, mitm_state, host_has_mitm_hooks in H. rewrite !or_reply_current in H. cbn [nw_state later] in H.
  exists ctx, (later w), w2. repeat (split; [done || (by repeat apply passed_later; apply passed_refl)|]). cbn zeta.
  destruct (bool_decide (mode (network (config (nw_state w2))) = Limited) || bool_decide (is_Some (cs_mitm_hooks (nw_state w2) !! normalize_host (normalize_host (host_display (rc_host ctx))))))
    eqn:Eneeds; cbn [andb] in H.
  - case_bool_decide as Em; [refused|]. apply run_plift_ret in H as [[= ->] _]. split; [|done]. intros _. by apply not_eq_None_Some.
  - apply run_plift_ret in H as [[= ->] _]. done.
Qed.

Lemma socks_dialled decider target port client w host' port' w' :
  run (handle_socks5_tcp decider target port client) w = (Ok (SocksDial host' port'), w') →
  ∃ w1 w2, host' = target ∧ port' = port ∧ enabled (network (config (nw_state w))) = true ∧ mode (network (config (nw_state w))) = Full ∧
    cs_mitm_hooks (nw_state w) !! normalize_host (normalize_host target) = None ∧ passed w w1 ∧
    policy_allows decider (mkPolicyRequest Socks5Tcp (normalize_host target) port client None None None) w1 w2.
Proof using quiet.
  unfold handle_socks5_tcp. cbn zeta. intros H. case_match; [done|].
  unfold is_enabled in H. rewrite or_reply_current in H. destruct (enabled _) eqn:Een; cbn [negb] in H; [|refused].
  unfold network_mode in H. rewrite or_reply_current in H. cbn [nw_state later] in H. destruct (mode _) eqn:Em; [refused|].
  unfold host_has_mitm_hooks in H. rewrite or_reply_current in H. cbn [nw_state later] in H. case_bool_decide as Eh; [refused|].
  apply run_or_reply_Ok in H as (d & w2 & Ed & H); [|done]. destruct d; [|refused]. apply run_plift_ret in H as [[= -> ->] _].
  exists (later (later (later w))), w2. repeat (split; [done|]). split; [by apply eq_None_not_Some|]. split; [|done]. repeat apply passed_later. apply passed_refl.
Qed.

Lemma udp_relayed decider address port payload client w p w' :
  run (inspect_socks5_udp decider address port payload client) w = (Ok (Relay p), w') →
  ∃ w1 w2, p = payload ∧ enabled (network (config (nw_state w))) = true ∧ mode (network (config (nw_state w))) = Full ∧ passed w w1 ∧
    policy_allows decider (mkPolicyRequest Socks5Udp (normalize_host address) port client None None None) w1 w2.
Proof using quiet.
  unfold inspect_socks5_udp. cbn zeta. intros H. case_match; [done|].
  unfold is_enabled in H. rewrite or_reply_current in H. destruct (enabled _) eqn:Een; cbn [negb] in H; [|refused].
  unfold network_mode in H. rewrite or_reply_current in H. cbn [nw_state later] in H. destruct (mode _) eqn:Em; [refused|].
  apply run_or_reply_Ok in H as (d & w2 & Ed & H); [|done]. destruct d; [|refused]. apply run_plift_ret in H as [[= ->] _].
  exists (later (later w)), w2. repeat (split; [done || (by repeat apply passed_later; apply passed_refl)|]). done.
Qed.

Lemma mitm_forwarded req policy s w up req' w' : run (handle_mitm_request req policy s) w = (Ok (MitmUpstream up req'), w') →
  ∃ v w1 uri, up = ms_upstream s ∧ allows_method (mc_mode policy) (req_method req) = true ∧ req_method req ≠ "CONNECT" ∧ host_mismatch req policy = false ∧
    run (host_blocked (target_host policy) (target_port policy)) w = (Ok v, w1) ∧ v ≠ Blocked NotAllowedLocal ∧
    let authority := authority_header_value (target_host policy) (target_port policy) in
    build_https_uri authority (path_and_query (req_uri req)) = Some uri ∧
    ∃ actions, match evaluate_mitm_hooks (cs_mitm_hooks (nw_state w1)) (target_host policy) req with
               | Matched a => actions = Some a | NoHooksForHost => actions = None | HookedHostNoMatch => False end ∧
      req' = set_headers (header_insert "host" authority (apply_mitm_hook_actions (req_headers req) actions)) (set_uri uri req).
Proof using quiet.
  unfold handle_mitm_request. intros (d & w2 & Ed & H)%run_or_reply_Ok; [|done]. destruct d as [actions|r]; [|by apply run_plift_ret in H as [? _]].
  destruct (build_https_uri _ _) as [uri|] eqn:Eu; [|by apply run_plift_ret in H as [? _]].
  destruct (header_value_error _); apply run_plift_ret in H as [H _]; [done|]. injection H as -> ->.
  unfold evaluate_mitm_policy in Ed. cbn zeta in Ed. destruct (String.eqb_spec (req_method req) "CONNECT") as [|Hc]; [done|].
  destruct (host_mismatch req policy) eqn:Em; [done|]. apply run_bind_Ok in Ed as (v & w1 & Ev & Ed). case_bool_decide as Eloc; [refused|].
  apply run_bind_Ok in Ed as (hk & w3 & Eh & Ed). unfold evaluate_mitm_hook_request in Eh. rewrite run_current in Eh. injection Eh as <- <-.
  exists v, w1, uri. repeat (split; [done|]).
  destruct (evaluate_mitm_hooks _ _ _) as [|a|] eqn:Eev; [| |refused]; (destruct (allows_method _ _); cbn [negb] in Ed; [|refused]);
    apply run_plift_ret in Ed as [[= ->] _]; (split; [done|]); repeat (split; [done|]); [by exists None|by exists (Some a)].
Qed.

Lemma run_host_blocked_state host port w r w1 : run (host_blocked host port) w = (r, w1) → nw_state w1 = nw_state w.
Proof using quiet.
  unfold host_blocked. rewrite run_bind, run_quiet_reload. destruct (host_parse host) as [h|e|]; [|by intros [-> ->]%run_plift_ret..].
  rewrite run_bind, run_read. cbn zeta. case_match; [by intros [-> ->]%run_plift_ret|].
  rewrite run_bind. destruct h as [n]. match goal with |- context [run ?p (later w)] => destruct (run p (later w)) as [r' w2] eqn:El end.
  change (run (local_check (nw_state w) n port) (later w) = (r', w2)) in El.
  destruct (run_local_check _ _ _ _ _ _ El) as (b & -> & Es & _). by repeat case_match; intros [-> ->]%run_plift_ret.
Qed.

Lemma unix_socket_method ma h req w client req' w' : run (unix_socket_request ma h req) w = (Ok (Upstream client req'), w') → ma = true.
Proof using quiet.
  unfold unix_socket_request. intros H. case_match; [|refused]. unfold is_enabled in H. rewrite or_reply_current in H.
  case_match; [refused|]. destruct ma; [done|]. cbn [negb] in H. refused.
Qed.

(** The decider leaves the mode alone. *)
Definition keeps_mode (decider : option NetworkPolicyDecider) : Prop :=
  ∀ d, decider = Some d → ∀ r w1 a w2, run (d r) w1 = (Ok a, w2) → mode (network (config (nw_state w2))) = mode (network (config (nw_state w1))).

Lemma evaluate_keeps_mode decider request w d w' : keeps_mode decider → run (evaluate_host_policy decider request) w = (Ok d, w') →
  mode (network (config (nw_state w'))) = mode (network (config (nw_state w))).
Proof using quiet.
  intros Hk H. destruct (evaluate_host_policy_run _ _ _ _ _ H) as (v & w1 & Ev & Hcase & _). apply run_host_blocked_state in Ev. rewrite <- Ev.
  destruct v as [|[]]; [by destruct Hcase as [_ ->]|by destruct Hcase as [_ ->]| |by destruct Hcase as [_ ->]].
  destruct decider as [decide|]; [|by destruct Hcase as [_ ->]]. destruct Hcase as (a & w2 & Er & _ & ->). by eapply Hk.
Qed.

Definition safe_method (method : string) : Prop := method = "GET" ∨ method = "HEAD" ∨ method = "OPTIONS".

Lemma limited_method method : allows_method Limited method = true → safe_method method.
Proof. unfold safe_method. cbn. rewrite !orb_true_iff, !String.eqb_eq. tauto. Qed.
End quiet.

(** C16. In limited mode a server is contacted only by reading requests: plain ones
    are of a reading method, a CONNECT is accepted only to be intercepted, the
    requests inside of the tunnel are of a reading method, and SOCKS is refused. *)
Theorem limited_mode_enforced decider w : (∀ t, maybe_reload t = Ok None) → keeps_mode decider →
  mode (network (config (nw_state w))) = Limited →
  (∀ req client req' w', run (http_plain_proxy decider req) w = (Ok (Upstream client req'), w') → safe_method (req_method req)) ∧
  (∀ req acc w', run (http_connect_accept decider req) w = (Ok (inl acc), w') →
     ∃ s, ∀ w1, run (http_connect_proxy acc) w1 = (Ok (MitmTunnel (normalize_host (ca_host acc)) (ca_port acc) Limited s), w1)) ∧
  (∀ req host port s w1 up req' w', run (handle_mitm_request req (mkMitmContext host port Limited) s) w1 = (Ok (MitmUpstream up req'), w') →
     safe_method (req_method req)) ∧
  (∀ target port client host' port' w', run (handle_socks5_tcp decider target port client) w ≠ (Ok (SocksDial host' port'), w')) ∧
  (∀ address port payload client p w', run (inspect_socks5_udp decider address port payload client) w ≠ (Ok (Relay p), w')).
Proof.
  intros Hq Hk Hm. split; [|split; [|split; [|split]]].
  - intros req client req' w' H. apply limited_method. rewrite <- Hm. destruct (header_get (req_headers req) "x-unix-socket") as [h|] eqn:Eh.
    + unfold http_plain_proxy in H. cbn zeta in H. unfold method_allowed in H. rewrite (or_reply_current Hq), Eh in H. by eapply unix_socket_method.
    + destruct (plain_upstream Hq _ _ _ _ _ _ H Eh) as (ctx & w1 & w2 & _ & _ & _ & ? & _). done.
  - intros req acc w' H. destruct (connect_accepted Hq _ _ _ _ _ H) as (ctx & w1 & w2 & _ & _ & (Ew & _) & Hp & Hn & ->).
    apply (evaluate_keeps_mode Hq _ _ _ _ _ Hk) in Hp. rewrite Ew, Hm in Hp. rewrite Hp in *. cbn [bool_decide decide_rel] in *.
    rewrite bool_decide_eq_true_2 in * by done. cbn [orb] in *. destruct Hn as [s Hs]; [done|]. exists s. intros w3.
    unfold http_connect_proxy. cbn. by rewrite Hs.
  - intros req host port s w1 up req' w' H. apply limited_method. by destruct (mitm_forwarded Hq _ _ _ _ _ _ _ H) as (? & ? & ? & _ & ? & _).
  - intros target port client host' port' w' H. destruct (socks_dialled Hq _ _ _ _ _ _ _ _ H) as (? & ? & _ & _ & _ & Ef & _). congruence.
  - intros address port payload client p w' H. destruct (udp_relayed Hq _ _ _ _ _ _ _ _ H) as (? & ? & _ & _ & Ef & _). congruence.
Qed.

(** The conditions under which a server may be contacted. *)
Definition contact_ok (decider : option NetworkPolicyDecider) (request : NetworkPolicyRequest) (w : NetWorld) : Prop :=
  let s := nw_state w in let net := network (config s) in let n := normalize_host (pr_host request) in
  enabled net = true ∧
  (n ≠ "" → listed (denied_domains net) n = false ∧ ∃ t, (nw_tick w <= t)%nat ∧ local_ok s t n (pr_port request)) ∧
  (n ≠ "" ∧ listed (allowed_domains net) n = true ∨
   ∃ decide w1 w2, decider = Some decide ∧ nw_state w1 = s ∧ nw_ext w1 = nw_ext w ∧ run (decide request) w1 = (Ok Allow, w2)).

Lemma run_local_tick s n port w r w' : run (local_check s n port) w = (r, w') → nw_ext w' = nw_ext w ∧ (nw_tick w <= nw_tick w')%nat.
Proof.
  unfold local_check, host_resolves_to_non_public_ip. repeat case_match; try by intros [-> ->]%run_plift_ret.
  rewrite run_bind, run_tick. intros [-> ->]%run_plift_ret. cbn. split; [done|lia].
Qed.

Lemma run_host_blocked_tick host port w r w1 : (∀ t, maybe_reload t = Ok None) → run (host_blocked host port) w = (r, w1) →
  nw_ext w1 = nw_ext w ∧ (nw_tick w < nw_tick w1)%nat.
Proof.
  intros Hq. unfold host_blocked. rewrite run_bind, (run_quiet_reload Hq). destruct (host_parse host) as [h|e|]; [|by intros [-> ->]%run_plift_ret; cbn; (split; [done|lia])..].
  rewrite run_bind, run_read. cbn zeta. case_match; [by intros [-> ->]%run_plift_ret; cbn; (split; [done|lia])|].
  rewrite run_bind. destruct h as [n]. match goal with |- context [run ?p (later w)] => destruct (run p (later w)) as [r' w2] eqn:El end.
  change (run (local_check (nw_state w) n port) (later w) = (r', w2)) in El. pose proof (run_local_tick _ _ _ _ _ _ El) as [Hx Ht]. cbn in Hx, Ht.
  destruct (run_local_check _ _ _ _ _ _ El) as (b & -> & Es & _). repeat case_match; intros [-> ->]%run_plift_ret; (split; [done|lia]).
Qed.

Lemma policy_allows_contact decider request w w1 w2 : (∀ t, maybe_reload t = Ok None) → lists_ok (nw_state w) →
  enabled (network (config (nw_state w))) = true → passed w w1 → policy_allows decider request w1 w2 → contact_ok decider request w.
Proof.
  intros Hq Hl Hen (Ew & Ex & Ht) H. destruct (evaluate_host_policy_run _ _ _ _ _ H) as (v & w3 & Ev & Hcase & _).
  pose proof (run_host_blocked_state Hq _ _ _ _ _ Ev) as Es. pose proof (run_host_blocked_tick _ _ _ _ _ Hq Ev) as [Ext' Htick].
  destruct (host_decision_spec (pr_host request) (pr_port request) w1 v w3) as (H1 & H2 & H3 & H4); [by intros t s; rewrite Hq|by rewrite Ew|done|].
  rewrite Es, Ew in H1, H2, H3, H4. unfold contact_ok. cbn zeta. split; [done|].
  destruct v as [|[]]; [| by destruct Hcase| | by destruct Hcase].
  - destruct (proj1 H3 eq_refl) as (Hn & Hd & Ho & Ha). split; [|by left]. intros _. split; [done|]. exists (pred (nw_tick w3)). split; [lia|done].
  - destruct decider as [decide|]; [|by destruct Hcase]. destruct Hcase as (a & w4 & Er & Em & _). assert (a = Allow) as -> by (by destruct a).
    split; [|right; exists decide, w3, w4; split; [done|]; split; [by rewrite Es|]; split; [by rewrite Ext'|done]].
    intros Hn. destruct (proj1 H4 eq_refl) as [E|(Hd & Ho & _)]; [done|]. split; [done|]. exists (pred (nw_tick w3)). split; [lia|done].
Qed.

Section contact.
Context (Hq : ∀ t, maybe_reload t = Ok None) (decider : option NetworkPolicyDecider) (w : NetWorld) (Hl : lists_ok (nw_state w)).

Lemma plain_contact req client req' w' : run (http_plain_proxy decider req) w = (Ok (Upstream client req'), w') →
  header_get (req_headers req) "x-unix-socket" = None →
  ∃ ctx, request_context req = Some ctx ∧ validate_absolute_form_host_header req ctx = None ∧
    contact_ok decider (mkPolicyRequest Http (normalize_host (host_display (rc_host ctx))) (rc_target_port ctx) (req_peer req)
                          (Some (req_method req)) None None) w.
Proof.
  intros H Hn. destruct (plain_upstream Hq _ _ _ _ _ _ H Hn) as (ctx & w1 & w2 & Hc & Hv & Hen & _ & Ew & Hp & _).
  exists ctx. split; [done|]. split; [done|]. by eapply policy_allows_contact.
Qed.

Lemma connect_contact req acc w' : run (http_connect_accept decider req) w = (Ok (inl acc), w') →
  contact_ok decider (mkPolicyRequest HttpsConnect (normalize_host (ca_host acc)) (ca_port acc) (req_peer req) (Some "CONNECT") None None) w.
Proof.
  intros H. destruct (connect_accepted Hq _ _ _ _ _ H) as (ctx & w1 & w2 & _ & Hen & Ew & Hp & _ & ->). cbn [ca_host ca_port].
  by eapply policy_allows_contact.
Qed.

Lemma socks_contact target port client host' port' w' : run (handle_socks5_tcp decider target port client) w = (Ok (SocksDial host' port'), w') →
  contact_ok decider (mkPolicyRequest Socks5Tcp (normalize_host host') port' client None None None) w ∧
  cs_mitm_hooks (nw_state w) !! normalize_host (normalize_host host') = None.
Proof.
  intros H. destruct (socks_dialled Hq _ _ _ _ _ _ _ _ H) as (w1 & w2 & -> & -> & Hen & _ & Hh & Ew & Hp).
  split; [by eapply policy_allows_contact|done].
Qed.

Lemma udp_contact address port payload client p w' : run (inspect_socks5_udp decider address port payload client) w = (Ok (Relay p), w') →
  contact_ok decider (mkPolicyRequest Socks5Udp (normalize_host address) port client None None None) w.
Proof.
  intros H. destruct (udp_relayed Hq _ _ _ _ _ _ _ _ H) as (w1 & w2 & _ & Hen & _ & Ew & Hp). by eapply policy_allows_contact.
Qed.
End contact.

(** C5. A request by itself, from a checked state that is not reloaded meanwhile: no
    server is contacted unless the proxy is enabled and the host is on the allow
    list or the decider allowed it; and for every host whose normal form is not
    empty, unless it is not on the deny list and, where local binding is off, it
    is a local address that the allow list names or it is looked up to public
    addresses only. *)
Theorem contact_checked decider w : (∀ t, maybe_reload t = Ok None) → lists_ok (nw_state w) →
  (∀ req client req' w', run (http_plain_proxy decider req) w = (Ok (Upstream client req'), w') →
     header_get (req_headers req) "x-unix-socket" = None →
     ∃ ctx, request_context req = Some ctx ∧ validate_absolute_form_host_header req ctx = None ∧
       contact_ok decider (mkPolicyRequest Http (normalize_host (host_display (rc_host ctx))) (rc_target_port ctx) (req_peer req)
                             (Some (req_method req)) None None) w) ∧
  (∀ req acc w', run (http_connect_accept decider req) w = (Ok (inl acc), w') →
     contact_ok decider (mkPolicyRequest HttpsConnect (normalize_host (ca_host acc)) (ca_port acc) (req_peer req) (Some "CONNECT") None None) w) ∧
  (∀ target port client host' port' w', run (handle_socks5_tcp decider target port client) w = (Ok (SocksDial host' port'), w') →
     contact_ok decider (mkPolicyRequest Socks5Tcp (normalize_host host') port' client None None None) w ∧
     cs_mitm_hooks (nw_state w) !! normalize_host (normalize_host host') = None) ∧
  (∀ address port payload client p w', run (inspect_socks5_udp decider address port payload client) w = (Ok (Relay p), w') →
     contact_ok decider (mkPolicyRequest Socks5Udp (normalize_host address) port client None None None) w).
Proof.
  intros Hq Hl. split; [by apply plain_contact|]. split; [by apply connect_contact|]. split; [by apply socks_contact|by apply udp_contact].
Qed.
End alone.

(** ** Changing the lists *)

(** The permission of a pattern is the strictest of its entries. *)
Definition stricter (a b : NetworkDomainPermission) : NetworkDomainPermission :=
  if (permission_rank a <? permission_rank b)%nat then b else a.

Definition strictest (l : list NetworkDomainPermissionEntry) (p : string) : option NetworkDomainPermission :=
  fold_left (λ acc e, if de_pattern e == p then Some (match acc with Some q => stricter q (de_permission e) | None => de_permission e end) else acc) l None.

Lemma effective_fold l order m acc : NoDup order → (∀ p, p ∈ order ↔ is_Some (m !! p)) → (∀ p, m !! p = acc p) →
  let '(order', m') := fold_left effective_step l (order, m) in
  NoDup order' ∧ (∀ p, p ∈ order' ↔ is_Some (m' !! p)) ∧
  (∀ p, m' !! p = fold_left (λ a e, if de_pattern e == p then Some (match a with Some q => stricter q (de_permission e) | None => de_permission e end) else a) l (acc p)).
Proof.
  revert order m acc. induction l as [|e l IH]; intros order m acc Hnd Hin Hacc; [done|]. cbn [fold_left].
  set (acc' := λ p, if de_pattern e == p then Some (match acc p with Some q => stricter q (de_permission e) | None => de_permission e end) else acc p).
  assert (∃ order1 m1, effective_step (order, m) e = (order1, m1) ∧ NoDup order1 ∧ (∀ p, p ∈ order1 ↔ is_Some (m1 !! p)) ∧ ∀ p, m1 !! p = acc' p)
    as (order1 & m1 & -> & H1 & H2 & H3); [|by apply (IH order1 m1 acc')].
  unfold effective_step. destruct (m !! de_pattern e) as [q|] eqn:E.
  - exists order, (if (permission_rank q <? permission_rank (de_permission e))%nat then <[de_pattern e := de_permission e]> m else m).
    split; [by case_match|]. split; [done|]. split.
    + intros p. rewrite Hin. case_match; [|done]. destruct (decide (p = de_pattern e)) as [->|Hne]; [rewrite lookup_insert_eq, E; naive_solver|by rewrite lookup_insert_ne].
    + intros p. unfold acc'. rewrite <- Hacc. destruct (String.eqb_spec (de_pattern e) p) as [<-|Hne]; [|case_match; [by rewrite lookup_insert_ne|done]].
      rewrite E. unfold stricter. case_match; [by rewrite lookup_insert_eq|done].
  - eexists _, _. split; [done|]. split; [|split].
    + apply NoDup_app. split; [done|]. split; [|apply NoDup_singleton]. intros x Hx ->%list_elem_of_singleton. apply Hin in Hx. rewrite E in Hx. by destruct Hx.
    + intros p. rewrite elem_of_app, list_elem_of_singleton, Hin. destruct (decide (p = de_pattern e)) as [->|Hne].
      * rewrite lookup_insert_eq. naive_solver.
      * rewrite lookup_insert_ne by done. naive_solver.
    + intros p. unfold acc'. rewrite <- Hacc. destruct (String.eqb_spec (de_pattern e) p) as [<-|Hne]; [by rewrite lookup_insert_eq, E|by rewrite lookup_insert_ne].
Qed.

Lemma remove_in_order_spec order m p q : NoDup order → mkDomainEntry p q ∈ remove_in_order order m ↔ p ∈ order ∧ m !! p = Some q.
Proof.
  intros Hnd. revert m. induction Hnd as [|x order Hx Hnd IH]; intros m; cbn [remove_in_order].
  { rewrite !elem_of_nil. naive_solver. }
  destruct (m !! x) as [r|] eqn:E.
  - rewrite !elem_of_cons, IH. split.
    + intros [[= -> ->]|[Hp Hm]]; [naive_solver|]. rewrite lookup_delete_ne in Hm by (by intros ->). naive_solver.
    + intros [[->|Hp] Hm]; [left; congruence|]. right. split; [done|]. rewrite lookup_delete_ne; [done|by intros ->].
  - rewrite IH, elem_of_cons. split; [naive_solver|]. intros [[->|Hp] Hm]; [congruence|done].
Qed.

Lemma effective_entries_spec d p q : mkDomainEntry p q ∈ effective_entries d ↔ strictest (domain_list d) p = Some q.
Proof.
  unfold effective_entries. pose proof (effective_fold (domain_list d) [] ∅ (λ _, None)) as H.
  destruct (fold_left effective_step (domain_list d) ([], ∅)) as [order m]. destruct H as (Hnd & Hin & Hm).
  { constructor. } { intros p'. rewrite lookup_empty, elem_of_nil. split; [done|by intros [? ?]]. } { intros p'. apply lookup_empty. }
  rewrite remove_in_order_spec by done. rewrite Hin, Hm. unfold strictest. split; [naive_solver|]. intros ->. naive_solver.
Qed.

Lemma domain_entries_spec s perm p : p ∈ default [] (domain_entries s perm) ↔ strictest (taken_domains s) p = Some perm.
Proof.
  unfold domain_entries, taken_domains. destruct (domains s) as [d|]; cbn [mbind option_bind]; [|cbn; rewrite elem_of_nil; split; [done|by intros [=]]].
  rewrite <- effective_entries_spec. set (l := map _ _). assert (p ∈ default [] (non_empty_list l) ↔ p ∈ l) as -> by (by destruct l).
  subst l. rewrite list_elem_of_fmap. split.
  - intros ([p' q'] & -> & Hin%list_elem_of_In). apply filter_In in Hin as [Hin Hq]. cbn in Hq. apply bool_decide_eq_true in Hq as ->. by apply list_elem_of_In.
  - intros Hin. exists (mkDomainEntry p perm). split; [done|]. apply list_elem_of_In, filter_In. split; [by apply list_elem_of_In|]. by apply bool_decide_eq_true.
Qed.

(** An entry for a host takes the place of all that mean the same. *)
Lemma upsert_strictest host perm s : strictest (taken_domains (upsert_domain_permission host perm normalize_host s)) host = Some perm.
Proof.
  unfold upsert_domain_permission, taken_domains at 1, set_domains, non_empty_domains. cbn [domains].
  set (l := List.filter _ _). assert (non_empty_list (l ++ [mkDomainEntry host perm]) = Some (l ++ [mkDomainEntry host perm])) as -> by (by destruct l).
  cbn [fmap option_fmap option_map domain_list]. unfold strictest. rewrite fold_left_app. cbn. rewrite str_eqb_refl.
  assert (∀ acc, fold_left (λ a e, if de_pattern e == host then Some (match a with Some q => stricter q (de_permission e) | None => de_permission e end) else a) l acc = acc) as ->; [|done].
  subst l. induction (taken_domains s) as [|e t IH]; [done|]. intros acc. cbn. destruct (String.eqb_spec (normalize_host (de_pattern e)) (normalize_host host)) as [|Hne]; cbn; [apply IH|].
  destruct (String.eqb_spec (de_pattern e) host) as [E|]; [by rewrite E in Hne|apply IH].
Qed.

Section added.
Context `{HU : Unicode} `{HD : HostDirs} `{HL : NetLibs} `{HH : HttpLib} `{HO : HashOrder} `{HE : NetEnv} `{HB : !NetObserver} `{HR : RamaLib} `{HW : !NetLibsLaws}.

Lemma scoped_star t d : scoped_ip_literal (String "*" t) (String "%" d) = None.
Proof.
  unfold scoped_ip_literal, split_once. change (str_find (String "%" d) (String "*" t)) with (S <$> str_find (String "%" d) t).
  by destruct (str_find (String "%" d) t).
Qed.

Lemma trim_end_char_head c a s : a ≠ c → ∃ t, trim_end_char c (String a s) = String a t.
Proof.
  intros Hne. change (String a s) with (String a "" +:+ s). unfold trim_end_char. rewrite str_rev_append.
  change (str_rev (String a "")) with (String a ""). induction (str_rev s) as [|b r IH].
  - change ("" +:+ String a "") with (String a ""). cbn [drop_leading]. rewrite (proj2 (Ascii.eqb_neq a c) Hne). by exists "".
  - change (String b r +:+ String a "") with (String b (r +:+ String a "")). cbn [drop_leading]. destruct (Ascii.eqb b c); [done|]. exists (str_rev (String b r)).
    change (String b (r +:+ String a "")) with (String b r +:+ String a ""). by rewrite str_rev_append.
Qed.

(** A text with a star in front keeps it. *)
Lemma normalize_dns_star t : plain_domain (normalize_dns_host_or_ip_literal (String "*" t)) = false.
Proof.
  unfold normalize_dns_host_or_ip_literal. change (to_ascii_lowercase (String "*" t)) with (String "*" (to_ascii_lowercase t)).
  destruct (trim_end_char_head "." "*" (to_ascii_lowercase t)) as [t' ->]; [done|].
  unfold normalize_ip_literal. by rewrite !scoped_star.
Qed.

Lemma normalize_host_star e t : trim e = String "*" t → plain_domain (normalize_host e) = false.
Proof.
  intros E. unfold normalize_host. rewrite E. cbn [starts_with String.prefix]. change (starts_with (String "*" t) "[") with false. cbn [split_first].
  case_match; [|apply normalize_dns_star]. unfold split_first. change (split_at_char ":" (String "*" t)) with (let '(a, b) := split_at_char ":" t in (String "*" a, b)).
  destruct (split_at_char ":" t). apply normalize_dns_star.
Qed.

(** The host of an entry that is a plain name is in its normal form. *)
Lemma normalize_dns_fixed x : plain_domain (normalize_dns_host_or_ip_literal x) = true →
  normalize_domain (normalize_dns_host_or_ip_literal x) = normalize_dns_host_or_ip_literal x.
Proof.
  unfold normalize_dns_host_or_ip_literal. rewrite trim_end_lower. unfold normalize_ip_literal.
  destruct (is_ip (normalize_domain x)); [intros _; apply normalize_domain_idemp|].
  assert (∀ d r, scoped_ip_literal (normalize_domain x) d = Some r → plain_domain r = false) as Hs.
  { intros d r. unfold scoped_ip_literal. destruct (split_once _ d) as [[ip scope]|]; cbn; [|done]. case_match; [|done]. intros [= <-].
    unfold plain_domain. rewrite str_forall_app. cbn. apply andb_false_r. }
  destruct (scoped_ip_literal _ "%25") as [r|] eqn:E1; cbn [from_option]; [intros Hp; change (plain_domain r = true) in Hp; by rewrite (Hs _ _ E1) in Hp|].
  destruct (scoped_ip_literal _ "%") as [r|] eqn:E2; cbn [from_option]; [intros Hp; change (plain_domain r = true) in Hp; by rewrite (Hs _ _ E2) in Hp|intros _; apply normalize_domain_idemp].
Qed.

Lemma normalize_host_fixed e : plain_domain (normalize_host e) = true → normalize_domain (normalize_host e) = normalize_host e.
Proof. unfold normalize_host. repeat case_match; apply normalize_dns_fixed. Qed.

(** An entry with such a host covers the host. *)
Lemma entry_covers_host e : plain_domain (normalize_host e) = true → normalize_host e ≠ "" → entry_matches e (normalize_host e) = true.
Proof.
  intros Hp Hn. assert (∀ t, strip_prefix (String "*" t) (trim e) = None) as Hs.
  { intros t. unfold strip_prefix, starts_with. destruct (trim e) as [|a r] eqn:E; [done|]. cbn [String.prefix]. destruct (ascii_dec "*" a) as [<-|]; [|done].
    by rewrite (normalize_host_star _ _ E) in Hp. }
  assert (normalize_pattern e = normalize_host e) as E.
  { unfold normalize_pattern. destruct (String.eqb_spec (trim e) "*") as [E|_]; [by rewrite (normalize_host_star _ _ E) in Hp|].
    rewrite !Hs. cbn. unfold normalize_host. by rewrite trim_idemp. }
  unfold entry_matches. rewrite E. unfold expand_domain_pattern.
  change (pattern_parse (normalize_host e)) with (pattern_parse (entry_of (Exact (normalize_host e)))). rewrite (pattern_parse_plain (Exact (normalize_host e))) by done.
  cbn [existsb]. rewrite plain_glob_match, orb_false_r by done. unfold eq_ignore_ascii_case. apply str_eqb_refl.
Qed.

Lemma run_write {A} (f : ConfigState → A * ConfigState) w :
  run (write_state f) w = (Ok (f (nw_state w)).1, mkNetWorld _ (f (nw_state w)).2 (nw_observer w) (nw_audit w) (nw_tick w) (nw_ext w)).
Proof. unfold write_state. rewrite run_atomic. by destruct (f (nw_state w)). Qed.

(** One round without reloads: the host is on the list afterwards. *)
Lemma update_lists rounds n target w r w' : (∀ t, maybe_reload t = Ok None) → lists_ok (nw_state w) →
  plain_domain n = true → n ≠ "" → normalize_domain n = n →
  run (update_rounds (S rounds) n target) w = (Ok r, w') →
  r = Some () ∧ lists_ok (nw_state w') ∧ list_matches (list_entries target (network (config (nw_state w')))) n = true.
Proof.
  intros Hq Hl Hp Hne Hd. cbn [update_rounds]. intros (u & w1 & E & H)%run_bind_Ok. rewrite (run_quiet_reload Hq) in E. injection E as _ <-.
  apply run_bind_Ok in H as (g & w2 & [= <- <-] & H). cbn [later nw_state] in H. destruct (_ && _) eqn:Ec in H.
  { apply run_plift_ret in H as [[= ->] ->]. split; [done|]. split; [done|]. apply andb_true_iff in Ec as [(e & He & En%String.eqb_eq)%existsb_exists _].
    apply list_matches_spec. exists e. split; [by apply list_elem_of_In|]. rewrite <- En in Hp, Hne |- *. by apply entry_covers_host. }
  set (net' := upsert_domain_permission n (list_permission target) normalize_host (network (config (nw_state w)))) in *.
  apply run_bind_Ok in H as (u1 & w3 & Hv & H). rewrite run_lift in Hv. destruct (err_context _ _) as [u2|e|] eqn:Ev; try discriminate Hv. injection Hv as <- <-.
  apply into_anyhow_context in Ev. apply run_bind_Ok in H as (t & w4 & [= <- <-] & H). apply run_bind_Ok in H as (s' & w5 & Hb & H).
  rewrite run_lift in Hb. destruct (err_context (build_config_state _ _ _) _) as [s2|e|] eqn:Eb; try discriminate Hb. injection Hb as <- <-.
  assert (build_config_state (nw_tick (later w)) (mkConfig net') (constraints (nw_state w)) = Ok s2) as Hs by (by destruct (build_config_state _ _ _)).
  apply build_config_state_inv in Hs as (Hcfg & Hk & Ha & Hde). apply run_bind_Ok in H as (st & w6 & Hw & H).
  rewrite run_write in Hw. cbn [nw_state later] in Hw. rewrite !bool_decide_eq_true_2 in Hw by done. injection Hw as <- <-. apply run_plift_ret in H as [[= ->] ->].
  split; [done|]. split; [unfold lists_ok; cbn; by rewrite Hcfg, Hk|]. cbn. rewrite Hcfg. apply list_matches_spec. exists n. split.
  - pose proof (upsert_strictest n (list_permission target) (network (config (nw_state w)))) as Hu%domain_entries_spec. by destruct target.
  - rewrite <- (normalize_host_plain n Hp) in Hd. rewrite <- Hd at 2. apply entry_covers_host; by rewrite Hd.
Qed.

(** C9. Run by itself from a checked state that is not reloaded meanwhile: when
    adding a host to the denied ones succeeds and the host is a plain name or an
    IPv4 address, the first round is enough, and in the state it leaves the proxy
    answers for every spelling of that host (case, port, trailing dots, brackets,
    blanks) that it is denied, whatever the configuration held for it before and
    whatever the port. *)
Theorem added_denial_blocks rounds host w r w' : (∀ t, maybe_reload t = Ok None) → lists_ok (nw_state w) →
  plain_domain (normalize_host host) = true → run (add_denied_domain (S rounds) host) w = (Ok r, w') →
  r = Some () ∧ lists_ok (nw_state w') ∧
  ∀ spelling port, normalize_host spelling = normalize_host host → (run (host_blocked spelling port) w').1 = Ok (Blocked Denied).
Proof.
  intros Hq Hl Hp. unfold add_denied_domain, update_domain_list. intros (h & w1 & Eh & H)%run_bind_Ok. rewrite run_lift in Eh.
  unfold host_parse in Eh. destruct (str_is_empty (normalize_host host)) eqn:En; cbn in Eh; [done|]. injection Eh as <- <-. apply String.eqb_neq in En.
  destruct (update_lists _ _ _ _ _ _ Hq Hl Hp En (normalize_host_fixed _ Hp) H) as (-> & Hl' & Hm). split; [done|]. split; [done|]. intros spelling port Es.
  destruct Hl' as (_ & _ & Hde). unfold host_blocked. rewrite run_bind, (run_quiet_reload Hq). 
  assert (host_parse spelling = Ok (mkHost (normalize_host host))) as -> by (unfold host_parse; by rewrite Es, (not_empty _ En)).
  rewrite run_bind, run_read. cbn [later nw_state]. rewrite (listed_compiled _ _ _ _ Hde). unfold listed. cbn [list_entries] in Hm. cbn [host_text]. by rewrite Hm.
Qed.
End added.

(** ** A concrete proxy *)

(** The globs of host patterns, as far as the patterns above need them. *)
Definition demo_glob (glob host : string) : bool :=
  if glob == "*" then true
  else match strip_prefix "?*." glob with
       | Some d => existsb (λ i, starts_with (str_drop i host) "." && eq_ignore_ascii_case d (str_drop (i + 1) host))
                     (seq 1 (String.length host))
       | None => eq_ignore_ascii_case glob host
       end.

#[local] Instance demo_net_libs : NetLibs := {|
  host_glob_error _ := None;
  host_glob_match := demo_glob;
  globset_error _ := None;
  hook_glob_error _ _ := None;
  hook_glob_match _ := demo_glob;
  url_host d := Some (normalize_domain d);
  url_authority _ := None
|}.

Lemma str_split_at n s : (n <= String.length s)%nat → s = str_take n s +:+ str_drop n s ∧ String.length (str_take n s) = n.
Proof.
  revert s. induction n as [|n IH]; intros [|a s] Hn; cbn in *; try done; [lia|]. destruct (IH s) as [E El]; [lia|].
  split; [|by f_equal]. change (String a s = String a (str_take n s +:+ str_drop n s)). by rewrite <- E.
Qed.

#[local] Instance demo_net_laws : NetLibsLaws.
Proof.
  split; [done| | |done].
  - intros d h Hd. cbn. unfold demo_glob. destruct (String.eqb_spec d "*") as [->|_]; [done|].
    unfold strip_prefix. by rewrite starts_with_absent by (by apply plain_without).
  - intros d h Hd. cbn [host_glob_match demo_net_libs]. unfold demo_glob. change (("?*." +:+ d) == "*") with false. cbn [andb].
    unfold strip_prefix. rewrite starts_with_app, str_drop_app, existsb_exists. split.
    + intros (i & Hi & H). apply in_seq in Hi. apply andb_true_iff in H as [(e & He)%starts_with_spec H].
      destruct (str_split_at i h) as [E El]; [lia|]. rewrite He in E. exists (str_take i h), e. split; [done|].
      split; [intros E0; rewrite E0 in El; cbn in El; lia|]. rewrite E in H.
      replace (i + 1)%nat with (String.length (str_take i h +:+ ".")) in H by (rewrite str_length_app, El; cbn; lia).
      by rewrite <- str_app_assoc, str_drop_app in H.
    + intros (x & e & -> & Hx & He). exists (String.length x). split.
      { apply in_seq. rewrite !str_length_app. destruct x; [done|]. cbn. lia. }
      rewrite str_drop_app, starts_with_app. replace (String.length x + 1)%nat with (String.length (x +:+ ".")) by (rewrite str_length_app; cbn; lia).
      by rewrite <- str_app_assoc, str_drop_app.
Qed.

#[local] Instance demo_dirs : HostDirs := {| home_dir := Some "/home/me"; current_dir := IoOk "/work" |}.

#[local] Instance demo_http_lib : HttpLib := {|
  header_name_from s := inl (to_ascii_lowercase s);
  header_value_error _ := None;
  header_value_to_str s := Some s;
  form_pairs _ := []
|}.

#[local] Instance net_hash_order : HashOrder := λ _ l, l.

#[local] Instance net_hash_order_laws : HashOrderLaws.
Proof. by intros A l. Qed.

(** Every name leads to a public address; nothing is reloaded. *)
#[local] Instance demo_net_env : NetEnv := {|
  Observer := unit;
  Ext := unit;
  env_var_at _ _ := None;
  secret_file_at _ _ := IoErr "not found";
  ca_at _ := Ok "authority";
  maybe_reload _ := Ok None;
  reload_now _ := Err "no configuration";
  lookup_at _ _ port := Resolved [mkSocketAddr (V4 (mkIpv4 93 184 216 34)) port];
  unix_time_at t := Z.of_nat t;
  canonical_at _ _ := None;
  target_macos := false
|}.

#[local] Instance demo_net_observer : NetObserver := λ _ _, mret ().

(** The target of a request is the authority of its address, at port 80. *)
#[local] Instance demo_rama : RamaLib := {|
  RamaHost := string;
  host_display h := h;
  host_eqb := String.eqb;
  request_context req := (λ h, mkContext h None 80%N true) <$> uri_authority (req_uri req);
  host_header _ := Some None;
  uri_from _ := None;
  proxy_address_from _ := None
|}.

#[local] Existing Instance demo_unicode.

Definition demo_net_domains : NetworkDomainPermissions :=
  mkDomains [mkDomainEntry "**.example.com" AllowDomain; mkDomainEntry "evil.example.com" DenyDomain].

Definition demo_settings (m : NetworkMode) : NetworkProxySettings :=
  mkSettings true default_proxy_url true default_socks_url true false false false m (Some demo_net_domains) None false true [].

Definition demo_constraints : NetworkProxyConstraints :=
  mkConstraints (Some true) None None None None (Some ["**.example.com"]) (Some false) (Some ["evil.example.com"]) None None None.

Definition demo_config_state (m : NetworkMode) : ConfigState :=
  match build_config_state 0 (mkConfig (demo_settings m)) demo_constraints with
  | Ok s => s
  | _ => mkConfigState (mkConfig settings_default) (mkGlobSet []) (mkGlobSet []) None ∅ constraints_default [] 0
  end.

Definition demo_net_world (m : NetworkMode) : NetWorld := mkNetWorld _ (demo_config_state m) None [] 0 ().

Definition demo_request (method authority : string) : Request :=
  mkRequest method (mkUri (Some "http") (Some authority) "/" None (Some "/")) [] "" (Some "127.0.0.1:5000").

Lemma demo_lists_ok m : lists_ok (demo_config_state m).
Proof. by destruct m; vm_compute. Qed.

Lemma demo_quiet t : maybe_reload t = Ok None.
Proof. done. Qed.

Example demo_plain : (run (http_plain_proxy None (demo_request "GET" "www.example.com")) (demo_net_world Limited)).1
  = Ok (Upstream DirectClient (demo_request "GET" "www.example.com")).
Proof. by vm_compute. Qed.

Example demo_denied : match (run (http_plain_proxy None (demo_request "GET" "EVIL.example.com.")) (demo_net_world Full)).1 with
  | Ok (Respond r) => rsp_status r = 403%N ∧ header_get (rsp_headers r) "x-proxy-error" = Some "blocked-by-denylist"
  | _ => False
  end.
Proof. by vm_compute. Qed.

(** Two requests and a new denial, one action after the other. *)
Definition demo_calls : list NetCall :=
  [CallPlain None (demo_request "GET" "www.example.com"); CallAddDenied 1 "bad.com"; CallPlain None (demo_request "GET" "evil.example.com")].

Definition demo_net_run : list (Proc NetWorld ()) * NetWorld :=
  sched (concat (repeat [0%nat; 1%nat; 2%nat] 30)) (map perform demo_calls, demo_net_world Full).

Lemma demo_canonical : Forall canonical_entry ["**.example.com"].
Proof. constructor; [|done]. exists (ApexAndSubdomains "example.com"). by vm_compute. Qed.

(** A server of the managed list is reached, the managed denial is kept and a
    denial is added while they are served. *)
Lemma managed_hosts_enforced_witness :
  (∃ ps w, demo_net_run = (ps, w) ∧ Forall (λ p, ∃ r, p = Done r) ps ∧ length (nw_audit w) = 2%nat ∧ length (blocked (nw_state w)) = 1%nat ∧
     denied_domains (network (config (nw_state w))) = Some ["evil.example.com"; "bad.com"]) ∧
  ∀ h, host_form h → globset_is_match (allow_set (nw_state demo_net_run.2)) h = true → list_matches ["**.example.com"] h = true.
Proof.
  split.
  - destruct demo_net_run as [ps w] eqn:E. exists ps, w. split; [done|]. vm_compute in E. injection E as <- <-. cbn.
    split; [repeat (constructor; [by eexists|]); constructor|done].
  - refine (proj1 (proj2 (proj2 (managed_hosts_enforced demo_calls (demo_net_world Full) demo_net_run.1 demo_net_run.2 _ _ _ _ _ _))) ["**.example.com"] _ _ demo_canonical _).
    + done.
    + done.
    + intros o b. apply keeps_ret.
    + repeat constructor; by intros d [=].
    + split; [apply demo_lists_ok|]. vm_compute. lia.
    + unfold demo_net_run. rewrite <- surjective_pairing. apply sched_psteps.
    + by vm_compute.
    + by vm_compute.
    + assert (default [] (allowed_domains (network (config (nw_state demo_net_run.2)))) = ["**.example.com"]) as -> by (by vm_compute). apply demo_canonical.
Defined.

(** A decider that allows everything lets an unlisted host through, and not a
    denied one. *)
Definition demo_decider : NetworkPolicyDecider := λ _, mret Allow.

Definition demo_policy_request (host : string) : NetworkPolicyRequest := mkPolicyRequest Http host 80 None (Some "GET") None None.

Lemma decider_bounded_witness :
  (run (evaluate_host_policy (Some demo_decider) (demo_policy_request "other.org")) (demo_net_world Full)).1 = Ok Allow ∧
  ∃ v w1 e, run (host_blocked "evil.example.com" 80) (demo_net_world Full) = (Ok v, w1) ∧ v = Blocked Denied ∧ au_policy_override e = false ∧ au_decision e ≠ "allow".
Proof.
  split; [by vm_compute|].
  destruct (run (evaluate_host_policy (Some demo_decider) (demo_policy_request "evil.example.com")) (demo_net_world Full)) as [r w'] eqn:E.
  assert (r = Ok (Deny "denied" BaselinePolicy PolicyDeny)) as -> by (by vm_compute in E; injection E as <- _).
  destruct (decider_bounded _ _ _ _ _ E) as (v & w1 & e & Ev & _ & _ & Hd & _ & Hdec). exists v, w1, e.
  assert (v = Blocked Denied) as -> by (by vm_compute in Ev; injection Ev as <- _).
  destruct Hd as (_ & _ & Hov); [by left|]. repeat (split; [done|]). by intros ?%Hdec.
Defined.

(** In limited mode a reading request is forwarded, a CONNECT is intercepted and
    SOCKS is refused. *)
Lemma limited_mode_enforced_witness :
  (∃ client req w', run (http_plain_proxy None (demo_request "GET" "example.com")) (demo_net_world Limited) = (Ok (Upstream client req), w')) ∧
  safe_method "GET" ∧
  (∃ acc w' s, run (http_connect_accept None (demo_request "CONNECT" "example.com")) (demo_net_world Limited) = (Ok (inl acc), w') ∧
     run (http_connect_proxy acc) w' = (Ok (MitmTunnel "example.com" 80 Limited s), w')) ∧
  ∀ h p w', run (handle_socks5_tcp None "example.com" 443 None) (demo_net_world Limited) ≠ (Ok (SocksDial h p), w').
Proof.
  destruct (limited_mode_enforced None (demo_net_world Limited) demo_quiet) as (Hp & Hc & _ & Hs & _); [by intros ? [=]|by vm_compute|].
  destruct (run (http_plain_proxy None (demo_request "GET" "example.com")) (demo_net_world Limited)) as [r w1] eqn:E.
  assert (r = Ok (Upstream DirectClient (demo_request "GET" "example.com"))) as -> by (by vm_compute in E; injection E as <- _).
  split; [by do 3 eexists|]. split; [exact (Hp _ _ _ _ E)|]. split; [|intros h p w'; apply Hs].
  destruct (run (http_connect_accept None (demo_request "CONNECT" "example.com")) (demo_net_world Limited)) as [r2 w2] eqn:E2.
  assert (r2 = Ok (inl (mkAccepted "example.com" 80 true Limited (Some (mkMitmState "authority" (mkUpstream false false)))))) as ->
    by (by vm_compute in E2; injection E2 as <- _).
  destruct (Hc _ _ _ E2) as [s Hm]. do 2 eexists. exists s. split; [done|apply Hm].
Defined.

(** A host that the list covers is contacted through the plain proxy and through
    SOCKS, after the checks. *)
Lemma contact_checked_witness :
  (run (handle_socks5_tcp None "www.example.com" 443 None) (demo_net_world Full)).1 = Ok (SocksDial "www.example.com" 443) ∧
  contact_ok None (mkPolicyRequest Socks5Tcp "www.example.com" 443 None None None None) (demo_net_world Full) ∧
  contact_ok None (mkPolicyRequest Http "www.example.com" 80 (Some "127.0.0.1:5000") (Some "GET") None None) (demo_net_world Full).
Proof.
  destruct (contact_checked None (demo_net_world Full) demo_quiet (demo_lists_ok Full)) as (Hp & _ & Hs & _). split; [by vm_compute|]. split.
  - destruct (run (handle_socks5_tcp None "www.example.com" 443 None) (demo_net_world Full)) as [r w1] eqn:E.
    assert (r = Ok (SocksDial "www.example.com" 443)) as -> by (by vm_compute in E; injection E as <- _).
    exact (proj1 (Hs _ _ _ _ _ _ E)).
  - destruct (run (http_plain_proxy None (demo_request "GET" "www.example.com")) (demo_net_world Full)) as [r w1] eqn:E.
    assert (r = Ok (Upstream DirectClient (demo_request "GET" "www.example.com"))) as -> by (by vm_compute in E; injection E as <- _).
    destruct (Hp _ _ _ _ E) as (ctx & [= <-] & _ & Hok); [done|exact Hok].
Defined.

(** The demonstration's allowed host is denied once it was added. *)
Lemma added_denial_blocks_witness :
  (run (host_blocked "www.example.com" 443) (demo_net_world Full)).1 = Ok Allowed ∧
  ∃ w', run (add_denied_domain 1 "www.example.com") (demo_net_world Full) = (Ok (Some ()), w') ∧
    (run (host_blocked " WWW.Example.com.:443" 443) w').1 = Ok (Blocked Denied).
Proof.
  split; [by vm_compute|]. destruct (run (add_denied_domain 1 "www.example.com") (demo_net_world Full)) as [r w'] eqn:E. exists w'.
  assert (r = Ok (Some ())) as -> by (by vm_compute in E; injection E as <- _). split; [done|].
  refine (proj2 (proj2 (added_denial_blocks 0 "www.example.com" (demo_net_world Full) _ w' demo_quiet (demo_lists_ok Full) _ E)) _ _ _); by vm_compute.
Defined.

(** ** What the code does not do *)

(** Removing a header removes all of its lines, so the names that a second
    [Connection] line lists are forwarded. *)
Example second_connection_line_ignored :
  remove_hop_by_hop_request_headers [("connection", "x-hop"); ("connection", "x-secret"); ("x-hop", "1"); ("x-secret", "2"); ("accept", "a")]
  = [("x-secret", "2"); ("accept", "a")].
Proof. reflexivity. Qed.

(** Addresses of version 6 are no hosts for the URL parser without brackets, and
    with them the brackets are taken off: the constraints read them all as the
    empty domain, and a managed address allows every other one. *)
Lemma managed_address_allows_all `{NetLibs} a b :
  trim a = a → trim b = b → trim_end_char "." a = a → trim_end_char "." b = b →
  (∀ x, x ∈ [a; b] → str_is_empty x = false ∧ str_contains x "*" = false ∧ str_contains x "?" = false ∧ str_contains x "%" = false ∧
     starts_with x "[" = false ∧ url_host x = None) →
  allows (parse_for_constraints a) (parse_for_constraints b) = true.
Proof.
  intros Ha Hb Ta Tb Hx. assert (∀ x, x ∈ [a; b] → trim x = x → trim_end_char "." x = x → parse_for_constraints x = Exact "") as Hp.
  { intros x Hin Ht Hd. destruct (Hx x Hin) as (He & H1 & H2 & H3 & Hs & Hu). unfold parse_for_constraints. rewrite Ht, He.
    assert (∀ t, strip_prefix (String "*" t) x = None) as Hstar.
    { intros t. unfold strip_prefix. destruct (starts_with x (String "*" t)) eqn:E; [|done]. apply starts_with_spec in E as [u ->].
      change (String "*" t +:+ u) with (String "*" (t +:+ u)) in H1. rewrite str_contains_char in H1. discriminate H1. }
    rewrite (Hstar "*."), (Hstar "."). unfold parse_domain_for_constraints. rewrite Ht, Hd, He, Hs. cbn [andb]. by rewrite H1, H2, H3, Hu. }
  rewrite (Hp a), (Hp b); [done|set_solver|done|done|set_solver|done|done].
Qed.

(** Addresses for documentation, and those that stand for private IPv4 addresses
    behind a NAT64 gateway, count as public. *)
Example not_routable_but_public :
  is_non_public_ip <$> parse_ip "2001:db8::1" = Some false ∧ is_non_public_ip <$> parse_ip "64:ff9b::10.0.0.1" = Some false.
Proof. done. Qed.

(** The same environment with a configuration that is reloaded at the first tick. *)
Definition demo_reload_env : NetEnv := {|
  Observer := unit;
  Ext := unit;
  env_var_at _ _ := None;
  secret_file_at _ _ := IoErr "not found";
  ca_at _ := Ok "authority";
  maybe_reload t := Ok (match t with O => Some (demo_config_state Limited) | _ => None end);
  reload_now _ := Ok (demo_config_state Limited);
  lookup_at _ _ port := Resolved [mkSocketAddr (V4 (mkIpv4 93 184 216 34)) port];
  unix_time_at t := Z.of_nat t;
  canonical_at _ _ := None;
  target_macos := false
|}.

Definition demo_refusal : BlockedRequest := mkBlocked (mkBlockedArgs "other.org" "not_allowed" None None None "http" None None None) 0.

Definition demo_reload_world : NetWorld (H:=demo_reload_env) := mkNetWorld demo_reload_env (demo_config_state Full) None [] 0 ().

(** A refusal that is recorded between the two halves of a reload is lost. *)
Example reload_loses_refusal :
  let w := (sched [0; 0; 1; 1; 1; 0]%nat
              ([reload_if_needed (HE:=demo_reload_env); record_blocked (HE:=demo_reload_env) (H4:=λ _ _, mret ()) demo_refusal],
               demo_reload_world)).2 in
  blocked (nw_state w) = [] ∧ blocked_total (nw_state w) = 0%N.
Proof. by vm_compute. Qed.

(** A forced reload keeps the refusals and forgets how many there were. *)
Example force_reload_forgets_total :
  let w0 := mkNetWorld demo_reload_env (push_blocked demo_refusal (demo_config_state Full)) None [] 1 () in
  let w := (run (force_reload (HE:=demo_reload_env)) w0).2 in
  blocked_total (nw_state w0) = 1%N ∧ blocked (nw_state w) = [demo_refusal] ∧ blocked_total (nw_state w) = 0%N.
Proof. by vm_compute. Qed.
