(* ===== verification/Permissions.v ===== *)
(** * Sandbox permissions (protocol: permissions.rs, models.rs, protocol.rs)

    What a sandboxed command may read and write: entries that grant or deny
    access below a path, and the rule by which the most specific entry wins.
    On Unix; paths are texts, compared by their components as [std::path]
    does. *)

From S2P Require Import Prelude RustStr Os AbsPath.

(** ** Data *)

Inductive NetworkSandboxPolicy := NetRestricted | NetEnabled.

Definition net_is_enabled (n : NetworkSandboxPolicy) : bool :=
  match n with NetEnabled => true | NetRestricted => false end.

(** In the order of precedence among equally specific entries. *)
Inductive FileSystemAccessMode := AccessRead | AccessWrite | AccessDeny.

#[export] Instance FileSystemAccessMode_eq_dec : EqDecision FileSystemAccessMode.
Proof. solve_decision. Defined.

Definition access_rank (a : FileSystemAccessMode) : nat :=
  match a with AccessRead => 0 | AccessWrite => 1 | AccessDeny => 2 end.

Definition can_read (a : FileSystemAccessMode) : bool :=
  match a with AccessDeny => false | _ => true end.

Definition can_write (a : FileSystemAccessMode) : bool :=
  match a with AccessWrite => true | _ => false end.

Inductive FileSystemSpecialPath :=
| SpecialRoot
| SpecialMinimal
| ProjectRoots (subpath : option string)
| SpecialTmpdir
| SlashTmp
| UnknownSpecial (path : string) (subpath : option string).

Inductive FileSystemPath :=
| PathEntry (path : string)
| GlobPattern (pattern : string)
| SpecialEntry (value : FileSystemSpecialPath).

Record FileSystemSandboxEntry := mkEntry { fse_path : FileSystemPath; fse_access : FileSystemAccessMode }.

Inductive FileSystemSandboxKind := KindRestricted | KindUnrestricted | KindExternalSandbox.

#[export] Instance FileSystemSandboxKind_eq_dec : EqDecision FileSystemSandboxKind.
Proof. solve_decision. Defined.

Record FileSystemSandboxPolicy := mkFsPolicy {
  fsp_kind : FileSystemSandboxKind;
  glob_scan_max_depth : option usize;
  fsp_entries : list FileSystemSandboxEntry
}.

Record ResolvedFileSystemEntry := mkResolved { rfe_path : string; rfe_access : FileSystemAccessMode }.

Definition is_restricted (p : FileSystemSandboxPolicy) : bool :=
  match fsp_kind p with KindRestricted => true | _ => false end.

(** [==] of paths inside options, special paths, paths and entries. *)
Definition opt_path_eqb (a b : option string) : bool :=
  match a, b with Some a, Some b => path_eqb a b | None, None => true | _, _ => false end.

Definition special_eqb (a b : FileSystemSpecialPath) : bool :=
  match a, b with
  | SpecialRoot, SpecialRoot | SpecialMinimal, SpecialMinimal
  | SpecialTmpdir, SpecialTmpdir | SlashTmp, SlashTmp => true
  | ProjectRoots a, ProjectRoots b => opt_path_eqb a b
  | UnknownSpecial p a, UnknownSpecial q b => (p == q) && opt_path_eqb a b
  | _, _ => false
  end.

Definition fs_path_eqb (a b : FileSystemPath) : bool :=
  match a, b with
  | PathEntry a, PathEntry b => path_eqb a b
  | GlobPattern a, GlobPattern b => a == b
  | SpecialEntry a, SpecialEntry b => special_eqb a b
  | _, _ => false
  end.

Definition entry_eqb (a b : FileSystemSandboxEntry) : bool :=
  fs_path_eqb (fse_path a) (fse_path b) && bool_decide (fse_access a = fse_access b).

(** ** Simple policies *)

Definition fs_restricted (entries : list FileSystemSandboxEntry) : FileSystemSandboxPolicy :=
  mkFsPolicy KindRestricted None entries.

Definition read_only_file_system_entries : list FileSystemSandboxEntry :=
  [mkEntry (SpecialEntry SpecialRoot) AccessRead].

Definition fs_read_only : FileSystemSandboxPolicy := fs_restricted read_only_file_system_entries.
Definition fs_unrestricted : FileSystemSandboxPolicy := mkFsPolicy KindUnrestricted None [].
Definition fs_external_sandbox : FileSystemSandboxPolicy := mkFsPolicy KindExternalSandbox None [].

(** ** Questions that need no working directory *)

Definition is_root_entry (e : FileSystemSandboxEntry) : bool :=
  match fse_path e with SpecialEntry SpecialRoot => true | _ => false end.

Definition has_root_access (p : FileSystemSandboxPolicy) (predicate : FileSystemAccessMode → bool) : bool :=
  is_restricted p && existsb (λ e, is_root_entry e && predicate (fse_access e)) (fsp_entries p).

Definition is_deny (e : FileSystemSandboxEntry) : bool := bool_decide (fse_access e = AccessDeny).

Definition has_denied_read_restrictions (p : FileSystemSandboxPolicy) : bool :=
  is_restricted p && existsb is_deny (fsp_entries p).

(** Special paths whose place is known without a working directory. *)
Definition special_path_matches_absolute_path (value : FileSystemSpecialPath) (path : string) : bool :=
  match value with
  | SpecialRoot => match path_parent path with None => true | Some _ => false end
  | SlashTmp => path_eqb path "/tmp"
  | _ => false
  end.

Definition special_paths_share_target (left right : FileSystemSpecialPath) : bool := special_eqb left right.

Definition file_system_paths_share_target (left right : FileSystemPath) : bool :=
  match left, right with
  | PathEntry path, PathEntry path' => path_eqb path path'
  | SpecialEntry value, SpecialEntry value' => special_paths_share_target value value'
  | PathEntry path, SpecialEntry value | SpecialEntry value, PathEntry path =>
      special_path_matches_absolute_path value path
  | GlobPattern pattern, GlobPattern pattern' => pattern == pattern'
  | GlobPattern _, _ | _, GlobPattern _ => false
  end.

Definition has_same_target_write_override (p : FileSystemSandboxPolicy) (entry : FileSystemSandboxEntry) : bool :=
  existsb (λ candidate,
      can_write (fse_access candidate)
      && (access_rank (fse_access entry) <? access_rank (fse_access candidate))%nat
      && file_system_paths_share_target (fse_path candidate) (fse_path entry))
    (fsp_entries p).

Definition narrows_write (p : FileSystemSandboxPolicy) (entry : FileSystemSandboxEntry) : bool :=
  if can_write (fse_access entry) then false
  else match fse_path entry with
       | PathEntry _ => negb (has_same_target_write_override p entry)
       | GlobPattern _ => true
       | SpecialEntry SpecialRoot => is_deny entry
       | SpecialEntry SpecialMinimal | SpecialEntry (UnknownSpecial _ _) => false
       | SpecialEntry _ => negb (has_same_target_write_override p entry)
       end.

Definition has_write_narrowing_entries (p : FileSystemSandboxPolicy) : bool :=
  is_restricted p && existsb (narrows_write p) (fsp_entries p).

Definition has_full_disk_read_access (p : FileSystemSandboxPolicy) : bool :=
  match fsp_kind p with
  | KindUnrestricted | KindExternalSandbox => true
  | KindRestricted => has_root_access p can_read && negb (has_denied_read_restrictions p)
  end.

Definition has_full_disk_write_access (p : FileSystemSandboxPolicy) : bool :=
  match fsp_kind p with
  | KindUnrestricted | KindExternalSandbox => true
  | KindRestricted => has_root_access p can_write && negb (has_write_narrowing_entries p)
  end.

Definition include_platform_defaults (p : FileSystemSandboxPolicy) : bool :=
  negb (has_full_disk_read_access p) && is_restricted p &&
  existsb (λ e, match fse_path e with SpecialEntry SpecialMinimal => can_read (fse_access e) | _ => false end)
    (fsp_entries p).

(** ** Deny entries of another policy *)

Definition set_entries (entries : list FileSystemSandboxEntry) (p : FileSystemSandboxPolicy) : FileSystemSandboxPolicy :=
  mkFsPolicy (fsp_kind p) (glob_scan_max_depth p) entries.

Definition set_glob_depth (depth : option usize) (p : FileSystemSandboxPolicy) : FileSystemSandboxPolicy :=
  mkFsPolicy (fsp_kind p) depth (fsp_entries p).

(** [if !entries.iter().any(|e| e == entry) { entries.push(entry) }]. *)
Definition push_entry_once (entries : list FileSystemSandboxEntry) (entry : FileSystemSandboxEntry) : list FileSystemSandboxEntry :=
  if existsb (λ e, entry_eqb e entry) entries then entries else entries ++ [entry].

Definition add_denies (existing p : FileSystemSandboxPolicy) : FileSystemSandboxPolicy :=
  set_entries (fold_left push_entry_once (List.filter is_deny (fsp_entries existing)) (fsp_entries p)) p.

Definition preserve_deny_read_restrictions_from (existing p : FileSystemSandboxPolicy) : FileSystemSandboxPolicy :=
  let p :=
    if match fsp_kind p with KindUnrestricted => true | _ => false end && existsb is_deny (fsp_entries existing)
    then fs_restricted [mkEntry (SpecialEntry SpecialRoot) AccessWrite]
    else p in
  if negb (is_restricted p) then p
  else
    let p := match glob_scan_max_depth p with
             | None => set_glob_depth (glob_scan_max_depth existing) p
             | Some _ => p
             end in
    add_denies existing p.

(** ** Resolving entries *)

(** The [TMPDIR] variable, and whether a path exists without following it and is
    a symbolic link. *)
Class SandboxHost `{Os} := {
  tmpdir_var : option string;
  symlink_metadata : os → string → option bool
}.

(** [Path::strip_prefix], as components. *)
Fixpoint strip_list (base target : list string) : option (list string) :=
  match base, target with
  | [], _ => Some target
  | b :: base', t :: target' => if b == t then strip_list base' target' else None
  | _ :: _, [] => None
  end.

Definition strip_components (target base : string) : option (list string) :=
  strip_list (components base) (components target).

(** [Path::ancestors]: a parent is shorter. *)
Fixpoint ancestors_fuel (fuel : nat) (path : string) : list string :=
  path :: match fuel, path_parent path with
          | S fuel', Some parent => ancestors_fuel fuel' parent
          | _, _ => []
          end.

Definition ancestors (path : string) : list string := ancestors_fuel (String.length path) path.

Definition ok {A} (r : io A) : option A := match r with IoOk a => Some a | IoErr _ => None end.

Section resolve.
Context `{SandboxHost} `{HostDirs} (o : os).

(** The last ancestor of an absolute path is the root, so that neither panic
    of the code happens. *)
Definition absolute_root_path_for_cwd (cwd : string) : string :=
  default "/" (root ← last (ancestors cwd); ok (try_absolute root)).

Definition resolve_file_system_special_path (value : FileSystemSpecialPath) (cwd : option string) : option string :=
  match value with
  | SpecialRoot | SpecialMinimal | UnknownSpecial _ _ => None
  | ProjectRoots subpath =>
      cwd ← cwd;
      match subpath with
      | Some subpath => Some (resolve_path_against_base home_dir subpath cwd)
      | None => Some cwd
      end
  | SpecialTmpdir =>
      tmpdir ← tmpdir_var;
      if str_is_empty tmpdir then None else ok (try_absolute tmpdir)
  | SlashTmp => if is_dir o "/tmp" then Some "/tmp" else None
  end.

Definition resolve_file_system_path (path : FileSystemPath) (cwd : option string) : option string :=
  match path with
  | PathEntry path => Some path
  | GlobPattern _ => None
  | SpecialEntry value => resolve_file_system_special_path value cwd
  end.

Definition resolve_entry_path (path : FileSystemPath) (cwd : option string) : option string :=
  match path with
  | SpecialEntry SpecialRoot => absolute_root_path_for_cwd <$> cwd
  | _ => resolve_file_system_path path cwd
  end.

Definition resolve_entry (cwd : option string) (e : FileSystemSandboxEntry) : option ResolvedFileSystemEntry :=
  path ← resolve_entry_path (fse_path e) cwd;
  Some (mkResolved path (fse_access e)).

Definition resolved_entries_with_cwd (p : FileSystemSandboxPolicy) (cwd : string) : list ResolvedFileSystemEntry :=
  omap (resolve_entry (ok (try_absolute cwd))) (fsp_entries p).

Definition resolve_candidate_path (path cwd : string) : option string :=
  if has_root path then ok (try_absolute path)
  else cwd ← ok (try_absolute cwd); Some (abs_join home_dir cwd path).

(** ** Access to a path *)

(** Components first, then the access mode. *)
Definition resolved_entry_precedence (e : ResolvedFileSystemEntry) : nat * nat :=
  (length (components (rfe_path e)), access_rank (rfe_access e)).

Definition precedence_le (a b : nat * nat) : bool :=
  (a.1 <? b.1)%nat || ((a.1 =? b.1)%nat && (a.2 <=? b.2)%nat).

(** [Iterator::max_by_key]: the last of the greatest. *)
Definition max_entry (l : list ResolvedFileSystemEntry) : option ResolvedFileSystemEntry :=
  match l with
  | [] => None
  | e :: l' =>
      Some (fold_left (λ best e,
              if precedence_le (resolved_entry_precedence best) (resolved_entry_precedence e) then e else best) l' e)
  end.

Definition resolve_access_with_cwd (p : FileSystemSandboxPolicy) (path cwd : string) : FileSystemAccessMode :=
  match fsp_kind p with
  | KindUnrestricted | KindExternalSandbox => AccessWrite
  | KindRestricted =>
      match resolve_candidate_path path cwd with
      | None => AccessDeny
      | Some path =>
          match max_entry (List.filter (λ e, path_starts_with path (rfe_path e)) (resolved_entries_with_cwd p cwd)) with
          | Some e => rfe_access e
          | None => AccessDeny
          end
      end
  end.

Definition can_read_path_with_cwd (p : FileSystemSandboxPolicy) (path cwd : string) : bool :=
  can_read (resolve_access_with_cwd p path cwd).

(** ** Protected metadata *)

Definition PROTECTED_METADATA_PATH_NAMES : list string := [".git"; ".agents"; ".codex"].

Definition is_protected_metadata_name (name : string) : bool :=
  existsb (λ metadata_name, name == metadata_name) PROTECTED_METADATA_PATH_NAMES.

Definition is_protected_metadata_directory_name (name : string) : bool := (name == ".agents") || (name == ".codex").

Definition metadata_path_name (name : string) : option string :=
  find_first (λ metadata_name, name == metadata_name) PROTECTED_METADATA_PATH_NAMES.

(** The metadata path that a target lies in below a writable entry. *)
Definition metadata_below (target : string) (e : ResolvedFileSystemEntry) : option (string * string) :=
  relative ← strip_components target (rfe_path e);
  first_component ← head relative;
  metadata_name ← metadata_path_name first_component;
  Some (abs_join home_dir (rfe_path e) metadata_name, metadata_name).

Definition metadata_child_of_writable_root (p : FileSystemSandboxPolicy) (target cwd : string) : option (string * string) :=
  head (omap (metadata_below target)
          (List.filter (λ e, can_write (rfe_access e)) (resolved_entries_with_cwd p cwd))).

Definition has_explicit_write_entry_for_metadata_path (p : FileSystemSandboxPolicy)
    (protected_metadata_path target cwd : string) : bool :=
  existsb (λ e, can_write (rfe_access e) && path_starts_with target (rfe_path e)
                && path_starts_with (rfe_path e) protected_metadata_path)
    (resolved_entries_with_cwd p cwd).

Definition is_metadata_write_denied (p : FileSystemSandboxPolicy) (path cwd : string) : bool :=
  if negb (is_restricted p) then false
  else match resolve_candidate_path path cwd with
       | None => true
       | Some target =>
           match metadata_child_of_writable_root p target cwd with
           | None => false
           | Some (protected_metadata_path, _) =>
               negb (has_explicit_write_entry_for_metadata_path p protected_metadata_path target cwd)
           end
       end.

Definition can_write_path_with_cwd (p : FileSystemSandboxPolicy) (path cwd : string) : bool :=
  if negb (can_write (resolve_access_with_cwd p path cwd)) then false
  else if has_full_disk_write_access p then true
  else negb (is_metadata_write_denied p path cwd).

(** The metadata name for which a write by the agent is refused. *)
Definition forbidden_agent_metadata_write (path cwd : string) (p : FileSystemSandboxPolicy) : option string :=
  if negb (is_restricted p) then None
  else
    target ← resolve_candidate_path path cwd;
    match metadata_child_of_writable_root p target cwd with
    | None => None
    | Some (protected_metadata_path, metadata_name) =>
        if has_explicit_write_entry_for_metadata_path p protected_metadata_path target cwd then None
        else if negb (can_write_path_with_cwd p target cwd) then Some metadata_name
        else None
    end.

(** ** Project roots *)

Definition PROJECT_ROOTS_GLOB_PATTERN_PREFIX : string := "codex-project-roots://".

Definition project_roots_glob_pattern (subpath : string) : string := PROJECT_ROOTS_GLOB_PATTERN_PREFIX +:+ subpath.

Definition parse_project_roots_glob_pattern (pattern : string) : option string :=
  strip_prefix PROJECT_ROOTS_GLOB_PATTERN_PREFIX pattern.

Definition resolve_project_roots_glob_pattern (subpath root : string) : string :=
  resolve_path_against_base home_dir subpath root.

Definition materialize_entry (cwd : option string) (e : FileSystemSandboxEntry) : FileSystemSandboxEntry :=
  match fse_path e with
  | SpecialEntry (ProjectRoots _) =>
      match resolve_file_system_path (fse_path e) cwd with
      | Some path => mkEntry (PathEntry path) (fse_access e)
      | None => e
      end
  | GlobPattern pattern =>
      match cwd, parse_project_roots_glob_pattern pattern with
      | Some cwd, Some subpath => mkEntry (GlobPattern (resolve_project_roots_glob_pattern subpath cwd)) (fse_access e)
      | _, _ => e
      end
  | _ => e
  end.

Definition materialize_project_roots_with_cwd (p : FileSystemSandboxPolicy) (cwd : string) : FileSystemSandboxPolicy :=
  set_entries (map (materialize_entry (ok (try_absolute cwd))) (fsp_entries p)) p.

Definition materialize_for_roots (workspace_roots : list string) (e : FileSystemSandboxEntry) : list FileSystemSandboxEntry :=
  match fse_path e with
  | SpecialEntry (ProjectRoots subpath) =>
      map (λ root, mkEntry (PathEntry (match subpath with
                                       | Some subpath => resolve_path_against_base home_dir subpath root
                                       | None => root
                                       end)) (fse_access e)) workspace_roots
  | GlobPattern pattern =>
      match parse_project_roots_glob_pattern pattern with
      | Some subpath =>
          map (λ root, mkEntry (GlobPattern (resolve_project_roots_glob_pattern subpath root)) (fse_access e)) workspace_roots
      | None => [e]
      end
  | _ => [e]
  end.

Definition materialize_project_roots_with_workspace_roots (p : FileSystemSandboxPolicy) (workspace_roots : list string) : FileSystemSandboxPolicy :=
  set_entries (concat (map (materialize_for_roots workspace_roots) (fsp_entries p))) p.

Definition with_materialized_project_roots_for_workspace_roots (p : FileSystemSandboxPolicy) (workspace_roots : list string) : FileSystemSandboxPolicy :=
  let materialized := materialize_project_roots_with_workspace_roots p workspace_roots in
  set_entries (fold_left push_entry_once (fsp_entries materialized) (fsp_entries p)) p.

(** ** Additional roots *)

Definition push_entry (p : FileSystemSandboxPolicy) (e : FileSystemSandboxEntry) : FileSystemSandboxPolicy :=
  set_entries (fsp_entries p ++ [e]) p.

Definition with_additional_readable_roots (p : FileSystemSandboxPolicy) (cwd : string) (roots : list string) : FileSystemSandboxPolicy :=
  if has_full_disk_read_access p then p
  else fold_left (λ p path, if can_read_path_with_cwd p path cwd then p
                            else push_entry p (mkEntry (PathEntry path) AccessRead)) roots p.

Definition with_additional_writable_roots (p : FileSystemSandboxPolicy) (cwd : string) (roots : list string) : FileSystemSandboxPolicy :=
  fold_left (λ p path, if can_write_path_with_cwd p path cwd then p
                       else push_entry p (mkEntry (PathEntry path) AccessWrite)) roots p.
End resolve.
