(* ===== verification/SandboxRoots.v ===== *)
(** * Roots of a sandbox and older policies (protocol: permissions.rs,
    protocol.rs, models.rs; utils/absolute-path: lib.rs)

    What a sandbox is told to mount: readable, writable and unreadable roots,
    the read-only paths below writable ones, with symbolic links as the file
    system has them; deny-read matching; and the policies of earlier versions
    with the conversions in both directions. *)

From S2P Require Import Prelude RustStr Os AbsPath Permissions.

Record WritableRoot := mkWritableRoot {
  wr_root : string;
  read_only_subpaths : list string;
  protected_metadata_names : list string
}.

Inductive NetworkAccess := AccessRestricted | AccessEnabled.

Definition network_access_of (n : NetworkSandboxPolicy) : NetworkAccess :=
  if net_is_enabled n then AccessEnabled else AccessRestricted.

Inductive SandboxPolicy :=
| DangerFullAccess
| ReadOnlyPolicy (network_access : bool)
| ExternalSandbox (network_access : NetworkAccess)
| WorkspaceWrite (writable_roots : list string) (network_access exclude_tmpdir_env_var exclude_slash_tmp : bool).

Definition has_full_network_access (p : SandboxPolicy) : bool :=
  match p with
  | DangerFullAccess => true
  | ExternalSandbox network_access => match network_access with AccessEnabled => true | AccessRestricted => false end
  | ReadOnlyPolicy network_access => network_access
  | WorkspaceWrite _ network_access _ _ => network_access
  end.

Definition legacy_has_full_disk_write_access (p : SandboxPolicy) : bool :=
  match p with DangerFullAccess | ExternalSandbox _ => true | _ => false end.

(** [NetworkSandboxPolicy::from]. *)
Definition network_of_legacy (p : SandboxPolicy) : NetworkSandboxPolicy :=
  if has_full_network_access p then NetEnabled else NetRestricted.

(** ** Paths a writable root can be written at *)

Definition path_contains_protected_metadata_name (w : WritableRoot) (path : string) : bool :=
  match strip_components path (wr_root w) with
  | Some (first_component :: _) => existsb (λ name, first_component == name) (protected_metadata_names w)
  | _ => false
  end.

Definition is_path_writable (w : WritableRoot) (path : string) : bool :=
  if negb (path_starts_with path (wr_root w)) then false
  else if existsb (λ subpath, path_starts_with path subpath) (read_only_subpaths w) then false
  else negb (path_contains_protected_metadata_name w path).

(** ** Default protection without an explicit rule *)

Definition append_default_read_only_entry_if_no_explicit_rule (entries : list FileSystemSandboxEntry) (path : FileSystemPath) : list FileSystemSandboxEntry :=
  if existsb (λ entry, file_system_paths_share_target (fse_path entry) path) entries then entries
  else entries ++ [mkEntry path AccessRead].

Definition append_default_read_only_path_if_no_explicit_rule (entries : list FileSystemSandboxEntry) (path : string) : list FileSystemSandboxEntry :=
  append_default_read_only_entry_if_no_explicit_rule entries (PathEntry path).

Definition append_default_read_only_project_root_subpath_if_no_explicit_rule (entries : list FileSystemSandboxEntry) (subpath : string) : list FileSystemSandboxEntry :=
  append_default_read_only_entry_if_no_explicit_rule entries (SpecialEntry (ProjectRoots (Some subpath))).

Definition path_of (names : list string) : string := join "/" names.

Section roots.
Context `{SandboxHost} `{HostDirs} (o : os).

(** ** Symbolic links *)

(** A link below the top level keeps the path as it was written. *)
Definition should_preserve_logical_path (logical : string) : bool :=
  existsb (λ ancestor,
      match symlink_metadata o ancestor with
      | Some is_symlink =>
          is_symlink && match path_parent ancestor with
                        | Some parent => match path_parent parent with Some _ => true | None => false end
                        | None => false
                        end
      | None => false
      end)
    (ancestors logical).

Definition canonicalize_preserving_symlinks (path : string) : io string :=
  match try_absolute path with
  | IoErr e => IoErr e
  | IoOk logical =>
      let preserve_logical_path := should_preserve_logical_path logical in
      match canonicalize o path with
      | IoOk canonical =>
          if preserve_logical_path && negb (path_eqb canonical logical) then IoOk logical else IoOk canonical
      | IoErr _ => IoOk logical
      end
  end.

Definition canonicalize_existing_preserving_symlinks (path : string) : io string :=
  match try_absolute path with
  | IoErr e => IoErr e
  | IoOk logical =>
      match canonicalize o path with
      | IoErr e => IoErr e
      | IoOk canonical =>
          if should_preserve_logical_path logical && negb (path_eqb canonical logical) then IoOk logical else IoOk canonical
      end
  end.

(** One round of the loop: the path seen through an ancestor that exists. *)
Definition through_ancestor (path ancestor : string) : option string :=
  _ ← symlink_metadata o ancestor;
  normalized_ancestor ← ok (canonicalize_preserving_symlinks ancestor);
  suffix ← strip_components path ancestor;
  ok (try_absolute (path_join normalized_ancestor (path_of suffix))).

Definition normalize_effective_absolute_path (path : string) : string :=
  default path (head (omap (through_ancestor path) (ancestors path))).

Definition push_unique (candidates : list string) (candidate : string) : list string :=
  if existsb (λ existing, path_eqb existing candidate) candidates then candidates else candidates ++ [candidate].

Definition dedup_absolute_paths (paths : list string) (normalize_effective_paths : bool) : list string :=
  fold_left push_unique
    (if normalize_effective_paths then map normalize_effective_absolute_path paths else paths) [].

(** ** Metadata of a writable root *)

Definition is_git_pointer_file (path : string) : bool :=
  is_file o path && bool_decide (file_name path = Some ".git").

Definition resolve_gitdir_from_file (dot_git : string) : option string :=
  contents ← ok (read_to_string o dot_git);
  match split_at_char ":"%char (trim contents) with
  | (_, None) => None
  | (prefix, Some gitdir_raw) =>
      if negb (trim prefix == "gitdir") then None
      else
        let gitdir_raw := trim gitdir_raw in
        if str_is_empty gitdir_raw then None
        else
          base ← path_parent dot_git;
          let gitdir_path := resolve_path_against_base home_dir gitdir_raw base in
          if path_exists o gitdir_path then Some gitdir_path else None
  end.

Definition default_read_only_subpaths_for_writable_root (writable_root : string) (protect_missing_dot_codex : bool) : list string :=
  let top_level_git := abs_join home_dir writable_root ".git" in
  let top_level_git_is_file := is_file o top_level_git in
  let git_paths :=
    if is_dir o top_level_git || top_level_git_is_file then
      (if top_level_git_is_file && is_git_pointer_file top_level_git
       then option_list (resolve_gitdir_from_file top_level_git) else [])
      ++ [top_level_git]
    else [] in
  let top_level_agents := abs_join home_dir writable_root ".agents" in
  let agents_paths := if is_dir o top_level_agents then [top_level_agents] else [] in
  let top_level_codex := abs_join home_dir writable_root ".codex" in
  let codex_paths := if protect_missing_dot_codex || is_dir o top_level_codex then [top_level_codex] else [] in
  dedup_absolute_paths (git_paths ++ agents_paths ++ codex_paths) false.

Definition protect_root (protect_missing_dot_codex : bool) (entries : list FileSystemSandboxEntry) (root : string) : list FileSystemSandboxEntry :=
  fold_left append_default_read_only_path_if_no_explicit_rule
    (default_read_only_subpaths_for_writable_root root protect_missing_dot_codex) entries.

(** ** Policies of earlier versions *)

Definition workspace_entries (writable_roots : list string) (exclude_tmpdir_env_var exclude_slash_tmp : bool) : list FileSystemSandboxEntry :=
  [mkEntry (SpecialEntry SpecialRoot) AccessRead; mkEntry (SpecialEntry (ProjectRoots None)) AccessWrite]
  ++ (if exclude_slash_tmp then [] else [mkEntry (SpecialEntry SlashTmp) AccessWrite])
  ++ (if exclude_tmpdir_env_var then [] else [mkEntry (SpecialEntry SpecialTmpdir) AccessWrite])
  ++ map (λ path, mkEntry (PathEntry path) AccessWrite) writable_roots.

Definition fs_workspace_write (writable_roots : list string) (exclude_tmpdir_env_var exclude_slash_tmp : bool) : FileSystemSandboxPolicy :=
  let entries := workspace_entries writable_roots exclude_tmpdir_env_var exclude_slash_tmp in
  let entries := fold_left append_default_read_only_project_root_subpath_if_no_explicit_rule [".git"; ".agents"; ".codex"] entries in
  fs_restricted (fold_left (protect_root false) writable_roots entries).

(** [FileSystemSandboxPolicy::from]. *)
Definition fs_of_legacy (p : SandboxPolicy) : FileSystemSandboxPolicy :=
  match p with
  | DangerFullAccess => fs_unrestricted
  | ExternalSandbox _ => fs_external_sandbox
  | ReadOnlyPolicy _ => fs_restricted [mkEntry (SpecialEntry SpecialRoot) AccessRead]
  | WorkspaceWrite writable_roots _ exclude_tmpdir_env_var exclude_slash_tmp =>
      fs_workspace_write writable_roots exclude_tmpdir_env_var exclude_slash_tmp
  end.

Definition protect_cwd (cwd : string) (entries : list FileSystemSandboxEntry) : list FileSystemSandboxEntry :=
  match try_absolute cwd with IoOk cwd_root => protect_root true entries cwd_root | IoErr _ => entries end.

Definition from_legacy_sandbox_policy_for_cwd (p : SandboxPolicy) (cwd : string) : FileSystemSandboxPolicy :=
  let policy := fs_of_legacy p in
  match p with
  | WorkspaceWrite writable_roots _ _ _ =>
      set_entries (fold_left (protect_root false) writable_roots (protect_cwd cwd (fsp_entries policy))) policy
  | _ => policy
  end.

Definition from_legacy_sandbox_policy_preserving_deny_entries (p : SandboxPolicy) (cwd : string) (existing : FileSystemSandboxPolicy) : FileSystemSandboxPolicy :=
  let rebuilt := from_legacy_sandbox_policy_for_cwd p cwd in
  if negb (is_restricted rebuilt) then rebuilt
  else add_denies existing (set_glob_depth (glob_scan_max_depth existing) rebuilt).

Definition legacy_runtime_file_system_policy_for_cwd (p : SandboxPolicy) (cwd : string) : FileSystemSandboxPolicy :=
  match p with
  | WorkspaceWrite writable_roots _ exclude_tmpdir_env_var exclude_slash_tmp =>
      let entries := workspace_entries writable_roots exclude_tmpdir_env_var exclude_slash_tmp in
      fs_restricted (fold_left (protect_root false) writable_roots (protect_cwd cwd entries))
  | _ => fs_of_legacy p
  end.

Definition with_additional_legacy_workspace_writable_roots (p : FileSystemSandboxPolicy) (roots : list string) : FileSystemSandboxPolicy :=
  if negb (is_restricted p) then p
  else fold_left (λ p path,
         let p := if existsb (λ e, can_write (fse_access e) &&
                                   match fse_path e with PathEntry existing => path_eqb existing path | _ => false end)
                       (fsp_entries p)
                  then p else push_entry p (mkEntry (PathEntry path) AccessWrite) in
         set_entries (protect_root false (fsp_entries p) path) p) roots p.

(** [SandboxPolicy::get_writable_roots_with_cwd]. *)
Definition legacy_writable_roots (p : SandboxPolicy) (cwd : string) : list WritableRoot :=
  match p with
  | WorkspaceWrite writable_roots _ exclude_tmpdir_env_var exclude_slash_tmp =>
      let cwd_root := ok (try_absolute cwd) in
      let roots := writable_roots ++ option_list cwd_root
        ++ (if negb exclude_slash_tmp && is_dir o "/tmp" then ["/tmp"] else [])
        ++ (if exclude_tmpdir_env_var then []
            else match tmpdir_var with
                 | Some tmpdir => if str_is_empty tmpdir then [] else option_list (ok (try_absolute tmpdir))
                 | None => []
                 end) in
      map (λ writable_root,
          let protect_missing_dot_codex :=
            match cwd_root with Some cwd_root => path_eqb cwd_root writable_root | None => false end in
          mkWritableRoot writable_root (default_read_only_subpaths_for_writable_root writable_root protect_missing_dot_codex) [])
        roots
  | _ => []
  end.

(** What the entries of a policy ask for, for an older policy. *)
Record LegacyRequest := mkLegacyRequest {
  workspace_root_writable : bool;
  lr_writable_roots : list string;
  tmpdir_writable : bool;
  slash_tmp_writable : bool;
  unbridgeable_root_write : bool
}.

Definition legacy_step (cwd_absolute : option string) (r : LegacyRequest) (e : FileSystemSandboxEntry) : LegacyRequest :=
  let '(mkLegacyRequest w roots t s u) := r in
  if negb (can_write (fse_access e)) then r
  else match fse_path e with
       | GlobPattern _ => r
       | PathEntry path =>
           if match cwd_absolute with Some cwd => path_eqb cwd path | None => false end
           then mkLegacyRequest true roots t s u
           else mkLegacyRequest w (roots ++ [path]) t s u
       | SpecialEntry SpecialRoot => mkLegacyRequest w roots t s true
       | SpecialEntry SpecialMinimal | SpecialEntry (UnknownSpecial _ _) => r
       | SpecialEntry (ProjectRoots None) => mkLegacyRequest true roots t s u
       | SpecialEntry (ProjectRoots subpath) =>
           match resolve_file_system_special_path o (ProjectRoots subpath) cwd_absolute with
           | Some path => mkLegacyRequest w (roots ++ [path]) t s u
           | None => r
           end
       | SpecialEntry SpecialTmpdir => mkLegacyRequest w roots true s u
       | SpecialEntry SlashTmp => mkLegacyRequest w roots t true u
       end.

Definition full_access_policy (network_policy : NetworkSandboxPolicy) : SandboxPolicy :=
  if net_is_enabled network_policy then DangerFullAccess else ExternalSandbox AccessRestricted.

Definition unsupported_writes : string :=
  "permissions profile requests filesystem writes outside the workspace root, which is not supported until the runtime enforces FileSystemSandboxPolicy directly".

Definition to_legacy_sandbox_policy (p : FileSystemSandboxPolicy) (network_policy : NetworkSandboxPolicy) (cwd : string) : io SandboxPolicy :=
  match fsp_kind p with
  | KindExternalSandbox => IoOk (ExternalSandbox (network_access_of network_policy))
  | KindUnrestricted => IoOk (full_access_policy network_policy)
  | KindRestricted =>
      let r := fold_left (legacy_step (ok (try_absolute cwd))) (fsp_entries p) (mkLegacyRequest false [] false false false) in
      if has_full_disk_write_access p then IoOk (full_access_policy network_policy)
      else if workspace_root_writable r then
        IoOk (WorkspaceWrite (dedup_absolute_paths (lr_writable_roots r) false) (net_is_enabled network_policy)
                (negb (tmpdir_writable r)) (negb (slash_tmp_writable r)))
      else if unbridgeable_root_write r || match lr_writable_roots r with [] => false | _ => true end
              || tmpdir_writable r || slash_tmp_writable r
      then IoErr unsupported_writes
      else IoOk (ReadOnlyPolicy (net_is_enabled network_policy))
  end.

(** ** Roots for the sandbox *)

Definition get_readable_roots_with_cwd (p : FileSystemSandboxPolicy) (cwd : string) : list string :=
  if has_full_disk_read_access p then []
  else dedup_absolute_paths
         (map rfe_path
            (List.filter (λ e, can_read (rfe_access e) && can_read_path_with_cwd o p (rfe_path e) cwd)
               (resolved_entries_with_cwd o p cwd)))
         true.

Definition get_unreadable_roots_with_cwd (p : FileSystemSandboxPolicy) (cwd : string) : list string :=
  if negb (is_restricted p) then []
  else
    let root := absolute_root_path_for_cwd <$> ok (try_absolute cwd) in
    dedup_absolute_paths
      (map rfe_path
         (List.filter (λ e, bool_decide (rfe_access e = AccessDeny)
                            && negb (can_read_path_with_cwd o p (rfe_path e) cwd)
                            && negb (match root with Some root => path_eqb root (rfe_path e) | None => false end))
            (resolved_entries_with_cwd o p cwd)))
      true.

Definition get_unreadable_globs_with_cwd (p : FileSystemSandboxPolicy) (cwd : string) : list string :=
  if negb (is_restricted p) then []
  else dedup (sort_strings
         (omap (λ e, match fse_path e with
                     | GlobPattern pattern => Some (resolve_path_against_base home_dir pattern cwd)
                     | _ => None
                     end)
            (List.filter is_deny (fsp_entries p)))).

Definition protected_metadata_names_for_writable_root (p : FileSystemSandboxPolicy) (root : string)
    (raw_writable_roots : list string) (cwd : string) : list string :=
  List.filter (λ metadata_name,
      forallb (λ metadata_path, negb (can_write_path_with_cwd o p metadata_path cwd))
        (map (λ r, abs_join home_dir r metadata_name) (root :: raw_writable_roots)))
    PROTECTED_METADATA_PATH_NAMES.

(** The place of a read-only entry below a writable root, as it is written if it
    lies below the root, and as the file system resolves it otherwise. *)
Definition raw_carveout (root : string) (raw_writable_roots : list string) (path : string) : option string :=
  if path_eqb path root then None
  else if path_starts_with path root then Some path
  else head (omap (λ raw_root,
         match strip_components path raw_root with
         | Some (c :: cs) => Some (abs_join home_dir root (path_of (c :: cs)))
         | _ => None
         end) raw_writable_roots).

Definition carveout (root : string) (preserve_raw_carveout_paths : bool) (raw_writable_roots : list string) (path : string) : option string :=
  let effective_path := normalize_effective_absolute_path path in
  match (if preserve_raw_carveout_paths then raw_carveout root raw_writable_roots path else None) with
  | Some raw => Some raw
  | None =>
      if path_eqb effective_path root || negb (path_starts_with effective_path root) then None
      else Some effective_path
  end.

Definition writable_root_for (p : FileSystemSandboxPolicy) (cwd : string) (resolved_entries : list ResolvedFileSystemEntry)
    (writable_entries : list string) (root : string) : WritableRoot :=
  let preserve_raw_carveout_paths := match path_parent root with Some _ => true | None => false end in
  let raw_writable_roots := List.filter (λ path, path_eqb (normalize_effective_absolute_path path) root) writable_entries in
  let protected_names := protected_metadata_names_for_writable_root p root raw_writable_roots cwd in
  let protect_missing_dot_codex :=
    match try_absolute cwd with IoOk cwd => path_eqb (normalize_effective_absolute_path cwd) root | IoErr _ => false end in
  let defaults := List.filter (λ path, negb (existsb (λ e, path_eqb (rfe_path e) path) resolved_entries))
                    (default_read_only_subpaths_for_writable_root root protect_missing_dot_codex) in
  let explicit := omap (λ e, carveout root preserve_raw_carveout_paths raw_writable_roots (rfe_path e))
                    (List.filter (λ e, negb (can_write (rfe_access e)) && negb (can_write_path_with_cwd o p (rfe_path e) cwd))
                       resolved_entries) in
  mkWritableRoot root (dedup_absolute_paths (defaults ++ explicit) false) protected_names.

Definition get_writable_roots_with_cwd (p : FileSystemSandboxPolicy) (cwd : string) : list WritableRoot :=
  if has_full_disk_write_access p then []
  else
    let resolved_entries := resolved_entries_with_cwd o p cwd in
    let writable_entries :=
      map rfe_path (List.filter (λ e, can_write (rfe_access e) && can_write_path_with_cwd o p (rfe_path e) cwd) resolved_entries) in
    map (writable_root_for p cwd resolved_entries writable_entries) (dedup_absolute_paths writable_entries true).

(** ** Comparing policies *)

Record FileSystemSemanticSignature := mkSignature {
  sig_full_read : bool;
  sig_full_write : bool;
  sig_platform_defaults : bool;
  sig_readable_roots : list string;
  sig_writable_roots : list WritableRoot;
  sig_unreadable_roots : list string;
  sig_unreadable_globs : list string
}.

Definition path_le (a b : string) : bool := words_le (components a) (components b).
Definition sorted_absolute_paths (paths : list string) : list string := sort_by path_le paths.

Definition sorted_writable_roots (roots : list WritableRoot) : list WritableRoot :=
  sort_by (λ a b, path_le (wr_root a) (wr_root b))
    (map (λ w, mkWritableRoot (wr_root w) (sorted_absolute_paths (read_only_subpaths w))
                 (dedup (sort_strings (protected_metadata_names w)))) roots).

Definition semantic_signature (p : FileSystemSandboxPolicy) (cwd : string) : FileSystemSemanticSignature :=
  mkSignature (has_full_disk_read_access p) (has_full_disk_write_access p) (include_platform_defaults p)
    (sorted_absolute_paths (get_readable_roots_with_cwd p cwd))
    (sorted_writable_roots (get_writable_roots_with_cwd p cwd))
    (sorted_absolute_paths (get_unreadable_roots_with_cwd p cwd))
    (get_unreadable_globs_with_cwd p cwd).

Fixpoint list_eqb {A} (eqb : A → A → bool) (a b : list A) : bool :=
  match a, b with
  | [], [] => true
  | x :: a', y :: b' => eqb x y && list_eqb eqb a' b'
  | _, _ => false
  end.

Definition writable_root_eqb (a b : WritableRoot) : bool :=
  path_eqb (wr_root a) (wr_root b) && list_eqb path_eqb (read_only_subpaths a) (read_only_subpaths b)
  && list_eqb String.eqb (protected_metadata_names a) (protected_metadata_names b).

Definition signature_eqb (a b : FileSystemSemanticSignature) : bool :=
  Bool.eqb (sig_full_read a) (sig_full_read b) && Bool.eqb (sig_full_write a) (sig_full_write b)
  && Bool.eqb (sig_platform_defaults a) (sig_platform_defaults b)
  && list_eqb path_eqb (sig_readable_roots a) (sig_readable_roots b)
  && list_eqb writable_root_eqb (sig_writable_roots a) (sig_writable_roots b)
  && list_eqb path_eqb (sig_unreadable_roots a) (sig_unreadable_roots b)
  && list_eqb String.eqb (sig_unreadable_globs a) (sig_unreadable_globs b).

Definition is_semantically_equivalent_to (p q : FileSystemSandboxPolicy) (cwd : string) : bool :=
  signature_eqb (semantic_signature p cwd) (semantic_signature q cwd).

Definition protected_metadata_names_need_direct_runtime_enforcement (p : FileSystemSandboxPolicy) (legacy_policy : SandboxPolicy) (cwd : string) : bool :=
  let legacy_roots := legacy_writable_roots legacy_policy cwd in
  existsb (λ w,
      match find_first (λ candidate, path_eqb (wr_root candidate) (wr_root w)) legacy_roots with
      | None => match protected_metadata_names w with [] => false | _ => true end
      | Some legacy_root =>
          existsb (λ metadata_name,
              let metadata_path := abs_join home_dir (wr_root w) metadata_name in
              negb (existsb (λ subpath, path_eqb subpath metadata_path) (read_only_subpaths legacy_root)))
            (protected_metadata_names w)
      end)
    (get_writable_roots_with_cwd p cwd).

Definition needs_direct_runtime_enforcement (p : FileSystemSandboxPolicy) (network_policy : NetworkSandboxPolicy) (cwd : string) : bool :=
  if negb (is_restricted p) then false
  else match to_legacy_sandbox_policy p network_policy cwd with
       | IoErr _ => true
       | IoOk legacy_policy =>
           if protected_metadata_names_need_direct_runtime_enforcement p legacy_policy cwd then true
           else negb (signature_eqb (semantic_signature p cwd)
                        (semantic_signature (legacy_runtime_file_system_policy_for_cwd legacy_policy cwd) cwd))
       end.
End roots.

(** ** Denied reads *)

(** The globset crate: a matcher of a pattern, or its error. *)
Class GlobLib := { build_glob_matcher : string → (string → bool) + string }.

Inductive InvalidDenyReadGlobBehavior := FailClosed | ReturnError.

Record ReadDenyMatcher := mkReadDenyMatcher {
  denied_candidates : list (list string);
  deny_read_matchers : list (string → bool);
  invalid_pattern : bool
}.

Section deny.
Context `{SandboxHost} `{HostDirs} `{GlobLib} (o : os).

Definition normalized_and_canonical_candidates (path : string) : list string :=
  let candidates := [match try_absolute path with IoOk normalized => normalized | IoErr _ => path end] in
  match canonicalize o path with
  | IoOk canonical =>
      match try_absolute canonical with
      | IoOk canonical_absolute => push_unique candidates canonical_absolute
      | IoErr _ => candidates
      end
  | IoErr _ => candidates
  end.

Fixpoint build_matchers (behavior : InvalidDenyReadGlobBehavior) (patterns : list string) : (list (string → bool) * bool) + string :=
  match patterns with
  | [] => inl ([], false)
  | pattern :: patterns' =>
      match build_glob_matcher pattern with
      | inl matcher =>
          match build_matchers behavior patterns' with
          | inl (matchers, invalid) => inl (matcher :: matchers, invalid)
          | inr e => inr e
          end
      | inr err =>
          match behavior with
          | ReturnError => inr ("invalid deny-read glob pattern `" +:+ pattern +:+ "`: " +:+ err)
          | FailClosed =>
              match build_matchers behavior patterns' with
              | inl (matchers, _) => inl (matchers, true)
              | inr e => inr e
              end
          end
      end
  end.

Definition matcher_build (p : FileSystemSandboxPolicy) (cwd : string) (behavior : InvalidDenyReadGlobBehavior) : option ReadDenyMatcher + string :=
  if negb (has_denied_read_restrictions p) then inl None
  else
    let denied := map normalized_and_canonical_candidates (get_unreadable_roots_with_cwd o p cwd) in
    match build_matchers behavior (get_unreadable_globs_with_cwd p cwd) with
    | inl (matchers, invalid) => inl (Some (mkReadDenyMatcher denied matchers invalid))
    | inr e => inr e
    end.

(** [ReadDenyMatcher::new]; the error is unreachable and panics. *)
Definition matcher_new (p : FileSystemSandboxPolicy) (cwd : string) : res (option ReadDenyMatcher) :=
  match matcher_build p cwd FailClosed with inl m => Ok m | inr _ => Panic end.

Definition matcher_try_new (p : FileSystemSandboxPolicy) (cwd : string) : option ReadDenyMatcher + string :=
  matcher_build p cwd ReturnError.

Definition is_read_denied (m : ReadDenyMatcher) (path : string) : bool :=
  if invalid_pattern m then true
  else
    let path_candidates := normalized_and_canonical_candidates path in
    if existsb (λ denied, existsb (λ candidate,
           existsb (λ denied_candidate, path_eqb candidate denied_candidate || path_starts_with candidate denied_candidate) denied)
         path_candidates) (denied_candidates m)
    then true
    else existsb (λ matcher, existsb matcher path_candidates) (deny_read_matchers m).
End deny.

(** ** Profiles (models.rs) *)

Inductive SandboxPermissions := UseDefault | RequireEscalated | WithAdditionalPermissions.

Definition requires_escalated_permissions (s : SandboxPermissions) : bool :=
  match s with RequireEscalated => true | _ => false end.

Definition requests_sandbox_override (s : SandboxPermissions) : bool :=
  match s with UseDefault => false | _ => true end.

Definition uses_additional_permissions (s : SandboxPermissions) : bool :=
  match s with WithAdditionalPermissions => true | _ => false end.

Inductive SandboxEnforcement := EnforceManaged | EnforceDisabled | EnforceExternal.

Definition enforcement_of_legacy (p : SandboxPolicy) : SandboxEnforcement :=
  match p with
  | DangerFullAccess => EnforceDisabled
  | ExternalSandbox _ => EnforceExternal
  | ReadOnlyPolicy _ | WorkspaceWrite _ _ _ _ => EnforceManaged
  end.

(** The depth of a restricted profile is a [NonZeroUsize]. *)
Inductive ManagedFileSystemPermissions :=
| ManagedRestricted (entries : list FileSystemSandboxEntry) (glob_scan_max_depth : option positive)
| ManagedUnrestricted.

Definition non_zero (n : usize) : option positive := match n with N0 => None | Npos p => Some p end.

(** An external policy has no managed form: [unreachable!]. *)
Definition from_sandbox_policy (p : FileSystemSandboxPolicy) : res ManagedFileSystemPermissions :=
  match fsp_kind p with
  | KindRestricted => Ok (ManagedRestricted (fsp_entries p) (glob_scan_max_depth p ≫= non_zero))
  | KindUnrestricted => Ok ManagedUnrestricted
  | KindExternalSandbox => Panic
  end.

Definition to_sandbox_policy (m : ManagedFileSystemPermissions) : FileSystemSandboxPolicy :=
  match m with
  | ManagedRestricted entries depth => mkFsPolicy KindRestricted (Npos <$> depth) entries
  | ManagedUnrestricted => fs_unrestricted
  end.

Inductive PermissionProfile :=
| Managed (file_system : ManagedFileSystemPermissions) (network : NetworkSandboxPolicy)
| Disabled
| External (network : NetworkSandboxPolicy).

Definition file_system_sandbox_policy (p : PermissionProfile) : FileSystemSandboxPolicy :=
  match p with
  | Managed file_system _ => to_sandbox_policy file_system
  | Disabled => fs_unrestricted
  | External _ => fs_external_sandbox
  end.

Definition network_sandbox_policy (p : PermissionProfile) : NetworkSandboxPolicy :=
  match p with Managed _ network | External network => network | Disabled => NetEnabled end.

Definition enforcement (p : PermissionProfile) : SandboxEnforcement :=
  match p with Managed _ _ => EnforceManaged | Disabled => EnforceDisabled | External _ => EnforceExternal end.

Definition from_runtime_permissions_with_enforcement (e : SandboxEnforcement) (p : FileSystemSandboxPolicy) (network : NetworkSandboxPolicy) : res PermissionProfile :=
  match fsp_kind p, e with
  | KindExternalSandbox, _ => Ok (External network)
  | KindUnrestricted, EnforceDisabled => Ok Disabled
  | _, _ => file_system ← from_sandbox_policy p; Ok (Managed file_system network)
  end.

Definition from_runtime_permissions (p : FileSystemSandboxPolicy) (network : NetworkSandboxPolicy) : res PermissionProfile :=
  from_runtime_permissions_with_enforcement
    (match fsp_kind p with KindExternalSandbox => EnforceExternal | _ => EnforceManaged end) p network.

Definition to_runtime_permissions (p : PermissionProfile) : FileSystemSandboxPolicy * NetworkSandboxPolicy :=
  (file_system_sandbox_policy p, network_sandbox_policy p).

Definition profile_read_only : res PermissionProfile :=
  file_system ← from_sandbox_policy fs_read_only; Ok (Managed file_system NetRestricted).

Definition profile_default : PermissionProfile := Managed (ManagedRestricted [] None) NetRestricted.

Section profiles.
Context `{SandboxHost} `{HostDirs} (o : os).

Definition workspace_write_with (writable_roots : list string) (network : NetworkSandboxPolicy)
    (exclude_tmpdir_env_var exclude_slash_tmp : bool) : res PermissionProfile :=
  file_system ← from_sandbox_policy (fs_workspace_write o writable_roots exclude_tmpdir_env_var exclude_slash_tmp);
  Ok (Managed file_system network).

Definition profile_workspace_write : res PermissionProfile := workspace_write_with [] NetRestricted false false.

Definition profile_materialize (p : PermissionProfile) (workspace_roots : list string) : res PermissionProfile :=
  match p with
  | Managed file_system network =>
      file_system ← from_sandbox_policy (materialize_project_roots_with_workspace_roots (to_sandbox_policy file_system) workspace_roots);
      Ok (Managed file_system network)
  | Disabled => Ok Disabled
  | External network => Ok (External network)
  end.

Definition profile_of_legacy (p : SandboxPolicy) : res PermissionProfile :=
  from_runtime_permissions_with_enforcement (enforcement_of_legacy p) (fs_of_legacy o p) (network_of_legacy p).

Definition profile_of_legacy_for_cwd (p : SandboxPolicy) (cwd : string) : res PermissionProfile :=
  from_runtime_permissions_with_enforcement (enforcement_of_legacy p) (from_legacy_sandbox_policy_for_cwd o p cwd) (network_of_legacy p).

Definition profile_to_legacy (p : PermissionProfile) (cwd : string) : io SandboxPolicy :=
  match p with
  | Managed file_system network => to_legacy_sandbox_policy o (to_sandbox_policy file_system) network cwd
  | Disabled => IoOk DangerFullAccess
  | External network => IoOk (ExternalSandbox (network_access_of network))
  end.
End profiles.
