(* ===== verification/PermissionsFacts.v ===== *)
(** * What sandbox permissions decide (protocol: permissions.rs, models.rs)

    The most specific entry decides about a path; full access is what it says;
    a workspace policy can be written exactly below the workspace but not at
    its metadata; profiles and older policies convert back and forth. *)

From S2P Require Import Prelude RustStr Os AbsPath Permissions SandboxRoots.

#[local] Open Scope nat_scope.

(** ** The greatest entry *)

Lemma precedence_le_spec a b : precedence_le a b = true ↔ a.1 < b.1 ∨ (a.1 = b.1 ∧ a.2 ≤ b.2).
Proof.
  unfold precedence_le. rewrite orb_true_iff, andb_true_iff, Nat.ltb_lt, Nat.eqb_eq, Nat.leb_le. done.
Qed.

Definition outranks (e x : ResolvedFileSystemEntry) : Prop :=
  precedence_le (resolved_entry_precedence x) (resolved_entry_precedence e) = true.

Lemma outranks_refl e : outranks e e.
Proof. unfold outranks. rewrite precedence_le_spec. lia. Qed.

Lemma outranks_trans a b c : outranks a b → outranks b c → outranks a c.
Proof. unfold outranks. rewrite !precedence_le_spec. lia. Qed.

Lemma outranks_total a b : outranks a b ∨ outranks b a.
Proof. unfold outranks. rewrite !precedence_le_spec. lia. Qed.

Lemma fold_max_entry l e :
  let best := fold_left (λ best e,
    if precedence_le (resolved_entry_precedence best) (resolved_entry_precedence e) then e else best) l e in
  best ∈ e :: l ∧ Forall (outranks best) (e :: l).
Proof.
  revert e. induction l as [|x l IH]; intros e; cbn [fold_left].
  - split; [by left|]. repeat constructor. apply outranks_refl.
  - destruct (precedence_le (resolved_entry_precedence e) (resolved_entry_precedence x)) eqn:E;
      [destruct (IH x) as [Hin Hall]|destruct (IH e) as [Hin Hall]]; inversion_clear Hall as [|? ? Hx Hl];
      (split; [set_solver|]); constructor; try done; try (by constructor); try constructor; try done.
    + by eapply outranks_trans.
    + destruct (outranks_total e x) as [Hex|Hxe]; [by eapply outranks_trans|].
      unfold outranks in Hxe. congruence.
Qed.

Lemma max_entry_Some l e : max_entry l = Some e → e ∈ l ∧ Forall (outranks e) l.
Proof. destruct l as [|x l]; [done|]. intros [= <-]. apply fold_max_entry. Qed.

Lemma max_entry_None l : max_entry l = None ↔ l = [].
Proof. by destruct l. Qed.

(** ** Paths below paths *)

Lemma starts_with_components path base :
  path_starts_with path base = true ↔ components base `prefix_of` components path.
Proof. apply bool_decide_eq_true. Qed.

Lemma path_eqb_spec a b : path_eqb a b = true ↔ components a = components b.
Proof. apply bool_decide_eq_true. Qed.

(** Two paths above the same path and of the same depth are the same. *)
Lemma prefixes_same_length (a b l : list string) :
  a `prefix_of` l → b `prefix_of` l → length a = length b → a = b.
Proof. intros [k ->] [k' E] Hl. by apply app_inj_1 in E as [? _]. Qed.

Section access.
Context `{HOs : Os} {HSb : SandboxHost} `{HD : HostDirs} (o : os).

(** The entries that cover a path. *)
Definition covering (p : FileSystemSandboxPolicy) (target cwd : string) : list ResolvedFileSystemEntry :=
  List.filter (λ e, path_starts_with target (rfe_path e)) (resolved_entries_with_cwd o p cwd).

Lemma covering_elem p target cwd e :
  e ∈ covering p target cwd ↔
  e ∈ resolved_entries_with_cwd o p cwd ∧ components (rfe_path e) `prefix_of` components target.
Proof.
  unfold covering. rewrite list_elem_of_In, filter_In, <-list_elem_of_In. by rewrite starts_with_components.
Qed.

(** An entry that decides: every other one that covers the path is for a
    directory further up, or for the same one and of no higher rank. *)
Definition decides (p : FileSystemSandboxPolicy) (target cwd : string) (e : ResolvedFileSystemEntry) : Prop :=
  e ∈ covering p target cwd ∧
  ∀ x, x ∈ covering p target cwd →
    (components (rfe_path x) `prefix_of` components (rfe_path e) ∧ components (rfe_path x) ≠ components (rfe_path e)) ∨
    (components (rfe_path x) = components (rfe_path e) ∧ access_rank (rfe_access x) ≤ access_rank (rfe_access e)).

Lemma access_rank_inj a b : access_rank a = access_rank b → a = b.
Proof. by destruct a, b. Qed.

Lemma decides_unique p target cwd e e' :
  decides p target cwd e → decides p target cwd e' → rfe_access e = rfe_access e'.
Proof.
  intros [He Hall] [He' Hall']. destruct (Hall e' He') as [[Hp Hn]|[Hc Hr]]; destruct (Hall' e He) as [[Hp' Hn']|[Hc' Hr']];
    try congruence.
  - destruct Hn. by apply (anti_symm prefix).
  - apply access_rank_inj. lia.
Qed.

Lemma max_decides p target cwd e : max_entry (covering p target cwd) = Some e → decides p target cwd e.
Proof.
  intros [Hin Hall]%max_entry_Some. split; [done|]. intros x Hx. rewrite Forall_forall in Hall. specialize (Hall x Hx).
  unfold outranks in Hall. apply precedence_le_spec in Hall. cbn in Hall.
  apply covering_elem in Hin as [_ He]. apply covering_elem in Hx as [_ Hx].
  destruct Hall as [Hlt|[Heq Hr]].
  - left. destruct (prefix_weak_total _ _ _ Hx He) as [Hp|Hp].
    + split; [done|]. intros E. rewrite E in Hlt. lia.
    + apply prefix_length in Hp. lia.
  - right. split; [|done]. by eapply prefixes_same_length.
Qed.

(** Access to a path is decided by the entry for the closest directory above
    it, and among entries for that directory deny beats write and write beats
    read; a path that no entry covers is denied. *)
Theorem access_most_specific p path cwd target :
  fsp_kind p = KindRestricted → resolve_candidate_path path cwd = Some target →
  ∀ a, resolve_access_with_cwd o p path cwd = a ↔
    (covering p target cwd = [] ∧ a = AccessDeny) ∨ ∃ e, decides p target cwd e ∧ rfe_access e = a.
Proof.
  intros Hk Ht a. unfold resolve_access_with_cwd. rewrite Hk, Ht.
  fold (covering p target cwd).
  destruct (max_entry (covering p target cwd)) as [e|] eqn:E.
  - pose proof (max_decides _ _ _ _ E) as Hd. split.
    + intros <-. right. eauto.
    + intros [[Hnil _]|(e' & He' & <-)]; [rewrite Hnil in E; done|]. by eapply decides_unique.
  - apply max_entry_None in E. split.
    + intros <-. by left.
    + intros [[_ ->]|(e & [He _] & _)]; [done|]. rewrite E in He. by apply elem_of_nil in He.
Qed.

(** ** Full access *)

(** Paths of entries and the working directory are absolute and normal, as
    every [AbsolutePathBuf] is. *)
Definition entries_wf (p : FileSystemSandboxPolicy) : Prop :=
  ∀ e path, e ∈ fsp_entries p → fse_path e = PathEntry path → normal path.

Lemma normal_components path : normal path → ∃ names, path = abs_text names ∧ components path = "/" :: names ∧
  Forall (λ c, is_name c = true ∧ c ≠ "..") names.
Proof.
  intros (names & -> & Hn). exists names. split_and!; [done| |done]. apply components_abs_text.
  eapply Forall_impl; [exact Hn|]. by intros x [].
Qed.

Lemma try_absolute_rooted path : has_root path = true → try_absolute path = IoOk (normalize_path path).
Proof.
  intros Hr. unfold try_absolute, from_absolute_path, absolutize, normalize_path_for_platform.
  assert (maybe_expand_home_directory home_dir path = path) as ->; [|by rewrite Hr].
  unfold maybe_expand_home_directory. destruct home_dir; [|done]. by apply starts_with_spec in Hr as [t ->].
Qed.

Lemma try_absolute_normal path : normal path → try_absolute path = IoOk path.
Proof.
  intros Hn. rewrite try_absolute_rooted; [by rewrite normalize_normal|].
  destruct Hn as (names & -> & _). apply (starts_with_app "/").
Qed.

Lemma normal_parent names c :
  Forall (λ c, is_name c = true ∧ c ≠ "..") (names ++ [c]) → path_parent (abs_text (names ++ [c])) = Some (abs_text names).
Proof. intros Hn. apply parent_abs. eapply Forall_impl; [exact Hn|]. by intros x []. Qed.

Lemma ancestors_last fuel names :
  Forall (λ c, is_name c = true ∧ c ≠ "..") names → length names ≤ fuel →
  last (ancestors_fuel fuel (abs_text names)) = Some "/".
Proof.
  revert fuel. induction names as [|c names IH] using rev_ind; intros fuel Hn Hl.
  - by destruct fuel.
  - rewrite length_app in Hl. cbn in Hl. destruct fuel as [|fuel]; [lia|]. cbn [ancestors_fuel].
    rewrite normal_parent by done. rewrite last_cons. apply Forall_app in Hn as [Hn _]. by rewrite IH by (done || lia).
Qed.

Lemma names_length names : Forall (λ c, is_name c = true ∧ c ≠ "..") names → length names ≤ String.length (abs_text names).
Proof.
  unfold abs_text. rewrite str_length_app. cbn [String.length]. intros Hn. cut (length names ≤ S (String.length (join "/" names))); [lia|].
  induction Hn as [|c names [Hc _] _ IH]; [cbn; lia|]. destruct names as [|c' names].
  - cbn. destruct c; cbn; lia.
  - assert (join "/" (c :: c' :: names) = c +:+ "/" +:+ join "/" (c' :: names)) as -> by done.
    rewrite !str_length_app. cbn [length String.length] in *. destruct c; cbn in *; [done|]. lia.
Qed.

Lemma root_of_normal cwd : normal cwd → absolute_root_path_for_cwd cwd = "/".
Proof.
  intros (names & -> & Hn). unfold absolute_root_path_for_cwd, ancestors.
  rewrite ancestors_last by (done || by apply names_length). cbn [mbind option_bind].
  rewrite try_absolute_normal; [done|]. by exists [].
Qed.

Lemma resolved_elem p cwd r :
  r ∈ resolved_entries_with_cwd o p cwd ↔
  ∃ e, e ∈ fsp_entries p ∧ rfe_access r = fse_access e ∧
    resolve_entry_path o (fse_path e) (ok (try_absolute cwd)) = Some (rfe_path r).
Proof.
  unfold resolved_entries_with_cwd. rewrite list_elem_of_omap. unfold resolve_entry. split.
  - intros (e & He & (path & Hp & [= <-])%bind_Some). by exists e.
  - intros (e & He & Ha & Hp). exists e. split; [done|]. rewrite Hp. cbn. destruct r. cbn in *. by rewrite Ha.
Qed.

(** No two project-root entries spell one subpath in two ways. *)
Definition spelled_once (p : FileSystemSandboxPolicy) : Prop :=
  ∀ a b s t, a ∈ fsp_entries p → b ∈ fsp_entries p →
    fse_path a = SpecialEntry (ProjectRoots (Some s)) → fse_path b = SpecialEntry (ProjectRoots (Some t)) →
    path_eqb s t = true → s = t.

Lemma parent_none path : normal path → path_parent path = None → components path = ["/"].
Proof.
  intros (names & -> & Hn) Hp. destruct names as [|c names _] using rev_ind; [done|].
  by rewrite normal_parent in Hp.
Qed.

(** Entries that share a target resolve to the same place, when [/tmp] is a
    directory. *)
Lemma shared_target p cwd a b pb :
  normal cwd → entries_wf p → spelled_once p → is_dir o "/tmp" = true → a ∈ fsp_entries p → b ∈ fsp_entries p →
  file_system_paths_share_target (fse_path a) (fse_path b) = true →
  resolve_entry_path o (fse_path b) (Some cwd) = Some pb →
  ∃ pa, resolve_entry_path o (fse_path a) (Some cwd) = Some pa ∧ components pa = components pb.
Proof.
  intros Hcwd Hwf Hsp Htmp Ha Hb Hs Hr. unfold file_system_paths_share_target in Hs.
  destruct (fse_path a) as [x|x|x] eqn:Ea, (fse_path b) as [y|y|y] eqn:Eb; try done.
  - cbn in *. injection Hr as <-. exists x. by rewrite <-path_eqb_spec.
  - destruct y; try done; cbn in *.
    + injection Hr as <-. exists x. split; [done|]. rewrite root_of_normal by done.
      destruct (path_parent x) eqn:Ep; [done|]. by apply parent_none; [exact (Hwf a x Ha Ea)|].
    + rewrite Htmp in Hr. injection Hr as <-. exists x. by rewrite <-path_eqb_spec.
  - destruct x; try done; cbn in *; injection Hr as <-.
    + eexists. split; [done|]. rewrite root_of_normal by done. destruct (path_parent y) eqn:Ep; [done|].
      symmetry. by apply parent_none; [exact (Hwf b y Hb Eb)|].
    + rewrite Htmp. eexists. split; [done|]. symmetry. by apply path_eqb_spec.
  - exists pb. split; [|done]. destruct x as [| |[s|]| | |q s], y as [| |[t|]| | |q' t]; try done; cbn in Hs.
    assert (s = t) as -> by (by eapply (Hsp a b)). done.
Qed.

(** Full write access is no overstatement: every path can then be written. *)
Theorem full_write_access_sound p path cwd target :
  normal cwd → entries_wf p → spelled_once p → is_dir o "/tmp" = true →
  resolve_candidate_path path cwd = Some target → normal target →
  has_full_disk_write_access p = true → can_write_path_with_cwd o p path cwd = true.
Proof.
  intros Hcwd Hwf Hsp Htmp Ht Hn Hfull. unfold can_write_path_with_cwd. rewrite Hfull.
  cut (resolve_access_with_cwd o p path cwd = AccessWrite); [by intros ->|].
  destruct (fsp_kind p) eqn:Hk; [|unfold resolve_access_with_cwd; by rewrite Hk..].
  unfold has_full_disk_write_access in Hfull. rewrite Hk in Hfull. apply andb_true_iff in Hfull as [Hroot Hnarrow].
  apply andb_true_iff in Hroot as [_ (r & Hr & [Hre Hrw]%andb_true_iff)%existsb_exists].
  apply list_elem_of_In in Hr. unfold has_write_narrowing_entries, is_restricted in Hnarrow. rewrite Hk in Hnarrow. cbn in Hnarrow.
  apply negb_true_iff in Hnarrow.
  assert (∀ e, e ∈ fsp_entries p → narrows_write p e = false) as Hnn.
  { intros e He. apply not_true_iff_false. intros Hc. apply not_true_iff_false in Hnarrow. apply Hnarrow, existsb_exists.
    exists e. by rewrite <-list_elem_of_In. }
  assert (ok (try_absolute cwd) = Some cwd) as Hcw by (by rewrite try_absolute_normal).
  assert (mkResolved "/" (fse_access r) ∈ covering p target cwd) as Hcov.
  { apply covering_elem. split.
    - apply resolved_elem. exists r. split_and!; [done|done|]. unfold is_root_entry in Hre.
      destruct (fse_path r) as [| |[]]; try done. cbn [resolve_entry_path]. rewrite Hcw. cbn. by rewrite root_of_normal.
    - cbn. destruct (normal_components target Hn) as (names & _ & -> & _). by exists names. }
  apply (access_most_specific p path cwd target Hk Ht). right.
  destruct (max_entry (covering p target cwd)) as [w|] eqn:Em.
  2: { apply max_entry_None in Em. rewrite Em in Hcov. by apply elem_of_nil in Hcov. }
  pose proof (max_decides _ _ _ _ Em) as Hdec. exists w. split; [done|].
  destruct Hdec as [Hw Hbest]. pose proof Hw as [(e & He & Hacc & Hres)%resolved_elem Hpre]%covering_elem.
  destruct (rfe_access w) eqn:Ew; [|done|]; exfalso; pose proof (Hnn e He) as Hne; unfold narrows_write in Hne;
    rewrite <-Hacc in Hne; cbn [can_write] in Hne.
  - assert (has_same_target_write_override p e = true → False) as Hno.
    { intros (c & Hc & [[Hcw' Hrk]%andb_true_iff Hsh]%andb_true_iff)%existsb_exists. apply list_elem_of_In in Hc.
      rewrite Hcw in Hres. destruct (shared_target p cwd c e _ Hcwd Hwf Hsp Htmp Hc He Hsh Hres) as (pa & Hpa & Hcomp).
      assert (mkResolved pa (fse_access c) ∈ covering p target cwd) as Hcc.
      { apply covering_elem. split; [|cbn; by rewrite Hcomp]. apply resolved_elem. exists c. by rewrite Hcw. }
      destruct (Hbest _ Hcc) as [[_ Hneq]|[_ Hle]]; cbn in *; [done|].
      destruct (fse_access c); cbn in *; [done|lia|done]. }
    destruct (fse_path e) as [x|x|[]] eqn:Ep; try done; try (apply Hno; by destruct (has_same_target_write_override p e)).
    cbn in Hres. rewrite Hcw in Hres. injection Hres as Hres.
    rewrite root_of_normal in Hres by done. destruct (Hbest _ Hcov) as [[_ Hneq]|[_ Hle]]; cbn in *; [by rewrite <-Hres in Hneq|].
    destruct (fse_access r); cbn in *; [done|lia|done].
  - assert (has_same_target_write_override p e = false) as Hov.
    { apply not_true_iff_false. intros (c & _ & [[Hcw' Hrk%Nat.ltb_lt]%andb_true_iff _]%andb_true_iff)%existsb_exists.
      rewrite <-Hacc in Hrk. destruct (fse_access c); cbn in *; [lia|lia|lia]. }
    unfold is_deny in Hne. rewrite <-Hacc, Hov in Hne.
    destruct (fse_path e) as [x|x|[]]; try done; cbn in *; discriminate.
Qed.

(** ** The workspace *)

Lemma join_name names c :
  Forall (λ c, is_name c = true ∧ c ≠ "..") names → is_name c = true → c ≠ ".." → starts_with c "~" = false →
  resolve_path_against_base home_dir c (abs_text names) = abs_text (names ++ [c]).
Proof.
  intros Hn Hc Hd Ht. unfold resolve_path_against_base, normalize_path_for_platform, absolutize_from, path_with_base.
  assert (maybe_expand_home_directory home_dir c = c) as ->.
  { unfold maybe_expand_home_directory, strip_prefix. rewrite Ht. by destruct home_dir. }
  rewrite name_not_rooted by done. rewrite join_abs by (done || (eapply Forall_impl; [exact Hn|]; by intros x [])).
  apply normalize_normal. exists (names ++ [c]). split; [done|]. apply Forall_app. by split; [|constructor].
Qed.

Lemma strip_list_spec base target rest : strip_list base target = Some rest ↔ target = base ++ rest.
Proof.
  revert target. induction base as [|b base IH]; intros target; cbn; [naive_solver|].
  destruct target as [|t target]; [naive_solver|]. destruct (String.eqb_spec b t) as [->|Hne]; [rewrite IH|]; naive_solver.
Qed.

Definition workspace_resolved (names : list string) : list ResolvedFileSystemEntry :=
  [mkResolved "/" AccessRead; mkResolved (abs_text names) AccessWrite] ++
  map (λ c, mkResolved (abs_text (names ++ [c])) AccessRead) PROTECTED_METADATA_PATH_NAMES.

Definition plain_workspace : FileSystemSandboxPolicy := fs_workspace_write o [] true true.

Lemma workspace_entries_resolved names :
  Forall (λ c, is_name c = true ∧ c ≠ "..") names →
  resolved_entries_with_cwd o plain_workspace (abs_text names) = workspace_resolved names.
Proof.
  intros Hn. assert (normal (abs_text names)) as Hnorm by (by exists names).
  unfold resolved_entries_with_cwd. rewrite try_absolute_normal by done. cbn [ok].
  change (fsp_entries plain_workspace) with
    [mkEntry (SpecialEntry SpecialRoot) AccessRead; mkEntry (SpecialEntry (ProjectRoots None)) AccessWrite;
     mkEntry (SpecialEntry (ProjectRoots (Some ".git"))) AccessRead; mkEntry (SpecialEntry (ProjectRoots (Some ".agents"))) AccessRead;
     mkEntry (SpecialEntry (ProjectRoots (Some ".codex"))) AccessRead].
  unfold workspace_resolved. cbn -[abs_text resolve_path_against_base absolute_root_path_for_cwd].
  rewrite !join_name, root_of_normal by done. done.
Qed.

Lemma workspace_covering names target e :
  Forall (λ c, is_name c = true ∧ c ≠ "..") names →
  e ∈ covering plain_workspace target (abs_text names) ↔
  e ∈ workspace_resolved names ∧ components (rfe_path e) `prefix_of` components target.
Proof. intros Hn. by rewrite covering_elem, workspace_entries_resolved. Qed.

Lemma names_components names :
  Forall (λ c, is_name c = true ∧ c ≠ "..") names → components (abs_text names) = "/" :: names.
Proof. intros Hn. apply components_abs_text. eapply Forall_impl; [exact Hn|]. by intros x []. Qed.

Lemma protected_components names c :
  Forall (λ c, is_name c = true ∧ c ≠ "..") names → c ∈ PROTECTED_METADATA_PATH_NAMES →
  components (abs_text (names ++ [c])) = "/" :: names ++ [c].
Proof.
  intros Hn Hc. apply names_components, Forall_app. split; [done|]. constructor; [|constructor].
  unfold PROTECTED_METADATA_PATH_NAMES in Hc. rewrite !elem_of_cons, elem_of_nil in Hc.
  destruct Hc as [-> |[-> |[-> |[]]]]; done.
Qed.

Lemma metadata_path_name_eq c :
  metadata_path_name c = if bool_decide (c ∈ PROTECTED_METADATA_PATH_NAMES) then Some c else None.
Proof.
  unfold metadata_path_name, PROTECTED_METADATA_PATH_NAMES. cbn.
  destruct (String.eqb_spec c ".git") as [->|]; [done|]. destruct (String.eqb_spec c ".agents") as [->|]; [done|].
  destruct (String.eqb_spec c ".codex") as [->|]; [done|]. rewrite bool_decide_false by set_solver. done.
Qed.

Lemma workspace_covering_cases names target x :
  Forall (λ c, is_name c = true ∧ c ≠ "..") names → x ∈ covering plain_workspace target (abs_text names) →
  (x = mkResolved "/" AccessRead) ∨ (x = mkResolved (abs_text names) AccessWrite ∧ "/" :: names `prefix_of` components target) ∨
  ∃ c, c ∈ PROTECTED_METADATA_PATH_NAMES ∧ x = mkResolved (abs_text (names ++ [c])) AccessRead ∧ "/" :: names ++ [c] `prefix_of` components target.
Proof.
  intros Hn. rewrite workspace_covering by done. unfold workspace_resolved.
  rewrite elem_of_app, !elem_of_cons, elem_of_nil, list_elem_of_fmap.
  intros [[[->|[->|[]]]|(c & -> & Hc)] Hp]; [by left| |]; right; cbn in Hp.
  - left. by rewrite names_components in Hp.
  - right. exists c. by rewrite protected_components in Hp.
Qed.

(** What decides about a path: the metadata directory it is in, else the
    workspace, else the root. *)
Lemma workspace_decides names target :
  Forall (λ c, is_name c = true ∧ c ≠ "..") names → normal target →
  decides plain_workspace target (abs_text names)
    (match strip_list ("/" :: names) (components target) with
     | None => mkResolved "/" AccessRead
     | Some rest =>
         match head rest ≫= metadata_path_name with
         | Some c => mkResolved (abs_text (names ++ [c])) AccessRead
         | None => mkResolved (abs_text names) AccessWrite
         end
     end).
Proof.
  intros Hn Ht. destruct (normal_components target Ht) as (tn & _ & Etc & _).
  pose proof (workspace_covering_cases names target) as Hcases.
  destruct (strip_list ("/" :: names) (components target)) as [rest|] eqn:Es.
  - apply strip_list_spec in Es. destruct (head rest ≫= metadata_path_name) as [c|] eqn:Eh.
    + destruct rest as [|r rest]; [done|]. change (metadata_path_name r = Some c) in Eh. rewrite metadata_path_name_eq in Eh. case_bool_decide as Hr; [|done]. injection Eh as ->.
      split.
      * apply workspace_covering; [done|]. split; [unfold workspace_resolved; set_solver|]. cbn [rfe_path].
        rewrite protected_components, Es by done. exists rest. cbn. by rewrite <-app_assoc.
      * intros x Hx. cbn [rfe_path rfe_access]. rewrite protected_components by done.
        destruct (Hcases x Hn Hx) as [->|[[-> _]|(c' & Hc' & -> & Hp)]]; cbn [rfe_path rfe_access].
        -- left. split; [by exists (names ++ [c])|]. by destruct names.
        -- left. rewrite names_components by done. split; [by exists [c]|].
           intros E. apply (f_equal length) in E. cbn in E. rewrite length_app in E. cbn in E. lia.
        -- right. rewrite protected_components by done. split; [|done]. rewrite Es in Hp.
           apply (prefix_app_inv ("/" :: names) [c'] (c :: rest)) in Hp. destruct Hp as [k E]. cbn in E. by injection E as ->.
    + assert (∀ c', c' ∈ PROTECTED_METADATA_PATH_NAMES → ¬ "/" :: names ++ [c'] `prefix_of` components target) as Hno.
      { intros c' Hc' Hp. rewrite Es in Hp. apply (prefix_app_inv ("/" :: names) [c'] rest) in Hp. destruct Hp as [k ->].
        change (metadata_path_name c' = None) in Eh. rewrite metadata_path_name_eq, bool_decide_true in Eh by done. done. }
      split.
      * apply workspace_covering; [done|]. split; [unfold workspace_resolved; set_solver|]. cbn [rfe_path].
        rewrite names_components, Es by done. by exists rest.
      * intros x Hx. cbn [rfe_path rfe_access]. rewrite names_components by done.
        destruct (Hcases x Hn Hx) as [->|[[-> _]|(c' & Hc' & _ & Hp)]]; cbn [rfe_path rfe_access].
        -- destruct names as [|n names]; [right; split; [done|cbn; lia]|left]. split; [by exists (n :: names)|done].
        -- right. by rewrite names_components.
        -- by destruct (Hno c' Hc').
  - assert (¬ "/" :: names `prefix_of` components target) as Hno.
    { intros [k E]. apply eq_None_not_Some in Es. apply Es. exists k. by apply strip_list_spec. }
    split.
    + apply workspace_covering; [done|]. split; [unfold workspace_resolved; set_solver|]. cbn. rewrite Etc. by exists tn.
    + intros x Hx. destruct (Hcases x Hn Hx) as [->|[[-> Hp]|(c' & Hc' & -> & [k Hp])]]; [by right|done|].
      destruct Hno. exists ([c'] ++ k). rewrite Hp. cbn. by rewrite <-app_assoc.
Qed.

(** C30. In the workspace policy without temporary directories exactly the paths
    below the workspace can be written, but for its [.git], [.agents] and
    [.codex], whether or not they exist. *)
Theorem workspace_write_spec path cwd target :
  normal cwd → resolve_candidate_path path cwd = Some target → normal target →
  can_write_path_with_cwd o (fs_workspace_write o [] true true) path cwd = true ↔
  ∃ rest, components target = components cwd ++ rest ∧
    match rest with c :: _ => c ∉ PROTECTED_METADATA_PATH_NAMES | [] => True end.
Proof.
  intros Hcwd Hres Ht. destruct Hcwd as (names & -> & Hn). fold plain_workspace.
  pose proof (workspace_decides names target Hn Ht) as Hdec.
  assert (∀ a e, decides plain_workspace target (abs_text names) e → rfe_access e = a →
    resolve_access_with_cwd o plain_workspace path (abs_text names) = a) as Hacc.
  { intros a e He Ha. apply (access_most_specific plain_workspace path (abs_text names) target); [done|done|]. right. eauto. }
  rewrite names_components by done. unfold can_write_path_with_cwd.
  destruct (strip_list ("/" :: names) (components target)) as [rest|] eqn:Es.
  - apply strip_list_spec in Es. destruct (head rest ≫= metadata_path_name) as [c|] eqn:Eh.
    + rewrite (Hacc AccessRead _ Hdec) by done. cbn. split; [done|]. intros (rest' & E & Hc). rewrite Es in E.
      apply (app_inv_head ("/" :: names)) in E. subst rest'. destruct rest as [|r rest]; [done|]. change (metadata_path_name r = Some c) in Eh.
      apply find_first_Some in Eh as [Hin Heq%String.eqb_eq]. by subst.
    + rewrite (Hacc AccessWrite _ Hdec) by done. cbn [can_write negb].
      assert (has_full_disk_write_access plain_workspace = false) as -> by done.
      unfold is_metadata_write_denied. rewrite Hres. cbn [is_restricted plain_workspace].
      unfold metadata_child_of_writable_root. rewrite workspace_entries_resolved by done.
      change (List.filter (λ e, can_write (rfe_access e)) (workspace_resolved names)) with [mkResolved (abs_text names) AccessWrite].
      cbn [omap list_omap]. unfold metadata_below, strip_components. cbn [rfe_path].
      rewrite names_components by done. rewrite (proj2 (strip_list_spec _ _ _) Es). cbn [mbind option_bind].
      destruct rest as [|r rest]; [cbn; split; [|done]; intros _; by exists []|].
      change (metadata_path_name r = None) in Eh. cbn [head mbind option_bind]. rewrite Eh. cbn [mbind option_bind head].
      split; [|done]. intros _. exists (r :: rest). split; [done|]. intros Hin.
      unfold metadata_path_name in Eh. apply find_first_None in Eh. rewrite Forall_forall in Eh.
      specialize (Eh r Hin). by rewrite str_eqb_refl in Eh.
  - rewrite (Hacc AccessRead _ Hdec) by done. cbn. split; [done|]. intros (rest & E & _).
    apply (strip_list_spec ("/" :: names)) in E. congruence.
Qed.

(** ** Denied paths *)

Lemma deny_wins p path cwd target d :
  fsp_kind p = KindRestricted → resolve_candidate_path path cwd = Some target →
  d ∈ covering p target cwd → rfe_access d = AccessDeny →
  (∀ x, x ∈ covering p target cwd → components (rfe_path x) `prefix_of` components (rfe_path d)) →
  can_read_path_with_cwd o p path cwd = false.
Proof.
  intros Hk Ht Hd Ha Hall. unfold can_read_path_with_cwd.
  assert (resolve_access_with_cwd o p path cwd = AccessDeny) as ->; [|done].
  apply (access_most_specific p path cwd target Hk Ht). right. exists d. split; [|done]. split; [done|].
  intros x Hx. destruct (decide (components (rfe_path x) = components (rfe_path d))) as [E|Hne].
  - right. split; [done|]. rewrite Ha. destruct (rfe_access x); cbn; lia.
  - left. split; [by apply Hall|done].
Qed.

Lemma entry_eqb_spec a b : entry_eqb a b = true → fs_path_eqb (fse_path a) (fse_path b) = true ∧ fse_access a = fse_access b.
Proof. unfold entry_eqb. by intros [? ?%bool_decide_eq_true]%andb_true_iff. Qed.

Lemma opt_path_eqb_refl a : opt_path_eqb a a = true.
Proof. destruct a; [|done]. by apply path_eqb_spec. Qed.

Lemma entry_eqb_refl e : entry_eqb e e = true.
Proof.
  unfold entry_eqb. rewrite bool_decide_true, andb_true_r by done. destruct (fse_path e) as [x|x|[| |x| | |x y]]; cbn;
    try done; try (by apply path_eqb_spec); try apply str_eqb_refl; try apply opt_path_eqb_refl.
  by rewrite str_eqb_refl, opt_path_eqb_refl.
Qed.

Lemma push_once_keeps l e x : x ∈ l → x ∈ push_entry_once l e.
Proof. unfold push_entry_once. case_match; [done|]. set_solver. Qed.

Lemma push_all_once es l :
  (∀ x, x ∈ l → x ∈ fold_left push_entry_once es l) ∧
  ∀ e, e ∈ es → ∃ e', e' ∈ fold_left push_entry_once es l ∧ entry_eqb e' e = true.
Proof.
  revert l. induction es as [|e es IH]; intros l; cbn [fold_left]; [split; [done|intros e He; by apply elem_of_nil in He]|].
  destruct (IH (push_entry_once l e)) as [Hk Ha]. split; [intros x Hx; by apply Hk, push_once_keeps|].
  intros e' [->|He']%elem_of_cons; [|by apply Ha]. destruct (existsb (λ x, entry_eqb x e) l) eqn:E.
  - apply existsb_exists in E as (x & Hx%list_elem_of_In & Heq). exists x. split; [|done]. by apply IH, push_once_keeps.
  - exists e. split; [apply Hk; unfold push_entry_once; rewrite E; set_solver|apply entry_eqb_refl].
Qed.

(** Replacing the granting side of a policy keeps what was denied: unless the
    sandbox is external, the new policy is restricted and has every deny entry
    of the old one besides its own entries. *)
Theorem preserve_keeps_denies existing p :
  fsp_kind p ≠ KindExternalSandbox → existsb is_deny (fsp_entries existing) = true →
  let p' := preserve_deny_read_restrictions_from existing p in
  fsp_kind p' = KindRestricted ∧
  (∀ d, d ∈ fsp_entries existing → fse_access d = AccessDeny →
     ∃ d', d' ∈ fsp_entries p' ∧ fse_access d' = AccessDeny ∧ fs_path_eqb (fse_path d') (fse_path d) = true) ∧
  (fsp_kind p = KindRestricted → ∀ e, e ∈ fsp_entries p → e ∈ fsp_entries p').
Proof.
  intros Hext Hden. cbn zeta. unfold preserve_deny_read_restrictions_from. rewrite Hden, andb_true_r.
  set (q := if match fsp_kind p with KindUnrestricted => true | _ => false end then _ else p).
  assert (fsp_kind q = KindRestricted) as Hq by (unfold q; destruct (fsp_kind p) eqn:E; congruence || done).
  unfold is_restricted. rewrite Hq. cbn [negb]. set (q' := match glob_scan_max_depth q with None => _ | Some _ => q end).
  assert (fsp_kind q' = KindRestricted ∧ fsp_entries q' = fsp_entries q) as [Hq' He']
    by (unfold q'; by destruct (glob_scan_max_depth q)).
  unfold add_denies. cbn [fsp_kind fsp_entries set_entries].
  destruct (push_all_once (List.filter is_deny (fsp_entries existing)) (fsp_entries q')) as [Hk Ha]. split_and!; [done| |].
  - intros d Hd Hacc. destruct (Ha d) as (d' & Hd' & [Hp Hx]%entry_eqb_spec).
    { rewrite list_elem_of_In, filter_In, <-list_elem_of_In. split; [done|]. by apply bool_decide_eq_true. }
    exists d'. split_and!; [done|congruence|done].
  - intros Hkp e He. apply Hk. rewrite He'. unfold q. by rewrite Hkp.
Qed.

(** ** Older policies *)

Definition write_entries (l : list FileSystemSandboxEntry) : list FileSystemSandboxEntry :=
  List.filter (λ e, can_write (fse_access e)) l.

Lemma legacy_fold_writes c l r : fold_left (legacy_step o c) l r = fold_left (legacy_step o c) (write_entries l) r.
Proof.
  revert r. induction l as [|e l IH]; intros r; [done|]. cbn [fold_left write_entries List.filter]. rewrite IH.
  destruct (can_write (fse_access e)) eqn:E; [done|].
  assert (legacy_step o c r e = r) as ->; [|done]. unfold legacy_step. rewrite E. by destruct r.
Qed.

Lemma root_write_writes p :
  has_root_access p can_write = is_restricted p && existsb is_root_entry (write_entries (fsp_entries p)).
Proof.
  unfold has_root_access. f_equal. induction (fsp_entries p) as [|e l IH]; [done|]. cbn [existsb]. rewrite IH.
  unfold write_entries. cbn [List.filter]. destruct (can_write (fse_access e)); cbn [existsb];
    [by rewrite andb_true_r|by rewrite andb_false_r].
Qed.

Lemma append_default_writes l path : write_entries (append_default_read_only_entry_if_no_explicit_rule l path) = write_entries l.
Proof.
  unfold append_default_read_only_entry_if_no_explicit_rule. case_match; [done|].
  unfold write_entries. rewrite List.filter_app. cbn. apply app_nil_r.
Qed.

Lemma fold_keeps_writes {A} (f : list FileSystemSandboxEntry → A → list FileSystemSandboxEntry) xs l :
  (∀ l x, write_entries (f l x) = write_entries l) → write_entries (fold_left f xs l) = write_entries l.
Proof. intros Hf. revert l. induction xs as [|x xs IH]; intros l; [done|]. cbn [fold_left]. by rewrite IH. Qed.

Lemma protect_root_writes b l root : write_entries (protect_root o b l root) = write_entries l.
Proof. apply fold_keeps_writes. intros. apply append_default_writes. Qed.

Lemma workspace_writes roots et es cwd net :
  write_entries (fsp_entries (from_legacy_sandbox_policy_for_cwd o (WorkspaceWrite roots net et es) cwd)) =
  [mkEntry (SpecialEntry (ProjectRoots None)) AccessWrite]
  ++ (if es then [] else [mkEntry (SpecialEntry SlashTmp) AccessWrite])
  ++ (if et then [] else [mkEntry (SpecialEntry SpecialTmpdir) AccessWrite])
  ++ map (λ path, mkEntry (PathEntry path) AccessWrite) roots.
Proof.
  unfold from_legacy_sandbox_policy_for_cwd. cbn [fsp_entries set_entries].
  rewrite fold_keeps_writes by (intros; apply protect_root_writes).
  assert (∀ l, write_entries (protect_cwd o cwd l) = write_entries l) as -> by
    (intros l; unfold protect_cwd; case_match; [apply protect_root_writes|done]).
  unfold fs_of_legacy, fs_workspace_write, fs_restricted. cbn [fsp_entries].
  rewrite fold_keeps_writes by (intros; apply protect_root_writes).
  rewrite fold_keeps_writes by (intros; apply append_default_writes).
  unfold workspace_entries, write_entries. rewrite !List.filter_app. cbn [List.filter can_write fse_access app].
  assert (List.filter (λ e, can_write (fse_access e)) (map (λ path, mkEntry (PathEntry path) AccessWrite) roots) =
    map (λ path, mkEntry (PathEntry path) AccessWrite) roots) as -> by (induction roots as [|r rs IH]; [done|cbn; by rewrite IH]).
  by destruct es, et.
Qed.

Definition other_than (cwd : option string) (path : string) : bool :=
  negb (match cwd with Some cwd => path_eqb cwd path | None => false end).

Lemma legacy_fold_roots c roots w rs t s u :
  fold_left (legacy_step o c) (map (λ path, mkEntry (PathEntry path) AccessWrite) roots) (mkLegacyRequest w rs t s u) =
  mkLegacyRequest (w || existsb (λ r, negb (other_than c r)) roots) (rs ++ List.filter (other_than c) roots) t s u.
Proof.
  revert w rs. induction roots as [|r roots IH]; intros w rs; cbn [map fold_left existsb List.filter];
    [by rewrite orb_false_r, app_nil_r|].
  unfold legacy_step at 2. cbn [fse_access can_write fse_path negb].
  assert (match c with Some cwd => path_eqb cwd r | None => false end = negb (other_than c r)) as ->
    by (unfold other_than; by rewrite negb_involutive).
  destruct (other_than c r); cbn [negb]; rewrite IH.
  - by rewrite <-app_assoc.
  - by rewrite orb_true_r.
Qed.

Lemma legacy_fold_workspace c roots (et es : bool) :
  fold_left (legacy_step o c) ([mkEntry (SpecialEntry (ProjectRoots None)) AccessWrite]
    ++ (if es then [] else [mkEntry (SpecialEntry SlashTmp) AccessWrite])
    ++ (if et then [] else [mkEntry (SpecialEntry SpecialTmpdir) AccessWrite])
    ++ map (λ path, mkEntry (PathEntry path) AccessWrite) roots) (mkLegacyRequest false [] false false false) =
  mkLegacyRequest true (List.filter (other_than c) roots) (negb et) (negb es) false.
Proof.
  destruct es, et; [exact (legacy_fold_roots c roots true [] false false false)|exact (legacy_fold_roots c roots true [] true false false)
    |exact (legacy_fold_roots c roots true [] false true false)|exact (legacy_fold_roots c roots true [] true true false)].
Qed.

(** The policy that stands for an older one. *)
Definition legacy_normal (p : SandboxPolicy) (cwd : string) : SandboxPolicy :=
  match p with
  | WorkspaceWrite roots network et es =>
      WorkspaceWrite (dedup_absolute_paths o (List.filter (other_than (ok (try_absolute cwd))) roots) false) network et es
  | _ => p
  end.

(** An older policy survives being converted to entries and back, except that
    its writable roots are listed once and without the workspace itself, which
    it includes anyway. *)
Theorem legacy_roundtrip p cwd :
  to_legacy_sandbox_policy o (from_legacy_sandbox_policy_for_cwd o p cwd) (network_of_legacy p) cwd = IoOk (legacy_normal p cwd).
Proof.
  destruct p as [|net|net|roots net et es]; [done|by destruct net|by destruct net|].
  unfold to_legacy_sandbox_policy.
  assert (fsp_kind (from_legacy_sandbox_policy_for_cwd o (WorkspaceWrite roots net et es) cwd) = KindRestricted) as -> by done.
  cbn zeta. unfold has_full_disk_write_access.
  assert (fsp_kind (from_legacy_sandbox_policy_for_cwd o (WorkspaceWrite roots net et es) cwd) = KindRestricted) as -> by done.
  rewrite root_write_writes, legacy_fold_writes, workspace_writes.
  assert (existsb is_root_entry (map (λ path, mkEntry (PathEntry path) AccessWrite) roots) = false) as Hr
    by (induction roots as [|r rs IH]; [done|exact IH]).
  assert (existsb is_root_entry ([mkEntry (SpecialEntry (ProjectRoots None)) AccessWrite] ++
    (if es then [] else [mkEntry (SpecialEntry SlashTmp) AccessWrite]) ++
    (if et then [] else [mkEntry (SpecialEntry SpecialTmpdir) AccessWrite]) ++
    map (λ path, mkEntry (PathEntry path) AccessWrite) roots) = false) as -> by (rewrite !existsb_app, Hr; by destruct es, et).
  rewrite andb_false_r. cbn [andb]. rewrite legacy_fold_workspace. cbn. by destruct net, et, es.
Qed.

(** ** Denied reads *)

Lemma build_matchers_closed `{GlobLib} patterns : ∃ m, build_matchers FailClosed patterns = inl m.
Proof.
  induction patterns as [|pattern patterns [[ms inv] IH]]; cbn; [by eexists|]. rewrite IH.
  destruct (build_glob_matcher pattern); by eexists.
Qed.

Lemma candidates_own path : normal path → path ∈ normalized_and_canonical_candidates o path.
Proof.
  intros Hn. unfold normalized_and_canonical_candidates. rewrite try_absolute_normal by done.
  destruct (canonicalize o path) as [c|]; [|by left]. destruct (try_absolute c) as [c'|]; [|by left].
  unfold push_unique. case_match; set_solver.
Qed.

(** The matcher of denied reads is always built, and says no to every path
    below an unreadable root, and to all paths if a pattern is malformed. *)
Theorem read_deny_sound `{GlobLib} p cwd :
  ∃ m, matcher_new o p cwd = Ok m ∧ (m = None ↔ has_denied_read_restrictions p = false) ∧
  ∀ M path, m = Some M → normal path →
    (invalid_pattern M = true ∨
     ∃ root, root ∈ get_unreadable_roots_with_cwd o p cwd ∧ normal root ∧ components root `prefix_of` components path) →
    is_read_denied o M path = true.
Proof.
  unfold matcher_new, matcher_build. destruct (has_denied_read_restrictions p); cbn [negb]; [|by exists None].
  destruct (build_matchers_closed (get_unreadable_globs_with_cwd p cwd)) as [[ms inv] ->].
  eexists. split_and!; [done|done|]. intros M path [= <-] Hn. unfold is_read_denied. cbn [invalid_pattern denied_candidates].
  intros [->|(root & Hroot & Hnr & Hpre)]; [done|]. destruct inv; [done|].
  assert (∀ b c : bool, b = true → (if b then true else c) = true) as Hif by (by intros [] c). apply Hif, existsb_exists.
  exists (normalized_and_canonical_candidates o root). split; [apply in_map; by apply list_elem_of_In|].
  apply existsb_exists. exists path. split; [by apply list_elem_of_In, candidates_own|].
  apply existsb_exists. exists root. split; [by apply list_elem_of_In, candidates_own|].
  apply orb_true_iff. right. by apply starts_with_components.
Qed.
End access.

(** ** Profiles *)

(** A profile is determined by its enforcement and its run-time permissions. *)
Theorem profile_roundtrip p :
  from_runtime_permissions_with_enforcement (enforcement p) (to_runtime_permissions p).1 (to_runtime_permissions p).2 = Ok p.
Proof. by destruct p as [[entries [d|]|] net| |net]. Qed.

(** Without the enforcement a disabled sandbox comes back as a managed one. *)
Example disabled_profile_changes :
  from_runtime_permissions (to_runtime_permissions Disabled).1 (to_runtime_permissions Disabled).2 =
  Ok (Managed ManagedUnrestricted NetEnabled).
Proof. done. Qed.
