(* ===== verification/PolicyTransforms.v ===== *)
(** * Additional permissions (sandboxing: policy_transforms.rs; protocol:
    models.rs)

    An agent may ask for permissions on top of its profile, for one command or
    for a session.  What is asked for is normalised, merged with earlier grants
    and cut down to what was both requested and granted; the result is laid
    over the profile of the command. *)

From S2P Require Import Prelude RustStr Os AbsPath Permissions SandboxRoots PermissionsFacts.

#[local] Open Scope nat_scope.

(** ** models.rs *)

Record FileSystemPermissions := mkFsPermissions {
  fp_entries : list FileSystemSandboxEntry;
  fp_glob_scan_max_depth : option positive
}.

Definition fs_permissions_empty (f : FileSystemPermissions) : bool :=
  match fp_entries f with [] => true | _ => false end.

Definition fs_permissions_default : FileSystemPermissions := mkFsPermissions [] None.

Definition from_read_write_roots (read write : option (list string)) : FileSystemPermissions :=
  mkFsPermissions
    (map (λ path, mkEntry (PathEntry path) AccessRead) (default [] read)
     ++ map (λ path, mkEntry (PathEntry path) AccessWrite) (default [] write)) None.

Definition explicit_path_entries (f : FileSystemPermissions) : list (string * FileSystemAccessMode) :=
  omap (λ e, match fse_path e with PathEntry path => Some (path, fse_access e) | _ => None end) (fp_entries f).

Fixpoint legacy_roots_loop (entries : list FileSystemSandboxEntry) (read write : list string) : option (list string * list string) :=
  match entries with
  | [] => Some (read, write)
  | e :: entries' =>
      match fse_path e, fse_access e with
      | PathEntry path, AccessRead => legacy_roots_loop entries' (read ++ [path]) write
      | PathEntry path, AccessWrite => legacy_roots_loop entries' read (write ++ [path])
      | _, _ => None
      end
  end.

Definition some_if_not_empty {A} (l : list A) : option (list A) := match l with [] => None | _ => Some l end.

Definition legacy_read_write_roots (f : FileSystemPermissions) : option (option (list string) * option (list string)) :=
  match fp_glob_scan_max_depth f with
  | Some _ => None
  | None =>
      match legacy_roots_loop (fp_entries f) [] [] with
      | Some (read, write) => Some (some_if_not_empty read, some_if_not_empty write)
      | None => None
      end
  end.

Record NetworkPermissions := mkNetPermissions { np_enabled : option bool }.

Definition net_permissions_empty (n : NetworkPermissions) : bool :=
  match np_enabled n with None => true | Some _ => false end.

Record AdditionalPermissionProfile := mkAdditional {
  ap_network : option NetworkPermissions;
  ap_file_system : option FileSystemPermissions
}.

Definition additional_empty (a : AdditionalPermissionProfile) : bool :=
  match ap_network a, ap_file_system a with None, None => true | _, _ => false end.

(** [Option::filter]. *)
Definition opt_filter {A} (f : A → bool) (o : option A) : option A :=
  match o with Some a => if f a then Some a else None | None => None end.

(** ** Depth of glob scans *)

Inductive GlobScanDepth := Bounded (n : usize) | Unbounded.

Definition is_deny_glob (e : FileSystemSandboxEntry) : bool :=
  is_deny e && match fse_path e with GlobPattern _ => true | _ => false end.

Definition effective_glob_scan_depth (entries : list FileSystemSandboxEntry) (depth : option usize) : option GlobScanDepth :=
  if existsb is_deny_glob entries
  then Some (match depth with Some depth => Bounded depth | None => Unbounded end) else None.

Definition merge_glob_scan_max_depth (left_entries : list FileSystemSandboxEntry) (left_depth : option usize)
    (right_entries : list FileSystemSandboxEntry) (right_depth : option usize) : option usize :=
  match effective_glob_scan_depth left_entries left_depth, effective_glob_scan_depth right_entries right_depth with
  | Some Unbounded, _ | _, Some Unbounded => None
  | Some (Bounded l), Some (Bounded r) => Some (N.max l r)
  | Some (Bounded depth), None | None, Some (Bounded depth) => Some depth
  | None, None => None
  end.

(** ** Merging *)

Definition merge_permission_entries (base permissions : list FileSystemSandboxEntry) : list FileSystemSandboxEntry :=
  fold_left push_entry_once (base ++ permissions) [].

Definition is_enabled (n : option NetworkPermissions) : bool :=
  match n with Some (mkNetPermissions (Some true)) => true | _ => false end.

Definition merge_permission_profiles (base permissions : option AdditionalPermissionProfile) : option AdditionalPermissionProfile :=
  match permissions with
  | None => base
  | Some permissions =>
      match base with
      | Some base =>
          let network :=
            if is_enabled (ap_network base) || is_enabled (ap_network permissions)
            then Some (mkNetPermissions (Some true)) else None in
          let file_system :=
            match ap_file_system base, ap_file_system permissions with
            | Some base, Some permissions =>
                opt_filter (λ f, negb (fs_permissions_empty f))
                  (Some (mkFsPermissions (merge_permission_entries (fp_entries base) (fp_entries permissions))
                           (merge_glob_scan_max_depth (fp_entries base) (Npos <$> fp_glob_scan_max_depth base)
                              (fp_entries permissions) (Npos <$> fp_glob_scan_max_depth permissions) ≫= non_zero)))
            | Some base, None => Some base
            | None, permissions => permissions
            end in
          opt_filter (λ a, negb (additional_empty a)) (Some (mkAdditional network file_system))
      | None => opt_filter (λ a, negb (additional_empty a)) (Some permissions)
      end
  end.

(** ** Laying permissions over a policy *)

Definition merge_file_system_policy_with_additional_permissions (p : FileSystemSandboxPolicy) (additional : FileSystemPermissions) : FileSystemSandboxPolicy :=
  match fsp_kind p with
  | KindRestricted =>
      mkFsPolicy KindRestricted
        (merge_glob_scan_max_depth (fsp_entries p) (glob_scan_max_depth p)
           (fp_entries additional) (Npos <$> fp_glob_scan_max_depth additional))
        (fold_left push_entry_once (fp_entries additional) (fsp_entries p))
  | KindUnrestricted | KindExternalSandbox => p
  end.

Definition effective_file_system_sandbox_policy (p : FileSystemSandboxPolicy) (additional : option AdditionalPermissionProfile) : FileSystemSandboxPolicy :=
  match additional with
  | None => p
  | Some additional =>
      match ap_file_system additional with
      | None => p
      | Some f => if fs_permissions_empty f then p else merge_file_system_policy_with_additional_permissions p f
      end
  end.

Definition merge_network_access (base_network_access : bool) (additional : AdditionalPermissionProfile) : bool :=
  base_network_access || default false (ap_network additional ≫= np_enabled).

Definition effective_network_sandbox_policy (n : NetworkSandboxPolicy) (additional : option AdditionalPermissionProfile) : NetworkSandboxPolicy :=
  match additional with
  | Some permissions => if merge_network_access (net_is_enabled n) permissions then NetEnabled else NetRestricted
  | None => n
  end.

Definition effective_permission_profile (profile : PermissionProfile) (additional : option AdditionalPermissionProfile) : res PermissionProfile :=
  let '(file_system_policy, network_policy) := to_runtime_permissions profile in
  from_runtime_permissions_with_enforcement (enforcement profile)
    (effective_file_system_sandbox_policy file_system_policy additional)
    (effective_network_sandbox_policy network_policy additional).

Definition should_require_platform_sandbox (p : FileSystemSandboxPolicy) (n : NetworkSandboxPolicy) (has_managed_network_requirements : bool) : bool :=
  if has_managed_network_requirements then true
  else if negb (net_is_enabled n) then match fsp_kind p with KindExternalSandbox => false | _ => true end
  else match fsp_kind p with
       | KindRestricted => negb (has_full_disk_write_access p)
       | KindUnrestricted | KindExternalSandbox => false
       end.

(** ** What was requested and granted *)

Definition access_covers (requested granted : FileSystemAccessMode) : bool :=
  match granted with
  | AccessRead => can_read requested
  | AccessWrite => can_write requested
  | AccessDeny => false
  end.

Definition paths_overlap (left right : string) : bool := path_starts_with left right || path_starts_with right left.

Definition is_glob_char (a : ascii) : bool := existsb (Ascii.eqb a) ["*"; "?"; "["; "]"]%char.

(** The text before the first character of a pattern, if there is one. *)
Fixpoint before_glob (s : string) : string * bool :=
  match s with
  | EmptyString => (EmptyString, false)
  | String a s' => if is_glob_char a then (EmptyString, true)
                   else let '(l, found) := before_glob s' in (String a l, found)
  end.

Definition ends_with_separator (s : string) : bool :=
  match str_rev s with
  | String a _ => Ascii.eqb a "/"%char || Ascii.eqb a "\"%char
  | EmptyString => false
  end.

Section transforms.
Context `{SandboxHost} `{HostDirs} `{GlobLib} (o : os).

Fixpoint normalize_entries (entries acc : list FileSystemSandboxEntry) : string + list FileSystemSandboxEntry :=
  match entries with
  | [] => inr acc
  | e :: entries' =>
      if match fse_path e with GlobPattern _ => true | _ => false end && negb (is_deny e)
      then inl "glob file system permissions only support deny-read entries"
      else
        let path :=
          match fse_path e with
          | PathEntry path =>
              PathEntry (default path (canonical ← ok (canonicalize_preserving_symlinks o path); ok (try_absolute canonical)))
          | other => other
          end in
        normalize_entries entries' (push_entry_once acc (mkEntry path (fse_access e)))
  end.

Definition normalize_additional_permissions (a : AdditionalPermissionProfile) : string + AdditionalPermissionProfile :=
  let network := opt_filter (λ n, negb (net_permissions_empty n)) (ap_network a) in
  match ap_file_system a with
  | None => inr (mkAdditional network None)
  | Some f =>
      match normalize_entries (fp_entries f) [] with
      | inl e => inl e
      | inr entries =>
          let file_system := mkFsPermissions entries (fp_glob_scan_max_depth f) in
          inr (mkAdditional network (if fs_permissions_empty file_system then None else Some file_system))
      end
  end.

Definition resolve_permission_path (path : FileSystemPath) (cwd : string) : option string :=
  match path with
  | PathEntry path => Some path
  | GlobPattern _ => None
  | SpecialEntry SpecialRoot => root ← last (ancestors cwd); ok (try_absolute root)
  | SpecialEntry (ProjectRoots subpath) =>
      cwd ← ok (try_absolute cwd);
      Some (match subpath with
            | Some subpath => resolve_path_against_base home_dir subpath cwd
            | None => cwd
            end)
  | SpecialEntry SpecialTmpdir =>
      tmpdir ← tmpdir_var;
      if str_is_empty tmpdir then None else ok (try_absolute tmpdir)
  | SpecialEntry SlashTmp => opt_filter (is_dir o) (ok (try_absolute "/tmp"))
  | SpecialEntry SpecialMinimal | SpecialEntry (UnknownSpecial _ _) => None
  end.

Definition materialize_cwd_dependent_entry (e : FileSystemSandboxEntry) (cwd : string) : FileSystemSandboxEntry :=
  match fse_path e with
  | SpecialEntry (ProjectRoots _) =>
      match resolve_permission_path (fse_path e) cwd with
      | Some path => mkEntry (PathEntry path) (fse_access e)
      | None => e
      end
  | GlobPattern pattern => mkEntry (GlobPattern (resolve_path_against_base home_dir pattern cwd)) (fse_access e)
  | PathEntry _ | SpecialEntry _ => e
  end.

Definition glob_static_prefix_path (pattern cwd : string) : option string :=
  let resolved_pattern := resolve_path_against_base home_dir pattern cwd in
  prefix ← match before_glob resolved_pattern with
           | (_, false) => Some resolved_pattern
           | (EmptyString, true) => None
           | (prefix, true) => if ends_with_separator prefix then Some prefix else path_parent prefix
           end;
  ok (try_absolute prefix).

Definition granted_file_system_entry_within_request (requested : FileSystemPermissions) (requested_policy : FileSystemSandboxPolicy)
    (requested_read_deny_matcher : option ReadDenyMatcher) (cwd : string) (granted_entry : FileSystemSandboxEntry) : bool :=
  if negb (can_read (fse_access granted_entry)) then false
  else match resolve_permission_path (fse_path granted_entry) cwd with
       | Some path =>
           if match requested_read_deny_matcher with Some m => is_read_denied o m path | None => false end then false
           else access_covers (resolve_access_with_cwd o requested_policy path cwd) (fse_access granted_entry)
       | None =>
           existsb (λ requested_entry, access_covers (fse_access requested_entry) (fse_access granted_entry)
                                       && fs_path_eqb (fse_path requested_entry) (fse_path granted_entry))
             (fp_entries requested)
       end.

Definition deny_entry_constrains_accepted_grant (deny_entry : FileSystemSandboxEntry) (accepted_entries : list FileSystemSandboxEntry) (cwd : string) : bool :=
  existsb (λ e,
      match resolve_permission_path (fse_path e) cwd with
      | None => false
      | Some grant_path =>
          match (match fse_path deny_entry with
                 | GlobPattern pattern => glob_static_prefix_path pattern cwd
                 | path => resolve_permission_path path cwd
                 end) with
          | Some deny_path => paths_overlap deny_path grant_path
          | None => false
          end
      end)
    (List.filter (λ e, can_read (fse_access e)) accepted_entries).

(** The entries retained, and those to be granted with them. *)
Definition retain_constraining_deny_entries (source_entries accepted_entries : list FileSystemSandboxEntry) (cwd : string)
    (output_entries : list FileSystemSandboxEntry) : list FileSystemSandboxEntry * list FileSystemSandboxEntry :=
  let retained := map (λ e, materialize_cwd_dependent_entry e cwd)
    (List.filter (λ e, deny_entry_constrains_accepted_grant e accepted_entries cwd) (List.filter is_deny source_entries)) in
  (retained, fold_left push_entry_once retained output_entries).

Definition intersect_file_systems (requested granted : FileSystemPermissions) (cwd : string) : res FileSystemPermissions :=
  let requested_policy := fs_restricted (fp_entries requested) in
  requested_read_deny_matcher ← matcher_new o requested_policy cwd;
  let accepted_entries :=
    fold_left push_entry_once
      (map (λ e, materialize_cwd_dependent_entry e cwd)
         (List.filter (granted_file_system_entry_within_request requested requested_policy requested_read_deny_matcher cwd)
            (fp_entries granted))) [] in
  let '(requested_retained, entries) :=
    retain_constraining_deny_entries (fp_entries requested) accepted_entries cwd accepted_entries in
  let '(granted_retained, entries) :=
    retain_constraining_deny_entries (fp_entries granted) accepted_entries cwd entries in
  Ok (mkFsPermissions entries
        (merge_glob_scan_max_depth requested_retained (Npos <$> fp_glob_scan_max_depth requested)
           granted_retained (Npos <$> fp_glob_scan_max_depth granted) ≫= non_zero)).

Definition intersect_permission_profiles (requested granted : AdditionalPermissionProfile) (cwd : string) : res AdditionalPermissionProfile :=
  file_system ←
    match ap_file_system requested with
    | None => Ok None
    | Some requested_file_system =>
        f ← intersect_file_systems requested_file_system (default fs_permissions_default (ap_file_system granted)) cwd;
        Ok (if fs_permissions_empty f then None else Some f)
    end;
  Ok (mkAdditional
        (if is_enabled (ap_network requested) && is_enabled (ap_network granted)
         then Some (mkNetPermissions (Some true)) else None)
        file_system).
End transforms.

(** ** Paths of entries *)

Section intersection.
Context `{HOs : Os} {HSb : SandboxHost} `{HD : HostDirs} `{HG : GlobLib} (o : os) (cwd : string).
Hypothesis Hcwd : normal cwd.

#[local] Abbreviation place e := (resolve_entry_path o (fse_path e) (Some cwd)).


#[local] Abbreviation mat e := (materialize_cwd_dependent_entry o e cwd).





Lemma push_all_from es l x : x ∈ fold_left push_entry_once es l → x ∈ l ∨ x ∈ es.
Proof using.
  clear Hcwd. revert l. induction es as [|e es IH]; intros l; cbn; [by left|].
  intros [Hx|Hx]%IH; [|set_solver]. unfold push_entry_once in Hx. case_match; set_solver.
Qed.

(** The entries of a list that cover a target. *)
Definition covers (l : list FileSystemSandboxEntry) (target : string) (q : string) (a : FileSystemAccessMode) : Prop :=
  ∃ e, e ∈ l ∧ fse_access e = a ∧ place e = Some q ∧ components q `prefix_of` components target.

Lemma covering_iff l target q a :
  mkResolved q a ∈ covering o (fs_restricted l) target cwd ↔ covers l target q a.
Proof using Hcwd.
  rewrite covering_elem, resolved_elem. cbn. rewrite try_absolute_normal by done. unfold covers. cbn. split.
  - intros [(e & ? & ? & ?) ?]. by exists e.
  - intros (e & ? & ? & ? & ?). split; [|done]. by exists e.
Qed.

(** Who decides beats every entry that covers the target. *)
Lemma decided_by l path target a :
  resolve_candidate_path path cwd = Some target → can_read a = true →
  resolve_access_with_cwd o (fs_restricted l) path cwd = a →
  ∃ q, covers l target q a ∧ ∀ q' a', covers l target q' a' →
    length (components q') < length (components q) ∨
    (components q' = components q ∧ access_rank a' ≤ access_rank a).
Proof using Hcwd.
  intros Ht Ha. unfold resolve_access_with_cwd. cbn [fsp_kind fs_restricted]. rewrite Ht.
  fold (covering o (fs_restricted l) target cwd).
  destruct (max_entry (covering o (fs_restricted l) target cwd)) as [[q a0]|] eqn:E; [|intros <-; done].
  intros [= ->]. apply max_decides in E as [Hin Hall]. exists q. split; [by apply covering_iff|].
  intros q' a' Hc%covering_iff. destruct (Hall _ Hc) as [[Hp Hn]|[He Hr]]; cbn in *; [left|by right].
  destruct Hp as [k Hk]. rewrite Hk, length_app. destruct k; [|cbn; lia]. by rewrite app_nil_r in Hk.
Qed.






(** *** Deny patterns

    What a pattern fixes of the paths it matches: the components before the first
    one with a character of the pattern language. *)














(** ** Permissions on top of a policy *)

Lemma covers_app l k target q a : covers (l ++ k) target q a ↔ covers l target q a ∨ covers k target q a.
Proof. unfold covers. setoid_rewrite elem_of_app. naive_solver. Qed.

Lemma decided_conv l path target q a :
  resolve_candidate_path path cwd = Some target → covers l target q a →
  (∀ q' a', covers l target q' a' → length (components q') < length (components q) ∨
    (components q' = components q ∧ access_rank a' ≤ access_rank a)) →
  resolve_access_with_cwd o (fs_restricted l) path cwd = a.
Proof using Hcwd.
  intros Ht Hc Hbest. apply (access_most_specific o (fs_restricted l) path cwd target); [done|done|]. right.
  exists (mkResolved q a). split; [|done]. split; [by apply covering_iff|]. intros [q' a'] Hx%covering_iff. cbn.
  destruct (Hbest q' a' Hx) as [Hlt|?]; [left|by right]. destruct Hc as (_ & _ & _ & _ & Hp). destruct Hx as (_ & _ & _ & _ & Hp').
  destruct (prefix_weak_total _ _ _ Hp' Hp) as [?|Hl]; [|apply prefix_length in Hl; lia].
  split; [done|]. intros E. rewrite E in Hlt. lia.
Qed.

Lemma glob_depth_irrelevant p path :
  fsp_kind p = KindRestricted →
  resolve_access_with_cwd o p path cwd = resolve_access_with_cwd o (fs_restricted (fsp_entries p)) path cwd.
Proof. intros Hk. unfold resolve_access_with_cwd, resolved_entries_with_cwd. by rewrite Hk. Qed.

(** Additional permissions change only what they name: an access that the
    effective policy gives is the one of the policy itself, or there is an
    additional entry that gives it for a place above the path. *)
Theorem effective_access_explained p f path target a :
  fsp_kind p = KindRestricted → resolve_candidate_path path cwd = Some target → can_read a = true →
  resolve_access_with_cwd o (merge_file_system_policy_with_additional_permissions p f) path cwd = a →
  resolve_access_with_cwd o p path cwd = a ∨ ∃ q, covers (fp_entries f) target q a.
Proof using Hcwd.
  intros Hk Ht Ha. unfold merge_file_system_policy_with_additional_permissions. rewrite Hk.
  rewrite (glob_depth_irrelevant p), (glob_depth_irrelevant (mkFsPolicy _ _ _)) by done. cbn [fsp_entries]. intros He.
  destruct (decided_by _ _ _ _ Ht Ha He) as (q & (e & Hin & Hacc & Hq & Hp) & Hbest).
  apply push_all_from in Hin as [Hin|Hin]; [left|right; exists q; by exists e].
  eapply decided_conv; [done|by exists e|]. intros q' a' (e' & He' & Ha' & Hq' & Hp').
  apply Hbest. exists e'. split_and!; [|done..]. by apply push_all_once.
Qed.
End intersection.

(** A request for writing with a read-only part that is granted as a whole loses
    the read-only part: only deny entries are carried over. *)
Example write_beyond_request `{HOs : Os} {HSb : SandboxHost} `{HD : HostDirs} `{HG : GlobLib} (o : os) :
  let requested := mkFsPermissions [mkEntry (PathEntry "/w") AccessWrite; mkEntry (PathEntry "/w/ro") AccessRead] None in
  let granted := mkFsPermissions [mkEntry (PathEntry "/w") AccessWrite] None in
  ∃ f, intersect_file_systems o requested granted "/w" = Ok f ∧
    can_write_path_with_cwd o (fs_restricted (fp_entries f)) "/w/ro/x" "/w" = true ∧
    can_write_path_with_cwd o (fs_restricted (fp_entries requested)) "/w/ro/x" "/w" = false.
Proof.
  intros requested granted. exists granted. destruct HD as [[h|] c]; split_and!; by vm_compute.
Qed.

(** ** Without a sandbox *)

(** A command is run without a platform sandbox only under an external sandbox
    or when the policy lets it use the network and write everywhere. *)
Theorem no_sandbox_means_full_access `{HOs : Os} {HSb : SandboxHost} `{HD : HostDirs} (o : os) p n managed :
  should_require_platform_sandbox p n managed = false →
  managed = false ∧
  (fsp_kind p = KindExternalSandbox ∨
   (net_is_enabled n = true ∧
    ∀ cwd path target, normal cwd → entries_wf p → spelled_once p → is_dir o "/tmp" = true →
      resolve_candidate_path path cwd = Some target → normal target → can_write_path_with_cwd o p path cwd = true)).
Proof.
  unfold should_require_platform_sandbox. destruct managed; [done|]. destruct (net_is_enabled n); cbn [negb].
  - intros Hs. split; [done|]. right. split; [done|]. intros cwd path target ? ? ? ? ? ?.
    eapply full_write_access_sound; [done..|]. unfold has_full_disk_write_access in *.
    destruct (fsp_kind p); [by destruct (_ && _)|done|done].
  - destruct (fsp_kind p); try done. intros _. split; [done|by left].
Qed.

(** ** Older permission lists *)

Lemma legacy_reads l k read write :
  legacy_roots_loop (map (λ path, mkEntry (PathEntry path) AccessRead) l ++ k) read write = legacy_roots_loop k (read ++ l) write.
Proof.
  revert read. induction l as [|x l IH]; intros read; cbn; [by rewrite app_nil_r|]. by rewrite IH, <-app_assoc.
Qed.

Lemma legacy_writes l read write :
  legacy_roots_loop (map (λ path, mkEntry (PathEntry path) AccessWrite) l) read write = Some (read, write ++ l).
Proof.
  revert write. induction l as [|x l IH]; intros write; cbn; [by rewrite app_nil_r|]. by rewrite IH, <-app_assoc.
Qed.

(** Lists of roots survive the conversion; an empty list comes back as none. *)
Theorem read_write_roots_roundtrip read write :
  legacy_read_write_roots (from_read_write_roots read write) =
  Some (read ≫= some_if_not_empty, write ≫= some_if_not_empty).
Proof.
  unfold legacy_read_write_roots, from_read_write_roots. cbn [fp_glob_scan_max_depth fp_entries].
  rewrite legacy_reads, legacy_writes. by destruct read, write.
Qed.
