(* ===== verification/CommandSafety.v ===== *)
(** * Which commands are known to be safe or dangerous (shell-command: bash.rs,
    shell_detect.rs, command_safety/)

    A command is a list of words.  A script given to [bash -lc] is parsed by
    the tree-sitter grammar, whose tree is a parameter; walking the tree,
    reading words off it and classifying commands is the code of the crate,
    on Linux. *)

From S2P Require Import Prelude RustStr Os.

(** ** Syntax trees *)

#[local] Set Warnings "-register-all".

(** A node with its source text; [named] as opposed to a token. *)
Inductive Node := mkNode {
  kind : string;
  named : bool;
  start_byte : N;
  utf8_text : string;
  node_children : list Node
}.

(** [tree_sitter_bash]: the root and whether the tree has an error. *)
Class BashGrammar := { try_parse_shell : string → option (Node * bool) }.

Definition named_children (n : Node) : list Node := List.filter named (node_children n).

Fixpoint node_size (n : Node) : nat := S (list_sum (map node_size (node_children n))).
Definition stack_size (l : list Node) : nat := list_sum (map node_size l).

Definition ALLOWED_KINDS : list string :=
  ["program"; "list"; "pipeline"; "command"; "command_name"; "word"; "string"; "string_content";
   "raw_string"; "number"; "concatenation"].

Definition ALLOWED_PUNCT_TOKENS : list string := ["&&"; "||"; ";"; "|"; quote; "'"].

Definition is_operator_char (a : ascii) : bool :=
  Ascii.eqb a "&"%char || Ascii.eqb a ";"%char || Ascii.eqb a "|"%char.

(** Nodes a word-only sequence may have. *)
Definition node_allowed (n : Node) : bool :=
  if named n then contains_elem ALLOWED_KINDS (kind n)
  else if negb (str_forall (λ a, negb (is_operator_char a)) (kind n)) && negb (contains_elem ALLOWED_PUNCT_TOKENS (kind n))
  then false
  else contains_elem ALLOWED_PUNCT_TOKENS (kind n) || str_is_empty (trim (kind n)).

Definition is_command_node (n : Node) : bool := named n && (kind n == "command").

(** The [while let Some(node) = stack.pop()] loop; the head is the top.  The
    outer [None] is a loop cut short, the inner one a rejection. *)
Fixpoint walk (fuel : nat) (stack command_nodes : list Node) : option (option (list Node)) :=
  match stack with
  | [] => Some (Some command_nodes)
  | node :: stack' =>
      match fuel with
      | O => None
      | S fuel' =>
          if node_allowed node then
            walk fuel' (rev (node_children node) ++ stack')
              (if is_command_node node then command_nodes ++ [node] else command_nodes)
          else Some None
      end
  end.

Definition strip_suffix_char (c : ascii) (s : string) : option string :=
  match str_rev s with
  | String a r => if Ascii.eqb a c then Some (str_rev r) else None
  | EmptyString => None
  end.

Definition strip_quotes (c : ascii) (s : string) : option string :=
  text ← strip_prefix (String c "") s; strip_suffix_char c text.

Definition parse_double_quoted_string (n : Node) : option string :=
  if negb (kind n == "string") then None
  else if negb (forallb (λ part, kind part == "string_content") (named_children n)) then None
  else strip_quotes (ascii_of_N 34) (utf8_text n).

Definition parse_raw_string (n : Node) : option string :=
  if negb (kind n == "raw_string") then None else strip_quotes "'"%char (utf8_text n).

(** One part of a concatenation such as [-g"*.py"]. *)
Definition concat_part (part : Node) : option string :=
  if (kind part == "word") || (kind part == "number") then Some (utf8_text part)
  else if kind part == "string" then parse_double_quoted_string part
  else if kind part == "raw_string" then parse_raw_string part
  else None.

Definition command_word (child : Node) : option string :=
  if kind child == "command_name" then
    match named_children child with
    | word_node :: _ => if kind word_node == "word" then Some (utf8_text word_node) else None
    | [] => None
    end
  else if (kind child == "word") || (kind child == "number") then Some (utf8_text child)
  else if kind child == "string" then parse_double_quoted_string child
  else if kind child == "raw_string" then parse_raw_string child
  else if kind child == "concatenation" then
    parts ← mapM concat_part (named_children child);
    let concatenated := String.concat "" parts in
    if str_is_empty concatenated then None else Some concatenated
  else None.

Definition parse_plain_command_from_node (cmd : Node) : option (list string) :=
  if negb (kind cmd == "command") then None else mapM command_word (named_children cmd).

(** [sort_by_key(Node::start_byte)]. *)
Definition starts_before (a b : Node) : bool := (start_byte a <=? start_byte b)%N.

Definition try_parse_word_only_commands_sequence (root : Node) (has_error : bool) : option (list (list string)) :=
  if has_error then None
  else match walk (node_size root) [root] [] with
       | Some (Some command_nodes) =>
           mapM parse_plain_command_from_node (sort_by starts_before command_nodes)
       | _ => None
       end.

(** ** Shells *)

Inductive ShellType := Zsh | Bash | PowerShellType | Sh | CmdType.

Definition shell_literal (path : string) : option ShellType :=
  if path == "zsh" then Some Zsh
  else if path == "sh" then Some Sh
  else if path == "cmd" then Some CmdType
  else if path == "bash" then Some Bash
  else if (path == "pwsh") || (path == "powershell") then Some PowerShellType
  else None.

(** The recursion goes on with a stem, which is a shorter text. *)
Fixpoint detect_shell_type_fuel (fuel : nat) (shell_path : string) : option ShellType :=
  match shell_literal shell_path with
  | Some t => Some t
  | None =>
      match fuel, file_stem shell_path with
      | S fuel', Some shell_name =>
          if bool_decide (components shell_name = components shell_path) then None
          else detect_shell_type_fuel fuel' shell_name
      | _, _ => None
      end
  end.

Definition detect_shell_type (shell_path : string) : option ShellType :=
  detect_shell_type_fuel (String.length shell_path) shell_path.

Definition extract_bash_command (command : list string) : option (string * string) :=
  match command with
  | [shell; flag; script] =>
      if negb ((flag == "-lc") || (flag == "-c")) then None
      else match detect_shell_type shell with
           | Some Zsh | Some Bash | Some Sh => Some (shell, script)
           | _ => None
           end
  | _ => None
  end.

Section safety.
Context `{BashGrammar}.

Definition parse_shell_lc_plain_commands (command : list string) : option (list (list string)) :=
  '(_, script) ← extract_bash_command command;
  '(root, has_error) ← try_parse_shell script;
  try_parse_word_only_commands_sequence root has_error.

(** ** Dangerous commands *)

Fixpoint is_dangerous_to_call_with_exec (command : list string) : bool :=
  match command with
  | [] => false
  | cmd0 :: rest =>
      if cmd0 == "rm" then
        match rest with
        | arg :: _ => (arg == "-f") || (arg == "-rf")
        | [] => false
        end
      else if cmd0 == "sudo" then is_dangerous_to_call_with_exec rest
      else false
  end.

Definition command_might_be_dangerous (command : list string) : bool :=
  if is_dangerous_to_call_with_exec command then true
  else match parse_shell_lc_plain_commands command with
       | Some all_commands => existsb is_dangerous_to_call_with_exec all_commands
       | None => false
       end.

(** ** Git commands *)

Definition is_git_global_option_with_value (arg : string) : bool :=
  contains_elem ["-C"; "-c"; "--config-env"; "--exec-path"; "--git-dir"; "--namespace"; "--super-prefix";
                 "--work-tree"] arg.

Definition is_git_global_option_with_inline_value (arg : string) : bool :=
  existsb (starts_with arg)
    ["--config-env="; "--exec-path="; "--git-dir="; "--namespace="; "--super-prefix="; "--work-tree="]
  || ((starts_with arg "-C" || starts_with arg "-c") && (2 <? String.length arg)%nat).

Definition executable_name_lookup_key (raw : string) : option string := file_name raw.

(** The loop over the words after [git]; [idx] counts from the command. *)
Fixpoint git_loop (subcommands args : list string) (idx : nat) (skip_next : bool) : option (nat * string) :=
  match args with
  | [] => None
  | arg :: rest =>
      if skip_next then git_loop subcommands rest (S idx) false
      else if is_git_global_option_with_inline_value arg then git_loop subcommands rest (S idx) false
      else if is_git_global_option_with_value arg then git_loop subcommands rest (S idx) true
      else if (arg == "--") || starts_with arg "-" then git_loop subcommands rest (S idx) false
      else if contains_elem subcommands arg then Some (idx, arg)
      else None
  end.

Definition find_git_subcommand (command subcommands : list string) : option (nat * string) :=
  match command with
  | [] => None
  | cmd0 :: rest =>
      if bool_decide (executable_name_lookup_key cmd0 = Some "git") then git_loop subcommands rest 1 false
      else None
  end.

Inductive GitOptionPattern :=
| Exactly (option : string)
| ShortWithInlineValue (option : string)
| Prefix (prefix : string).

Definition pattern_matches (p : GitOptionPattern) (arg : string) : bool :=
  match p with
  | Exactly option => arg == option
  | ShortWithInlineValue option =>
      starts_with arg option && (String.length option <? String.length arg)%nat
  | Prefix prefix => starts_with arg prefix
  end.

Definition UNSAFE_GIT_GLOBAL_OPTIONS : list GitOptionPattern :=
  [Exactly "-C"; ShortWithInlineValue "-C"; Exactly "-c"; ShortWithInlineValue "-c"; Exactly "-p";
   Exactly "--config-env"; Prefix "--config-env="; Exactly "--exec-path"; Prefix "--exec-path=";
   Exactly "--git-dir"; Prefix "--git-dir="; Exactly "--namespace"; Prefix "--namespace=";
   Exactly "--paginate"; Exactly "--super-prefix"; Prefix "--super-prefix="; Exactly "--work-tree";
   Prefix "--work-tree="].

Definition UNSAFE_GIT_SUBCOMMAND_OPTIONS : list GitOptionPattern :=
  [Exactly "--output"; Prefix "--output="; Exactly "--ext-diff"; Exactly "--textconv"; Exactly "--exec";
   Prefix "--exec="].

Definition git_matches_option_pattern (arg : string) (patterns : list GitOptionPattern) : bool :=
  existsb (λ p, pattern_matches p arg) patterns.

Definition git_has_unsafe_global_option (global_args : list string) : bool :=
  existsb (λ arg, git_matches_option_pattern arg UNSAFE_GIT_GLOBAL_OPTIONS) global_args.

Definition git_subcommand_args_are_read_only (args : list string) : bool :=
  negb (existsb (λ arg, git_matches_option_pattern arg UNSAFE_GIT_SUBCOMMAND_OPTIONS) args).

Definition READ_ONLY_BRANCH_FLAGS : list string :=
  ["--list"; "-l"; "--show-current"; "-a"; "--all"; "-r"; "--remotes"; "-v"; "-vv"; "--verbose"].

Fixpoint branch_loop (args : list string) (saw_read_only_flag : bool) : bool :=
  match args with
  | [] => saw_read_only_flag
  | arg :: rest =>
      if contains_elem READ_ONLY_BRANCH_FLAGS arg || starts_with arg "--format=" then branch_loop rest true
      else false
  end.

Definition git_branch_is_read_only (branch_args : list string) : bool :=
  match branch_args with [] => true | _ :: _ => branch_loop branch_args false end.

Definition is_safe_git_command (command : list string) : bool :=
  match find_git_subcommand command ["status"; "log"; "diff"; "show"; "branch"] with
  | None => false
  | Some (subcommand_idx, subcommand) =>
      let global_args := take (subcommand_idx - 1) (drop 1 command) in
      if git_has_unsafe_global_option global_args then false
      else
        let subcommand_args := drop (S subcommand_idx) command in
        if contains_elem ["status"; "log"; "diff"; "show"] subcommand then
          git_subcommand_args_are_read_only subcommand_args
        else if subcommand == "branch" then
          git_subcommand_args_are_read_only subcommand_args && git_branch_is_read_only subcommand_args
        else false
  end.

(** ** Safe commands *)

Definition is_valid_sed_n_arg (arg : option string) : bool :=
  match arg with
  | None => false
  | Some s =>
      match strip_suffix_char "p"%char s with
      | None => false
      | Some core =>
          match split_char ","%char core with
          | [num] => negb (str_is_empty num) && str_forall is_ascii_digit num
          | [a; b] =>
              negb (str_is_empty a) && negb (str_is_empty b)
              && str_forall is_ascii_digit a && str_forall is_ascii_digit b
          | _ => false
          end
      end
  end.

Definition PLAIN_SAFE_COMMANDS : list string :=
  ["numfmt"; "tac"; "cat"; "cd"; "cut"; "echo"; "expr"; "false"; "grep"; "head"; "id"; "ls"; "nl"; "paste";
   "pwd"; "rev"; "seq"; "stat"; "tail"; "tr"; "true"; "uname"; "uniq"; "wc"; "which"; "whoami"].

Definition base64_is_safe (command : list string) : bool :=
  negb (existsb (λ arg, contains_elem ["-o"; "--output"] arg || starts_with arg "--output="
                        || (starts_with arg "-o" && negb (arg == "-o"))) (drop 1 command)).

Definition UNSAFE_FIND_OPTIONS : list string :=
  ["-exec"; "-execdir"; "-ok"; "-okdir"; "-delete"; "-fls"; "-fprint"; "-fprint0"; "-fprintf"].

Definition find_is_safe (command : list string) : bool :=
  negb (existsb (contains_elem UNSAFE_FIND_OPTIONS) command).

Definition ripgrep_is_safe (command : list string) : bool :=
  negb (existsb (λ arg, contains_elem ["--search-zip"; "-z"] arg
                        || existsb (λ opt, (arg == opt) || starts_with arg (opt +:+ "=")) ["--pre"; "--hostname-bin"])
          command).

Definition is_safe_to_call_with_exec (command : list string) : bool :=
  match command with
  | [] => false
  | cmd0 :: _ =>
      match executable_name_lookup_key cmd0 with
      | None => false
      | Some cmd =>
          if contains_elem PLAIN_SAFE_COMMANDS cmd then true
          else if cmd == "base64" then base64_is_safe command
          else if cmd == "find" then find_is_safe command
          else if cmd == "rg" then ripgrep_is_safe command
          else if cmd == "git" then is_safe_git_command command
          else if cmd == "sed" then
            (length command <=? 4)%nat && bool_decide (command !! 1%nat = Some "-n")
            && is_valid_sed_n_arg (command !! 2%nat)
          else false
      end
  end.

Definition zsh_as_bash (s : string) : string := if s == "zsh" then "bash" else s.

Definition is_known_safe_command (command : list string) : bool :=
  let command := map zsh_as_bash command in
  if is_safe_to_call_with_exec command then true
  else match parse_shell_lc_plain_commands command with
       | Some all_commands =>
           match all_commands with [] => false | _ :: _ => forallb is_safe_to_call_with_exec all_commands end
       | None => false
       end.
End safety.

(** ** Walking the tree *)

Fixpoint nodes (n : Node) : list Node := n :: concat (map nodes (node_children n)).
Definition all_nodes (l : list Node) : list Node := concat (map nodes l).

Lemma all_nodes_app a b : all_nodes (a ++ b) = all_nodes a ++ all_nodes b.
Proof. unfold all_nodes. by rewrite map_app, concat_app. Qed.

Lemma all_nodes_rev l : all_nodes (rev l) ≡ₚ all_nodes l.
Proof.
  induction l as [|n l IH]; [done|]. cbn [rev]. rewrite all_nodes_app, IH.
  change (all_nodes (n :: l)) with (nodes n ++ all_nodes l). rewrite Permutation_app_comm.
  unfold all_nodes at 2. cbn. by rewrite app_nil_r.
Qed.

Lemma stack_size_app a b : stack_size (a ++ b) = (stack_size a + stack_size b)%nat.
Proof. unfold stack_size. by rewrite map_app, list_sum_app. Qed.

Lemma stack_size_cons n l : stack_size (n :: l) = (S (stack_size (node_children n)) + stack_size l)%nat.
Proof. by destruct n. Qed.

Lemma stack_size_rev l : stack_size (rev l) = stack_size l.
Proof.
  induction l as [|n l IH]; [done|]. cbn [rev]. rewrite stack_size_app, IH, !stack_size_cons.
  change (stack_size []) with 0%nat. lia.
Qed.

(** With fuel for every node the loop ends, and it has seen every node. *)
Lemma walk_spec fuel stack acc :
  (stack_size stack <= fuel)%nat →
  match walk fuel stack acc with
  | Some (Some res) =>
      Forall (λ n, node_allowed n = true) (all_nodes stack) ∧
      res ≡ₚ acc ++ List.filter is_command_node (all_nodes stack)
  | Some None => ¬ Forall (λ n, node_allowed n = true) (all_nodes stack)
  | None => False
  end.
Proof.
  revert stack acc. induction fuel as [|fuel IH]; intros [|n stack] acc Hf; cbn [walk].
  - split; [constructor|]. cbn. by rewrite app_nil_r.
  - rewrite stack_size_cons in Hf. lia.
  - split; [constructor|]. cbn. by rewrite app_nil_r.
  - rewrite stack_size_cons in Hf. assert (all_nodes (rev (node_children n) ++ stack) ≡ₚ all_nodes (node_children n) ++ all_nodes stack) as Hperm.
    { by rewrite all_nodes_app, all_nodes_rev. }
    assert (all_nodes (n :: stack) = n :: all_nodes (node_children n) ++ all_nodes stack) as Hn by (by destruct n).
    rewrite Hn. destruct (node_allowed n) eqn:Ha; [|intros Hall; apply Forall_cons in Hall as [? _]; congruence].
    specialize (IH (rev (node_children n) ++ stack)
      (if is_command_node n then acc ++ [n] else acc)).
    destruct (walk fuel _ _) as [[res|]|].
    + destruct IH as [Hall Hres]; [rewrite stack_size_app, stack_size_rev; lia|].
      rewrite Hperm in Hall. split; [by constructor|]. rewrite Hres.
      rewrite (filter_perm _ _ _ Hperm). cbn [List.filter].
      destruct (is_command_node n); [by rewrite <- app_assoc|done].
    + intros Hall. apply Forall_cons in Hall as [_ Hall]. revert IH. rewrite Hperm. intros IH. apply IH; [|done].
      rewrite stack_size_app, stack_size_rev. lia.
    + apply IH. rewrite stack_size_app, stack_size_rev. lia.
Qed.

(** What is read off a script: every node was looked at, and the commands are
    those of all command nodes. *)
Lemma word_only_spec root err cmds :
  try_parse_word_only_commands_sequence root err = Some cmds →
  err = false ∧ Forall (λ n, node_allowed n = true) (nodes root) ∧
  ∀ n, n ∈ nodes root → is_command_node n = true →
    ∃ words, parse_plain_command_from_node n = Some words ∧ words ∈ cmds.
Proof.
  unfold try_parse_word_only_commands_sequence. destruct err; [done|]. intros E. split; [done|].
  pose proof (walk_spec (node_size root) [root] []) as Hw.
  destruct (walk _ _ _) as [[res|]|]; [|done..].
  destruct Hw as [Hall Hres]; [unfold stack_size; cbn; lia|].
  assert (all_nodes [root] = nodes root) as Hn by (unfold all_nodes; cbn; by rewrite app_nil_r).
  rewrite Hn in *. split; [done|]. intros n Hin Hc. apply mapM_Some_1 in E.
  assert (n ∈ sort_by starts_before res) as Hn'.
  { apply sort_by_elem. rewrite Hres. cbn. apply list_elem_of_In, filter_In.
    by rewrite <- list_elem_of_In. }
  apply list_elem_of_lookup in Hn' as [i Hi]. destruct (Forall2_lookup_l _ _ _ _ _ E Hi) as (words & Hw & Hp).
  exists words. split; [done|]. by apply list_elem_of_lookup_2 in Hw.
Qed.

(** ** Theorems *)

(** A direct command is dangerous exactly when it is [rm -f] or [rm -rf]
    behind any number of [sudo]s; nothing else is. *)
Theorem dangerous_exec_iff c :
  is_dangerous_to_call_with_exec c = true ↔
  ∃ n flag rest, c = replicate n "sudo" ++ "rm" :: flag :: rest ∧ (flag = "-f" ∨ flag = "-rf").
Proof.
  induction c as [|x c IH]; cbn [is_dangerous_to_call_with_exec].
  { split; [done|]. by intros ([|n] & flag & rest & H & _). }
  destruct (String.eqb_spec x "rm") as [->|Hrm].
  - split.
    + destruct c as [|flag rest]; [done|]. rewrite orb_true_iff, !String.eqb_eq. intros Hf. by exists 0%nat, flag, rest.
    + intros ([|n] & flag & rest & [= ->] & [->| ->]); done.
  - destruct (String.eqb_spec x "sudo") as [->|Hs].
    + rewrite IH. split.
      * intros (n & flag & rest & -> & Hf). by exists (S n), flag, rest.
      * intros ([|n] & flag & rest & [= ->] & Hf). by exists n, flag, rest.
    + split; [done|]. intros ([|n] & flag & rest & [= ] & _); done.
Qed.

Section safe.
Context `{BashGrammar}.

(** The names a safe command can have. *)
Definition SAFE_NAMES : list string := PLAIN_SAFE_COMMANDS ++ ["base64"; "find"; "rg"; "git"; "sed"].

Lemma safe_exec_name cmd0 rest :
  is_safe_to_call_with_exec (cmd0 :: rest) = true → ∃ f, file_name cmd0 = Some f ∧ f ∈ SAFE_NAMES.
Proof.
  unfold is_safe_to_call_with_exec, executable_name_lookup_key.
  destruct (file_name cmd0) as [f|]; [|done]. intros Hs. exists f. split; [done|].
  unfold SAFE_NAMES. rewrite elem_of_app. unfold contains_elem in Hs.
  case_bool_decide as Hp; [by left|right].
  repeat match type of Hs with
  | context [f == ?x] => destruct (String.eqb_spec f x) as [Ef|?]; [rewrite Ef; by apply (bool_decide_unpack _); vm_compute|]
  end. discriminate Hs.
Qed.

(** Such a name is no shell, however the path to it is spelled. *)
Lemma safe_name_facts f :
  f ∈ SAFE_NAMES →
  shell_literal f = None ∧ before_last_dot f = None ∧ file_name f = Some f ∧ f ≠ "rm" ∧ f ≠ "sudo".
Proof.
  assert (Forall (λ f, shell_literal f = None ∧ before_last_dot f = None ∧ file_name f = Some f ∧ f ≠ "rm" ∧ f ≠ "sudo")
    SAFE_NAMES) as Hall by (repeat constructor; done).
  rewrite Forall_forall in Hall. apply Hall.
Qed.

Lemma shell_literal_name p t : shell_literal p = Some t → file_name p = Some p.
Proof.
  unfold shell_literal. intros Hl.
  repeat match type of Hl with
  | context [p == ?x] => destruct (String.eqb_spec p x) as [->|?]; [done|]
  end. done.
Qed.

Lemma safe_name_no_shell cmd0 f :
  file_name cmd0 = Some f → f ∈ SAFE_NAMES → detect_shell_type cmd0 = None.
Proof.
  intros Hf Hin. destruct (safe_name_facts f Hin) as (Hlit & Hdot & Hself & _).
  assert (∀ fuel, detect_shell_type_fuel fuel f = None) as Hdet.
  { intros fuel. destruct fuel; cbn; rewrite Hlit; [done|].
    unfold file_stem. rewrite Hself. cbn. by rewrite Hdot, bool_decide_true. }
  unfold detect_shell_type. destruct (String.length cmd0) as [|n]; cbn [detect_shell_type_fuel];
    destruct (shell_literal cmd0) as [t|] eqn:El; try done.
  - apply shell_literal_name in El as E. rewrite Hf in E. injection E as ->. congruence.
  - apply shell_literal_name in El as E. rewrite Hf in E. injection E as ->. congruence.
  - unfold file_stem. rewrite Hf. cbn. rewrite Hdot. by case_bool_decide.
Qed.

(** C33. A command that is approved without asking is either a direct call of a
    program on the safe list, which is no shell however its path is spelled, or a
    script given with [-lc] or [-c] to bash, zsh or sh, by name or by path.  Such
    a script has no construct outside the allowed ones, and every command anywhere
    in it was read and is a safe direct call.  (Words that are [zsh] are read as
    [bash], as the code does.) *)
Theorem safe_script_sound command : is_known_safe_command command = true →
  let c := map zsh_as_bash command in
  (is_safe_to_call_with_exec c = true ∧ ∀ program args, c = program :: args → detect_shell_type program = None) ∨
  ∃ shell flag script root, c = [shell; flag; script] ∧ flag ∈ ["-lc"; "-c"] ∧ detect_shell_type shell ∈ [Some Zsh; Some Bash; Some Sh] ∧
    try_parse_shell script = Some (root, false) ∧ Forall (λ n, node_allowed n = true) (nodes root) ∧
    ∀ n, n ∈ nodes root → is_command_node n = true →
      ∃ words, parse_plain_command_from_node n = Some words ∧ is_safe_to_call_with_exec words = true.
Proof.
  unfold is_known_safe_command. cbn zeta. set (c := map zsh_as_bash command). destruct (is_safe_to_call_with_exec c) eqn:Es.
  { intros _. left. split; [done|]. intros program args Ec. rewrite Ec in Es. apply safe_exec_name in Es as (f & Hf & Hin). by eapply safe_name_no_shell. }
  unfold parse_shell_lc_plain_commands. destruct (extract_bash_command c) as [[shell script]|] eqn:Ex; [|done]. cbn [mbind option_bind].
  destruct (try_parse_shell script) as [[root err]|] eqn:Et; [|done]. cbn [mbind option_bind].
  destruct (try_parse_word_only_commands_sequence root err) as [cmds|] eqn:E; [|done]. intros Hsafe. right.
  destruct c as [|sh [|flag [|scr [|]]]]; try done. cbn [extract_bash_command] in Ex.
  destruct ((flag == "-lc") || (flag == "-c")) eqn:Ef; [|done]. cbn [negb] in Ex.
  assert (detect_shell_type sh ∈ [Some Zsh; Some Bash; Some Sh] ∧ shell = sh ∧ script = scr) as (Hsh & -> & ->).
  { destruct (detect_shell_type sh) as [[]|]; try done; injection Ex as <- <-; (split; [|done]); set_solver. }
  apply word_only_spec in E as (-> & Hall & Hcmds). exists sh, flag, scr, root. split; [done|].
  split; [apply orb_true_iff in Ef as [->%String.eqb_eq| ->%String.eqb_eq]; set_solver|]. split; [done|]. split; [done|]. split; [done|].
  intros n Hn Hc. destruct (Hcmds n Hn Hc) as (words & Hw & Hin). exists words. split; [done|].
  assert (forallb is_safe_to_call_with_exec cmds = true) as Hf by (by destruct cmds).
  rewrite forallb_forall in Hf. apply Hf. by apply list_elem_of_In.
Qed.

Lemma safe_exec_harmless c : is_safe_to_call_with_exec c = true → is_dangerous_to_call_with_exec c = false.
Proof.
  destruct c as [|x c]; [done|]. intros (f & Hf & Hin)%safe_exec_name. cbn.
  destruct (safe_name_facts f Hin) as (_ & _ & _ & Hrm & Hsudo).
  destruct (String.eqb_spec x "rm") as [->|_]; [injection Hf as <-; done|].
  by destruct (String.eqb_spec x "sudo") as [->|_]; [injection Hf as <-|].
Qed.

Lemma all_safe_none_dangerous cmds :
  match cmds with [] => false | _ :: _ => forallb is_safe_to_call_with_exec cmds end = true →
  existsb is_dangerous_to_call_with_exec cmds = false.
Proof.
  intros Hall. apply not_true_iff_false. rewrite existsb_exists. intros (c & Hin & Hd).
  assert (forallb is_safe_to_call_with_exec cmds = true) as Hf by (by destruct cmds).
  rewrite forallb_forall in Hf. apply Hf, safe_exec_harmless in Hin. congruence.
Qed.

(** The two classifications exclude each other: a command that is approved
    without asking is never one that is refused as dangerous. *)
Theorem safe_not_dangerous c :
  c !! 2%nat ≠ Some "zsh" → is_known_safe_command c = true → command_might_be_dangerous c = false.
Proof.
  intros Hscript. unfold is_known_safe_command, command_might_be_dangerous. cbn zeta.
  destruct (is_safe_to_call_with_exec (map zsh_as_bash c)) eqn:Es.
  - intros _. destruct c as [|x c]; [done|]. cbn [map] in Es. unfold zsh_as_bash at 1 in Es.
    destruct (safe_exec_name _ _ Es) as (f & Hf & Hin).
    destruct (String.eqb_spec x "zsh") as [->|_].
    { injection Hf as <-. exfalso. revert Hin. apply (bool_decide_unpack (¬ _)). by vm_compute. }
    destruct (safe_name_facts f Hin) as (_ & _ & _ & Hrm & Hsudo).
    assert (is_dangerous_to_call_with_exec (x :: c) = false) as ->.
    { cbn. destruct (String.eqb_spec x "rm") as [->|_]; [injection Hf as <-; done|].
      by destruct (String.eqb_spec x "sudo") as [->|_]; [injection Hf as <-|]. }
    unfold parse_shell_lc_plain_commands, extract_bash_command.
    destruct c as [|flag [|script [|? ?]]]; try done.
    destruct (negb _); [done|]. by rewrite (safe_name_no_shell x f Hf Hin).
  - unfold parse_shell_lc_plain_commands. destruct c as [|x [|flag [|script [|y c]]]]; try done. cbn in Hscript.
    cbn [map]. assert (zsh_as_bash script = script) as ->.
    { unfold zsh_as_bash. destruct (String.eqb_spec script "zsh") as [->|_]; [done|done]. }
    cbn [extract_bash_command]. assert (zsh_as_bash flag = flag ∨ flag = "zsh") as [->| ->];
      [unfold zsh_as_bash; destruct (String.eqb_spec flag "zsh"); auto| |done].
    destruct (negb ((flag == "-lc") || (flag == "-c"))) eqn:Ef; [done|].
    assert (detect_shell_type (zsh_as_bash x) = Some Zsh ∨ detect_shell_type (zsh_as_bash x) = Some Bash ∨
      detect_shell_type (zsh_as_bash x) = Some Sh → is_dangerous_to_call_with_exec [x; flag; script] = false) as Hx.
    { cbn [is_dangerous_to_call_with_exec]. destruct (String.eqb_spec x "rm") as [->|_]; [by intros [|[|]]|].
      destruct (String.eqb_spec x "sudo") as [->|_]; [by intros [|[|]]|done]. }
    destruct (detect_shell_type (zsh_as_bash x)) as [[]|] eqn:Ed; cbn [mbind option_bind]; try done;
      rewrite Hx by eauto;
      destruct (try_parse_shell script) as [[root err]|] eqn:Et; cbn [mbind option_bind]; try done;
      destruct (try_parse_word_only_commands_sequence root err) as [cmds|] eqn:Ep; try done;
      intros Hall; (destruct (detect_shell_type x) as [[]|]; cbn [mbind option_bind]; try done;
        rewrite Et; cbn [mbind option_bind]; rewrite Ep; by apply all_safe_none_dangerous).
Qed.
End safe.

(** ** The command of a script with a here-document

    A script that feeds a here-document to one command is not a sequence of
    plain words; only the words of that command are read off the tree. *)

Definition is_allowed_heredoc_attachment_kind (k : string) : bool :=
  (k == "heredoc_body") || (k == "simple_heredoc_body") || (k == "heredoc_redirect")
  || (k == "herestring_redirect") || (k == "redirected_statement").

Definition is_literal_word_or_number (n : Node) : bool :=
  ((kind n == "word") || (kind n == "number")) && match named_children n with [] => true | _ => false end.

(** A child of the command: a word of it, an attachment, or a refusal. *)
Definition heredoc_word (child : Node) : option (list string) :=
  if kind child == "command_name" then
    match named_children child with
    | word_node :: _ =>
        if negb ((kind word_node == "word") || (kind word_node == "number")) || negb (is_literal_word_or_number word_node)
        then None
        else Some [utf8_text word_node]
    | [] => None
    end
  else if (kind child == "word") || (kind child == "number") then
    if is_literal_word_or_number child then Some [utf8_text child] else None
  else if kind child == "comment" then Some []
  else if is_allowed_heredoc_attachment_kind (kind child) then Some []
  else None.

Definition parse_heredoc_command_words (cmd : Node) : option (list string) :=
  if negb (kind cmd == "command") then None
  else
    words ← mapM heredoc_word (named_children cmd);
    match concat words with [] => None | ws => Some ws end.

(** The two loops over a stack; the head is the top, [None] a loop cut short. *)
Fixpoint descend_kind (fuel : nat) (k : string) (stack : list Node) : option bool :=
  match stack with
  | [] => Some false
  | current :: stack' =>
      match fuel with
      | O => None
      | S fuel' =>
          if kind current == k then Some true
          else descend_kind fuel' k (rev (named_children current) ++ stack')
      end
  end.

Definition has_named_descendant_kind (n : Node) (k : string) : option bool := descend_kind (node_size n) k [n].

Fixpoint single_command (fuel : nat) (stack : list Node) (found : option Node) : option (option Node) :=
  match stack with
  | [] => Some found
  | node :: stack' =>
      match fuel with
      | O => None
      | S fuel' =>
          if kind node == "command" then
            match found with
            | Some _ => Some None
            | None => single_command fuel' (rev (named_children node) ++ stack') (Some node)
            end
          else single_command fuel' (rev (named_children node) ++ stack') found
      end
  end.

Definition find_single_command_node (root : Node) : option Node :=
  match single_command (node_size root) [root] None with Some r => r | None => None end.

Definition parse_shell_lc_single_command_prefix `{BashGrammar} (command : list string) : option (list string) :=
  match extract_bash_command command with
  | None => None
  | Some (_, script) =>
      match try_parse_shell script with
      | None => None
      | Some (root, has_error) =>
          if has_error then None
          else if negb (default false (has_named_descendant_kind root "heredoc_redirect")) then None
          else if default false (has_named_descendant_kind root "file_redirect") then None
          else
            command_node ← find_single_command_node root;
            parse_heredoc_command_words command_node
      end
  end.

(** ** Nodes below a node through named children *)

Fixpoint named_nodes (n : Node) : list Node :=
  n :: concat (map (λ c, if named c then named_nodes c else []) (node_children n)).

Definition stack_nodes (l : list Node) : list Node := concat (map named_nodes l).

Lemma named_nodes_eq n : named_nodes n = n :: stack_nodes (named_children n).
Proof.
  destruct n as [k nm st tx cs]. cbn. f_equal. unfold stack_nodes, named_children. cbn.
  induction cs as [|c cs IH]; [done|]. cbn. destruct (named c); cbn; by rewrite IH.
Qed.

Lemma stack_nodes_app a b : stack_nodes (a ++ b) = stack_nodes a ++ stack_nodes b.
Proof. unfold stack_nodes. by rewrite map_app, concat_app. Qed.

Lemma stack_nodes_rev l : stack_nodes (rev l) ≡ₚ stack_nodes l.
Proof.
  induction l as [|n l IH]; [done|]. cbn [rev]. rewrite stack_nodes_app, IH.
  change (stack_nodes (n :: l)) with (named_nodes n ++ stack_nodes l). rewrite Permutation_app_comm.
  unfold stack_nodes at 2. cbn. by rewrite app_nil_r.
Qed.

Lemma push_children n stack : stack_nodes (n :: stack) ≡ₚ n :: stack_nodes (rev (named_children n) ++ stack).
Proof.
  change (stack_nodes (n :: stack)) with (named_nodes n ++ stack_nodes stack).
  rewrite named_nodes_eq. cbn. by rewrite stack_nodes_app, stack_nodes_rev.
Qed.

Lemma named_size n : (stack_size (named_children n) <= stack_size (node_children n))%nat.
Proof.
  unfold named_children. induction (node_children n) as [|c cs IH]; [done|]. cbn [List.filter].
  destruct (named c); rewrite ?stack_size_cons; lia.
Qed.

Lemma fuel_child n stack fuel :
  (stack_size (n :: stack) <= S fuel)%nat → (stack_size (rev (named_children n) ++ stack) <= fuel)%nat.
Proof.
  rewrite stack_size_cons, stack_size_app, stack_size_rev. pose proof (named_size n). lia.
Qed.

Lemma descend_kind_spec fuel k stack :
  (stack_size stack <= fuel)%nat → descend_kind fuel k stack = Some (existsb (λ n, kind n == k) (stack_nodes stack)).
Proof.
  revert stack. induction fuel as [|fuel IH]; intros [|n stack] Hf; try done; cbn [descend_kind].
  - rewrite stack_size_cons in Hf. lia.
  - rewrite (existsb_perm _ _ _ (push_children n stack)). cbn [existsb].
    destruct (kind n == k); [done|]. cbn. by apply IH, fuel_child.
Qed.

(** The node of kind [command], when there is exactly one. *)
Definition only {A} (l : list A) : option A := match l with [x] => Some x | _ => None end.

Lemma only_perm {A} (l k : list A) : l ≡ₚ k → only l = only k.
Proof.
  intros Hp. destruct l as [|x [|y l]]; cbn.
  - apply Permutation_nil_l in Hp. by subst.
  - apply Permutation_singleton_l in Hp. by subst.
  - apply Permutation_length in Hp. by destruct k as [|? [|? ?]].
Qed.

Lemma single_command_spec fuel stack found :
  (stack_size stack <= fuel)%nat →
  single_command fuel stack found =
    Some (only (option_list found ++ List.filter (λ n, kind n == "command") (stack_nodes stack))).
Proof.
  revert stack found. induction fuel as [|fuel IH]; intros [|n stack] found Hf; cbn [single_command].
  - by destruct found.
  - rewrite stack_size_cons in Hf. lia.
  - by destruct found.
  - apply fuel_child in Hf.
    assert (∀ f, only (option_list found ++ List.filter f (stack_nodes (n :: stack))) =
      only (option_list found ++ List.filter f (n :: stack_nodes (rev (named_children n) ++ stack)))) as ->.
    { intros f. apply only_perm, Permutation_app_head, filter_perm, push_children. }
    cbn [List.filter]. destruct (kind n == "command"); [|by apply IH].
    destruct found as [m|]; cbn [option_list app]; [by destruct (List.filter _ _)|]. by rewrite IH.
Qed.

Lemma heredoc_word_leaf child ws :
  heredoc_word child = Some ws → ∀ w, w ∈ ws →
  ∃ leaf, (leaf = child ∨ leaf ∈ named_children child) ∧ is_literal_word_or_number leaf = true ∧ utf8_text leaf = w.
Proof.
  unfold heredoc_word. destruct (kind child == "command_name").
  - destruct (named_children child) as [|word_node rest]; [done|]. case_match eqn:E; [done|].
    intros [= <-] w ->%list_elem_of_singleton. apply orb_false_iff in E as [_ E%negb_false_iff].
    exists word_node. split; [right; by left|done].
  - destruct ((kind child == "word") || _); [|by repeat case_match; intros [= <-] w Hw; apply elem_of_nil in Hw].
    destruct (is_literal_word_or_number child) eqn:E; [|done]. intros [= <-] w ->%list_elem_of_singleton. eauto.
Qed.

(** When the command of a here-document script is read, the script parsed
    without error, has a here-document, redirects nothing to or from a file and
    has exactly one command; every word is the text of a literal word of it. *)
Theorem heredoc_prefix_sound `{BashGrammar} command words :
  parse_shell_lc_single_command_prefix command = Some words →
  ∃ shell script root cmd, extract_bash_command command = Some (shell, script) ∧
    try_parse_shell script = Some (root, false) ∧
    List.filter (λ n, kind n == "command") (named_nodes root) = [cmd] ∧
    (∃ n, n ∈ named_nodes root ∧ kind n = "heredoc_redirect") ∧
    (∀ n, n ∈ named_nodes root → kind n ≠ "file_redirect") ∧
    words ≠ [] ∧
    ∀ w, w ∈ words → ∃ child leaf, child ∈ named_children cmd ∧ (leaf = child ∨ leaf ∈ named_children child) ∧
      is_literal_word_or_number leaf = true ∧ utf8_text leaf = w.
Proof.
  unfold parse_shell_lc_single_command_prefix. destruct (extract_bash_command command) as [[shell script]|]; [|done].
  destruct (try_parse_shell script) as [[root err]|] eqn:Et; [|done].
  destruct err; [done|]. unfold has_named_descendant_kind, find_single_command_node.
  assert (stack_size [root] <= node_size root)%nat as Hf by (unfold stack_size; cbn; lia).
  rewrite !descend_kind_spec, single_command_spec by done. cbn [default option_list app].
  unfold stack_nodes. cbn [map concat]. rewrite app_nil_r.
  destruct (existsb (λ n, kind n == "heredoc_redirect") _) eqn:Eh; [|done].
  destruct (existsb (λ n, kind n == "file_redirect") _) eqn:Ef; [done|]. change (negb (id true)) with false. cbv iota beta.
  destruct (List.filter _ _) as [|cmd [|? ?]] eqn:Ec; [done| |done].
  change (only (option_list None ++ [cmd])) with (Some cmd). cbn [mbind option_bind].
  unfold parse_heredoc_command_words. destruct (negb _); [done|]. intros (wss & Hw & Hc)%bind_Some.
  exists shell, script, root, cmd. split_and!; [done|done|done| | | |].
  - apply existsb_exists in Eh as (n & Hn & E%String.eqb_eq). exists n. by rewrite list_elem_of_In.
  - intros n Hn E. apply not_true_iff_false in Ef. apply Ef, existsb_exists. exists n. rewrite <-list_elem_of_In, E. done.
  - intros ->. by destruct (concat wss).
  - intros w Hin. assert (w ∈ concat wss) as (ws & Hws & Hin')%elem_of_concat by (by destruct (concat wss); simplify_eq).
    apply mapM_Some in Hw. apply list_elem_of_lookup in Hws as [i Hi].
    destruct (Forall2_lookup_r _ _ _ _ _ Hw Hi) as (child & Hchild & Hword).
    destruct (heredoc_word_leaf child ws Hword w Hin') as (leaf & ?). exists child, leaf.
    split; [by eapply list_elem_of_lookup_2|done].
Qed.
