(* ===== verification/ExecPolicy.v ===== *)
(** * Command policies (execpolicy: decision.rs, executable_name.rs, rule.rs,
    policy.rs, error.rs)

    A policy is a multimap from programs to prefix rules, a list of network
    rules and the paths a program name may stand for.  A command is decided by
    the strictest rule that matches it, and by a fallback when none does.  On
    Unix; an absolute path is its text, as in [AbsPath]. *)

From S2P Require Import Prelude RustStr Os AbsPath.

(** ** Errors *)

(** [std::result::Result] with a structured error. *)
Inductive result (E A : Type) : Type := Good (a : A) | Bad (e : E).
Arguments Good {E A} a.
Arguments Bad {E A} e.

#[export] Instance result_ret E : MRet (result E) := λ A a, Good a.
#[export] Instance result_bind E : MBind (result E) := λ A B f m,
  match m with Good a => f a | Bad e => Bad e end.

Definition map_err {E F A} (f : E → F) (m : result E A) : result F A :=
  match m with Good a => Good a | Bad e => Bad (f e) end.

Lemma result_bind_Good {E A B} (m : result E A) (f : A → result E B) b :
  (m ≫= f) = Good b ↔ ∃ a, m = Good a ∧ f a = Good b.
Proof. destruct m; cbn; naive_solver. Qed.

(** [iter().map(f).collect::<Result<Vec<_>>>()]: the first error wins. *)
Fixpoint collect {E A B} (f : A → result E B) (l : list A) : result E (list B) :=
  match l with
  | [] => Good []
  | a :: l' => b ← f a; bs ← collect f l'; Good (b :: bs)
  end.

Record TextPosition := mkTextPosition { tp_line : usize; tp_column : usize }.
Record TextRange := mkTextRange { tr_start : TextPosition; tr_end : TextPosition }.
Record ErrorLocation := mkErrorLocation { el_path : string; el_range : TextRange }.

(** A span of a policy file as the Starlark crate reports it, from 0. *)
Record FileSpan := mkFileSpan {
  filename : string;
  begin_line : usize;
  begin_column : usize;
  end_line : usize;
  end_column : usize
}.

(** The values and errors of the Starlark crate, as far as they are looked at. *)
Class Starlark := {
  sl_value : Type;
  unpack_str : sl_value → option string;
  list_content : sl_value → option (list sl_value);
  get_type : sl_value → string;
  sl_error : Type;
  sl_error_text : sl_error → string;
  sl_error_span : sl_error → option FileSpan
}.

Inductive Error `{Starlark} :=
| InvalidDecision (text : string)
| InvalidPattern (text : string)
| InvalidExample (text : string)
| InvalidRule (text : string)
| ExampleDidNotMatch (rules examples : list string) (location : option ErrorLocation)
| ExampleDidMatch (rule example : string) (location : option ErrorLocation)
| StarlarkError (e : sl_error).

Definition error_location_from_file_span (span : FileSpan) : ErrorLocation :=
  mkErrorLocation (filename span)
    (mkTextRange
       (mkTextPosition (begin_line span + 1) (begin_column span + 1))
       (mkTextPosition (end_line span + 1) (end_column span + 1)))%N.

Section errors.
Context `{Unicode} `{Starlark}.

Definition error_text (e : Error) : string :=
  match e with
  | InvalidDecision t => "invalid decision: " +:+ t
  | InvalidPattern t => "invalid pattern element: " +:+ t
  | InvalidExample t => "invalid example: " +:+ t
  | InvalidRule t => "invalid rule: " +:+ t
  | ExampleDidNotMatch rules examples _ =>
      "expected every example to match at least one rule. rules: " +:+ debug_list rules
      +:+ "; unmatched examples: " +:+ debug_list examples
  | ExampleDidMatch rule example _ =>
      "expected example to not match rule `" +:+ rule +:+ "`: " +:+ example
  | StarlarkError e => "starlark error: " +:+ sl_error_text e
  end.

Definition with_location (e : Error) (location : ErrorLocation) : Error :=
  match e with
  | ExampleDidNotMatch rules examples None => ExampleDidNotMatch rules examples (Some location)
  | ExampleDidMatch rule example None => ExampleDidMatch rule example (Some location)
  | other => other
  end.

Definition location (e : Error) : option ErrorLocation :=
  match e with
  | ExampleDidNotMatch _ _ location | ExampleDidMatch _ _ location => location
  | StarlarkError err => error_location_from_file_span <$> sl_error_span err
  | _ => None
  end.
End errors.

(** ** decision.rs *)

Inductive Decision := Allow | Prompt | Forbidden.

#[export] Instance Decision_eq_dec : EqDecision Decision.
Proof. solve_decision. Defined.

(** The derived order. *)
Definition severity (d : Decision) : nat :=
  match d with Allow => 0 | Prompt => 1 | Forbidden => 2 end.

Definition decision_max (a b : Decision) : Decision :=
  if (severity a <=? severity b)%nat then b else a.

(** [Iterator::max]. *)
Definition max_decision (l : list Decision) : option Decision :=
  match l with
  | [] => None
  | d :: l' => Some (fold_left decision_max l' d)
  end.

Definition decision_parse `{Starlark} (raw : string) : result Error Decision :=
  if raw == "allow" then Good Allow
  else if raw == "prompt" then Good Prompt
  else if raw == "forbidden" then Good Forbidden
  else Bad (InvalidDecision raw).

(** ** executable_name.rs *)

Definition executable_lookup_key (raw : string) : string := raw.

Definition executable_path_lookup_key (path : string) : option string :=
  executable_lookup_key <$> file_name path.

(** ** rule.rs *)

Inductive PatternToken := Single (expected : string) | Alts (alternatives : list string).

Definition token_matches (p : PatternToken) (token : string) : bool :=
  match p with
  | Single expected => expected == token
  | Alts alternatives => existsb (λ alt, alt == token) alternatives
  end.

Definition alternatives (p : PatternToken) : list string :=
  match p with Single expected => [expected] | Alts alternatives => alternatives end.

Record PrefixPattern := mkPrefixPattern { pp_first : string; pp_rest : list PatternToken }.

Definition matches_prefix (p : PrefixPattern) (cmd : list string) : option (list string) :=
  let pattern_length := S (length (pp_rest p)) in
  match cmd with
  | [] => None
  | c0 :: args =>
      if (length cmd <? pattern_length)%nat || negb (c0 == pp_first p) then None
      else if forallb (λ '(pattern_token, cmd_token), token_matches pattern_token cmd_token)
                (zip (pp_rest p) (take (length (pp_rest p)) args))
           then Some (take pattern_length cmd)
           else None
  end.

Inductive RuleMatch :=
| PrefixRuleMatch (matched_prefix : list string) (decision : Decision)
    (resolved_program : option string) (justification : option string)
| HeuristicsRuleMatch (command : list string) (decision : Decision).

Definition match_decision (m : RuleMatch) : Decision :=
  match m with PrefixRuleMatch _ d _ _ => d | HeuristicsRuleMatch _ d => d end.

Definition with_resolved_program (resolved_program : string) (m : RuleMatch) : RuleMatch :=
  match m with
  | PrefixRuleMatch matched_prefix decision _ justification =>
      PrefixRuleMatch matched_prefix decision (Some resolved_program) justification
  | other => other
  end.

Record PrefixRule := mkPrefixRule {
  pr_pattern : PrefixPattern;
  pr_decision : Decision;
  pr_justification : option string
}.

Inductive NetworkRuleProtocol := Http | Https | Socks5Tcp | Socks5Udp.

Definition protocol_parse `{Starlark} (raw : string) : result Error NetworkRuleProtocol :=
  if raw == "http" then Good Http
  else if (raw == "https") || (raw == "https_connect") || (raw == "http-connect") then Good Https
  else if raw == "socks5_tcp" then Good Socks5Tcp
  else if raw == "socks5_udp" then Good Socks5Udp
  else Bad (InvalidRule ("network_rule protocol must be one of http, https, socks5_tcp, socks5_udp (got "
                         +:+ raw +:+ ")")).

Definition as_policy_string (p : NetworkRuleProtocol) : string :=
  match p with
  | Http => "http" | Https => "https" | Socks5Tcp => "socks5_tcp" | Socks5Udp => "socks5_udp"
  end.

Record NetworkRule := mkNetworkRule {
  nr_host : string;
  nr_protocol : NetworkRuleProtocol;
  nr_decision : Decision;
  nr_justification : option string
}.

(** [s.chars().any(char::is_whitespace)]. *)
Fixpoint has_whitespace (s : string) : bool :=
  match s with
  | EmptyString => false
  | String _ s' => ws_at s || has_whitespace s'
  end.

(** Text after a host that is a port: [:] and digits. *)
Definition all_digits (port : string) : bool :=
  negb (str_is_empty port) && str_forall is_ascii_digit port.

Definition lowercase (s : string) : string := str_map ascii_lower s.

Section hosts.
Context `{Starlark}.

Definition invalid_rule {A} (text : string) : result Error A := Bad (InvalidRule text).

(** The host without brackets and port. *)
Definition strip_port (raw host : string) : result Error string :=
  match strip_prefix "[" host with
  | Some stripped =>
      match split_at_char "]"%char stripped with
      | (_, None) => invalid_rule "network_rule host has an invalid bracketed IPv6 literal"
      | (inside, Some rest) =>
          let port_ok := match strip_prefix ":" rest with Some port => all_digits port | None => false end in
          if negb (str_is_empty rest) && negb port_ok
          then invalid_rule ("network_rule host contains an unsupported suffix: " +:+ raw)
          else Good inside
      end
  | None =>
      match split_char ":"%char host with
      | [candidate; port] =>
          if negb (str_is_empty candidate) && all_digits port then Good candidate else Good host
      | _ => Good host
      end
  end.

Definition normalize_network_rule_host (raw : string) : result Error string :=
  let host := trim raw in
  if str_is_empty host then invalid_rule "network_rule host cannot be empty"
  else if str_contains host "://" || str_contains host "/" || str_contains host "?" || str_contains host "#"
  then invalid_rule "network_rule host must be a hostname or IP literal (without scheme or path)"
  else
    host ← strip_port raw host;
    let normalized := lowercase (trim (trim_end_char "."%char host)) in
    if str_is_empty normalized then invalid_rule "network_rule host cannot be empty"
    else if str_contains normalized "*"
    then invalid_rule "network_rule host must be a specific host; wildcards are not allowed"
    else if has_whitespace normalized then invalid_rule "network_rule host cannot contain whitespace"
    else Good normalized.
End hosts.

(** [Rule for PrefixRule]. *)
Definition program (r : PrefixRule) : string := pp_first (pr_pattern r).

Definition rule_matches (r : PrefixRule) (cmd : list string) : option RuleMatch :=
  matched_prefix ← matches_prefix (pr_pattern r) cmd;
  Some (PrefixRuleMatch matched_prefix (pr_decision r) None (pr_justification r)).

(** ** policy.rs *)

Record MatchOptions := mkMatchOptions { resolve_host_executables : bool }.
Definition default_options : MatchOptions := mkMatchOptions false.

(** The multimap keeps the rules of a program in the order of insertion. *)
Record Policy := mkPolicy {
  rules_by_program : gmap string (list PrefixRule);
  network_rules : list NetworkRule;
  host_executables_by_name : gmap string (list string)
}.

Definition from_parts := mkPolicy.
Definition policy_new (rules : gmap string (list PrefixRule)) : Policy := from_parts rules [] ∅.
Definition policy_empty : Policy := policy_new ∅.

(** [MultiMap::insert]. *)
Definition multimap_insert {A} (k : string) (v : A) (m : gmap string (list A)) : gmap string (list A) :=
  <[k := default [] (m !! k) ++ [v]]> m.

Definition render_pattern_token (t : PatternToken) : string :=
  match t with
  | Single value => value
  | Alts alternatives => "[" +:+ join "|" alternatives +:+ "]"
  end.

Definition allowed_prefix (r : PrefixRule) : option (list string) :=
  if decide (pr_decision r = Allow)
  then Some (pp_first (pr_pattern r) :: map render_pattern_token (pp_rest (pr_pattern r)))
  else None.

Definition get_allowed_prefixes (p : Policy) : list (list string) :=
  let prefixes := omap allowed_prefix (concat (map snd (map_to_list (rules_by_program p)))) in
  dedup (sort_by words_le prefixes).

Definition add_rule (r : PrefixRule) (p : Policy) : Policy :=
  mkPolicy (multimap_insert (program r) r (rules_by_program p)) (network_rules p) (host_executables_by_name p).

Section policy.
Context `{Starlark} `{HostDirs}.

Definition literal_rule (first_token : string) (rest : list string) (decision : Decision) : PrefixRule :=
  mkPrefixRule (mkPrefixPattern first_token (map Single rest)) decision None.

Definition add_prefix_rule (prefix : list string) (decision : Decision) (p : Policy) : result Error Policy :=
  match prefix with
  | [] => Bad (InvalidPattern "prefix cannot be empty")
  | first_token :: rest => Good (add_rule (literal_rule first_token rest decision) p)
  end.

(** A justification that is given may not be blank. *)
Definition blank (justification : option string) : bool :=
  match justification with Some raw => str_is_empty (trim raw) | None => false end.

Definition add_network_rule (host : string) (protocol : NetworkRuleProtocol) (decision : Decision)
    (justification : option string) (p : Policy) : result Error Policy :=
  host ← normalize_network_rule_host host;
  if blank justification then invalid_rule "justification cannot be empty"
  else Good (mkPolicy (rules_by_program p)
               (network_rules p ++ [mkNetworkRule host protocol decision justification])
               (host_executables_by_name p)).

Definition set_host_executable_paths (name : string) (paths : list string) (p : Policy) : Policy :=
  mkPolicy (rules_by_program p) (network_rules p) (<[name := paths]> (host_executables_by_name p)).

Definition merge_overlay (p overlay : Policy) : Policy :=
  from_parts
    (map_fold (λ program rules combined, fold_left (λ combined rule, multimap_insert program rule combined) rules combined)
       (rules_by_program p) (rules_by_program overlay))
    (network_rules p ++ network_rules overlay)
    (host_executables_by_name overlay ∪ host_executables_by_name p).

Definition retain_other (host : string) (entries : list string) : list string :=
  List.filter (λ entry, negb (entry == host)) entries.

Definition upsert_domain (entries : list string) (host : string) : list string :=
  retain_other host entries ++ [host].

Definition compile_rule (domains : list string * list string) (rule : NetworkRule) : list string * list string :=
  let '(allowed, denied) := domains in
  match nr_decision rule with
  | Allow => (upsert_domain allowed (nr_host rule), retain_other (nr_host rule) denied)
  | Forbidden => (retain_other (nr_host rule) allowed, upsert_domain denied (nr_host rule))
  | Prompt => (allowed, denied)
  end.

Definition compiled_network_domains (p : Policy) : list string * list string :=
  fold_left compile_rule (network_rules p) ([], []).

Definition match_exact_rules (p : Policy) (cmd : list string) : option (list RuleMatch) :=
  match cmd with
  | [] => None
  | first :: _ =>
      Some (match rules_by_program p !! first with
            | Some rules => omap (λ rule, rule_matches rule cmd) rules
            | None => []
            end)
  end.

Definition match_host_executable_rules (p : Policy) (cmd : list string) : list RuleMatch :=
  match cmd with
  | [] => []
  | first :: args =>
      match try_absolute first with
      | IoErr _ => []
      | IoOk program =>
          match executable_path_lookup_key program with
          | None => []
          | Some basename =>
              match rules_by_program p !! basename with
              | None => []
              | Some rules =>
                  if match host_executables_by_name p !! basename with
                     | Some paths => negb (existsb (λ path, path_eqb path program) paths)
                     | None => false
                     end
                  then []
                  else map (with_resolved_program program)
                         (omap (λ rule, rule_matches rule (basename :: args)) rules)
              end
          end
      end
  end.

(** [.filter(|matched_rules| !matched_rules.is_empty())]. *)
Definition non_empty {A} (o : option (list A)) : option (list A) :=
  match o with Some (_ :: _) => o | _ => None end.

Definition rules_for_command (p : Policy) (cmd : list string) (options : MatchOptions) : list RuleMatch :=
  default []
    (match non_empty (match_exact_rules p cmd) with
     | Some matched => Some matched
     | None => non_empty (if resolve_host_executables options
                          then Some (match_host_executable_rules p cmd) else None)
     end).

Definition matches_for_command_with_options (p : Policy) (cmd : list string)
    (heuristics_fallback : option (list string → Decision)) (options : MatchOptions) : list RuleMatch :=
  let matched_rules := rules_for_command p cmd options in
  match matched_rules, heuristics_fallback with
  | [], Some fallback => [HeuristicsRuleMatch cmd (fallback cmd)]
  | _, _ => matched_rules
  end.

Definition matches_for_command (p : Policy) (cmd : list string)
    (heuristics_fallback : option (list string → Decision)) : list RuleMatch :=
  matches_for_command_with_options p cmd heuristics_fallback default_options.

Record Evaluation := mkEvaluation { ev_decision : Decision; ev_matched_rules : list RuleMatch }.

Definition is_match (e : Evaluation) : bool :=
  existsb (λ m, match m with HeuristicsRuleMatch _ _ => false | _ => true end) (ev_matched_rules e).

(** Without a match there is no decision: [expect] panics. *)
Definition from_matches (matched_rules : list RuleMatch) : res Evaluation :=
  match max_decision (map match_decision matched_rules) with
  | Some decision => Ok (mkEvaluation decision matched_rules)
  | None => Panic
  end.

Definition check_with_options (p : Policy) (cmd : list string)
    (heuristics_fallback : list string → Decision) (options : MatchOptions) : res Evaluation :=
  from_matches (matches_for_command_with_options p cmd (Some heuristics_fallback) options).

Definition check (p : Policy) (cmd : list string) (heuristics_fallback : list string → Decision) : res Evaluation :=
  check_with_options p cmd heuristics_fallback default_options.

Definition check_multiple_with_options (p : Policy) (commands : list (list string))
    (heuristics_fallback : list string → Decision) (options : MatchOptions) : res Evaluation :=
  from_matches
    (concat (map (λ command, matches_for_command_with_options p command (Some heuristics_fallback) options)
               commands)).

Definition check_multiple (p : Policy) (commands : list (list string))
    (heuristics_fallback : list string → Decision) : res Evaluation :=
  check_multiple_with_options p commands heuristics_fallback default_options.
End policy.
