(* ===== verification/ExecPolicyFacts.v ===== *)
(** * What a command policy decides (execpolicy: policy.rs, rule.rs)

    Patterns match by position; the decision is the strictest of the rules that
    match; adding rules or an overlay never loosens what the rules of a program
    decide; the compiled domains follow the last rule for a host. *)

From S2P Require Import Prelude RustStr Os AbsPath ExecPolicy.

#[local] Open Scope nat_scope.

(** ** The strictest decision *)

Lemma severity_inj a b : severity a = severity b → a = b.
Proof. by destruct a, b. Qed.

Lemma decision_max_l a b : severity a ≤ severity (decision_max a b).
Proof. by destruct a, b; cbn; lia. Qed.

Lemma decision_max_r a b : severity b ≤ severity (decision_max a b).
Proof. by destruct a, b; cbn; lia. Qed.

Lemma decision_max_cases a b : decision_max a b = a ∨ decision_max a b = b.
Proof. destruct a, b; auto. Qed.

Lemma fold_max_spec l a :
  (fold_left decision_max l a ∈ a :: l) ∧ Forall (λ x, severity x ≤ severity (fold_left decision_max l a)) (a :: l).
Proof.
  revert a. induction l as [|b l IH]; intros a; cbn [fold_left].
  - split; [by left|]. by repeat constructor.
  - destruct (IH (decision_max a b)) as [Hin Hall]. inversion_clear Hall as [|? ? Hm Hl]. split.
    + apply elem_of_cons in Hin as [->|Hin]; [|set_solver].
      destruct (decision_max_cases a b) as [->| ->]; set_solver.
    + pose proof (decision_max_l a b). pose proof (decision_max_r a b). repeat constructor; [lia|lia|done].
Qed.

(** The maximum is in the list and bounds it. *)
Lemma max_decision_Some l d :
  max_decision l = Some d ↔ d ∈ l ∧ Forall (λ x, severity x ≤ severity d) l.
Proof.
  destruct l as [|a l]; cbn; [split; [done|by intros [?%elem_of_nil _]]|].
  destruct (fold_max_spec l a) as [Hin Hall]. split; [by intros [= <-]|].
  intros [Hd Hb]. f_equal. apply severity_inj, Nat.le_antisymm.
  - rewrite Forall_forall in Hb. by apply Hb.
  - rewrite Forall_forall in Hall. by apply Hall.
Qed.

Lemma max_decision_None l : max_decision l = None ↔ l = [].
Proof. by destruct l. Qed.

Lemma max_decision_Proper : Proper ((≡ₚ) ==> (=)) max_decision.
Proof.
  intros l k Hp. destruct (max_decision l) as [d|] eqn:E.
  - symmetry. apply max_decision_Some. apply max_decision_Some in E as [Hin Hall].
    rewrite Hp in Hin, Hall. done.
  - apply max_decision_None in E as ->. apply Permutation_nil_l in Hp. by subst.
Qed.
#[export] Existing Instance max_decision_Proper.

(** The maximum of a list that grows in the middle grows. *)
Lemma max_decision_mono l k d e :
  max_decision l = Some d → max_decision k = Some e → l ⊆ k → severity d ≤ severity e.
Proof.
  intros [Hd _]%max_decision_Some [_ Hk]%max_decision_Some Hlk.
  rewrite Forall_forall in Hk. by apply Hk, Hlk.
Qed.

(** ** Patterns *)

Lemma forallb_zip_Forall2 ts ws :
  length ts = length ws →
  forallb (λ '(t, w), token_matches t w) (zip ts ws) = true ↔ Forall2 (λ t w, token_matches t w = true) ts ws.
Proof.
  revert ws. induction ts as [|t ts IH]; intros [|w ws] Hl; try discriminate Hl; cbn.
  - by split; [constructor|].
  - rewrite andb_true_iff. cbn in Hl. rewrite (IH ws) by lia. split.
    + intros []. by constructor.
    + intros Hf. by inversion Hf.
Qed.

(** A pattern matches the commands that start with its first token and one
    token for each further element, and gives that prefix back. *)
Theorem matches_prefix_spec p cmd prefix :
  matches_prefix p cmd = Some prefix ↔
  ∃ ws rest, cmd = prefix ++ rest ∧ prefix = pp_first p :: ws ∧
    Forall2 (λ t w, w ∈ alternatives t) (pp_rest p) ws.
Proof.
  assert (∀ t w, token_matches t w = true ↔ w ∈ alternatives t) as Hm.
  { intros [s|l] w; cbn [token_matches alternatives].
    - rewrite list_elem_of_singleton, String.eqb_eq. naive_solver.
    - rewrite existsb_exists. setoid_rewrite String.eqb_eq. setoid_rewrite list_elem_of_In. naive_solver. }
  unfold matches_prefix. destruct cmd as [|c0 args]; [naive_solver|].
  destruct (length (c0 :: args) <? S (length (pp_rest p)))%nat eqn:El; cbn [orb].
  { apply Nat.ltb_lt in El. split; [done|]. intros (ws & rest & Hc & -> & Hf).
    apply Forall2_length in Hf. rewrite Hc in El. cbn in El. rewrite length_app in El. lia. }
  apply Nat.ltb_ge in El. cbn in El.
  destruct (String.eqb_spec c0 (pp_first p)) as [->|Hne]; cbn [negb]; [|naive_solver].
  assert (length (pp_rest p) = length (take (length (pp_rest p)) args)) as Hlen by (rewrite length_take; lia).
  destruct (forallb _ _) eqn:Ef.
  - apply forallb_zip_Forall2 in Ef; [|done].
    assert (Forall2 (λ t w, w ∈ alternatives t) (pp_rest p) (take (length (pp_rest p)) args)) as Hok.
    { eapply Forall2_impl; [exact Ef|]. intros ? ?. apply Hm. }
    split.
    + intros [= <-]. eexists _, (drop (length (pp_rest p)) args). split_and!; [|done|done].
      cbn. by rewrite take_drop.
    + intros (ws & rest & Hc & -> & Hf). cbn in Hc. injection Hc as ->. cbn [take]. do 2 f_equal.
      apply Forall2_length in Hf. rewrite Hf. by rewrite take_app_length.
  - split; [done|]. intros (ws & rest & Hc & -> & Hf). cbn in Hc. injection Hc as ->.
    exfalso. apply not_true_iff_false in Ef. apply Ef. apply forallb_zip_Forall2; [done|].
    pose proof (Forall2_length _ _ _ Hf) as Hl. rewrite Hl, take_app_length.
    eapply Forall2_impl; [exact Hf|]. intros ? ?. apply Hm.
Qed.

Section policy_facts.
Context `{Starlark} `{HostDirs}.

(** ** The evaluation of a command *)

Lemma matches_not_empty p cmd fb o : matches_for_command_with_options p cmd (Some fb) o ≠ [].
Proof. unfold matches_for_command_with_options. by destruct (rules_for_command p cmd o). Qed.

Lemma from_matches_Ok ms ev :
  from_matches ms = Ok ev ↔
  ev_matched_rules ev = ms ∧ max_decision (map match_decision ms) = Some (ev_decision ev).
Proof.
  unfold from_matches. destruct (max_decision _) as [d|]; [|naive_solver].
  destruct ev; cbn. naive_solver.
Qed.

Lemma from_matches_total ms : ms ≠ [] → ∃ ev, from_matches ms = Ok ev.
Proof.
  intros Hne. unfold from_matches. destruct (max_decision _) eqn:E; [by eexists|].
  apply max_decision_None, map_eq_nil in E. done.
Qed.

Lemma check_total p cmd fb o : ∃ ev, check_with_options p cmd fb o = Ok ev.
Proof. apply from_matches_total, matches_not_empty. Qed.

(** A command is decided by the strictest of the rules that match it, and by
    the fallback when none does; the evaluation lists exactly what it was
    decided by. *)
Theorem check_strictest p cmd fb o :
  ∃ ev, check_with_options p cmd fb o = Ok ev ∧
    match rules_for_command p cmd o with
    | [] => ev = mkEvaluation (fb cmd) [HeuristicsRuleMatch cmd (fb cmd)] ∧ is_match ev = false
    | matched => ev_matched_rules ev = matched ∧
        (∃ m, m ∈ matched ∧ match_decision m = ev_decision ev) ∧
        Forall (λ m, severity (match_decision m) ≤ severity (ev_decision ev)) matched
    end.
Proof.
  destruct (check_total p cmd fb o) as [ev Hev]. exists ev. split; [done|].
  unfold check_with_options, matches_for_command_with_options in Hev. apply from_matches_Ok in Hev as [Hm Hd].
  destruct (rules_for_command p cmd o) as [|m ms].
  - destruct ev as [d rs]. cbn in *. split; [congruence|]. by subst rs.
  - split; [done|]. apply max_decision_Some in Hd as [(x & Hx & Hin)%list_elem_of_fmap Hall]. split; [by eauto|].
    by rewrite Forall_map in Hall.
Qed.

Lemma check_multiple_cases p cmds fb o :
  cmds ≠ [] → ∃ ev, check_multiple_with_options p cmds fb o = Ok ev.
Proof.
  destruct cmds as [|c cmds]; [done|]. intros _. apply from_matches_total. cbn.
  intros [E _]%app_nil. by apply (matches_not_empty p c fb o).
Qed.

(** Several commands together are decided by the strictest of the decisions on
    the single ones; without a command there is nothing to decide and the code
    panics. *)
Theorem check_multiple_spec p cmds fb o :
  (check_multiple_with_options p cmds fb o = Panic ↔ cmds = []) ∧
  ∀ ev, check_multiple_with_options p cmds fb o = Ok ev →
    (∃ cmd e, cmd ∈ cmds ∧ check_with_options p cmd fb o = Ok e ∧ ev_decision e = ev_decision ev) ∧
    ∀ cmd e, cmd ∈ cmds → check_with_options p cmd fb o = Ok e → severity (ev_decision e) ≤ severity (ev_decision ev).
Proof.
  split.
  { split; [|by intros ->]. intros Hp. destruct cmds as [|c cmds]; [done|].
    destruct (check_multiple_cases p (c :: cmds) fb o ltac:(done)) as [ev Hev]. congruence. }
  intros ev [_ Hd]%from_matches_Ok. rewrite concat_map, map_map in Hd.
  assert (∀ cmd e, cmd ∈ cmds → check_with_options p cmd fb o = Ok e → severity (ev_decision e) ≤ severity (ev_decision ev)) as Hle.
  { intros cmd e Hin [_ He]%from_matches_Ok. eapply max_decision_mono; [exact He|exact Hd|].
    intros x Hx. apply elem_of_concat. eexists. split; [|exact Hx].
    apply list_elem_of_fmap. by exists cmd. }
  split; [|done]. pose proof Hd as Hmax. apply max_decision_Some in Hd as [Hin _].
  apply elem_of_concat in Hin as (ds & (cmd & -> & Hcmd)%list_elem_of_fmap & Hin).
  destruct (check_total p cmd fb o) as [e He]. exists cmd, e. split_and!; [done|done|].
  apply severity_inj, Nat.le_antisymm; [by apply (Hle cmd)|].
  apply from_matches_Ok in He as [_ [_ Hall]%max_decision_Some]. rewrite Forall_forall in Hall. by apply Hall.
Qed.

(** ** Adding rules *)

Lemma multimap_lookup {A} k k' (v : A) m :
  default [] (multimap_insert k v m !! k') = default [] (m !! k') ++ (if decide (k' = k) then [v] else []).
Proof.
  unfold multimap_insert. destruct (decide (k' = k)) as [->|Hne].
  - by rewrite lookup_insert_eq.
  - by rewrite lookup_insert_ne, app_nil_r.
Qed.

Definition insert_all {A} (k : string) (vs : list A) (m : gmap string (list A)) : gmap string (list A) :=
  fold_left (λ m v, multimap_insert k v m) vs m.

Lemma insert_all_lookup {A} k k' (vs : list A) m :
  default [] (insert_all k vs m !! k') = default [] (m !! k') ++ (if decide (k' = k) then vs else []).
Proof.
  unfold insert_all. revert m. induction vs as [|v vs IH]; intros m; cbn [fold_left].
  - case_decide; by rewrite app_nil_r.
  - rewrite IH, multimap_lookup. case_decide; by rewrite <-app_assoc.
Qed.

Definition rules_of (p : Policy) (name : string) : list PrefixRule := default [] (rules_by_program p !! name).

(** Merging appends the overlay's rules of each program to the policy's. *)
Lemma merge_rules_of p q name : rules_of (merge_overlay p q) name = rules_of p name ++ rules_of q name.
Proof.
  unfold rules_of, merge_overlay, from_parts. cbn [rules_by_program].
  apply (map_fold_weak_ind (λ r m, default [] (r !! name) = default [] (rules_by_program p !! name) ++ default [] (m !! name))).
  - by rewrite lookup_empty, app_nil_r.
  - intros k vs m r Hk IH. etrans; [exact (insert_all_lookup k name vs r)|]. rewrite IH. destruct (decide (name = k)) as [->|Hne].
    + rewrite Hk, lookup_insert_eq. cbn. by rewrite app_nil_r.
    + by rewrite lookup_insert_ne, app_nil_r.
Qed.

Lemma add_rule_rules_of r p name :
  rules_of (add_rule r p) name = rules_of p name ++ (if decide (name = program r) then [r] else []).
Proof. apply multimap_lookup. Qed.

Definition exact_matches (p : Policy) (cmd : list string) : list RuleMatch :=
  match cmd with [] => [] | first :: _ => omap (λ r, rule_matches r cmd) (rules_of p first) end.

Lemma match_exact_rules_eq p cmd :
  match_exact_rules p cmd = match cmd with [] => None | _ => Some (exact_matches p cmd) end.
Proof. destruct cmd as [|c cmd]; [done|]. cbn. unfold rules_of. by destruct (_ !! c). Qed.

(** Exact rules come first; the others are looked at only when they fail. *)
Lemma rules_for_command_eq p cmd o :
  rules_for_command p cmd o =
  match exact_matches p cmd with
  | [] => if resolve_host_executables o then match_host_executable_rules p cmd else []
  | matched => matched
  end.
Proof.
  unfold rules_for_command. rewrite match_exact_rules_eq. destruct cmd as [|c cmd].
  - cbn. destruct (resolve_host_executables o); done.
  - destruct (exact_matches p (c :: cmd)); cbn [non_empty default]; [|done].
    destruct (resolve_host_executables o); [|done]. by destruct (match_host_executable_rules p (c :: cmd)).
Qed.

Lemma exact_matches_merge p q cmd : exact_matches (merge_overlay p q) cmd = exact_matches p cmd ++ exact_matches q cmd.
Proof. destruct cmd as [|c cmd]; [done|]. cbn. by rewrite merge_rules_of, omap_app. Qed.

Lemma check_exact p cmd fb o :
  exact_matches p cmd ≠ [] → check_with_options p cmd fb o = from_matches (exact_matches p cmd).
Proof.
  intros Hne. unfold check_with_options, matches_for_command_with_options. rewrite rules_for_command_eq.
  by destruct (exact_matches p cmd).
Qed.

(** An overlay never loosens what rules for the very program decide: neither
    the policy's own nor the overlay's. *)
Theorem merge_never_loosens p q r cmd fb o er em :
  r = p ∨ r = q → exact_matches r cmd ≠ [] →
  check_with_options r cmd fb o = Ok er → check_with_options (merge_overlay p q) cmd fb o = Ok em →
  severity (ev_decision er) ≤ severity (ev_decision em).
Proof.
  intros Hr Hne. rewrite (check_exact r), (check_exact (merge_overlay p q)), exact_matches_merge by
    (try done; rewrite exact_matches_merge; intros [? ?]%app_nil; destruct Hr; by subst).
  intros [_ Er]%from_matches_Ok [_ Em]%from_matches_Ok. eapply max_decision_mono; [exact Er|exact Em|].
  rewrite map_app. destruct Hr as [-> | ->]; set_solver.
Qed.

(** ** The order of rules *)

(** Whether the program at a path may stand for its name. *)
Definition path_allowed (p : Policy) (basename program : string) : bool :=
  match host_executables_by_name p !! basename with
  | Some paths => existsb (λ path, path_eqb path program) paths
  | None => true
  end.

Lemma host_matches_eq p first args :
  match_host_executable_rules p (first :: args) =
  match try_absolute first with
  | IoOk program =>
      match executable_path_lookup_key program with
      | Some basename =>
          if path_allowed p basename program
          then map (with_resolved_program program)
                 (omap (λ rule, rule_matches rule (basename :: args)) (rules_of p basename))
          else []
      | None => []
      end
  | IoErr _ => []
  end.
Proof.
  cbn. destruct (try_absolute first) as [program|]; [|done].
  destruct (executable_path_lookup_key program) as [b|]; [|done]. unfold rules_of, path_allowed.
  destruct (rules_by_program p !! b); cbn; destruct (host_executables_by_name p !! b); cbn; try done;
    by destruct (existsb _ _).
Qed.

Definition same_rules (p q : Policy) : Prop :=
  (∀ name, rules_of p name ≡ₚ rules_of q name) ∧ host_executables_by_name p = host_executables_by_name q.

Lemma same_rules_match p q cmd o : same_rules p q → rules_for_command p cmd o ≡ₚ rules_for_command q cmd o.
Proof.
  intros [Hr Hh]. rewrite !rules_for_command_eq.
  assert (exact_matches p cmd ≡ₚ exact_matches q cmd) as He by (destruct cmd; [done|cbn; by rewrite (Hr s)]).
  assert (match_host_executable_rules p cmd ≡ₚ match_host_executable_rules q cmd) as Hq.
  { destruct cmd as [|c args]; [done|]. rewrite !host_matches_eq. destruct (try_absolute c) as [program|]; [|done].
    destruct (executable_path_lookup_key program) as [b|]; [|done]. unfold path_allowed. rewrite Hh.
    case_match; case_match; try done; apply Permutation_map; by rewrite (Hr b). }
  destruct (exact_matches p cmd), (exact_matches q cmd); try done.
  - by destruct (resolve_host_executables o).
  - by apply Permutation_nil_l in He.
  - by apply Permutation_nil_r in He.
Qed.

(** The order in which the rules of a program were added, and so the order of
    the files they come from, is irrelevant to the decision. *)
Theorem order_irrelevant p q cmd fb o ep eq :
  same_rules p q → check_with_options p cmd fb o = Ok ep → check_with_options q cmd fb o = Ok eq →
  ev_decision ep = ev_decision eq.
Proof.
  intros Hp%(same_rules_match _ _ cmd o). unfold check_with_options, matches_for_command_with_options.
  intros [_ Ep]%from_matches_Ok [_ Eq]%from_matches_Ok.
  apply (inj Some). rewrite <-Ep, <-Eq. apply max_decision_Proper, Permutation_map.
  destruct (rules_for_command p cmd o), (rules_for_command q cmd o); try done.
  - by apply Permutation_nil_l in Hp.
  - by apply Permutation_nil_r in Hp.
Qed.

(** ** Hosts *)

(** What a host of a rule looks like. *)
Definition plain_host (h : string) : Prop :=
  h ≠ "" ∧ has_whitespace h = false ∧ lowercase h = h ∧
  str_forall (λ a, negb (existsb (Ascii.eqb a) ["/"; "?"; "#"; "*"]%char)) h = true.

Lemma ascii_lower_idem a : ascii_lower (ascii_lower a) = ascii_lower a.
Proof. by destruct a as [[] [] [] [] [] [] [] []]. Qed.

Lemma lowercase_idem s : lowercase (lowercase s) = lowercase s.
Proof. induction s as [|a s IH]; [done|]. unfold lowercase in *. cbn. by rewrite ascii_lower_idem, IH. Qed.

Lemma lowercase_forall f s :
  (∀ a, f (ascii_lower a) = f a) → str_forall f (lowercase s) = str_forall f s.
Proof. intros Hf. induction s as [|a s IH]; [done|]. unfold lowercase in *. cbn. by rewrite Hf, IH. Qed.

Lemma split_at_char_forall f c s l r :
  split_at_char c s = (l, Some r) → str_forall f s = true → str_forall f l = true.
Proof.
  revert l. induction s as [|a s IH]; intros l; [done|]. cbn. destruct (Ascii.eqb a c).
  - by intros [= <- _].
  - destruct (split_at_char c s) as [l' r'] eqn:E. intros [= <- ->]. cbn.
    rewrite !andb_true_iff. intros [Ha Hs]. split; [done|]. by apply IH.
Qed.

Lemma strip_port_forall f raw host h :
  strip_port raw host = Good h → str_forall f host = true → str_forall f h = true.
Proof.
  unfold strip_port, strip_prefix. destruct (starts_with host "[") eqn:Es.
  - apply starts_with_spec in Es as [t ->]. rewrite str_drop_app.
    destruct (split_at_char "]"%char t) as [inside [rest|]] eqn:E; [|done].
    case_match; [done|]. intros [= ->]. rewrite str_forall_app, andb_true_iff. intros [_ Ht].
    by apply (split_at_char_forall _ _ _ _ _ E).
  - destruct (split_char ":"%char host) as [|a [|b [|? ?]]] eqn:E; try by intros [= ->].
    case_match; [|by intros [= ->]]. intros [= ->]. rewrite <-(join_split_char ":"%char host), E. cbn.
    rewrite str_forall_app, andb_true_iff. by intros [].
Qed.

(** A host that is accepted is one specific host: lower case, without white
    space, path, query or wildcard. *)
Theorem normalized_host_plain raw h : normalize_network_rule_host raw = Good h → plain_host h.
Proof.
  unfold normalize_network_rule_host. cbn zeta. destruct (str_is_empty (trim raw)); [done|].
  set (ok := λ a, negb (existsb (Ascii.eqb a) ["/"; "?"; "#"]%char)).
  destruct (str_contains (trim raw) "://" || _ || _ || _) eqn:Ec; [done|].
  rewrite !orb_false_iff in Ec. destruct Ec as [[[_ H1] H2] H3].
  rewrite str_contains_char, negb_false_iff in H1, H2, H3.
  assert (str_forall ok (trim raw) = true) as Hok.
  { revert H1 H2 H3. generalize (trim raw) as s. induction s as [|a s IH]; [done|]. cbn.
    rewrite !andb_true_iff. intros [A1 ?] [A2 ?] [A3 ?]. split; [|by apply IH].
    unfold ok. cbn. rewrite !negb_true_iff in *. by rewrite A1, A2, A3. }
  intros (host & Hp & Hn)%result_bind_Good. cbn zeta in Hn.
  destruct (str_is_empty _) eqn:Ee; [done|]. destruct (str_contains _ "*") eqn:Es; [done|].
  destruct (has_whitespace _) eqn:Ew; [done|]. injection Hn as <-.
  split_and!; [by intros E; rewrite E in Ee|done|apply lowercase_idem|].
  rewrite str_contains_char, negb_false_iff in Es.
  apply (strip_port_forall ok) in Hp; [|done].
  assert (str_forall ok (lowercase (trim (trim_end_char "."%char host))) = true) as Hl.
  { rewrite lowercase_forall by (intros a; by destruct a as [[] [] [] [] [] [] [] []]).
    by apply trim_forall, trim_end_char_forall. }
  revert Es Hl. generalize (lowercase (trim (trim_end_char "."%char host))) as s.
  induction s as [|a s IH]; [done|]. cbn. rewrite !andb_true_iff. intros [B1 ?] [B2 ?]. split; [|by apply IH].
  unfold ok in B2. cbn in B2. rewrite !negb_true_iff in *. rewrite !orb_false_iff in *. tauto.
Qed.

(** Normalising is not idempotent: a host that was accepted can be refused, or
    become another one, when it is read back. *)
Example normalize_not_idempotent :
  normalize_network_rule_host "[[a]" = Good "[a" ∧
  normalize_network_rule_host "[a" = invalid_rule "network_rule host has an invalid bracketed IPv6 literal" ∧
  normalize_network_rule_host "[a:1]" = Good "a:1" ∧ normalize_network_rule_host "a:1" = Good "a".
Proof. split_and!; by vm_compute. Qed.

(** ** Compiled domains *)

(** The last rule for a host that is not a prompt. *)
Definition verdict_step (h : string) (v : option Decision) (r : NetworkRule) : option Decision :=
  if nr_host r == h then match nr_decision r with Prompt => v | d => Some d end else v.

Definition last_verdict (h : string) (rules : list NetworkRule) : option Decision :=
  fold_left (verdict_step h) rules None.

Lemma retain_other_elem h x l : x ∈ retain_other h l ↔ x ∈ l ∧ x ≠ h.
Proof.
  unfold retain_other. rewrite !list_elem_of_In, filter_In, negb_true_iff. by rewrite String.eqb_neq.
Qed.

Lemma retain_other_NoDup h l : NoDup l → NoDup (retain_other h l).
Proof. unfold retain_other. rewrite !NoDup_ListNoDup. apply List.NoDup_filter. Qed.

Lemma upsert_elem h x l : x ∈ upsert_domain l h ↔ x ∈ l ∨ x = h.
Proof.
  unfold upsert_domain. rewrite elem_of_app, list_elem_of_singleton, retain_other_elem.
  destruct (decide (x = h)); tauto.
Qed.

Lemma upsert_NoDup h l : NoDup l → NoDup (upsert_domain l h).
Proof.
  intros Hl. apply NoDup_app. split_and!; [by apply retain_other_NoDup| |apply NoDup_singleton].
  intros x [_ Hx]%retain_other_elem ->%list_elem_of_singleton. done.
Qed.

(** The domains a proxy is given are listed once each, on one side only: a host
    is allowed or denied as the last rule for it that is no prompt says. *)
Theorem compiled_domains_spec p :
  NoDup (compiled_network_domains p).1 ∧ NoDup (compiled_network_domains p).2 ∧
  ∀ h, (h ∈ (compiled_network_domains p).1 ↔ last_verdict h (network_rules p) = Some Allow) ∧
       (h ∈ (compiled_network_domains p).2 ↔ last_verdict h (network_rules p) = Some Forbidden).
Proof.
  unfold compiled_network_domains, last_verdict.
  induction (network_rules p) as [|r rs IH] using rev_ind.
  { cbn. split_and!; [constructor|constructor|]. intros h. by rewrite !elem_of_nil. }
  rewrite !fold_left_app. cbn [fold_left].
  destruct (fold_left compile_rule rs ([], [])) as [allowed denied]. cbn [fst snd] in IH.
  destruct IH as (Ha & Hd & Hh). unfold compile_rule.
  destruct (nr_decision r) eqn:Er; cbn [fst snd]; (split_and!; [auto using upsert_NoDup, retain_other_NoDup..|]);
    intros h; rewrite fold_left_app; cbn [fold_left]; unfold verdict_step at 1 3; rewrite Er;
    rewrite ?upsert_elem, ?retain_other_elem; specialize (Hh h);
    destruct (String.eqb_spec (nr_host r) h); naive_solver.
Qed.
End policy_facts.

(** ** The listing of allowed prefixes *)

(** The listing has the rendering of every allowing rule, once and in order. *)
Theorem get_allowed_prefixes_spec p :
  StronglySorted (λ a b, words_le a b) (get_allowed_prefixes p) ∧ NoDup (get_allowed_prefixes p) ∧
  ∀ prefix, prefix ∈ get_allowed_prefixes p ↔
    ∃ name r, r ∈ rules_of p name ∧ pr_decision r = Allow ∧
      prefix = pp_first (pr_pattern r) :: map render_pattern_token (pp_rest (pr_pattern r)).
Proof.
  unfold get_allowed_prefixes. cbn zeta. set (prefixes := omap _ _).
  assert (StronglySorted (λ a b, words_le a b) (sort_by words_le prefixes)) as Hs
    by (apply sort_by_sorted; [apply words_le_trans|apply words_le_total]).
  split_and!; [by apply dedup_sorted|by apply (dedup_NoDup _ _ words_le_antisym)|].
  intros prefix. rewrite dedup_elem, sort_by_elem. unfold prefixes. rewrite list_elem_of_omap.
  setoid_rewrite elem_of_concat. setoid_rewrite list_elem_of_fmap. unfold allowed_prefix, rules_of. split.
  - intros (r & (rs & ([name rs'] & -> & Hin) & Hr) & Hp). case_decide; [|done]. injection Hp as <-.
    apply elem_of_map_to_list in Hin. exists name, r. by rewrite Hin.
  - intros (name & r & Hr & Hd & ->). destruct (rules_by_program p !! name) as [rs|] eqn:E; [|by apply elem_of_nil in Hr].
    exists r. split; [|by rewrite decide_True].
    exists rs. split; [|done]. exists (name, rs). split; [done|]. by apply elem_of_map_to_list.
Qed.
