(* ===== verification/ExecRules.v ===== *)
(** * Policy files (execpolicy: parser.rs, amend.rs and the examples of rule.rs)

    A policy file is a Starlark program that calls three built-in functions.
    Evaluating Starlark is the business of that crate: the program appears as
    the calls it makes.  The built-ins, the checking of examples and the
    appending of rules to a file are modelled. *)

From S2P Require Import Prelude RustStr Json Os AbsPath ExecPolicy.

(** The shlex crate: splitting a command line, and quoting words into one. *)
Class Shlex := {
  shlex_split : string → option (list string);
  shlex_try_join : list string → option string
}.

(** ** [{:?}] of rules and matches *)

Section debug.
Context `{Unicode}.

Definition debug_option (f : string → string) (o : option string) : string :=
  match o with Some s => "Some(" +:+ f s +:+ ")" | None => "None" end.

Definition debug_token (t : PatternToken) : string :=
  match t with
  | Single s => "Single(" +:+ debug_str s +:+ ")"
  | Alts l => "Alts(" +:+ debug_list l +:+ ")"
  end.

Definition debug_decision (d : Decision) : string :=
  match d with Allow => "Allow" | Prompt => "Prompt" | Forbidden => "Forbidden" end.

Definition debug_rule (r : PrefixRule) : string :=
  "PrefixRule { pattern: PrefixPattern { first: " +:+ debug_str (pp_first (pr_pattern r)) +:+ ", rest: ["
  +:+ join ", " (map debug_token (pp_rest (pr_pattern r))) +:+ "] }, decision: " +:+ debug_decision (pr_decision r)
  +:+ ", justification: " +:+ debug_option debug_str (pr_justification r) +:+ " }".

Definition debug_match (m : RuleMatch) : string :=
  match m with
  | PrefixRuleMatch matched_prefix decision resolved_program justification =>
      "PrefixRuleMatch { matched_prefix: " +:+ debug_list matched_prefix +:+ ", decision: " +:+ debug_decision decision
      +:+ ", resolved_program: " +:+ debug_option (λ p, "AbsolutePathBuf(" +:+ debug_str p +:+ ")") resolved_program
      +:+ ", justification: " +:+ debug_option debug_str justification +:+ " }"
  | HeuristicsRuleMatch command decision =>
      "HeuristicsRuleMatch { command: " +:+ debug_list command +:+ ", decision: " +:+ debug_decision decision +:+ " }"
  end.
End debug.

(** ** Examples (rule.rs) *)

Section examples.
Context `{Unicode} `{Starlark} `{HostDirs} `{Shlex}.

Definition example_options : MatchOptions := mkMatchOptions true.

Definition render_example (example : list string) : string :=
  default "unable to render example" (shlex_try_join example).

Definition example_matches (p : Policy) (example : list string) : list RuleMatch :=
  matches_for_command_with_options p example None example_options.

Definition is_unmatched (p : Policy) (example : list string) : bool :=
  match example_matches p example with [] => true | _ => false end.

Definition validate_match_examples (p : Policy) (rules : list PrefixRule) (matches : list (list string)) : result Error () :=
  match List.filter (is_unmatched p) matches with
  | [] => Good ()
  | unmatched_examples =>
      Bad (ExampleDidNotMatch (map debug_rule rules) (map render_example unmatched_examples) None)
  end.

Fixpoint validate_not_match_examples (p : Policy) (not_matches : list (list string)) : result Error () :=
  match not_matches with
  | [] => Good ()
  | example :: not_matches' =>
      match example_matches p example with
      | m :: _ => Bad (ExampleDidMatch (debug_match m) (render_example example) None)
      | [] => validate_not_match_examples p not_matches'
      end
  end.

(** ** The builder (parser.rs) *)

Record PendingExampleValidation := mkPendingExampleValidation {
  pv_rules : list PrefixRule;
  pv_matches : list (list string);
  pv_not_matches : list (list string);
  pv_location : option ErrorLocation
}.

Record PolicyBuilder := mkPolicyBuilder {
  pb_rules : gmap string (list PrefixRule);
  pb_network_rules : list NetworkRule;
  pb_host_executables : gmap string (list string);
  pb_pending : list PendingExampleValidation
}.

Definition builder_new : PolicyBuilder := mkPolicyBuilder ∅ [] ∅ [].

Definition builder_add_rule (b : PolicyBuilder) (r : PrefixRule) : PolicyBuilder :=
  mkPolicyBuilder (multimap_insert (program r) r (pb_rules b)) (pb_network_rules b) (pb_host_executables b) (pb_pending b).

Definition builder_add_network_rule (r : NetworkRule) (b : PolicyBuilder) : PolicyBuilder :=
  mkPolicyBuilder (pb_rules b) (pb_network_rules b ++ [r]) (pb_host_executables b) (pb_pending b).

Definition add_host_executable (name : string) (paths : list string) (b : PolicyBuilder) : PolicyBuilder :=
  mkPolicyBuilder (pb_rules b) (pb_network_rules b) (<[name := paths]> (pb_host_executables b)) (pb_pending b).

Definition add_pending_example_validation (v : PendingExampleValidation) (b : PolicyBuilder) : PolicyBuilder :=
  mkPolicyBuilder (pb_rules b) (pb_network_rules b) (pb_host_executables b) (pb_pending b ++ [v]).

Definition attach_validation_location (e : Error) (location : option ErrorLocation) : Error :=
  match location with Some location => with_location e location | None => e end.

(** The rules of one call, with the program paths known so far. *)
Definition validation_policy (b : PolicyBuilder) (v : PendingExampleValidation) : Policy :=
  from_parts (fold_left (λ m r, multimap_insert (program r) r m) (pv_rules v) ∅) [] (pb_host_executables b).

Definition validate_pending (b : PolicyBuilder) (v : PendingExampleValidation) : result Error () :=
  let policy := validation_policy b v in
  _ ← map_err (λ e, attach_validation_location e (pv_location v))
        (validate_not_match_examples policy (pv_not_matches v));
  map_err (λ e, attach_validation_location e (pv_location v))
    (validate_match_examples policy (pv_rules v) (pv_matches v)).

Fixpoint validate_all (b : PolicyBuilder) (vs : list PendingExampleValidation) : result Error () :=
  match vs with
  | [] => Good ()
  | v :: vs' => _ ← validate_pending b v; validate_all b vs'
  end.

Definition validate_pending_examples_from (b : PolicyBuilder) (start : nat) : result Error () :=
  validate_all b (drop start (pb_pending b)).

Definition build (b : PolicyBuilder) : Policy :=
  from_parts (pb_rules b) (pb_network_rules b) (pb_host_executables b).

(** ** Reading arguments (parser.rs) *)

Definition parse_alternative (value : sl_value) : result Error string :=
  match unpack_str value with
  | Some s => Good s
  | None => Bad (InvalidPattern ("pattern alternative must be a string (got " +:+ get_type value +:+ ")"))
  end.

Definition parse_pattern_token (value : sl_value) : result Error PatternToken :=
  match unpack_str value with
  | Some s => Good (Single s)
  | None =>
      match list_content value with
      | Some content =>
          tokens ← collect parse_alternative content;
          match tokens with
          | [] => Bad (InvalidPattern "pattern alternatives cannot be empty")
          | [single] => Good (Single single)
          | _ => Good (Alts tokens)
          end
      | None =>
          Bad (InvalidPattern ("pattern element must be a string or list of strings (got " +:+ get_type value +:+ ")"))
      end
  end.

Definition parse_pattern (pattern : list sl_value) : result Error (list PatternToken) :=
  tokens ← collect parse_pattern_token pattern;
  match tokens with
  | [] => Bad (InvalidPattern "pattern cannot be empty")
  | _ => Good tokens
  end.

Definition parse_string_example (raw : string) : result Error (list string) :=
  match shlex_split raw with
  | None => Bad (InvalidExample "example string has invalid shell syntax")
  | Some [] => Bad (InvalidExample "example cannot be an empty string")
  | Some tokens => Good tokens
  end.

Definition parse_example_token (value : sl_value) : result Error string :=
  match unpack_str value with
  | Some s => Good s
  | None => Bad (InvalidExample ("example tokens must be strings (got " +:+ get_type value +:+ ")"))
  end.

Definition parse_list_example (content : list sl_value) : result Error (list string) :=
  tokens ← collect parse_example_token content;
  match tokens with
  | [] => Bad (InvalidExample "example cannot be an empty list")
  | _ => Good tokens
  end.

Definition parse_example (value : sl_value) : result Error (list string) :=
  match unpack_str value with
  | Some raw => parse_string_example raw
  | None =>
      match list_content value with
      | Some content => parse_list_example content
      | None => Bad (InvalidExample ("example must be a string or list of strings (got " +:+ get_type value +:+ ")"))
      end
  end.

Definition parse_examples (examples : list sl_value) : result Error (list (list string)) :=
  collect parse_example examples.

Definition parse_literal_absolute_path (raw : string) : result Error string :=
  if negb (has_root raw) then invalid_rule ("host_executable paths must be absolute (got " +:+ raw +:+ ")")
  else match try_absolute raw with
       | IoOk path => Good path
       | IoErr error => invalid_rule ("invalid absolute path `" +:+ raw +:+ "`: " +:+ error)
       end.

Definition validate_host_executable_name (name : string) : result Error () :=
  if str_is_empty name then invalid_rule "host_executable name cannot be empty"
  else if negb (length (components name) =? 1)%nat || negb (bool_decide (file_name name = Some name))
  then invalid_rule ("host_executable name must be a bare executable name (got " +:+ name +:+ ")")
  else Good ().

Definition parse_network_rule_decision (raw : string) : result Error Decision :=
  if raw == "deny" then Good Forbidden else decision_parse raw.

(** ** The built-in functions (parser.rs, [policy_builtins]) *)

Definition parse_justification (justification : option string) : result Error (option string) :=
  if blank justification then invalid_rule "justification cannot be empty" else Good justification.

Definition optional_examples (examples : option (list sl_value)) : result Error (list (list string)) :=
  match examples with Some l => parse_examples l | None => Good [] end.

(** The rules and examples a call of [prefix_rule] declares. *)
Definition prefix_rule_declaration (pattern : list sl_value) (decision : option string)
    (r_match not_match : option (list sl_value)) (justification : option string)
    (call_location : option FileSpan) : result Error PendingExampleValidation :=
  decision ← match decision with Some raw => decision_parse raw | None => Good Allow end;
  justification ← parse_justification justification;
  pattern_tokens ← parse_pattern pattern;
  matches ← optional_examples r_match;
  not_matches ← optional_examples not_match;
  let location := error_location_from_file_span <$> call_location in
  match pattern_tokens with
  | [] => Bad (InvalidPattern "pattern cannot be empty")
  | first_token :: rest =>
      let rules := map (λ head, mkPrefixRule (mkPrefixPattern head rest) decision justification)
                     (alternatives first_token) in
      Good (mkPendingExampleValidation rules matches not_matches location)
  end.

Definition prefix_rule (pattern : list sl_value) (decision : option string)
    (r_match not_match : option (list sl_value)) (justification : option string)
    (call_location : option FileSpan) (b : PolicyBuilder) : result Error PolicyBuilder :=
  v ← prefix_rule_declaration pattern decision r_match not_match justification call_location;
  Good (fold_left builder_add_rule (pv_rules v) (add_pending_example_validation v b)).

Definition network_rule (host protocol decision : string) (justification : option string)
    (b : PolicyBuilder) : result Error PolicyBuilder :=
  protocol ← protocol_parse protocol;
  decision ← parse_network_rule_decision decision;
  justification ← parse_justification justification;
  host ← normalize_network_rule_host host;
  Good (builder_add_network_rule (mkNetworkRule host protocol decision justification) b).

(** One path of [host_executable]: it must be absolute and end in the name. *)
Definition parse_host_path (name : string) (value : sl_value) : result Error string :=
  match unpack_str value with
  | None => invalid_rule ("host_executable paths must be strings (got " +:+ get_type value +:+ ")")
  | Some raw =>
      path ← parse_literal_absolute_path raw;
      match executable_path_lookup_key path with
      | None => invalid_rule ("host_executable path `" +:+ raw +:+ "` must have basename `" +:+ name +:+ "`")
      | Some path_name =>
          if path_name == executable_lookup_key name then Good path
          else invalid_rule ("host_executable path `" +:+ raw +:+ "` must have basename `" +:+ name +:+ "`")
      end
  end.

Fixpoint parse_host_paths (name : string) (parsed_paths : list string) (values : list sl_value) : result Error (list string) :=
  match values with
  | [] => Good parsed_paths
  | value :: values' =>
      path ← parse_host_path name value;
      parse_host_paths name
        (if existsb (λ existing, path_eqb existing path) parsed_paths then parsed_paths else parsed_paths ++ [path])
        values'
  end.

Definition host_executable (name : string) (paths : list sl_value) (b : PolicyBuilder) : result Error PolicyBuilder :=
  _ ← validate_host_executable_name name;
  parsed_paths ← parse_host_paths name [] paths;
  Good (add_host_executable (executable_lookup_key name) parsed_paths b).

(** ** Parsing a file (parser.rs, [PolicyParser]) *)

Inductive BuiltinCall :=
| CallPrefixRule (pattern : list sl_value) (decision : option string) (r_match not_match : option (list sl_value))
    (justification : option string) (call_location : option FileSpan)
| CallNetworkRule (host protocol decision : string) (justification : option string)
| CallHostExecutable (name : string) (paths : list sl_value).

Definition builtin (c : BuiltinCall) (b : PolicyBuilder) : result Error PolicyBuilder :=
  match c with
  | CallPrefixRule pattern decision r_match not_match justification call_location =>
      prefix_rule pattern decision r_match not_match justification call_location b
  | CallNetworkRule host protocol decision justification => network_rule host protocol decision justification b
  | CallHostExecutable name paths => host_executable name paths b
  end.

(** What a policy file does: it calls built-ins one after the other, until it
    ends or fails.  A built-in that fails ends it with an error of the crate. *)
Inductive Script :=
| Finished
| Raised (e : sl_error)
| Calls (c : BuiltinCall) (on_error : Error → sl_error) (rest : Script).

Fixpoint run_script (s : Script) (b : PolicyBuilder) : result sl_error () * PolicyBuilder :=
  match s with
  | Finished => (Good (), b)
  | Raised e => (Bad e, b)
  | Calls c on_error rest =>
      match builtin c b with
      | Good b' => run_script rest b'
      | Bad e => (Bad (on_error e), b)
      end
  end.

(** [PolicyParser::parse], with the script the contents stand for. *)
Definition parse_script (s : Script) (b : PolicyBuilder) : result Error () * PolicyBuilder :=
  let pending_validation_count := length (pb_pending b) in
  match run_script s b with
  | (Bad e, b') => (Bad (StarlarkError e), b')
  | (Good _, b') => (validate_pending_examples_from b' pending_validation_count, b')
  end.
End examples.

(** Reading and evaluating the text of a policy file. *)
Class StarlarkEval `{Starlark} := { eval_module : string → string → Script }.

Definition parse `{Unicode} `{HostDirs} `{Shlex} `{StarlarkEval}
    (policy_identifier policy_file_contents : string) (b : PolicyBuilder) : result Error () * PolicyBuilder :=
  parse_script (eval_module policy_identifier policy_file_contents) b.

(** ** Appending rules (amend.rs) *)

Inductive AmendError :=
| EmptyPrefix
| InvalidNetworkRule (text : string)
| MissingParent (path : string)
| CreatePolicyDir (dir source : string)
| OpenPolicyFile (path source : string)
| WritePolicyFile (path source : string)
| LockPolicyFile (path source : string)
| SeekPolicyFile (path source : string)
| ReadPolicyFile (path source : string).

Definition amend_error_text (e : AmendError) : string :=
  match e with
  | EmptyPrefix => "prefix rule requires at least one token"
  | InvalidNetworkRule t => "invalid network rule: " +:+ t
  | MissingParent path => "policy path has no parent: " +:+ path
  | CreatePolicyDir dir source => "failed to create policy directory " +:+ dir +:+ ": " +:+ source
  | OpenPolicyFile path source => "failed to open policy file " +:+ path +:+ ": " +:+ source
  | WritePolicyFile path source => "failed to write to policy file " +:+ path +:+ ": " +:+ source
  | LockPolicyFile path source => "failed to lock policy file " +:+ path +:+ ": " +:+ source
  | SeekPolicyFile path source => "failed to seek policy file " +:+ path +:+ ": " +:+ source
  | ReadPolicyFile path source => "failed to read policy file " +:+ path +:+ ": " +:+ source
  end.

Inductive DirCreation := DirCreated | DirExists | DirFailed (source : string).

(** The calls on the policy file.  It is opened for reading and appending and
    created when it is missing; every write goes to its end.  While the lock is
    held no other amendment touches it. *)
Class PolicyFs := {
  pfs : Type;
  pf_create_dir : string → pfs → DirCreation * pfs;
  pf_open : string → pfs → io () * pfs;
  pf_lock : string → pfs → io () * pfs;
  pf_seek_start : string → pfs → io () * pfs;
  pf_read : string → pfs → io string * pfs;
  pf_write_all : string → string → pfs → io () * pfs
}.

(** Code that works on the file system and can fail. *)
Definition Amend `{PolicyFs} (A : Type) : Type := pfs → result AmendError A * pfs.

#[export] Instance Amend_ret `{PolicyFs} : MRet Amend := λ A a w, (Good a, w).
#[export] Instance Amend_bind `{PolicyFs} : MBind Amend := λ A B f m w,
  match m w with
  | (Good a, w') => f a w'
  | (Bad e, w') => (Bad e, w')
  end.

Section amend.
Context `{Unicode} `{Starlark} `{JsonLib} `{PolicyFs}.

Definition amend_fail {A} (e : AmendError) : Amend A := λ w, (Bad e, w).

(** A call whose error is wrapped. *)
Definition amend_io {A} (call : pfs → io A * pfs) (wrap : string → AmendError) : Amend A := λ w,
  match call w with
  | (IoOk a, w') => (Good a, w')
  | (IoErr source, w') => (Bad (wrap source), w')
  end.

Definition ends_with_newline (s : string) : bool :=
  match str_rev s with String a _ => Ascii.eqb a newline | EmptyString => false end.

Definition newline_text : string := String newline "".

Definition append_locked_line (policy_path line : string) : Amend () :=
  _ ← amend_io (pf_open policy_path) (OpenPolicyFile policy_path);
  _ ← amend_io (pf_lock policy_path) (LockPolicyFile policy_path);
  _ ← amend_io (pf_seek_start policy_path) (SeekPolicyFile policy_path);
  contents ← amend_io (pf_read policy_path) (ReadPolicyFile policy_path);
  if existsb (λ existing, existing == line) (lines contents) then mret ()
  else
    _ ← (if negb (str_is_empty contents) && negb (ends_with_newline contents)
         then amend_io (pf_write_all policy_path newline_text) (WritePolicyFile policy_path)
         else mret ());
    amend_io (pf_write_all policy_path (line +:+ newline_text)) (WritePolicyFile policy_path).

Definition append_rule_line (policy_path rule : string) : Amend () :=
  match path_parent policy_path with
  | None => amend_fail (MissingParent policy_path)
  | Some dir => λ w,
      match pf_create_dir dir w with
      | (DirFailed source, w') => (Bad (CreatePolicyDir dir source), w')
      | (_, w') => append_locked_line policy_path rule w'
      end
  end.

(** [serde_json::to_string] of a string, which does not fail. *)
Definition json_string (s : string) : string := value_text (VString s).

Definition allow_rule_text (prefix : list string) : string :=
  "prefix_rule(pattern=[" +:+ join ", " (map json_string prefix) +:+ "], decision=" +:+ quote +:+ "allow" +:+ quote +:+ ")".

Definition blocking_append_allow_prefix_rule (policy_path : string) (prefix : list string) : Amend () :=
  match prefix with
  | [] => amend_fail EmptyPrefix
  | _ => append_rule_line policy_path (allow_rule_text prefix)
  end.

Definition decision_text (d : Decision) : string :=
  match d with Allow => "allow" | Prompt => "prompt" | Forbidden => "deny" end.

Definition network_rule_text (host : string) (protocol : NetworkRuleProtocol) (decision : Decision)
    (justification : option string) : string :=
  "network_rule(" +:+
  join ", "
    (["host=" +:+ json_string host;
      "protocol=" +:+ json_string (as_policy_string protocol);
      "decision=" +:+ json_string (decision_text decision)]
     ++ match justification with Some j => ["justification=" +:+ json_string j] | None => [] end)
  +:+ ")".

Definition blocking_append_network_rule (policy_path host : string) (protocol : NetworkRuleProtocol)
    (decision : Decision) (justification : option string) : Amend () :=
  match normalize_network_rule_host host with
  | Bad err => amend_fail (InvalidNetworkRule (error_text err))
  | Good host =>
      if blank justification then amend_fail (InvalidNetworkRule "justification cannot be empty")
      else append_rule_line policy_path (network_rule_text host protocol decision justification)
  end.
End amend.

(** ** The command [check] (execpolicycheck.rs) *)

Section check_command.
Context `{Unicode} `{HostDirs} `{Shlex} `{StarlarkEval} `{Os} `{JsonLib}.

Fixpoint load_into (o : os) (policy_paths : list string) (b : PolicyBuilder) : res PolicyBuilder :=
  match policy_paths with
  | [] => Ok b
  | policy_path :: rest =>
      contents ← with_context (read_to_string o policy_path) ("failed to read policy at " +:+ policy_path);
      match parse policy_path contents b with
      | (Good _, b') => load_into o rest b'
      | (Bad e, _) => Err ("failed to parse policy at " +:+ policy_path +:+ ": " +:+ error_text e)
      end
  end.

Definition load_policies (o : os) (policy_paths : list string) : res Policy :=
  b ← load_into o policy_paths builder_new; Ok (build b).

Definition json_decision (d : Decision) : Value :=
  VString (match d with Allow => "allow" | Prompt => "prompt" | Forbidden => "forbidden" end).

Definition json_words (l : list string) : Value := VArray (map VString l).

(** The derived [Serialize] of a match and of the output. *)
Definition json_match (m : RuleMatch) : Value :=
  match m with
  | PrefixRuleMatch matched_prefix decision resolved_program justification =>
      VObject [("prefixRuleMatch", VObject
        ([("matchedPrefix", json_words matched_prefix); ("decision", json_decision decision)]
         ++ match resolved_program with Some p => [("resolvedProgram", VString p)] | None => [] end
         ++ match justification with Some j => [("justification", VString j)] | None => [] end))]
  | HeuristicsRuleMatch command decision =>
      VObject [("heuristicsRuleMatch", VObject [("command", json_words command); ("decision", json_decision decision)])]
  end.

Definition check_output (matched_rules : list RuleMatch) : Value :=
  VObject
    (("matchedRules", VArray (map json_match matched_rules)) ::
     match max_decision (map match_decision matched_rules) with
     | Some d => [("decision", json_decision d)]
     | None => []
     end).

Definition format_matches_json (to_string_pretty : Value → string) (matched_rules : list RuleMatch) (pretty : bool) : string :=
  if pretty then to_string_pretty (check_output matched_rules) else value_text (check_output matched_rules).

Definition run_check (to_string_pretty : Value → string) (o : os) (rules : list string)
    (pretty resolve : bool) (command : list string) : res string :=
  policy ← load_policies o rules;
  Ok (format_matches_json to_string_pretty
        (matches_for_command_with_options policy command None (mkMatchOptions resolve)) pretty).
End check_command.
