(* ===== verification/ExecRulesFacts.v ===== *)
(** * What reading and amending policy files guarantees (execpolicy: parser.rs,
    amend.rs)

    A file that is accepted declares rules whose examples hold; the paths of
    host executables end in their name; appending a rule adds one line and is
    idempotent. *)

From S2P Require Import Prelude RustStr Json Os AbsPath ExecPolicy ExecPolicyFacts ExecRules.

Lemma omap_non_empty {A B} (f : A → option B) l : omap f l ≠ [] ↔ ∃ x, x ∈ l ∧ is_Some (f x).
Proof.
  split.
  - destruct (omap f l) as [|y ys] eqn:E; [done|]. intros _.
    assert (y ∈ omap f l) as (x & Hx & Hy)%list_elem_of_omap by (rewrite E; by left). by eauto.
  - intros (x & Hx & [y Hy]) E. assert (y ∈ omap f l) as Hin by (apply list_elem_of_omap; eauto).
    rewrite E in Hin. by apply elem_of_nil in Hin.
Qed.

Section builder.
Context `{HU : Unicode} `{HS : Starlark} `{HD : HostDirs} `{HX : Shlex}.

(** ** More rules match more commands *)

Lemma matched_mono p q cmd o :
  (∀ name, rules_of p name ⊆ rules_of q name) → host_executables_by_name p = host_executables_by_name q →
  rules_for_command p cmd o ≠ [] → rules_for_command q cmd o ≠ [].
Proof.
  intros Hr Hh. rewrite !rules_for_command_eq.
  assert (∀ name c, omap (λ r, rule_matches r c) (rules_of p name) ≠ [] → omap (λ r, rule_matches r c) (rules_of q name) ≠ []) as Ho.
  { intros name c. rewrite !omap_non_empty. intros (x & Hx & Hs). exists x. split; [by apply Hr|done]. }
  assert (exact_matches p cmd ≠ [] → exact_matches q cmd ≠ []) as He by (destruct cmd; [done|apply Ho]).
  assert (match_host_executable_rules p cmd ≠ [] → match_host_executable_rules q cmd ≠ []) as Hm.
  { destruct cmd as [|c args]; [done|]. rewrite !host_matches_eq. destruct (try_absolute c) as [prog|]; [|done].
    destruct (executable_path_lookup_key prog) as [b|]; [|done]. unfold path_allowed. rewrite Hh.
    case_match; case_match; try done; intros Hp Hq; apply map_eq_nil in Hq; apply (Ho b (b :: args)); try done;
      intros E; by rewrite E in Hp. }
  destruct (exact_matches q cmd); [|done]. destruct (exact_matches p cmd); [|by destruct He].
  destruct (resolve_host_executables o); [done|done].
Qed.

(** ** What the built-ins add *)

Definition built (b : PolicyBuilder) (name : string) : list PrefixRule := rules_of (build b) name.

Lemma insert_rules_lookup rs m name :
  default [] (fold_left (λ m r, multimap_insert (program r) r m) rs m !! name) =
  default [] (m !! name) ++ List.filter (λ r, program r == name) rs.
Proof.
  revert m. induction rs as [|r rs IH]; intros m; cbn [fold_left List.filter]; [by rewrite app_nil_r|].
  rewrite IH, multimap_lookup, <-app_assoc. f_equal.
  destruct (String.eqb_spec (program r) name) as [->|Hne]; [by rewrite decide_True|by rewrite decide_False].
Qed.

Lemma add_rules_built rs b name :
  built (fold_left builder_add_rule rs b) name = built b name ++ List.filter (λ r, program r == name) rs.
Proof.
  unfold built, rules_of, build, from_parts. cbn [rules_by_program]. rewrite <-insert_rules_lookup. do 2 f_equal.
  revert b. induction rs as [|r rs IH]; intros b; [done|]. cbn [fold_left]. by rewrite IH.
Qed.

Lemma add_rules_rest rs b :
  pb_network_rules (fold_left builder_add_rule rs b) = pb_network_rules b ∧
  pb_host_executables (fold_left builder_add_rule rs b) = pb_host_executables b ∧
  pb_pending (fold_left builder_add_rule rs b) = pb_pending b.
Proof. revert b. induction rs as [|r rs IH]; intros b; [done|]. cbn [fold_left]. apply (IH (builder_add_rule b r)). Qed.

(** The calls a script makes. *)
Fixpoint calls_of (s : Script) : list BuiltinCall :=
  match s with Calls c _ rest => c :: calls_of rest | _ => [] end.

Definition declares (c : BuiltinCall) (v : PendingExampleValidation) : Prop :=
  match c with
  | CallPrefixRule pattern decision r_match not_match justification call_location =>
      prefix_rule_declaration pattern decision r_match not_match justification call_location = Good v
  | _ => False
  end.

(** A builder grows: rules and pending examples are only added. *)
Definition grows (b b' : PolicyBuilder) : Prop :=
  (∀ name, built b name ⊆ built b' name) ∧ ∃ new, pb_pending b' = pb_pending b ++ new.

#[local] Instance grows_preorder : PreOrder grows.
Proof.
  split.
  - intros b. split; [done|]. exists []. by rewrite app_nil_r.
  - intros b1 b2 b3 [H1 [n1 E1]] [H2 [n2 E2]]. split; [set_solver|]. exists (n1 ++ n2). by rewrite E2, E1, app_assoc.
Qed.

Lemma prefix_rule_grows v b : grows b (fold_left builder_add_rule (pv_rules v) (add_pending_example_validation v b)).
Proof.
  destruct (add_rules_rest (pv_rules v) (add_pending_example_validation v b)) as (_ & _ & Hp). split.
  - intros name. rewrite add_rules_built. change (built (add_pending_example_validation v b) name) with (built b name). set_solver.
  - exists [v]. by rewrite Hp.
Qed.

Lemma builtin_grows c b b' : builtin c b = Good b' → grows b b'.
Proof.
  destruct c as [? ? ? ? ? ?|? ? ? ?|? ?]; cbn.
  - intros (v & _ & [= <-])%result_bind_Good. apply prefix_rule_grows.
  - unfold network_rule. intros Hb. repeat (apply result_bind_Good in Hb as (? & _ & Hb)). injection Hb as <-.
    split; [done|]. exists []. by rewrite app_nil_r.
  - unfold host_executable. intros Hb. repeat (apply result_bind_Good in Hb as (? & _ & Hb)). injection Hb as <-.
    split; [done|]. exists []. by rewrite app_nil_r.
Qed.

Lemma run_script_grows s b : grows b (run_script s b).2.
Proof.
  revert b. induction s as [|e|c on_error s IH]; intros b; cbn; [done|done|].
  destruct (builtin c b) as [b'|e] eqn:E; [|done]. etrans; [by eapply builtin_grows|apply IH].
Qed.

(** Every declaration of a script that ended is pending with its rules added. *)
Lemma run_script_declared s b b' :
  run_script s b = (Good (), b') →
  ∀ c, c ∈ calls_of s →
    match c with
    | CallPrefixRule _ _ _ _ _ _ => ∃ v, declares c v ∧ v ∈ drop (length (pb_pending b)) (pb_pending b') ∧
        ∀ r, r ∈ pv_rules v → r ∈ built b' (program r)
    | _ => True
    end.
Proof.
  revert b. induction s as [|e|c0 on_error s IH]; intros b; cbn; [intros _ c Hc; by apply elem_of_nil in Hc|done|].
  destruct (builtin c0 b) as [b1|e] eqn:E; [|done]. intros Hrun c Hc.
  pose proof (builtin_grows _ _ _ E) as [_ [n1 H1]].
  pose proof (run_script_grows s b1) as Hg. rewrite Hrun in Hg. destruct Hg as [Hg [n2 H2]].
  cbn in Hg, H2. apply elem_of_cons in Hc as [->|Hc].
  - destruct c0 as [pat dec m nm j loc| |]; [|done|done]. cbn in E. apply result_bind_Good in E as (v & Hv & [= <-]).
    exists v. split; [done|]. rewrite H2.
    destruct (add_rules_rest (pv_rules v) (add_pending_example_validation v b)) as (_ & _ & ->).
    cbn [pb_pending add_pending_example_validation]. rewrite <-app_assoc, drop_app_length. split; [set_solver|].
    intros r Hr. apply Hg. rewrite add_rules_built, elem_of_app. right.
    rewrite list_elem_of_In, filter_In, <-list_elem_of_In. split; [done|apply str_eqb_refl].
  - pose proof (IH b1 Hrun c Hc) as Hih. destruct c as [pat dec m nm j loc| |]; [|done|done].
    destruct Hih as (v & Hv & Hin & Hr). exists v. split_and!; [done| |done].
    rewrite H2 in Hin |- *. rewrite H1 in Hin |- *. rewrite drop_app_length in Hin.
    rewrite <-app_assoc, drop_app_length. set_solver.
Qed.

(** ** Examples *)

Lemma example_matches_eq p e : example_matches p e = rules_for_command p e example_options.
Proof. unfold example_matches, matches_for_command_with_options. by destruct (rules_for_command _ _ _). Qed.

Lemma validate_pending_Good b v :
  validate_pending b v = Good () ↔
  (∀ e, e ∈ pv_not_matches v → example_matches (validation_policy b v) e = []) ∧
  (∀ e, e ∈ pv_matches v → example_matches (validation_policy b v) e ≠ []).
Proof.
  unfold validate_pending. cbn zeta. set (p := validation_policy b v).
  assert (∀ f (m : result Error ()), map_err f m = Good () ↔ m = Good ()) as Hme by (intros f [[]|]; cbn; naive_solver).
  rewrite result_bind_Good.
  assert (validate_not_match_examples p (pv_not_matches v) = Good () ↔
    (∀ e, e ∈ pv_not_matches v → example_matches p e = [])) as Hn.
  { induction (pv_not_matches v) as [|e es IH]; cbn.
    - split; [|done]. intros _ e He. by apply elem_of_nil in He.
    - setoid_rewrite elem_of_cons. destruct (example_matches p e) eqn:E; [rewrite IH; naive_solver|].
      split; [done|]. intros Hall. specialize (Hall e (or_introl eq_refl)). congruence. }
  assert (validate_match_examples p (pv_rules v) (pv_matches v) = Good () ↔
    (∀ e, e ∈ pv_matches v → example_matches p e ≠ [])) as Hp.
  { unfold validate_match_examples. destruct (List.filter _ _) as [|x xs] eqn:E.
    - split; [|done]. intros _ e He Hem. assert (e ∈ List.filter (is_unmatched p) (pv_matches v)) as Hin.
      { rewrite list_elem_of_In, filter_In, <-list_elem_of_In. split; [done|]. unfold is_unmatched. by rewrite Hem. }
      rewrite E in Hin. by apply elem_of_nil in Hin.
    - split; [done|]. intros Hall. assert (x ∈ List.filter (is_unmatched p) (pv_matches v)) as Hin by (rewrite E; by left).
      rewrite list_elem_of_In, filter_In, <-list_elem_of_In in Hin. destruct Hin as [Hx Hu].
      unfold is_unmatched in Hu. specialize (Hall x Hx). by destruct (example_matches p x). }
  split.
  - intros ([] & Ha%Hme & Hb%Hme). split; [by apply Hn|by apply Hp].
  - intros [Ha Hb]. exists (). rewrite !Hme. split; [by apply Hn|by apply Hp].
Qed.

Lemma validate_all_Good b vs : validate_all b vs = Good () ↔ ∀ v, v ∈ vs → validate_pending b v = Good ().
Proof.
  induction vs as [|v vs IH]; cbn.
  - split; [|done]. intros _ v Hv. by apply elem_of_nil in Hv.
  - rewrite result_bind_Good. setoid_rewrite elem_of_cons. split.
    + intros ([] & Hv & Hvs). naive_solver.
    + intros Hall. exists (). rewrite IH. naive_solver.
Qed.

Lemma validation_rules b v name :
  rules_of (validation_policy b v) name = List.filter (λ r, program r == name) (pv_rules v).
Proof. exact (insert_rules_lookup (pv_rules v) ∅ name). Qed.

(** When a file is accepted, the examples of every [prefix_rule] call in it
    hold: each positive one is matched by the policy built so far, and no
    negative one is matched by the rules of the call. *)
Theorem parse_examples_hold s b b' c :
  parse_script s b = (Good (), b') → c ∈ calls_of s →
  match c with
  | CallPrefixRule _ _ _ _ _ _ => ∃ v, declares c v ∧
      (∀ e, e ∈ pv_matches v → example_matches (build b') e ≠ []) ∧
      (∀ e, e ∈ pv_not_matches v → example_matches (validation_policy b' v) e = [])
  | _ => True
  end.
Proof.
  unfold parse_script. cbn zeta. destruct (run_script s b) as [[[]|e] b1] eqn:E; [|done].
  intros [= Hval ->] Hc. pose proof (run_script_declared _ _ _ E c Hc) as Hd.
  destruct c as [pat dec m nm j loc| |]; [|done|done]. destruct Hd as (v & Hv & Hin & Hr). exists v. split; [done|].
  unfold validate_pending_examples_from in Hval. rewrite validate_all_Good in Hval.
  specialize (Hval v Hin). apply validate_pending_Good in Hval as [Hn Hm]. split; [|done].
  intros e He. specialize (Hm e He). rewrite example_matches_eq in Hm |- *. revert Hm. apply matched_mono; [|done].
  intros name r. rewrite validation_rules, list_elem_of_In, filter_In, <-list_elem_of_In.
  intros [Hin' Heq%String.eqb_eq]. subst name. by apply Hr.
Qed.

(** ** Paths of host executables *)

(** Every recorded path is an absolute path in normal form whose last
    component is the name it is recorded for. *)
Definition hosts_wf (b : PolicyBuilder) : Prop :=
  ∀ name paths path, pb_host_executables b !! name = Some paths → path ∈ paths →
    normal path ∧ file_name path = Some name.

Lemma parse_host_path_wf name value path :
  parse_host_path name value = Good path → normal path ∧ file_name path = Some name.
Proof.
  unfold parse_host_path. destruct (unpack_str value) as [raw|]; [|done].
  intros (p & Hp & Hk)%result_bind_Good. unfold executable_path_lookup_key in Hk.
  destruct (file_name p) as [key|] eqn:Ef; [|done]. cbn [fmap option_fmap option_map] in Hk. unfold executable_lookup_key in Hk.
  destruct (String.eqb_spec key name) as [->|]; [|done]. injection Hk as <-. split; [|done].
  unfold parse_literal_absolute_path in Hp. destruct (has_root raw) eqn:Er; [|done]. cbn in Hp.
  destruct (try_absolute raw) as [q|] eqn:Eq; [|done]. injection Hp as ->.
  unfold try_absolute, from_absolute_path, absolutize, normalize_path_for_platform in Eq.
  assert (maybe_expand_home_directory home_dir raw = raw) as Eh.
  { unfold maybe_expand_home_directory. destruct home_dir; [|done]. apply starts_with_spec in Er as [t ->]. done. }
  rewrite Eh, Er in Eq. injection Eq as <-. by apply normalize_abs.
Qed.

Lemma parse_host_paths_wf name parsed values paths :
  parse_host_paths name parsed values = Good paths →
  Forall (λ p, normal p ∧ file_name p = Some name) parsed → Forall (λ p, normal p ∧ file_name p = Some name) paths.
Proof.
  revert parsed. induction values as [|v vs IH]; intros parsed; cbn; [by intros [= <-]|].
  intros (p & Hp%parse_host_path_wf & Hrest)%result_bind_Good Hf. apply (IH _ Hrest). case_match; [done|].
  apply Forall_app. by split; [|constructor].
Qed.

(** Whatever a policy file declares, a host path stands for its own name. *)
Theorem run_script_hosts_wf s b : hosts_wf b → hosts_wf (run_script s b).2.
Proof.
  revert b. induction s as [|e|c on_error s IH]; intros b Hb; cbn; [done|done|].
  destruct (builtin c b) as [b'|e] eqn:E; [|done]. apply IH. clear IH. destruct c as [? ? ? ? ? ?|? ? ? ?|name paths]; cbn in E.
  - apply result_bind_Good in E as (v & _ & [= <-]). unfold hosts_wf.
    destruct (add_rules_rest (pv_rules v) (add_pending_example_validation v b)) as (_ & -> & _). exact Hb.
  - unfold network_rule in E. repeat (apply result_bind_Good in E as (? & _ & E)). by injection E as <-.
  - unfold host_executable in E. apply result_bind_Good in E as (_ & _ & E).
    apply result_bind_Good in E as (ps & Hps & [= <-]). intros name' paths' path. cbn.
    unfold executable_lookup_key. rewrite lookup_insert_Some. intros [[-> ->]|[_ Hl]] Hin; [|by eapply Hb].
    apply parse_host_paths_wf in Hps; [|done]. rewrite Forall_forall in Hps. by apply Hps.
Qed.
End builder.

(** ** Amending a file *)

(** What the calls do to the contents of files when they succeed. *)
Class PolicyFsLaws `{PolicyFs} := {
  pf_contents : pfs → string → option string;
  pf_create_dir_law dir w q : pf_contents (pf_create_dir dir w).2 q = pf_contents w q;
  pf_open_law p w w' q : pf_open p w = (IoOk (), w') →
    pf_contents w' q = if q == p then Some (default "" (pf_contents w p)) else pf_contents w q;
  pf_lock_law p w q : pf_contents (pf_lock p w).2 q = pf_contents w q;
  pf_seek_law p w q : pf_contents (pf_seek_start p w).2 q = pf_contents w q;
  pf_read_law p w w' c : pf_read p w = (IoOk c, w') → pf_contents w p = Some c ∧ ∀ q, pf_contents w' q = pf_contents w q;
  pf_write_law p t w w' q : pf_write_all p t w = (IoOk (), w') →
    pf_contents w' q = if q == p then Some (default "" (pf_contents w p) +:+ t) else pf_contents w q
}.

(** The contents after a line was appended. *)
Definition terminated (c : string) : string :=
  if negb (str_is_empty c) && negb (ends_with_newline c) then c +:+ newline_text else c.

Definition with_line (c line : string) : string :=
  if existsb (λ existing, existing == line) (lines c) then c else terminated c +:+ line +:+ newline_text.

Lemma ends_with_newline_spec c : ends_with_newline c = true → ∃ u, c = u +:+ String newline "".
Proof.
  unfold ends_with_newline. destruct (str_rev c) as [|a r] eqn:E; [done|]. intros ->%Ascii.eqb_eq.
  exists (str_rev r). rewrite <-(str_rev_involutive c), E. change (String newline r) with (String newline "" +:+ r).
  by rewrite str_rev_append.
Qed.

Lemma terminated_ends c : terminated c = "" ∨ ∃ u, terminated c = u +:+ String newline "".
Proof.
  unfold terminated. destruct (str_is_empty c) eqn:Ee; cbn; [apply String.eqb_eq in Ee; by left|right].
  destruct (ends_with_newline c) eqn:En; cbn; [by apply ends_with_newline_spec|by exists c].
Qed.

Lemma lines_single line : line_ok line = true → lines (line +:+ newline_text) = [line].
Proof.
  intros [Hn Hc%String.eqb_eq]%andb_true_iff. unfold newline_text. rewrite lines_cons by done.
  rewrite Hc, lines_fuel_enough by (cbn; lia). done.
Qed.

(** The file keeps its lines and has the new one, at most once more. *)
Lemma with_line_lines c line :
  line_ok line = true → line ∈ lines (with_line c line) ∧
  (line ∉ lines c → lines (with_line c line) = lines (terminated c) ++ [line]).
Proof.
  intros Hok. unfold with_line. destruct (existsb _ _) eqn:E.
  - apply existsb_exists in E as (x & Hx & ->%String.eqb_eq). apply list_elem_of_In in Hx. done.
  - rewrite lines_app by apply terminated_ends. rewrite lines_single by done. set_solver.
Qed.

Lemma with_line_idem c line : line_ok line = true → with_line (with_line c line) line = with_line c line.
Proof.
  intros Hok. destruct (with_line_lines c line Hok) as [Hin _]. unfold with_line at 1.
  assert (existsb (λ existing, existing == line) (lines (with_line c line)) = true) as ->; [|done].
  apply existsb_exists. exists line. split; [by apply list_elem_of_In|apply str_eqb_refl].
Qed.

Section amend_facts.
Context `{HL : PolicyFsLaws}.

Definition file (w : pfs) (path : string) : string := default "" (pf_contents w path).

Lemma amend_io_Good {A} (call : pfs → io A * pfs) wrap (a : A) w w' :
  amend_io call wrap w = (Good a, w') ↔ call w = (IoOk a, w').
Proof. unfold amend_io. destruct (call w) as [[x|e] w1]; naive_solver. Qed.

Lemma amend_bind_Good {A B} (m : Amend A) (f : A → Amend B) b w w' :
  (m ≫= f) w = (Good b, w') ↔ ∃ a w1, m w = (Good a, w1) ∧ f a w1 = (Good b, w').
Proof. unfold mbind, Amend_bind. destruct (m w) as [[a|e] w1]; naive_solver. Qed.

Lemma append_locked_line_contents path line w w' :
  append_locked_line path line w = (Good (), w') →
  file w' path = with_line (file w path) line ∧ ∀ q, q ≠ path → pf_contents w' q = pf_contents w q.
Proof.
  unfold append_locked_line. intros Ha.
  apply amend_bind_Good in Ha as ([] & w1 & E1%amend_io_Good & Ha). apply amend_bind_Good in Ha as ([] & w2 & E2%amend_io_Good & Ha).
  apply amend_bind_Good in Ha as ([] & w3 & E3%amend_io_Good & Ha). apply amend_bind_Good in Ha as (c & w4 & E4%amend_io_Good & Ha).
  pose proof (λ q, pf_open_law path w w1 q E1) as L1. pose proof (λ q, pf_lock_law path w1 q) as L2. rewrite E2 in L2.
  pose proof (λ q, pf_seek_law path w2 q) as L3. rewrite E3 in L3. destruct (pf_read_law path w3 w4 c E4) as [Hc L4].
  cbn [snd] in L2, L3. assert (c = file w path) as ->.
  { pose proof (L1 path) as Hp. rewrite str_eqb_refl in Hp. rewrite L3, L2, Hp in Hc. by injection Hc. }
  assert (∀ q, pf_contents w4 q = if q == path then Some (file w path) else pf_contents w q) as L
    by (intros q; rewrite L4, L3, L2; apply L1).
  clear - Ha L. unfold with_line, terminated. unfold file at 1.
  assert (file w4 path = file w path) as Hf by (unfold file at 1; by rewrite L, str_eqb_refl).
  assert (∀ q, q ≠ path → pf_contents w4 q = pf_contents w q) as Ho.
  { intros q Hq. rewrite L. by rewrite (proj2 (String.eqb_neq _ _) Hq). }
  destruct (existsb _ _); [injection Ha as <-; by split|].
  apply amend_bind_Good in Ha as ([] & w5 & E5 & E6%amend_io_Good). pose proof (λ q, pf_write_law _ _ _ _ q E6) as L6.
  assert (file w5 path = (if negb (str_is_empty (file w path)) && negb (ends_with_newline (file w path))
     then file w path +:+ newline_text else file w path) ∧ ∀ q, q ≠ path → pf_contents w5 q = pf_contents w q) as [H5 O5].
  { destruct (negb _ && negb _).
    - apply amend_io_Good in E5. pose proof (λ q, pf_write_law _ _ _ _ q E5) as L5. split.
      + unfold file at 1. rewrite L5, str_eqb_refl. cbn. change (default "" (pf_contents w4 path)) with (file w4 path). by rewrite Hf.
      + intros q Hq. rewrite L5, (proj2 (String.eqb_neq _ _) Hq). by apply Ho.
    - injection E5 as <-. by split. }
  split.
  - rewrite L6, str_eqb_refl. cbn. change (default "" (pf_contents w5 path)) with (file w5 path). by rewrite H5.
  - intros q Hq. rewrite L6, (proj2 (String.eqb_neq _ _) Hq). by apply O5.
Qed.

Lemma append_rule_line_contents path line w w' :
  append_rule_line path line w = (Good (), w') →
  file w' path = with_line (file w path) line ∧ ∀ q, q ≠ path → pf_contents w' q = pf_contents w q.
Proof.
  unfold append_rule_line. destruct (path_parent path) as [dir|]; [|done].
  pose proof (λ q, pf_create_dir_law dir w q) as Ld. destruct (pf_create_dir dir w) as [[| |e] w0]; [..|done]; cbn in Ld;
    (intros [Hf Ho]%append_locked_line_contents; split; [|intros q Hq; by rewrite Ho, Ld]);
    rewrite Hf; unfold file; by rewrite Ld.
Qed.

(** A successful amendment adds its line to the policy file unless it is there
    already, keeps what the file had and touches no other file; done twice, the
    second time changes nothing. *)
Theorem append_rule_line_spec path line w w1 w2 :
  line_ok line = true → append_rule_line path line w = (Good (), w1) → append_rule_line path line w1 = (Good (), w2) →
  file w1 path = with_line (file w path) line ∧ line ∈ lines (file w1 path) ∧
  (line ∉ lines (file w path) → lines (file w1 path) = lines (terminated (file w path)) ++ [line]) ∧
  (∀ q, q ≠ path → pf_contents w1 q = pf_contents w q) ∧ file w2 path = file w1 path.
Proof.
  intros Hok [Hf1 Ho1]%append_rule_line_contents [Hf2 _]%append_rule_line_contents. rewrite Hf2, Hf1.
  destruct (with_line_lines (file w path) line Hok) as [Hin Hl]. split_and!; [done|done|done|done|by apply with_line_idem].
Qed.
End amend_facts.
