(* ===== verification/ExecApproval.v ===== *)
(** * Whether a command needs approval (core: exec_policy.rs,
    tools/sandboxing.rs; config: state.rs)

    The command policy of [ExecPolicy], the classification of commands of
    [CommandSafety] and the permissions of [SandboxRoots] meet here: a command
    is run at once, put to the user or refused, and an approved command may
    amend the policy.  On Unix. *)

From S2P Require Import Prelude RustStr Json Os AbsPath CommandSafety ExecPolicy ExecRules Permissions SandboxRoots.

(** ** Settings *)

Record GranularApprovalConfig := mkGranular {
  sandbox_approval : bool;
  rules_approval : bool;
  skill_approval : bool;
  request_permissions : bool;
  mcp_elicitations : bool
}.

Inductive AskForApproval := UnlessTrusted | OnFailure | OnRequest | Granular (c : GranularApprovalConfig) | Never.

Inductive WindowsSandboxLevel := WindowsDisabled | RestrictedToken | Elevated.

(** [cfg!(windows)]. *)
Definition cfg_windows : bool := false.

Inductive ExecPolicyCommandOrigin := Generic.

Record UnmatchedCommandContext := mkContext {
  cx_approval_policy : AskForApproval;
  cx_permission_profile : PermissionProfile;
  cx_windows_sandbox_level : WindowsSandboxLevel;
  cx_sandbox_permissions : SandboxPermissions;
  cx_used_complex_parsing : bool;
  cx_command_origin : ExecPolicyCommandOrigin
}.

Record ExecPolicyCommands := mkCommands {
  epc_commands : list (list string);
  epc_used_complex_parsing : bool;
  epc_command_origin : ExecPolicyCommandOrigin
}.

Record ExecPolicyAmendment := mkAmendment { ea_command : list string }.

Inductive ExecApprovalRequirement :=
| Skip (bypass_sandbox : bool) (proposed_execpolicy_amendment : option ExecPolicyAmendment)
| NeedsApproval (reason : option string) (proposed_execpolicy_amendment : option ExecPolicyAmendment)
| ForbiddenExec (reason : string).

Definition proposed_amendment (r : ExecApprovalRequirement) : option ExecPolicyAmendment :=
  match r with
  | NeedsApproval _ (Some prefix) | Skip _ (Some prefix) => Some prefix
  | _ => None
  end.

Definition PROMPT_CONFLICT_REASON : string := "approval required by policy, but AskForApproval is set to Never".
Definition REJECT_SANDBOX_APPROVAL_REASON : string :=
  "approval required by policy, but AskForApproval::Granular.sandbox_approval is false".
Definition REJECT_RULES_APPROVAL_REASON : string :=
  "approval required by policy rule, but AskForApproval::Granular.rules is false".

Definition BANNED_PREFIX_SUGGESTIONS : list (list string) :=
  [["python3"]; ["python3"; "-"]; ["python3"; "-c"]; ["python"]; ["python"; "-"]; ["python"; "-c"]; ["py"]; ["py"; "-3"];
   ["pythonw"]; ["pyw"]; ["pypy"]; ["pypy3"]; ["git"]; ["bash"]; ["bash"; "-lc"]; ["sh"]; ["sh"; "-c"]; ["sh"; "-lc"];
   ["zsh"]; ["zsh"; "-lc"]; ["/bin/zsh"]; ["/bin/zsh"; "-lc"]; ["/bin/bash"]; ["/bin/bash"; "-lc"]; ["pwsh"];
   ["pwsh"; "-Command"]; ["pwsh"; "-c"]; ["powershell"]; ["powershell"; "-Command"]; ["powershell"; "-c"];
   ["powershell.exe"]; ["powershell.exe"; "-Command"]; ["powershell.exe"; "-c"]; ["env"]; ["sudo"]; ["node"]; ["node"; "-e"];
   ["perl"]; ["perl"; "-e"]; ["ruby"]; ["ruby"; "-e"]; ["php"]; ["php"; "-r"]; ["lua"]; ["lua"; "-e"]; ["osascript"]].

Definition is_policy_match (m : RuleMatch) : bool :=
  match m with PrefixRuleMatch _ _ _ _ => true | HeuristicsRuleMatch _ _ => false end.

Definition has_decision (d : Decision) (m : RuleMatch) : bool := bool_decide (match_decision m = d).

Definition prompt_is_rejected_by_policy (approval_policy : AskForApproval) (prompt_is_rule : bool) : option string :=
  match approval_policy with
  | Never => Some PROMPT_CONFLICT_REASON
  | OnFailure | OnRequest | UnlessTrusted => None
  | Granular granular_config =>
      if prompt_is_rule then
        if negb (rules_approval granular_config) then Some REJECT_RULES_APPROVAL_REASON else None
      else if negb (sandbox_approval granular_config) then Some REJECT_SANDBOX_APPROVAL_REASON
      else None
  end.

(** ** Commands that no rule matches *)

Definition profile_has_managed_filesystem_restrictions (profile : PermissionProfile) : bool :=
  let policy := file_system_sandbox_policy profile in
  match profile with Managed _ _ => true | _ => false end
  && is_restricted policy && negb (has_full_disk_write_access policy).

Definition requires_prompt (policy : FileSystemSandboxPolicy) (sandbox_permissions : SandboxPermissions) : Decision :=
  match fsp_kind policy with
  | KindUnrestricted | KindExternalSandbox => Allow
  | KindRestricted => if requests_sandbox_override sandbox_permissions then Prompt else Allow
  end.

Section approval.
Context `{BashGrammar} `{Starlark} `{HostDirs} `{Shlex}.

Definition render_decision_for_unmatched_command (command : list string) (context : UnmatchedCommandContext) : Decision :=
  let approval_policy := cx_approval_policy context in
  let permission_profile := cx_permission_profile context in
  let policy := file_system_sandbox_policy permission_profile in
  let is_known_safe := is_known_safe_command command in
  let windows_managed_fs_restrictions_without_sandbox_backend :=
    cfg_windows
    && match cx_windows_sandbox_level context with WindowsDisabled => true | _ => false end
    && profile_has_managed_filesystem_restrictions permission_profile in
  if is_known_safe && negb (cx_used_complex_parsing context)
     && (match approval_policy with UnlessTrusted => true | _ => false end
         || windows_managed_fs_restrictions_without_sandbox_backend)
  then Allow
  else if command_might_be_dangerous command || windows_managed_fs_restrictions_without_sandbox_backend then
    match approval_policy with
    | Never => match permission_profile with Disabled | External _ => Allow | Managed _ _ => Forbidden end
    | OnFailure | OnRequest | UnlessTrusted | Granular _ => Prompt
    end
  else
    match approval_policy with
    | Never | OnFailure => Allow
    | UnlessTrusted => Prompt
    | OnRequest => requires_prompt policy (cx_sandbox_permissions context)
    | Granular _ => requires_prompt policy (cx_sandbox_permissions context)
    end.

Definition commands_for_exec_policy (command : list string) : ExecPolicyCommands :=
  match parse_shell_lc_plain_commands command with
  | Some (c :: cs) => mkCommands (c :: cs) false Generic
  | _ =>
      match parse_shell_lc_single_command_prefix command with
      | Some single_command => mkCommands [single_command] true Generic
      | None => mkCommands [command] false Generic
      end
  end.

(** ** Amendments *)

(** [find_map]. *)
Definition find_map {A B} (f : A → option B) (l : list A) : option B := head (omap f l).

Definition heuristics_command (d : Decision) (m : RuleMatch) : option ExecPolicyAmendment :=
  match m with
  | HeuristicsRuleMatch command decision => if decide (decision = d) then Some (mkAmendment command) else None
  | PrefixRuleMatch _ _ _ _ => None
  end.

Definition try_derive_execpolicy_amendment_for_prompt_rules (matched_rules : list RuleMatch) : option ExecPolicyAmendment :=
  if existsb (λ m, is_policy_match m && has_decision Prompt m) matched_rules then None
  else find_map (heuristics_command Prompt) matched_rules.

Definition try_derive_execpolicy_amendment_for_allow_rules (matched_rules : list RuleMatch) : option ExecPolicyAmendment :=
  if existsb is_policy_match matched_rules then None
  else find_map (heuristics_command Allow) matched_rules.

Definition decision_is_allow (r : res Evaluation) : res bool :=
  e ← r; Ok (bool_decide (ev_decision e = Allow)).

(** [iter().all(..)] of a check that could panic. *)
Fixpoint all_allowed (check : list string → res Evaluation) (commands : list (list string)) : res bool :=
  match commands with
  | [] => Ok true
  | command :: commands' =>
      allowed ← decision_is_allow (check command);
      if allowed : bool then all_allowed check commands' else Ok false
  end.

Definition prefix_rule_would_approve_all_commands (exec_policy : Policy) (prefix_rule : list string)
    (commands : list (list string)) (exec_policy_fallback : list string → Decision) (match_options : MatchOptions) : res bool :=
  match add_prefix_rule prefix_rule Allow exec_policy with
  | Bad _ => Ok false
  | Good policy_with_prefix_rule =>
      all_allowed (λ command, check_with_options policy_with_prefix_rule command exec_policy_fallback match_options) commands
  end.

Definition derive_requested_execpolicy_amendment_from_prefix_rule (prefix_rule : option (list string))
    (matched_rules : list RuleMatch) (exec_policy : Policy) (commands : list (list string))
    (exec_policy_fallback : list string → Decision) (match_options : MatchOptions) : res (option ExecPolicyAmendment) :=
  match prefix_rule with
  | None | Some [] => Ok None
  | Some prefix_rule =>
      if existsb (λ banned, bool_decide (prefix_rule = banned)) BANNED_PREFIX_SUGGESTIONS then Ok None
      else if existsb is_policy_match matched_rules then Ok None
      else
        approves ← prefix_rule_would_approve_all_commands exec_policy prefix_rule commands exec_policy_fallback match_options;
        Ok (if approves : bool then Some (mkAmendment prefix_rule) else None)
  end.

(** ** Reasons *)

Definition render_shlex_command (args : list string) : string := default (join " " args) (shlex_try_join args).

(** [max_by_key] on the length: the last of the longest. *)
Definition longest {A} (key : A → nat) (l : list A) : option A :=
  match l with
  | [] => None
  | x :: l' => Some (fold_left (λ best x, if (key best <=? key x)%nat then x else best) l' x)
  end.

Definition rule_with_decision (d : Decision) (m : RuleMatch) : option (list string * option string) :=
  match m with
  | PrefixRuleMatch matched_prefix decision _ justification =>
      if decide (decision = d) then Some (matched_prefix, justification) else None
  | HeuristicsRuleMatch _ _ => None
  end.

Definition most_specific (d : Decision) (e : Evaluation) : option (list string * option string) :=
  longest (λ m, length m.1) (omap (rule_with_decision d) (ev_matched_rules e)).

Definition derive_prompt_reason (command_args : list string) (e : Evaluation) : option string :=
  let command := render_shlex_command command_args in
  match most_specific Prompt e with
  | Some (_, Some justification) => Some ("`" +:+ command +:+ "` requires approval: " +:+ justification)
  | Some (_, None) => Some ("`" +:+ command +:+ "` requires approval by policy")
  | None => None
  end.

Definition derive_forbidden_reason (command_args : list string) (e : Evaluation) : string :=
  let command := render_shlex_command command_args in
  match most_specific Forbidden e with
  | Some (_, Some justification) => "`" +:+ command +:+ "` rejected: " +:+ justification
  | Some (matched_prefix, None) =>
      "`" +:+ command +:+ "` rejected: policy forbids commands starting with `" +:+ render_shlex_command matched_prefix +:+ "`"
  | None => "`" +:+ command +:+ "` rejected: blocked by policy"
  end.

(** ** The requirement for a command *)

Record ExecApprovalRequest := mkRequest {
  rq_command : list string;
  rq_approval_policy : AskForApproval;
  rq_permission_profile : PermissionProfile;
  rq_windows_sandbox_level : WindowsSandboxLevel;
  rq_sandbox_permissions : SandboxPermissions;
  rq_prefix_rule : option (list string)
}.

Definition manager_options : MatchOptions := mkMatchOptions true.

Definition exec_policy_fallback (req : ExecApprovalRequest) (cmd : list string) : Decision :=
  let cs := commands_for_exec_policy (rq_command req) in
  render_decision_for_unmatched_command cmd
    (mkContext (rq_approval_policy req) (rq_permission_profile req) (rq_windows_sandbox_level req)
       (rq_sandbox_permissions req) (epc_used_complex_parsing cs) (epc_command_origin cs)).

(** Is there a rule that allows the command by itself? *)
Definition explicitly_allowed (exec_policy : Policy) (command : list string) : bool :=
  existsb (λ m, is_policy_match m && has_decision Allow m)
    (matches_for_command_with_options exec_policy command None manager_options).

Definition create_exec_approval_requirement_for_command (exec_policy : Policy) (req : ExecApprovalRequest) : res ExecApprovalRequirement :=
  let command := rq_command req in
  let cs := commands_for_exec_policy command in
  let commands := epc_commands cs in
  let auto_amendment_allowed := negb (epc_used_complex_parsing cs) in
  evaluation ← check_multiple_with_options exec_policy commands (exec_policy_fallback req) manager_options;
  requested_amendment ←
    (if auto_amendment_allowed
     then derive_requested_execpolicy_amendment_from_prefix_rule (rq_prefix_rule req) (ev_matched_rules evaluation)
            exec_policy commands (exec_policy_fallback req) manager_options
     else Ok None);
  match ev_decision evaluation with
  | Forbidden => Ok (ForbiddenExec (derive_forbidden_reason command evaluation))
  | Prompt =>
      let prompt_is_rule := existsb (λ m, is_policy_match m && has_decision Prompt m) (ev_matched_rules evaluation) in
      match prompt_is_rejected_by_policy (rq_approval_policy req) prompt_is_rule with
      | Some reason => Ok (ForbiddenExec reason)
      | None =>
          Ok (NeedsApproval (derive_prompt_reason command evaluation)
                (match requested_amendment with
                 | Some a => Some a
                 | None => if auto_amendment_allowed
                           then try_derive_execpolicy_amendment_for_prompt_rules (ev_matched_rules evaluation)
                           else None
                 end))
      end
  | Allow =>
      Ok (Skip (forallb (explicitly_allowed exec_policy) commands)
            (if auto_amendment_allowed
             then try_derive_execpolicy_amendment_for_allow_rules (ev_matched_rules evaluation)
             else None))
  end.
End approval.

(** ** Updating the policy *)

Inductive ExecPolicyUpdateError `{Starlark} :=
| AppendRule (path : string) (source : AmendError)
| AddRule (source : Error).

Definition default_policy_path (codex_home : string) : string :=
  path_join (path_join codex_home "rules") "default.rules".

Section manager.
Context `{Unicode} `{Starlark} `{HostDirs} `{JsonLib} `{PolicyFs}.

(** The policy in memory and the file system; updates exclude each other. *)
Definition Manager : Type := Policy * pfs.

(** Would the rule change nothing? *)
Definition already_allowed (policy : Policy) (command : list string) : res bool :=
  existing_evaluation ← check_multiple_with_options policy [command] (λ _, Forbidden) manager_options;
  Ok (bool_decide (ev_decision existing_evaluation = Allow)
      && existsb (λ m, is_policy_match m && has_decision Allow m) (ev_matched_rules existing_evaluation)).

Definition append_amendment_and_update (codex_home : string) (amendment : ExecPolicyAmendment) (m : Manager)
    : res (result ExecPolicyUpdateError ()) * Manager :=
  let '(current_policy, w) := m in
  let policy_path := default_policy_path codex_home in
  match blocking_append_allow_prefix_rule policy_path (ea_command amendment) w with
  | (Bad source, w') => (Ok (Bad (AppendRule policy_path source)), (current_policy, w'))
  | (Good _, w') =>
      match already_allowed current_policy (ea_command amendment) with
      | Panic => (Panic, (current_policy, w'))
      | Err e => (Err e, (current_policy, w'))
      | Ok true => (Ok (Good ()), (current_policy, w'))
      | Ok false =>
          match add_prefix_rule (ea_command amendment) Allow current_policy with
          | Bad source => (Ok (Bad (AddRule source)), (current_policy, w'))
          | Good updated_policy => (Ok (Good ()), (updated_policy, w'))
          end
      end
  end.

Definition append_network_rule_and_update (codex_home host : string) (protocol : NetworkRuleProtocol)
    (decision : Decision) (justification : option string) (m : Manager) : result ExecPolicyUpdateError () * Manager :=
  let '(current_policy, w) := m in
  let policy_path := default_policy_path codex_home in
  match blocking_append_network_rule policy_path host protocol decision justification w with
  | (Bad source, w') => (Bad (AppendRule policy_path source), (current_policy, w'))
  | (Good _, w') =>
      match add_network_rule host protocol decision justification current_policy with
      | Bad source => (Bad (AddRule source), (current_policy, w'))
      | Good updated_policy => (Good (), (updated_policy, w'))
      end
  end.
End manager.

(** ** Loading the policy *)

Inductive ConfigLayerSource :=
| Mdm (domain key : string)
| SystemLayer (file : string)
| EnterpriseManaged (id name : string)
| UserLayer (file : string) (profile : option string)
| ProjectLayer (dot_codex_folder : string)
| SessionFlags
| LegacyManagedConfigTomlFromFile (file : string)
| LegacyManagedConfigTomlFromMdm.

Record ConfigLayerEntry := mkLayer { layer_name : ConfigLayerSource; disabled_reason : option string }.

Definition config_folder (l : ConfigLayerEntry) : option string :=
  match layer_name l with
  | SystemLayer file | UserLayer file _ => path_parent file
  | ProjectLayer dot_codex_folder => Some dot_codex_folder
  | _ => None
  end.

(** The stack as far as policies are concerned; lowest precedence first. *)
Record ConfigLayerStack := mkStack {
  stack_layers : list ConfigLayerEntry;
  requirements_exec_policy : option Policy;
  ignore_user_and_project_exec_policy_rules : bool
}.

(** [get_layers(LowestPrecedenceFirst, false)]. *)
Definition get_layers (s : ConfigLayerStack) : list ConfigLayerEntry :=
  List.filter (λ l, match disabled_reason l with None => true | Some _ => false end) (stack_layers s).

Definition is_user_or_project (l : ConfigLayerEntry) : bool :=
  match layer_name l with UserLayer _ _ | ProjectLayer _ => true | _ => false end.

Inductive ExecPolicyError `{Starlark} :=
| ReadDir (dir source : string)
| ReadFile (path source : string)
| ParsePolicy (path : string) (source : Error).

(** Reading a directory: it is missing, cannot be read, or has entries, each a
    path and whether it is a file, the reading of which can stop with an error. *)
Inductive DirListing := NoDirectory | DirError (source : string) | DirEntries (entries : list (string * bool)) (stopped : option string).

Class RulesDirs := { read_rules_dir : string → DirListing }.

(** [Path::extension]. *)
Fixpoint after_last_dot (s : string) : option string :=
  match s with
  | EmptyString => None
  | String a s' =>
      match after_last_dot s' with
      | Some t => Some t
      | None => if Ascii.eqb a "."%char then Some s' else None
      end
  end.

Definition extension (path : string) : option string :=
  name ← file_name path;
  match before_last_dot name with
  | Some "" | None => None
  | Some _ => after_last_dot name
  end.

Section load.
Context `{Unicode} `{HostDirs} `{Shlex} `{StarlarkEval} `{Os} `{RulesDirs} (o : os).

Definition is_rules_file (entry : string * bool) : bool :=
  bool_decide (extension entry.1 = Some "rules") && entry.2.

Definition collect_policy_files (dir : string) : result ExecPolicyError (list string) :=
  match read_rules_dir dir with
  | NoDirectory => Good []
  | DirError source => Bad (ReadDir dir source)
  | DirEntries _ (Some source) => Bad (ReadDir dir source)
  | DirEntries entries None => Good (sort_by path_le (map fst (List.filter is_rules_file entries)))
  end.

Fixpoint collect_layers (ignore : bool) (layers : list ConfigLayerEntry) (policy_paths : list string) : result ExecPolicyError (list string) :=
  match layers with
  | [] => Good policy_paths
  | layer :: layers' =>
      if ignore && is_user_or_project layer then collect_layers ignore layers' policy_paths
      else match config_folder layer with
           | None => collect_layers ignore layers' policy_paths
           | Some folder =>
               layer_policy_paths ← collect_policy_files (abs_join home_dir folder "rules");
               collect_layers ignore layers' (policy_paths ++ layer_policy_paths)
           end
  end.

Fixpoint parse_files (policy_paths : list string) (b : PolicyBuilder) : result ExecPolicyError PolicyBuilder :=
  match policy_paths with
  | [] => Good b
  | policy_path :: rest =>
      match read_to_string o policy_path with
      | IoErr source => Bad (ReadFile policy_path source)
      | IoOk contents =>
          match parse policy_path contents b with
          | (Bad source, _) => Bad (ParsePolicy policy_path source)
          | (Good _, b') => parse_files rest b'
          end
      end
  end.

Definition load_exec_policy (stack : ConfigLayerStack) : result ExecPolicyError Policy :=
  policy_paths ← collect_layers (ignore_user_and_project_exec_policy_rules stack) (get_layers stack) [];
  b ← parse_files policy_paths builder_new;
  let policy := build b in
  match requirements_exec_policy stack with
  | None => Good policy
  | Some requirements_policy => Good (merge_overlay policy requirements_policy)
  end.

Definition load_exec_policy_with_warning (stack : ConfigLayerStack) : result ExecPolicyError (Policy * option ExecPolicyError) :=
  match load_exec_policy stack with
  | Good policy => Good (policy, None)
  | Bad (ParsePolicy path source) => Good (policy_empty, Some (ParsePolicy path source))
  | Bad err => Bad err
  end.

Definition check_execpolicy_for_warnings (stack : ConfigLayerStack) : result ExecPolicyError (option ExecPolicyError) :=
  '(_, warning) ← load_exec_policy_with_warning stack; Good warning.

(** [ExecPolicyManager::load]. *)
Definition manager_load (stack : ConfigLayerStack) : result ExecPolicyError Policy :=
  '(policy, _) ← load_exec_policy_with_warning stack; Good policy.
End load.

(** ** Showing an error *)

Section display.
Context `{Unicode} `{Starlark}.

Definition exec_policy_error_text (e : ExecPolicyError) : string :=
  match e with
  | ReadDir dir source => "failed to read rules files from " +:+ dir +:+ ": " +:+ source
  | ReadFile path source => "failed to read rules file " +:+ path +:+ ": " +:+ source
  | ParsePolicy path source => "failed to parse rules file " +:+ path +:+ ": " +:+ error_text source
  end.

Definition exec_policy_message_for_display (source : Error) : string :=
  let message := error_text source in
  match find_first (λ line, starts_with (trim_start line) "error: ") (lines message) with
  | Some line => line
  | None =>
      match (first_line ← head (lines message); rsplit_once ": starlark error: " first_line) with
      | Some (_, detail) => trim detail
      | None => trim (default "" (head (lines message)))
      end
  end.

Definition parse_starlark_line_from_message (message : string) : option (string * usize) :=
  first_line ← trim <$> head (lines message);
  path_and_position ← fst <$> rsplit_once ": starlark error:" first_line;
  '(path_and_line, column) ← rsplit_once ":" path_and_position;
  _ ← parse_uint usize_max column;
  '(path, line) ← rsplit_once ":" path_and_line;
  line ← parse_uint usize_max line;
  if (line =? 0)%N then None else Some (path, line).

Definition format_exec_policy_error_with_source (e : ExecPolicyError) : string :=
  match e with
  | ParsePolicy path source =>
      let structured_location := (λ l, (el_path l, tp_line (tr_start (el_range l)))) <$> location source in
      let parsed_location := parse_starlark_line_from_message (error_text source) in
      let location :=
        match structured_location, parsed_location with
        | Some (p, l), Some (parsed_path, parsed_line) =>
            if (l =? 1)%N && (1 <? parsed_line)%N then Some (parsed_path, parsed_line) else Some (p, l)
        | Some structured, None => Some structured
        | None, parsed => parsed
        end in
      let message := exec_policy_message_for_display source in
      match location with
      | Some (path, line) =>
          path +:+ ":" +:+ pretty line +:+ ": " +:+ message +:+ " (problem is on or around line " +:+ pretty line +:+ ")"
      | None => path +:+ ": " +:+ message
      end
  | _ => exec_policy_error_text e
  end.
End display.

(** ** Sandboxing of the first attempt (tools/sandboxing.rs) *)

Definition default_exec_approval_requirement (policy : AskForApproval) (fs : FileSystemSandboxPolicy) : ExecApprovalRequirement :=
  let needs_approval :=
    match policy with
    | Never | OnFailure => false
    | OnRequest | Granular _ => is_restricted fs
    | UnlessTrusted => true
    end in
  if needs_approval && match policy with Granular c => negb (sandbox_approval c) | _ => false end
  then ForbiddenExec "approval policy disallowed sandbox approval prompt"
  else if needs_approval then NeedsApproval None None
  else Skip false None.

Inductive SandboxOverride := NoOverride | BypassSandboxFirstAttempt.

Definition unsandboxed_execution_allowed (fs : FileSystemSandboxPolicy) : bool := negb (has_denied_read_restrictions fs).

Definition sandbox_override_for_first_attempt (sandbox_permissions : SandboxPermissions) (r : ExecApprovalRequirement)
    (fs : FileSystemSandboxPolicy) : SandboxOverride :=
  if negb (unsandboxed_execution_allowed fs) then NoOverride
  else if match r with Skip true _ => true | _ => false end then BypassSandboxFirstAttempt
  else if requires_escalated_permissions sandbox_permissions then BypassSandboxFirstAttempt
  else NoOverride.

Definition sandbox_permissions_preserving_denied_reads (sandbox_permissions : SandboxPermissions) (fs : FileSystemSandboxPolicy) : SandboxPermissions :=
  if requires_escalated_permissions sandbox_permissions && negb (unsandboxed_execution_allowed fs)
  then UseDefault else sandbox_permissions.
