(* ===== verification/SandboxManager.v ===== *)
(** * Choosing and building a sandbox (sandboxing: manager.rs, landlock.rs and
    the detection of WSL of bwrap.rs)

    Whether a command runs in the sandbox of the platform, and the command line
    of the Linux helper that carries the effective profile. *)

From S2P Require Import Prelude RustStr Os Utf8 AbsPath Permissions SandboxRoots PermissionsFacts PolicyTransforms ExecApproval.

#[local] Open Scope nat_scope.

(** ** manager.rs *)

Inductive SandboxType := SandboxNone | MacosSeatbelt | LinuxSeccomp | WindowsRestrictedToken.

#[export] Instance SandboxType_eq_dec : EqDecision SandboxType.
Proof. solve_decision. Defined.

Definition as_metric_tag (s : SandboxType) : string :=
  match s with
  | SandboxNone => "none"
  | MacosSeatbelt => "seatbelt"
  | LinuxSeccomp => "seccomp"
  | WindowsRestrictedToken => "windows_sandbox"
  end.

Inductive SandboxablePreference := PreferAuto | PreferRequire | PreferForbid.

(** The operating system the program is built for. *)
Inductive TargetOs := TargetMacos | TargetLinux | TargetWindows | TargetOther.

Definition get_platform_sandbox (target : TargetOs) (windows_sandbox_enabled : bool) : option SandboxType :=
  match target with
  | TargetMacos => Some MacosSeatbelt
  | TargetLinux => Some LinuxSeccomp
  | TargetWindows => if windows_sandbox_enabled then Some WindowsRestrictedToken else None
  | TargetOther => None
  end.

Definition windows_enabled (l : WindowsSandboxLevel) : bool :=
  match l with WindowsDisabled => false | _ => true end.

Definition select_initial (target : TargetOs) (p : FileSystemSandboxPolicy) (n : NetworkSandboxPolicy)
    (pref : SandboxablePreference) (level : WindowsSandboxLevel) (has_managed_network_requirements : bool) : SandboxType :=
  match pref with
  | PreferForbid => SandboxNone
  | PreferRequire => default SandboxNone (get_platform_sandbox target (windows_enabled level))
  | PreferAuto =>
      if should_require_platform_sandbox p n has_managed_network_requirements
      then default SandboxNone (get_platform_sandbox target (windows_enabled level))
      else SandboxNone
  end.

(** A proxy, as far as the sandbox looks at it. *)
Record NetworkProxy := mkNetworkProxy { managed_mitm_ca_trust_bundle_path : option string }.

Record SandboxCommand := mkSandboxCommand {
  sc_program : string;
  sc_args : list string;
  sc_cwd : string;
  sc_env : gmap string string;
  sc_additional_permissions : option AdditionalPermissionProfile
}.

Record SandboxExecRequest := mkExecRequest {
  er_command : list string;
  er_cwd : string;
  er_env : gmap string string;
  er_network : option NetworkProxy;
  er_sandbox : SandboxType;
  er_permission_profile : PermissionProfile;
  er_file_system_sandbox_policy : FileSystemSandboxPolicy;
  er_network_sandbox_policy : NetworkSandboxPolicy;
  er_arg0 : option string
}.

Record SandboxTransformRequest := mkTransformRequest {
  tr_command : SandboxCommand;
  tr_permissions : PermissionProfile;
  tr_sandbox : SandboxType;
  tr_enforce_managed_network : bool;
  tr_network : option NetworkProxy;
  tr_sandbox_policy_cwd : string;
  tr_codex_linux_sandbox_exe : option string;
  tr_use_legacy_landlock : bool
}.

Inductive SandboxTransformError := MissingLinuxSandboxExecutable | Wsl1UnsupportedForBubblewrap | SeatbeltUnavailable.

(** ** landlock.rs *)

Definition CODEX_LINUX_SANDBOX_ARG0 : string := "codex-linux-sandbox".

Definition allow_network_for_proxy (enforce_managed_network : bool) : bool := enforce_managed_network.

(** The JSON of a profile, which is what the helper reads; there is none for a
    profile that does not serialize, as with a path that is not UTF-8. *)
Class ProfileJson := { profile_json : PermissionProfile → option string }.

(** [Option::unwrap_or_else] with a panic. *)
Definition or_panic {A} (x : option A) : res A := match x with Some a => Ok a | None => Panic end.

(** [Path::to_str]. *)
Definition to_str (path : string) : option string := match utf8_error path with None => Some path | Some _ => None end.

Definition linux_flags (use_legacy_landlock allow_network : bool) : list string :=
  (if use_legacy_landlock && negb allow_network then ["--use-legacy-landlock"] else [])
  ++ (if allow_network then ["--allow-network-for-proxy"] else []).

Definition create_linux_sandbox_command_args_for_permission_profile `{ProfileJson} (command : list string) (command_cwd : string)
    (profile : PermissionProfile) (sandbox_policy_cwd : string) (use_legacy_landlock allow_network : bool) : res (list string) :=
  permission_profile_json ← or_panic (profile_json profile);
  sandbox_policy_cwd ← or_panic (to_str sandbox_policy_cwd);
  command_cwd ← or_panic (to_str command_cwd);
  Ok (["--sandbox-policy-cwd"; sandbox_policy_cwd; "--command-cwd"; command_cwd; "--permission-profile"; permission_profile_json]
      ++ linux_flags use_legacy_landlock allow_network ++ ["--"] ++ command).

(** [OsString::into_string], or what can be read of it. *)
Definition os_string_to_command_component (value : string) : string := from_utf8_lossy value.

Definition os_argv_to_strings (argv : list string) : list string := map os_string_to_command_component argv.

Definition linux_sandbox_arg0_override (exe : string) : string :=
  if bool_decide (file_name exe ≫= to_str = Some CODEX_LINUX_SANDBOX_ARG0) then os_string_to_command_component exe else CODEX_LINUX_SANDBOX_ARG0.

(** ** bwrap.rs: is this WSL of the first version? *)

Fixpoint take_digits (s : string) : string :=
  match s with
  | String a s' => if is_ascii_digit a then String a (take_digits s') else EmptyString
  | EmptyString => EmptyString
  end.

(** The loop over the occurrences of [wsl]; each leaves a shorter text. *)
Fixpoint wsl_version (fuel : nat) (remaining : string) : option N :=
  match fuel with
  | O => None
  | S fuel' =>
      match str_find "wsl" remaining with
      | None => None
      | Some marker =>
          let rest := str_drop (marker + 3) remaining in
          match parse_uint u32_max (take_digits rest) with
          | Some version => Some version
          | None => wsl_version fuel' rest
          end
      end
  end.

Definition proc_version_indicates_wsl1 (proc_version : string) : bool :=
  let proc_version := str_map ascii_lower proc_version in
  match wsl_version (S (String.length proc_version)) proc_version with
  | Some version => (version =? 1)%N
  | None => str_contains proc_version "microsoft" && negb (str_contains proc_version "microsoft-standard")
  end.

Definition ensure_linux_bubblewrap_is_supported (p : FileSystemSandboxPolicy) (use_legacy_landlock allow_network is_wsl1 : bool) : SandboxTransformError + () :=
  let requires_bubblewrap := allow_network || (negb use_legacy_landlock && negb (has_full_disk_write_access p)) in
  if is_wsl1 && requires_bubblewrap then inl Wsl1UnsupportedForBubblewrap else inr ().

(** ** Building the command *)

Section manager.
Context `{SandboxHost} `{HostDirs} `{ProfileJson} (o : os).

Definition is_wsl1 : bool :=
  match read_to_string o "/proc/version" with
  | IoOk proc_version => proc_version_indicates_wsl1 proc_version
  | IoErr _ => false
  end.

Definition with_managed_mitm_ca_readable_root (profile : PermissionProfile) (bundle : option string) (sandbox_policy_cwd : string) : res PermissionProfile :=
  match bundle with
  | None => Ok profile
  | Some bundle =>
      let '(file_system, network) := to_runtime_permissions profile in
      from_runtime_permissions_with_enforcement (enforcement profile)
        (with_additional_readable_roots o file_system sandbox_policy_cwd [bundle]) network
  end.

(** The command line and the name the program is called by, on Linux. *)
Definition sandboxed_argv (req : SandboxTransformRequest) (profile : PermissionProfile) (argv : list string) :
    res (SandboxTransformError + list string * option string) :=
  match tr_sandbox req with
  | SandboxNone | WindowsRestrictedToken => Ok (inr (os_argv_to_strings argv, None))
  | MacosSeatbelt => Ok (inl SeatbeltUnavailable)
  | LinuxSeccomp =>
      match tr_codex_linux_sandbox_exe req with
      | None => Ok (inl MissingLinuxSandboxExecutable)
      | Some exe =>
          let allow_proxy_network := allow_network_for_proxy (tr_enforce_managed_network req) in
          match ensure_linux_bubblewrap_is_supported (file_system_sandbox_policy profile) (tr_use_legacy_landlock req)
                  allow_proxy_network is_wsl1 with
          | inl e => Ok (inl e)
          | inr _ =>
              args ← create_linux_sandbox_command_args_for_permission_profile (os_argv_to_strings argv) (sc_cwd (tr_command req)) profile
                       (tr_sandbox_policy_cwd req) (tr_use_legacy_landlock req) allow_proxy_network;
              Ok (inr (os_string_to_command_component exe :: args, Some (linux_sandbox_arg0_override exe)))
          end
      end
  end.

Definition transform (req : SandboxTransformRequest) : res (SandboxTransformError + SandboxExecRequest) :=
  let command := tr_command req in
  effective ← effective_permission_profile (tr_permissions req) (sc_additional_permissions command);
  effective ← with_managed_mitm_ca_readable_root effective
                (proxy ← tr_network req; managed_mitm_ca_trust_bundle_path proxy) (tr_sandbox_policy_cwd req);
  let '(file_system, network) := to_runtime_permissions effective in
  built ← sandboxed_argv req effective (sc_program command :: sc_args command);
  Ok (match built with
      | inl e => inl e
      | inr (argv, arg0) =>
          inr (mkExecRequest argv (sc_cwd command) (sc_env command) (tr_network req) (tr_sandbox req)
                 effective file_system network arg0)
      end).

(** ** Older policies *)

Definition compatibility_workspace_write_policy (p : FileSystemSandboxPolicy) (n : NetworkSandboxPolicy) (cwd : string) : SandboxPolicy :=
  let cwd_abs := ok (try_absolute cwd) in
  let writable_roots :=
    List.filter (λ root, negb (opt_path_eqb cwd_abs (Some root))) (map wr_root (get_writable_roots_with_cwd o p cwd)) in
  let tmpdir_writable :=
    match opt_filter (λ t, negb (str_is_empty t)) tmpdir_var ≫= (λ t, ok (try_absolute t)) with
    | Some tmpdir => can_write_path_with_cwd o p tmpdir cwd
    | None => false
    end in
  let slash_tmp_writable := has_root "/tmp" && is_dir o "/tmp" && can_write_path_with_cwd o p "/tmp" cwd in
  WorkspaceWrite writable_roots (net_is_enabled n) (negb tmpdir_writable) (negb slash_tmp_writable).

Definition compatibility_sandbox_policy_for_permission_profile (profile : PermissionProfile) (cwd : string) : SandboxPolicy :=
  match profile_to_legacy o profile cwd with
  | IoOk policy => policy
  | IoErr _ =>
      let '(file_system, network) := to_runtime_permissions profile in
      compatibility_workspace_write_policy file_system network cwd
  end.
End manager.

(** ** What the sandbox is given *)

(** The fuel is enough: with more of it nothing else is found. *)
Lemma wsl_version_fuel fuel s : (String.length s < fuel)%nat → wsl_version fuel s = wsl_version (S fuel) s.
Proof.
  revert s. induction fuel as [|fuel IH]; intros s Hl; [lia|]. cbn [wsl_version].
  destruct (str_find "wsl" s) as [m|] eqn:E; [|done]. destruct (parse_uint _ _); [done|].
  rewrite IH; [done|]. rewrite str_drop_length. enough (0 < String.length s)%nat by lia.
  destruct s; [done|]. cbn. lia.
Qed.

Section transform_facts.
Context `{HOs : Os} {HSb : SandboxHost} `{HD : HostDirs} `{HJ : ProfileJson} (o : os).

(** A bundle adds an entry for reading it, at most. *)
Lemma readable_root_entries p cwd b :
  let p' := with_additional_readable_roots o p cwd [b] in
  fsp_kind p' = fsp_kind p ∧ (∀ e, e ∈ fsp_entries p → e ∈ fsp_entries p') ∧
  ∀ e, e ∈ fsp_entries p' → e ∈ fsp_entries p ∨ e = mkEntry (PathEntry b) AccessRead.
Proof.
  unfold with_additional_readable_roots. destruct (has_full_disk_read_access p); [by split_and!; [| |left]|]. cbn [fold_left].
  destruct (can_read_path_with_cwd o p b cwd); [by split_and!; [| |left]|]. cbn. set_solver.
Qed.

(** What is left of a policy after a round through a profile. *)
Lemma from_runtime_total e p n :
  ∃ profile, from_runtime_permissions_with_enforcement e p n = Ok profile ∧
    fsp_kind (file_system_sandbox_policy profile) = fsp_kind p ∧
    (fsp_kind p = KindRestricted → fsp_entries (file_system_sandbox_policy profile) = fsp_entries p) ∧
    (network_sandbox_policy profile = n ∨ (e = EnforceDisabled ∧ fsp_kind p = KindUnrestricted ∧ profile = Disabled)).
Proof.
  unfold from_runtime_permissions_with_enforcement, from_sandbox_policy.
  destruct (fsp_kind p) eqn:Ek, e; cbn; eexists; split_and!; (by eauto) || done.
Qed.

Definition additional_entries (a : option AdditionalPermissionProfile) : list FileSystemSandboxEntry :=
  default [] (a ← a; f ← ap_file_system a; Some (fp_entries f)).

Lemma effective_entries p a :
  let p' := effective_file_system_sandbox_policy p a in
  fsp_kind p' = fsp_kind p ∧ (∀ e, e ∈ fsp_entries p → e ∈ fsp_entries p') ∧
  ∀ e, e ∈ fsp_entries p' → e ∈ fsp_entries p ∨ e ∈ additional_entries a.
Proof.
  unfold effective_file_system_sandbox_policy. destruct a as [[n [f|]]|]; cbn; [|by split_and!; [| |left]..].
  destruct (fs_permissions_empty f); [by split_and!; [| |left]|]. unfold merge_file_system_policy_with_additional_permissions.
  destruct (fsp_kind p) eqn:Ek; [|by split_and!; [..|left]|by split_and!; [..|left]]. cbn.
  split; [done|]. split; [intros e He; by apply push_all_once|]. intros e. apply push_all_from.
Qed.

Lemma effective_network n a :
  net_is_enabled (effective_network_sandbox_policy n a) = true →
  net_is_enabled n = true ∨ ∃ a', a = Some a' ∧ is_enabled (ap_network a') = true.
Proof.
  unfold effective_network_sandbox_policy, merge_network_access. destruct a as [a'|]; [|by left].
  destruct (net_is_enabled n); [by left|]. cbn. destruct (ap_network a') as [[[[]|]]|] eqn:E; cbn; try done.
  right. exists a'. by rewrite E.
Qed.

Lemma disabled_enforcement profile :
  enforcement profile = EnforceDisabled → net_is_enabled (network_sandbox_policy profile) = true.
Proof. by destruct profile. Qed.

(** The profile of the request with what is added to it. *)
Lemma effective_profile req :
  let base := tr_permissions req in let add := sc_additional_permissions (tr_command req) in
  let bundle := proxy ← tr_network req; managed_mitm_ca_trust_bundle_path proxy in
  ∃ p1 p2, effective_permission_profile base add = Ok p1 ∧ with_managed_mitm_ca_readable_root o p1 bundle (tr_sandbox_policy_cwd req) = Ok p2 ∧
    fsp_kind (file_system_sandbox_policy p2) = fsp_kind (file_system_sandbox_policy base) ∧
    (fsp_kind (file_system_sandbox_policy base) = KindRestricted →
       (∀ e, e ∈ fsp_entries (file_system_sandbox_policy base) → e ∈ fsp_entries (file_system_sandbox_policy p2)) ∧
       ∀ e, e ∈ fsp_entries (file_system_sandbox_policy p2) →
         e ∈ fsp_entries (file_system_sandbox_policy base) ∨ e ∈ additional_entries add ∨
         ∃ b, bundle = Some b ∧ e = mkEntry (PathEntry b) AccessRead) ∧
    (net_is_enabled (network_sandbox_policy p2) = true →
       net_is_enabled (network_sandbox_policy base) = true ∨ ∃ a, add = Some a ∧ is_enabled (ap_network a) = true).
Proof.
  intros base add bundle. unfold effective_permission_profile. cbn [to_runtime_permissions].
  destruct (effective_entries (file_system_sandbox_policy base) add) as (Ek & Ein & Eout).
  destruct (from_runtime_total (enforcement base) (effective_file_system_sandbox_policy (file_system_sandbox_policy base) add)
    (effective_network_sandbox_policy (network_sandbox_policy base) add)) as (p1 & E1 & K1 & F1 & N1). exists p1.
  assert (net_is_enabled (network_sandbox_policy p1) = true → net_is_enabled (network_sandbox_policy base) = true ∨
    ∃ a, add = Some a ∧ is_enabled (ap_network a) = true) as Hn1.
  { destruct N1 as [->|(Hd & _)]; [by apply effective_network|]. intros _. left. by apply disabled_enforcement. }
  rewrite Ek in K1, F1. destruct bundle as [b|] eqn:Eb; cbn [with_managed_mitm_ca_readable_root].
  - cbn [to_runtime_permissions]. destruct (readable_root_entries (file_system_sandbox_policy p1) (tr_sandbox_policy_cwd req) b) as (Rk & Rin & Rout).
    destruct (from_runtime_total (enforcement p1) (with_additional_readable_roots o (file_system_sandbox_policy p1)
      (tr_sandbox_policy_cwd req) [b]) (network_sandbox_policy p1)) as (p2 & E2 & K2 & F2 & N2). rewrite Rk, K1 in K2, F2.
    exists p2. split_and!; [done|done|done| |].
    + intros Hr. rewrite F2 by done. rewrite F1 in Rin, Rout by done. split; [auto|]. intros e [[?|?]%Eout|?]%Rout; [auto|auto|]. right. right. eauto.
    + intros Hn. apply Hn1. destruct N2 as [E|(Hd & _)]; [by rewrite E in Hn|by apply disabled_enforcement].
  - exists p1. split_and!; [done|done|done| |done]. intros Hr. rewrite F1 by done. split; [done|]. intros e [?|?]%Eout; auto.
Qed.

Lemma args_built command command_cwd profile policy_cwd legacy network :
  match create_linux_sandbox_command_args_for_permission_profile command command_cwd profile policy_cwd legacy network with
  | Ok args => ∃ json, profile_json profile = Some json ∧
      args = ["--sandbox-policy-cwd"; policy_cwd; "--command-cwd"; command_cwd; "--permission-profile"; json]
             ++ linux_flags legacy network ++ "--" :: command
  | Err _ => False
  | Panic => profile_json profile = None ∨ ¬ valid policy_cwd ∨ ¬ valid command_cwd
  end.
Proof.
  unfold create_linux_sandbox_command_args_for_permission_profile, to_str, valid. destruct (profile_json profile) as [json|]; cbn; [|by left].
  destruct (utf8_error policy_cwd); cbn; [right; by left|]. destruct (utf8_error command_cwd); cbn; [right; by right|]. by exists json.
Qed.

Lemma argv_built req profile argv :
  match sandboxed_argv o req profile argv with
  | Ok (inl _) => True
  | Ok (inr (argv', arg0)) =>
      match tr_sandbox req with
      | LinuxSeccomp => ∃ exe json, tr_codex_linux_sandbox_exe req = Some exe ∧ profile_json profile = Some json ∧
          argv' = os_string_to_command_component exe ::
            ["--sandbox-policy-cwd"; tr_sandbox_policy_cwd req; "--command-cwd"; sc_cwd (tr_command req); "--permission-profile"; json]
            ++ (if tr_use_legacy_landlock req && negb (tr_enforce_managed_network req) then ["--use-legacy-landlock"] else [])
            ++ (if tr_enforce_managed_network req then ["--allow-network-for-proxy"] else []) ++ "--" :: os_argv_to_strings argv
      | _ => argv' = os_argv_to_strings argv ∧ arg0 = None
      end
  | Err _ => False
  | Panic => tr_sandbox req = LinuxSeccomp ∧ (profile_json profile = None ∨ ¬ valid (tr_sandbox_policy_cwd req) ∨ ¬ valid (sc_cwd (tr_command req)))
  end.
Proof.
  unfold sandboxed_argv, allow_network_for_proxy. destruct (tr_sandbox req); [done|done| |done].
  destruct (tr_codex_linux_sandbox_exe req) as [exe|]; [|done]. destruct (ensure_linux_bubblewrap_is_supported _ _ _ _); [done|].
  pose proof (args_built (os_argv_to_strings argv) (sc_cwd (tr_command req)) profile (tr_sandbox_policy_cwd req) (tr_use_legacy_landlock req)
    (tr_enforce_managed_network req)) as Ha.
  destruct (create_linux_sandbox_command_args_for_permission_profile _ _ _ _ _ _) as [args|e|]; cbn; [|done|done].
  destruct Ha as (json & Ej & ->). exists exe, json. split_and!; [done|done|]. unfold linux_flags. by rewrite <- !app_assoc.
Qed.

(** C34. The command is built for the permissions that were asked for and nothing
    wider.  Building it panics only for the Linux helper, when the profile does not
    serialize or one of the two directories is not UTF-8.  Otherwise the sandbox,
    the directory and the environment are those of the request; in a managed
    sandbox every entry of the profile is still there, denials among them, and
    every other entry is one of the additional permissions or lets the bundle of
    the proxy be read; the network is on only if the profile or the additional
    permissions have it on; and the Linux helper is given that very profile, the
    flags of the request and, after [--], the command. *)
Theorem transform_sound req :
  let base := tr_permissions req in let command := tr_command req in
  let argv := os_argv_to_strings (sc_program command :: sc_args command) in
  (∀ e, transform o req ≠ Err e) ∧
  (transform o req = Panic → tr_sandbox req = LinuxSeccomp ∧
     ((∃ p1 p2, effective_permission_profile base (sc_additional_permissions command) = Ok p1 ∧
         with_managed_mitm_ca_readable_root o p1 (proxy ← tr_network req; managed_mitm_ca_trust_bundle_path proxy) (tr_sandbox_policy_cwd req) = Ok p2 ∧
         profile_json p2 = None) ∨ ¬ valid (tr_sandbox_policy_cwd req) ∨ ¬ valid (sc_cwd command))) ∧
  ∀ r, transform o req = Ok (inr r) →
    er_sandbox r = tr_sandbox req ∧ er_cwd r = sc_cwd command ∧ er_env r = sc_env command ∧
    to_runtime_permissions (er_permission_profile r) = (er_file_system_sandbox_policy r, er_network_sandbox_policy r) ∧
    fsp_kind (er_file_system_sandbox_policy r) = fsp_kind (file_system_sandbox_policy base) ∧
    (fsp_kind (file_system_sandbox_policy base) = KindRestricted →
       (∀ e, e ∈ fsp_entries (file_system_sandbox_policy base) → e ∈ fsp_entries (er_file_system_sandbox_policy r)) ∧
       ∀ e, e ∈ fsp_entries (er_file_system_sandbox_policy r) →
         e ∈ fsp_entries (file_system_sandbox_policy base) ∨ e ∈ additional_entries (sc_additional_permissions command) ∨
         ∃ proxy b, tr_network req = Some proxy ∧ managed_mitm_ca_trust_bundle_path proxy = Some b ∧ e = mkEntry (PathEntry b) AccessRead) ∧
    (net_is_enabled (er_network_sandbox_policy r) = true →
       net_is_enabled (network_sandbox_policy base) = true ∨
       ∃ a, sc_additional_permissions command = Some a ∧ is_enabled (ap_network a) = true) ∧
    match tr_sandbox req with
    | LinuxSeccomp => ∃ exe json, tr_codex_linux_sandbox_exe req = Some exe ∧ profile_json (er_permission_profile r) = Some json ∧
        er_command r = os_string_to_command_component exe ::
          ["--sandbox-policy-cwd"; tr_sandbox_policy_cwd req; "--command-cwd"; sc_cwd command; "--permission-profile"; json]
          ++ (if tr_use_legacy_landlock req && negb (tr_enforce_managed_network req) then ["--use-legacy-landlock"] else [])
          ++ (if tr_enforce_managed_network req then ["--allow-network-for-proxy"] else []) ++ "--" :: argv
    | _ => er_command r = argv ∧ er_arg0 r = None
    end.
Proof.
  intros base command argv. destruct (effective_profile req) as (p1 & p2 & E1 & E2 & Hk & He & Hn).
  assert (transform o req = (built ← sandboxed_argv o req p2 (sc_program command :: sc_args command);
    Ok (match built with
        | inl e => inl e
        | inr (argv, arg0) => inr (mkExecRequest argv (sc_cwd command) (sc_env command) (tr_network req) (tr_sandbox req) p2
              (file_system_sandbox_policy p2) (network_sandbox_policy p2) arg0)
        end))) as Et by (unfold transform; rewrite E1; cbn [mbind res_bind]; by rewrite E2).
  rewrite Et. pose proof (argv_built req p2 (sc_program command :: sc_args command)) as Hb.
  destruct (sandboxed_argv o req p2 _) as [[e|[argv' arg0]]|e|]; cbn [mbind res_bind]; [done| |done|].
  - split_and!; [done|done|]. intros r [= <-]. cbn. split_and!; [done..| |done|done]. intros Hr. destruct (He Hr) as [Hin Hout]. split; [done|].
    intros e [?|[?|(b & Eb & ?)]]%Hout; [auto|auto|]. right. right. destruct (tr_network req) as [proxy|]; [|done]. eauto.
  - split_and!; [done| |done]. intros _. destruct Hb as [? [?|?]]; [|auto]. split; [done|]. left. by exists p1, p2.
Qed.
End transform_facts.

(** The Linux helper is not called from a directory whose name is not UTF-8. *)
Example transform_panics `{HOs : Os} {HSb : SandboxHost} `{HD : HostDirs} `{HJ : ProfileJson} (o : os) :
  let cwd := String "/"%char (String (ascii_of_N 255) "") in
  transform o (mkTransformRequest (mkSandboxCommand "ls" [] cwd ∅ None) Disabled LinuxSeccomp false None "/w" (Some "/helper") true) = Panic.
Proof.
  unfold transform, sandboxed_argv, ensure_linux_bubblewrap_is_supported, create_linux_sandbox_command_args_for_permission_profile. cbn.
  rewrite andb_false_r. by destruct (profile_json _).
Qed.
