(* ===== verification/ExecApprovalFacts.v ===== *)
(** * What the approval of commands guarantees (core: exec_policy.rs,
    tools/sandboxing.rs)

    A command is split into segments; each is decided by the strictest of the
    rules that match it, or by the fallback, and the strictest segment decides
    the command.  From this follow when a command runs without a question, when
    it leaves the sandbox, and what an accepted amendment changes. *)

From S2P Require Import Prelude RustStr Json Os AbsPath CommandSafety ExecPolicy ExecPolicyFacts ExecRules ExecRulesFacts Permissions SandboxRoots ExecApproval.

#[local] Open Scope nat_scope.

Section approval_facts.
Context `{BashGrammar} `{Starlark} `{HostDirs} `{Shlex}.

(** ** The reference decision *)

Definition segments (req : ExecApprovalRequest) : list (list string) :=
  epc_commands (commands_for_exec_policy (rq_command req)).

Definition complex (req : ExecApprovalRequest) : bool :=
  epc_used_complex_parsing (commands_for_exec_policy (rq_command req)).

(** The rules that match a segment. *)
Definition rules_for (p : Policy) (c : list string) : list RuleMatch := rules_for_command p c manager_options.

(** The strictest of the matching rules, or else the fallback. *)
Definition segment_decision (p : Policy) (fb : list string → Decision) (c : list string) : Decision :=
  default (fb c) (max_decision (map match_decision (rules_for p c))).

(** Some rule matches and every rule that matches allows. *)
Definition allowed_by_rules (p : Policy) (c : list string) : Prop :=
  rules_for p c ≠ [] ∧ Forall (λ m, match_decision m = Allow) (rules_for p c).

Lemma segments_not_empty req : segments req ≠ [].
Proof. unfold segments, commands_for_exec_policy. by repeat case_match. Qed.

Lemma rule_matches_policy r c m : rule_matches r c = Some m → is_policy_match m = true.
Proof. unfold rule_matches. by destruct (matches_prefix _ _); intros [= <-]. Qed.

(** What the rules give is never a heuristic. *)
Lemma rules_are_policy p c : Forall (λ m, is_policy_match m = true) (rules_for p c).
Proof.
  assert (∀ rs c, Forall (λ m, is_policy_match m = true) (omap (λ r, rule_matches r c) rs)) as Ho.
  { intros rs c'. apply Forall_forall. intros m (r & _ & Hm)%list_elem_of_omap. by apply rule_matches_policy in Hm. }
  unfold rules_for. rewrite rules_for_command_eq. destruct c as [|first args]; [done|].
  assert (Forall (λ m, is_policy_match m = true) (match_host_executable_rules p (first :: args))) as Hh.
  { rewrite host_matches_eq. destruct (try_absolute first) as [program|]; [|done].
    destruct (executable_path_lookup_key program); [|done]. case_match; [|done].
    apply Forall_map. eapply Forall_impl; [apply Ho|]. by intros []. }
  pose proof (Ho (rules_of p first) (first :: args)) as He. cbn [exact_matches manager_options resolve_host_executables].
  by destruct (omap _ (rules_of p first)).
Qed.

Lemma matches_with_fallback p c fb :
  matches_for_command_with_options p c (Some fb) manager_options =
  match rules_for p c with [] => [HeuristicsRuleMatch c (fb c)] | ms => ms end.
Proof. unfold matches_for_command_with_options, rules_for. by case_match. Qed.

Lemma segment_decision_max p fb c :
  max_decision (map match_decision (matches_for_command_with_options p c (Some fb) manager_options))
  = Some (segment_decision p fb c).
Proof.
  rewrite matches_with_fallback. unfold segment_decision. destruct (rules_for p c) as [|m ms]; done.
Qed.

Lemma check_segment p fb c e :
  check_with_options p c fb manager_options = Ok e → ev_decision e = segment_decision p fb c.
Proof. intros [_ He]%from_matches_Ok. rewrite segment_decision_max in He. congruence. Qed.

(** The strictest of a nested list is the strictest of the strictest ones. *)
Lemma max_decision_concat {A} (f : A → list Decision) (g : A → Decision) l :
  (∀ x, max_decision (f x) = Some (g x)) → max_decision (concat (map f l)) = max_decision (map g l).
Proof.
  intros Hf. destruct (max_decision (map g l)) as [d|] eqn:E.
  - apply max_decision_Some in E as [(x & -> & Hx)%list_elem_of_fmap Hall]. apply max_decision_Some.
    split.
    + apply elem_of_concat. exists (f x). split; [apply list_elem_of_fmap; by exists x|].
      by apply (max_decision_Some (f x)), Hf.
    + apply Forall_forall. intros e (ds & (y & -> & Hy)%list_elem_of_fmap & He)%elem_of_concat.
      destruct (proj1 (max_decision_Some _ _) (Hf y)) as [_ Hy']. rewrite Forall_forall in Hy', Hall.
      etrans; [by apply Hy'|]. apply Hall, list_elem_of_fmap. by exists y.
  - by apply max_decision_None, map_eq_nil in E as ->.
Qed.

Lemma check_segments p fb cs ev :
  check_multiple_with_options p cs fb manager_options = Ok ev →
  max_decision (map (segment_decision p fb) cs) = Some (ev_decision ev) ∧
  ev_matched_rules ev = concat (map (λ c, match rules_for p c with [] => [HeuristicsRuleMatch c (fb c)] | ms => ms end) cs).
Proof.
  intros [-> Hd]%from_matches_Ok. split.
  - rewrite <-Hd, concat_map, map_map. symmetry. apply max_decision_concat. apply segment_decision_max.
  - f_equal. apply map_ext. intros c. apply matches_with_fallback.
Qed.

Lemma severity_allow d : severity d ≤ severity Allow → d = Allow.
Proof. destruct d; cbn; [done|lia|lia]. Qed.

Lemma segment_allow p fb c :
  segment_decision p fb c = Allow ↔ allowed_by_rules p c ∨ (rules_for p c = [] ∧ fb c = Allow).
Proof.
  unfold segment_decision, allowed_by_rules. destruct (rules_for p c) as [|m ms]; [naive_solver|].
  destruct (max_decision _) as [d|] eqn:E; [|done]. change (default (fb c) (Some d)) with d. apply max_decision_Some in E as [Hin Hall].
  rewrite Forall_map in Hall. split.
  - intros ->. left. split; [done|]. eapply Forall_impl; [exact Hall|]. intros x. apply severity_allow.
  - intros [[_ Ha]|[? _]]; [|done]. apply list_elem_of_fmap in Hin as (x & -> & Hx). rewrite Forall_forall in Ha. by apply Ha.
Qed.

Lemma max_allow l d : max_decision l = Some d → d = Allow ↔ Forall (λ x, x = Allow) l.
Proof.
  intros [Hin Hall]%max_decision_Some. split.
  - intros ->. eapply Forall_impl; [exact Hall|]. intros x. apply severity_allow.
  - rewrite Forall_forall. auto.
Qed.

Lemma max_prompt l : max_decision l = Some Prompt → Prompt ∈ l ∧ Forbidden ∉ l.
Proof.
  intros [Hin Hall]%max_decision_Some. split; [done|]. intros Hf. rewrite Forall_forall in Hall.
  specialize (Hall _ Hf). cbn in Hall. lia.
Qed.

(** ** The requirement *)

(** Does a rule ask for approval of some segment? *)
Definition asked_by_rule (p : Policy) (req : ExecApprovalRequest) : Prop :=
  ∃ c m, c ∈ segments req ∧ m ∈ rules_for p c ∧ match_decision m = Prompt.

(** May the user be asked, for a rule or else for the sandbox? *)
Definition may_ask (policy : AskForApproval) (by_rule : Prop) : Prop :=
  match policy with
  | Never => False
  | Granular g => (by_rule → rules_approval g = true) ∧ (¬ by_rule → sandbox_approval g = true)
  | _ => True
  end.

Lemma prompt_rule_iff p req ms :
  ms = concat (map (λ c, match rules_for p c with [] => [HeuristicsRuleMatch c (exec_policy_fallback req c)] | ms => ms end)
                 (segments req)) →
  existsb (λ m, is_policy_match m && has_decision Prompt m) ms = true ↔ asked_by_rule p req.
Proof.
  intros ->. rewrite existsb_exists. unfold asked_by_rule, has_decision. setoid_rewrite <-list_elem_of_In.
  setoid_rewrite elem_of_concat. setoid_rewrite list_elem_of_fmap. setoid_rewrite andb_true_iff.
  setoid_rewrite bool_decide_eq_true. split.
  - intros (m & (ds & (c & -> & Hc) & Hm) & Hp & Hd). exists c, m. split_and!; [done| |done].
    destruct (rules_for p c); [|done]. by apply list_elem_of_singleton in Hm as ->.
  - intros (c & m & Hc & Hm & Hd). exists m. split_and!; [|by eapply Forall_forall in Hm; [|apply rules_are_policy]|done].
    eexists. split; [by exists c|]. by destruct (rules_for p c); [apply elem_of_nil in Hm|].
Qed.

Lemma rejected_iff policy (by_rule : bool) (P : Prop) :
  (by_rule = true ↔ P) → prompt_is_rejected_by_policy policy by_rule = None ↔ may_ask policy P.
Proof.
  intros HP. destruct policy as [| | |g|]; cbn; try done. destruct by_rule.
  - assert P by tauto. destruct (rules_approval g); cbn; intuition congruence.
  - assert (¬ P) by (intros ?%HP; done). destruct (sandbox_approval g); cbn; intuition congruence.
Qed.

Lemma explicitly_allowed_iff p c :
  segment_decision p (λ _, Allow) c = Allow → explicitly_allowed p c = true ↔ rules_for p c ≠ [].
Proof.
  intros [[Hne Hall]|[He _]]%segment_allow.
  - split; [done|]. intros _. unfold explicitly_allowed, matches_for_command_with_options. fold (rules_for p c).
    pose proof (rules_are_policy p c) as Hp. destruct (rules_for p c) as [|m ms]; [done|].
    inversion_clear Hall as [|? ? Hm _]. inversion_clear Hp as [|? ? Hq _]. cbn. unfold has_decision.
    by rewrite Hm, Hq.
  - unfold explicitly_allowed, matches_for_command_with_options. fold (rules_for p c). by rewrite He.
Qed.

Lemma allow_ignores_fallback p fb c : segment_decision p fb c = Allow → segment_decision p (λ _, Allow) c = Allow.
Proof. rewrite !segment_allow. tauto. Qed.

Lemma requested_total prefix ms p cs fb :
  ∃ a, derive_requested_execpolicy_amendment_from_prefix_rule prefix ms p cs fb manager_options = Ok a.
Proof.
  unfold derive_requested_execpolicy_amendment_from_prefix_rule, prefix_rule_would_approve_all_commands.
  destruct prefix as [[|f r]|]; [by eexists| |by eexists]. repeat (case_match; [by eexists|]).
  cbn [add_prefix_rule]. set (p' := add_rule _ _).
  assert (∃ b, all_allowed (λ c, check_with_options p' c fb manager_options) cs = Ok b) as [b ->]; [|by eexists].
  induction cs as [|c cs [b IH]]; [by eexists|]. cbn. destruct (check_total p' c fb manager_options) as [e ->]. cbn.
  case_match; by eexists.
Qed.

(** The amendment the agent asked for, when it may be offered. *)
Definition requested (p : Policy) (req : ExecApprovalRequest) (ms : list RuleMatch) : res (option ExecPolicyAmendment) :=
  if complex req then Ok None
  else derive_requested_execpolicy_amendment_from_prefix_rule (rq_prefix_rule req) ms p (segments req)
         (exec_policy_fallback req) manager_options.

Lemma requirement_eval p req :
  ∃ ev am,
    check_multiple_with_options p (segments req) (exec_policy_fallback req) manager_options = Ok ev ∧
    requested p req (ev_matched_rules ev) = Ok am ∧
    create_exec_approval_requirement_for_command p req =
    let by_rule := existsb (λ m, is_policy_match m && has_decision Prompt m) (ev_matched_rules ev) in
    Ok (match ev_decision ev with
       | Forbidden => ForbiddenExec (derive_forbidden_reason (rq_command req) ev)
       | Prompt =>
           match prompt_is_rejected_by_policy (rq_approval_policy req) by_rule with
           | Some reason => ForbiddenExec reason
           | None => NeedsApproval (derive_prompt_reason (rq_command req) ev)
                       (match am with
                        | Some a => Some a
                        | None => if complex req then None
                                  else try_derive_execpolicy_amendment_for_prompt_rules (ev_matched_rules ev)
                        end)
           end
       | Allow => Skip (forallb (explicitly_allowed p) (segments req))
                    (if complex req then None
                     else try_derive_execpolicy_amendment_for_allow_rules (ev_matched_rules ev))
       end).
Proof.
  destruct (check_multiple_cases p (segments req) (exec_policy_fallback req) manager_options (segments_not_empty req)) as [ev Hev].
  assert (∃ am, requested p req (ev_matched_rules ev) = Ok am) as [am Ham].
  { unfold requested. destruct (complex req); [by eexists|]. apply requested_total. }
  exists ev, am. split_and!; [done|done|]. unfold create_exec_approval_requirement_for_command.
  fold (segments req) (complex req). rewrite Hev. cbn zeta. cbn [mbind res_bind].
  unfold requested in Ham. destruct (complex req); cbn [negb]; rewrite Ham; cbn [mbind res_bind];
    (destruct (ev_decision ev); [done| |done]); by case_match.
Qed.

(** C7. The command is decided by its strictest segment: it runs without a question
    exactly when every segment is allowed, outside the sandbox only when rules
    allow every segment; the user is asked only where the settings let it; all
    else is refused.  There always is an answer. *)
Theorem requirement_decided p req :
  let decisions := map (segment_decision p (exec_policy_fallback req)) (segments req) in
  ∃ r, create_exec_approval_requirement_for_command p req = Ok r ∧
    match r with
    | Skip bypass_sandbox _ =>
        Forall (λ d, d = Allow) decisions ∧ ((bypass_sandbox = true) ↔ Forall (allowed_by_rules p) (segments req))
    | NeedsApproval _ _ =>
        Prompt ∈ decisions ∧ (Forbidden ∉ decisions) ∧ may_ask (rq_approval_policy req) (asked_by_rule p req)
    | ForbiddenExec _ =>
        Forbidden ∈ decisions ∨ (Prompt ∈ decisions ∧ ¬ may_ask (rq_approval_policy req) (asked_by_rule p req))
    end.
Proof.
  intros decisions. destruct (requirement_eval p req) as (ev & am & Hev & _ & ->). eexists. split; [done|]. cbn zeta.
  apply check_segments in Hev as [Hd Hm]. fold decisions in Hd.
  pose proof (prompt_rule_iff p req _ Hm) as Hrule. destruct (ev_decision ev) eqn:Ed.
  - assert (Forall (λ d, d = Allow) decisions) as Hall by (by apply (max_allow _ _ Hd)). split; [done|].
    unfold decisions in Hall. rewrite Forall_map, Forall_forall in Hall.
    rewrite forallb_forall, Forall_forall. setoid_rewrite <-list_elem_of_In.
    assert (∀ c, c ∈ segments req → explicitly_allowed p c = true ↔ allowed_by_rules p c) as Hiff;
      [|split; intros Hx c Hc; by apply Hiff, Hx].
    intros c Hc. specialize (Hall c Hc). cbn in Hall.
    rewrite (explicitly_allowed_iff p c) by (by eapply allow_ignores_fallback).
    apply segment_allow in Hall as [Ha|[He _]]; unfold allowed_by_rules in *; [tauto|]. rewrite He. tauto.
  - apply max_prompt in Hd as [Hp Hf]. pose proof (rejected_iff (rq_approval_policy req) _ _ Hrule) as Hr.
    destruct (prompt_is_rejected_by_policy _ _); [right; split; [done|]; by intros ?%Hr|]. split_and!; [done|done|]. by apply Hr.
  - left. by apply max_decision_Some in Hd as [].
Qed.

(** ** What runs without a question *)

Lemma skip_iff p req :
  (∃ b a, create_exec_approval_requirement_for_command p req = Ok (Skip b a)) ↔
  Forall (λ c, segment_decision p (exec_policy_fallback req) c = Allow) (segments req).
Proof.
  destruct (requirement_eval p req) as (ev & am & [Hd _]%check_segments & _ & ->). cbn zeta.
  rewrite <-(Forall_map (segment_decision p (exec_policy_fallback req)) (λ d, d = Allow)), <-(max_allow _ _ Hd).
  destruct (ev_decision ev); [by split; eauto| |naive_solver].
  split; [|done]. intros (b & a & Hc). by destruct (prompt_is_rejected_by_policy _ _).
Qed.

Lemma skip_bypass p req a :
  create_exec_approval_requirement_for_command p req = Ok (Skip true a) → Forall (allowed_by_rules p) (segments req).
Proof.
  intros Hc. assert (Forall (λ c, segment_decision p (exec_policy_fallback req) c = Allow) (segments req)) as Hall
    by (apply skip_iff; by eauto).
  destruct (requirement_eval p req) as (ev & am & _ & _ & Hr). rewrite Hc in Hr. cbn zeta in Hr.
  assert (forallb (explicitly_allowed p) (segments req) = true) as Hb.
  { destruct (ev_decision ev); [congruence| |done]. by destruct (prompt_is_rejected_by_policy _ _). }
  rewrite forallb_forall in Hb. setoid_rewrite <-list_elem_of_In in Hb. rewrite Forall_forall in Hall |- *. intros c Hin.
  specialize (Hall c Hin). cbn in Hall. specialize (Hb c Hin).
  apply (explicitly_allowed_iff p c) in Hb; [|by eapply allow_ignores_fallback].
  by apply segment_allow in Hall as [Ha|[He _]].
Qed.

(** When only trusted commands run unasked, a segment that no rule matches must
    be on the list of safe commands and read without complex parsing. *)
Theorem unless_trusted_spec p req :
  rq_approval_policy req = UnlessTrusted →
  (∃ b a, create_exec_approval_requirement_for_command p req = Ok (Skip b a)) ↔
  Forall (λ c, allowed_by_rules p c ∨ (rules_for p c = [] ∧ is_known_safe_command c = true ∧ complex req = false))
    (segments req).
Proof.
  intros Hu. rewrite skip_iff. setoid_rewrite segment_allow. fold (complex req).
  assert (∀ c, exec_policy_fallback req c = Allow ↔ is_known_safe_command c = true ∧ complex req = false) as Hf.
  { intros c. unfold exec_policy_fallback, render_decision_for_unmatched_command. cbn. rewrite Hu. fold (complex req).
    destruct (is_known_safe_command c), (complex req); cbn; try tauto; destruct (command_might_be_dangerous c); cbn; intuition congruence. }
  by setoid_rewrite Hf.
Qed.

(** A dangerous segment that no rule matches is put to the user or refused,
    unless nothing is asked and the agent has no sandbox of its own to keep. *)
Theorem dangerous_not_skipped p req c b a :
  c ∈ segments req → rules_for p c = [] → command_might_be_dangerous c = true → is_known_safe_command c = false →
  create_exec_approval_requirement_for_command p req = Ok (Skip b a) →
  rq_approval_policy req = Never ∧ ∀ fs n, rq_permission_profile req ≠ Managed fs n.
Proof.
  intros Hc Hr Hd Hs Hk. assert (Forall (λ c, segment_decision p (exec_policy_fallback req) c = Allow) (segments req)) as Hall
    by (apply skip_iff; by eauto).
  rewrite Forall_forall in Hall. specialize (Hall c Hc). cbn in Hall.
  apply segment_allow in Hall as [[? _]|[_ Hf]]; [done|].
  unfold exec_policy_fallback, render_decision_for_unmatched_command in Hf. cbn in Hf. rewrite Hs, Hd in Hf. cbn in Hf.
  destruct (rq_approval_policy req); try done. split; [done|]. by destruct (rq_permission_profile req).
Qed.

(** ** What leaves the sandbox *)

(** C23. The first attempt leaves the sandbox only when no read is denied, and then
    because rules allow every segment, or because the agent asked for it. *)
Theorem unsandboxed_justified p req r fs sp :
  create_exec_approval_requirement_for_command p req = Ok r →
  sandbox_override_for_first_attempt sp r fs = BypassSandboxFirstAttempt →
  has_denied_read_restrictions fs = false ∧
  (Forall (allowed_by_rules p) (segments req) ∨ sp = RequireEscalated).
Proof.
  intros Hr. unfold sandbox_override_for_first_attempt, unsandboxed_execution_allowed. rewrite negb_involutive.
  destruct (has_denied_read_restrictions fs); [done|]. intros Ho. split; [done|].
  destruct r as [[] a| |]; [left; by eapply skip_bypass|..]; right; by destruct sp.
Qed.

(** An escalation under a sandbox policy is never granted silently: with
    approval on request it is asked for unless rules allow every segment. *)
Theorem escalation_is_asked p req b a :
  rq_approval_policy req = OnRequest → requests_sandbox_override (rq_sandbox_permissions req) = true →
  fsp_kind (file_system_sandbox_policy (rq_permission_profile req)) = KindRestricted →
  create_exec_approval_requirement_for_command p req = Ok (Skip b a) →
  Forall (allowed_by_rules p) (segments req).
Proof.
  intros Hq Hs Hk Hc. assert (Forall (λ c, segment_decision p (exec_policy_fallback req) c = Allow) (segments req)) as Hall
    by (apply skip_iff; by eauto).
  eapply Forall_impl; [exact Hall|]. intros c [Ha|[_ Hf]]%segment_allow; [done|].
  unfold exec_policy_fallback, render_decision_for_unmatched_command in Hf. cbn in Hf. rewrite Hq in Hf.
  rewrite andb_false_r in Hf. unfold requires_prompt in Hf. rewrite Hk, Hs in Hf.
  by destruct (command_might_be_dangerous c).
Qed.

(** ** What an accepted amendment changes *)

Lemma literal_rule_self first rest :
  rule_matches (literal_rule first rest Allow) (first :: rest) = Some (PrefixRuleMatch (first :: rest) Allow None None).
Proof.
  unfold rule_matches, literal_rule. cbn [pr_pattern pr_decision pr_justification].
  assert (matches_prefix (mkPrefixPattern first (map Single rest)) (first :: rest) = Some (first :: rest)) as ->; [|done].
  apply matches_prefix_spec. exists rest, []. rewrite app_nil_r. split_and!; [done|done|]. cbn.
  apply Forall2_fmap_l, Forall_Forall2_diag, Forall_true. intros x. by apply list_elem_of_singleton.
Qed.

Lemma no_rules_no_exact p c : rules_for p c = [] → exact_matches p c = [].
Proof. unfold rules_for. rewrite rules_for_command_eq. by destruct (exact_matches p c). Qed.

(** A new rule for a whole segment that no rule matched decides it. *)
Lemma added_rule_allows p c p' :
  rules_for p c = [] → add_prefix_rule c Allow p = Good p' → allowed_by_rules p' c.
Proof.
  intros He%no_rules_no_exact. destruct c as [|first rest]; [done|]. cbn [add_prefix_rule]. intros [= <-].
  assert (exact_matches (add_rule (literal_rule first rest Allow) p) (first :: rest)
          = [PrefixRuleMatch (first :: rest) Allow None None]) as Hx.
  { cbn [exact_matches] in *. rewrite add_rule_rules_of, omap_app, He.
    change (program (literal_rule first rest Allow)) with first. rewrite decide_True by done.
    cbn [omap list_omap app]. by rewrite literal_rule_self. }
  unfold allowed_by_rules, rules_for. rewrite rules_for_command_eq, Hx. split; [done|]. by repeat constructor.
Qed.

Lemma all_allowed_true p fb cs :
  all_allowed (λ c, check_with_options p c fb manager_options) cs = Ok true →
  Forall (λ c, segment_decision p fb c = Allow) cs.
Proof.
  induction cs as [|c cs IH]; [by constructor|]. cbn.
  destruct (check_with_options p c fb manager_options) as [e| |] eqn:Ec; cbn; [|done|done].
  case_bool_decide as Hd; [|done]. intros Hc. constructor; [|by apply IH]. by rewrite <-(check_segment _ _ _ _ Ec).
Qed.

Lemma find_map_Some {A B} (f : A → option B) l b : find_map f l = Some b → ∃ x, x ∈ l ∧ f x = Some b.
Proof.
  unfold find_map. intros Hh. apply list_elem_of_omap.
  destruct (omap f l); [done|]. cbn in Hh. injection Hh as ->. by left.
Qed.

Lemma auto_amendment p req ms a :
  ms = concat (map (λ c, match rules_for p c with [] => [HeuristicsRuleMatch c (exec_policy_fallback req c)] | ms => ms end)
                 (segments req)) →
  try_derive_execpolicy_amendment_for_prompt_rules ms = Some a →
  ea_command a ∈ segments req ∧ rules_for p (ea_command a) = [].
Proof.
  intros ->. unfold try_derive_execpolicy_amendment_for_prompt_rules. case_match; [done|].
  intros (m & (ds & (c & -> & Hc)%list_elem_of_fmap & Hm)%elem_of_concat & Ha)%find_map_Some.
  pose proof (rules_are_policy p c) as Hp. destruct (rules_for p c) as [|m' ms'] eqn:Er.
  - apply list_elem_of_singleton in Hm as ->. cbn in Ha. case_decide; [|done]. by injection Ha as <-.
  - rewrite Forall_forall in Hp. apply Hp in Hm. by destruct m.
Qed.

Lemma requested_amendment p req ms a :
  requested p req ms = Ok (Some a) →
  rq_prefix_rule req = Some (ea_command a) ∧ (ea_command a ∉ BANNED_PREFIX_SUGGESTIONS) ∧
  ∃ p', add_prefix_rule (ea_command a) Allow p = Good p' ∧
    Forall (λ c, segment_decision p' (exec_policy_fallback req) c = Allow) (segments req).
Proof.
  unfold requested, derive_requested_execpolicy_amendment_from_prefix_rule, prefix_rule_would_approve_all_commands.
  destruct (complex req); [done|]. destruct (rq_prefix_rule req) as [[|f r]|]; try done.
  destruct (existsb _ BANNED_PREFIX_SUGGESTIONS) eqn:Eb; [done|]. destruct (existsb _ ms); [done|].
  destruct (add_prefix_rule (f :: r) Allow p) as [p'|] eqn:Ep; [|done].
  destruct (all_allowed _ _) as [[]| |] eqn:Ea; try done. cbn. intros [= <-]. cbn [ea_command]. split_and!; [done| |].
  - intros Hin. apply not_true_iff_false in Eb. apply Eb, existsb_exists. exists (f :: r).
    split; [by apply list_elem_of_In|]. by apply bool_decide_eq_true.
  - exists p'. split; [done|]. by apply all_allowed_true.
Qed.

(** An amendment that is proposed with a question does its work once it is
    accepted: the one the agent asked for is no banned prefix and lets the same
    command run unasked, and the one derived from a segment is decided by its
    own rule from then on.  Only the empty segment cannot become a rule. *)
Theorem amendment_works p req reason a :
  create_exec_approval_requirement_for_command p req = Ok (NeedsApproval reason (Some a)) → ea_command a ≠ [] →
  ∃ p', add_prefix_rule (ea_command a) Allow p = Good p' ∧
    ((rq_prefix_rule req = Some (ea_command a) ∧ (ea_command a ∉ BANNED_PREFIX_SUGGESTIONS) ∧
      ∃ bypass a', create_exec_approval_requirement_for_command p' req = Ok (Skip bypass a')) ∨
     (ea_command a ∈ segments req ∧ rules_for p (ea_command a) = [] ∧ allowed_by_rules p' (ea_command a))).
Proof.
  intros Hc Hne. destruct (requirement_eval p req) as (ev & am & [_ Hm]%check_segments & Ham & Hr).
  rewrite Hc in Hr. cbn zeta in Hr. destruct (ev_decision ev); [done| |done].
  destruct (prompt_is_rejected_by_policy _ _); [done|]. injection Hr as _ Ha. destruct am as [a'|].
  - injection Ha as <-. apply requested_amendment in Ham as (Hq & Hb & p' & Hp & Hall).
    exists p'. split; [done|]. left. split_and!; [done|done|]. by apply skip_iff.
  - destruct (complex req); [done|]. symmetry in Ha. apply (auto_amendment p req _ _ Hm) in Ha as [Hin Hno].
    destruct (ea_command a) as [|f r] eqn:Ea; [done|]. eexists. split; [done|]. right.
    split_and!; [done|done|]. by eapply added_rule_allows.
Qed.
End approval_facts.

(** ** The rule in memory and on disk *)

Section update_facts.
Context `{Starlark} `{HostDirs}.

(** The names a command is looked up by: its own and that of the executable. *)
Definition lookup_forms (c : list string) : list (list string) :=
  c :: match c with
       | first :: args =>
           match try_absolute first with
           | IoOk program => match executable_path_lookup_key program with Some b => [b :: args] | None => [] end
           | IoErr _ => []
           end
       | [] => []
       end.

Lemma literal_rule_other first rest d c :
  ¬ (first :: rest) `prefix_of` c → rule_matches (literal_rule first rest d) c = None.
Proof.
  intros Hn. unfold rule_matches, literal_rule. cbn [pr_pattern].
  destruct (matches_prefix _ c) as [q|] eqn:E; [|done]. exfalso. apply Hn.
  apply matches_prefix_spec in E as (ws & tail & -> & -> & Hf). cbn in Hf. cbn [pp_first].
  assert (ws = rest) as ->; [|by exists tail]. clear - Hf. revert ws Hf.
  induction rest as [|x rest IH]; intros ws Hf; inversion_clear Hf as [|? ? ? ? Hx Hr]; [done|].
  apply list_elem_of_singleton in Hx as ->. f_equal. by apply IH.
Qed.

(** A prefix rule is local: a command is looked at as before unless it, or the
    form with the name of its executable, starts with the prefix. *)
Theorem prefix_rule_local prefix d p p' c o :
  add_prefix_rule prefix d p = Good p' → Forall (λ form, ¬ prefix `prefix_of` form) (lookup_forms c) →
  rules_for_command p' c o = rules_for_command p c o.
Proof.
  destruct prefix as [|first rest]; [done|]. cbn [add_prefix_rule]. intros [= <-] Hf. set (r := literal_rule first rest d).
  assert (∀ name form, ¬ (first :: rest) `prefix_of` form →
    omap (λ r, rule_matches r form) (rules_of (add_rule r p) name) = omap (λ r, rule_matches r form) (rules_of p name)) as Ho.
  { intros name form Hn. rewrite add_rule_rules_of, omap_app. case_decide; cbn; [|by rewrite app_nil_r].
    unfold r at 1. by rewrite literal_rule_other, app_nil_r. }
  rewrite !rules_for_command_eq. destruct c as [|c0 args]; [done|]. cbn [lookup_forms] in Hf.
  inversion_clear Hf as [|? ? Hc Hh]. cbn [exact_matches]. rewrite Ho by done.
  assert (match_host_executable_rules (add_rule r p) (c0 :: args) = match_host_executable_rules p (c0 :: args)) as ->; [|done].
  rewrite !host_matches_eq. destruct (try_absolute c0) as [program|]; [|done].
  destruct (executable_path_lookup_key program) as [b|]; [|done]. inversion_clear Hh as [|? ? Hb _].
  rewrite Ho by done. by unfold path_allowed.
Qed.

Context `{Unicode} `{JsonLib} `{HL : PolicyFsLaws}.

Lemma already_allowed_iff p c :
  c ≠ [] → ∃ b, already_allowed p c = Ok b ∧ (b = true ↔ allowed_by_rules p c).
Proof.
  intros Hne. unfold already_allowed.
  destruct (check_multiple_cases p [c] (λ _, Forbidden) manager_options ltac:(done)) as [ev Hev]. rewrite Hev. cbn.
  eexists. split; [done|]. apply check_segments in Hev as [Hd Hm]. cbn in Hd. injection Hd as Hd.
  rewrite andb_true_iff, bool_decide_eq_true, <-Hd, segment_allow. cbn in Hm. rewrite app_nil_r in Hm. rewrite Hm.
  split; [naive_solver|]. intros Ha. split; [by left|]. destruct Ha as [Hn Hall].
  pose proof (rules_are_policy p c) as Hp. destruct (rules_for p c) as [|m ms]; [done|].
  inversion_clear Hall as [|? ? Hmm _]. inversion_clear Hp as [|? ? Hq _]. cbn. unfold has_decision. by rewrite Hmm, Hq.
Qed.

(** C37. An update writes the rule first and then takes it over: when it succeeds,
    the policy file has the rule's line, and the policy in memory has the rule
    unless its rules allowed that command already; when it fails, the policy in
    memory is the old one.  It never panics, and the empty command is refused. *)
Theorem update_spec home a p w r p' w' :
  append_amendment_and_update home a (p, w) = (r, (p', w')) →
  let path := default_policy_path home in
  (r = Ok (Good ()) ∧ ea_command a ≠ [] ∧ file w' path = with_line (file w path) (allow_rule_text (ea_command a)) ∧
    (∀ q, q ≠ path → pf_contents w' q = pf_contents w q) ∧
    ((allowed_by_rules p (ea_command a) ∧ p' = p) ∨
     (¬ allowed_by_rules p (ea_command a) ∧ add_prefix_rule (ea_command a) Allow p = Good p'))) ∨
  (∃ source, r = Ok (Bad (AppendRule path source)) ∧ p' = p).
Proof.
  unfold append_amendment_and_update. cbn zeta. intros Hu.
  destruct (blocking_append_allow_prefix_rule _ _ w) as [[[]|source] w1] eqn:Eb; [|right; exists source; naive_solver].
  left. unfold blocking_append_allow_prefix_rule in Eb. destruct (ea_command a) as [|f rest] eqn:Ea; [done|].
  apply append_rule_line_contents in Eb as [Hf Ho].
  destruct (already_allowed_iff p (f :: rest) ltac:(done)) as (b & Hb & Hiff). rewrite Hb in Hu. destruct b.
  - injection Hu as <- <- <-. split_and!; [done|done|done|done|]. left. split; [by apply Hiff|done].
  - cbn [add_prefix_rule] in *. injection Hu as <- <- <-. split_and!; [done|done|done|done|]. right. split; [|done].
    by intros ?%Hiff.
Qed.
End update_facts.

(** ** The requirements of the administrator *)

Section load_facts.
Context `{Unicode} `{HostDirs} `{Shlex} `{StarlarkEval} `{Os} `{RulesDirs} (o : os).

(** Where the requirements have rules for the program of a command, the loaded
    policy decides at least as strictly, whatever the rule files of users and
    projects say.  With a rule file that does not parse the requirements are
    gone: the policy is empty, and the fallback decides. *)
Theorem requirements_enforced stack q policy warning c fb eq e :
  load_exec_policy_with_warning o stack = Good (policy, warning) → requirements_exec_policy stack = Some q →
  exact_matches q c ≠ [] → check_with_options q c fb manager_options = Ok eq →
  check_with_options policy c fb manager_options = Ok e →
  match warning with
  | None => severity (ev_decision eq) ≤ severity (ev_decision e)
  | Some _ => policy = policy_empty ∧ ev_decision e = fb c
  end.
Proof.
  unfold load_exec_policy_with_warning. intros Hl Hq Hne Heq He. destruct (load_exec_policy o stack) as [p|err] eqn:El.
  - injection Hl as -> <-. unfold load_exec_policy in El. rewrite Hq in El.
    apply result_bind_Good in El as (paths & _ & El). apply result_bind_Good in El as (b & _ & El). cbn zeta in El.
    injection El as <-. eapply (merge_never_loosens _ q q); [by right|exact Hne|exact Heq|exact He].
  - destruct err; try done. injection Hl as <- <-. split; [done|]. apply check_segment in He. rewrite He.
    unfold segment_decision, rules_for. rewrite rules_for_command_eq. destruct c as [|c0 args]; [done|].
    cbn [exact_matches manager_options resolve_host_executables]. rewrite host_matches_eq.
    unfold rules_of. cbn [policy_empty policy_new from_parts rules_by_program].
    destruct (try_absolute c0) as [program|]; [|done]. destruct (executable_path_lookup_key program); [|done].
    by case_match.
Qed.
End load_facts.
