(* ===== verification/RequirementsPolicy.v ===== *)
(** * Rules of the administrator (config: requirements_exec_policy.rs)

    [requirements.toml] can hold command rules.  They are turned into a command
    policy of [ExecPolicy] that is merged over the rules of users and projects,
    so they may only ask or forbid. *)

From S2P Require Import Prelude RustStr Json Os AbsPath CommandSafety ExecPolicy ExecPolicyFacts ExecRules Permissions SandboxRoots ExecApproval ExecApprovalFacts.

#[local] Open Scope nat_scope.

Record RequirementsExecPolicyPatternTokenToml := mkTokenToml {
  token : option string;
  any_of : option (list string)
}.

Inductive RequirementsExecPolicyDecisionToml := AllowToml | PromptToml | ForbiddenToml.

Definition as_decision (d : RequirementsExecPolicyDecisionToml) : Decision :=
  match d with AllowToml => Allow | PromptToml => Prompt | ForbiddenToml => Forbidden end.

Record RequirementsExecPolicyPrefixRuleToml := mkPrefixRuleToml {
  pattern_toml : list RequirementsExecPolicyPatternTokenToml;
  decision_toml : option RequirementsExecPolicyDecisionToml;
  justification_toml : option string
}.

Record RequirementsExecPolicyToml := mkRequirementsToml {
  prefix_rules : list RequirementsExecPolicyPrefixRuleToml
}.

Inductive RequirementsExecPolicyParseError :=
| EmptyPrefixRules
| EmptyPattern (rule_index : nat)
| InvalidPatternToken (rule_index token_index : nat) (reason : string)
| EmptyJustification (rule_index : nat)
| MissingDecision (rule_index : nat)
| AllowDecisionNotAllowed (rule_index : nat).

Definition is_blank (s : string) : bool := str_is_empty (trim s).

Definition parse_pattern_token (t : RequirementsExecPolicyPatternTokenToml) (rule_index token_index : nat)
    : result RequirementsExecPolicyParseError PatternToken :=
  let invalid reason := Bad (InvalidPatternToken rule_index token_index reason) in
  match token t, any_of t with
  | Some single, None => if is_blank single then invalid "token cannot be empty" else Good (Single single)
  | None, Some alternatives =>
      match alternatives with
      | [] => invalid "any_of cannot be empty"
      | _ => if existsb is_blank alternatives then invalid "any_of cannot include empty tokens"
             else Good (Alts alternatives)
      end
  | Some _, Some _ => invalid "set either token or any_of, not both"
  | None, None => invalid "set either token or any_of"
  end.

(** [enumerate().map(..).collect()]. *)
Fixpoint parse_pattern_tokens (ts : list RequirementsExecPolicyPatternTokenToml) (rule_index token_index : nat)
    : result RequirementsExecPolicyParseError (list PatternToken) :=
  match ts with
  | [] => Good []
  | t :: ts' =>
      parsed ← parse_pattern_token t rule_index token_index;
      rest ← parse_pattern_tokens ts' rule_index (S token_index);
      Good (parsed :: rest)
  end.

(** The body of the loop: the rules of one entry. *)
Definition rules_of_toml (rule_index : nat) (r : RequirementsExecPolicyPrefixRuleToml)
    : result RequirementsExecPolicyParseError (list PrefixRule) :=
  if blank (justification_toml r) then Bad (EmptyJustification rule_index)
  else match pattern_toml r with
       | [] => Bad (EmptyPattern rule_index)
       | _ =>
           pattern_tokens ← parse_pattern_tokens (pattern_toml r) rule_index 0;
           decision ← match decision_toml r with
                      | Some AllowToml => Bad (AllowDecisionNotAllowed rule_index)
                      | Some decision => Good (as_decision decision)
                      | None => Bad (MissingDecision rule_index)
                      end;
           match pattern_tokens with
           | [] => Bad (EmptyPattern rule_index)
           | first_token :: rest =>
               Good (map (λ head, mkPrefixRule (mkPrefixPattern head rest) decision (justification_toml r))
                       (alternatives first_token))
           end
       end.

Fixpoint convert_rules (rule_index : nat) (rs : list RequirementsExecPolicyPrefixRuleToml)
    (rules_by_program : gmap string (list PrefixRule)) : result RequirementsExecPolicyParseError (gmap string (list PrefixRule)) :=
  match rs with
  | [] => Good rules_by_program
  | r :: rs' =>
      rules ← rules_of_toml rule_index r;
      convert_rules (S rule_index) rs' (fold_left (λ m rule, multimap_insert (program rule) rule m) rules rules_by_program)
  end.

Definition to_policy (t : RequirementsExecPolicyToml) : result RequirementsExecPolicyParseError Policy :=
  match prefix_rules t with
  | [] => Bad EmptyPrefixRules
  | rs => rules_by_program ← convert_rules 0 rs ∅; Good (policy_new rules_by_program)
  end.

(** ** Sharing the policy of a parent agent *)

Section sharing.
Context `{Unicode}.

(** The hash map is listed in no order of its own; the entries are sorted. *)
Definition policy_fingerprint (p : Policy) : list string :=
  sort_by str_le
    (concat (map (λ '(program, rules), map (λ rule, program +:+ ":" +:+ debug_rule rule) rules)
               (map_to_list (rules_by_program p)))).

Definition requirements_policy_eqb (p q : Policy) : bool :=
  bool_decide (policy_fingerprint p = policy_fingerprint q).

Definition opt_requirements_eqb (p q : option Policy) : bool :=
  match p, q with
  | Some p, Some q => requirements_policy_eqb p q
  | None, None => true
  | _, _ => false
  end.

Definition exec_policy_config_folders (s : ConfigLayerStack) : list string := omap config_folder (get_layers s).

Definition child_uses_parent_exec_policy (parent child : ConfigLayerStack) : bool :=
  list_eqb path_eqb (exec_policy_config_folders parent) (exec_policy_config_folders child)
  && Bool.eqb (ignore_user_and_project_exec_policy_rules parent) (ignore_user_and_project_exec_policy_rules child)
  && opt_requirements_eqb (requirements_exec_policy parent) (requirements_exec_policy child).
End sharing.

(** ** What is accepted *)

(** A token that is given one way only and is not blank. *)
Definition token_ok (t : RequirementsExecPolicyPatternTokenToml) : Prop :=
  (∃ s, token t = Some s ∧ any_of t = None ∧ is_blank s = false) ∨
  (∃ l, token t = None ∧ any_of t = Some l ∧ l ≠ [] ∧ Forall (λ s, is_blank s = false) l).

Definition rule_ok (r : RequirementsExecPolicyPrefixRuleToml) : Prop :=
  pattern_toml r ≠ [] ∧ Forall token_ok (pattern_toml r) ∧
  (decision_toml r = Some PromptToml ∨ decision_toml r = Some ForbiddenToml) ∧
  blank (justification_toml r) = false.

(** What the tokens of the file stand for. *)
Definition words_of (t : RequirementsExecPolicyPatternTokenToml) : list string :=
  match token t, any_of t with
  | Some s, _ => [s]
  | None, Some l => l
  | None, None => []
  end.

Lemma parse_token_ok t i j :
  (∃ p, parse_pattern_token t i j = Good p) ↔ token_ok t.
Proof.
  unfold parse_pattern_token, token_ok. destruct (token t) as [s|], (any_of t) as [l|]; cbn zeta.
  - split; [by intros [? ?]|]. by intros [(? & _ & ? & _)|(? & ? & _)].
  - destruct (is_blank s) eqn:E.
    + split; [by intros [? ?]|]. intros [(? & [= <-] & _ & Hs)|(? & ? & _)]; [congruence|done].
    + split; [|by eauto]. intros _. left. by exists s.
  - destruct l as [|a l]; [split; [by intros [? ?]|by intros [(? & ? & _)|(? & _ & [= <-] & ? & _)]]|]. destruct (existsb is_blank (a :: l)) eqn:E.
    + split; [by intros [? ?]|]. intros [(s & ? & _)|(l' & _ & [= <-] & _ & Hf)]; [done|].
      apply existsb_exists in E as (x & Hx%list_elem_of_In & Hb). rewrite Forall_forall in Hf.
      specialize (Hf x Hx). cbn in Hf. congruence.
    + split; [|by eauto]. intros _. right. exists (a :: l). split_and!; [done..|]. apply Forall_forall. intros x Hx.
      destruct (is_blank x) eqn:Eb; [|done]. rewrite <-E. symmetry. apply existsb_exists. exists x.
      by rewrite <-list_elem_of_In.
  - split; [by intros [? ?]|]. by intros [(? & ? & _)|(? & _ & ? & _)].
Qed.

Lemma parse_token_words t i j p : parse_pattern_token t i j = Good p → alternatives p = words_of t.
Proof.
  unfold parse_pattern_token, words_of. destruct (token t), (any_of t) as [[]|]; repeat case_match; naive_solver.
Qed.

Lemma parse_tokens_ok ts i j : (∃ ps, parse_pattern_tokens ts i j = Good ps) ↔ Forall token_ok ts.
Proof.
  revert j. induction ts as [|t ts IH]; intros j; cbn.
  { split; [by constructor|by eauto]. }
  rewrite Forall_cons, <-(parse_token_ok t i j), <-(IH (S j)). split.
  - intros [ps Hp]. apply result_bind_Good in Hp as (p & Hp & Hr). apply result_bind_Good in Hr as (rest & Hr & _). eauto.
  - intros [[p ->] [ps Hps]]. cbn. rewrite Hps. cbn. eauto.
Qed.

Lemma parse_tokens_words ts i j ps : parse_pattern_tokens ts i j = Good ps → map alternatives ps = map words_of ts.
Proof.
  revert j ps. induction ts as [|t ts IH]; intros j ps; cbn; [by intros [= <-]|].
  intros Hp. apply result_bind_Good in Hp as (p & Hp%parse_token_words & Hr).
  apply result_bind_Good in Hr as (rest & Hr%IH & [= <-]). cbn. by rewrite Hp, Hr.
Qed.

(** The rules one entry gives. *)
Lemma rules_of_toml_Good i r rls :
  rules_of_toml i r = Good rls →
  rule_ok r ∧ ∃ first rest d, parse_pattern_tokens (pattern_toml r) i 0 = Good (first :: rest) ∧
    decision_toml r = Some d ∧
    rls = map (λ head, mkPrefixRule (mkPrefixPattern head rest) (as_decision d) (justification_toml r)) (alternatives first).
Proof.
  unfold rules_of_toml, rule_ok. destruct (blank _) eqn:Eb; [done|]. destruct (pattern_toml r) as [|t ts] eqn:Ep; [done|].
  intros Hr. apply result_bind_Good in Hr as (ps & Hps & Hr). apply result_bind_Good in Hr as (d & Hd & Hr).
  assert (Forall token_ok (t :: ts)) as Hok by (apply (parse_tokens_ok _ i 0); by eauto).
  destruct ps as [|first rest]; [done|]. injection Hr as <-.
  destruct (decision_toml r) as [[]|]; try done; injection Hd as <-; (split; [by eauto 6|]); by eauto 8.
Qed.

Lemma rules_of_toml_ok i r : (∃ rls, rules_of_toml i r = Good rls) ↔ rule_ok r.
Proof.
  split; [by intros [rls [? _]%rules_of_toml_Good]|]. intros (Hne & Ht & Hd & Hj). unfold rules_of_toml. rewrite Hj.
  apply (parse_tokens_ok _ i 0) in Ht as [ps Hps]. pose proof (parse_tokens_words _ _ _ _ Hps) as Hw.
  destruct (pattern_toml r) as [|t ts]; [done|]. rewrite Hps. cbn [mbind result_bind].
  destruct ps as [|p ps]; [done|]. destruct Hd as [-> | ->]; by eexists.
Qed.

Lemma convert_rules_ok i rs m : (∃ m', convert_rules i rs m = Good m') ↔ Forall rule_ok rs.
Proof.
  revert i m. induction rs as [|r rs IH]; intros i m; cbn [convert_rules].
  { split; [by constructor|by eauto]. }
  rewrite Forall_cons, <-(rules_of_toml_ok i r). split.
  - intros [m' Hm]. apply result_bind_Good in Hm as (rls & Hr & Hm). split; [by eauto|]. eapply IH. by eexists.
  - intros [[rls ->] Hok]. cbn. by apply IH.
Qed.

(** The file is accepted exactly when it has rules and each is well formed: a
    pattern of tokens that are not blank, asking or forbidding, and a
    justification that is not blank if there is one. *)
Theorem to_policy_accepts t :
  (∃ q, to_policy t = Good q) ↔ prefix_rules t ≠ [] ∧ Forall rule_ok (prefix_rules t).
Proof.
  unfold to_policy. destruct (prefix_rules t) as [|r rs]; [naive_solver|].
  rewrite <-(convert_rules_ok 0 _ ∅). split.
  - intros [q Hq]. apply result_bind_Good in Hq as (m & Hm & _). by eauto.
  - intros [_ [m ->]]. by eexists.
Qed.

Lemma insert_rules_elem rls m name rl :
  rl ∈ default [] (fold_left (λ m rule, multimap_insert (program rule) rule m) rls m !! name) ↔
  rl ∈ default [] (m !! name) ∨ (program rl = name ∧ rl ∈ rls).
Proof.
  revert m. induction rls as [|r rls IH]; intros m; cbn [fold_left]; [set_solver|].
  rewrite IH, multimap_lookup. case_decide; set_solver.
Qed.

Lemma convert_rules_elem i rs m m' name rl :
  convert_rules i rs m = Good m' →
  rl ∈ default [] (m' !! name) ↔
  rl ∈ default [] (m !! name) ∨ (program rl = name ∧ ∃ r j rls, r ∈ rs ∧ rules_of_toml j r = Good rls ∧ rl ∈ rls).
Proof.
  revert i m. induction rs as [|r rs IH]; intros i m; cbn [convert_rules]; [intros [= <-]; set_solver|].
  intros Hm. apply result_bind_Good in Hm as (rls & Hr & Hm). rewrite (IH _ _ Hm), insert_rules_elem. split.
  - intros [[Hl|[Hp Hl]]|(Hp & r' & j & rls' & ? & ? & ?)]; [by left|right..]; (split; [done|]).
    + exists r, i, rls. by split_and!; [left| |].
    + exists r', j, rls'. by split_and!; [right| |].
  - intros [Hl|(Hp & r' & j & rls' & [->|Hin]%elem_of_cons & Hr' & Hl)]; [by left; left| |].
    + left. right. split; [done|]. apply rules_of_toml_Good in Hr as (_ & f1 & s1 & d1 & P1 & D1 & ->).
      apply rules_of_toml_Good in Hr' as (_ & f2 & s2 & d2 & P2 & D2 & ->).
      assert (∀ ts i j k a b, parse_pattern_tokens ts i k = Good a → parse_pattern_tokens ts j k = Good b → a = b) as Hdet.
      { clear. intros ts i j. induction ts as [|t ts IH]; intros k a b; cbn; [congruence|].
        intros Ha Hb. apply result_bind_Good in Ha as (x & Hx & Ha). apply result_bind_Good in Ha as (y & Hy & [= <-]).
        apply result_bind_Good in Hb as (x' & Hx' & Hb). apply result_bind_Good in Hb as (y' & Hy' & [= <-]).
        f_equal; [|by eapply IH]. revert Hx Hx'. unfold parse_pattern_token. repeat case_match; congruence. }
      pose proof (Hdet _ _ _ _ _ _ P1 P2) as [= -> ->].
      assert (d1 = d2) as -> by congruence. done.
    + right. split; [done|]. by exists r', j, rls'.
Qed.

(** The entry of the file that a command matches, word by word. *)
Definition entry_matches (r : RequirementsExecPolicyPrefixRuleToml) (c prefix : list string) : Prop :=
  (∃ rest, c = prefix ++ rest) ∧ Forall2 (λ t w, w ∈ words_of t) (pattern_toml r) prefix.

Lemma Forall2_words rest ts (ws : list string) :
  map alternatives rest = map words_of ts →
  Forall2 (λ t w, w ∈ alternatives t) rest ws ↔ Forall2 (λ t w, w ∈ words_of t) ts ws.
Proof.
  revert ts ws. induction rest as [|p rest IH]; intros [|t ts] ws Hm; try done.
  { by split; intros ->%Forall2_nil_inv_l. }
  cbn in Hm. injection Hm as Hw Hm. destruct ws as [|w ws]; [by split; intros Hf; inversion Hf|].
  by rewrite !Forall2_cons, Hw, (IH ts).
Qed.

(** The policy matches what the file says: a command matches a rule exactly when
    its first words are among those the entry lists, position by position, with
    the entry's decision, which is never to allow. *)
Theorem to_policy_matches t q c m :
  to_policy t = Good q →
  m ∈ exact_matches q c ↔
  ∃ r d prefix, r ∈ prefix_rules t ∧ decision_toml r = Some d ∧ as_decision d ≠ Allow ∧ entry_matches r c prefix ∧
    m = PrefixRuleMatch prefix (as_decision d) None (justification_toml r).
Proof.
  intros Hq. assert (Forall rule_ok (prefix_rules t)) as Hok by (apply to_policy_accepts; by eexists).
  unfold to_policy in Hq. assert (∃ rules, convert_rules 0 (prefix_rules t) ∅ = Good rules ∧ q = policy_new rules) as (rules & Hc & ->).
  { destruct (prefix_rules t); [done|]. apply result_bind_Good in Hq as (rules & ? & [= <-]). by eauto. }
  clear Hq. pose proof (λ name rl, convert_rules_elem _ _ _ _ name rl Hc) as Hel. clear Hc.
  destruct c as [|c0 args].
  { cbn. split; [by intros ?%elem_of_nil|]. intros (r & d & prefix & Hr & _ & _ & [[rest Hp] Hf] & _).
    symmetry in Hp. apply app_nil in Hp as [-> _]. apply Forall2_nil_inv_r in Hf. rewrite Forall_forall in Hok.
    destruct (Hok r Hr) as [? _]. done. }
  cbn [exact_matches]. unfold rules_of. cbn [policy_new from_parts rules_by_program]. rewrite list_elem_of_omap. split.
  - intros (rl & [?%elem_of_nil|(Hp & r & j & rls & Hr & Hj & Hl)]%Hel & Hm); [done|].
    apply rules_of_toml_Good in Hj as ((_ & _ & Hd & _) & first & rest & d & Hps & Ed & ->).
    apply list_elem_of_fmap in Hl as (head & -> & Hh). unfold rule_matches in Hm. cbn [pr_pattern] in Hm.
    destruct (matches_prefix _ _) as [prefix|] eqn:E; [|done]. injection Hm as <-.
    apply matches_prefix_spec in E as (ws & tail & Hc & -> & Hf). cbn [pp_first pp_rest] in *.
    exists r, d, (head :: ws). split_and!; [done|done|destruct Hd; naive_solver| |done]. split; [by exists tail|].
    apply parse_tokens_words in Hps. destruct (pattern_toml r) as [|t0 ts]; [done|]. cbn in Hps. injection Hps as Hw Hws.
    constructor; [by rewrite <-Hw|]. by apply (Forall2_words _ _ _ Hws).
  - intros (r & d & prefix & Hr & Ed & _ & [[tail Hc] Hf] & ->). rewrite Forall_forall in Hok.
    destruct (proj2 (rules_of_toml_ok 0 r) (Hok r Hr)) as [rls Hrls]. pose proof Hrls as Hg.
    apply rules_of_toml_Good in Hrls as (_ & first & rest & d' & Hps & Ed' & Hl). assert (d' = d) as -> by congruence.
    apply parse_tokens_words in Hps. destruct (pattern_toml r) as [|t0 ts]; [done|]. cbn in Hps. injection Hps as Hw Hws.
    apply Forall2_cons_inv_l in Hf as (h & ws & Hh & Hrest & ->).
    injection Hc as -> Hc.
    exists (mkPrefixRule (mkPrefixPattern h rest) (as_decision d) (justification_toml r)). split.
    + apply Hel. right. split; [done|]. exists r, 0, rls. split_and!; [done|done|]. rewrite Hl.
      apply list_elem_of_fmap. exists h. by rewrite Hw.
    + unfold rule_matches. cbn [pr_pattern].
      assert (matches_prefix (mkPrefixPattern h rest) (h :: args) = Some (h :: ws)) as ->; [|done].
      apply matches_prefix_spec. exists ws, tail. cbn. split_and!; [by rewrite Hc|done|].
      by apply (Forall2_words _ _ _ Hws).
Qed.

(** ** What they enforce *)

Section enforced.
Context `{Unicode} `{BashGrammar} `{HostDirs} `{Shlex} `{StarlarkEval} `{Os} `{RulesDirs} (o : os).

Lemma loaded_policy stack q policy :
  load_exec_policy_with_warning o stack = Good (policy, None) → requirements_exec_policy stack = Some q →
  ∃ p, policy = merge_overlay p q.
Proof.
  unfold load_exec_policy_with_warning. destruct (load_exec_policy o stack) as [p|[]] eqn:El; try done.
  intros [= ->] Hq. unfold load_exec_policy in El. rewrite Hq in El.
  apply result_bind_Good in El as (paths & _ & El). apply result_bind_Good in El as (b & _ & El).
  cbn zeta in El. injection El as <-. by eexists.
Qed.

(** C17. A command with a segment that matches an entry of the administrator's file
    is asked about or refused, whatever the approval settings and the sandbox are
    and whatever the rules of users and projects say, as long as the policy was
    loaded without a warning (a rules file that does not parse drops the
    requirements). *)
Theorem requirements_never_skipped t q stack policy req r c prefix b a :
  to_policy t = Good q → requirements_exec_policy stack = Some q →
  load_exec_policy_with_warning o stack = Good (policy, None) →
  r ∈ prefix_rules t → entry_matches r c prefix → c ∈ segments req →
  create_exec_approval_requirement_for_command policy req ≠ Ok (Skip b a).
Proof.
  intros Hq Hs Hl Hr Hm Hc Hk. destruct (loaded_policy stack q policy Hl Hs) as [p ->].
  assert (rule_ok r) as (_ & _ & Hd & _).
  { assert (Forall rule_ok (prefix_rules t)) as Hok by (apply to_policy_accepts; by eexists).
    rewrite Forall_forall in Hok. by apply Hok. }
  assert (∃ d, decision_toml r = Some d ∧ as_decision d ≠ Allow) as (d & Ed & Hna)
    by (destruct Hd as [-> | ->]; by eexists).
  assert (PrefixRuleMatch prefix (as_decision d) None (justification_toml r) ∈ exact_matches (merge_overlay p q) c) as Hx.
  { rewrite exact_matches_merge, elem_of_app. right. apply (to_policy_matches t q c _ Hq). by exists r, d, prefix. }
  assert (rules_for (merge_overlay p q) c = exact_matches (merge_overlay p q) c) as Hrules.
  { unfold rules_for. rewrite rules_for_command_eq. destruct (exact_matches _ c); [by apply elem_of_nil in Hx|done]. }
  assert (Forall (λ c, segment_decision (merge_overlay p q) (exec_policy_fallback req) c = Allow) (segments req)) as Hall
    by (apply skip_iff; by eauto).
  rewrite Forall_forall in Hall. specialize (Hall c Hc). cbn in Hall.
  apply segment_allow in Hall as [[_ Hf]|[He _]]; rewrite Hrules in *.
  - rewrite Forall_forall in Hf. by specialize (Hf _ Hx).
  - rewrite He in Hx. by apply elem_of_nil in Hx.
Qed.
End enforced.
