(* ===== verification/Orchestrator.v ===== *)
(** * Running a tool (core: tools/orchestrator.rs, tools/sandboxing.rs,
    network_policy_decision.rs)

    Approval, choice of a sandbox, an attempt, and after a denial by the sandbox
    perhaps a second attempt without it.  A tool is an instance of the traits
    [Approvable], [Sandboxable] and [ToolRuntime]; what the session, the user,
    the hooks and the tool do is a step of a world that is passed along.  The
    log holds what the telemetry is told and the attempts that were made. *)

From S2P Require Import Prelude RustStr Os AbsPath CommandSafety ExecPolicy ExecRules Permissions SandboxRoots PermissionsFacts PolicyTransforms ExecApproval SandboxManager.

#[local] Open Scope nat_scope.

(** ** Decisions *)

Inductive NetworkPolicyRuleAction := RuleAllow | RuleDeny.

Inductive ReviewDecision :=
| Approved
| ApprovedExecpolicyAmendment (amendment : ExecPolicyAmendment)
| ApprovedForSession
| NetworkPolicyAmendment (host : string) (action : NetworkPolicyRuleAction)
| Denied
| TimedOut
| AbortTurn.

Definition to_opaque_string (d : ReviewDecision) : string :=
  match d with
  | Approved => "approved"
  | ApprovedExecpolicyAmendment _ => "approved_with_amendment"
  | ApprovedForSession => "approved_for_session"
  | NetworkPolicyAmendment _ RuleAllow => "approved_with_network_policy_allow"
  | NetworkPolicyAmendment _ RuleDeny => "denied_with_network_policy_deny"
  | Denied => "denied"
  | TimedOut => "timed_out"
  | AbortTurn => "abort"
  end.

(** ** network_policy_decision.rs *)

Inductive NetworkPolicyDecision := NetDeny | NetAsk.
Inductive NetworkDecisionSource := BaselinePolicy | ModeGuard | ProxyState | Decider.

Record NetworkPolicyDecisionPayload := mkPayload {
  pl_decision : NetworkPolicyDecision;
  pl_source : NetworkDecisionSource;
  pl_protocol : option NetworkRuleProtocol;
  pl_host : option string
}.

Record NetworkApprovalContext := mkNetContext { nc_host : string; nc_protocol : NetworkRuleProtocol }.

Definition is_ask_from_decider (p : NetworkPolicyDecisionPayload) : bool :=
  match pl_decision p, pl_source p with NetAsk, Decider => true | _, _ => false end.

Definition network_approval_context_from_payload (p : NetworkPolicyDecisionPayload) : option NetworkApprovalContext :=
  if negb (is_ask_from_decider p) then None
  else
    protocol ← pl_protocol p;
    host ← trim <$> pl_host p;
    if str_is_empty host then None else Some (mkNetContext host protocol).

(** ** sandboxing.rs: approvals of a session *)

Section store.
Context {K : Type} (key_text : K → option string).

(** Keys are kept as their JSON text. *)
Definition ApprovalStore : Type := gmap string ReviewDecision.

Definition store_get (s : ApprovalStore) (key : K) : option ReviewDecision :=
  text ← key_text key; s !! text.

Definition store_put (key : K) (value : ReviewDecision) (s : ApprovalStore) : ApprovalStore :=
  match key_text key with Some text => <[text := value]> s | None => s end.

Definition is_session_approved (s : ApprovalStore) (key : K) : bool :=
  match store_get s key with Some ApprovedForSession => true | _ => false end.

(** The decision, whether the user was asked for it, and the store.  Other calls
    may use the store while the user is asked: [between] is what they do. *)
Definition with_cached_approval (keys : list K) (answer : ReviewDecision) (between : ApprovalStore → ApprovalStore) (s : ApprovalStore) :
    ReviewDecision * bool * ApprovalStore :=
  match keys with
  | [] => (answer, true, between s)
  | _ =>
      if forallb (is_session_approved s) keys then (ApprovedForSession, false, s)
      else
        let s := between s in
        (answer, true,
         match answer with
         | ApprovedForSession => fold_left (λ s key, store_put key ApprovedForSession s) keys s
         | _ => s
         end)
  end.
End store.

(** ** sandboxing.rs: the traits of tools *)

Record ApprovalCtx := mkApprovalCtx {
  ac_call_id : string;
  ac_guardian_review_id : option string;
  ac_retry_reason : option string;
  ac_network_approval_context : option NetworkApprovalContext
}.

Record SandboxAttempt := mkAttempt {
  at_sandbox : SandboxType;
  at_permissions : PermissionProfile;
  at_enforce_managed_network : bool;
  at_sandbox_cwd : string;
  at_codex_linux_sandbox_exe : option string;
  at_use_legacy_landlock : bool;
  at_windows_sandbox_level : WindowsSandboxLevel
}.

(** The output of a command and the payload of a hook are passed on as they are. *)
Class ToolData := { exec_output : Type; hook_payload : Type }.

Inductive ToolError `{ToolData} :=
| Rejected (reason : string)
| SandboxDenied (output : exec_output) (network_policy_decision : option NetworkPolicyDecisionPayload)
| SandboxTimeout
| SandboxSignal (n : Z)
| CodexError (text : string).

Definition sandbox_outcome_from_tool_error `{ToolData} (e : ToolError) : option string :=
  match e with
  | SandboxDenied _ _ => Some "denied"
  | SandboxTimeout => Some "timed_out"
  | SandboxSignal _ => Some "signal"
  | Rejected _ | CodexError _ => None
  end.

Definition build_denial_reason_from_output `{ToolData} (_ : exec_output) : string :=
  "command failed; retry without sandbox?".

Definition managed_network_for_sandbox_permissions (network : option NetworkProxy) (s : SandboxPermissions) : option NetworkProxy :=
  if requires_escalated_permissions s then None else network.

(** Methods a tool need not write itself. *)
Definition default_should_bypass_approval (policy : AskForApproval) (already_approved : bool) : bool :=
  if already_approved then true else match policy with Never => true | _ => false end.

Definition default_wants_no_sandbox_approval (policy : AskForApproval) : bool :=
  match policy with
  | OnFailure => true
  | UnlessTrusted => true
  | Never => false
  | OnRequest => false
  | Granular granular_config => sandbox_approval granular_config
  end.

Definition patch_wants_no_sandbox_approval (policy : AskForApproval) : bool :=
  match policy with
  | Never => false
  | Granular granular_config => sandbox_approval granular_config
  | OnFailure => true
  | OnRequest => true
  | UnlessTrusted => true
  end.

Class Approvable `{ToolData} (Rq : Type) := {
  sandbox_permissions : Rq → SandboxPermissions;
  should_bypass_approval : AskForApproval → bool → bool;
  exec_approval_requirement : Rq → option ExecApprovalRequirement;
  permission_request_payload : Rq → option hook_payload;
  wants_no_sandbox_approval : AskForApproval → bool
}.

Class Sandboxable := {
  sandbox_preference : SandboxablePreference;
  escalate_on_failure : bool
}.

Inductive PermissionRequestDecision := HookAllow | HookDeny (message : string).

Inductive NetworkApprovalMode := Immediate | Deferred.

(** The session: its settings for the turn, its hooks and reviewers, and the
    approvals of network access that accompany an attempt. *)
Class Session `{ToolData} (w : Type) := {
  strict_auto_review_enabled_for_turn : w → bool * w;
  routes_approval_to_guardian : bool;
  new_guardian_review_id : w → string * w;
  run_permission_request_hooks : string → hook_payload → w → option PermissionRequestDecision * w;
  guardian_rejection_message : string → w → string * w;
  deferred_network_approval : Type;
  active_network_approval : Type;
  network_mode : active_network_approval → NetworkApprovalMode;
  into_deferred : active_network_approval → option deferred_network_approval;
  finish_immediate_network_approval : active_network_approval → w → option ToolError * w;
  finish_deferred_network_approval : option deferred_network_approval → w → option ToolError * w
}.

Class ToolRuntime `{ToolData} (w Rq Out : Type) `{!Session w} := {
  begin_network_approval : bool → Rq → w → option active_network_approval * w;
  tool_sandbox_cwd : Rq → option string;
  tool_run : Rq → SandboxAttempt → w → result ToolError Out * w;
  start_approval_async : Rq → ApprovalCtx → w → ReviewDecision * w
}.

Definition GUARDIAN_TIMEOUT_INSTRUCTIONS : string :=
  "The automatic permission approval review did not finish before its deadline. " +:+
  "Do not assume the action is unsafe based on the timeout alone. " +:+
  "You may retry once, or ask the user for guidance or explicit approval.".

(** ** orchestrator.rs *)

Inductive ToolDecisionSource := FromConfig | FromAutomatedReviewer | FromUser.

Inductive LogEntry :=
| ToolDecision (d : ReviewDecision) (source : ToolDecisionSource)
| SandboxOutcome (outcome : string) (escalated : bool)
| Attempted (sandbox : SandboxType).

Record TurnContext := mkTurn {
  tc_permission_profile : PermissionProfile;
  tc_network : option NetworkProxy;
  tc_windows_sandbox_level : WindowsSandboxLevel;
  tc_use_legacy_landlock : bool;
  tc_cwd : string;
  tc_codex_linux_sandbox_exe : option string;
  tc_call_id : string
}.

Section orchestrator.
Context `{HT : ToolData} {w Rq Out : Type} `{HA : !Approvable Rq} `{HS : Sandboxable} `{Hse : !Session w}
  `{Hr : !ToolRuntime w Rq Out} (target : TargetOs).

(** A computation that may fail, in the world and with the log. *)
Definition Run (A : Type) : Type := w * list LogEntry → result ToolError A * (w * list LogEntry).

#[local] Instance Run_ret : MRet Run := λ A a s, (Good a, s).
#[local] Instance Run_bind : MBind Run := λ A B f m s,
  match m s with (Good a, s') => f a s' | (Bad e, s') => (Bad e, s') end.

Definition act {A} (f : w → A * w) : Run A := λ '(x, log), let '(a, x') := f x in (Good a, (x', log)).
Definition tell (entry : LogEntry) : Run () := λ '(x, log), (Good (), (x, log ++ [entry])).
Definition fail {A} (e : ToolError) : Run A := λ s, (Bad e, s).

Definition run_attempt (req : Rq) (attempt : SandboxAttempt) (managed_network_active : bool) :
    Run (result ToolError Out * option deferred_network_approval) :=
  network_approval ← act (begin_network_approval managed_network_active req);
  _ ← tell (Attempted (at_sandbox attempt));
  run_result ← act (tool_run req attempt);
  match network_approval with
  | None => mret (run_result, None)
  | Some network_approval =>
      match network_mode network_approval with
      | Immediate =>
          finalized ← act (finish_immediate_network_approval network_approval);
          mret (match finalized with Some err => (Bad err, None) | None => (run_result, None) end)
      | Deferred =>
          let deferred := into_deferred network_approval in
          match run_result with
          | Bad _ =>
              finalized ← act (finish_deferred_network_approval deferred);
              mret (match finalized with Some err => (Bad err, None) | None => (run_result, None) end)
          | Good _ => mret (run_result, deferred)
          end
      end
  end.

Definition request_approval (req : Rq) (permission_request_run_id : string) (ctx : ApprovalCtx)
    (evaluate_permission_request_hooks : bool) : Run ReviewDecision :=
  answered ← (if evaluate_permission_request_hooks
              then match permission_request_payload req with
                   | Some payload => act (run_permission_request_hooks permission_request_run_id payload)
                   | None => mret None
                   end
              else mret None);
  match answered with
  | Some HookAllow => _ ← tell (ToolDecision Approved FromConfig); mret Approved
  | Some (HookDeny message) => _ ← tell (ToolDecision Denied FromConfig); fail (Rejected message)
  | None =>
      decision ← act (start_approval_async req ctx);
      _ ← tell (ToolDecision decision (match ac_guardian_review_id ctx with Some _ => FromAutomatedReviewer | None => FromUser end));
      mret decision
  end.

Definition reject_if_not_approved (guardian_review_id : option string) (d : ReviewDecision) : Run () :=
  match d with
  | Denied | AbortTurn =>
      reason ← match guardian_review_id with
               | Some review_id => act (guardian_rejection_message review_id)
               | None => mret "rejected by user"
               end;
      fail (Rejected reason)
  | TimedOut => fail (Rejected GUARDIAN_TIMEOUT_INSTRUCTIONS)
  | Approved | ApprovedExecpolicyAmendment _ | ApprovedForSession => mret ()
  | NetworkPolicyAmendment _ RuleAllow => mret ()
  | NetworkPolicyAmendment _ RuleDeny => fail (Rejected "rejected by user")
  end.

Definition review_id_if (b : bool) : Run (option string) :=
  if b then id ← act new_guardian_review_id; mret (Some id) else mret None.

(** Asking for approval and stopping without it. *)
Definition ask_approval (req : Rq) (turn : TurnContext) (run_id : string) (guardian : bool) (retry_reason : option string)
    (network : option NetworkApprovalContext) (hooks : bool) : Run () :=
  guardian_review_id ← review_id_if guardian;
  decision ← request_approval req run_id (mkApprovalCtx (tc_call_id turn) guardian_review_id retry_reason network) hooks;
  reject_if_not_approved guardian_review_id decision.

Definition attempt_of (req : Rq) (turn : TurnContext) (sandbox : SandboxType) (exe : option string) : SandboxAttempt :=
  mkAttempt sandbox (tc_permission_profile turn) (match tc_network turn with Some _ => true | None => false end)
    (default (tc_cwd turn) (tool_sandbox_cwd req)) exe (tc_use_legacy_landlock turn) (tc_windows_sandbox_level turn).

Definition select_for (turn : TurnContext) : SandboxType :=
  select_initial target (file_system_sandbox_policy (tc_permission_profile turn)) (network_sandbox_policy (tc_permission_profile turn))
    sandbox_preference (tc_windows_sandbox_level turn) (match tc_network turn with Some _ => true | None => false end).

(** 1) Approval: was the user or a reviewer asked? *)
Definition approval_phase (req : Rq) (turn : TurnContext) (requirement : ExecApprovalRequirement) (strict use_guardian : bool) : Run bool :=
  match requirement with
  | Skip _ _ =>
      if strict then
        _ ← ask_approval req turn (tc_call_id turn) true None None false;
        mret true
      else
        _ ← tell (ToolDecision Approved FromConfig);
        mret false
  | ForbiddenExec reason => fail (Rejected reason)
  | NeedsApproval reason _ =>
      _ ← ask_approval req turn (tc_call_id turn) use_guardian reason None (negb strict);
      mret true
  end.

(** After a denial: is there no second attempt? *)
Definition gives_up (policy : AskForApproval) (turn : TurnContext) (payload : option NetworkPolicyDecisionPayload)
    (context : option NetworkApprovalContext) : bool :=
  let fs := file_system_sandbox_policy (tc_permission_profile turn) in
  (match payload, context with Some _, None => true | _, _ => false end)
  || negb escalate_on_failure
  || (negb (wants_no_sandbox_approval policy)
      && negb (match policy, context, default_exec_approval_requirement policy fs with
               | OnRequest, Some _, NeedsApproval _ _ => true
               | _, _, _ => false
               end))
  || (negb (unsandboxed_execution_allowed fs) && match context with None => true | Some _ => false end).

Definition retry_phase (req : Rq) (turn : TurnContext) (policy : AskForApproval) (strict use_guardian already_approved : bool)
    (output : exec_output) (payload : option NetworkPolicyDecisionPayload) : Run (Out * option deferred_network_approval) :=
  let fs := file_system_sandbox_policy (tc_permission_profile turn) in
  let managed_network_active := match tc_network turn with Some _ => true | None => false end in
  let context := if managed_network_active then payload ≫= network_approval_context_from_payload else None in
  if gives_up policy turn payload context then
    _ ← tell (SandboxOutcome "denied" false);
    fail (SandboxDenied output payload)
  else
    let retry_reason :=
      match context with
      | Some context => "Network access to " +:+ quote +:+ nc_host context +:+ quote +:+ " is blocked by policy."
      | None => build_denial_reason_from_output output
      end in
    let bypass_retry_approval :=
      negb strict && should_bypass_approval policy already_approved && match context with None => true | Some _ => false end in
    _ ← (if bypass_retry_approval then mret ()
         else ask_approval req turn (tc_call_id turn +:+ ":retry") use_guardian (Some retry_reason) context (negb strict));
    let unsandboxed_allowed := unsandboxed_execution_allowed fs in
    let attempt :=
      if unsandboxed_allowed then attempt_of req turn SandboxNone None
      else attempt_of req turn (select_for turn) (tc_codex_linux_sandbox_exe turn) in
    '(retry_result, deferred) ← run_attempt req attempt managed_network_active;
    match retry_result with
    | Good out => _ ← tell (SandboxOutcome "escalated" true); mret (out, deferred)
    | Bad err =>
        _ ← match sandbox_outcome_from_tool_error err with
            | Some outcome => tell (SandboxOutcome outcome true)
            | None => mret ()
            end;
        fail err
    end.

Definition orchestrator_run (req : Rq) (turn : TurnContext) (policy : AskForApproval) : Run (Out * option deferred_network_approval) :=
  strict ← act strict_auto_review_enabled_for_turn;
  let use_guardian := routes_approval_to_guardian || strict in
  let fs := file_system_sandbox_policy (tc_permission_profile turn) in
  let requirement := default (default_exec_approval_requirement policy fs) (exec_approval_requirement req) in
  already_approved ← approval_phase req turn requirement strict use_guardian;
  let managed_network_active := match tc_network turn with Some _ => true | None => false end in
  let initial_sandbox :=
    match sandbox_override_for_first_attempt (sandbox_permissions req) requirement fs with
    | BypassSandboxFirstAttempt => SandboxNone
    | NoOverride => select_for turn
    end in
  '(first_result, deferred) ←
    run_attempt req (attempt_of req turn initial_sandbox (tc_codex_linux_sandbox_exe turn)) managed_network_active;
  match first_result with
  | Good out => mret (out, deferred)
  | Bad (SandboxDenied output payload) => retry_phase req turn policy strict use_guardian already_approved output payload
  | Bad err =>
      _ ← match sandbox_outcome_from_tool_error err with
          | Some outcome => tell (SandboxOutcome outcome false)
          | None => mret ()
          end;
      fail err
  end.
End orchestrator.
