(* ===== verification/OrchestratorFacts.v ===== *)
(** * What running a tool may do (core: tools/orchestrator.rs)

    Every run follows one protocol: an answer first, at most two attempts, the
    second only after a denial by the sandbox and with an approval. *)

From S2P Require Import Prelude RustStr Os AbsPath ExecPolicy Permissions SandboxRoots PermissionsFacts PolicyTransforms ExecApproval SandboxManager Orchestrator.

#[local] Open Scope nat_scope.

(** ** The approvals of a session *)

Section cache.
Context {K : Type} (key_text : K → option string).

(** A request for approval: its keys, the answer if the user is asked, and what
    other calls do to the store meanwhile. *)
Record Query := mkQuery { q_keys : list K; q_answer : ReviewDecision }.

(** Answers in order, each with whether the user was asked. *)
Fixpoint answer_all (qs : list Query) (s : ApprovalStore) : list (ReviewDecision * bool) :=
  match qs with
  | [] => []
  | q :: qs' =>
      let '(d, asked, s') := with_cached_approval key_text (q_keys q) (q_answer q) (λ s, s) s in
      (d, asked) :: answer_all qs' s'
  end.

(** Keys the user has approved for the session so far. *)
Definition approved_texts (qs : list Query) : list string :=
  concat (map (λ q, match q_answer q with ApprovedForSession => omap key_text (q_keys q) | _ => [] end) qs).

Definition store_ok (past : list Query) (s : ApprovalStore) : Prop :=
  ∀ text d, s !! text = Some d → d = ApprovedForSession ∧ text ∈ approved_texts past.

Lemma put_all_elem keys s text d :
  fold_left (λ s key, store_put key_text key ApprovedForSession s) keys s !! text = Some d →
  s !! text = Some d ∨ (d = ApprovedForSession ∧ text ∈ omap key_text keys).
Proof.
  revert s. induction keys as [|k keys IH]; intros s; cbn [fold_left]; [by left|].
  intros [Hs|[-> Hin]]%IH.
  - unfold store_put in Hs. cbn. destruct (key_text k) as [t|] eqn:E; [|by left].
    apply lookup_insert_Some in Hs as [[-> <-]|[_ ?]]; [right; split; [done|by left]|by left].
  - right. split; [done|]. cbn. destruct (key_text k); [by right|done].
Qed.

Lemma approved_snoc past q :
  approved_texts (past ++ [q]) =
  approved_texts past ++ match q_answer q with ApprovedForSession => omap key_text (q_keys q) | _ => [] end.
Proof. unfold approved_texts. rewrite map_app, concat_app. cbn. by rewrite app_nil_r. Qed.

Lemma cached_step past q s d asked s' :
  store_ok past s → with_cached_approval key_text (q_keys q) (q_answer q) (λ s, s) s = (d, asked, s') →
  store_ok (past ++ [q]) s' ∧
  (asked = true ∧ d = q_answer q ∨
   asked = false ∧ d = ApprovedForSession ∧ q_keys q ≠ [] ∧
     Forall (λ key, ∃ text, key_text key = Some text ∧ text ∈ approved_texts past) (q_keys q)).
Proof.
  intros Hok. unfold with_cached_approval.
  assert (store_ok (past ++ [q]) s) as Hmono.
  { intros text d' Hs. destruct (Hok _ _ Hs) as [? Hin]. split; [done|]. rewrite approved_snoc. set_solver. }
  destruct (q_keys q) as [|k ks] eqn:Ek; [intros [= <- <- <-]; by auto|].
  destruct (forallb _ _) eqn:Ef.
  - intros [= <- <- <-]. split; [done|]. right. split_and!; [done..|]. apply Forall_forall. intros key Hkey.
    rewrite forallb_forall in Ef. specialize (Ef key ltac:(by apply list_elem_of_In)). unfold is_session_approved, store_get in Ef.
    destruct (key_text key) as [text|]; [|done]. cbn in Ef. destruct (s !! text) as [d'|] eqn:Es; [|done].
    exists text. split; [done|]. by apply (Hok _ _ Es).
  - intros [= <- <- <-]. split; [|auto]. destruct (q_answer q) eqn:Ea; try done.
    intros text d' [Hs|[-> Hin]]%(put_all_elem (k :: ks)); [exact (Hmono _ _ Hs)|]. split; [done|].
    rewrite approved_snoc, Ea, Ek. set_solver.
Qed.

(** The user is not asked a second time only for what was approved for the
    session: an answer that comes from the store is an approval, and every key
    of the request was approved for the session in an earlier one. *)
Theorem cached_approval_sound qs i q d :
  qs !! i = Some q → answer_all qs ∅ !! i = Some (d, false) →
  d = ApprovedForSession ∧ q_keys q ≠ [] ∧
  ∀ key, key ∈ q_keys q → ∃ text j q', key_text key = Some text ∧ j < i ∧ qs !! j = Some q' ∧
    q_answer q' = ApprovedForSession ∧ ∃ key', key' ∈ q_keys q' ∧ key_text key' = Some text.
Proof.
  assert (∀ rest past s k, store_ok past s → (past ++ rest) !! (length past + k) = Some q →
    answer_all rest s !! k = Some (d, false) →
    d = ApprovedForSession ∧ q_keys q ≠ [] ∧ ∀ key, key ∈ q_keys q → ∃ text, key_text key = Some text ∧
      text ∈ approved_texts (take (length past + k) (past ++ rest))) as Hgen.
  { intros rest. induction rest as [|q0 rest IH]; intros past s k Hok Hq; cbn [answer_all]; [done|].
    destruct (with_cached_approval _ _ _ _ _) as [[d0 asked] s'] eqn:E.
    destruct (cached_step _ _ _ _ _ _ Hok E) as [Hok' Hc]. destruct k as [|k].
    - intros [= -> ->]. rewrite Nat.add_0_r in *. rewrite take_app_length.
      rewrite lookup_app_r, Nat.sub_diag in Hq by lia. injection Hq as ->.
      destruct Hc as [[? _]|(_ & Hd & Hne & Hall)]; [done|]. split_and!; [done|done|]. by apply Forall_forall.
    - intros Ha. destruct (IH (past ++ [q0]) s' k Hok') as (Hd & Hne & Hall); [|exact Ha|].
      { rewrite length_app, <-app_assoc. cbn. by replace (length past + 1 + k) with (length past + S k) by lia. }
      split_and!; [done|done|]. intros key Hkey. destruct (Hall key Hkey) as (text & Ht & Hin). exists text. split; [done|].
      rewrite length_app, <-app_assoc in Hin. cbn in Hin. by replace (length past + S k) with (length past + 1 + k) by lia. }
  intros Hq Ha. destruct (Hgen qs [] ∅ i) as (Hd & Hne & Hall); [by intros text d' Hs|done|done|].
  split_and!; [done|done|]. intros key Hkey. destruct (Hall key Hkey) as (text & Ht & Hin). cbn in Hin.
  unfold approved_texts in Hin. apply elem_of_concat in Hin as (l & (q' & -> & Hq')%list_elem_of_fmap & Hl).
  apply list_elem_of_lookup in Hq' as (j & Hj). apply lookup_take_Some in Hj as [Hj Hlt].
  destruct (q_answer q') eqn:Ea; try by apply elem_of_nil in Hl. apply list_elem_of_omap in Hl as (key' & Hk' & Ht').
  exists text, j, q'. split_and!; [done|lia|done|done|]. by exists key'.
Qed.
End cache.

(** ** The protocol *)

Definition approving (d : ReviewDecision) : bool :=
  match d with
  | Approved | ApprovedExecpolicyAmendment _ | ApprovedForSession | NetworkPolicyAmendment _ RuleAllow => true
  | _ => false
  end.

Section protocol.
Context `{HT : ToolData} {w Rq Out : Type} `{HA : !Approvable Rq} `{HS : Sandboxable} `{Hse : !Session w}
  `{Hr : !ToolRuntime w Rq Out} (target : TargetOs).

#[local] Existing Instances Run_ret Run_bind.











(** Asking ends in an approval, or in a refusal of the tool. *)
Definition asked (r : result ToolError ()) (n : list LogEntry) : Prop :=
  ∃ d source, n = [ToolDecision d source] ∧
    match r with Good _ => approving d = true | Bad e => approving d = false ∧ ∃ text, e = Rejected text end.













End protocol.
