(* ===== verification/NetworkApproval.v ===== *)
(** * Approvals of network access (core: tools/network_approval.rs,
      network_policy_decision.rs, and the amendments of session/mod.rs)

    When the proxy meets a host that is on no list it asks a decider.  This is
    the decider of a session: it answers from what was approved or denied for the
    session, lets one request per host ask the hooks, the reviewer or the user
    while the others wait for its answer, and tells the tool call to which a
    refusal belongs.  Its state is shared by all requests; every holding of one
    of its locks is one action.  The second half proves what every interleaving of
    requests and calls keeps, what a granted request rests on, and how the service
    fits the proxy. *)

From S2P Require Import Prelude RustStr Json Lifecycle Os AbsPath CommandSafety ExecPolicy Permissions SandboxRoots PolicyTransforms ExecApproval SandboxManager Orchestrator Proc NetPolicy NetworkProxy ProxyHandlers NetworkFacts.

#[local] Open Scope nat_scope.

(** ** Data *)

(** [NetworkApprovalProtocol] has the protocols of the rules. *)
Abbreviation NetworkApprovalProtocol := NetworkRuleProtocol (only parsing).

Record GuardianNetworkAccessTrigger := mkTrigger {
  tr_call_id : string;
  tr_tool_name : string;
  tr_command : list string;
  tr_cwd : string;
  tr_sandbox_permissions : SandboxPermissions;
  tr_additional_permissions : option AdditionalPermissionProfile;
  tr_justification : option string;
  tr_tty : option bool
}.

Record NetworkApprovalSpec := mkSpec {
  sp_network : option NetworkProxy;
  sp_mode : NetworkApprovalMode;
  sp_trigger : GuardianNetworkAccessTrigger;
  sp_command : string
}.

(** A token is named by the registration it was made for. *)
Definition CancellationToken : Type := string.

Record DeferredNetworkApproval := mkDeferred { df_registration_id : string; df_cancellation_token : CancellationToken }.

Record ActiveNetworkApproval := mkActive {
  av_registration_id : option string;
  av_mode : NetworkApprovalMode;
  av_cancellation_token : CancellationToken
}.

Definition approval_into_deferred (a : ActiveNetworkApproval) : option DeferredNetworkApproval :=
  match av_mode a, av_registration_id a with
  | Deferred, Some registration_id => Some (mkDeferred registration_id (av_cancellation_token a))
  | _, _ => None
  end.

Record HostApprovalKey := mkKey { hk_host : string; hk_protocol : string; hk_port : N }.

#[export] Instance key_eq_dec : EqDecision HostApprovalKey.
Proof. solve_decision. Defined.
#[export] Instance key_countable : Countable HostApprovalKey.
Proof.
  refine (inj_countable' (λ k, (hk_host k, hk_protocol k, hk_port k)) (λ '(h, p, n), mkKey h p n) _). by intros [].
Defined.

Definition protocol_key_label (protocol : NetworkApprovalProtocol) : string :=
  match protocol with
  | ExecPolicy.Http => "http"
  | ExecPolicy.Https => "https"
  | ExecPolicy.Socks5Tcp => "socks5-tcp"
  | ExecPolicy.Socks5Udp => "socks5-udp"
  end.

Definition key_from_request (request : NetworkPolicyRequest) (protocol : NetworkApprovalProtocol) : HostApprovalKey :=
  mkKey (to_ascii_lowercase (pr_host request)) (protocol_key_label protocol) (pr_port request).

Inductive PendingApprovalDecision := AllowOnce | AllowForSession | PendingDeny.

Inductive NetworkApprovalOutcome := DeniedByUser | DeniedByPolicy (message : string).

(** [None] is success; every failure is [ToolError::Rejected]. *)
Definition network_approval_outcome_to_result (outcome : option NetworkApprovalOutcome) : option string :=
  match outcome with
  | Some DeniedByUser => Some "rejected by user"
  | Some (DeniedByPolicy message) => Some message
  | None => None
  end.

Definition allows_network_approval_flow (policy : AskForApproval) : bool := match policy with Never => false | _ => true end.

Definition permission_profile_allows_network_approval_flow (p : PermissionProfile) : bool :=
  match p with Managed _ _ => true | _ => false end.

(** [NetworkDecision::deny] and [NetworkDecision::ask]. *)
Definition decision_deny (reason : string) : NetworkDecision := deny_with_source reason ProxyHandlers.Decider.

Definition decision_ask (reason : string) : NetworkDecision := ask_with_source reason ProxyHandlers.Decider.

Definition to_network_decision (d : PendingApprovalDecision) : NetworkDecision :=
  match d with
  | AllowOnce | AllowForSession => ProxyHandlers.Allow
  | PendingDeny => decision_deny "not_allowed"
  end.

(** A decision that several requests wait for: [pa_notified] counts the calls of
    [notify_waiters]. *)
Record PendingHostApproval := mkPending { pa_decision : option PendingApprovalDecision; pa_notified : nat }.

Record ActiveNetworkApprovalCall := mkCall {
  cl_registration_id : string;
  cl_turn_id : string;
  cl_trigger : GuardianNetworkAccessTrigger;
  cl_command : string;
  cl_cancellation_token : CancellationToken
}.

(** The service.  Calls are in the order of their registration; pending
    approvals are references into [na_cells]; [na_finished] holds the cells that
    the deferred approvals of a registration share, [na_cancelled] the tokens
    that were cancelled. *)
Record NetworkApprovalService := mkService {
  na_active_calls : list (string * ActiveNetworkApprovalCall);
  na_call_outcomes : gmap string NetworkApprovalOutcome;
  na_pending : gmap HostApprovalKey nat;
  na_cells : list PendingHostApproval;
  na_approved : gset HostApprovalKey;
  na_denied : gset HostApprovalKey;
  na_finished : gmap string (option NetworkApprovalOutcome);
  na_cancelled : gset CancellationToken
}.

Definition service_default : NetworkApprovalService := mkService [] ∅ ∅ [] ∅ ∅ ∅ ∅.

Definition set_calls (calls : list (string * ActiveNetworkApprovalCall)) (outcomes : gmap string NetworkApprovalOutcome)
    (s : NetworkApprovalService) : NetworkApprovalService :=
  mkService calls outcomes (na_pending s) (na_cells s) (na_approved s) (na_denied s) (na_finished s) (na_cancelled s).

Definition set_pending (pending : gmap HostApprovalKey nat) (cells : list PendingHostApproval) (s : NetworkApprovalService) :
    NetworkApprovalService :=
  mkService (na_active_calls s) (na_call_outcomes s) pending cells (na_approved s) (na_denied s) (na_finished s) (na_cancelled s).

Definition set_approved (approved : gset HostApprovalKey) (s : NetworkApprovalService) : NetworkApprovalService :=
  mkService (na_active_calls s) (na_call_outcomes s) (na_pending s) (na_cells s) approved (na_denied s) (na_finished s) (na_cancelled s).

Definition set_denied (denied : gset HostApprovalKey) (s : NetworkApprovalService) : NetworkApprovalService :=
  mkService (na_active_calls s) (na_call_outcomes s) (na_pending s) (na_cells s) (na_approved s) denied (na_finished s) (na_cancelled s).

Definition set_finished (finished : gmap string (option NetworkApprovalOutcome)) (s : NetworkApprovalService) : NetworkApprovalService :=
  mkService (na_active_calls s) (na_call_outcomes s) (na_pending s) (na_cells s) (na_approved s) (na_denied s) finished (na_cancelled s).

Definition set_cancelled (cancelled : gset CancellationToken) (s : NetworkApprovalService) : NetworkApprovalService :=
  mkService (na_active_calls s) (na_call_outcomes s) (na_pending s) (na_cells s) (na_approved s) (na_denied s) (na_finished s) cancelled.

(** [IndexMap::insert] keeps the place of a key that is there. *)
Fixpoint index_insert {A} (key : string) (a : A) (l : list (string * A)) : list (string * A) :=
  match l with
  | [] => [(key, a)]
  | (k, b) :: l' => if k == key then (k, a) :: l' else (k, b) :: index_insert key a l'
  end.

Definition index_get {A} (key : string) (l : list (string * A)) : option A := snd <$> find (λ e, fst e == key) l.

(** [IndexMap::shift_remove]. *)
Definition shift_remove {A} (key : string) (l : list (string * A)) : list (string * A) := List.filter (λ e, negb (fst e == key)) l.

(** ** Messages (network_policy_decision.rs) *)

Definition parse_network_policy_decision (value : string) : option ProxyHandlers.NetworkPolicyDecision :=
  if value == "deny" then Some PolicyDeny else if value == "ask" then Some PolicyAsk else None.

Definition denial_detail (reason : string) : string :=
  if reason == "denied" then "domain is explicitly denied by policy and cannot be approved from this prompt"
  else if reason == "not_allowed" then "domain is not on the allowlist for the current sandbox mode"
  else if reason == "not_allowed_local" then "local/private network addresses are blocked by the sandbox policy"
  else if reason == "method_not_allowed" then "request method is blocked by the current network mode"
  else if reason == "proxy_disabled" then "network proxy is disabled"
  else "request is blocked by network policy".

Definition denied_network_policy_message (blocked : BlockedRequest) : option string :=
  match ba_decision (br_args blocked) ≫= parse_network_policy_decision with
  | Some PolicyDeny =>
      let host := trim (ba_host (br_args blocked)) in
      Some (if str_is_empty host then "Network access was blocked by policy."
            else "Network access to " +:+ quote +:+ host +:+ quote +:+ " was blocked: " +:+ denial_detail (ba_reason (br_args blocked)) +:+ ".")
  | _ => None
  end.

Record ExecPolicyNetworkRuleAmendment := mkRuleAmendment {
  ra_protocol : NetworkRuleProtocol;
  ra_decision : ExecPolicy.Decision;
  ra_justification : string
}.

Definition protocol_rule_label (protocol : NetworkApprovalProtocol) : string :=
  match protocol with
  | ExecPolicy.Http => "http"
  | ExecPolicy.Https => "https_connect"
  | ExecPolicy.Socks5Tcp => "socks5_tcp"
  | ExecPolicy.Socks5Udp => "socks5_udp"
  end.

Definition execpolicy_network_rule_amendment (action : NetworkPolicyRuleAction) (context : NetworkApprovalContext) (host : string) :
    ExecPolicyNetworkRuleAmendment :=
  let '(decision, action_verb) :=
    match action with RuleAllow => (ExecPolicy.Allow, "Allow") | RuleDeny => (Forbidden, "Deny") end in
  mkRuleAmendment (nc_protocol context) decision
    (action_verb +:+ " " +:+ protocol_rule_label (nc_protocol context) +:+ " access to " +:+ host).

(** ** The session *)

(** What the reviewer is asked. *)
Record GuardianNetworkAccess := mkNetworkAccess {
  ga_id : string;
  ga_turn_id : string;
  ga_target : string;
  ga_host : string;
  ga_protocol : NetworkApprovalProtocol;
  ga_port : N;
  ga_trigger : option GuardianNetworkAccessTrigger
}.

(** What the user is asked. *)
Record CommandPrompt := mkPrompt {
  cp_call_id : string;
  cp_command : list string;
  cp_cwd : string;
  cp_reason : option string;
  cp_network_approval_context : option NetworkApprovalContext
}.

(** The state of the service is a part of what lives beside the proxy. *)
Class ApprovalExt `{NetEnv} := {
  ext_approvals : Ext → NetworkApprovalService;
  set_ext_approvals : NetworkApprovalService → Ext → Ext;
  ext_get_set s e : ext_approvals (set_ext_approvals s e) = s
}.

(** The session as the service sees it: the turn that is active with its
    settings, its hooks, reviewer and user, and what an amendment is written to.
    All of it may take any number of actions. *)
Class ApprovalSession `{NetEnv} := {
  Turn : Type;
  turn_permission_profile : Turn → PermissionProfile;
  turn_approval_policy : Turn → AskForApproval;
  turn_sub_id : Turn → string;
  turn_cwd : Turn → string;
  turn_routes_to_guardian : Turn → bool;
  session_upgrade : Proc NetWorld bool;
  active_turn_context : Proc NetWorld (option Turn);
  permission_request_hooks : Turn → string → string → option string → Proc NetWorld (option PermissionRequestDecision);
  new_review_id : Proc NetWorld string;
  review_approval_request : Turn → string → GuardianNetworkAccess → option string → Proc NetWorld ReviewDecision;
  request_command_approval : Turn → CommandPrompt → Proc NetWorld ReviewDecision;
  rejection_message : string → Proc NetWorld string;
  acquire_refresh_lock : Proc NetWorld ();
  network_proxy_started : Proc NetWorld bool;
  append_network_rule_and_update : string → NetworkRuleProtocol → ExecPolicy.Decision → option string → Proc NetWorld ();
  record_network_policy_amendment_message : string → string → NetworkPolicyRuleAction → Proc NetWorld ();
  send_warning : string → string → Proc NetWorld ();
  new_uuid : Proc NetWorld string
}.

Section service.
Context `{HU : Unicode} `{HD : HostDirs} `{HL : NetLibs} `{HH : HttpLib} `{HO : HashOrder} `{HE : NetEnv} `{HX : !ApprovalExt} `{HS : !ApprovalSession}.

Definition approvals (w : NetWorld) : NetworkApprovalService := ext_approvals (nw_ext w).

(** What is done while one of the locks is held. *)
Definition with_service {A} (f : NetworkApprovalService → A * NetworkApprovalService) : Proc NetWorld A :=
  atomic (λ w, let '(a, s) := f (approvals w) in
               (Ok a, mkNetWorld _ (nw_state w) (nw_observer w) (nw_audit w) (nw_tick w) (set_ext_approvals s (nw_ext w)))).

Definition read_service {A} (f : NetworkApprovalService → A) : Proc NetWorld A := atomic (gets (λ w, f (approvals w))).

(** *** Decisions that are waited for *)

Definition cell (id : nat) (s : NetworkApprovalService) : PendingHostApproval := default (mkPending None 0) (na_cells s !! id).

Definition set_cell (id : nat) (c : PendingHostApproval) (s : NetworkApprovalService) : NetworkApprovalService :=
  set_pending (na_pending s) (<[id := c]> (na_cells s)) s.

(** [notified()] sees every later [notify_waiters()], also before it is awaited.
    [waiting] is what it had seen when the wait began; [None] is the answer when
    the rounds are used up and there is no decision yet. *)
Fixpoint wait_for_decision (rounds : nat) (id : nat) (waiting : option nat) : Proc NetWorld (option PendingApprovalDecision) :=
  match rounds with
  | O => mret None
  | S rounds =>
      notified ← read_service (λ s, pa_notified (cell id s));
      match waiting with
      | Some seen => wait_for_decision rounds id (if notified =? seen then Some seen else None)
      | None =>
          decision ← read_service (λ s, pa_decision (cell id s));
          match decision with
          | Some decision => mret (Some decision)
          | None => wait_for_decision rounds id (Some notified)
          end
      end
  end.

Definition set_decision (id : nat) (decision : PendingApprovalDecision) : Proc NetWorld () :=
  _ ← with_service (λ s, ((), set_cell id (mkPending (Some decision) (pa_notified (cell id s))) s));
  with_service (λ s, ((), set_cell id (mkPending (pa_decision (cell id s)) (S (pa_notified (cell id s)))) s)).

Definition get_or_create_pending_approval (key : HostApprovalKey) : Proc NetWorld (nat * bool) :=
  with_service (λ s,
    match na_pending s !! key with
    | Some existing => ((existing, false), s)
    | None =>
        let created := length (na_cells s) in
        ((created, true), set_pending (<[key := created]> (na_pending s)) (na_cells s ++ [mkPending None 0]) s)
    end).

Definition remove_pending (key : HostApprovalKey) : Proc NetWorld () :=
  with_service (λ s, ((), set_pending (delete key (na_pending s)) (na_cells s) s)).

(** *** Calls *)

(** The target's approved hosts become those of the source. *)
Definition sync_session_approved_hosts_to (source : NetworkApprovalService) : Proc NetWorld () :=
  let approved_hosts := na_approved source in
  with_service (λ other, ((), set_approved approved_hosts other)).

Definition register_call (registration_id turn_id : string) (trigger : GuardianNetworkAccessTrigger) (command : string)
    (token : CancellationToken) : Proc NetWorld () :=
  with_service (λ s,
    ((), set_calls (index_insert registration_id (mkCall registration_id turn_id trigger command token) (na_active_calls s)) (na_call_outcomes s) s)).

Definition take_call (registration_id : string) (s : NetworkApprovalService) : option NetworkApprovalOutcome * NetworkApprovalService :=
  (na_call_outcomes s !! registration_id,
   set_calls (shift_remove registration_id (na_active_calls s)) (delete registration_id (na_call_outcomes s)) s).

Definition remove_call (registration_id : string) : Proc NetWorld (option NetworkApprovalOutcome) := with_service (take_call registration_id).

Definition unregister_call (registration_id : string) : Proc NetWorld () := _ ← remove_call registration_id; mret ().

Definition resolve_single_active_call : Proc NetWorld (option ActiveNetworkApprovalCall) :=
  read_service (λ s, match na_active_calls s with [(_, call)] => Some call | _ => None end).

(** The outcome is noted for a call that is active, unless the user denied it
    already; then its token is cancelled. *)
Definition note_outcome (registration_id : string) (outcome : NetworkApprovalOutcome) (s : NetworkApprovalService) :
    option CancellationToken * NetworkApprovalService :=
  match index_get registration_id (na_active_calls s) with
  | None => (None, s)
  | Some call =>
      match na_call_outcomes s !! registration_id with
      | Some DeniedByUser => (None, s)
      | _ => (Some (cl_cancellation_token call), set_calls (na_active_calls s) (<[registration_id := outcome]> (na_call_outcomes s)) s)
      end
  end.

Definition record_call_outcome (registration_id : string) (outcome : NetworkApprovalOutcome) : Proc NetWorld () :=
  cancelled ← with_service (note_outcome registration_id outcome);
  match cancelled with
  | Some token => with_service (λ s, ((), set_cancelled ({[token]} ∪ na_cancelled s) s))
  | None => mret ()
  end.

Definition record_outcome_for_single_active_call (outcome : NetworkApprovalOutcome) : Proc NetWorld () :=
  owner_call ← resolve_single_active_call;
  match owner_call with
  | Some owner_call => record_call_outcome (cl_registration_id owner_call) outcome
  | None => mret ()
  end.

Definition record_blocked_request (blocked : BlockedRequest) : Proc NetWorld () :=
  match denied_network_policy_message blocked with
  | Some message => record_outcome_for_single_active_call (DeniedByPolicy message)
  | None => mret ()
  end.

Definition finish_call (registration_id : string) : Proc NetWorld (option string) :=
  outcome ← remove_call registration_id; mret (network_approval_outcome_to_result outcome).

(** [OnceCell::get_or_init]: the first finish takes the outcome, the others see it. *)
Definition deferred_finish (d : DeferredNetworkApproval) : Proc NetWorld (option string) :=
  outcome ← with_service (λ s,
    match na_finished s !! df_registration_id d with
    | Some outcome => (outcome, s)
    | None => let '(outcome, s) := take_call (df_registration_id d) s in
              (outcome, set_finished (<[df_registration_id d := outcome]> (na_finished s)) s)
    end);
  mret (network_approval_outcome_to_result outcome).

Definition begin_approval (turn_id : string) (managed_network_active : bool) (spec : option NetworkApprovalSpec) :
    Proc NetWorld (option ActiveNetworkApproval) :=
  match spec with
  | None => mret None
  | Some spec =>
      if negb managed_network_active || bool_decide (sp_network spec = None) then mret None
      else
        registration_id ← new_uuid;
        let token := registration_id in
        _ ← register_call registration_id turn_id (sp_trigger spec) (sp_command spec) token;
        mret (Some (mkActive (Some registration_id) (sp_mode spec) token))
  end.

Definition finish_immediate (active : ActiveNetworkApproval) : Proc NetWorld (option string) :=
  match av_registration_id active with Some registration_id => finish_call registration_id | None => mret None end.

Definition finish_deferred (deferred : option DeferredNetworkApproval) : Proc NetWorld (option string) :=
  match deferred with Some deferred => deferred_finish deferred | None => mret None end.

(** *** Amendments (session/mod.rs)

    An error is the text of its whole chain. *)

Definition validated_network_policy_amendment_host (amendment_host : string) (context : NetworkApprovalContext) : res string :=
  let approved_host := normalize_host (nc_host context) in
  _ ← ensure (normalize_host amendment_host == approved_host)
        ("network policy amendment host '" +:+ amendment_host +:+ "' does not match approved host '" +:+ nc_host context +:+ "'");
  Ok approved_host.

Definition context_err {A} (f : string → string) (p : Proc NetWorld A) : Proc NetWorld A :=
  r ← attempt p;
  plift (match r with Err e => Err (f e) | _ => r end).

(** [None] when the rounds of the list's update are used up. *)
Definition persist_network_policy_amendment (rounds : nat) (host : string) (action : NetworkPolicyRuleAction)
    (context : NetworkApprovalContext) : Proc NetWorld (option ()) :=
  _ ← context_err (λ _, "managed network proxy refresh semaphore closed") acquire_refresh_lock;
  host ← plift (validated_network_policy_amendment_host host context);
  let amendment := execpolicy_network_rule_amendment action context host in
  started ← network_proxy_started;
  updated ← (if started : bool then
               match action with
               | RuleAllow => context_err (λ err, "failed to update runtime allowlist: " +:+ err) (add_allowed_domain rounds host)
               | RuleDeny => context_err (λ err, "failed to update runtime denylist: " +:+ err) (add_denied_domain rounds host)
               end
             else mret (Some ()));
  match updated with
  | None => mret None
  | Some _ =>
      _ ← context_err (λ err, "failed to persist network policy amendment to execpolicy: " +:+ err)
            (append_network_rule_and_update host (ra_protocol amendment) (ra_decision amendment) (Some (ra_justification amendment)));
      mret (Some ())
  end.

(** The amendment is written; a failure only leads to a warning. *)
Definition apply_amendment (rounds : nat) (turn : Turn) (host : string) (action : NetworkPolicyRuleAction) (context : NetworkApprovalContext) :
    Proc NetWorld (option ()) :=
  r ← attempt (persist_network_policy_amendment rounds host action context);
  match r with
  | Ok None => mret None
  | Ok (Some _) => _ ← record_network_policy_amendment_message (turn_sub_id turn) host action; mret (Some ())
  | Err err => _ ← send_warning (turn_sub_id turn) ("Failed to apply network policy amendment: " +:+ err); mret (Some ())
  | Panic => plift Panic
  end.

(** *** Requests *)

Definition approval_protocol (p : NetworkProtocol) : NetworkApprovalProtocol :=
  match p with
  | ProxyHandlers.Http => ExecPolicy.Http
  | HttpsConnect => ExecPolicy.Https
  | ProxyHandlers.Socks5Tcp => ExecPolicy.Socks5Tcp
  | ProxyHandlers.Socks5Udp => ExecPolicy.Socks5Udp
  end.

Definition format_network_target (protocol host : string) (port : N) : string :=
  protocol +:+ "://" +:+ host +:+ ":" +:+ pretty port.

Definition approval_id_for_key (key : HostApprovalKey) : string :=
  "network#" +:+ hk_protocol key +:+ "#" +:+ hk_host key +:+ "#" +:+ pretty (hk_port key).

(** The end of the request that owns the pending approval. *)
Definition settle (key : HostApprovalKey) (id : nat) (resolved : PendingApprovalDecision) : Proc NetWorld () :=
  _ ← set_decision id resolved;
  remove_pending key.

Definition refuse_unasked (key : HostApprovalKey) (id : nat) (policy_denial_message : string) : Proc NetWorld NetworkDecision :=
  _ ← settle key id PendingDeny;
  _ ← record_outcome_for_single_active_call (DeniedByPolicy policy_denial_message);
  mret (decision_deny "not_allowed").

Definition record_for_owner (owner_call : option ActiveNetworkApprovalCall) (outcome : NetworkApprovalOutcome) : Proc NetWorld () :=
  match owner_call with Some call => record_call_outcome (cl_registration_id call) outcome | None => mret () end.

(** A denial by the reviewer or by the user. *)
Definition record_rejection (owner_call : option ActiveNetworkApprovalCall) (guardian_review_id : option string) : Proc NetWorld () :=
  match guardian_review_id, owner_call with
  | Some review_id, Some call =>
      message ← rejection_message review_id;
      record_call_outcome (cl_registration_id call) (DeniedByPolicy message)
  | Some _, None => mret ()
  | None, _ => record_for_owner owner_call DeniedByUser
  end.

(** What an answer means, and whether it is a denial for the session. *)
Definition resolve_review (rounds : nat) (turn : Turn) (owner_call : option ActiveNetworkApprovalCall) (guardian_review_id : option string)
    (context : NetworkApprovalContext) (approval_decision : ReviewDecision) : Proc NetWorld (option (PendingApprovalDecision * bool)) :=
  match approval_decision with
  | Approved | ApprovedExecpolicyAmendment _ => mret (Some (AllowOnce, false))
  | ApprovedForSession => mret (Some (AllowForSession, false))
  | NetworkPolicyAmendment host RuleAllow =>
      applied ← apply_amendment rounds turn host RuleAllow context;
      mret (match applied with Some _ => Some (AllowForSession, false) | None => None end)
  | NetworkPolicyAmendment host RuleDeny =>
      applied ← apply_amendment rounds turn host RuleDeny context;
      match applied with
      | None => mret None
      | Some _ => _ ← record_for_owner owner_call DeniedByUser; mret (Some (PendingDeny, true))
      end
  | Orchestrator.Denied | AbortTurn =>
      _ ← record_rejection owner_call guardian_review_id;
      mret (Some (PendingDeny, false))
  | TimedOut =>
      _ ← record_for_owner owner_call (DeniedByPolicy GUARDIAN_TIMEOUT_INSTRUCTIONS);
      mret (Some (PendingDeny, false))
  end.

Definition cache_decision (key : HostApprovalKey) (resolved : PendingApprovalDecision) (cache_session_deny : bool) : Proc NetWorld () :=
  _ ← match resolved with
      | AllowForSession =>
          _ ← with_service (λ s, ((), set_denied (na_denied s ∖ {[key]}) s));
          with_service (λ s, ((), set_approved ({[key]} ∪ na_approved s) s))
      | _ => mret ()
      end;
  if cache_session_deny then
    _ ← with_service (λ s, ((), set_approved (na_approved s ∖ {[key]}) s));
    with_service (λ s, ((), set_denied ({[key]} ∪ na_denied s) s))
  else mret ().

(** The reviewer's or the user's answer, with the id of the review. *)
Definition ask_for_access (turn : Turn) (owner_call : option ActiveNetworkApprovalCall) (request : NetworkPolicyRequest)
    (protocol : NetworkApprovalProtocol) (key : HostApprovalKey) : Proc NetWorld (ReviewDecision * option string) :=
  let target := format_network_target (hk_protocol key) (pr_host request) (hk_port key) in
  let policy_denial_message := "Network access to " +:+ quote +:+ target +:+ quote +:+ " was blocked by policy." in
  if turn_routes_to_guardian turn then
    review_id ← new_review_id;
    d ← review_approval_request turn review_id
          (mkNetworkAccess (approval_id_for_key key) (match owner_call with Some call => cl_turn_id call | None => turn_sub_id turn end)
             target (pr_host request) protocol (hk_port key) (cl_trigger <$> owner_call))
          (Some policy_denial_message);
    mret (d, Some review_id)
  else
    d ← request_command_approval turn
          (mkPrompt (approval_id_for_key key) ["network-access"; target] (turn_cwd turn)
             (Some (pr_host request +:+ " is not in the allowed_domains")) (Some (mkNetContext (pr_host request) protocol)));
    mret (d, None).

(** The request that asks. *)
Definition decide_as_owner (rounds : nat) (request : NetworkPolicyRequest) (protocol : NetworkApprovalProtocol) (key : HostApprovalKey) (id : nat) :
    Proc NetWorld (option NetworkDecision) :=
  let target := format_network_target (hk_protocol key) (pr_host request) (hk_port key) in
  let policy_denial_message := "Network access to " +:+ quote +:+ target +:+ quote +:+ " was blocked by policy." in
  turn_context ← active_turn_context;
  match turn_context with
  | None => d ← refuse_unasked key id policy_denial_message; mret (Some d)
  | Some turn =>
      if negb (permission_profile_allows_network_approval_flow (turn_permission_profile turn))
      then d ← refuse_unasked key id policy_denial_message; mret (Some d)
      else if negb (allows_network_approval_flow (turn_approval_policy turn))
      then d ← refuse_unasked key id policy_denial_message; mret (Some d)
      else
        owner_call ← resolve_single_active_call;
        let command := match owner_call with Some call => cl_command call | None => "network-access " +:+ target end in
        hooked ← permission_request_hooks turn (approval_id_for_key key) command (Some ("network-access " +:+ target));
        match hooked with
        | Some HookAllow => _ ← settle key id AllowOnce; mret (Some ProxyHandlers.Allow)
        | Some (HookDeny message) =>
            _ ← record_for_owner owner_call (DeniedByPolicy message);
            _ ← settle key id PendingDeny;
            mret (Some (decision_deny "not_allowed"))
        | None =>
            '(approval_decision, guardian_review_id) ← ask_for_access turn owner_call request protocol key;
            resolved ← resolve_review rounds turn owner_call guardian_review_id (mkNetContext (pr_host request) protocol) approval_decision;
            match resolved with
            | None => mret None
            | Some (resolved, cache_session_deny) =>
                _ ← cache_decision key resolved cache_session_deny;
                _ ← settle key id resolved;
                mret (Some (to_network_decision resolved))
            end
        end
  end.

(** [None] when rounds of a wait or of an update are used up. *)
Definition handle_inline_policy_request (rounds : nat) (request : NetworkPolicyRequest) : Proc NetWorld (option NetworkDecision) :=
  let protocol := approval_protocol (pr_protocol request) in
  let key := key_from_request request protocol in
  denied ← read_service (λ s, bool_decide (key ∈ na_denied s));
  if denied : bool then mret (Some (decision_deny "not_allowed"))
  else
    approved ← read_service (λ s, bool_decide (key ∈ na_approved s));
    if approved : bool then mret (Some ProxyHandlers.Allow)
    else
      '(pending, is_owner) ← get_or_create_pending_approval key;
      if negb is_owner then d ← wait_for_decision rounds pending None; mret (to_network_decision <$> d)
      else decide_as_owner rounds request protocol key pending.

(** The decider that the proxy is given.  A request whose rounds are used up
    has no answer: here it fails. *)
Definition build_network_policy_decider (rounds : nat) : NetworkPolicyDecider := λ request,
  alive ← session_upgrade;
  if alive : bool then
    d ← handle_inline_policy_request rounds request;
    plift (ok_or d "still waiting")
  else mret (decision_ask "not_allowed").
End service.

(** The observer that the proxy is given. *)
Definition approval_observer `{HE : NetEnv} `{!ApprovalExt} : NetObserver := λ _ blocked, record_blocked_request blocked.

(** ** What every interleaving keeps *)

(** What the owner of a pending approval knows: that it is not decided, and
    while it updates the caches that the host is not in the one it cleared. *)
Inductive Knows := KnowsOpen | KnowsNotDenied | KnowsNotApproved | KnowsDecided.

Record Token := mkToken { tk_key : HostApprovalKey; tk_id : nat; tk_knows : Knows }.

Definition undecided (id : nat) (s : NetworkApprovalService) : Prop := pa_decision (cell id s) = None.

Definition token_held (s : NetworkApprovalService) (t : Token) : Prop :=
  na_pending s !! tk_key t = Some (tk_id t) ∧
  match tk_knows t with
  | KnowsOpen => undecided (tk_id t) s
  | KnowsNotDenied => undecided (tk_id t) s ∧ tk_key t ∉ na_denied s
  | KnowsNotApproved => undecided (tk_id t) s ∧ tk_key t ∉ na_approved s
  | KnowsDecided => True
  end.

(** No host is approved and denied, pending approvals have cells of their own,
    and outcomes belong to active calls. *)
Record service_ok (s : NetworkApprovalService) : Prop := {
  ok_disjoint : na_approved s ## na_denied s;
  ok_cells : ∀ k id, na_pending s !! k = Some id → id < length (na_cells s);
  ok_distinct : ∀ k1 k2 id, na_pending s !! k1 = Some id → na_pending s !! k2 = Some id → k1 = k2;
  ok_outcomes : ∀ r o, na_call_outcomes s !! r = Some o → r ∈ (na_active_calls s).*1;
  ok_calls : NoDup (na_active_calls s).*1
}.

(** A decision that requests may have seen is never changed. *)
Definition decided_kept (s s' : NetworkApprovalService) : Prop :=
  ∀ id d, pa_decision (cell id s) = Some d → pa_decision (cell id s') = Some d.

Section shared.
Context `{HU : Unicode} `{HD : HostDirs} `{HL : NetLibs} `{HH : HttpLib} `{HO : HashOrder} `{HE : NetEnv} `{HX : !ApprovalExt} `{HS : !ApprovalSession}.

Definition service_inv (w : NetWorld) : Prop := service_ok (approvals w).

Definition kept (w w' : NetWorld) : Prop := decided_kept (approvals w) (approvals w').

Definition holds_token (w : NetWorld) (t : Token) : Prop := token_held (approvals w) t.

#[export] Instance kept_preorder : PreOrder kept.
Proof. split; [by intros w id d|intros w1 w2 w3 H1 H2 id d Hd; by apply H2, H1]. Qed.

Abbreviation owning := (owns service_inv kept holds_token tk_key).

(** Processes that leave the service alone. *)
Definition alone {A} (p : Proc NetWorld A) : Prop := all_acts (λ _, True) (λ w w', approvals w' = approvals w) p.

Lemma alone_owning {A} (Q : res A → option Token → Prop) o p : alone p → (∀ r, Q r o) → owning Q o p.
Proof.
  intros Hp HQ. apply owns_frame; [|done]. eapply all_acts_mono; [exact Hp|done|]. intros w w' E. unfold service_inv, kept, holds_token. rewrite E.
  split; [done|]. split; [by intros id d|done].
Qed.

Definition service_step (o o' : option Token) (s s' : NetworkApprovalService) : Prop :=
  service_ok s' ∧ decided_kept s s' ∧ match o' with Some t => token_held s' t | None => True end ∧
  (∀ t, token_held s t → tk_key <$> o ≠ Some (tk_key t) → token_held s' t) ∧
  (∀ t t', o' = Some t' → token_held s t → tk_key <$> o ≠ Some (tk_key t) → tk_key t ≠ tk_key t').

Lemma owning_service {A} (Q : res A → option Token → Prop) o (o' : NetworkApprovalService → option Token) f :
  (∀ s, service_ok s → match o with Some t => token_held s t | None => True end → service_step o (o' s) s (f s).2 ∧ Q (Ok (f s).1) (o' s)) →
  owning Q o (with_service (A:=A) f).
Proof.
  intros H. apply (owns_atomic _ _ _ _ _ _ (λ w, o' (approvals w))). intros w Hw Ho. destruct (H (approvals w) Hw) as [Hs HQ]; [by destruct o|].
  destruct (f (approvals w)) as [a s'] eqn:E. cbn [fst snd] in *. split; [|done].
  unfold fair_step, service_inv, kept, holds_token, approvals in *. unfold held_opt. cbn [nw_ext]. rewrite ext_get_set. exact Hs.
Qed.

Lemma owning_read {A} (Q : res A → option Token → Prop) o (f : NetworkApprovalService → A) :
  (∀ s, Q (Ok (f s)) o) → owning Q o (read_service f).
Proof.
  intros H. apply (owns_atomic _ _ _ _ _ _ (λ _, o)). intros w Hw Ho. split; [|apply H]. apply fair_frame; [done|by intros id d|done|done].
Qed.

(** A change that concerns one key and one cell only. *)
Definition same_elsewhere (k : HostApprovalKey) (id : nat) (s s' : NetworkApprovalService) : Prop :=
  (∀ k', k' ≠ k → na_pending s' !! k' = na_pending s !! k') ∧ (∀ id', id' ≠ id → cell id' s' = cell id' s) ∧
  (∀ k', k' ≠ k → k' ∈ na_approved s' ↔ k' ∈ na_approved s) ∧ (∀ k', k' ≠ k → k' ∈ na_denied s' ↔ k' ∈ na_denied s).

Lemma owned_step t o' s s' : service_ok s → token_held s t → service_ok s' → decided_kept s s' →
  match o' with Some t' => token_held s' t' ∧ tk_key t' = tk_key t | None => True end →
  same_elsewhere (tk_key t) (tk_id t) s s' → service_step (Some t) o' s s'.
Proof.
  intros Hs [Hp _] Hs' Hd Ho (Ep & Ec & Ea & Ed). split; [done|]. split; [done|]. split; [by destruct o' as [t'|]; [destruct Ho|]|]. split.
  - intros t2 [H1 H2] Hne. assert (tk_key t2 ≠ tk_key t) as Hk by (intros E; apply Hne; cbn; by rewrite E).
    assert (tk_id t2 ≠ tk_id t) as Hi by (intros E; rewrite E in H1; by apply Hk, (ok_distinct _ Hs _ _ _ H1 Hp)).
    split; [by rewrite Ep|]. unfold undecided in *. rewrite (Ec _ Hi). destruct (tk_knows t2); [done|split; [tauto|]..|done].
    + rewrite Ed by done. tauto.
    + rewrite Ea by done. tauto.
  - intros t2 t' -> _ Hne E. destruct Ho as [_ Et]. apply Hne. cbn. by rewrite E, Et.
Qed.

Lemma frame_step o s s' : service_ok s' → na_pending s' = na_pending s → na_cells s' = na_cells s → na_approved s' = na_approved s →
  na_denied s' = na_denied s → match o with Some t => token_held s t | None => True end → service_step o o s s'.
Proof.
  intros Hs Ep Ec Ea Ed Ho. assert (∀ t, token_held s t → token_held s' t) as Ht.
  { intros t. unfold token_held, undecided, cell. by rewrite Ep, Ec, Ea, Ed. }
  split; [done|]. split; [intros id d; unfold cell; by rewrite Ec|]. split; [destruct o; [by apply Ht|done]|]. split; [auto|].
  intros t t' -> _ Hne E. apply Hne. cbn. by rewrite E.
Qed.

Definition ends {A} (o' : option Token) (r : res A) (o : option Token) : Prop := match r with Ok _ => o = o' | _ => True end.

Definition anyhow {A} (r : res A) (o : option Token) : Prop := True.

Lemma owning_then {A B} o o1 (p : Proc NetWorld A) (k : A → Proc NetWorld B) : owning (ends o1) o p → (∀ a, owning anyhow o1 (k a)) →
  owning anyhow o (p ≫= k).
Proof. intros Hp Hk. eapply owns_bind; [exact Hp|..]; cbn; [|done..]. intros a o' ->. apply Hk. Qed.

Lemma owning_ends {A B} o o1 o2 (p : Proc NetWorld A) (k : A → Proc NetWorld B) : owning (ends o1) o p → (∀ a, owning (ends o2) o1 (k a)) →
  owning (ends o2) o (p ≫= k).
Proof. intros Hp Hk. eapply owns_bind; [exact Hp|..]; cbn; [|done..]. intros a o' ->. apply Hk. Qed.

Lemma owning_ret {A} o (a : A) : owning (ends o) o (mret a).
Proof. by constructor. Qed.

Lemma owning_done {A} o (r : res A) : owning anyhow o (Done r).
Proof. by constructor. Qed.

Lemma owning_alone {A} o (p : Proc NetWorld A) : alone p → owning (ends o) o p.
Proof. intros Hp. apply alone_owning; [done|]. by intros [a|e|]. Qed.

(** *** The steps of an owner *)

Lemma cell_set id c s : id < length (na_cells s) → cell id (set_cell id c s) = c.
Proof. intros Hl. unfold cell, set_cell. cbn. by rewrite list_lookup_insert_eq. Qed.

Lemma cell_set_ne id id' c s : id' ≠ id → cell id' (set_cell id c s) = cell id' s.
Proof. intros Hne. unfold cell, set_cell. cbn. by rewrite list_lookup_insert_ne. Qed.

Lemma set_cell_ok id c s : service_ok s → service_ok (set_cell id c s).
Proof. intros [? Hc ? ? ?]. split; try done. intros k id' Hk. cbn. rewrite length_insert. by eapply Hc. Qed.

Lemma owning_set_decision key id d : owning (ends (Some (mkToken key id KnowsDecided))) (Some (mkToken key id KnowsOpen)) (set_decision id d).
Proof.
  unfold set_decision. apply owning_ends with (Some (mkToken key id KnowsDecided)).
  - apply (owning_service _ _ (λ _, Some (mkToken key id KnowsDecided))). intros s Hs Ht. split; [|done]. cbn [fst snd].
    destruct Ht as [Hp Hu]. cbn in Hp, Hu. pose proof (ok_cells _ Hs _ _ Hp) as Hl. apply owned_step; [done|by split|by apply set_cell_ok|..].
    + intros id' d' Hd. destruct (decide (id' = id)) as [->|Hne]; [unfold undecided in Hu; congruence|by rewrite cell_set_ne].
    + done.
    + split; [done|]. split; [|done]. intros id' Hne. by apply cell_set_ne.
  - intros _. apply (owning_service _ _ (λ _, Some (mkToken key id KnowsDecided))). intros s Hs Ht. split; [|done]. cbn [fst snd].
    destruct Ht as [Hp _]. cbn in Hp. pose proof (ok_cells _ Hs _ _ Hp) as Hl. apply owned_step; [done|by split|by apply set_cell_ok|..].
    + intros id' d' Hd. destruct (decide (id' = id)) as [->|Hne]; [by rewrite cell_set|by rewrite cell_set_ne].
    + done.
    + split; [done|]. split; [|done]. intros id' Hne. by apply cell_set_ne.
Qed.

Lemma owning_remove_pending key id : owning (ends None) (Some (mkToken key id KnowsDecided)) (remove_pending key).
Proof.
  apply (owning_service _ _ (λ _, None)). intros s Hs Ht. split; [|done]. cbn [fst snd]. apply owned_step; [done|done|..].
  - destruct Hs as [H1 H2 H3 H4 H5]. split; cbn; try done.
    + intros k' id'. rewrite lookup_delete_Some. intros [_ H]. by eapply H2.
    + intros k1 k2 id'. rewrite !lookup_delete_Some. intros [_ Ha] [_ Hb]. by eapply H3.
  - by intros id' d'.
  - done.
  - split; [|done]. intros k' Hne. cbn. by rewrite lookup_delete_ne.
Qed.

Lemma owning_settle key id d : owning (ends None) (Some (mkToken key id KnowsOpen)) (settle key id d).
Proof. eapply owning_ends; [apply owning_set_decision|]. intros _. apply owning_remove_pending. Qed.

Lemma owning_cache_step key id (kn kn' : Knows) (f : NetworkApprovalService → NetworkApprovalService) :
  (∀ s, na_pending (f s) = na_pending s ∧ na_cells (f s) = na_cells s ∧ na_call_outcomes (f s) = na_call_outcomes s ∧ na_active_calls (f s) = na_active_calls s) →
  (∀ s k, k ≠ key → (k ∈ na_approved (f s) ↔ k ∈ na_approved s) ∧ (k ∈ na_denied (f s) ↔ k ∈ na_denied s)) →
  (∀ s, service_ok s → token_held s (mkToken key id kn) → na_approved (f s) ## na_denied (f s) ∧ token_held (f s) (mkToken key id kn')) →
  owning (ends (Some (mkToken key id kn'))) (Some (mkToken key id kn)) (with_service (λ s, ((), f s))).
Proof.
  intros Hf He Ht. apply (owning_service _ _ (λ _, Some (mkToken key id kn'))). intros s Hs Hh. split; [|done]. cbn [fst snd].
  destruct (Hf s) as (E1 & E2 & E3 & E4). destruct (Ht s Hs Hh) as [Hd Hh']. apply owned_step; [done|done|..].
  - destruct Hs as [H1 H2 H3 H4 H5]. split; [done|rewrite E1, E2; done|by rewrite E1|by rewrite E3, E4|by rewrite E4].
  - intros id' d'. unfold cell. by rewrite E2.
  - done.
  - split; [intros; by rewrite E1|]. split; [intros; unfold cell; by rewrite E2|]. split; intros k' Hne; by apply He.
Qed.

(** Clearing a host from one cache and entering it in the other. *)
Lemma owning_cache key id d deny :
  owning (ends (Some (mkToken key id KnowsOpen))) (Some (mkToken key id KnowsOpen)) (cache_decision key d deny).
Proof.
  unfold cache_decision. eapply owning_ends with (Some (mkToken key id KnowsOpen)).
  - destruct d; [by apply owning_ret| |by apply owning_ret]. eapply owning_ends with (Some (mkToken key id KnowsNotDenied)).
    + apply owning_cache_step; [done|intros s k Hne; cbn; set_solver|]. intros s Hs [Hp Hu]. destruct Hs. cbn in *.
      split; [set_solver|]. split; [done|]. split; [done|]. cbn. set_solver.
    + intros _. apply owning_cache_step; [done|intros s k Hne; cbn; set_solver|]. intros s Hs [Hp [Hu Hn]]. destruct Hs. cbn in *.
      split; [set_solver|]. by split.
  - intros _. destruct deny; [|by apply owning_ret]. eapply owning_ends with (Some (mkToken key id KnowsNotApproved)).
    + apply owning_cache_step; [done|intros s k Hne; cbn; set_solver|]. intros s Hs [Hp Hu]. destruct Hs. cbn in *.
      split; [set_solver|]. split; [done|]. split; [done|]. cbn. set_solver.
    + intros _. apply owning_cache_step; [done|intros s k Hne; cbn; set_solver|]. intros s Hs [Hp [Hu Hn]]. destruct Hs. cbn in *.
      split; [set_solver|]. by split.
Qed.

(** Whoever creates the pending approval owns it. *)
Lemma owning_get_or_create key :
  owning (λ r o, match r with Ok (id, true) => o = Some (mkToken key id KnowsOpen) | Ok (_, false) => o = None | _ => True end)
    None (get_or_create_pending_approval key).
Proof.
  apply (owning_service _ _ (λ s, match na_pending s !! key with Some _ => None | None => Some (mkToken key (length (na_cells s)) KnowsOpen) end)).
  intros s Hs _. destruct (na_pending s !! key) as [id|] eqn:E; cbn [fst snd]; (split; [|done]).
  { by apply frame_step. }
  assert (∀ id, id ≠ length (na_cells s) → cell id (set_pending (<[key:=length (na_cells s)]> (na_pending s)) (na_cells s ++ [mkPending None 0]) s) = cell id s) as Ec.
  { intros id Hne. unfold cell. cbn. destruct (decide (id < length (na_cells s))) as [Hl|Hl]; [by rewrite lookup_app_l|].
    rewrite lookup_ge_None_2 by (rewrite length_app; cbn; lia). by rewrite lookup_ge_None_2 by lia. }
  assert (undecided (length (na_cells s)) (set_pending (<[key:=length (na_cells s)]> (na_pending s)) (na_cells s ++ [mkPending None 0]) s)) as Eu.
  { unfold undecided, cell. cbn. by rewrite list_lookup_middle. }
  destruct Hs as [H1 H2 H3 H4 H5]. split; [|split; [|split; [|split]]].
  - split; cbn; try done.
    + intros k id. rewrite length_app, lookup_insert_Some. cbn. intros [[<- <-]|[_ Hk]]; [lia|]. apply H2 in Hk. lia.
    + intros k1 k2 id. rewrite !lookup_insert_Some. intros [[<- <-]|[Hn1 Ha]] [[<- Eb]|[Hn2 Hb]]; [done| | |by eapply H3].
      * apply H2 in Hb. lia.
      * subst id. apply H2 in Ha. lia.
  - intros id d Hd. destruct (decide (id = length (na_cells s))) as [->|Hne]; [|by rewrite Ec].
    unfold cell in Hd. by rewrite lookup_ge_None_2 in Hd by lia.
  - split; [cbn; by rewrite lookup_insert_eq|done].
  - intros t [Hp Hk] _. assert (tk_key t ≠ key) as Hne by (intros Ek; rewrite Ek in Hp; congruence).
    split; [cbn; by rewrite lookup_insert_ne|]. pose proof (H2 _ _ Hp) as Hl. unfold undecided in *. by rewrite Ec by lia.
  - intros t t' [= <-] [Hp _] _ Et. cbn in Et. rewrite Et in Hp. congruence.
Qed.

Lemma index_insert_fst {A} key (a : A) l : (index_insert key a l).*1 = if decide (key ∈ l.*1) then l.*1 else l.*1 ++ [key].
Proof.
  induction l as [|[k b] l IH]; cbn; [done|]. destruct (String.eqb_spec k key) as [->|Hne]; cbn.
  - rewrite decide_True; [done|left].
  - rewrite IH. destruct (decide (key ∈ l.*1)); [rewrite decide_True by (by right); done|].
    rewrite decide_False; [done|]. rewrite elem_of_cons. naive_solver.
Qed.

Lemma shift_remove_fst {A} key (l : list (string * A)) : (shift_remove key l).*1 = List.filter (λ k, negb (k == key)) l.*1.
Proof. unfold shift_remove. induction l as [|[k b] l IH]; cbn; [done|]. destruct (k == key); cbn; by rewrite IH. Qed.

Lemma index_get_elem {A} key (l : list (string * A)) a : index_get key l = Some a → key ∈ l.*1.
Proof.
  unfold index_get. destruct (find _ l) as [[k b]|] eqn:E; [|done]. apply find_some in E as [Hin Hk]. apply String.eqb_eq in Hk. cbn in Hk. subst k.
  intros _. apply list_elem_of_fmap. exists (key, b). split; [done|]. by apply list_elem_of_In.
Qed.

(** Operations on calls. *)
Lemma owning_calls {A} o (f : NetworkApprovalService → A * NetworkApprovalService) :
  (∀ s, na_pending (f s).2 = na_pending s ∧ na_cells (f s).2 = na_cells s ∧ na_approved (f s).2 = na_approved s ∧ na_denied (f s).2 = na_denied s) →
  (∀ s, service_ok s → service_ok (f s).2) → owning (ends o) o (with_service f).
Proof.
  intros Hf Hok. apply (owning_service _ _ (λ _, o)). intros s Hs Ho. split; [|done]. destruct (Hf s) as (? & ? & ? & ?). apply frame_step; auto.
Qed.

Lemma take_call_ok r s : service_ok s → service_ok (take_call r s).2.
Proof.
  intros [H1 H2 H3 H4 H5]. split; cbn; try done.
  - intros r' o. rewrite shift_remove_fst. rewrite lookup_delete_Some. intros [Hne Ho]. apply list_elem_of_In, filter_In.
    split; [apply list_elem_of_In; by eapply H4|]. apply negb_true_iff. by apply String.eqb_neq.
  - rewrite shift_remove_fst. apply NoDup_ListNoDup, List.NoDup_filter. by apply NoDup_ListNoDup.
Qed.

Lemma owning_register o r turn trigger command token : owning (ends o) o (register_call r turn trigger command token).
Proof.
  apply owning_calls; [done|]. intros s [H1 H2 H3 H4 H5]. split; cbn; try done; rewrite index_insert_fst.
  - intros r' o' Ho. apply H4 in Ho. case_decide; [done|]. apply elem_of_app. by left.
  - case_decide; [done|]. apply NoDup_app. split; [done|]. split; [|apply NoDup_singleton]. intros x Hx ->%list_elem_of_singleton. done.
Qed.

Lemma owning_take o r : owning (ends o) o (with_service (take_call r)).
Proof. apply owning_calls; [done|]. apply take_call_ok. Qed.

Lemma owning_record o r outcome : owning (ends o) o (record_call_outcome r outcome).
Proof.
  unfold record_call_outcome. eapply owning_ends with o.
  - apply owning_calls; [intros s; unfold note_outcome; repeat case_match; done|]. intros s Hs. unfold note_outcome.
    destruct (index_get r (na_active_calls s)) as [call|] eqn:Eg; [|done]. assert (∀ x, service_ok (set_calls (na_active_calls s) (<[r := x]> (na_call_outcomes s)) s)) as Hx.
    { intros x. destruct Hs as [H1 H2 H3 H4 H5]. split; cbn; try done. intros r' o'. rewrite lookup_insert_Some. intros [[<- _]|[_ Ho]]; [by eapply index_get_elem|by eapply H4]. }
    repeat case_match; cbn; auto.
  - intros [token|]; [|apply owning_ret]. apply owning_calls; [done|]. by intros s [H1 H2 H3 H4 H5].
Qed.

Lemma owning_single o outcome : owning (ends o) o (record_outcome_for_single_active_call outcome).
Proof.
  eapply owning_ends with o; [by apply owning_read|]. intros [call|]; [apply owning_record|apply owning_ret].
Qed.

Lemma owning_for_owner o call outcome : owning (ends o) o (record_for_owner call outcome).
Proof. destruct call; [apply owning_record|apply owning_ret]. Qed.

(** The session touches neither the service nor the proxy by itself. *)
Definition untouched {A} (p : Proc NetWorld A) : Prop :=
  all_acts (λ _, True) (λ w w', approvals w' = approvals w ∧ nw_state w' = nw_state w) p.

Lemma untouched_alone {A} (p : Proc NetWorld A) : untouched p → alone p.
Proof. intros Hp. eapply all_acts_mono; [exact Hp|done|]. by intros w w' []. Qed.

Class ApprovalSessionLaws : Prop := {
  upgrade_untouched : untouched session_upgrade;
  turn_untouched : untouched active_turn_context;
  hooks_untouched t i c d : untouched (permission_request_hooks t i c d);
  review_id_untouched : untouched new_review_id;
  review_untouched t i a m : untouched (review_approval_request t i a m);
  prompt_untouched t p : untouched (request_command_approval t p);
  message_untouched i : untouched (rejection_message i);
  lock_untouched : untouched acquire_refresh_lock;
  started_untouched : untouched network_proxy_started;
  append_untouched h p d j : untouched (append_network_rule_and_update h p d j);
  amended_untouched i h a : untouched (record_network_policy_amendment_message i h a);
  warning_untouched i m : untouched (send_warning i m);
  uuid_untouched : untouched new_uuid
}.

Lemma alone_ret {A} (a : A) : alone (mret a).
Proof. constructor. Qed.

Lemma alone_lift {A} (r : res A) : alone (plift r).
Proof. constructor. Qed.

Lemma alone_bind {A B} (p : Proc NetWorld A) (k : A → Proc NetWorld B) : alone p → (∀ a, alone (k a)) → alone (p ≫= k).
Proof. apply all_acts_bind. Qed.

Lemma alone_attempt {A} (p : Proc NetWorld A) : alone p → alone (attempt p).
Proof. apply all_acts_attempt. Qed.

Lemma alone_reload : alone reload_if_needed.
Proof.
  apply alone_bind; [by apply all_acts_atomic|]. intros t. apply alone_bind; [apply alone_lift|]. intros [s|]; [|apply alone_ret].
  apply alone_bind; [by apply all_acts_atomic|]. intros guard. by apply all_acts_atomic.
Qed.

Lemma alone_write {A} (f : ConfigState → A * ConfigState) : alone (write_state f).
Proof. apply all_acts_atomic. intros w _. cbn. by destruct (f (nw_state w)). Qed.

Lemma alone_update rounds host target : alone (update_rounds rounds host target).
Proof.
  induction rounds as [|rounds IH]; cbn [update_rounds]; [apply alone_ret|]. apply alone_bind; [apply alone_reload|]. intros _.
  apply alone_bind; [by apply all_acts_atomic|]. intros guard. case_match; [apply alone_ret|].
  apply alone_bind; [apply alone_lift|]. intros _. apply alone_bind; [by apply all_acts_atomic|]. intros t.
  apply alone_bind; [apply alone_lift|]. intros s'. apply alone_bind; [apply alone_write|]. intros [|]; [apply alone_ret|done].
Qed.

Lemma alone_context_err {A} f (p : Proc NetWorld A) : alone p → alone (context_err f p).
Proof. intros Hp. apply alone_bind; [by apply alone_attempt|]. intros r. apply alone_lift. Qed.

Context `{HSL : !ApprovalSessionLaws}.

Lemma alone_persist rounds host action context : alone (persist_network_policy_amendment rounds host action context).
Proof.
  apply alone_bind; [apply alone_context_err, untouched_alone, lock_untouched|]. intros _. apply alone_bind; [apply alone_lift|]. intros h. apply alone_bind; [apply untouched_alone, started_untouched|]. intros started.
  apply alone_bind.
  { destruct started; [|apply alone_ret]. destruct action; apply alone_context_err; (apply alone_bind; [apply alone_lift|]); intros h'; apply alone_update. }
  intros [u|]; [|apply alone_ret]. apply alone_bind; [apply alone_context_err, untouched_alone, append_untouched|]. intros _. apply alone_ret.
Qed.

Lemma alone_amendment rounds turn host action context : alone (apply_amendment rounds turn host action context).
Proof.
  apply alone_bind; [apply alone_attempt, alone_persist|]. intros [[u|]|e|]; [..|apply alone_lift].
  - apply alone_bind; [apply untouched_alone, amended_untouched|]. intros _. apply alone_ret.
  - apply alone_ret.
  - apply alone_bind; [apply untouched_alone, warning_untouched|]. intros _. apply alone_ret.
Qed.

Lemma alone_ask turn call request protocol key : alone (ask_for_access turn call request protocol key).
Proof.
  unfold ask_for_access. cbn zeta. destruct (turn_routes_to_guardian turn).
  - apply alone_bind; [apply untouched_alone, review_id_untouched|]. intros i. apply alone_bind; [apply untouched_alone, review_untouched|]. intros d. apply alone_ret.
  - apply alone_bind; [apply untouched_alone, prompt_untouched|]. intros d. apply alone_ret.
Qed.

Lemma owning_resolve o rounds turn call review context d : owning (ends o) o (resolve_review rounds turn call review context d).
Proof.
  unfold resolve_review. destruct d as [| | |host [|]| | |]; try apply owning_ret.
  - eapply owning_ends; [apply owning_alone, alone_amendment|]. intros a. apply owning_ret.
  - eapply owning_ends; [apply owning_alone, alone_amendment|]. intros [u|]; [|apply owning_ret].
    eapply owning_ends; [apply owning_for_owner|]. intros _. apply owning_ret.
  - eapply owning_ends; [|intros _; apply owning_ret]. destruct review as [i|]; [|apply owning_for_owner]. destruct call as [call|]; [|apply owning_ret].
    eapply owning_ends; [apply owning_alone, untouched_alone, message_untouched|]. intros m. apply owning_record.
  - eapply owning_ends; [apply owning_for_owner|]. intros _. apply owning_ret.
  - eapply owning_ends; [|intros _; apply owning_ret]. destruct review as [i|]; [|apply owning_for_owner]. destruct call as [call|]; [|apply owning_ret].
    eapply owning_ends; [apply owning_alone, untouched_alone, message_untouched|]. intros m. apply owning_record.
Qed.

Lemma owning_weak {A} o o' (p : Proc NetWorld A) : owning (ends o') o p → owning anyhow o p.
Proof. intros Hp. induction Hp as [|o o1 upd next Hf _ IH]; [by constructor|]. by apply (owns_act _ _ _ _ _ _ o1). Qed.

Lemma owning_refuse key id m : owning (ends None) (Some (mkToken key id KnowsOpen)) (refuse_unasked key id m).
Proof.
  eapply owning_ends; [apply owning_settle|]. intros _. eapply owning_ends; [apply owning_single|]. intros _. apply owning_ret.
Qed.

Lemma owning_owner rounds request protocol key id :
  owning anyhow (Some (mkToken key id KnowsOpen)) (decide_as_owner rounds request protocol key id).
Proof.
  eapply owning_then; [apply owning_alone, untouched_alone, turn_untouched|]. intros [turn|]; [|eapply owning_then; [apply owning_refuse|]; intros; apply owning_done].
  case_match; [eapply owning_then; [apply owning_refuse|]; intros; apply owning_done|].
  case_match; [eapply owning_then; [apply owning_refuse|]; intros; apply owning_done|].
  eapply owning_then; [by apply owning_read|]. intros call. eapply owning_then; [apply owning_alone, untouched_alone, hooks_untouched|]. intros [[|m]|].
  - eapply owning_then; [apply owning_settle|]. intros _. apply owning_done.
  - eapply owning_then; [apply owning_for_owner|]. intros _. eapply owning_then; [apply owning_settle|]. intros _. apply owning_done.
  - eapply owning_then; [apply owning_alone, alone_ask|]. intros [d review]. eapply owning_then; [apply owning_resolve|].
    intros [[d' deny]|]; [|apply owning_done]. eapply owning_then; [apply owning_cache|]. intros _.
    eapply owning_then; [apply owning_settle|]. intros _. apply owning_done.
Qed.

Lemma owning_wait o rounds id seen : owning (ends o) o (wait_for_decision rounds id seen).
Proof.
  revert seen. induction rounds as [|rounds IH]; intros seen; cbn [wait_for_decision]; [apply owning_ret|].
  eapply owning_ends with o; [by apply owning_read|]. intros n. destruct seen; [apply IH|].
  eapply owning_ends with o; [by apply owning_read|]. intros [d|]; [apply owning_ret|apply IH].
Qed.

Lemma owning_request rounds request : owning anyhow None (handle_inline_policy_request rounds request).
Proof.
  unfold handle_inline_policy_request. eapply owning_then with None; [by apply owning_read|]. intros [|]; [apply owning_done|].
  eapply owning_then with None; [by apply owning_read|]. intros [|]; [apply owning_done|].
  eapply owns_bind; [apply owning_get_or_create|..]; [|done..]. intros [id [|]] o' ->; cbn [negb]; [apply owning_owner|].
  eapply owning_then; [apply owning_wait|]. intros d. apply owning_done.
Qed.
End shared.

(** ** Requests and calls in any order *)

Section pool.
Context `{HU : Unicode} `{HD : HostDirs} `{HL : NetLibs} `{HH : HttpLib} `{HO : HashOrder} `{HE : NetEnv} `{HX : !ApprovalExt} `{HS : !ApprovalSession} `{HSL : !ApprovalSessionLaws}.

Inductive ServiceCall :=
| CallRequest (rounds : nat) (request : NetworkPolicyRequest)
| CallBegin (turn_id : string) (managed_network_active : bool) (spec : option NetworkApprovalSpec)
| CallUnregister (registration_id : string)
| CallFinishImmediate (active : ActiveNetworkApproval)
| CallFinishDeferred (deferred : option DeferredNetworkApproval)
| CallBlocked (blocked : BlockedRequest).

Definition perform_call (c : ServiceCall) : Proc NetWorld () :=
  match c with
  | CallRequest rounds request => _ ← handle_inline_policy_request rounds request; mret ()
  | CallBegin turn_id managed spec => _ ← begin_approval turn_id managed spec; mret ()
  | CallUnregister registration_id => unregister_call registration_id
  | CallFinishImmediate active => _ ← finish_immediate active; mret ()
  | CallFinishDeferred deferred => _ ← finish_deferred deferred; mret ()
  | CallBlocked blocked => record_blocked_request blocked
  end.

Lemma owning_forget {A} (p : Proc NetWorld A) : owns service_inv kept holds_token tk_key anyhow None p →
  owns service_inv kept holds_token tk_key anyhow None (_ ← p; mret ()).
Proof. intros Hp. eapply owns_bind; [exact Hp|..]; [|done..]. intros. apply owning_done. Qed.

Lemma owning_call c : owns service_inv kept holds_token tk_key anyhow None (perform_call c).
Proof.
  destruct c; cbn [perform_call].
  - apply owning_forget, owning_request.
  - apply owning_forget. unfold begin_approval. destruct spec as [spec|]; [|apply owning_done]. case_match; [apply owning_done|].
    eapply owning_then; [apply owning_alone, untouched_alone, uuid_untouched|]. intros r. eapply owning_then; [apply owning_register|]. intros. apply owning_done.
  - eapply owning_then; [apply owning_take|]. intros. apply owning_done.
  - apply owning_forget. unfold finish_immediate. case_match; [|apply owning_done]. eapply owning_then; [apply owning_take|]. intros. apply owning_done.
  - apply owning_forget. unfold finish_deferred. case_match; [|apply owning_done]. eapply owning_then; [|intros; apply owning_done].
    apply owning_calls; [intros s; case_match; done|]. intros s Hs. case_match; [done|]. cbn. by destruct (take_call_ok (df_registration_id d) s Hs).
  - unfold record_blocked_request. case_match; [|apply owning_done]. eapply owning_weak, owning_single.
Qed.

(** C10. However requests and tool calls interleave: no host is approved and denied
    for the session at the same time, although the two caches have locks of
    their own; only active calls have outcomes; and a decision that one request
    took for all that wait is never changed, so that all of them get the same
    answer. *)
Theorem approvals_consistent calls w ps w1 ps' w2 : service_ok (approvals w) →
  rtc pstep (map perform_call calls, w) (ps, w1) → rtc pstep (ps, w1) (ps', w2) →
  na_approved (approvals w1) ## na_denied (approvals w1) ∧
  (∀ r o, na_call_outcomes (approvals w1) !! r = Some o → r ∈ (na_active_calls (approvals w1)).*1) ∧
  (∀ id d, pa_decision (cell id (approvals w1)) = Some d → pa_decision (cell id (approvals w2)) = Some d).
Proof.
  intros Hw H1 H2. assert (pool_owned service_inv kept holds_token tk_key anyhow (map perform_call calls, w)) as Hp.
  { apply pool_owned_start; [done|]. apply Forall_fmap, Forall_true. intros c. apply owning_call. }
  destruct (pool_owned_steps _ _ _ _ _ _ _ H1 Hp) as [Hp1 _]. destruct (pool_owned_steps _ _ _ _ _ _ _ H2 Hp1) as [_ Hk].
  destruct Hp1 as [[Hdis _ _ Hout _] _]. split; [done|]. split; [done|]. exact Hk.
Qed.
End pool.

(** ** A request by itself *)

Section alone.
Context `{HU : Unicode} `{HD : HostDirs} `{HL : NetLibs} `{HH : HttpLib} `{HO : HashOrder} `{HE : NetEnv} `{HX : !ApprovalExt} `{HS : !ApprovalSession}.

Definition approving (d : ReviewDecision) : bool :=
  match d with
  | Approved | ApprovedExecpolicyAmendment _ | ApprovedForSession | NetworkPolicyAmendment _ RuleAllow => true
  | _ => false
  end.

(** The request asks by itself, and a hook or the reviewer or user whom it asks
    agrees: there is an active turn whose profile and policy let it ask. *)
Definition granted_now (request : NetworkPolicyRequest) (w : NetWorld) : Prop :=
  let protocol := approval_protocol (pr_protocol request) in let key := key_from_request request protocol in
  ∃ turn command reason hooked w2 w3, run active_turn_context w = (Ok (Some turn), w2) ∧
    permission_profile_allows_network_approval_flow (turn_permission_profile turn) = true ∧ turn_approval_policy turn ≠ Never ∧
    run (permission_request_hooks turn (approval_id_for_key key) command reason) w2 = (Ok hooked, w3) ∧
    (hooked = Some HookAllow ∨
     hooked = None ∧ ∃ call d review w4, run (ask_for_access turn call request protocol key) w3 = (Ok (d, review), w4) ∧ approving d = true).

(** Somebody agreed: an earlier answer for the session, the request that asks
    for all that wait, or whom this request asked. *)
Definition granted (request : NetworkPolicyRequest) (w : NetWorld) : Prop :=
  let key := key_from_request request (approval_protocol (pr_protocol request)) in let s := approvals w in
  key ∉ na_denied s ∧
  (key ∈ na_approved s ∨
   (∃ id d, na_pending s !! key = Some id ∧ pa_decision (cell id s) = Some d ∧ d ≠ PendingDeny) ∨
   na_pending s !! key = None ∧ ∃ id w1, run (get_or_create_pending_approval key) w = (Ok (id, true), w1) ∧ granted_now request w1).

Lemma run_read_service {A} (f : NetworkApprovalService → A) w : run (read_service f) w = (Ok (f (approvals w)), w).
Proof. done. Qed.

Lemma run_wait rounds id seen w d w' : run (wait_for_decision rounds id seen) w = (Ok (Some d), w') → pa_decision (cell id (approvals w)) = Some d.
Proof.
  revert seen. induction rounds as [|rounds IH]; intros seen; cbn [wait_for_decision]; [by intros [? _]%run_plift_ret|].
  rewrite run_bind, run_read_service. destruct seen; [apply IH|]. rewrite run_bind, run_read_service.
  destruct (pa_decision (cell id (approvals w))); [by intros [[= ->] _]%run_plift_ret|apply IH].
Qed.

Lemma run_resolve rounds turn call review context d w resolved deny w' :
  run (resolve_review rounds turn call review context d) w = (Ok (Some (resolved, deny)), w') → resolved ≠ PendingDeny → approving d = true.
Proof.
  destruct d as [| | |host [|]| | |]; try done; unfold resolve_review; intros H Hr; exfalso.
  - apply run_bind_Ok in H as ([u|] & w1 & _ & H); [|by apply run_plift_ret in H as [? _]]. apply run_bind_Ok in H as (? & w2 & _ & H). by apply run_plift_ret in H as [[= -> ->] _].
  - apply run_bind_Ok in H as (? & w2 & _ & H). by apply run_plift_ret in H as [[= -> ->] _].
  - apply run_bind_Ok in H as (? & w2 & _ & H). by apply run_plift_ret in H as [[= -> ->] _].
  - apply run_bind_Ok in H as (? & w2 & _ & H). by apply run_plift_ret in H as [[= -> ->] _].
Qed.

Lemma refuse_denies key id m w d w' : run (refuse_unasked key id m) w = (Ok d, w') → d = decision_deny "not_allowed".
Proof. intros (? & ? & _ & H)%run_bind_Ok. apply run_bind_Ok in H as (? & ? & _ & H). by apply run_plift_ret in H as [[= <-] _]. Qed.

Lemma owner_granted rounds request id w w' : let protocol := approval_protocol (pr_protocol request) in
  run (decide_as_owner rounds request protocol (key_from_request request protocol) id) w = (Ok (Some ProxyHandlers.Allow), w') →
  granted_now request w.
Proof.
  cbn zeta. unfold granted_now. cbn zeta. set (protocol := approval_protocol _). set (key := key_from_request _ _).
  assert (∀ m w, run (d ← refuse_unasked key id m; mret (Some d)) w = (Ok (Some ProxyHandlers.Allow), w') → False) as Hno.
  { intros m w0 (d & w3 & Hr & H)%run_bind_Ok. apply run_plift_ret in H as [[= <-] _]. by apply refuse_denies in Hr. }
  unfold decide_as_owner. cbn zeta. intros ([turn|] & w2 & Ht & H)%run_bind_Ok; [|by apply Hno in H].
  destruct (permission_profile_allows_network_approval_flow _) eqn:Ep; cbn [negb] in H; [|by apply Hno in H].
  destruct (allows_network_approval_flow _) eqn:Ea; cbn [negb] in H; [|by apply Hno in H].
  unfold resolve_single_active_call in H. rewrite run_bind, run_read_service in H. set (call := match na_active_calls _ with [] => _ | _ => _ end) in H.
  apply run_bind_Ok in H as (hooked & w3 & Hh & H). eexists turn, _, _, hooked, w2, w3.
  split; [done|]. split; [done|]. split; [by intros E; rewrite E in Ea|]. split; [exact Hh|]. destruct hooked as [[|m]|].
  - by left.
  - apply run_bind_Ok in H as (? & ? & _ & H). apply run_bind_Ok in H as (? & ? & _ & H). by apply run_plift_ret in H as [? _].
  - right. split; [done|]. apply run_bind_Ok in H as ([d review] & w5 & Hask & H).
    apply run_bind_Ok in H as ([[resolved deny]|] & w6 & Hr & H); [|by apply run_plift_ret in H as [? _]].
    apply run_bind_Ok in H as (? & ? & _ & H). apply run_bind_Ok in H as (? & ? & _ & H). apply run_plift_ret in H as [[= H] _].
    exists call, d, review, w5. split; [done|]. eapply run_resolve; [exact Hr|]. by intros ->.
Qed.

Lemma request_granted rounds request w w' :
  run (handle_inline_policy_request rounds request) w = (Ok (Some ProxyHandlers.Allow), w') → granted request w.
Proof.
  unfold handle_inline_policy_request, granted. cbn zeta. set (key := key_from_request _ _).
  rewrite run_bind, run_read_service. case_bool_decide as Hd; [by intros [? _]%run_plift_ret|].
  rewrite run_bind, run_read_service. case_bool_decide as Ha; [intros _; split; [done|by left]|]. intros ([id own] & w1 & Hg & H)%run_bind_Ok.
  split; [done|right]. pose proof Hg as Hrun. unfold get_or_create_pending_approval, with_service in Hg. rewrite run_atomic in Hg.
  destruct (na_pending (approvals w) !! key) as [id'|] eqn:Ep; injection Hg as <- <- E1; cbn [negb] in H.
  - left. apply run_bind_Ok in H as ([d|] & w2 & Hw & H); apply run_plift_ret in H as [[= H] _]. apply run_wait in Hw. subst w1.
    exists id', d. unfold approvals in Hw. cbn [nw_ext] in Hw. rewrite ext_get_set in Hw. split; [done|]. split; [done|]. by destruct d.
  - right. split; [done|]. exists (length (na_cells (approvals w))), w1. split; [done|]. by eapply owner_granted.
Qed.
End alone.

(** ** From the listener to the answer *)

Section composed.
Context `{HU : Unicode} `{HD : HostDirs} `{HL : NetLibs} `{HH : HttpLib} `{HO : HashOrder} `{HE : NetEnv} `{HX : !ApprovalExt} `{HS : !ApprovalSession} `{HSL : !ApprovalSessionLaws} `{HOb : !NetObserver} `{HR : RamaLib}.

(** The host is on the allow list, or the session is alive and somebody agreed. *)
Definition listed_or_granted (request : NetworkPolicyRequest) (w : NetWorld) : Prop :=
  let n := normalize_host (pr_host request) in
  n ≠ "" ∧ listed (allowed_domains (network (config (nw_state w)))) n = true ∨
  ∃ w1 w2, nw_state w1 = nw_state w ∧ approvals w2 = approvals w ∧ run session_upgrade w1 = (Ok true, w2) ∧ granted request w2.

Lemma alone_run {A} (p : Proc NetWorld A) w : alone p → approvals (run p w).2 = approvals w.
Proof. intros Hp. revert w. induction Hp as [r|upd next Hu _ IH]; intros w; cbn; [done|]. rewrite IH by done. by apply Hu. Qed.

Lemma contact_granted rounds request w : contact_ok (Some (build_network_policy_decider rounds)) request w → listed_or_granted request w.
Proof.
  intros (_ & _ & [H|(decide & w1 & w2 & [= <-] & Es & Ee & H)]); [by left|]. right. unfold build_network_policy_decider in H.
  apply run_bind_Ok in H as ([|] & w3 & Hu & H); [|by apply run_plift_ret in H as [? _]]. apply run_bind_Ok in H as ([d|] & w4 & Hh & H); [|done].
  cbn in H. injection H as -> ->. exists w1, w3. split; [done|]. split; [|split; [done|by eapply request_granted]].
  pose proof (alone_run _ w1 (untouched_alone _ upgrade_untouched)) as E. rewrite Hu in E. cbn in E. rewrite E. unfold approvals. by rewrite Ee.
Qed.

(** C6. With the session's decider, no server is contacted over HTTP, a tunnel or
    SOCKS unless its host is on the allow list, or it was not denied for the
    session and was approved for it, by the request that asks for all that wait,
    by a hook, or by the reviewer or the user, in a turn whose profile is managed
    and whose policy is not [Never].  This is for a request by itself, from a
    checked state that is not reloaded meanwhile. *)
Theorem unlisted_contact_approved rounds w : (∀ t, maybe_reload t = Ok None) → lists_ok (nw_state w) →
  let decider := Some (build_network_policy_decider rounds) in
  (∀ req client req' w', run (http_plain_proxy decider req) w = (Ok (Upstream client req'), w') →
     header_get (req_headers req) "x-unix-socket" = None →
     ∃ ctx, request_context req = Some ctx ∧
       listed_or_granted (mkPolicyRequest ProxyHandlers.Http (normalize_host (host_display (rc_host ctx))) (rc_target_port ctx) (req_peer req)
                            (Some (req_method req)) None None) w) ∧
  (∀ req acc w', run (http_connect_accept decider req) w = (Ok (inl acc), w') →
     listed_or_granted (mkPolicyRequest HttpsConnect (normalize_host (ca_host acc)) (ca_port acc) (req_peer req) (Some "CONNECT") None None) w) ∧
  (∀ target port client host' port' w', run (handle_socks5_tcp decider target port client) w = (Ok (SocksDial host' port'), w') →
     listed_or_granted (mkPolicyRequest ProxyHandlers.Socks5Tcp (normalize_host host') port' client None None None) w) ∧
  (∀ address port payload client p w', run (inspect_socks5_udp decider address port payload client) w = (Ok (Relay p), w') →
     listed_or_granted (mkPolicyRequest ProxyHandlers.Socks5Udp (normalize_host address) port client None None None) w).
Proof.
  intros Hq Hl decider. split; [|split; [|split]].
  - intros req client req' w' H Hn. destruct (plain_contact Hq _ _ Hl _ _ _ _ H Hn) as (ctx & Hc & _ & Hok). exists ctx. split; [done|]. exact (contact_granted rounds _ _ Hok).
  - intros req acc w' H. exact (contact_granted rounds _ _ (connect_contact Hq _ _ Hl _ _ _ H)).
  - intros target port client host' port' w' H. exact (contact_granted rounds _ _ (proj1 (socks_contact Hq _ _ Hl _ _ _ _ _ _ H))).
  - intros address port payload client p w' H. exact (contact_granted rounds _ _ (udp_contact Hq _ _ Hl _ _ _ _ _ _ H)).
Qed.

(** Once the decision is there and the waiters were notified, two more rounds
    answer a request that waits, wherever in its wait it is. *)
Lemma decided_wait_ends rounds id seen d w : pa_decision (cell id (approvals w)) = Some d → seen ≠ Some (pa_notified (cell id (approvals w))) →
  run (wait_for_decision (2 + rounds) id seen) w = (Ok (Some d), w).
Proof.
  intros Hd Hs. cbn [Nat.add wait_for_decision]. rewrite run_bind, run_read_service. destruct seen as [n|].
  - rewrite (proj2 (Nat.eqb_neq _ n)) by congruence. rewrite run_bind, run_read_service. cbn. by rewrite Hd.
  - rewrite run_bind, run_read_service, Hd. done.
Qed.

(** A request that finds an approval pending that nobody decides gets no answer,
    however long it waits. *)
Lemma undecided_waits rounds id seen w : undecided id (approvals w) → run (wait_for_decision rounds id seen) w = (Ok None, w).
Proof.
  unfold undecided. intros Hu. revert seen. induction rounds as [|rounds IH]; intros seen; cbn [wait_for_decision]; [done|].
  rewrite run_bind, run_read_service. destruct seen; [apply IH|]. rewrite run_bind, run_read_service, Hu. apply IH.
Qed.


End composed.

(** ** The decider and the observer keep what the proxy promises *)

Section kept_basics.
Context `{HU : Unicode} `{HD : HostDirs} `{HL : NetLibs} `{HH : HttpLib} `{HO : HashOrder} `{HE : NetEnv} `{HX : !ApprovalExt} `{HS : !ApprovalSession}.

Lemma untouched_keeps {A} (p : Proc NetWorld A) : untouched p → keeps p.
Proof. intros Hp. eapply all_acts_mono; [exact Hp|done|]. intros w w' [_ E]. unfold net_inv. by rewrite E. Qed.

Lemma keeps_service {A} (f : NetworkApprovalService → A * NetworkApprovalService) : keeps (with_service f).
Proof. apply all_acts_atomic. intros w _ Hw. cbn. by destruct (f (approvals w)). Qed.

Lemma keeps_read_service {A} (f : NetworkApprovalService → A) : keeps (read_service f).
Proof. by apply all_acts_atomic. Qed.

End kept_basics.

Ltac service_step :=
  first
    [ apply keeps_ret | apply keeps_lift | apply keeps_service | apply keeps_read_service | assumption
    | apply untouched_keeps; first [apply upgrade_untouched | apply turn_untouched | apply hooks_untouched | apply review_id_untouched
        | apply review_untouched | apply prompt_untouched | apply message_untouched | apply lock_untouched | apply started_untouched
        | apply append_untouched | apply amended_untouched | apply warning_untouched | apply uuid_untouched]
    | apply keeps_bind; [|intros ?] | apply keeps_attempt | progress case_match ].

Section kept_by_session.
Context `{HU : Unicode} `{HD : HostDirs} `{HL : NetLibs} `{HH : HttpLib} `{HO : HashOrder} `{HE : NetEnv} `{HX : !ApprovalExt} `{HS : !ApprovalSession} `{HSL : !ApprovalSessionLaws}.

Lemma keeps_record r outcome : keeps (record_call_outcome r outcome).
Proof. unfold record_call_outcome. repeat service_step. Qed.

Lemma keeps_single outcome : keeps (record_outcome_for_single_active_call outcome).
Proof. unfold record_outcome_for_single_active_call, resolve_single_active_call. repeat first [apply keeps_record|service_step]. Qed.

Lemma keeps_for_owner call outcome : keeps (record_for_owner call outcome).
Proof. unfold record_for_owner. repeat first [apply keeps_record|service_step]. Qed.

Lemma keeps_settle key id d : keeps (settle key id d).
Proof. unfold settle, set_decision, remove_pending. repeat service_step. Qed.

Lemma keeps_refuse key id m : keeps (refuse_unasked key id m).
Proof. unfold refuse_unasked. repeat first [apply keeps_settle|apply keeps_single|service_step]. Qed.

Lemma keeps_wait rounds id seen : keeps (wait_for_decision rounds id seen).
Proof. revert seen. induction rounds as [|rounds IH]; intros seen; cbn [wait_for_decision]; repeat first [apply IH|service_step]. Qed.

Lemma keeps_observed b : keeps (record_blocked_request b).
Proof. unfold record_blocked_request. repeat first [apply keeps_single|service_step]. Qed.

Context (reload_ok : ∀ t s, maybe_reload t = Ok (Some s) → lists_ok s).

Lemma keeps_amendment rounds turn host action context : keeps (apply_amendment rounds turn host action context).
Proof using reload_ok HSL.
  unfold apply_amendment, persist_network_policy_amendment, context_err, add_allowed_domain, add_denied_domain, update_domain_list.
  repeat first [apply keeps_update|service_step]; done.
Qed.

Lemma keeps_resolve_review rounds turn call review context d : keeps (resolve_review rounds turn call review context d).
Proof using reload_ok HSL.
  unfold resolve_review, record_rejection. repeat first [apply keeps_amendment|apply keeps_for_owner|apply keeps_record|service_step].
Qed.

Lemma keeps_owner rounds request protocol key id : keeps (decide_as_owner rounds request protocol key id).
Proof using reload_ok HSL.
  unfold decide_as_owner, ask_for_access, cache_decision, resolve_single_active_call. cbn zeta.
  repeat first [apply keeps_refuse|apply keeps_settle|apply keeps_for_owner|apply keeps_resolve_review|service_step].
Qed.

Lemma keeps_request rounds request : keeps (handle_inline_policy_request rounds request).
Proof using reload_ok HSL.
  unfold handle_inline_policy_request, get_or_create_pending_approval. cbn zeta. repeat first [apply keeps_owner|apply keeps_wait|service_step].
Qed.

Lemma keeps_decider rounds request : keeps (build_network_policy_decider rounds request).
Proof using reload_ok HSL. unfold build_network_policy_decider. repeat first [apply keeps_request|service_step]. Qed.
End kept_by_session.

(** ** The proxy and the service together *)

Section together.
Context `{HU : Unicode} `{HD : HostDirs} `{HL : NetLibs} `{HH : HttpLib} `{HO : HashOrder} `{HE : NetEnv} `{HX : !ApprovalExt} `{HS : !ApprovalSession} `{HSL : !ApprovalSessionLaws} `{HR : RamaLib} `{HOL : !HashOrderLaws} `{HNL : !NetLibsLaws}.

#[local] Existing Instance approval_observer.

(** The proxy's requests ask nobody or the session. *)
Definition session_call (c : NetCall) : Prop :=
  match c with
  | CallConnect decider _ | CallPlain decider _ | CallSocksTcp decider _ _ _ | CallSocksUdp decider _ _ _ _ =>
      decider = None ∨ ∃ rounds, decider = Some (build_network_policy_decider rounds)
  | CallReplace s => lists_ok s
  | _ => True
  end.

Lemma keeps_service_call c : (∀ t s, maybe_reload t = Ok (Some s) → lists_ok s) → keeps (perform_call c).
Proof.
  intros Hr. destruct c; cbn [perform_call].
  - apply keeps_bind; [by apply keeps_request|]. intros. apply keeps_ret.
  - unfold begin_approval. repeat service_step.
  - unfold unregister_call. repeat service_step.
  - unfold finish_immediate, finish_call, remove_call. repeat service_step.
  - unfold finish_deferred, deferred_finish. repeat service_step.
  - apply keeps_observed.
Qed.

(** C15. However the proxy's requests, the operations on its lists and the calls of
    the service interleave, with the session's decider and observer: what users
    approve, and the amendments that are written for them, never take the lists
    outside the administrator's constraints. *)
Theorem approvals_managed calls services w ps' w' :
  (∀ t s, maybe_reload t = Ok (Some s) → lists_ok s) → (∀ t s, reload_now t = Ok s → lists_ok s) →
  Forall session_call calls → state_ok (nw_state w) →
  rtc pstep (map perform calls ++ map perform_call services, w) (ps', w') → managed_state (nw_state w').
Proof.
  intros Hr Hn Hc Hw Hsteps. apply state_ok_managed. eapply (psteps_all_acts net_inv (λ w w', net_inv w → net_inv w') _ _ _ Hsteps); [|done|done].
  Unshelve. 2: split; [by intros ??|intros ??????; auto]. 2: by intros ? ? ? ?; auto.
  apply Forall_app. split; rewrite Forall_fmap.
  - eapply Forall_impl; [exact Hc|]. intros c Hs. apply keeps_perform; [done..|intros; apply keeps_observed|].
    destruct c; try done; intros d ->; by destruct Hs as [|[rounds [= ->]]]; [|apply keeps_decider].
  - apply Forall_true. intros c. by apply keeps_service_call.
Qed.
End together.

(** ** Witnesses *)

#[local] Existing Instances demo_unicode demo_dirs demo_net_libs demo_net_laws demo_http_lib net_hash_order net_hash_order_laws demo_rama.

(** The demonstration's proxy beside a service. *)
#[local] Instance demo_approval_env : NetEnv := {|
  Observer := unit;
  Ext := NetworkApprovalService;
  env_var_at _ _ := None;
  secret_file_at _ _ := IoErr "not found";
  ca_at _ := Ok "authority";
  maybe_reload _ := Ok None;
  reload_now _ := Err "no configuration";
  lookup_at _ _ port := Resolved [mkSocketAddr (V4 (mkIpv4 93 184 216 34)) port];
  unix_time_at t := Z.of_nat t;
  canonical_at _ _ := None;
  target_macos := false
|}.

#[local] Instance demo_approval_ext : ApprovalExt := {| ext_approvals s := s; set_ext_approvals s _ := s; ext_get_set _ _ := eq_refl |}.

(** A user who allows other.org, and denies the rest by an amendment. *)
#[local] Instance demo_session : ApprovalSession := {|
  Turn := unit;
  turn_permission_profile _ := Managed ManagedUnrestricted NetRestricted;
  turn_approval_policy _ := OnRequest;
  turn_sub_id _ := "turn-1";
  turn_cwd _ := "/work";
  turn_routes_to_guardian _ := false;
  session_upgrade := mret true;
  active_turn_context := mret (Some ());
  permission_request_hooks _ _ _ _ := mret None;
  new_review_id := mret "review-1";
  review_approval_request _ _ _ _ := mret Orchestrator.Denied;
  request_command_approval _ p :=
    mret (match nc_host <$> cp_network_approval_context p with
          | Some host => if to_ascii_lowercase host == "other.org" then ApprovedForSession else NetworkPolicyAmendment host RuleDeny
          | None => Orchestrator.Denied
          end);
  rejection_message _ := mret "rejected";
  acquire_refresh_lock := mret ();
  network_proxy_started := mret true;
  append_network_rule_and_update _ _ _ _ := mret ();
  record_network_policy_amendment_message _ _ _ := mret ();
  send_warning _ _ := mret ();
  new_uuid := mret "call-1"
|}.

#[local] Instance demo_session_laws : ApprovalSessionLaws.
Proof. split; intros; apply all_acts_ret. Qed.

Definition demo_approval_world : NetWorld := mkNetWorld demo_approval_env (demo_config_state Full) None [] 0 service_default.

Definition demo_access (host : string) : NetworkPolicyRequest := mkPolicyRequest ProxyHandlers.Http host 80 None (Some "GET") None None.

Definition demo_trigger : GuardianNetworkAccessTrigger := mkTrigger "call" "shell" ["curl"; "other.org"] "/work" UseDefault None None None.

Definition demo_service_calls : list ServiceCall :=
  [CallRequest 20 (demo_access "other.org"); CallRequest 20 (demo_access "Other.org");
   CallBegin "turn-1" true (Some (mkSpec (Some (mkNetworkProxy None)) Immediate demo_trigger "curl other.org")); CallRequest 20 (demo_access "bad.org")].

(** Two requests for one host take turns with the registration of a call and
    with a request that is denied: first for a while, then until all end. *)
Definition demo_first : list (Proc NetWorld ()) * NetWorld :=
  sched (concat (repeat [1; 0; 2; 3] 3)) (map perform_call demo_service_calls, demo_approval_world).

Definition demo_last : list (Proc NetWorld ()) * NetWorld := sched (concat (repeat [0; 3; 1] 40)) demo_first.

Definition finished {W A} (p : Proc W A) : bool := match p with Done (Ok _) => true | _ => false end.

Lemma approvals_consistent_witness :
  length (na_cells (approvals demo_first.2)) = 2 ∧ forallb finished demo_last.1 = true ∧
  elements (na_approved (approvals demo_last.2)) = [mkKey "other.org" "http" 80] ∧ elements (na_denied (approvals demo_last.2)) = [mkKey "bad.org" "http" 80] ∧
  na_approved (approvals demo_last.2) ## na_denied (approvals demo_last.2) ∧
  (∀ id d, pa_decision (cell id (approvals demo_first.2)) = Some d → pa_decision (cell id (approvals demo_last.2)) = Some d).
Proof.
  split; [by vm_compute|]. split; [by vm_compute|]. split; [by vm_compute|]. split; [by vm_compute|].
  assert (service_ok (approvals demo_approval_world)) as Hs by (by split; [set_solver|..|constructor]).
  assert (rtc pstep (map perform_call demo_service_calls, demo_approval_world) (demo_first.1, demo_first.2)) as H1 by (rewrite <- surjective_pairing; apply sched_psteps).
  assert (rtc pstep (demo_first.1, demo_first.2) (demo_last.1, demo_last.2)) as H2 by (rewrite <- !surjective_pairing; apply sched_psteps).
  split.
  - exact (proj1 (approvals_consistent demo_service_calls demo_approval_world demo_last.1 demo_last.2 demo_last.1 demo_last.2 Hs (rtc_trans _ _ _ H1 H2) (rtc_refl _ _))).
  - exact (proj2 (proj2 (approvals_consistent demo_service_calls demo_approval_world demo_first.1 demo_first.2 demo_last.1 demo_last.2 Hs H1 H2))).
Defined.

Lemma unlisted_contact_approved_witness : let NO := approval_observer in
  (∃ w', run (http_plain_proxy (Some (build_network_policy_decider 20)) (demo_request "GET" "other.org")) demo_approval_world
         = (Ok (Upstream DirectClient (demo_request "GET" "other.org")), w')) ∧
  listed_or_granted (mkPolicyRequest ProxyHandlers.Http "other.org" 80 (Some "127.0.0.1:5000") (Some "GET") None None) demo_approval_world.
Proof.
  intros NO. destruct (run (http_plain_proxy (Some (build_network_policy_decider 20)) (demo_request "GET" "other.org")) demo_approval_world) as [r w1] eqn:E.
  assert (r = Ok (Upstream DirectClient (demo_request "GET" "other.org"))) as -> by (by vm_compute in E; injection E as <- _).
  split; [by exists w1|]. destruct (unlisted_contact_approved 20 demo_approval_world demo_quiet (demo_lists_ok Full)) as [Hp _].
  destruct (Hp _ _ _ _ E eq_refl) as (ctx & [= <-] & H). exact H.
Defined.

Definition demo_proxy_calls : list NetCall :=
  [CallPlain (Some (build_network_policy_decider 20)) (demo_request "GET" "other.org"); CallAddAllowed 1 "more.org"; CallAddDenied 1 "bad.com"].

Definition demo_together : list (Proc NetWorld ()) * NetWorld :=
  let NO := approval_observer in
  sched (concat (repeat [0; 1; 2; 3; 4; 5; 6] 60)) (map perform demo_proxy_calls ++ map perform_call demo_service_calls, demo_approval_world).

(** The allow list could not be extended; the deny list was. *)
Lemma approvals_managed_witness :
  forallb finished (drop 2 demo_together.1) = true ∧ allowed_domains (network (config (nw_state demo_together.2))) = Some ["**.example.com"] ∧
  denied_domains (network (config (nw_state demo_together.2))) = Some ["evil.example.com"; "bad.com"; "bad.org"] ∧
  managed_state (nw_state demo_together.2).
Proof.
  split; [by vm_compute|]. split; [by vm_compute|]. split; [by vm_compute|].
  apply (approvals_managed demo_proxy_calls demo_service_calls demo_approval_world demo_together.1 demo_together.2); [by intros ?? [=]|by intros ?? [=]|..].
  - apply Forall_cons. split; [right; by eexists|]. by repeat constructor.
  - split; [apply demo_lists_ok|]. vm_compute. lia.
  - rewrite <- surjective_pairing. apply sched_psteps.
Defined.

(** ** What the interleavings allow *)

Section abandoned.
Context `{HU : Unicode} `{HD : HostDirs} `{HL : NetLibs} `{HH : HttpLib} `{HO : HashOrder} `{HE : NetEnv} `{HX : !ApprovalExt} `{HS : !ApprovalSession}.

(** When the request that asks is dropped before it decides, its pending
    approval stays, and every later request for the host gets no answer, however
    long it waits. *)
Lemma abandoned_request_blocks rounds request id w :
  let key := key_from_request request (approval_protocol (pr_protocol request)) in let s := approvals w in
  na_pending s !! key = Some id → undecided id s → key ∉ na_denied s → key ∉ na_approved s →
  (run (handle_inline_policy_request rounds request) w).1 = Ok None.
Proof.
  cbn zeta. intros Hp Hu Hd Ha. unfold handle_inline_policy_request. cbn zeta. rewrite run_bind, run_read_service, bool_decide_false by done.
  rewrite run_bind, run_read_service, bool_decide_false by done. rewrite run_bind. unfold get_or_create_pending_approval, with_service.
  rewrite run_atomic, Hp. cbn [negb]. rewrite run_bind, undecided_waits; [done|]. unfold approvals. cbn [nw_ext]. by rewrite ext_get_set.
Qed.
End abandoned.

(** The request of the demonstration that owns the approval runs until the user
    is asked and is dropped then: nobody has an answer for the host any more. *)
Example abandoned_demo : let w := (sched [0; 0; 0] ([perform_call (CallRequest 20 (demo_access "other.org"))], demo_approval_world)).2 in
  ∀ rounds, (run (handle_inline_policy_request rounds (demo_access "other.org")) w).1 = Ok None.
Proof. intros w rounds. eapply abandoned_request_blocks; [by vm_compute|by vm_compute|by vm_compute; intros ?..]. Qed.

(** A request that looked at the caches before the answer for the session was
    noted, and for the pending approval after it was removed, asks the user
    again. *)
Example asked_twice :
  let c := sched ([1; 1] ++ repeat 0 20 ++ repeat 1 20) (map perform_call (take 2 demo_service_calls), demo_approval_world) in
  forallb finished c.1 = true ∧ na_cells (approvals c.2) = [mkPending (Some AllowForSession) 1; mkPending (Some AllowForSession) 1].
Proof. by vm_compute. Qed.
