(* ===== verification/ApplyFs.v ===== *)
(** * Applying hunks to files (apply-patch: lib.rs; file-system: lib.rs)

    The hunks of a patch are carried out one after the other against an
    [ExecutorFileSystem], and a delta records what was committed.  The file
    system is a parameter; [FsLaws] states what the theorems rely on.
    Reading and asking for metadata do not change files, so they are
    functions of the state.  The sandbox is part of the instance. *)

From S2P Require Import Prelude RustStr Os AbsPath PatchParser ApplyChunks.

(** ** The file system *)

Inductive ErrorKind := NotFound | InvalidInput | OtherKind.

(** [FileSystemResult]. *)
Inductive fsr (A : Type) : Type := FsOk (a : A) | FsErr (kind : ErrorKind) (text : string).
Arguments FsOk {A} a.
Arguments FsErr {A} kind text.

Record FileMetadata := {
  is_directory : bool;
  is_regular : bool;
  is_symlink : bool;
  created_at_ms : Z;
  modified_at_ms : Z
}.

Record ReadDirectoryEntry := { entry_name : string; entry_is_directory : bool; entry_is_file : bool }.

Record RemoveOptions := { recursive : bool; force : bool }.

Class ExecutorFileSystem := {
  fsw : Type;
  canonicalize : fsw → string → fsr string;
  read_file : fsw → string → fsr string;
  read_directory : fsw → string → fsr (list ReadDirectoryEntry);
  read_file_text : fsw → string → fsr string;
  get_metadata : fsw → string → fsr FileMetadata;
  write_file : string → string → fsw → fsr () * fsw;
  create_directory : string → bool → fsw → fsr () * fsw;
  fs_remove : string → RemoveOptions → fsw → fsr () * fsw
}.

(** ** Deltas *)

Inductive AppliedPatchFileChange :=
| Added (content : string) (overwritten_content : option string)
| Deleted (content : string)
| Updated (move_path : option string) (old_content : string)
    (overwritten_move_content : option string) (new_content : string).

Record AppliedPatchChange := { changed_path : string; change : AppliedPatchFileChange }.

Record AppliedPatchDelta := { changes : list AppliedPatchChange; exact : bool }.

Definition delta_empty : AppliedPatchDelta := {| changes := []; exact := true |}.

(** [AppliedPatchDelta::append]. *)
Definition delta_append (d other : AppliedPatchDelta) : AppliedPatchDelta :=
  {| changes := changes d ++ changes other; exact := exact d && exact other |}.

Definition and_exact (b : bool) (d : AppliedPatchDelta) : AppliedPatchDelta :=
  {| changes := changes d; exact := exact d && b |}.

Definition record_change (path : string) (c : AppliedPatchFileChange) (d : AppliedPatchDelta) : AppliedPatchDelta :=
  {| changes := changes d ++ [{| changed_path := path; change := c |}]; exact := exact d |}.

(** [delta.changes[i] = ..]. *)
Definition replace_change (i : nat) (path : string) (c : AppliedPatchFileChange) (d : AppliedPatchDelta) :
    AppliedPatchDelta :=
  {| changes := <[i := {| changed_path := path; change := c |}]> (changes d); exact := exact d |}.

Record AffectedPaths := { added : list string; modified : list string; deleted : list string }.

(** ** Errors and effects *)

Inductive ApplyPatchError :=
| ParseErrorOf (e : ParseError)
| IoErrorOf (context source : string)
| ComputeReplacements (message : string)
| ImplicitInvocation.

(** The texts of the errors. *)
Definition parse_error_text (e : ParseError) : string :=
  match e with
  | InvalidPatchError message => "invalid patch: " +:+ message
  | InvalidHunkError message n => "invalid hunk at line " +:+ pretty n +:+ ", " +:+ message
  end.

Definition apply_error_text (e : ApplyPatchError) : string :=
  match e with
  | ParseErrorOf e => parse_error_text e
  | IoErrorOf context source => context +:+ ": " +:+ source
  | ComputeReplacements message => message
  | ImplicitInvocation =>
      "patch detected without explicit call to apply_patch. Rerun as [" +:+ quote +:+ "apply_patch" +:+ quote
      +:+ ", " +:+ quote +:+ "<patch>" +:+ quote +:+ "]"
  end.

(** An [anyhow::Error]: its text, and the [io::Error] it downcasts to. *)
Record AnyError := { error_text : string; error_io : option (ErrorKind * string) }.

Inductive out (A : Type) : Type := Done (a : A) | Failed (e : AnyError) | Panicked.
Arguments Done {A} a.
Arguments Failed {A} e.
Arguments Panicked {A}.

Definition io_context {A} (r : fsr A) (context : string) : out A :=
  match r with
  | FsOk a => Done a
  | FsErr kind text => Failed {| error_text := context; error_io := Some (kind, text) |}
  end.

(** A patch threads the file system and the delta. *)
Definition Ap `{ExecutorFileSystem} (A : Type) : Type :=
  fsw * AppliedPatchDelta → out A * (fsw * AppliedPatchDelta).

#[export] Instance Ap_ret `{ExecutorFileSystem} : MRet Ap := λ A a s, (Done a, s).
#[export] Instance Ap_bind `{ExecutorFileSystem} : MBind Ap := λ A B f m s,
  match m s with
  | (Done a, s') => f a s'
  | (Failed e, s') => (Failed e, s')
  | (Panicked, s') => (Panicked, s')
  end.

Section apply.
Context `{ExecutorFileSystem} (home_dir : option string).

Definition ap_lift {A} (r : out A) : Ap A := λ s, (r, s).
Definition ap_fs {A} (f : fsw → A) : Ap A := λ s, (Done (f s.1), s).
Definition ap_delta (f : AppliedPatchDelta → AppliedPatchDelta) : Ap () := λ '(w, d), (Done (), (w, f d)).

Definition ap_count : Ap nat := λ s, (Done (length (changes s.2)), s).

(** [try_write!]: a failed write may have changed the file. *)
Definition try_write (f : fsw → out () * fsw) : Ap () := λ '(w, d),
  match f w with
  | (Done _, w') => (Done (), (w', d))
  | (Failed e, w') => (Failed e, (w', {| changes := changes d; exact := false |}))
  | (Panicked, w') => (Panicked, (w', d))
  end.

Definition ensure_not_directory (w : fsw) (path : string) : fsr () :=
  match get_metadata w path with
  | FsOk metadata =>
      if is_directory metadata then FsErr InvalidInput "path is a directory" else FsOk ()
  | FsErr kind text => FsErr kind text
  end.

Definition remove_failure_was_side_effect_free (w : fsw) (path : string) (expected : option string) : bool :=
  match expected with
  | Some expected =>
      match read_file_text w path with
      | FsOk content => content == expected
      | FsErr _ _ => false
      end
  | None => false
  end.

(** What [note_existing_path_delta_support] leaves of [exact]. *)
Definition plain_path (w : fsw) (path : string) : bool :=
  match get_metadata w path with
  | FsOk metadata => is_regular metadata && negb (is_symlink metadata)
  | FsErr NotFound _ => true
  | FsErr _ _ => false
  end.

Definition note_existing_path_delta_support (path : string) : Ap () := λ '(w, d),
  (Done (), (w, and_exact (plain_path w path) d)).

Definition read_optional_text (path : string) : Ap (option string) := λ '(w, d),
  match read_file_text w path with
  | FsOk content => (Done (Some content), (w, d))
  | FsErr NotFound _ => (Done None, (w, d))
  | FsErr _ _ => (Done None, (w, and_exact false d))
  end.

Definition read_optional_file_text_for_delta (path : string) : Ap (option string) :=
  note_existing_path_delta_support path ≫= λ _, read_optional_text path.

Definition write_file_with_missing_parent_retry (path_abs contents : string) (w : fsw) : out () * fsw :=
  let failed_write := "Failed to write file " +:+ path_abs in
  match write_file path_abs contents w with
  | (FsOk _, w1) => (Done (), w1)
  | (FsErr NotFound _, w1) =>
      let '(created, w2) :=
        match path_parent path_abs with
        | Some parent_abs =>
            let '(r, w2) := create_directory parent_abs true w1 in
            (io_context r ("Failed to create parent directories for " +:+ path_abs), w2)
        | None => (Done (), w1)
        end in
      match created with
      | Done _ =>
          let '(r, w3) := write_file path_abs contents w2 in (io_context r failed_write, w3)
      | Failed e => (Failed e, w2)
      | Panicked => (Panicked, w2)
      end
  | (FsErr kind text, w1) => (Failed {| error_text := failed_write; error_io := Some (kind, text) |}, w1)
  end.

(** [AppliedPatch]: the contents before and after; an error; a panic. *)
Inductive derived := Derived (original_contents new_contents : string) | Underivable (e : ApplyPatchError) | DeriveAborts.

Definition derive_new_contents_from_chunks (w : fsw) (path_abs : string) (chunks : list UpdateFileChunk) : derived :=
  match read_file_text w path_abs with
  | FsErr _ text => Underivable (IoErrorOf ("Failed to read file to update " +:+ path_abs) text)
  | FsOk original_contents =>
      match derive_new_contents path_abs original_contents chunks with
      | Ok new_contents => Derived original_contents new_contents
      | Err message => Underivable (ComputeReplacements message)
      | Panic => DeriveAborts
      end
  end.

(** [?] on it. *)
Definition try_derived (r : derived) : out (string * string) :=
  match r with
  | Derived old new => Done (old, new)
  | Underivable e => Failed {| error_text := apply_error_text e; error_io := None |}
  | DeriveAborts => Panicked
  end.

Definition plain_remove : RemoveOptions := {| recursive := false; force := false |}.

(** [fs.remove(..)]: on failure, is what was there still there? *)
Definition remove_or_note (path_abs : string) (expected : option string) (context : string) : Ap () := λ '(w, d),
  match fs_remove path_abs plain_remove w with
  | (FsOk _, w') => (Done (), (w', d))
  | (FsErr kind text, w') =>
      (Failed {| error_text := context; error_io := Some (kind, text) |},
       (w', and_exact (remove_failure_was_side_effect_free w' path_abs expected) d))
  end.

(** ** One hunk of each kind *)

Definition apply_add (path_abs contents : string) : Ap () :=
  overwritten_content ← read_optional_file_text_for_delta path_abs;
  try_write (write_file_with_missing_parent_retry path_abs contents) ≫= λ _,
  ap_delta (record_change path_abs (Added contents overwritten_content)).

Definition apply_delete_hunk (path_abs : string) : Ap () :=
  let context := "Failed to delete file " +:+ path_abs in
  note_existing_path_delta_support path_abs ≫= λ _,
  deleted_content ← ap_fs (λ w, match read_file_text w path_abs with FsOk c => Some c | FsErr _ _ => None end);
  ap_delta (and_exact (match deleted_content with Some _ => true | None => false end)) ≫= λ _,
  not_dir ← ap_fs (λ w, ensure_not_directory w path_abs);
  ap_lift (io_context not_dir context) ≫= λ _,
  remove_or_note path_abs deleted_content context ≫= λ _,
  match deleted_content with
  | Some content => ap_delta (record_change path_abs (Deleted content))
  | None => mret ()
  end.

Definition apply_move (path_abs dest_abs original_contents new_contents : string) : Ap () :=
  let context := "Failed to remove original " +:+ path_abs in
  overwritten ← read_optional_file_text_for_delta dest_abs;
  try_write (write_file_with_missing_parent_retry dest_abs new_contents) ≫= λ _,
  index ← ap_count;
  ap_delta (record_change dest_abs (Added new_contents overwritten)) ≫= λ _,
  not_dir ← ap_fs (λ w, ensure_not_directory w path_abs);
  ap_lift (io_context not_dir context) ≫= λ _,
  remove_or_note path_abs (Some original_contents) context ≫= λ _,
  ap_delta (replace_change index path_abs
    (Updated (Some dest_abs) original_contents overwritten new_contents)).

Definition apply_rewrite (path_abs original_contents new_contents : string) : Ap () :=
  try_write (λ w, let '(r, w') := write_file path_abs new_contents w in
                  (io_context r ("Failed to write file " +:+ path_abs), w')) ≫= λ _,
  ap_delta (record_change path_abs (Updated None original_contents None new_contents)).

Definition apply_update (cwd path_abs : string) (move_path : option string) (chunks : list UpdateFileChunk) : Ap () :=
  note_existing_path_delta_support path_abs ≫= λ _,
  derived ← ap_fs (λ w, derive_new_contents_from_chunks w path_abs chunks);
  '(original_contents, new_contents) ← ap_lift (try_derived derived);
  match move_path with
  | Some dest =>
      apply_move path_abs (resolve_path_against_base home_dir dest cwd) original_contents new_contents
  | None => apply_rewrite path_abs original_contents new_contents
  end.

Definition apply_hunk (cwd : string) (hunk : Hunk) : Ap () :=
  let path_abs := resolve_path_against_base home_dir (hunk_source hunk) cwd in
  match hunk with
  | AddFile _ contents => apply_add path_abs contents
  | DeleteFile _ => apply_delete_hunk path_abs
  | UpdateFile _ move_path chunks => apply_update cwd path_abs move_path chunks
  end.

(** The summary lists the path of a hunk as the patch spells it. *)
Definition affect (hunk : Hunk) (a : AffectedPaths) : AffectedPaths :=
  match hunk with
  | AddFile _ _ => {| added := added a ++ [hunk_path hunk]; modified := modified a; deleted := deleted a |}
  | DeleteFile _ => {| added := added a; modified := modified a; deleted := deleted a ++ [hunk_path hunk] |}
  | UpdateFile _ _ _ => {| added := added a; modified := modified a ++ [hunk_path hunk]; deleted := deleted a |}
  end.

Fixpoint apply_each_hunk (cwd : string) (hunks : list Hunk) (a : AffectedPaths) : Ap AffectedPaths :=
  match hunks with
  | [] => mret a
  | hunk :: rest => apply_hunk cwd hunk ≫= λ _, apply_each_hunk cwd rest (affect hunk a)
  end.

Definition apply_hunks_to_files (cwd : string) (hunks : list Hunk) : Ap AffectedPaths :=
  match hunks with
  | [] => ap_lift (Failed {| error_text := "No files were modified."; error_io := None |})
  | _ :: _ => apply_each_hunk cwd hunks {| added := []; modified := []; deleted := [] |}
  end.
End apply.

(** ** The command: parse, apply, report *)

Definition line (s : string) : string := s +:+ String newline "".

Definition print_summary (affected : AffectedPaths) : string :=
  line "Success. Updated the following files:" +:+
  String.concat "" (map (λ p, line ("A " +:+ p)) (added affected)
                    ++ map (λ p, line ("M " +:+ p)) (modified affected)
                    ++ map (λ p, line ("D " +:+ p)) (deleted affected)).

(** What a run leaves: the delta or the error with its delta, what was
    printed, and the files.  The writers accept everything. *)
Record Report `{ExecutorFileSystem} := {
  result : AppliedPatchDelta + ApplyPatchError * AppliedPatchDelta;
  out_text : string;
  err_text : string;
  files : fsw
}.

Definition error_of (e : AnyError) : ApplyPatchError :=
  match error_io e with
  | Some (_, text) => IoErrorOf "I/O error" text
  | None => IoErrorOf (error_text e) (error_text e)
  end.

Definition apply_hunks `{ExecutorFileSystem} (home_dir : option string) (cwd : string) (hunks : list Hunk)
    (w : fsw) : option Report :=
  match apply_hunks_to_files home_dir cwd hunks (w, delta_empty) with
  | (Done affected, (w', delta)) =>
      Some {| result := inl delta; out_text := print_summary affected; err_text := ""; files := w' |}
  | (Failed e, (w', delta)) =>
      Some {| result := inr (error_of e, delta); out_text := ""; err_text := line (error_text e); files := w' |}
  | (Panicked, _) => None
  end.

Definition parse_report (e : ParseError) : string :=
  match e with
  | InvalidPatchError message => line ("Invalid patch: " +:+ message)
  | InvalidHunkError message n => line ("Invalid patch hunk on line " +:+ pretty n +:+ ": " +:+ message)
  end.

(** [None] is a panic. *)
Definition apply_patch `{ExecutorFileSystem} (home_dir : option string) (cwd text : string) (w : fsw) : option Report :=
  match parse_patch text with
  | Parsed source => apply_hunks home_dir cwd (hunks source) w
  | Rejected e =>
      Some {| result := inr (ParseErrorOf e, delta_empty); out_text := ""; err_text := parse_report e; files := w |}
  | Crash | Stuck => None
  end.

(** ** What a file system promises *)

(** [view] is the text files by path.  A successful write to a path that is a
    regular file or absent changes that path only, as on a file system where
    no two paths name one file (no hard or symbolic links between the files that
    a patch names); a write that reports a missing directory changes nothing;
    directories are no files; a removal that is neither recursive nor forced
    removes the file, and when it fails leaves it or removes it. *)
Class FsLaws `{ExecutorFileSystem} := {
  view : fsw → gmap string string;
  read_ok w p c : read_file_text w p = FsOk c → view w !! p = Some c;
  read_missing w p e : read_file_text w p = FsErr NotFound e → view w !! p = None;
  write_ok w p c w' :
    plain_path w p = true → write_file p c w = (FsOk (), w') → view w' = <[p := c]> (view w);
  write_missing w p c e w' :
    write_file p c w = (FsErr NotFound e, w') →
    view w' = view w ∧ (plain_path w p = true → plain_path w' p = true);
  create_directory_files w d b r w' :
    create_directory d b w = (r, w') →
    view w' = view w ∧
    ∀ p, path_starts_with d p = false → plain_path w p = true → plain_path w' p = true;
  remove_ok w p w' : fs_remove p plain_remove w = (FsOk (), w') → view w' = delete p (view w);
  remove_err w p k e w' :
    fs_remove p plain_remove w = (FsErr k e, w') → view w' = view w ∨ view w' = delete p (view w)
}.

(** ** Reading a delta *)

Definition replay1 (c : AppliedPatchChange) (m : gmap string string) : gmap string string :=
  match change c with
  | Added content _ => <[changed_path c := content]> m
  | Deleted _ => delete (changed_path c) m
  | Updated None _ _ new => <[changed_path c := new]> m
  | Updated (Some dest) _ _ new => delete (changed_path c) (<[dest := new]> m)
  end.

Definition replay (cs : list AppliedPatchChange) (m : gmap string string) : gmap string string :=
  fold_left (λ m c, replay1 c m) cs m.

Definition restore (path : string) (content : option string) (m : gmap string string) : gmap string string :=
  match content with Some c => <[path := c]> m | None => delete path m end.

Definition undo1 (c : AppliedPatchChange) (m : gmap string string) : gmap string string :=
  match change c with
  | Added _ overwritten => restore (changed_path c) overwritten m
  | Deleted content => <[changed_path c := content]> m
  | Updated None old _ _ => <[changed_path c := old]> m
  | Updated (Some dest) old overwritten _ => <[changed_path c := old]> (restore dest overwritten m)
  end.

Definition undo (cs : list AppliedPatchChange) (m : gmap string string) : gmap string string :=
  fold_right undo1 m cs.

(** The contents a change says it replaced. *)
Definition records (c : AppliedPatchChange) (m : gmap string string) : Prop :=
  match change c with
  | Added _ overwritten => m !! changed_path c = overwritten
  | Deleted content => m !! changed_path c = Some content
  | Updated None old _ _ => m !! changed_path c = Some old
  | Updated (Some dest) old overwritten _ =>
      m !! changed_path c = Some old ∧ m !! dest = overwritten
  end.

Lemma restore_insert p x m : restore p (m !! p) (<[p := x]> m) = m.
Proof.
  unfold restore. destruct (m !! p) eqn:E.
  - by rewrite insert_insert_eq, insert_id.
  - by rewrite delete_insert_id.
Qed.

Lemma undo1_replay1 c m : records c m → undo1 c (replay1 c m) = m.
Proof.
  unfold records, undo1, replay1. destruct c as [p [content ow|content|[dest|] old ow new]]; cbn.
  - intros <-. apply restore_insert.
  - intros Hm. by rewrite insert_delete_id.
  - intros [Hp <-]. apply map_eq. intros i. destruct (decide (i = p)) as [->|Hip]; [by rewrite lookup_insert_eq|].
    rewrite lookup_insert_ne by done. unfold restore.
    destruct (decide (i = dest)) as [->|Hid], (m !! dest) eqn:E;
      by rewrite ?lookup_insert_eq, ?lookup_delete_eq, ?lookup_insert_ne, ?lookup_delete_ne,
        ?lookup_insert_ne by done.
  - intros Hm. by rewrite insert_insert_eq, insert_id.
Qed.

(** Every change of a delta records what it replaced. *)
Fixpoint recorded (cs : list AppliedPatchChange) (m : gmap string string) : Prop :=
  match cs with
  | [] => True
  | c :: cs' => records c m ∧ recorded cs' (replay1 c m)
  end.

Lemma undo_replay cs m : recorded cs m → undo cs (replay cs m) = m.
Proof.
  revert m. induction cs as [|c cs IH]; intros m; cbn; [done|]. intros [Hc Hcs].
  unfold undo, replay in IH. by rewrite (IH _ Hcs), undo1_replay1.
Qed.

Lemma replay_snoc cs c m : replay (cs ++ [c]) m = replay1 c (replay cs m).
Proof. unfold replay. by rewrite fold_left_app. Qed.

Lemma recorded_snoc cs c m : recorded (cs ++ [c]) m ↔ recorded cs m ∧ records c (replay cs m).
Proof.
  revert m. induction cs as [|x cs IH]; intros m; cbn; [by split; [intros [? _]|intros [_ ?]]|].
  rewrite IH. cbn. by rewrite (assoc and).
Qed.

(** ** The delta is exact *)

Section exactness.
Context `{FsLaws} (home_dir : option string) (m0 : gmap string string).

(** An exact delta accounts for the files. *)
Definition tracks (s : fsw * AppliedPatchDelta) : Prop :=
  exact s.2 = true → view s.1 = replay (changes s.2) m0 ∧ recorded (changes s.2) m0.

Lemma tracks_record w d w' p c :
  tracks (w, d) → (exact d = true → view w' = replay1 {| changed_path := p; change := c |} (view w) ∧
    records {| changed_path := p; change := c |} (view w)) →
  tracks (w', record_change p c d).
Proof.
  intros Ht Hc Hx. cbn in Hx |- *. destruct (Ht Hx) as [Hv Hr]. destruct (Hc Hx) as [-> Hrec].
  cbn in Hv. rewrite replay_snoc, recorded_snoc, <- Hv. done.
Qed.

Lemma tracks_inexact w cs : tracks (w, {| changes := cs; exact := false |}).
Proof. done. Qed.

(** Losing exactness keeps the invariant, at any state of the files. *)
Lemma tracks_and_exact w w' d b :
  tracks (w, d) → (b = true → view w' = view w) → tracks (w', and_exact b d).
Proof.
  intros Ht Hb Hx. cbn in Hx |- *. apply andb_true_iff in Hx as [Hx Hbt].
  rewrite (Hb Hbt). by apply Ht.
Qed.

Lemma parent_not_within p d : normal p → path_parent p = Some d → path_starts_with d p = false.
Proof.
  intros (names & -> & Hn) Hd.
  assert (Forall (λ c, is_name c = true) names) as Hn'.
  { eapply Forall_impl; [exact Hn|]. by intros x [??]. }
  destruct names as [|c names _] using rev_ind; [done|].
  rewrite parent_abs in Hd by done. injection Hd as <-. apply Forall_app in Hn' as [Hnames Hc].
  apply bool_decide_false. intros Hpre%prefix_length.
  rewrite !components_abs_text in Hpre by (done || by apply Forall_app).
  cbn in Hpre. rewrite length_app in Hpre. cbn in Hpre. lia.
Qed.

(** A write, with or without the retry, changes its path alone. *)
Lemma write_retry_view p c w w' :
  normal p → plain_path w p = true → write_file_with_missing_parent_retry p c w = (Done (), w') →
  view w' = <[p := c]> (view w).
Proof.
  intros Hn Hp. unfold write_file_with_missing_parent_retry.
  destruct (write_file p c w) as [[[]|[] e] w1] eqn:E1; try done.
  { intros [= <-]. by eapply write_ok. }
  apply write_missing in E1 as [Hv1 Hp1]. specialize (Hp1 Hp). rewrite <- Hv1.
  destruct (path_parent p) as [d|] eqn:Ed.
  - destruct (create_directory d true w1) as [[[]|k e'] w2] eqn:E2; [|done].
    apply create_directory_files in E2 as [Hv2 Hp2]. cbn [io_context].
    specialize (Hp2 p (parent_not_within p d Hn Ed) Hp1). rewrite <- Hv2.
    destruct (write_file p c w2) as [[[]|k e'] w3] eqn:E3; [|done]. intros [= <-]. by eapply write_ok.
  - destruct (write_file p c w1) as [[[]|k e'] w3] eqn:E3; [|done]. intros [= <-]. by eapply write_ok.
Qed.

Lemma write_retry_no_panic p c w : (write_file_with_missing_parent_retry p c w).1 ≠ Panicked.
Proof.
  unfold write_file_with_missing_parent_retry.
  destruct (write_file p c w) as [[[]|[] e] w1]; try done.
  destruct (path_parent p) as [d|].
  - destruct (create_directory d true w1) as [[[]|k e'] w2]; [|done]. cbn.
    by destruct (write_file p c w2) as [[[]|k e'] w3].
  - by destruct (write_file p c w1) as [[[]|k e'] w3].
Qed.

(** What is read for the delta is what is there. *)
Lemma read_optional_run p w d :
  ∃ d' ow, read_optional_file_text_for_delta p (w, d) = (Done ow, (w, d')) ∧ changes d' = changes d ∧
    (exact d' = true → exact d = true ∧ plain_path w p = true ∧ view w !! p = ow).
Proof.
  unfold read_optional_file_text_for_delta, mbind, Ap_bind, note_existing_path_delta_support, read_optional_text.
  destruct (read_file_text w p) as [c|[] e] eqn:E; (eexists _, _; split; [done|]; split; [done|]; cbn).
  - rewrite andb_true_iff. intros [??]. split_and!; [done..|]. by apply read_ok.
  - rewrite andb_true_iff. intros [??]. split_and!; [done..|]. by eapply read_missing.
  - by rewrite andb_false_r.
  - by rewrite andb_false_r.
Qed.

Lemma read_optional_spec p w d :
  tracks (w, d) →
  ∃ d' ow, read_optional_file_text_for_delta p (w, d) = (Done ow, (w, d')) ∧ tracks (w, d') ∧
    (exact d' = true → exact d = true ∧ plain_path w p = true ∧ view w !! p = ow).
Proof.
  intros Ht. destruct (read_optional_run p w d) as (d' & ow & E & Hc & Hx). exists d', ow.
  split; [done|]. split; [|done]. intros Hd. destruct (Hx Hd) as [Hd0 _]. unfold tracks in Ht. cbn in *.
  rewrite Hc. by apply Ht.
Qed.

(** Writing and recording an added file. *)
Lemma write_and_record p c ow w d :
  normal p → tracks (w, d) → (exact d = true → plain_path w p = true ∧ view w !! p = ow) →
  match try_write (write_file_with_missing_parent_retry p c) (w, d) with
  | (Done _, (w', d')) => d' = d ∧ tracks (w', record_change p (Added c ow) d) ∧
      (exact d = true → view w' = <[p := c]> (view w))
  | (Failed _, s') => tracks s'
  | (Panicked, _) => False
  end.
Proof.
  intros Hn Ht Hx. unfold try_write. pose proof (write_retry_no_panic p c w) as Hnp.
  destruct (write_file_with_missing_parent_retry p c w) as [[[]|e|] w'] eqn:E; [|done..].
  split; [done|]. split.
  - eapply tracks_record; [done|]. intros Hd. destruct (Hx Hd) as [Hp Hv].
    apply write_retry_view in E; [|done..]. done.
  - intros Hd. destruct (Hx Hd) as [Hp Hv]. by apply write_retry_view in E.
Qed.

Lemma apply_add_tracks p c s : normal p → tracks s → tracks (apply_add p c s).2.
Proof.
  destruct s as [w d]. intros Hn Ht. unfold apply_add.
  destruct (read_optional_spec p w d Ht) as (d' & ow & E & Ht' & Hx). cbn. unfold mbind, Ap_bind. rewrite E.
  pose proof (write_and_record p c ow w d' Hn Ht' (λ Hd, proj2 (Hx Hd))) as Hw.
  destruct (try_write _ (w, d')) as [[u|e|] [w2 d2]]; [|done..]. by destruct Hw as (-> & Hw & _).
Qed.

Lemma remove_or_note_tracks p expected ctx w d :
  tracks (w, d) →
  match remove_or_note p expected ctx (w, d) with
  | (Done _, (w', d')) => d' = d ∧ view w' = delete p (view w)
  | (Failed _, s') => tracks s'
  | (Panicked, _) => False
  end.
Proof.
  intros Ht. unfold remove_or_note. destruct (fs_remove p plain_remove w) as [[[]|k e] w'] eqn:E.
  { split; [done|]. by eapply remove_ok. }
  apply tracks_and_exact with (w := w); [done|]. unfold remove_failure_was_side_effect_free.
  destruct expected as [c|]; [|done]. destruct (read_file_text w' p) as [c'|] eqn:Er; [|done]. intros _.
  apply read_ok in Er. apply remove_err in E as [E|E]; [done|]. by rewrite E, lookup_delete_eq in Er.
Qed.

Lemma apply_delete_tracks p s : tracks s → tracks (apply_delete_hunk p s).2.
Proof.
  destruct s as [w d]. intros Ht. unfold apply_delete_hunk, mbind, Ap_bind.
  unfold note_existing_path_delta_support, ap_fs, ap_delta, ap_lift. cbn [fst snd].
  set (content := match read_file_text w p with FsOk c => Some c | FsErr _ _ => None end).
  set (d' := and_exact _ (and_exact _ d)).
  assert (tracks (w, d')) as Ht' by (by do 2 (eapply tracks_and_exact; [|done])).
  destruct (io_context (ensure_not_directory w p) _) as [u|e|]; [|done..].
  pose proof (remove_or_note_tracks p content ("Failed to delete file " +:+ p) w d' Ht') as Hr.
  destruct (remove_or_note _ _ _ (w, d')) as [[u'|e|] [w' d2]]; [|done..].
  destruct Hr as [-> Hv]. destruct content as [c|] eqn:Ec.
  - cbn [snd]. apply tracks_record with (w := w); [done|]. intros _. split; [done|]. cbn.
    unfold content in Ec. destruct (read_file_text w p) eqn:Er; [|done]. injection Ec as ->. by apply read_ok.
  - intros Hx. cbn in Hx. by rewrite andb_false_r in Hx.
Qed.

Lemma apply_rewrite_tracks p old new w d :
  tracks (w, d) → (exact d = true → plain_path w p = true ∧ view w !! p = Some old) →
  tracks (apply_rewrite p old new (w, d)).2.
Proof.
  intros Ht Hx. unfold apply_rewrite, mbind, Ap_bind, try_write, ap_delta.
  destruct (write_file p new w) as [[[]|k e] w'] eqn:E; [|done]. cbn [io_context snd].
  apply tracks_record with (w := w); [done|]. intros Hd. destruct (Hx Hd) as [Hp Hv]. split; [|done].
  by eapply write_ok.
Qed.

Lemma replace_last_change d p c q c' :
  replace_change (length (changes d)) p c (record_change q c' d) = record_change p c d.
Proof.
  unfold replace_change, record_change. cbn. f_equal. by rewrite insert_app_r_alt, Nat.sub_diag by lia.
Qed.

Lemma apply_move_tracks p dest old new w d :
  normal dest → tracks (w, d) → (exact d = true → view w !! p = Some old) →
  tracks (apply_move p dest old new (w, d)).2.
Proof.
  intros Hn Ht Hold. unfold apply_move.
  destruct (read_optional_spec dest w d Ht) as (d1 & ow & E & Ht1 & Hx).
  unfold mbind, Ap_bind. rewrite E. clear E.
  pose proof (write_and_record dest new ow w d1 Hn Ht1 (λ Hd, proj2 (Hx Hd))) as Hw.
  destruct (try_write _ (w, d1)) as [[u|e|] [w2 d2]]; [|done..]. destruct Hw as (-> & Ht2 & Hv2).
  unfold ap_count, ap_fs, ap_delta, ap_lift. cbn [fst snd].
  destruct (io_context (ensure_not_directory w2 p) _) as [u'|e|]; [|done..].
  pose proof (remove_or_note_tracks p (Some old) ("Failed to remove original " +:+ p) w2 _ Ht2) as Hr.
  destruct (remove_or_note _ _ _ (w2, _)) as [[u''|e|] [w3 d3]]; [|done..].
  destruct Hr as [-> Hv3]. cbn [snd]. rewrite replace_last_change.
  apply tracks_record with (w := w); [done|]. intros Hd. cbn. rewrite Hv3, (Hv2 Hd).
  destruct (Hx Hd) as (Hd0 & _ & Hdest). split; [done|]. split; [by apply Hold|done].
Qed.

Lemma apply_update_tracks cwd p move cs s :
  has_root cwd = true → tracks s → tracks (apply_update home_dir cwd p move cs s).2.
Proof.
  destruct s as [w d]. intros Hcwd Ht. unfold apply_update, mbind, Ap_bind.
  unfold note_existing_path_delta_support, ap_fs, ap_lift. cbn [fst snd].
  assert (tracks (w, and_exact (plain_path w p) d)) as Ht1 by (by eapply tracks_and_exact).
  unfold derive_new_contents_from_chunks. destruct (read_file_text w p) as [old|] eqn:Er; [|done].
  apply read_ok in Er. destruct (derive_new_contents p old cs) as [new|e|]; [|done..].
  destruct move as [dest|].
  - apply apply_move_tracks; [by apply resolve_is_normal|done|done].
  - apply apply_rewrite_tracks; [done|]. cbn. rewrite andb_true_iff. by intros [_ ?].
Qed.

Lemma apply_hunk_tracks cwd h s :
  has_root cwd = true → tracks s → tracks (apply_hunk home_dir cwd h s).2.
Proof.
  intros Hcwd Ht. unfold apply_hunk. destruct h as [path c|path|path move cs].
  - apply apply_add_tracks; [by apply resolve_is_normal|done].
  - by apply apply_delete_tracks.
  - by apply apply_update_tracks.
Qed.

Lemma apply_each_hunk_tracks cwd hs a s :
  has_root cwd = true → tracks s → tracks (apply_each_hunk home_dir cwd hs a s).2.
Proof.
  intros Hcwd. revert a s. induction hs as [|h hs IH]; intros a s Ht; [done|].
  cbn [apply_each_hunk]. unfold mbind, Ap_bind. pose proof (apply_hunk_tracks cwd h s Hcwd Ht) as Hh.
  destruct (apply_hunk home_dir cwd h s) as [[u|e|] s']; [by apply IH|done..].
Qed.
End exactness.

(** C14. Whether the patch succeeds, fails in the middle or fails while cleaning
    up: as long as the delta calls itself exact, making its changes to the
    files as they were gives the files as they are, and undoing them gives
    them back.  No two paths name one file. *)
Theorem delta_exact `{FsLaws} home_dir cwd hs w r w' delta :
  has_root cwd = true →
  apply_hunks_to_files home_dir cwd hs (w, delta_empty) = (r, (w', delta)) →
  exact delta = true →
  view w' = replay (changes delta) (view w) ∧ undo (changes delta) (view w') = view w.
Proof.
  intros Hcwd E Hx. assert (tracks (view w) (w', delta)) as Ht.
  { change (w', delta) with (r, (w', delta)).2. rewrite <- E.
    destruct hs as [|h hs]; [done|]. by apply apply_each_hunk_tracks. }
  destruct (Ht Hx) as [Hv Hr]. cbn in Hv. split; [done|]. rewrite Hv. by apply undo_replay.
Qed.
