(* ===== verification/ApplyFacts.v ===== *)
(** * Applying a patch: it always answers, and it does what was shown *)

From S2P Require Import Prelude RustStr Os AbsPath PatchParser ApplyChunks ApplyFs ApplyVerify.

(** ** No panic *)

Section total.
Context `{ExecutorFileSystem} (home_dir : option string).

Definition answers {A} (m : Ap A) : Prop := ∀ s, (m s).1 ≠ Panicked.

Lemma answers_bind {A B} (m : Ap A) (f : A → Ap B) : answers m → (∀ a, answers (f a)) → answers (m ≫= f).
Proof.
  intros Hm Hf s. unfold mbind, Ap_bind. specialize (Hm s). destruct (m s) as [[a|e|] s']; [apply Hf|done..].
Qed.

Lemma answers_delta f : answers (ap_delta f).
Proof. by intros [w d]. Qed.

Lemma answers_fs {A} (f : fsw → A) : answers (ap_fs f).
Proof. by intros s. Qed.

Lemma answers_note p : answers (note_existing_path_delta_support p).
Proof. by intros [w d]. Qed.

Lemma answers_io {A} (r : fsr A) ctx : answers (ap_lift (io_context r ctx)).
Proof. intros s. by destruct r. Qed.

Lemma answers_write f : (∀ w, (f w).1 ≠ Panicked) → answers (try_write f).
Proof. intros Hf [w d]. unfold try_write. specialize (Hf w). by destruct (f w) as [[u|e|] w']. Qed.

Lemma answers_read p : answers (read_optional_file_text_for_delta p).
Proof.
  apply answers_bind; [apply answers_note|]. intros _ [w d]. unfold read_optional_text.
  by destruct (read_file_text w p) as [c|[] e].
Qed.

Lemma answers_remove p expected ctx : answers (remove_or_note p expected ctx).
Proof. intros [w d]. unfold remove_or_note. by destruct (fs_remove p plain_remove w) as [[u|k e] w']. Qed.

#[local] Hint Resolve answers_delta answers_fs answers_note answers_io answers_read answers_remove
  write_retry_no_panic : core.

Lemma answers_move p dest old new : answers (apply_move p dest old new).
Proof.
  apply answers_bind; [auto|]. intros ow. apply answers_bind; [apply answers_write; auto|intros _].
  apply answers_bind; [by intros s|intros i]. repeat (apply answers_bind; [auto|intros ?]). auto.
Qed.

Lemma answers_rewrite p old new : answers (apply_rewrite p old new).
Proof.
  apply answers_bind; [|auto]. apply answers_write. intros w. by destruct (write_file p new w) as [[u|k e] w'].
Qed.

Lemma derive_answers w p cs : derive_new_contents_from_chunks w p cs ≠ DeriveAborts.
Proof.
  unfold derive_new_contents_from_chunks. destruct (read_file_text w p) as [c|]; [|done].
  pose proof (derive_never_panics p c cs). by destruct (derive_new_contents p c cs).
Qed.

Lemma answers_update cwd p move cs : answers (apply_update home_dir cwd p move cs).
Proof.
  intros [w d]. unfold apply_update, mbind, Ap_bind, note_existing_path_delta_support, ap_fs, ap_lift.
  cbn [fst snd]. pose proof (derive_answers w p cs) as Hd.
  destruct (derive_new_contents_from_chunks w p cs) as [old new|e|]; [|done..]. cbn [try_derived].
  destruct move; [apply answers_move|apply answers_rewrite].
Qed.

Lemma answers_hunk cwd h : answers (apply_hunk home_dir cwd h).
Proof.
  destruct h as [path c|path|path move cs]; cbn [apply_hunk].
  - apply answers_bind; [auto|]. intros ow. apply answers_bind; [apply answers_write; auto|auto].
  - apply answers_bind; [auto|intros _]. apply answers_bind; [auto|intros content].
    repeat (apply answers_bind; [auto|intros ?]). destruct content; [auto|by intros s].
  - apply answers_update.
Qed.

Lemma answers_each cwd hs a : answers (apply_each_hunk home_dir cwd hs a).
Proof.
  revert a. induction hs as [|h hs IH]; intros a; [by intros s|]. apply answers_bind; [apply answers_hunk|auto].
Qed.

(** C39. The command ends with a report for every patch text and every file
    system: no input makes it panic or loop. *)
Theorem apply_patch_answers cwd text w : is_Some (apply_patch home_dir cwd text w).
Proof.
  unfold apply_patch. pose proof (parse_lines_outcome Lenient (lines (trim text))) as Ho.
  change (parse_lines Lenient (lines (trim text))) with (parse_patch text) in Ho.
  destruct (parse_patch text) as [args|e| |]; [|by eexists|done..].
  unfold apply_hunks. destruct (hunks args) as [|h hs]; [by eexists|]. unfold apply_hunks_to_files.
  pose proof (answers_each cwd (h :: hs) {| added := []; modified := []; deleted := [] |} (w, delta_empty)) as Ha.
  destruct (apply_each_hunk _ _ _ _ _) as [[a|e|] [w' d]]; [by eexists..|done].
Qed.
End total.

(** ** What a hunk does to the files *)

Section effects.
Context {Hfs : ExecutorFileSystem} {Hlaws : FsLaws} (home_dir : option string) (cwd : string)
  (Hcwd : has_root cwd = true).

#[local] Abbreviation abs p := (resolve_path_against_base home_dir p cwd).

(** The files a hunk writes or removes. *)
Definition touched (h : Hunk) : list string :=
  match h with
  | UpdateFile path (Some dest) _ => [abs path; abs dest]
  | _ => [abs (hunk_source h)]
  end.

Definition hunk_effect (h : Hunk) (m m' : gmap string string) : Prop :=
  match h with
  | AddFile path contents => m' = <[abs path := contents]> m
  | DeleteFile path => is_Some (m !! abs path) ∧ m' = delete (abs path) m
  | UpdateFile path move_path chunks =>
      ∃ old new, m !! abs path = Some old ∧ derive_new_contents (abs path) old chunks = Ok new ∧
        m' = match move_path with
             | None => <[abs path := new]> m
             | Some dest => delete (abs path) (<[abs dest := new]> m)
             end
  end.

Lemma apply_add_effect p c w d u w' d' :
  normal p → apply_add p c (w, d) = (Done u, (w', d')) → exact d' = true →
  view w' = <[p := c]> (view w) ∧ exact d = true.
Proof.
  intros Hn. unfold apply_add, mbind, Ap_bind.
  destruct (read_optional_run p w d) as (d1 & ow & -> & _ & Hx). unfold try_write, ap_delta.
  destruct (write_file_with_missing_parent_retry p c w) as [[[]|e|] w1] eqn:E; [|done..].
  intros [= <- <- <-] Hd. cbn in Hd. destruct (Hx Hd) as (? & ? & _). split; [|done].
  by apply write_retry_view.
Qed.

Lemma remove_effect p expected ctx w d u w' d' :
  remove_or_note p expected ctx (w, d) = (Done u, (w', d')) → view w' = delete p (view w) ∧ d' = d.
Proof.
  unfold remove_or_note. destruct (fs_remove p plain_remove w) as [[[]|k e] w1] eqn:E; [|done].
  intros [= _ <- <-]. by apply remove_ok in E.
Qed.

Lemma apply_delete_effect p w d u w' d' :
  apply_delete_hunk p (w, d) = (Done u, (w', d')) → exact d' = true →
  is_Some (view w !! p) ∧ view w' = delete p (view w) ∧ exact d = true.
Proof.
  unfold apply_delete_hunk, mbind, Ap_bind, note_existing_path_delta_support, ap_fs, ap_delta, ap_lift.
  cbn [fst snd]. destruct (io_context (ensure_not_directory w p) _) as [u1|e|]; [|done..].
  destruct (remove_or_note _ _ _ _) as [[u2|e|] [w1 d1]] eqn:E; [|done..].
  apply remove_effect in E as [Hv ->]. destruct (read_file_text w p) as [c|] eqn:Er.
  - intros [= <- <- <-]. cbn. rewrite !andb_true_iff. intros [[??] _]. apply read_ok in Er. by rewrite Er.
  - intros [= <- <- <-]. cbn. by rewrite andb_false_r.
Qed.

Lemma apply_move_effect p dest old new w d u w' d' :
  normal dest → apply_move p dest old new (w, d) = (Done u, (w', d')) → exact d' = true →
  view w' = delete p (<[dest := new]> (view w)) ∧ exact d = true.
Proof.
  intros Hn. unfold apply_move, mbind, Ap_bind.
  destruct (read_optional_run dest w d) as (d1 & ow & -> & _ & Hx). unfold try_write, ap_count, ap_delta, ap_fs, ap_lift.
  destruct (write_file_with_missing_parent_retry dest new w) as [[[]|e|] w1] eqn:E; [|done..]. cbn [fst snd].
  destruct (io_context (ensure_not_directory w1 p) _) as [u1|e|]; [|done..].
  destruct (remove_or_note _ _ _ _) as [[u2|e|] [w2 d2]] eqn:E2; [|done..].
  apply remove_effect in E2 as [Hv ->]. intros [= <- <- <-] Hd. cbn in Hd. destruct (Hx Hd) as (? & ? & _).
  apply write_retry_view in E; [|done..]. by rewrite Hv, E.
Qed.

Lemma apply_rewrite_effect p old new w d u w' d' :
  apply_rewrite p old new (w, d) = (Done u, (w', d')) → plain_path w p = true →
  view w' = <[p := new]> (view w) ∧ exact d' = exact d.
Proof.
  unfold apply_rewrite, mbind, Ap_bind, try_write, ap_delta.
  destruct (write_file p new w) as [[[]|k e] w1] eqn:E; [|done]. cbn [io_context].
  intros [= <- <- <-] Hp. by apply write_ok in E.
Qed.

Lemma apply_update_effect p move cs w d u w' d' :
  apply_update home_dir cwd p move cs (w, d) = (Done u, (w', d')) → exact d' = true →
  exact d = true ∧ ∃ old new, view w !! p = Some old ∧ derive_new_contents p old cs = Ok new ∧
    view w' = match move with
              | None => <[p := new]> (view w)
              | Some dest => delete p (<[abs dest := new]> (view w))
              end.
Proof using Hcwd Hlaws.
  unfold apply_update, mbind, Ap_bind, note_existing_path_delta_support, ap_fs, ap_lift. cbn [fst snd].
  unfold derive_new_contents_from_chunks. destruct (read_file_text w p) as [old|] eqn:Er; [|done].
  apply read_ok in Er. destruct (derive_new_contents p old cs) as [new|e|] eqn:En; [|done..]. cbn [try_derived].
  destruct move as [dest|]; intros E Hd.
  - apply apply_move_effect in E as [Hv Hx]; [|by apply resolve_is_normal|done].
    cbn in Hx. apply andb_true_iff in Hx as [Hx _]. eauto 10.
  - destruct (plain_path w p) eqn:Hp.
    + apply apply_rewrite_effect in E as [Hv Hx]; [|done]. rewrite Hd in Hx. cbn in Hx.
      rewrite andb_true_r in Hx. eauto 10.
    + unfold apply_rewrite, mbind, Ap_bind, try_write, ap_delta in E.
      destruct (write_file p new w) as [[[]|k e] w1]; [|done]. injection E as <- <- <-. cbn in Hd.
      by rewrite andb_false_r in Hd.
Qed.

(** A hunk that succeeds with an exact delta has its effect and no other. *)
Lemma apply_hunk_effect h w d u w' d' :
  apply_hunk home_dir cwd h (w, d) = (Done u, (w', d')) → exact d' = true →
  hunk_effect h (view w) (view w') ∧ exact d = true.
Proof using Hcwd Hlaws.
  destruct h as [path c|path|path move cs]; cbn [apply_hunk hunk_source hunk_path hunk_effect]; intros E Hd.
  - apply apply_add_effect in E; [done|by apply resolve_is_normal|done].
  - apply apply_delete_effect in E as (? & ? & ?); done.
  - apply apply_update_effect in E as [? ?]; done.
Qed.

(** ** The preview *)

Context `{PatchLibs}.

(** What a change of the preview says about the files before and after. *)
Definition shows (c : ApplyPatchFileChange) (path : string) (m m' : gmap string string) : Prop :=
  match c with
  | ChangeAdd content => m' !! path = Some content
  | ChangeDelete content => m !! path = Some content ∧ m' !! path = None
  | ChangeUpdate _ None new => m' !! path = Some new
  | ChangeUpdate _ (Some dest) new => m' !! path = None ∧ m' !! dest = Some new
  end.

#[local] Abbreviation source h := (abs (hunk_source h)).
#[local] Abbreviation all_touched hs := (concat (map touched hs)).

Lemma source_touched h : source h ∈ touched h.
Proof. destruct h as [| |path [dest|] cs]; cbn; set_solver. Qed.

Lemma effect_local h m m' p : hunk_effect h m m' → p ∉ touched h → m' !! p = m !! p.
Proof.
  destruct h as [path c|path|path [dest|] cs]; cbn; rewrite ?not_elem_of_cons.
  - intros -> [??]. by rewrite lookup_insert_ne.
  - intros [_ ->] [??]. by rewrite lookup_delete_ne.
  - intros (old & new & _ & _ & ->) (? & ? & _). by rewrite lookup_delete_ne, lookup_insert_ne.
  - intros (old & new & _ & _ & ->) [??]. by rewrite lookup_insert_ne.
Qed.

(** The preview of one hunk, when the files it touches are as they were. *)
Lemma verify_effect w0 h c m m' :
  verify_hunk home_dir w0 cwd h = Fine c → hunk_effect h m m' →
  (∀ p, p ∈ touched h → m !! p = view w0 !! p) → NoDup (touched h) →
  shows c (source h) (view w0) m'.
Proof.
  destruct h as [path contents|path|path move cs]; cbn [verify_hunk hunk_effect hunk_source hunk_path].
  - intros [= <-] -> _ _. cbn. by rewrite lookup_insert_eq.
  - destruct (read_file_text w0 (abs path)) as [content|] eqn:Er; [|done]. intros [= <-] [_ ->] _ _.
    split; [by apply read_ok|by rewrite lookup_delete_eq].
  - unfold unified_diff_from_chunks, unified_diff_from_chunks_with_context, derive_new_contents_from_chunks.
    destruct (read_file_text w0 (abs path)) as [old|] eqn:Er; [|done]. apply read_ok in Er.
    destruct (derive_new_contents (abs path) old cs) as [new|e|] eqn:En; [|done..].
    intros [= <-] (old' & new' & Hold & Hnew & ->) Hsame Hnd. cbn [update_content].
    rewrite (Hsame (abs path)), Er in Hold by (destruct move; cbn; set_solver). injection Hold as <-.
    rewrite En in Hnew. injection Hnew as <-. destruct move as [dest|]; cbn.
    + apply NoDup_cons in Hnd as [Hne _]. rewrite list_elem_of_singleton in Hne.
      unfold abs_join. by rewrite lookup_delete_eq, lookup_delete_ne, lookup_insert_eq.
    + by rewrite lookup_insert_eq.
Qed.

Lemma shows_frame c h m m' m'' :
  (∀ p, p ∈ touched h → m'' !! p = m' !! p) →
  (∀ d n diff, c = ChangeUpdate diff (Some d) n → d ∈ touched h) →
  shows c (source h) m m' → shows c (source h) m m''.
Proof.
  intros Hf Hd. pose proof (source_touched h) as Hs.
  destruct c as [content|content|diff [dest|] new]; cbn; rewrite (Hf _ Hs); try done.
  by rewrite (Hf dest) by (by eapply Hd).
Qed.

Lemma verify_dest w0 h c d n diff :
  verify_hunk home_dir w0 cwd h = Fine c → c = ChangeUpdate diff (Some d) n → d ∈ touched h.
Proof.
  destruct h as [path contents|path|path move cs]; cbn [verify_hunk].
  - by intros [= <-].
  - destruct (read_file_text _ _); [|done]. by intros [= <-].
  - destruct (unified_diff_from_chunks _ _ _) as [u|e|]; [|done..]. intros [= <-] [= _ Hm _].
    destruct move as [dest|]; [|done]. injection Hm as <-. cbn. unfold abs_join. set_solver.
Qed.

Lemma each_exact hs a w d a' w' d' :
  apply_each_hunk home_dir cwd hs a (w, d) = (Done a', (w', d')) → exact d' = true → exact d = true.
Proof using Hcwd Hlaws.
  revert w d a. induction hs as [|h hs IH]; intros w d a; [by intros [= _ _ ->]|].
  cbn [apply_each_hunk]. unfold mbind, Ap_bind.
  destruct (apply_hunk home_dir cwd h (w, d)) as [[u|e|] [w1 d1]] eqn:Eh; [|done..].
  intros E Hx. specialize (IH _ _ _ E Hx). by apply apply_hunk_effect in Eh as [_ ?].
Qed.

Lemma preview_each hs w0 w d a acc chs a' w' d' :
  NoDup (all_touched hs) → (∀ p, p ∈ all_touched hs → view w !! p = view w0 !! p) →
  verify_hunks home_dir w0 cwd hs acc = Fine chs →
  apply_each_hunk home_dir cwd hs a (w, d) = (Done a', (w', d')) → exact d' = true →
  (∀ h, h ∈ hs → ∃ c, chs !! source h = Some c ∧ shows c (source h) (view w0) (view w')) ∧
  (∀ p, p ∉ all_touched hs → view w' !! p = view w !! p ∧ chs !! p = acc !! p).
Proof using Hcwd Hlaws.
  revert w d a acc. induction hs as [|h hs IH]; intros w d a acc Hnd Hsame Hver Happ Hx.
  { injection Hver as <-. injection Happ as _ <- <-. split; [|done]. set_solver. }
  cbn [map concat] in *. apply NoDup_app in Hnd as (Hnd1 & Hdisj & Hnd2).
  cbn [verify_hunks] in Hver. destruct (verify_hunk home_dir w0 cwd h) as [c|e|] eqn:Ec; [|done..].
  cbn [apply_each_hunk] in Happ. unfold mbind, Ap_bind in Happ.
  destruct (apply_hunk home_dir cwd h (w, d)) as [[u|e|] [w1 d1]] eqn:Eh; [|done..].
  apply apply_hunk_effect in Eh as [He _]; [|by eapply each_exact].
  eapply IH in Hver as (Hall & Hframe); [|done| |exact Happ|exact Hx].
  2:{ intros p Hp. rewrite (effect_local h _ _ p He); [|set_solver]. apply Hsame. set_solver. }
  assert (∀ p, p ∈ touched h → view w' !! p = view w1 !! p) as Hkeep.
  { intros p Hp. by apply Hframe, Hdisj. }
  split.
  - intros h' [->|Hh']%elem_of_cons; [|by apply Hall]. exists c.
    destruct (Hframe (source h)) as [_ ->]; [apply Hdisj, source_touched|]. rewrite lookup_insert_eq. split; [done|].
    eapply shows_frame; [exact Hkeep|intros d0 n diff; by eapply verify_dest|].
    eapply verify_effect; [done..| |done]. intros p Hp. apply Hsame. set_solver.
  - intros p Hp. rewrite not_elem_of_app in Hp. destruct Hp as [Hp1 Hp2].
    destruct (Hframe p Hp2) as [-> ->]. split; [by eapply effect_local|].
    rewrite lookup_insert_ne; [done|]. intros <-. apply Hp1, source_touched.
Qed.
End effects.

(** C8. What was approved is what happens.  If the preview of a patch succeeds and
    then the patch is applied, without error and with an exact delta, and no
    file is touched twice, then the files are exactly those the preview
    shows, and all others are as they were.  No two paths name one file. *)
Theorem preview_is_applied `{FsLaws} `{PatchLibs} home_dir cwd args action w a w' delta :
  let abs p := resolve_path_against_base home_dir p (action_cwd action) in
  let files := concat (map (touched home_dir (action_cwd action)) (hunks args)) in
  has_root cwd = true → NoDup files →
  verify_apply_patch_args home_dir w args cwd = Some (VerifiedBody action) →
  apply_hunks_to_files home_dir (action_cwd action) (hunks args) (w, delta_empty) = (Done a, (w', delta)) →
  exact delta = true →
  (∀ h, h ∈ hunks args → ∃ c, action_changes action !! abs (hunk_source h) = Some c ∧
     shows c (abs (hunk_source h)) (view w) (view w')) ∧
  (∀ p, p ∉ files → view w' !! p = view w !! p ∧ action_changes action !! p = None).
Proof.
  intros abs files Hcwd Hnd Hver Happ Hx. unfold verify_apply_patch_args in Hver.
  assert (has_root (action_cwd action) = true) as Hroot.
  { destruct (verify_hunks _ _ _ _ _) as [chs|e|]; [|done..]. injection Hver as <-. cbn.
    unfold effective_cwd. destruct (workdir args) as [dir|]; [|done].
    destruct (resolve_is_normal home_dir dir cwd Hcwd) as (names & E & _). unfold abs_join. rewrite E.
    apply (starts_with_app "/"). }
  destruct (verify_hunks _ _ _ _ _) as [chs|e|] eqn:E; [|done..]. injection Hver as <-. cbn in *.
  assert (∃ h hs, hunks args = h :: hs) as (h & hs & Eh) by (destruct (hunks args); [done|eauto]).
  rewrite Eh in Happ. cbn [apply_hunks_to_files] in Happ. rewrite <- Eh in Happ.
  pose proof (preview_each home_dir _ Hroot _ _ _ _ _ _ _ _ _ _ Hnd (λ _ _, eq_refl) E Happ Hx) as [Hall Hframe].
  split; [done|]. intros p Hp. destruct (Hframe p Hp) as [? ->]. done.
Qed.

(** A file moved to itself is gone: it is written under its new name, which
    is its old one, and then the original is removed. *)
Theorem move_to_itself_deletes `{FsLaws} home_dir cwd path dest cs w d u w' d' :
  resolve_path_against_base home_dir dest cwd = resolve_path_against_base home_dir path cwd →
  apply_hunk home_dir cwd (UpdateFile path (Some dest) cs) (w, d) = (Done u, (w', d')) →
  view w' !! resolve_path_against_base home_dir path cwd = None.
Proof.
  intros Hsame. cbn [apply_hunk hunk_source hunk_path]. set (p := resolve_path_against_base home_dir path cwd) in *.
  unfold apply_update, mbind, Ap_bind, note_existing_path_delta_support, ap_fs, ap_lift. cbn [fst snd].
  destruct (try_derived _) as [[old new]|e|]; [|done..]. rewrite Hsame. unfold apply_move, mbind, Ap_bind.
  destruct (read_optional_file_text_for_delta p _) as [[ow|e|] [w1 d1]]; [|done..].
  destruct (try_write _ _) as [[u1|e|] [w2 d2]]; [|done..]. unfold ap_count, ap_delta, ap_fs, ap_lift. cbn [fst snd].
  destruct (io_context _ _) as [u2|e|]; [|done..].
  destruct (remove_or_note _ _ _ _) as [[u3|e|] [w3 d3]] eqn:E; [|done..].
  apply remove_effect in E as [Hv _]. intros [= _ <- _]. rewrite Hv. apply lookup_delete_eq.
Qed.
