(* ===== verification/PatchSafety.v ===== *)
(** * Which patches are applied without asking (core: safety.rs)

    The preview of a patch ([ApplyVerify]) is checked against the sandbox
    permissions ([Permissions]); what was approved in this way is what the
    applied patch ([ApplyFacts]) writes. *)

From S2P Require Import Prelude RustStr Os AbsPath PatchParser ApplyChunks ApplyFs ApplyVerify ApplyFacts Permissions SandboxRoots PermissionsFacts PolicyTransforms ExecApproval SandboxManager.

Definition PATCH_REJECTED_OUTSIDE_PROJECT_REASON : string :=
  "writing outside of the project; rejected by user approval settings".
Definition PATCH_REJECTED_READ_ONLY_REASON : string :=
  "writing is blocked by read-only sandbox; rejected by user approval settings".

Inductive SafetyCheck :=
| AutoApprove (sandbox_type : SandboxType) (user_explicitly_approved : bool)
| AskUser
| Reject (reason : string).

(** [util::resolve_path]. *)
Definition resolve_path (base path : string) : string := if has_root path then path else path_join base path.

(** [normalize], which always gives a path: dots are resolved by name only. *)
Definition normalize_patch_path (path : string) : string := fold_left normalize_component (components path) "".

(** [ApplyPatchAction::is_empty]. *)
Definition action_is_empty (a : ApplyPatchAction) : bool := bool_decide (action_changes a = ∅).

Section safety.
Context `{SandboxHost} `{HostDirs} (target : TargetOs) (o : os).

Definition is_patch_path_writable (p : FileSystemSandboxPolicy) (cwd path : string) : bool :=
  can_write_path_with_cwd o p (normalize_patch_path (resolve_path cwd path)) cwd.

Definition change_is_writable (p : FileSystemSandboxPolicy) (cwd path : string) (c : ApplyPatchFileChange) : bool :=
  match c with
  | ChangeAdd _ | ChangeDelete _ => is_patch_path_writable p cwd path
  | ChangeUpdate _ move_path _ =>
      is_patch_path_writable p cwd path
      && match move_path with Some dest => is_patch_path_writable p cwd dest | None => true end
  end.

Definition is_write_patch_constrained_to_writable_paths (a : ApplyPatchAction) (p : FileSystemSandboxPolicy) (cwd : string) : bool :=
  forallb (λ '(path, c), change_is_writable p cwd path c) (map_to_list (action_changes a)).

Definition patch_rejection_reason (profile : PermissionProfile) (p : FileSystemSandboxPolicy) (cwd : string) : string :=
  match profile with
  | Managed _ _ =>
      if negb (has_full_disk_write_access p)
         && match get_writable_roots_with_cwd o p cwd with [] => true | _ => false end
      then PATCH_REJECTED_READ_ONLY_REASON else PATCH_REJECTED_OUTSIDE_PROJECT_REASON
  | Disabled | External _ => PATCH_REJECTED_OUTSIDE_PROJECT_REASON
  end.

Definition rejects_sandbox_approval (policy : AskForApproval) : bool :=
  match policy with Never => true | Granular c => negb (sandbox_approval c) | _ => false end.

Definition assess_patch_safety (a : ApplyPatchAction) (policy : AskForApproval) (profile : PermissionProfile)
    (p : FileSystemSandboxPolicy) (cwd : string) (level : WindowsSandboxLevel) : SafetyCheck :=
  let reject_or_ask :=
    if rejects_sandbox_approval policy then Reject (patch_rejection_reason profile p cwd) else AskUser in
  if action_is_empty a then Reject "empty patch"
  else match policy with
       | UnlessTrusted => AskUser
       | _ =>
           if is_write_patch_constrained_to_writable_paths a p cwd
              || match policy with OnFailure => true | _ => false end
           then match profile with
                | Disabled | External _ => AutoApprove SandboxNone false
                | Managed _ _ =>
                    match get_platform_sandbox target (windows_enabled level) with
                    | Some sandbox_type => AutoApprove sandbox_type false
                    | None => reject_or_ask
                    end
                end
           else reject_or_ask
       end.
End safety.

(** ** What is approved *)

Section safety_facts.
Context `{HOs : Os} {HSb : SandboxHost} `{HD : HostDirs} (target : TargetOs) (o : os).

(** Every outcome: the user is never asked when the settings forbid it; without
    a question a patch is applied only if all its paths can be written, or on
    trial in the sandbox; outside the sandbox only where there is none. *)
Theorem assess_patch_spec a policy profile p cwd level :
  match assess_patch_safety target o a policy profile p cwd level with
  | AutoApprove sandbox explicit =>
      explicit = false ∧ action_changes a ≠ ∅ ∧ policy ≠ UnlessTrusted ∧
      (sandbox = SandboxNone → ∀ fs n, profile ≠ Managed fs n) ∧
      (policy = OnFailure ∨ ∀ path c, action_changes a !! path = Some c → change_is_writable o p cwd path c = true)
  | AskUser => rejects_sandbox_approval policy = false
  | Reject reason =>
      (action_changes a = ∅ ∧ reason = "empty patch") ∨
      (rejects_sandbox_approval policy = true ∧ reason = patch_rejection_reason o profile p cwd)
  end.
Proof.
  assert (is_write_patch_constrained_to_writable_paths o a p cwd = true →
    ∀ path c, action_changes a !! path = Some c → change_is_writable o p cwd path c = true) as Hall.
  { intros Hf path c Hc. unfold is_write_patch_constrained_to_writable_paths in Hf. rewrite forallb_forall in Hf.
    apply (Hf (path, c)), list_elem_of_In, elem_of_map_to_list, Hc. }
  unfold assess_patch_safety, action_is_empty. case_bool_decide as He; [by left|].
  destruct (is_write_patch_constrained_to_writable_paths o a p cwd); destruct policy as [| | |g|];
    cbn [orb rejects_sandbox_approval]; try done;
    destruct profile as [fs n| |n]; try (destruct (get_platform_sandbox target (windows_enabled level)) as [s|] eqn:Es);
    try (destruct (sandbox_approval g)); cbn [negb]; try done; try (right; done);
    split_and!; try done; try (by right); try (by left); try (right; by apply Hall);
    intros ->; by destruct target, (windows_enabled level).
Qed.
End safety_facts.

(** ** What is written *)

Section composition.
Context `{HL : FsLaws} `{HP : PatchLibs} `{HOs : Os} {HSb : SandboxHost} `{HD : HostDirs} (target : TargetOs) (o : os).

Section hunks.
Context (cwd : string) (Hcwd : has_root cwd = true).

#[local] Abbreviation source h := (resolve_path_against_base home_dir (hunk_source h) cwd).
#[local] Abbreviation files hs := (concat (map (touched home_dir cwd) hs)).

(** Files that no hunk touches are as they were. *)
Lemma each_hunk_frame hs w d a a' w' d' p :
  apply_each_hunk home_dir cwd hs a (w, d) = (Done a', (w', d')) → exact d' = true → p ∉ files hs →
  view w' !! p = view w !! p.
Proof using Hcwd HL.
  revert w d a. induction hs as [|h hs IH]; intros w d a; [by intros [= _ <- _]|].
  cbn [apply_each_hunk map concat]. unfold mbind, Ap_bind.
  destruct (apply_hunk home_dir cwd h (w, d)) as [[u|e|] [w1 d1]] eqn:Eh; [|done..].
  intros Happ Hx Hp. rewrite not_elem_of_app in Hp. destruct Hp as [Hp1 Hp2].
  rewrite (IH _ _ _ Happ Hx Hp2). apply (apply_hunk_effect home_dir cwd Hcwd) in Eh as [He _].
  - by apply (effect_local home_dir cwd h).
  - by eapply (each_exact home_dir cwd Hcwd).
Qed.

(** With one hunk per file, the preview has each hunk's own change. *)
Lemma verify_hunks_lookup hs w acc chs :
  NoDup (map (λ h, source h) hs) → verify_hunks home_dir w cwd hs acc = Fine chs →
  (∀ h, h ∈ hs → ∃ c, verify_hunk home_dir w cwd h = Fine c ∧ chs !! source h = Some c) ∧
  (∀ p, p ∉ map (λ h, source h) hs → chs !! p = acc !! p).
Proof.
  revert acc. induction hs as [|h hs IH]; intros acc Hnd; cbn [verify_hunks map].
  { intros [= <-]. split; [|done]. intros h Hh. by apply elem_of_nil in Hh. }
  cbn in Hnd. apply NoDup_cons in Hnd as [Hno Hnd]. destruct (verify_hunk home_dir w cwd h) as [c|e|] eqn:Ec; [|done..].
  intros [Hall Hrest]%IH; [|done]. split.
  - intros h' [->|Hh']%elem_of_cons; [|by apply Hall]. exists c. split; [done|]. rewrite Hrest by done.
    by rewrite lookup_insert_eq.
  - intros p Hp. rewrite not_elem_of_cons in Hp. destruct Hp as [Hne Hp]. rewrite Hrest by done. by rewrite lookup_insert_ne.
Qed.

(** The files of a hunk are those its change names. *)
Lemma change_names h w c p :
  verify_hunk home_dir w cwd h = Fine c → p ∈ touched home_dir cwd h →
  p = source h ∨ ∃ diff new, c = ChangeUpdate diff (Some p) new.
Proof.
  destruct h as [path contents|path|path [dest|] cs]; cbn; try (intros _ ->%list_elem_of_singleton; by left).
  destruct (unified_diff_from_chunks _ _ _) as [u|e|]; [|done..]. intros [= <-].
  rewrite !elem_of_cons, elem_of_nil. intros [->|[->|[]]]; [by left|right]. by eexists _, _.
Qed.

Lemma patch_path_normal p turn_cwd : normal p → normalize_patch_path (resolve_path turn_cwd p) = p.
Proof.
  intros Hn. pose proof (normalize_normal p Hn) as Hp. unfold resolve_path.
  assert (has_root p = true) as -> by (destruct Hn as (names & -> & _); apply (starts_with_app "/")).
  unfold normalize_path in Hp. unfold normalize_patch_path. cbn zeta in Hp.
  destruct (str_is_empty _) eqn:E; [|done]. subst p. destruct Hn as (names & E' & _). by destruct names.
Qed.

Lemma touched_normal h p : p ∈ touched home_dir cwd h → normal p.
Proof using Hcwd.
  destruct h as [path contents|path|path [dest|] cs]; cbn; rewrite ?elem_of_cons, ?elem_of_nil; intros Hp;
    destruct_or?; subst; by (done || apply resolve_is_normal).
Qed.
End hunks.

(** C12. A patch that is applied without asking, and not on trial, changes only files
    the sandbox permissions allow to write: whatever differs after the patch
    was checked before.  This is for patches with one hunk per file: the changes
    are a map by path, in which a later hunk hides an earlier one. *)
Theorem approved_patch_confined turn_cwd cwd args action policy profile p level sandbox explicit w a w' delta file :
  has_root cwd = true →
  NoDup (map (λ h, resolve_path_against_base home_dir (hunk_source h) (action_cwd action)) (hunks args)) →
  verify_apply_patch_args home_dir w args cwd = Some (VerifiedBody action) →
  assess_patch_safety target o action policy profile p turn_cwd level = AutoApprove sandbox explicit → policy ≠ OnFailure →
  apply_hunks_to_files home_dir (action_cwd action) (hunks args) (w, delta_empty) = (Done a, (w', delta)) →
  exact delta = true → view w' !! file ≠ view w !! file →
  can_write_path_with_cwd o p file turn_cwd = true.
Proof.
  intros Hcwd Hnd Hver Hsafe Hpol Happ Hx Hdiff.
  assert (has_root (action_cwd action) = true) as Hroot.
  { unfold verify_apply_patch_args in Hver. destruct (verify_hunks _ _ _ _ _) as [chs|e|]; [|done..]. injection Hver as <-. cbn.
    unfold effective_cwd. destruct (workdir args) as [dir|]; [|done].
    destruct (resolve_is_normal home_dir dir cwd Hcwd) as (names & E & _). unfold abs_join. rewrite E. apply (starts_with_app "/"). }
  unfold verify_apply_patch_args in Hver. destruct (verify_hunks _ _ _ _ _) as [chs|e|] eqn:Ev; [|done..].
  injection Hver as <-. cbn in *. set (cwd' := effective_cwd home_dir cwd args) in *.
  assert (∃ h, h ∈ hunks args ∧ file ∈ touched home_dir cwd' h) as (h & Hh & Hf).
  { destruct (decide (file ∈ concat (map (touched home_dir cwd') (hunks args)))) as [Hin|Hout].
    - apply elem_of_concat in Hin as (l & (h & -> & Hh)%list_elem_of_fmap & Hf). by exists h.
    - destruct Hdiff. unfold apply_hunks_to_files in Happ. destruct (hunks args) as [|h hs] eqn:Eh; [done|].
      eapply (each_hunk_frame cwd' Hroot); [exact Happ|done|done]. }
  destruct (verify_hunks_lookup cwd' (hunks args) w ∅ chs Hnd Ev) as [Hlook _]. destruct (Hlook h Hh) as (c & Hc & Hin).
  pose proof (touched_normal cwd' Hroot h file Hf) as Hn.
  unfold assess_patch_safety, action_is_empty in Hsafe. case_bool_decide; [done|].
  destruct (is_write_patch_constrained_to_writable_paths o _ p turn_cwd) eqn:Ew.
  2: { exfalso. unfold rejects_sandbox_approval in Hsafe. destruct policy; cbn in Hsafe; try done. by destruct (negb _). }
  unfold is_write_patch_constrained_to_writable_paths in Ew. rewrite forallb_forall in Ew. cbn [action_changes] in Ew.
  assert (change_is_writable o p turn_cwd (resolve_path_against_base home_dir (hunk_source h) cwd') c = true) as Hw.
  { apply (Ew (_, c)), list_elem_of_In, elem_of_map_to_list, Hin. }
  rewrite <-(patch_path_normal file turn_cwd Hn).
  destruct (change_names cwd' h w c file Hc Hf) as [->|(diff & new & ->)].
  - destruct c; cbn in Hw; try done. by apply andb_true_iff in Hw as [].
  - cbn in Hw. by apply andb_true_iff in Hw as [].
Qed.
End composition.
