(* ===== verification/PatchDemo.v ===== *)
(** * Concrete patches

    A file system in memory that keeps the laws, and runs of the parsers and
    of the application on it. *)

From S2P Require Import Prelude RustStr SeekSequence Os AbsPath PatchParser PatchPrint StreamParser StreamFacts.
From S2P Require Import ApplyChunks ApplyFs ApplyVerify ApplyFacts.

(** ** A file system in memory: files and directories, no links *)

Record MemFs := mkMemFs { mem_files : gmap string string; mem_dirs : list string }.

Definition metadata_of (dir : bool) : FileMetadata :=
  {| is_directory := dir; is_regular := negb dir; is_symlink := false; created_at_ms := 0; modified_at_ms := 0 |}.

Definition no_such : string := "No such file or directory (os error 2)".

Definition mem_is_dir (w : MemFs) (p : string) : bool := (p == "/") || contains_elem (mem_dirs w) p.

Definition mem_write (p c : string) (w : MemFs) : fsr () * MemFs :=
  if mem_is_dir w p then (FsErr OtherKind "Is a directory (os error 21)", w)
  else if mem_is_dir w (default "/" (path_parent p))
  then (FsOk (), mkMemFs (<[p := c]> (mem_files w)) (mem_dirs w))
  else (FsErr NotFound no_such, w).

Fixpoint ancestors (fuel : nat) (p : string) : list string :=
  match fuel with
  | O => []
  | S fuel' => p :: match path_parent p with Some q => ancestors fuel' q | None => [] end
  end.

Definition mem_create (d : string) (_ : bool) (w : MemFs) : fsr () * MemFs :=
  match mem_files w !! d with
  | Some _ => (FsErr OtherKind "File exists (os error 17)", w)
  | None => (FsOk (), mkMemFs (mem_files w)
      (List.filter (path_starts_with d) (ancestors (String.length d) d) ++ mem_dirs w))
  end.

#[export] Instance mem_fs : ExecutorFileSystem := {|
  fsw := MemFs;
  canonicalize w p :=
    if mem_is_dir w p || bool_decide (is_Some (mem_files w !! p)) then FsOk p else FsErr NotFound no_such;
  read_file w p := match mem_files w !! p with Some c => FsOk c | None => FsErr NotFound no_such end;
  read_directory w p := if mem_is_dir w p then FsOk [] else FsErr NotFound no_such;
  read_file_text w p :=
    match mem_files w !! p with
    | Some c => FsOk c
    | None => if mem_is_dir w p then FsErr OtherKind "Is a directory (os error 21)" else FsErr NotFound no_such
    end;
  get_metadata w p :=
    if mem_is_dir w p then FsOk (metadata_of true)
    else match mem_files w !! p with
         | Some _ => FsOk (metadata_of false)
         | None => FsErr NotFound no_such
         end;
  write_file := mem_write;
  create_directory := mem_create;
  fs_remove p o w :=
    match mem_files w !! p with
    | Some _ => (FsOk (), mkMemFs (delete p (mem_files w)) (mem_dirs w))
    | None => (FsErr NotFound no_such, w)
    end
|}.

Lemma mem_plain w p : plain_path (H:=mem_fs) w p = negb (mem_is_dir w p).
Proof.
  unfold plain_path. cbn. destruct (mem_is_dir w p); [done|]. by destruct (mem_files w !! p).
Qed.

#[export] Instance mem_laws : FsLaws.
Proof.
  refine {| view := mem_files : fsw → gmap string string |}; cbn.
  - intros w p c. destruct (mem_files w !! p); [by intros [= ->]|]. by destruct (mem_is_dir w p).
  - intros w p e. by destruct (mem_files w !! p).
  - intros w p c w' _. unfold mem_write. destruct (mem_is_dir w p); [done|].
    destruct (mem_is_dir w _); [|done]. by intros [= <-].
  - intros w p c e w'. unfold mem_write. destruct (mem_is_dir w p); [done|].
    destruct (mem_is_dir w _); [done|]. by intros [= _ <-].
  - intros w d b r w'. unfold mem_create. destruct (mem_files w !! d); [by intros [= _ <-]|].
    intros [= _ <-]. split; [done|]. intros p Hp. rewrite !mem_plain. unfold mem_is_dir. cbn [mem_dirs].
    rewrite !negb_true_iff, !orb_false_iff. intros [? Hd]. split; [done|].
    apply bool_decide_eq_false in Hd. apply bool_decide_eq_false. rewrite elem_of_app. intros [Hin|?]; [|done].
    rewrite list_elem_of_In in Hin. apply filter_In in Hin as [_ Hin]. congruence.
  - intros w p w'. destruct (mem_files w !! p); [|done]. by intros [= <-].
  - intros w p k e w'. destruct (mem_files w !! p); [done|]. intros [= _ _ <-]. by left.
Defined.

#[export] Instance demo_patch_libs : PatchLibs := {|
  extract_apply_patch_from_bash script := inl CommandDidNotStartWithApplyPatch;
  unified_diff old new n := "-" +:+ old +:+ "+" +:+ new
|}.

(** ** A patch with every kind of hunk *)

Definition nl1 : string := String newline "".

Definition demo_chunk (ctx : option string) (old new : list string) : UpdateFileChunk :=
  {| change_context := ctx; old_lines := old; new_lines := new; is_end_of_file := false |}.

Definition demo_hunks : list Hunk :=
  [AddFile "new/a.txt" ("one" +:+ nl1 +:+ "two" +:+ nl1);
   DeleteFile "gone.txt";
   UpdateFile "src/f.rs" None [demo_chunk (Some "fn f()") ["  old"] ["  new"; "  more"]];
   UpdateFile "b.txt" (Some "c.txt") [demo_chunk None ["x"] ["y"]]].

Definition demo_world : MemFs :=
  mkMemFs (<["/w/gone.txt" := "bye" +:+ nl1]> (<["/w/src/f.rs" := "fn f()" +:+ nl1 +:+ "  old" +:+ nl1 +:+ "end" +:+ nl1]>
    (<["/w/b.txt" := "x" +:+ nl1]> ∅))) ["/w"; "/w/src"].

Definition demo_after : fsw * AppliedPatchDelta :=
  (apply_hunks_to_files (H:=mem_fs) None "/w" demo_hunks (demo_world, delta_empty)).2.

Definition demo_paths : list string :=
  ["/w/new/a.txt"; "/w/gone.txt"; "/w/src/f.rs"; "/w/b.txt"; "/w/c.txt"].

Example demo_applied :
  map (λ p, mem_files demo_after.1 !! p) demo_paths =
    [Some ("one" +:+ nl1 +:+ "two" +:+ nl1); None;
     Some ("fn f()" +:+ nl1 +:+ "  new" +:+ nl1 +:+ "  more" +:+ nl1 +:+ "end" +:+ nl1);
     None; Some ("y" +:+ nl1)] ∧
  exact demo_after.2 = true ∧ length (changes demo_after.2) = 4%nat.
Proof. by vm_compute. Qed.

(** ** Witnesses *)

Lemma parse_print_roundtrip_witness :
  wf_id (Some "env-1") = true ∧ forallb wf_hunk demo_hunks = true ∧
  parse_patch (print_patch (Some "env-1") demo_hunks) =
  Parsed {| patch := print_patch (Some "env-1") demo_hunks; hunks := demo_hunks; workdir := None;
            environment_id := Some "env-1" |}.
Proof.
  split; [reflexivity|]. split; [reflexivity|]. apply parse_print_roundtrip; reflexivity.
Defined.

(** The text in pieces of seven bytes. *)
Fixpoint pieces (fuel : nat) (s : string) : list string :=
  match fuel with
  | O => []
  | S fuel' => str_take 7 s :: pieces fuel' (str_drop 7 s)
  end.

Definition demo_pieces : list string := pieces 60 (print_patch None demo_hunks).

Lemma stream_reads_printed_witness :
  forallb stream_wf_hunk demo_hunks = true ∧ length demo_pieces = 60%nat ∧
  feed demo_pieces parser_default = Parsed demo_hunks.
Proof.
  split; [reflexivity|]. split; [reflexivity|].
  apply (stream_reads_printed None); [reflexivity..|vm_compute; reflexivity].
Defined.

Lemma seek_sequence_spec_witness :
  ["b "; "c"] ≠ [] ∧
  ∃ n level, found_at ["a"; " b"; "c"] ["b "; "c"] 0 1 n level.
Proof.
  split; [done|]. apply (seek_sequence_spec ["a"; " b"; "c"] ["b "; "c"] 0 false 1); [done|reflexivity].
Defined.

Lemma apply_replacements_splice_witness :
  ordered 0 ["a"; "b"; "c"; "d"] [(0, 1, ["x"; "y"]); (2, 1, [])]%nat = true ∧
  apply_replacements ["a"; "b"; "c"; "d"] [(0, 1, ["x"; "y"]); (2, 1, [])]%nat = Ok ["x"; "y"; "b"; "d"].
Proof.
  split; [reflexivity|].
  exact (apply_replacements_splice ["a"; "b"; "c"; "d"] [(0, 1, ["x"; "y"]); (2, 1, [])]%nat eq_refl).
Defined.

Definition demo_file : string := "fn f()" +:+ nl1 +:+ "  old" +:+ nl1 +:+ "end" +:+ nl1.
Definition demo_edit : list UpdateFileChunk :=
  [demo_chunk (Some "fn f()") ["  old"] ["  new"; "  more"]; demo_chunk None ["end"] ["fin"]].

Lemma update_is_edit_witness :
  forallb replacing demo_edit = true ∧
  ∃ new, edited demo_edit (file_lines demo_file) new ∧
    "fn f()" +:+ nl1 +:+ "  new" +:+ nl1 +:+ "  more" +:+ nl1 +:+ "fin" +:+ nl1 = lines_text new.
Proof.
  split; [reflexivity|]. apply (update_is_edit "f.rs" demo_file demo_edit); [reflexivity|vm_compute; reflexivity].
Defined.

Lemma addition_goes_to_end_witness :
  derive_new_contents "f.rs" demo_file [demo_chunk (Some "fn f()") [] ["added"]] =
  Ok ("fn f()" +:+ nl1 +:+ "  old" +:+ nl1 +:+ "end" +:+ nl1 +:+ "added" +:+ nl1).
Proof.
  exact (addition_goes_to_end "f.rs" demo_file (Some "fn f()") ["added"] (ex_intro _ 0%nat eq_refl)).
Defined.

Definition demo_result : out AffectedPaths :=
  (apply_hunks_to_files (H:=mem_fs) None "/w" demo_hunks (demo_world, delta_empty)).1.

Lemma demo_patch_run :
  apply_hunks_to_files (H:=mem_fs) None "/w" demo_hunks (demo_world, delta_empty) =
  (demo_result, (demo_after.1, demo_after.2)).
Proof. unfold demo_result, demo_after. by destruct (apply_hunks_to_files _ _ _ _) as [r [w' d]]. Qed.

Lemma demo_exact : exact demo_after.2 = true.
Proof. vm_compute. reflexivity. Qed.

Lemma delta_exact_witness :
  has_root "/w" = true ∧ exact demo_after.2 = true ∧
  undo (changes demo_after.2) (mem_files demo_after.1) = mem_files demo_world.
Proof.
  split; [reflexivity|]. split; [apply demo_exact|].
  exact (proj2 (delta_exact (H:=mem_fs) (H0:=mem_laws) None "/w" demo_hunks demo_world _ _ _ eq_refl demo_patch_run demo_exact)).
Defined.

(** The same patch previewed and applied. *)
Definition demo_args : ApplyPatchArgs :=
  {| patch := print_patch None demo_hunks; hunks := demo_hunks; workdir := None; environment_id := None |}.

Definition demo_action : ApplyPatchAction :=
  match verify_apply_patch_args (H:=demo_patch_libs) (H0:=mem_fs) None demo_world demo_args "/w" with
  | Some (VerifiedBody action) => action
  | _ => {| action_changes := ∅; action_patch := ""; action_cwd := "/w" |}
  end.

Lemma demo_verified :
  verify_apply_patch_args (H:=demo_patch_libs) (H0:=mem_fs) None demo_world demo_args "/w" =
  Some (VerifiedBody demo_action).
Proof.
  unfold demo_action. destruct (verify_apply_patch_args (H:=demo_patch_libs) (H0:=mem_fs) None demo_world demo_args "/w") as [[]|] eqn:E; [done|..];
    exfalso; apply (f_equal (λ r, match r with Some (VerifiedBody _) => true | _ => false end)) in E; vm_compute in E; done.
Qed.

Lemma demo_affected : ∃ a, demo_result = Done a.
Proof.
  destruct demo_result as [a|e|] eqn:E; [by eexists|..]; exfalso;
    apply (f_equal (λ r, match r with Done _ => true | _ => false end)) in E; vm_compute in E; done.
Qed.

Lemma demo_distinct : NoDup (concat (map (touched None (action_cwd demo_action)) (hunks demo_args))).
Proof. apply (bool_decide_eq_true_1 _). vm_compute. reflexivity. Qed.

Lemma preview_is_applied_witness :
  ∃ c, action_changes demo_action !! "/w/src/f.rs" = Some c ∧
    shows c "/w/src/f.rs" (mem_files demo_world) (mem_files demo_after.1).
Proof.
  destruct demo_affected as [a Ea]. pose proof demo_patch_run as Hrun. rewrite Ea in Hrun.
  refine (proj1 (preview_is_applied (H:=mem_fs) (H0:=mem_laws) (H1:=demo_patch_libs) None "/w" demo_args demo_action demo_world a demo_after.1
    demo_after.2 eq_refl demo_distinct demo_verified Hrun demo_exact) (UpdateFile "src/f.rs" None
    [demo_chunk (Some "fn f()") ["  old"] ["  new"; "  more"]]) _).
  apply list_elem_of_In. cbn. tauto.
Defined.

(** A rename to another spelling of the same path. *)
Definition self_move : Hunk := UpdateFile "b.txt" (Some "./b.txt") [demo_chunk None ["x"] ["y"]].

Definition self_moved : out () * (fsw * AppliedPatchDelta) :=
  apply_hunk (H:=mem_fs) None "/w" self_move (demo_world, delta_empty).

Lemma self_moved_run : self_moved = (Done (), (self_moved.2.1, self_moved.2.2)).
Proof.
  assert (self_moved.1 = Done ()) as E by (vm_compute; reflexivity).
  destruct self_moved as [r [w d]]. cbn in *. by rewrite E.
Qed.

Lemma move_to_itself_deletes_witness :
  mem_files demo_world !! "/w/b.txt" = Some ("x" +:+ nl1) ∧ mem_files self_moved.2.1 !! "/w/b.txt" = None.
Proof.
  split; [vm_compute; reflexivity|].
  exact (move_to_itself_deletes (H:=mem_fs) (H0:=mem_laws) None "/w" "b.txt" "./b.txt" _ demo_world delta_empty
    () self_moved.2.1 self_moved.2.2 eq_refl self_moved_run).
Defined.

(** Two hunks for one file: the preview shows the second alone, the patch
    makes both. *)
Example preview_of_two_hunks_for_a_file :
  let twice := [UpdateFile "src/f.rs" None [demo_chunk None ["  old"] ["  new"]];
                UpdateFile "src/f.rs" None [demo_chunk None ["end"] ["fin"]]] in
  match verify_hunks (H:=demo_patch_libs) (H0:=mem_fs) None demo_world "/w" twice ∅,
        apply_hunks_to_files (H:=mem_fs) None "/w" twice (demo_world, delta_empty) with
  | Fine chs, (Done _, (w, _)) =>
      (match chs !! "/w/src/f.rs" with Some (ChangeUpdate _ _ new) => Some new | _ => None end =
         Some ("fn f()" +:+ nl1 +:+ "  old" +:+ nl1 +:+ "fin" +:+ nl1)) ∧
      mem_files w !! "/w/src/f.rs" = Some ("fn f()" +:+ nl1 +:+ "  new" +:+ nl1 +:+ "fin" +:+ nl1)
  | _, _ => False
  end.
Proof. by vm_compute. Qed.
