(* ===== verification/NativeHarness.v ===== *)
(** * The tools of the native harness (native-harness-mcp/src/lib.rs)

    The MCP server's tools: commands in a sandbox with sessions, patches,
    files, searches, git, a plan and a checklist.  The file system, the
    process backend with its sandbox, and the text forms of JSON are
    parameters; decoding of arguments, the tools and their shared state are
    the code of the crate. *)

From S2P Require Import Prelude RustStr Json Os AbsPath ApplyFs CommandSafety.

Definition MAX_OUTPUT_BYTES : usize := 1048576.
Definition DEFAULT_YIELD_MS : u64 := 10000.
Definition MAX_YIELD_MS : u64 := 30000.

(** ** State *)

Inductive TodoStatus := Pending | Checked | Dismissed.

Record TodoItem := { id : string; description : string; status : TodoStatus }.

Record ProcessSession := { process : string; next_seq : u64 }.

Record ReadResponse := {
  chunks : list string;
  response_exited : bool;
  response_exit_code : option Z;
  response_next_seq : u64
}.

(** What the harness calls: the platform sandbox and its transformation of a
    command, the process backend, [git] and [grep], and text forms. *)
Class NativeEnv := {
  bw : Type;
  sandboxed_argv : list string → string → res (list string);
  new_uuid : bw → string * bw;
  start_process : string → list string → string → bw → fsr () * bw;
  process_read : string → option u64 → usize → u64 → bw → fsr ReadResponse * bw;
  process_write : string → string → bw → fsr () * bw;
  run_program : string → list string → string → bw → io Output * bw;
  to_string_pretty : Value → string;
  base64_encode : string → string;
  guess_mime : string → option string;
  serde_error : string
}.

Record NativeHarness := {
  workspace : string;
  processes : gmap string ProcessSession;
  plan : Value;
  todo_list : list TodoItem
}.

(** The server and the world around it. *)
Record NativeWorld `{ExecutorFileSystem} `{NativeEnv} := mkNativeWorld {
  harness : NativeHarness;
  nfiles : fsw;
  backend : bw
}.

Inductive Content := TextContent (text : string) | ImageContent (data mime : string).

Record CallToolResult := {
  content : list Content;
  structured_content : option Value;
  is_error : bool
}.

(** ** Decoding of arguments

    [serde_json::from_value] at a struct with [deny_unknown_fields], from the
    object the server hands over. *)

Abbreviation JsonArgs := (list (string * Value)) (only parsing).

Record ExecCommandArgs := { cmd : string; exec_yield : option u64 }.
Record WriteStdinArgs := { session_id : string; chars : string; stdin_yield : option u64 }.
Record ReadFileArgs := { read_path : string; start_line : option usize; end_line : option usize }.
Record SearchCodeArgs := { query : string; path_glob : option string; max_results : option usize }.
Record GitDiffArgs := { diff_paths : option (list string); staged : bool }.
Inductive TodoAction := Replace | Update.
Record TodoItemInput := { input_id : option string; input_description : option string; input_status : option string }.
Record TodoArgs := { items : list TodoItemInput; action : TodoAction }.

Section decode.
Context `{NativeEnv}.

Definition bad {A} : res A := Err serde_error.

Definition deny_unknown (known : list string) (m : JsonArgs) : res () :=
  if forallb (λ kv, contains_elem known kv.1) m then Ok () else bad.

Definition de_string (v : Value) : res string := match v with VString s => Ok s | _ => bad end.
Definition de_u64 (v : Value) : res u64 := match v with VNumber (PosInt n) => Ok n | _ => bad end.
Definition de_bool (v : Value) : res bool := match v with VBool b => Ok b | _ => bad end.
Definition de_list {A} (de : Value → res A) (v : Value) : res (list A) :=
  match v with
  | VArray l => fold_right (λ x acc, y ← de x; ys ← acc; Ok (y :: ys)) (Ok []) l
  | _ => bad
  end.
Definition de_option {A} (de : Value → res A) (v : Value) : res (option A) :=
  match v with VNull => Ok None | _ => x ← de v; Ok (Some x) end.

Definition required {A} (m : JsonArgs) (k : string) (de : Value → res A) : res A :=
  match map_get m k with Some v => de v | None => bad end.
Definition or_default {A} (m : JsonArgs) (k : string) (de : Value → res A) (d : A) : res A :=
  match map_get m k with Some v => de v | None => Ok d end.
Definition optional {A} (m : JsonArgs) (k : string) (de : Value → res A) : res (option A) :=
  or_default m k (de_option de) None.

Definition decode_exec (m : JsonArgs) : res ExecCommandArgs :=
  deny_unknown ["cmd"; "yield_time_ms"] m ≫= λ _,
  c ← required m "cmd" de_string;
  y ← optional m "yield_time_ms" de_u64;
  Ok {| cmd := c; exec_yield := y |}.

Definition decode_write_stdin (m : JsonArgs) : res WriteStdinArgs :=
  deny_unknown ["session_id"; "chars"; "yield_time_ms"] m ≫= λ _,
  s ← required m "session_id" de_string;
  c ← or_default m "chars" de_string "";
  y ← optional m "yield_time_ms" de_u64;
  Ok {| session_id := s; chars := c; stdin_yield := y |}.

Definition decode_apply_patch (m : JsonArgs) : res string :=
  deny_unknown ["input"] m ≫= λ _, required m "input" de_string.

Definition decode_view_image (m : JsonArgs) : res string :=
  deny_unknown ["path"] m ≫= λ _, required m "path" de_string.

Definition decode_read_file (m : JsonArgs) : res ReadFileArgs :=
  deny_unknown ["path"; "start_line"; "end_line"] m ≫= λ _,
  p ← required m "path" de_string;
  s ← optional m "start_line" de_u64;
  e ← optional m "end_line" de_u64;
  Ok {| read_path := p; start_line := s; end_line := e |}.

Definition decode_search_code (m : JsonArgs) : res SearchCodeArgs :=
  deny_unknown ["query"; "path_glob"; "max_results"] m ≫= λ _,
  q ← required m "query" de_string;
  g ← optional m "path_glob" de_string;
  n ← optional m "max_results" de_u64;
  Ok {| query := q; path_glob := g; max_results := n |}.

Definition decode_git_status (m : JsonArgs) : res () := deny_unknown [] m.

Definition decode_git_diff (m : JsonArgs) : res GitDiffArgs :=
  deny_unknown ["paths"; "staged"] m ≫= λ _,
  p ← optional m "paths" (de_list de_string);
  s ← or_default m "staged" de_bool false;
  Ok {| diff_paths := p; staged := s |}.

Definition decode_list_directory (m : JsonArgs) : res (option string) :=
  deny_unknown ["path"] m ≫= λ _, optional m "path" de_string.

Definition decode_todo_item (v : Value) : res TodoItemInput :=
  match v with
  | VObject m =>
      deny_unknown ["id"; "description"; "status"] m ≫= λ _,
      i ← optional m "id" de_string;
      d ← optional m "description" de_string;
      s ← optional m "status" de_string;
      Ok {| input_id := i; input_description := d; input_status := s |}
  | VArray l =>
      if (3 <? length l)%nat then bad
      else
        let element n := match l !! n with Some v => de_option de_string v | None => Ok None end in
        i ← element 0%nat; d ← element 1%nat; s ← element 2%nat;
        Ok {| input_id := i; input_description := d; input_status := s |}
  | _ => bad
  end.

(** (A struct is also read from an array of its fields in order.)

    A unit variant: its name, or an object with the name and [null]. *)
Definition decode_todo_action (v : Value) : res TodoAction :=
  let variant s := if s == "replace" then Ok Replace else if s == "update" then Ok Update else bad in
  match v with
  | VString s => variant s
  | VObject [(s, VNull)] => variant s
  | _ => bad
  end.

Definition decode_todo (m : JsonArgs) : res TodoArgs :=
  deny_unknown ["items"; "action"] m ≫= λ _,
  i ← required m "items" (de_list decode_todo_item);
  a ← or_default m "action" decode_todo_action Replace;
  Ok {| items := i; action := a |}.
End decode.

(** ** The tools *)

Section tools.
Context `{ExecutorFileSystem} `{NativeEnv} `{BashGrammar} (home_dir : option string) (current_dir : io string).

#[local] Abbreviation Tool := (M NativeWorld).

Definition text_result (v : Value) : CallToolResult :=
  {| content := [TextContent (to_string_pretty v)]; structured_content := Some v; is_error := false |}.

Definition error_result (message : string) : CallToolResult :=
  {| content := [TextContent message]; structured_content := None; is_error := true |}.

(** [?] on a call to the file system or the backend: the error's text. *)
Definition fs_try {A} (r : fsr A) : res A := match r with FsOk a => Ok a | FsErr _ text => Err text end.

Definition on_backend {A} (f : bw → A * bw) : Tool A := λ w,
  let '(a, b) := f (backend w) in (Ok a, mkNativeWorld _ _ (harness w) (nfiles w) b).

Definition on_files {A} (f : fsw → fsr A) : Tool A := λ w, (fs_try (f (nfiles w)), w).

Definition on_harness (f : NativeHarness → NativeHarness) : Tool () := λ w,
  (Ok (), mkNativeWorld _ _ (f (harness w)) (nfiles w) (backend w)).

Definition set_processes (f : gmap string ProcessSession → gmap string ProcessSession) (h : NativeHarness) :
    NativeHarness :=
  {| workspace := workspace h; processes := f (processes h); plan := plan h; todo_list := todo_list h |}.

Definition set_plan (v : Value) (h : NativeHarness) : NativeHarness :=
  {| workspace := workspace h; processes := processes h; plan := v; todo_list := todo_list h |}.

Definition set_todo (l : list TodoItem) (h : NativeHarness) : NativeHarness :=
  {| workspace := workspace h; processes := processes h; plan := plan h; todo_list := l |}.

(** *** Commands and sessions *)

Record ProcessRead := { output : string; exited : bool; exit_code : option Z; read_next_seq : u64 }.

Definition read_process (proc : string) (after_seq : option u64) (yield_time_ms : u64) : Tool ProcessRead :=
  r ← on_backend (process_read proc after_seq MAX_OUTPUT_BYTES (N.min yield_time_ms MAX_YIELD_MS));
  response ← lift (fs_try r);
  mret {| output := from_utf8_lossy (String.concat "" (chunks response));
          exited := response_exited response; exit_code := response_exit_code response;
          read_next_seq := response_next_seq response |}.

Definition exec_command (args : ExecCommandArgs) : Tool CallToolResult :=
  let shell_argv := ["bash"; "-lc"; cmd args] in
  if command_might_be_dangerous shell_argv then
    lift (Err "command rejected by the deterministic command policy")
  else
    root ← gets (λ w, workspace (harness w));
    argv ← lift (sandboxed_argv shell_argv root);
    process_id ← on_backend new_uuid;
    started ← on_backend (start_process process_id argv root);
    lift (fs_try started) ≫= λ _,
    result ← read_process process_id None (default DEFAULT_YIELD_MS (exec_yield args));
    (if negb (exited result)
     then on_harness (set_processes (<[process_id := {| process := process_id; next_seq := read_next_seq result |}]>))
     else mret ()) ≫= λ _,
    mret (text_result (VObject [
      ("output", VString (output result));
      ("exit_code", value_of_option value_of_i64 (exit_code result));
      ("session_id", if negb (exited result) then VString process_id else VNull)])).

Definition write_stdin (args : WriteStdinArgs) : Tool CallToolResult :=
  let process_id := session_id args in
  sessions ← gets (λ w, processes (harness w));
  session ← lift (ok_or (sessions !! process_id) "unknown command session");
  (if str_is_empty (chars args) then mret ()
   else r ← on_backend (process_write (process session) (chars args)); lift (fs_try r)) ≫= λ _,
  result ← read_process (process session) (Some (next_seq session)) (default DEFAULT_YIELD_MS (stdin_yield args));
  on_harness (set_processes (λ m,
    if exited result then delete process_id m
    else alter (λ s, {| process := process s; next_seq := read_next_seq result |}) process_id m)) ≫= λ _,
  mret (text_result (VObject [
    ("output", VString (output result));
    ("exited", VBool (exited result));
    ("exit_code", value_of_option value_of_i64 (exit_code result))])).

(** *** The plan *)

Definition in_progress (item : Value) : bool :=
  match value_index item "status" with VString s => s == "in_progress" | _ => false end.

Definition update_plan (arguments : Value) : Tool CallToolResult :=
  steps ← lift (ok_or (value_get arguments "plan" ≫= as_array) "plan must be an array");
  if (1 <? length (List.filter in_progress steps))%nat then
    lift (Err "at most one plan item may be in progress")
  else
    on_harness (set_plan arguments) ≫= λ _, mret (text_result arguments).

(** *** Files *)

Definition resolve_workspace_path (requested : string) : Tool string := λ w,
  let root := workspace (harness w) in
  let joined := if has_root requested then requested else path_join root requested in
  (path ← io_try (from_absolute_path home_dir current_dir joined);
   canonical_workspace ← fs_try (canonicalize (nfiles w) root);
   canonical_path ← fs_try (canonicalize (nfiles w) path);
   if negb (path_starts_with canonical_path canonical_workspace)
   then Err "path is outside the configured workspace"
   else Ok canonical_path, w).

(** The lines a request selects: indices count from zero. *)
Definition select_lines (data : string) (args : ReadFileArgs) : res (usize * usize * usize * string) :=
  let ls := lines data in
  let total_lines := len ls in
  let start := (default 1 (start_line args) - 1)%N in
  let stop := N.min (default total_lines (end_line args)) total_lines in
  if (total_lines <=? start)%N then
    Err ("start_line " +:+ pretty (default 1%N (start_line args)) +:+ " exceeds file length " +:+ pretty total_lines)
  else if (0 <? start)%N || (stop <? total_lines)%N then
    if (start <=? stop)%N
    then Ok (total_lines, start, stop,
             join (String newline "") (take (N.to_nat (stop - start)) (drop (N.to_nat start) ls)))
    else Panic
  else Ok (total_lines, start, stop, data).

Definition read_file_tool (args : ReadFileArgs) : Tool CallToolResult :=
  path ← resolve_workspace_path (read_path args);
  data ← on_files (λ f, read_file_text f path);
  '(total_lines, start, stop, selected) ← lift (select_lines data args);
  mret (text_result (VObject [
    ("path", VString path); ("total_lines", value_of_u64 total_lines);
    ("start_line", value_of_u64 (start + 1)); ("end_line", value_of_u64 stop);
    ("content", VString selected)])).

Definition view_image (path : string) : Tool CallToolResult :=
  path ← resolve_workspace_path path;
  data ← on_files (λ f, read_file f path);
  mret {| content := [ImageContent (base64_encode data) (default "application/octet-stream" (guess_mime path))];
          structured_content := Some (VObject [("path", VString path)]); is_error := false |}.

Definition list_directory (path : option string) : Tool CallToolResult :=
  path ← match path with
         | Some p => resolve_workspace_path p
         | None => gets (λ w, workspace (harness w))
         end;
  entries ← on_files (λ f, read_directory f path);
  mret (text_result (VObject [
    ("path", VString path);
    ("entries", VArray (map (λ e, VObject [("name", VString (entry_name e));
       ("is_directory", VBool (entry_is_directory e)); ("is_file", VBool (entry_is_file e))]) entries))])).

Definition apply_patch_tool (input : string) : Tool CallToolResult := λ w,
  match apply_patch home_dir (workspace (harness w)) input (nfiles w) with
  | None => (Panic, w)
  | Some report =>
      let out := out_text report +:+ err_text report in
      (Ok (match result report with
           | inl _ => text_result (VObject [("result", VString out)])
           | inr (error, _) => error_result (out +:+ apply_error_text error)
           end), mkNativeWorld _ _ (harness w) (files report) (backend w))
  end.

(** *** Searches and git *)

(** [splitn(3, ':')] with three parts. *)
Definition split3 (s : string) : option (string * string * string) :=
  match split_at_char ":"%char s with
  | (a, Some r) => match split_at_char ":"%char r with (b, Some c) => Some (a, b, c) | _ => None end
  | _ => None
  end.

Definition u64_max : N := 18446744073709551615.

Definition grep_match (l : string) : option (string * u64 * string) :=
  let rest := default l (strip_prefix "./" l) in
  '(file, line_str, snippet) ← split3 rest;
  if snippet == "Binary file matches" then None
  else Some (file, default 0%N (parse_uint u64_max line_str), snippet).

Fixpoint collect_grep (max : usize) (ls : list string) (found : list (string * u64 * string)) :
    list (string * u64 * string) :=
  match ls with
  | [] => found
  | l :: rest =>
      if (max <=? len found)%N then found
      else collect_grep max rest (match grep_match l with Some m => found ++ [m] | None => found end)
  end.

Definition search_code (args : SearchCodeArgs) : Tool CallToolResult :=
  if str_is_empty (query args) then mret (text_result (VObject [("matches", VArray [])]))
  else
    root ← gets (λ w, workspace (harness w));
    let grep_args := ["-rn"] ++ match path_glob args with Some g => ["--include"; g] | None => [] end
                     ++ ["--"; query args; "."] in
    r ← on_backend (run_program "grep" grep_args root);
    o ← lift (with_context r "failed to run grep");
    let found := collect_grep (default 50%N (max_results args)) (lines (from_utf8_lossy (out_stdout o))) [] in
    mret (text_result (VObject [("matches", VArray (map (λ '(file, n, snippet),
      VObject [("path", VString file); ("line", value_of_u64 n); ("snippet", VString snippet)]) found))])).

(** [split_at(2)] panics inside a character. *)
Definition status_entry (l : string) : res (option (string * string)) :=
  if (String.length l <? 3)%nat then Ok None
  else if is_char_boundary l 2 then
    let path := trim (str_drop 2 l) in
    if str_is_empty path then Ok None else Ok (Some (trim (str_take 2 l), path))
  else Panic.

Fixpoint status_entries (ls : list string) : res (list (string * string)) :=
  match ls with
  | [] => Ok []
  | l :: rest => e ← status_entry l; es ← status_entries rest; Ok (match e with Some x => x :: es | None => es end)
  end.

Definition git_status : Tool CallToolResult :=
  root ← gets (λ w, workspace (harness w));
  r ← on_backend (run_program "git" ["status"; "--porcelain"] root);
  o ← lift (with_context r "failed to run git status");
  entries ← lift (status_entries (lines (from_utf8_lossy (out_stdout o))));
  mret (text_result (VObject [
    ("entries", VArray (map (λ '(s, p), VObject [("status", VString s); ("path", VString p)]) entries));
    ("stderr", VString (from_utf8_lossy (out_stderr o)))])).

Definition git_diff (args : GitDiffArgs) : Tool CallToolResult :=
  root ← gets (λ w, workspace (harness w));
  let diff_args := ["diff"] ++ (if staged args then ["--staged"] else [])
                   ++ match diff_paths args with Some ps => "--" :: ps | None => [] end in
  r ← on_backend (run_program "git" diff_args root);
  o ← lift (with_context r "failed to run git diff");
  mret (text_result (VObject [
    ("diff", VString (from_utf8_lossy (out_stdout o)));
    ("stderr", VString (from_utf8_lossy (out_stderr o)))])).

(** *** The checklist *)

Definition new_status (s : option string) : option TodoStatus :=
  match s with
  | Some s => if s == "checked" then Some Checked
              else if s == "dismissed" then Some Dismissed
              else if s == "pending" then Some Pending else None
  | None => None
  end.

Definition todo_of_input (i : nat) (input : TodoItemInput) : TodoItem :=
  {| id := default ("t" +:+ pretty (S i)) (input_id input);
     description := default "" (input_description input);
     status := match new_status (input_status input) with Some Checked => Checked | Some Dismissed => Dismissed
               | _ => Pending end |}.

Definition update_item (input : TodoItemInput) (item : TodoItem) : TodoItem :=
  {| id := id item;
     description := default (description item) (input_description input);
     status := default (status item) (new_status (input_status input)) |}.

(** [iter_mut().find(..)]: the first item with the id. *)
Fixpoint update_first (input : TodoItemInput) (l : list TodoItem) : list TodoItem :=
  match l with
  | [] => []
  | item :: rest =>
      if id item == default "" (input_id input) then update_item input item :: rest
      else item :: update_first input rest
  end.

Definition is_status (s : TodoStatus) (item : TodoItem) : bool :=
  match s, status item with
  | Pending, Pending | Checked, Checked | Dismissed, Dismissed => true
  | _, _ => false
  end.

Definition count_status (s : TodoStatus) (l : list TodoItem) : usize := len (List.filter (is_status s) l).

Definition status_str (s : TodoStatus) : string :=
  match s with Pending => "pending" | Checked => "checked" | Dismissed => "dismissed" end.

Definition todo_response (l : list TodoItem) : Value :=
  VObject [
    ("items", VArray (map (λ item, VObject [("id", VString (id item)); ("description", VString (description item));
                                           ("status", VString (status_str (status item)))]) l));
    ("summary", VObject [("total", value_of_u64 (len l)); ("pending", value_of_u64 (count_status Pending l));
                         ("checked", value_of_u64 (count_status Checked l));
                         ("dismissed", value_of_u64 (count_status Dismissed l))]);
    ("all_done", VBool (count_status Pending l =? 0)%N)].

Definition todo_next (args : TodoArgs) (l : list TodoItem) : list TodoItem :=
  match action args with
  | Replace => imap todo_of_input (items args)
  | Update => fold_left (λ l input, update_first input l) (items args) l
  end.

Definition todo (args : TodoArgs) : Tool CallToolResult :=
  l ← gets (λ w, todo_list (harness w));
  let l := todo_next args l in
  on_harness (set_todo l) ≫= λ _, mret (text_result (todo_response l)).

(** ** Dispatch *)

Definition call (name : string) (arguments : JsonArgs) : Tool CallToolResult :=
  if name == "exec_command" then a ← lift (decode_exec arguments); exec_command a
  else if name == "write_stdin" then a ← lift (decode_write_stdin arguments); write_stdin a
  else if name == "update_plan" then update_plan (VObject arguments)
  else if name == "apply_patch" then a ← lift (decode_apply_patch arguments); apply_patch_tool a
  else if name == "view_image" then a ← lift (decode_view_image arguments); view_image a
  else if name == "read_file" then a ← lift (decode_read_file arguments); read_file_tool a
  else if name == "search_code" then a ← lift (decode_search_code arguments); search_code a
  else if name == "git_status" then lift (decode_git_status arguments) ≫= λ _, git_status
  else if name == "git_diff" then a ← lift (decode_git_diff arguments); git_diff a
  else if name == "list_directory" then a ← lift (decode_list_directory arguments); list_directory a
  else if name == "todo" then a ← lift (decode_todo arguments); todo a
  else lift (Err ("unknown deterministic tool: " +:+ name)).

(** [call_tool]: the missing arguments are an empty object. *)
Definition call_tool (name : string) (arguments : option JsonArgs) : Tool CallToolResult :=
  call name (default [] arguments).
End tools.

(** ** The catalog *)

Record ToolAnnotations := {
  title : string; read_only : bool; destructive : bool; idempotent : bool; open_world : bool
}.

Definition mk_annotations (title : string) (r d i o : bool) : option ToolAnnotations :=
  Some {| title := title; read_only := r; destructive := d; idempotent := i; open_world := o |}.

(** [None] is the error "missing annotation policy". *)
Definition tool_annotations (name : string) : option ToolAnnotations :=
  if name == "exec_command" then mk_annotations "Run command" true false false true
  else if name == "write_stdin" then mk_annotations "Interact with command" true false false true
  else if name == "update_plan" then mk_annotations "Update task plan" false false true false
  else if name == "apply_patch" then mk_annotations "Apply workspace patch" false true false false
  else if name == "view_image" then mk_annotations "View local image" true false true false
  else if name == "read_file" then mk_annotations "Read file" true false true false
  else if name == "search_code" then mk_annotations "Search code" true false true false
  else if name == "git_status" then mk_annotations "Git status" true false true false
  else if name == "git_diff" then mk_annotations "Git diff" true false true false
  else if name == "list_directory" then mk_annotations "List directory" true false true false
  else if name == "todo" then mk_annotations "TODO checklist" false false true false
  else None.

(** [new_for_paths]: the state a server starts with. *)
Definition native_harness_new (workspace : string) : NativeHarness :=
  {| workspace := workspace; processes := ∅; plan := VObject [("plan", VArray [])]; todo_list := [] |}.
