(* ===== verification/NativeFacts.v ===== *)
(** * Properties of the native harness's tools *)

From S2P Require Import Prelude RustStr Json Os AbsPath ApplyFs CommandSafety NativeHarness.

Section facts.
Context `{ExecutorFileSystem} `{NativeEnv} `{BashGrammar} (home_dir : option string) (current_dir : io string).

#[local] Abbreviation Tool := (M NativeWorld).
#[local] Abbreviation callt := (call home_dir current_dir).

(** ** Frames *)

(** What a tool that is said to be read-only may change: sessions and the
    processes themselves. *)
Definition keeps_files (w w' : NativeWorld) : Prop :=
  nfiles w' = nfiles w ∧ plan (harness w') = plan (harness w) ∧
  todo_list (harness w') = todo_list (harness w) ∧ workspace (harness w') = workspace (harness w).

#[local] Instance keeps_files_preorder : PreOrder keeps_files.
Proof.
  split; [by intros w|]. intros w1 w2 w3 (? & ? & ? & ?) (? & ? & ? & ?). split_and!; congruence.
Qed.

Lemma keeps_backend {A} (f : bw → A * bw) : respects keeps_files (on_backend f).
Proof. intros w. unfold on_backend. by destruct (f (backend w)). Qed.

Lemma keeps_files_read {A} (f : fsw → fsr A) : respects keeps_files (on_files f).
Proof. by intros w. Qed.

Lemma keeps_sessions f : respects keeps_files (on_harness (set_processes f)).
Proof. by intros w. Qed.

Lemma keeps_resolve p : respects keeps_files (resolve_workspace_path home_dir current_dir p).
Proof. by intros w. Qed.

#[local] Hint Resolve keeps_backend keeps_files_read keeps_sessions keeps_resolve keeps_files_preorder : harness.

(** Split a tool into its steps. *)
Ltac frame :=
  repeat first
    [ apply respects_lift; apply _
    | apply respects_ret; apply _
    | apply respects_gets; apply _
    | apply keeps_backend | apply keeps_files_read | apply keeps_sessions | apply keeps_resolve
    | apply respects_bind; [apply _| |intros ?]
    | match goal with
      | |- respects _ (if ?b then _ else _) => destruct b
      | |- respects _ (match ?x with _ => _ end) => destruct x
      end ].

Lemma keeps_read_process p a y : respects keeps_files (read_process p a y).
Proof. unfold read_process. frame. Qed.

Lemma keeps_exec args : respects keeps_files (exec_command args).
Proof. unfold exec_command. frame; try apply keeps_read_process; frame. Qed.

Lemma keeps_stdin args : respects keeps_files (write_stdin args).
Proof. unfold write_stdin. frame; try apply keeps_read_process; frame. Qed.

Lemma keeps_read args : respects keeps_files (read_file_tool home_dir current_dir args).
Proof. unfold read_file_tool. frame. Qed.

Lemma keeps_image p : respects keeps_files (view_image home_dir current_dir p).
Proof. unfold view_image. frame. Qed.

Lemma keeps_list p : respects keeps_files (list_directory home_dir current_dir p).
Proof. unfold list_directory. frame. Qed.

Lemma keeps_search args : respects keeps_files (search_code args).
Proof. unfold search_code. frame. Qed.

Lemma keeps_git_status : respects keeps_files git_status.
Proof. unfold git_status. frame. Qed.

Lemma keeps_git_diff args : respects keeps_files (git_diff args).
Proof. unfold git_diff. frame. Qed.

(** The annotations tell the truth: a tool announced as read-only leaves the
    files, the plan and the checklist alone, whatever its arguments and
    whether or not it succeeds.  (A command runs in the sandbox, which is what
    keeps the command itself away from files.) *)
Theorem read_only_tools_keep_files name a args w :
  tool_annotations name = Some a → read_only a = true →
  keeps_files w (callt name args w).2.
Proof.
  intros Ha Hr. revert w. change (respects keeps_files (callt name args)).
  unfold call, tool_annotations, mk_annotations in *.
  repeat match goal with
  | |- context [name == ?x] =>
      destruct (String.eqb_spec name x) as [?|?];
      [first [injection Ha as <-; discriminate Hr
             |apply respects_bind; [apply _|apply respects_lift; apply _|intros arg];
              first [apply keeps_exec|apply keeps_stdin|apply keeps_image|apply keeps_read|apply keeps_search
                    |apply keeps_git_status|apply keeps_git_diff|apply keeps_list]]|]
  end.
  discriminate Ha.
Qed.

(** ** The shared state *)

(** The plan has at most one step in progress, and a session is filed under
    the process it talks to. *)
Definition harness_ok (h : NativeHarness) : Prop :=
  (∃ steps, value_get (plan h) "plan" ≫= as_array = Some steps ∧
    (length (List.filter in_progress steps) <= 1)%nat) ∧
  (∀ i s, processes h !! i = Some s → process s = i).

Definition keeps_ok (w w' : NativeWorld) : Prop := harness_ok (harness w) → harness_ok (harness w').

#[local] Instance keeps_ok_preorder : PreOrder keeps_ok.
Proof. split; [by intros w Hw|]. unfold keeps_ok. intros w1 w2 w3; auto. Qed.

Lemma same_harness_ok {A} (m : Tool A) : (∀ w, harness (m w).2 = harness w) → respects keeps_ok m.
Proof. intros Hm w. unfold keeps_ok. by rewrite Hm. Qed.

Lemma ok_backend {A} (f : bw → A * bw) : respects keeps_ok (on_backend f).
Proof. apply same_harness_ok. intros w. unfold on_backend. by destruct (f (backend w)). Qed.

Lemma ok_sessions f :
  (∀ m, (∀ i s, m !! i = Some s → process s = i) → ∀ i s, f m !! i = Some s → process s = i) →
  respects keeps_ok (on_harness (set_processes f)).
Proof. intros Hf w [Hp Hs]. split; [done|]. by apply Hf. Qed.

Ltac frame_ok :=
  repeat first
    [ apply respects_lift; apply _
    | apply respects_ret; apply _
    | apply respects_gets; apply _
    | apply ok_backend
    | apply same_harness_ok; by intros w
    | apply respects_bind; [apply _| |intros ?]
    | match goal with
      | |- respects _ (if ?b then _ else _) => destruct b
      | |- respects _ (match ?x with _ => _ end) => destruct x
      end ].

Lemma ok_read_process p a y : respects keeps_ok (read_process p a y).
Proof. unfold read_process. frame_ok. Qed.

Lemma ok_exec args : respects keeps_ok (exec_command args).
Proof.
  unfold exec_command. frame_ok; try apply ok_read_process; frame_ok.
  apply ok_sessions. intros m Hm i s. rewrite lookup_insert_Some. intros [[<- <-]|[_ Hi]]; [done|by apply Hm].
Qed.

Lemma ok_stdin args : respects keeps_ok (write_stdin args).
Proof.
  unfold write_stdin. frame_ok; try apply ok_read_process; frame_ok.
  apply ok_sessions. intros m Hm i s. destruct (exited _).
  - rewrite lookup_delete_Some. intros [_ Hi]. by apply Hm.
  - rewrite lookup_alter_Some. intros [(<- & s0 & Hi & ->)|[_ Hi]]; by apply Hm in Hi.
Qed.

Lemma ok_plan v : respects keeps_ok (update_plan v).
Proof.
  intros w [Hp Hs]. unfold update_plan. rewrite M_bind_run. unfold lift at 1, ok_or.
  destruct (value_get v "plan" ≫= as_array) as [steps|] eqn:E; [|done].
  destruct (Nat.ltb_spec 1 (length (List.filter in_progress steps))); [done|].
  split; [|done]. exists steps. split; [done|lia].
Qed.

Lemma ok_todo args : respects keeps_ok (todo args).
Proof. unfold todo. frame_ok. by intros w [Hp Hs]. Qed.

Lemma ok_apply input : respects keeps_ok (apply_patch_tool home_dir input).
Proof.
  apply same_harness_ok. intros w. unfold apply_patch_tool.
  by destruct (apply_patch home_dir (workspace (harness w)) input (nfiles w)) as [report|].
Qed.

Lemma ok_call name args : respects keeps_ok (callt name args).
Proof.
  assert (∀ p, respects keeps_ok (resolve_workspace_path home_dir current_dir p)) as Hres.
  { intros p. apply same_harness_ok. by intros w. }
  unfold call. repeat match goal with |- context [name == ?x] => destruct (name == x) end;
    try apply ok_plan; try (apply respects_bind; [apply _|apply respects_lift; apply _|intros arg]);
    try first [apply ok_exec|apply ok_stdin|apply ok_plan|apply ok_apply|apply ok_todo|apply respects_lift; apply _].
  all: unfold read_file_tool, view_image, list_directory, search_code, git_status, git_diff;
    repeat first [apply Hres|progress frame_ok].
Qed.

(** Any sequence of calls, successful or not. *)
Definition calls (l : list (string * list (string * Value))) (w : NativeWorld) : NativeWorld :=
  fold_left (λ w '(name, args), (callt name args w).2) l w.

(** However the tools are called, the plan never has two steps in progress
    and no session is filed under another process. *)
Theorem native_invariant l root fs b :
  harness_ok (harness (calls l (mkNativeWorld _ _ (native_harness_new root) fs b))).
Proof.
  assert (∀ w, harness_ok (harness w) → harness_ok (harness (calls l w))) as Hall.
  { induction l as [|[name args] l IH]; intros w Hw; [done|]. apply IH. by apply ok_call. }
  apply Hall. split; [by exists []; split; [|cbn; lia]|]. intros i s. cbn. by rewrite lookup_empty.
Qed.

(** ** Reading lines *)

(** A range of lines that ends before it starts makes [read_file] panic; no
    other request does. *)
Theorem select_lines_panics_iff data args :
  select_lines data args = Panic ↔
  let total := len (lines data) in
  let start := (default 1 (start_line args) - 1)%N in
  (start < total)%N ∧ (N.min (default total (end_line args)) total < start)%N.
Proof.
  unfold select_lines. cbn zeta. set (total := len (lines data)). set (start := (_ - 1)%N).
  set (stop := N.min _ _). destruct (N.leb_spec total start); [split; [done|lia]|].
  destruct (N.ltb_spec 0 start), (N.ltb_spec stop total); cbn [orb];
    destruct (N.leb_spec start stop); split; try done; lia.
Qed.

(** What a successful request returns. *)
Theorem select_lines_spec data args total start stop text :
  select_lines data args = Ok (total, start, stop, text) →
  total = len (lines data) ∧ (start < total)%N ∧ (start <= stop <= total)%N ∧
  start = (default 1 (start_line args) - 1)%N ∧ stop = N.min (default total (end_line args)) total ∧
  (text = data ∧ start = 0%N ∧ stop = total ∨
   text = join (String newline "") (take (N.to_nat (stop - start)) (drop (N.to_nat start) (lines data)))).
Proof.
  unfold select_lines. set (t := len (lines data)). set (a := (default 1 (start_line args) - 1)%N).
  set (b := N.min (default t (end_line args)) t). destruct (N.leb_spec t a); [done|].
  destruct (N.ltb_spec 0 a), (N.ltb_spec b t); cbn [orb]; [..|].
  4:{ intros [= <- <- <- <-]. split_and!; try lia; [done..|]. left. split_and!; [done|lia|lia]. }
  all: destruct (N.leb_spec a b); [|done]; intros [= <- <- <- <-]; split_and!; try lia; try done; by right.
Qed.

(** A path the tools read lies in the workspace, by the canonical form of
    both. *)
Theorem workspace_paths_confined requested w q w' :
  resolve_workspace_path home_dir current_dir requested w = (Ok q, w') →
  w' = w ∧ ∃ root, canonicalize (nfiles w) (workspace (harness w)) = FsOk root ∧ path_starts_with q root = true.
Proof.
  unfold resolve_workspace_path. intros [= E <-]. split; [done|]. res_inv.
  destruct (canonicalize (nfiles w) (workspace (harness w))) as [root|k e]; [|done].
  exists root. split; [done|]. cbn in *. res_inv. destruct (path_starts_with _ _) eqn:Ep; cbn in *; [|done].
  by simplify_eq.
Qed.

(** ** The checklist *)

Lemma count_status_sum l :
  (count_status Pending l + count_status Checked l + count_status Dismissed l = len l)%N.
Proof.
  unfold count_status, len. induction l as [|x l IH]; [done|]. cbn [List.filter length].
  destruct x as [i d []]; cbn [is_status status length]; lia.
Qed.

Lemma count_status_zero l : (count_status Pending l =? 0)%N = true ↔ Forall (λ x, status x ≠ Pending) l.
Proof.
  unfold count_status, len. rewrite N.eqb_eq. induction l as [|x l IH]; cbn; [by split|].
  rewrite Forall_cons, <- IH. destruct x as [i d []]; cbn; [|naive_solver..]. split; [lia|naive_solver].
Qed.

Lemma update_first_ids input l : map id (update_first input l) = map id l.
Proof. induction l as [|x l IH]; cbn; [done|]. destruct (_ == _); cbn; [done|]. by rewrite IH. Qed.

(** The reply to [todo]: the summary adds up, [all_done] says that nothing is
    pending, and an update neither adds, drops, renames nor reorders items. *)
Theorem todo_reply args w :
  ∃ l, todo args w = (Ok (text_result (todo_response l)),
                      mkNativeWorld _ _ (set_todo l (harness w)) (nfiles w) (backend w)) ∧
    (count_status Pending l + count_status Checked l + count_status Dismissed l = len l)%N ∧
    ((count_status Pending l =? 0)%N = true ↔ Forall (λ x, status x ≠ Pending) l) ∧
    (action args = Update → map id l = map id (todo_list (harness w))).
Proof.
  exists (todo_next args (todo_list (harness w))). split; [done|]. split; [apply count_status_sum|].
  split; [apply count_status_zero|]. unfold todo_next. intros ->.
  generalize (todo_list (harness w)). induction (items args) as [|input inputs IH]; intros l; [done|].
  cbn [fold_left]. by rewrite IH, update_first_ids.
Qed.
End facts.
