(* ===== verification/ToolCatalog.v ===== *)
(** * The tool catalog and its schemas (native-harness-mcp: lib.rs, tool_catalog)

    Each tool is announced with a JSON schema of its arguments and one of its
    structured result.  The schemas are JSON values here as in the code, with
    members in the order of the source; [conforms] is what JSON Schema says of
    the keywords they use.  The theorems tie both schemas to the tools: a
    result conforms to what is announced, and announced arguments decode. *)

From S2P Require Import Prelude RustStr Json Os ApplyFs CommandSafety NativeHarness AbsPath PatchDemo NativeFacts.

(** ** The catalog *)

Record ToolRow := {
  tool_name : string;
  tool_description : string;
  input_schema : Value;
  output_schema : Value
}.

(** Abbreviations for the [json!] texts. *)
Definition t_string : Value := VObject [("type", VString "string")].
Definition t_integer : Value := VObject [("type", VString "integer")].
Definition t_boolean : Value := VObject [("type", VString "boolean")].
Definition t_null : Value := VObject [("type", VString "null")].
Definition t_array (items : Value) : Value := VObject [("type", VString "array"); ("items", items)].
Definition t_object (properties : list (string * Value)) (required : option (list string)) : Value :=
  VObject ([("type", VString "object"); ("properties", VObject properties)]
           ++ match required with Some l => [("required", VArray (map VString l))] | None => [] end
           ++ [("additionalProperties", VBool false)]).

Definition catalog_rows : list ToolRow :=
 [
  {| tool_name := "exec_command";
     tool_description := "Run a command in the workspace under a read-only filesystem sandbox.";
     input_schema := t_object [("cmd", t_string); ("yield_time_ms", VObject [("type", VString "integer");
       ("minimum", value_of_u64 0); ("maximum", value_of_u64 30000)])] (Some ["cmd"]);
     output_schema := t_object [("output", t_string); ("exit_code", VObject [("oneOf", VArray [t_integer;
       t_null])]); ("session_id", VObject [("oneOf", VArray [t_string; t_null])])] (Some ["output"; "exit_code";
       "session_id"]) |};
  {| tool_name := "write_stdin";
     tool_description := "Write to or poll a running command session.";
     input_schema := t_object [("session_id", t_string); ("chars", t_string); ("yield_time_ms", VObject [("type",
       VString "integer"); ("minimum", value_of_u64 0); ("maximum", value_of_u64 30000)])] (Some ["session_id"]);
     output_schema := t_object [("output", t_string); ("exited", t_boolean); ("exit_code", VObject [("oneOf",
       VArray [t_integer; t_null])])] (Some ["output"; "exited"; "exit_code"]) |};
  {| tool_name := "update_plan";
     tool_description := "Replace the deterministic task plan.";
     input_schema := t_object [("explanation", t_string); ("plan", t_array (t_object [("step", t_string);
       ("status", VObject [("enum", VArray [VString "pending"; VString "in_progress"; VString "completed"])])]
       (Some ["step"; "status"])))] (Some ["plan"]);
     output_schema := t_object [("explanation", t_string); ("plan", t_array (t_object [("step", t_string);
       ("status", VObject [("enum", VArray [VString "pending"; VString "in_progress"; VString "completed"])])]
       (Some ["step"; "status"])))] (Some ["plan"]) |};
  {| tool_name := "apply_patch";
     tool_description := "Apply a structured patch inside the workspace.";
     input_schema := t_object [("input", t_string)] (Some ["input"]);
     output_schema := t_object [("result", t_string)] (Some ["result"]) |};
  {| tool_name := "view_image";
     tool_description := "Read an image located inside the workspace.";
     input_schema := t_object [("path", t_string)] (Some ["path"]);
     output_schema := t_object [("path", t_string)] (Some ["path"]) |};
  {| tool_name := "read_file";
     tool_description := "Read a file from the workspace, optionally selecting a line range.";
     input_schema := t_object [("path", t_string); ("start_line", VObject [("type", VString "integer");
       ("minimum", value_of_u64 1)]); ("end_line", VObject [("type", VString "integer"); ("minimum", value_of_u64
       1)])] (Some ["path"]);
     output_schema := t_object [("path", t_string); ("total_lines", t_integer); ("start_line", t_integer);
       ("end_line", t_integer); ("content", t_string)] (Some ["path"; "total_lines"; "start_line"; "end_line";
       "content"]) |};
  {| tool_name := "search_code";
     tool_description := "Search workspace source files for a text pattern using grep.";
     input_schema := t_object [("query", t_string); ("path_glob", t_string); ("max_results", VObject [("type",
       VString "integer"); ("minimum", value_of_u64 1); ("maximum", value_of_u64 500)])] (Some ["query"]);
     output_schema := t_object [("matches", t_array (t_object [("path", t_string); ("line", t_integer);
       ("snippet", t_string)] (Some ["path"; "line"; "snippet"])))] (Some ["matches"]) |};
  {| tool_name := "git_status";
     tool_description := "Show the working tree status (git status --porcelain).";
     input_schema := t_object [] None;
     output_schema := t_object [("entries", t_array (t_object [("status", t_string); ("path", t_string)] (Some
       ["status"; "path"]))); ("stderr", t_string)] (Some ["entries"; "stderr"]) |};
  {| tool_name := "git_diff";
     tool_description := "Show workspace diff (git diff).";
     input_schema := t_object [("paths", t_array t_string); ("staged", t_boolean)] None;
     output_schema := t_object [("diff", t_string); ("stderr", t_string)] (Some ["diff"; "stderr"]) |};
  {| tool_name := "list_directory";
     tool_description := "List entries in a workspace directory.";
     input_schema := t_object [("path", t_string)] None;
     output_schema := t_object [("path", t_string); ("entries", t_array (t_object [("name", t_string);
       ("is_directory", t_boolean); ("is_file", t_boolean)] (Some ["name"; "is_directory"; "is_file"])))] (Some
       ["path"; "entries"]) |};
  {| tool_name := "todo";
     tool_description := ("Manage a TODO checklist. Use `action: " +:+ quote +:+ "replace" +:+ quote +:+
       "` to set the full list, `action: " +:+ quote +:+ "update" +:+ quote +:+
       "` to check off or dismiss items by id. Returns the current state with summary and `all_done` " +:+
       "flag. After each step, check if all_done is true; if not, continue working on remaining pending items.");
     input_schema := t_object [("items", t_array (t_object [("id", t_string); ("description", t_string);
       ("status", VObject [("type", VString "string"); ("enum", VArray [VString "pending"; VString "checked";
       VString "dismissed"])])] (Some []))); ("action", VObject [("type", VString "string"); ("enum", VArray
       [VString "replace"; VString "update"]); ("default", VString "replace")])] (Some ["items"]);
     output_schema := t_object [("items", t_array (t_object [("id", t_string); ("description", t_string);
       ("status", VObject [("type", VString "string"); ("enum", VArray [VString "pending"; VString "checked";
       VString "dismissed"])])] (Some ["id"; "description"; "status"]))); ("summary", t_object [("total",
       t_integer); ("pending", t_integer); ("checked", t_integer); ("dismissed", t_integer)] (Some ["total";
       "pending"; "checked"; "dismissed"])); ("all_done", t_boolean)] (Some ["items"; "summary"; "all_done"]) |}
 ].

(** A row without annotations would make the catalog fail. *)
Definition tool_catalog : option (list (ToolRow * ToolAnnotations)) :=
  mapM (λ row, a ← tool_annotations (tool_name row); Some (row, a)) catalog_rows.

(** ** Conformance to a schema *)

Definition type_ok (t : string) (v : Value) : bool :=
  match v with
  | VNull => t == "null"
  | VBool _ => t == "boolean"
  | VNumber (Float _) => t == "number"
  | VNumber _ => (t == "integer") || (t == "number")
  | VString _ => t == "string"
  | VArray _ => t == "array"
  | VObject _ => t == "object"
  end.

Definition same_text (v x : Value) : bool :=
  match v, x with VString s, VString s' => s == s' | _, _ => false end.

Definition at_least (v bound : Value) : bool :=
  match v, bound with VNumber (PosInt n), VNumber (PosInt m) => (m <=? n)%N | _, _ => false end.
Definition at_most (v bound : Value) : bool :=
  match v, bound with VNumber (PosInt n), VNumber (PosInt m) => (n <=? m)%N | _, _ => false end.

(** A keyword that is absent constrains nothing. *)
Definition keyword (schema : Value) (k : string) (ok : Value → bool) : bool :=
  match value_get schema k with Some x => ok x | None => true end.

Definition has_members (m : list (string * Value)) (required : Value) : bool :=
  match required with
  | VArray l => forallb (λ k, match k with VString k => match map_get m k with Some _ => true | None => false end
                              | _ => false end) l
  | _ => false
  end.

Definition closed (schema : Value) : bool :=
  match value_get schema "additionalProperties" with Some (VBool false) => true | _ => false end.

Fixpoint conforms (depth : nat) (schema v : Value) : bool :=
  match depth with
  | O => false
  | S depth =>
      keyword schema "type" (λ t, match t with VString t => type_ok t v | _ => false end)
      && keyword schema "enum" (λ l, match l with VArray l => existsb (same_text v) l | _ => false end)
      && keyword schema "minimum" (at_least v)
      && keyword schema "maximum" (at_most v)
      && keyword schema "oneOf" (λ l, match l with
           | VArray l => (length (List.filter (λ s, conforms depth s v) l) =? 1)%nat
           | _ => false
           end)
      && match v with
         | VArray l => keyword schema "items" (λ s, forallb (conforms depth s) l)
         | VObject m =>
             keyword schema "required" (has_members m)
             && forallb (λ kv, match value_get schema "properties" ≫= λ p, value_get p kv.1 with
                               | Some s => conforms depth s kv.2
                               | None => negb (closed schema)
                               end) m
         | _ => true
         end
  end.

(** The nesting of the catalog's schemas. *)
Definition schema_depth : nat := 4.

Lemma conforms_object d props req m :
  has_members m (VArray (map VString (default [] req))) = true →
  Forall (λ kv, ∃ s, map_get props kv.1 = Some s ∧ conforms d s kv.2 = true) m →
  conforms (S d) (t_object props req) (VObject m) = true.
Proof.
  intros Hreq Hm. assert (forallb (λ kv, match map_get props kv.1 with Some s => conforms d s kv.2 | None => false end) m
    = true) as Hall.
  { apply forallb_forall. intros kv Hin. rewrite Forall_forall in Hm.
    destruct (Hm kv (proj2 (list_elem_of_In _ _) Hin)) as (s & -> & Hs). done. }
  destruct req as [l|]; cbn; [cbn in Hreq; rewrite Hreq|]; cbn; exact Hall.
Qed.

Lemma conforms_array d s l :
  Forall (λ v, conforms d s v = true) l → conforms (S d) (t_array s) (VArray l) = true.
Proof. intros Hl. cbn. apply forallb_forall. intros v Hin. rewrite Forall_forall in Hl. by apply Hl, list_elem_of_In. Qed.

(** The other way: what a conforming object or array consists of. *)
Lemma object_conforms d props req v :
  conforms (S d) (t_object props req) v = true →
  ∃ m, v = VObject m ∧ has_members m (VArray (map VString (default [] req))) = true ∧
    Forall (λ kv, ∃ s, map_get props kv.1 = Some s ∧ conforms d s kv.2 = true) m.
Proof.
  intros Hc. destruct v as [| |[]| | |m]; try (cbn in Hc; destruct req; discriminate Hc).
  exists m. split; [done|].
  assert (has_members m (VArray (map VString (default [] req))) = true ∧
    forallb (λ kv, match map_get props kv.1 with Some s => conforms d s kv.2 | None => false end) m = true)
    as [Hr Hf] by (destruct req as [l|]; cbn in Hc; [by apply andb_prop in Hc|done]).
  split; [done|]. rewrite Forall_forall. intros kv Hin. rewrite forallb_forall in Hf.
  specialize (Hf kv (proj1 (list_elem_of_In _ _) Hin)). destruct (map_get props kv.1) as [s|]; [eauto|discriminate].
Qed.

Lemma array_conforms d s v :
  conforms (S d) (t_array s) v = true → ∃ l, v = VArray l ∧ Forall (λ x, conforms d s x = true) l.
Proof.
  intros Hc. destruct v as [| |[]| |l|]; try discriminate Hc. exists l. split; [done|].
  cbn in Hc. rewrite forallb_forall in Hc. rewrite Forall_forall. intros x Hin. by apply Hc, list_elem_of_In.
Qed.

Lemma string_conforms d v : conforms (S d) t_string v = true → ∃ s, v = VString s.
Proof. destruct v as [| |[]| | |]; try discriminate. eauto. Qed.

(** ** Results *)

Section catalog.
Context `{ExecutorFileSystem} `{NativeEnv} `{BashGrammar} (home_dir : option string) (current_dir : io string).

#[local] Abbreviation Tool := (M NativeWorld).
#[local] Abbreviation callt := (call home_dir current_dir).

(** What every success of a tool satisfies. *)
Definition yields {A} (P : A → Prop) (m : Tool A) : Prop := ∀ w a w', m w = (Ok a, w') → P a.

Lemma yields_ret {A} (P : A → Prop) (a : A) : P a → yields P (mret a).
Proof. intros Ha w b w' [= <- _]. done. Qed.

Lemma yields_bind {A B} (P : B → Prop) (m : Tool A) (k : A → Tool B) :
  (∀ a, yields P (k a)) → yields P (m ≫= k).
Proof.
  intros Hk w b w' Hb. unfold mbind, M_bind in Hb. destruct (m w) as [[a|e|] w1]; [|discriminate..].
  exact (Hk a _ _ _ Hb).
Qed.

Lemma yields_lift_err {A} (P : A → Prop) (e : string) : yields P (lift (Err e)).
Proof. intros w a w' [=]. Qed.

(** The structured content of a result that is not an error. *)
Definition fits (schema : Value) (r : CallToolResult) : Prop :=
  is_error r = true ∨ ∃ v, structured_content r = Some v ∧ conforms schema_depth schema v = true.

Lemma fits_value schema v : conforms schema_depth schema v = true → fits schema (text_result v).
Proof. right. eauto. Qed.

(** Split a tool into its steps, down to the value it returns. *)
Ltac steps :=
  repeat first
    [ apply yields_lift_err
    | apply yields_ret
    | apply yields_bind; intros ?
    | match goal with
      | |- yields _ (if ?b then _ else _) => destruct b
      | |- yields _ (match ?x with _ => _ end) => destruct x
      end ].

(** A value with the members of its schema. *)
Ltac members :=
  first
    [ reflexivity
    | match goal with |- conforms _ _ (value_of_option _ ?o) = true => destruct o; reflexivity end
    | match goal with |- conforms _ _ (value_of_option value_of_i64 ?o) = true =>
        destruct o as [z|]; [unfold value_of_option, value_of_i64; destruct (z <? 0)%Z|]; reflexivity end
    | match goal with |- conforms _ _ (VString (status_str ?s)) = true => destruct s; reflexivity end
    | match goal with |- conforms _ _ (if ?b then _ else _) = true => destruct b; reflexivity end
    | apply conforms_object; [reflexivity|repeat constructor; cbn [fst snd]; eexists; (split; [reflexivity|members])]
    | apply conforms_array; apply Forall_map, Forall_true; intros ?; cbn beta iota;
      repeat match goal with x : _ * _ |- _ => destruct x end; members ].

Lemma fits_patch input :
  yields (fits (t_object [("result", t_string)] (Some ["result"]))) (apply_patch_tool home_dir input).
Proof.
  intros w r w'. unfold apply_patch_tool. destruct (apply_patch _ _ _ _) as [report|]; [|discriminate].
  intros [= <- _]. destruct (result report) as [d|[e d]]; [|by left]. apply fits_value. members.
Qed.

Lemma catalog_fits row args :
  row ∈ catalog_rows →
  (tool_name row = "update_plan" → conforms schema_depth (input_schema row) (VObject args) = true) →
  yields (fits (output_schema row)) (callt (tool_name row) args).
Proof.
  intros Hin Hplan. unfold catalog_rows in Hin.
  repeat (apply elem_of_cons in Hin as [->|Hin]); [..|by apply not_elem_of_nil in Hin];
    cbn [tool_name output_schema input_schema call String.eqb Ascii.eqb Bool.eqb] in *;
    try (apply yields_bind; intros ?);
    unfold exec_command, write_stdin, view_image, read_file_tool, search_code, git_status, git_diff, list_directory,
      todo, update_plan.
  all: try apply fits_patch.
  all: steps; first [apply fits_value; members|apply fits_value, Hplan, eq_refl].
Qed.

(** C31. Every tool answers with what it announces: the structured content of a
    successful call conforms to the output schema in the catalog.  The plan
    tool hands its arguments back unchecked, so for it the arguments must
    conform to the input schema. *)
Theorem results_conform row args w r w' :
  row ∈ catalog_rows →
  (tool_name row = "update_plan" → conforms schema_depth (input_schema row) (VObject args) = true) →
  callt (tool_name row) args w = (Ok r, w') → is_error r = false →
  ∃ v, structured_content r = Some v ∧ conforms schema_depth (output_schema row) v = true.
Proof.
  intros Hin Hplan Hc He. destruct (catalog_fits row args Hin Hplan w r w' Hc) as [He'|Hv]; [congruence|done].
Qed.

(** ** Arguments *)

Section members.
Context (d : nat) (props : list (string * Value)) (m : list (string * Value)).
Context (Hm : Forall (λ kv, ∃ s, map_get props kv.1 = Some s ∧ conforms d s kv.2 = true) m).

Lemma member_conforms k v s : map_get m k = Some v → map_get props k = Some s → conforms d s v = true.
Proof.
  intros Hv Hs. rewrite Forall_forall in Hm. destruct (Hm _ (map_get_Some _ _ _ Hv)) as (s' & Hs' & Hc).
  cbn [fst snd] in *. congruence.
Qed.

Lemma known_members : deny_unknown (props.*1) m = Ok ().
Proof.
  unfold deny_unknown. replace (forallb _ _) with true; [done|]. symmetry. apply forallb_forall. intros [k v] Hin.
  rewrite Forall_forall in Hm. destruct (Hm _ (proj2 (list_elem_of_In _ _) Hin)) as (s & Hs & _).
  apply map_get_Some in Hs. apply bool_decide_eq_true, list_elem_of_fmap. by exists (k, s).
Qed.

Lemma decode_default {A} k s (de : Value → res A) a :
  map_get props k = Some s → (∀ v, conforms d s v = true → ∃ b, de v = Ok b) → ∃ b, or_default m k de a = Ok b.
Proof.
  intros Hs Hde. unfold or_default. destruct (map_get m k) as [v|] eqn:Hv; [|eauto].
  exact (Hde v (member_conforms _ _ _ Hv Hs)).
Qed.

Lemma decode_optional {A} k s (de : Value → res A) :
  map_get props k = Some s → (∀ v, conforms d s v = true → ∃ b, de v = Ok b) → ∃ b, optional m k de = Ok b.
Proof.
  intros Hs Hde. apply (decode_default k s); [done|]. intros v Hv. destruct (Hde v Hv) as [b Hb].
  destruct v; cbn; try rewrite Hb; cbn; eauto.
Qed.

Lemma decode_required {A} k s (de : Value → res A) l :
  has_members m (VArray (map VString l)) = true → k ∈ l →
  map_get props k = Some s → (∀ v, conforms d s v = true → ∃ b, de v = Ok b) → ∃ b, required m k de = Ok b.
Proof.
  intros Hl Hk Hs Hde. cbn in Hl. rewrite forallb_forall in Hl.
  specialize (Hl (VString k) (proj1 (list_elem_of_In _ _) (list_elem_of_fmap_2 VString _ _ Hk))).
  cbv beta iota in Hl. unfold required.
  destruct (map_get m k) as [v|] eqn:Hv; [|discriminate]. exact (Hde v (member_conforms _ _ _ Hv Hs)).
Qed.
End members.

(** Whether the arguments of a tool are read; the plan tool reads its
    arguments itself. *)
Definition decodes (name : string) (m : list (string * Value)) : bool :=
  let ok {A} (r : res A) := match r with Ok _ => true | _ => false end in
  if name == "exec_command" then ok (decode_exec m)
  else if name == "write_stdin" then ok (decode_write_stdin m)
  else if name == "update_plan" then match map_get m "plan" ≫= as_array with Some _ => true | None => false end
  else if name == "apply_patch" then ok (decode_apply_patch m)
  else if name == "view_image" then ok (decode_view_image m)
  else if name == "read_file" then ok (decode_read_file m)
  else if name == "search_code" then ok (decode_search_code m)
  else if name == "git_status" then ok (decode_git_status m)
  else if name == "git_diff" then ok (decode_git_diff m)
  else if name == "list_directory" then ok (decode_list_directory m)
  else if name == "todo" then ok (decode_todo m)
  else false.

Lemma read_string d v : conforms (S d) t_string v = true → ∃ s, de_string v = Ok s.
Proof. intros [s ->]%string_conforms. by exists s. Qed.

Lemma read_boolean d v : conforms (S d) t_boolean v = true → ∃ b, de_bool v = Ok b.
Proof. destruct v as [|b|[]| | |]; try discriminate. eauto. Qed.

(** An integer with a lower bound. *)
Lemma read_u64 d lo hi v :
  conforms (S d) (VObject (("type", VString "integer") :: ("minimum", value_of_u64 lo) ::
    match hi with Some hi => [("maximum", value_of_u64 hi)] | None => [] end)) v = true →
  ∃ n, de_u64 v = Ok n.
Proof. intros Hc. destruct hi, v as [| |[]| | |]; try discriminate Hc; by eexists. Qed.

Lemma read_list {A} d s (de : Value → res A) :
  (∀ x, conforms d s x = true → ∃ a, de x = Ok a) →
  ∀ v, conforms (S d) (t_array s) v = true → ∃ l, de_list de v = Ok l.
Proof.
  intros Hde v (l & -> & Hl)%array_conforms. cbn. induction Hl as [|x l Hx _ [ys IH]]; [by exists []|].
  destruct (Hde x Hx) as [a Ha]. exists (a :: ys). cbn. rewrite Ha, IH. done.
Qed.

Lemma read_todo_item d v :
  conforms (S (S d)) (t_object [("id", t_string); ("description", t_string); ("status",
    VObject [("type", VString "string"); ("enum", VArray [VString "pending"; VString "checked";
      VString "dismissed"])])] (Some [])) v = true →
  ∃ i, decode_todo_item v = Ok i.
Proof.
  intros (m & -> & _ & Hm)%object_conforms. cbn [decode_todo_item].
  pose proof (known_members _ _ _ Hm) as Hk. cbn [fmap list_fmap fst] in Hk. rewrite Hk. cbn [mbind res_bind].
  destruct (decode_optional _ _ _ Hm "id" t_string de_string eq_refl (read_string _)) as [i ->].
  destruct (decode_optional _ _ _ Hm "description" t_string de_string eq_refl (read_string _)) as [t ->].
  destruct (decode_optional _ _ _ Hm "status" _ de_string eq_refl) as [s ->]; [|by eexists].
  intros v Hv. destruct v as [| |[]| | |]; first [discriminate Hv|by eexists].
Qed.

Lemma read_todo_action d v :
  conforms (S d) (VObject (("type", VString "string") ::
    ("enum", VArray [VString "replace"; VString "update"]) :: [("default", VString "replace")])) v = true →
  ∃ a, decode_todo_action v = Ok a.
Proof.
  intros Hv. destruct v as [| |[]|s| |]; try discriminate Hv. cbn in Hv |- *.
  destruct (s == "replace"); [by eexists|]. destruct (s == "update"); [by eexists|discriminate Hv].
Qed.

(** Read one member after the other. *)
Ltac reader :=
  first [apply read_string|apply read_boolean|apply (read_u64 _ _ (Some _))|apply (read_u64 _ _ None)
        |apply read_list, read_string|apply read_list, read_todo_item|apply read_todo_action].
Ltac read_members Hm Hreq :=
  repeat (match goal with
  | |- context [required ?m ?k ?de] =>
      assert (∃ b, required m k de = Ok b) as [? ->]
        by (eapply (decode_required _ _ m Hm); [exact Hreq|set_solver|reflexivity|reader])
  | |- context [optional ?m ?k ?de] =>
      assert (∃ b, optional m k de = Ok b) as [? ->]
        by (eapply (decode_optional _ _ m Hm); [reflexivity|reader])
  | |- context [or_default ?m ?k ?de ?a] =>
      assert (∃ b, or_default m k de a = Ok b) as [? ->]
        by (eapply (decode_default _ _ m Hm); [reflexivity|reader])
  end; cbn [mbind res_bind]).

(** Arguments that conform to the announced input schema are read. *)
Theorem announced_arguments_decode row m :
  row ∈ catalog_rows → conforms schema_depth (input_schema row) (VObject m) = true →
  decodes (tool_name row) m = true.
Proof.
  intros Hin Hc. unfold catalog_rows in Hin.
  repeat (apply elem_of_cons in Hin as [->|Hin]); [..|by apply not_elem_of_nil in Hin];
    cbn [tool_name input_schema] in *; unfold decodes; cbn [String.eqb Ascii.eqb Bool.eqb];
    apply object_conforms in Hc as (m' & [= <-] & Hreq & Hm);
    pose proof (known_members _ _ _ Hm) as Hk; cbn [fmap list_fmap fst default] in Hk, Hreq; try unfold Datatypes.id in Hreq.
  3: { assert (∃ l, required m "plan" (λ v, match as_array v with Some l => Ok l | None => Err "" end) = Ok l) as [l Hl].
       { eapply (decode_required _ _ m Hm); [exact Hreq|set_solver|reflexivity|].
         intros v (l & -> & _)%array_conforms. by eexists. }
       unfold required in Hl. destruct (map_get m "plan") as [v|]; [|discriminate]. cbn. by destruct (as_array v). }
  all: unfold decode_exec, decode_write_stdin, decode_apply_patch, decode_view_image, decode_read_file,
         decode_search_code, decode_git_status, decode_git_diff, decode_list_directory, decode_todo;
    rewrite Hk; cbn [mbind res_bind].
  all: read_members Hm Hreq; reflexivity.
Qed.

(** A name outside the catalog is refused without effect. *)
Lemma uncatalogued_refused name args w :
  name ∉ tool_name <$> catalog_rows →
  callt name args w = (Err ("unknown deterministic tool: " +:+ name), w).
Proof.
  cbn [catalog_rows fmap list_fmap tool_name]. intros Hn. repeat (apply not_elem_of_cons in Hn as [? Hn]).
  unfold call. repeat match goal with H : name ≠ ?x |- context [name == ?x] =>
    rewrite (proj2 (String.eqb_neq name x) H); cbv iota end.
  done.
Qed.

(** The schemas are stricter than the tools: a search for more than 500
    matches is announced as invalid and carried out. *)
Example unannounced_search :
  let m := [("query", VString "x"); ("max_results", value_of_u64 501)] in
  conforms schema_depth (input_schema (nth 6 catalog_rows {| tool_name := ""; tool_description := "";
    input_schema := VNull; output_schema := VNull |})) (VObject m) = false ∧ decodes "search_code" m = true.
Proof. done. Qed.
End catalog.

(** Every row has annotations, so the server starts with its full catalog. *)
Lemma catalog_annotated : option_map (map fst) tool_catalog = Some catalog_rows.
Proof. reflexivity. Qed.

(** * A concrete server *)

(** ** A grammar that knows one script *)

Definition leaf (k : string) (named : bool) (at_ : N) (text : string) : Node := mkNode k named at_ text [].

Definition plain_word (at_ : N) (text : string) : Node := leaf "word" true at_ text.

Definition simple_command (at_ : N) (name arg text : string) : Node :=
  mkNode "command" true at_ text
    [mkNode "command_name" true at_ name [plain_word at_ name]; plain_word (at_ + 3) arg].

(** [ls -l | wc -l] *)
Definition demo_tree : Node :=
  mkNode "program" true 0 "ls -l | wc -l"
    [mkNode "pipeline" true 0 "ls -l | wc -l"
       [simple_command 0 "ls" "-l" "ls -l"; leaf "|" false 6 "|"; simple_command 8 "wc" "-l" "wc -l"]].

#[export] Instance demo_grammar : BashGrammar := {|
  try_parse_shell s := if s == "ls -l | wc -l" then Some (demo_tree, false) else None
|}.

Example demo_words :
  parse_shell_lc_plain_commands ["/bin/bash"; "-lc"; "ls -l | wc -l"] = Some [["ls"; "-l"]; ["wc"; "-l"]].
Proof. by vm_compute. Qed.

Lemma safe_script_sound_witness :
  is_known_safe_command ["/bin/zsh"; "-c"; "ls -l | wc -l"] = true ∧
  ∃ root, try_parse_shell "ls -l | wc -l" = Some (root, false) ∧
    Forall (λ n, node_allowed n = true) (nodes root) ∧
    ∀ n, n ∈ nodes root → is_command_node n = true →
      ∃ words, parse_plain_command_from_node n = Some words ∧ is_safe_to_call_with_exec words = true.
Proof.
  split; [vm_compute; reflexivity|].
  destruct (safe_script_sound ["/bin/zsh"; "-c"; "ls -l | wc -l"]) as [[H _]|(shell & flag & script & root & Ec & _ & _ & H)].
  - vm_compute. reflexivity.
  - vm_compute in H. discriminate H.
  - exists root. injection Ec as _ _ <-. exact H.
Defined.

Lemma safe_not_dangerous_witness :
  ["bash"; "-lc"; "ls -l | wc -l"] !! 2%nat ≠ Some "zsh" ∧
  is_known_safe_command ["bash"; "-lc"; "ls -l | wc -l"] = true ∧
  command_might_be_dangerous ["bash"; "-lc"; "ls -l | wc -l"] = false.
Proof.
  split; [done|]. split; [vm_compute; reflexivity|].
  apply safe_not_dangerous; [done|vm_compute; reflexivity].
Defined.

(** Spellings of a forced removal that pass, and [sudo] itself. *)
Example dangerous_spellings :
  map is_dangerous_to_call_with_exec
    [["rm"; "-rf"; "/"]; ["sudo"; "rm"; "-f"; "x"]; ["rm"; "-r"; "-f"; "/"]; ["rm"; "-fr"; "/"];
     ["/bin/rm"; "-rf"; "/"]; ["sudo"; "-u"; "root"; "rm"; "-rf"; "/"]; ["sudo"; "reboot"]] =
  [true; true; false; false; false; false; false].
Proof. by vm_compute. Qed.

(** ** A server on the file system in memory *)

#[export] Instance demo_native_env : NativeEnv := {|
  bw := nat;
  sandboxed_argv argv cwd := Ok argv;
  new_uuid n := ("p" +:+ pretty n, S n);
  start_process i argv cwd n := (FsOk (), n);
  process_read i after max yield n :=
    (FsOk {| chunks := ["hi"]; response_exited := false; response_exit_code := None; response_next_seq := 1 |}, n);
  process_write i s n := (FsOk (), n);
  run_program p args cwd n := (IoOk (mkOutput (Some 0%Z) "" ""), n);
  to_string_pretty v := "";
  base64_encode s := s;
  guess_mime p := None;
  serde_error := "invalid type"
|}.

Definition demo_native : NativeWorld (H:=mem_fs) :=
  mkNativeWorld mem_fs demo_native_env (native_harness_new "/w") demo_world 0%nat.

#[local] Abbreviation demo_call := (call (H:=mem_fs) (H0:=demo_native_env) (H1:=demo_grammar) None (IoOk "/")).

Lemma read_only_tools_keep_files_witness :
  ∃ a, tool_annotations "exec_command" = Some a ∧ read_only a = true ∧
    keeps_files demo_native (demo_call "exec_command" [("cmd", VString "ls -l | wc -l")] demo_native).2.
Proof.
  eexists. split; [reflexivity|]. split; [reflexivity|].
  apply (read_only_tools_keep_files None (IoOk "/") "exec_command" _ _ demo_native eq_refl eq_refl).
Defined.

(** The session it leaves behind. *)
Example demo_session :
  processes (harness (demo_call "exec_command" [("cmd", VString "ls -l | wc -l")] demo_native).2) !! "p0" =
  Some {| process := "p0"; next_seq := 1 |}.
Proof. by vm_compute. Qed.

Definition demo_read_args (s e : option N) : ReadFileArgs :=
  {| read_path := "src/f.rs"; start_line := s; end_line := e |}.

Lemma select_lines_spec_witness :
  select_lines demo_file (demo_read_args (Some 2%N) (Some 9%N)) =
    Ok (3, 1, 3, "  old" +:+ nl1 +:+ "end")%N ∧
  (1 < 3)%N ∧ (1 <= 3 <= 3)%N.
Proof.
  assert (select_lines demo_file (demo_read_args (Some 2%N) (Some 9%N)) = Ok (3, 1, 3, "  old" +:+ nl1 +:+ "end")%N)
    as E by (vm_compute; reflexivity).
  split; [exact E|]. pose proof (select_lines_spec demo_file _ _ _ _ _ E) as (_ & H1 & H2 & _). exact (conj H1 H2).
Defined.

Lemma workspace_paths_confined_witness :
  ∃ root, canonicalize (ExecutorFileSystem:=mem_fs) demo_world "/w" = FsOk root ∧ path_starts_with "/w/src/f.rs" root = true.
Proof.
  refine (proj2 (workspace_paths_confined (H:=mem_fs) (H0:=demo_native_env) None (IoOk "/") "src/../src/f.rs"
    demo_native "/w/src/f.rs" demo_native _)).
  vm_compute. reflexivity.
Defined.

(** A range that ends before it starts. *)
Example read_file_panics :
  (demo_call "read_file" [("path", VString "src/f.rs"); ("start_line", VNumber (PosInt 3));
                          ("end_line", VNumber (PosInt 1))] demo_native).1 = Panic.
Proof. by vm_compute. Qed.

(** A call that conforms to the announced schema, and its answer. *)
Definition demo_todo_row : ToolRow := List.last catalog_rows {| tool_name := ""; tool_description := "";
  input_schema := VNull; output_schema := VNull |}.

Definition demo_todo_args : list (string * Value) :=
  [("items", VArray [VObject [("description", VString "write tests"); ("status", VString "checked")]])].

Definition demo_todo_result : CallToolResult :=
  text_result (todo_response [{| id := "t1"; description := "write tests"; status := Checked |}]).

Lemma demo_todo_call : (demo_call (tool_name demo_todo_row) demo_todo_args demo_native).1 = Ok demo_todo_result.
Proof. vm_compute. reflexivity. Qed.

Lemma results_conform_witness :
  ∃ v, structured_content demo_todo_result = Some v ∧ conforms schema_depth (output_schema demo_todo_row) v = true.
Proof.
  apply (results_conform None (IoOk "/") demo_todo_row demo_todo_args demo_native demo_todo_result
    (demo_call (tool_name demo_todo_row) demo_todo_args demo_native).2).
  - unfold demo_todo_row, catalog_rows. cbn [List.last]. set_solver.
  - discriminate.
  - rewrite <- demo_todo_call. apply surjective_pairing.
  - reflexivity.
Defined.

Lemma announced_arguments_decode_witness :
  conforms schema_depth (input_schema demo_todo_row) (VObject demo_todo_args) = true ∧
  decodes (tool_name demo_todo_row) demo_todo_args = true.
Proof.
  split; [reflexivity|]. apply (announced_arguments_decode demo_todo_row); [|reflexivity].
  unfold demo_todo_row, catalog_rows. cbn [List.last]. set_solver.
Defined.
