(* ===== verification/ExecDemo.v ===== *)
(** * Commands, rules and sandboxes on concrete inputs

    Small instances of the libraries and of the host, and the theorems on
    commands, permissions and patches applied to them. *)

From S2P Require Import Prelude RustStr Json Os AbsPath Permissions SandboxRoots PermissionsFacts PolicyTransforms CommandSafety ExecPolicy ExecPolicyFacts ExecRules ExecRulesFacts ExecApproval SandboxManager ExecApprovalFacts RequirementsPolicy Orchestrator OrchestratorFacts PatchParser ApplyChunks ApplyFs ApplyVerify ApplyFacts PatchDemo PatchSafety.

#[local] Open Scope nat_scope.

(** ** The host *)

#[local] Instance exec_os : Os := demo_os.

#[local] Instance exec_host : HostDirs := {| home_dir := None; current_dir := IoOk "/w" |}.

Definition exec_fs : os := mkDemoFs ∅ ["/"; "/w"; "/tmp"].

#[local] Instance exec_sandbox : SandboxHost := {| tmpdir_var := None; symlink_metadata _ _ := None |}.

#[local] Instance exec_globs : GlobLib := {| build_glob_matcher pattern := inl (λ path, path == pattern) |}.

#[local] Instance exec_unicode : Unicode := {| uni_lower s := s; uni_debug s := s |}.

(** ** The libraries *)

Inductive DemoValue := DemoText (s : string) | DemoList (l : list string).

#[local] Instance exec_starlark : Starlark := {|
  sl_value := DemoValue;
  unpack_str v := match v with DemoText s => Some s | DemoList _ => None end;
  list_content v := match v with DemoList l => Some (map DemoText l) | DemoText _ => None end;
  get_type v := match v with DemoText _ => "string" | DemoList _ => "list" end;
  sl_error := string;
  sl_error_text e := e;
  sl_error_span _ := None
|}.

#[local] Instance exec_shlex : Shlex := {|
  shlex_split s := Some (split_char " "%char s);
  shlex_try_join words := Some (join " " words)
|}.

(** A grammar that reads no script: commands are judged as they are given. *)
#[local] Instance exec_grammar : BashGrammar := {| try_parse_shell _ := None |}.

(** ** Rules *)

Definition allow (first : string) (rest : list string) : PrefixRule := literal_rule first rest Allow.
Definition forbid (first : string) (rest : list string) : PrefixRule := literal_rule first rest Forbidden.

Definition git_policy : Policy := add_rule (forbid "git" ["push"]) (add_rule (allow "git" []) policy_empty).
Definition git_policy' : Policy := add_rule (allow "git" []) (add_rule (forbid "git" ["push"]) policy_empty).

Lemma git_same_rules : same_rules git_policy git_policy'.
Proof.
  split; [|done]. intros name. unfold git_policy, git_policy'. rewrite !add_rule_rules_of. unfold program. cbn.
  case_decide; cbn; [apply perm_swap|done].
Qed.

Lemma order_irrelevant_witness :
  ∃ ep eq, same_rules git_policy git_policy' ∧
    check_with_options git_policy ["git"; "push"; "-f"] (λ _, Prompt) manager_options = Ok ep ∧
    check_with_options git_policy' ["git"; "push"; "-f"] (λ _, Prompt) manager_options = Ok eq ∧
    ev_decision ep = ev_decision eq ∧ ev_decision ep = Forbidden.
Proof.
  eexists _, _. split; [apply git_same_rules|]. split; [vm_compute; reflexivity|]. split; [vm_compute; reflexivity|].
  split; [|reflexivity].
  apply (order_irrelevant git_policy git_policy' ["git"; "push"; "-f"] (λ _, Prompt) manager_options);
    [apply git_same_rules|vm_compute; reflexivity|vm_compute; reflexivity].
Defined.

(** ** Approval *)

Definition workspace_profile : PermissionProfile :=
  Managed (ManagedRestricted (fsp_entries (fs_workspace_write exec_fs [] true true)) None) NetRestricted.

Definition request (policy : AskForApproval) (command : list string) (prefix_rule : option (list string)) : ExecApprovalRequest :=
  mkRequest command policy workspace_profile WindowsDisabled UseDefault prefix_rule.

Definition build_request : ExecApprovalRequest := request UnlessTrusted ["cargo"; "build"] (Some ["cargo"]).

Lemma amendment_works_witness :
  create_exec_approval_requirement_for_command policy_empty build_request = Ok (NeedsApproval None (Some (mkAmendment ["cargo"]))) ∧
  ∃ p', add_prefix_rule ["cargo"] Allow policy_empty = Good p' ∧
    ((rq_prefix_rule build_request = Some ["cargo"] ∧ (["cargo"] ∉ BANNED_PREFIX_SUGGESTIONS) ∧
      ∃ bypass a', create_exec_approval_requirement_for_command p' build_request = Ok (Skip bypass a')) ∨
     (["cargo"] ∈ segments build_request ∧ rules_for policy_empty ["cargo"] = [] ∧ allowed_by_rules p' ["cargo"])).
Proof.
  split; [vm_compute; reflexivity|].
  refine (amendment_works policy_empty build_request None (mkAmendment ["cargo"]) _ _); [vm_compute; reflexivity|discriminate].
Defined.

Definition status_request : ExecApprovalRequest := request OnRequest ["git"; "status"] None.

Lemma unsandboxed_justified_witness :
  sandbox_override_for_first_attempt UseDefault (Skip true None) (file_system_sandbox_policy workspace_profile) = BypassSandboxFirstAttempt ∧
  has_denied_read_restrictions (file_system_sandbox_policy workspace_profile) = false ∧
  (Forall (allowed_by_rules git_policy) (segments status_request) ∨ UseDefault = RequireEscalated).
Proof.
  split; [vm_compute; reflexivity|].
  refine (unsandboxed_justified git_policy status_request (Skip true None) (file_system_sandbox_policy workspace_profile) UseDefault _ _);
    vm_compute; reflexivity.
Defined.

(** ** The administrator's rules *)

Definition no_rm : RequirementsExecPolicyToml :=
  mkRequirementsToml [mkPrefixRuleToml [mkTokenToml (Some "rm") None] (Some ForbiddenToml) (Some "no removals")].

Definition no_rm_policy : Policy := policy_new (multimap_insert "rm" (mkPrefixRule (mkPrefixPattern "rm" []) Forbidden (Some "no removals")) ∅).

#[local] Instance exec_eval : StarlarkEval := {|
  eval_module _ text := if text == "broken" then Raised "parse error" else Finished
|}.

#[local] Instance exec_rules_dirs : RulesDirs := {|
  read_rules_dir dir := if dir == "/p/rules" then DirEntries [("/p/rules/a.rules", true)] None else NoDirectory
|}.

Definition no_layers : ConfigLayerStack := mkStack [] (Some no_rm_policy) false.
Definition rm_request : ExecApprovalRequest := request Never ["rm"; "x"] None.

Lemma requirements_never_skipped_witness :
  to_policy no_rm = Good no_rm_policy ∧
  load_exec_policy_with_warning exec_fs no_layers = Good (merge_overlay (build builder_new) no_rm_policy, None) ∧
  create_exec_approval_requirement_for_command (merge_overlay (build builder_new) no_rm_policy) rm_request ≠ Ok (Skip true None).
Proof.
  split; [reflexivity|]. split; [reflexivity|].
  apply (requirements_never_skipped exec_fs no_rm no_rm_policy no_layers (merge_overlay (build builder_new) no_rm_policy) rm_request
    (mkPrefixRuleToml [mkTokenToml (Some "rm") None] (Some ForbiddenToml) (Some "no removals")) ["rm"; "x"] ["rm"] true None).
  - reflexivity.
  - reflexivity.
  - reflexivity.
  - by left.
  - split; [by exists ["x"]|]. constructor; [by left|constructor].
  - by left.
Defined.

(** A rule file of a project that does not parse takes the administrator's rules
    away: the very same command then runs. *)
Definition broken_fs : os := mkDemoFs {["/p/rules/a.rules" := "broken"]} ["/"; "/w"; "/tmp"; "/p"; "/p/rules"].
Definition broken_stack : ConfigLayerStack := mkStack [mkLayer (ProjectLayer "/p") None] (Some no_rm_policy) false.

Example broken_rules_drop_requirements :
  load_exec_policy_with_warning exec_fs no_layers = Good (merge_overlay (build builder_new) no_rm_policy, None) ∧
  create_exec_approval_requirement_for_command (merge_overlay (build builder_new) no_rm_policy) rm_request
    = Ok (ForbiddenExec "`rm x` rejected: no removals") ∧
  load_exec_policy_with_warning broken_fs broken_stack
    = Good (policy_empty, Some (ParsePolicy "/p/rules/a.rules" (StarlarkError "parse error"))) ∧
  ∃ a, create_exec_approval_requirement_for_command policy_empty rm_request = Ok (Skip false a).
Proof. split_and!; [reflexivity|vm_compute; reflexivity|vm_compute; reflexivity|]. eexists. vm_compute. reflexivity. Qed.

(** A rule for the full path of a program hides the administrator's rule for its
    name: the command runs, and outside the sandbox. *)
Definition shadowing : Policy := merge_overlay (add_rule (allow "/bin/rm" []) policy_empty) no_rm_policy.

Example full_path_shadows_requirement :
  create_exec_approval_requirement_for_command shadowing (request OnRequest ["rm"; "x"] None)
    = Ok (ForbiddenExec "`rm x` rejected: no removals") ∧
  create_exec_approval_requirement_for_command (merge_overlay policy_empty no_rm_policy) (request OnRequest ["/bin/rm"; "x"] None)
    = Ok (ForbiddenExec "`/bin/rm x` rejected: no removals") ∧
  create_exec_approval_requirement_for_command shadowing (request OnRequest ["/bin/rm"; "x"] None) = Ok (Skip true None).
Proof. split_and!; vm_compute; reflexivity. Qed.

(** A program in the working directory is taken for the one its name stands for. *)
Example relative_program_matches :
  create_exec_approval_requirement_for_command git_policy (request OnRequest ["./git"; "status"] None) = Ok (Skip true None).
Proof. vm_compute. reflexivity. Qed.

(** The amendment proposed for an empty command cannot be accepted. *)
Example empty_amendment :
  create_exec_approval_requirement_for_command policy_empty (request UnlessTrusted [] None)
    = Ok (NeedsApproval None (Some (mkAmendment []))) ∧
  add_prefix_rule [] Allow policy_empty = Bad (InvalidPattern "prefix cannot be empty").
Proof. split; vm_compute; reflexivity. Qed.

(** ** Policy files *)

Definition git_call : BuiltinCall :=
  CallPrefixRule [DemoText "git"; DemoList ["status"; "diff"]] None (Some [DemoText "git status -s"]) (Some [DemoText "git push"]) None None.

Definition git_script : Script := Calls git_call (λ _, "error") Finished.

Lemma parse_examples_hold_witness :
  (parse_script git_script builder_new).1 = Good () ∧
  ∃ v, declares git_call v ∧
    (∀ e, e ∈ pv_matches v → example_matches (build (parse_script git_script builder_new).2) e ≠ []) ∧
    (∀ e, e ∈ pv_not_matches v → example_matches (validation_policy (parse_script git_script builder_new).2 v) e = []).
Proof.
  split; [vm_compute; reflexivity|].
  refine (parse_examples_hold git_script builder_new (parse_script git_script builder_new).2 git_call _ _); [|by left].
  rewrite (surjective_pairing (parse_script git_script builder_new)). cbn [fst snd].
  f_equal; vm_compute; reflexivity.
Defined.

(** ** Updating the policy: files in memory that are opened at once *)

#[local] Instance exec_json : JsonLib := {|
  value_text v := match v with VString s => quote +:+ s +:+ quote | _ => "null" end;
  value_parse s := inl (VString s);
  strings_text l := join "," l;
  strings_parse s := inl [s]
|}.

Definition demo_policy_fs : PolicyFs := {|
  pfs := gmap string string;
  pf_create_dir _ w := (DirExists, w);
  pf_open path w := (IoOk (), <[path := default "" (w !! path)]> w);
  pf_lock _ w := (IoOk (), w);
  pf_seek_start _ w := (IoOk (), w);
  pf_read path w := (match w !! path with Some c => IoOk c | None => IoErr "no such file" end, w);
  pf_write_all path text w := (IoOk (), <[path := default "" (w !! path) +:+ text]> w)
|}.

#[local] Existing Instance demo_policy_fs.

#[local] Instance demo_policy_fs_laws : PolicyFsLaws.
Proof.
  refine {| pf_contents w q := (w : gmap string string) !! q |}; cbn; try done.
  - intros p w w' q [= <-]. destruct (String.eqb_spec q p) as [->|Hne]; [by rewrite lookup_insert_eq|].
    by rewrite lookup_insert_ne.
  - intros p w w' c. destruct (w !! p) eqn:E; [|done]. by intros [= <- <-].
  - intros p t w w' q [= <-]. destruct (String.eqb_spec q p) as [->|Hne]; [by rewrite lookup_insert_eq|].
    by rewrite lookup_insert_ne.
Defined.

Definition update := append_amendment_and_update "/c" (mkAmendment ["cargo"; "build"]) (policy_empty, ∅).

Lemma update_spec_witness :
  let path := default_policy_path "/c" in
  (update.1 = Ok (Good ()) ∧ ["cargo"; "build"] ≠ [] ∧
    file (update.2.2) path = with_line (file (∅ : gmap string string) path) (allow_rule_text ["cargo"; "build"]) ∧
    (∀ q, q ≠ path → pf_contents update.2.2 q = pf_contents (∅ : gmap string string) q) ∧
    ((allowed_by_rules policy_empty ["cargo"; "build"] ∧ update.2.1 = policy_empty) ∨
     (¬ allowed_by_rules policy_empty ["cargo"; "build"] ∧ add_prefix_rule ["cargo"; "build"] Allow policy_empty = Good update.2.1))) ∨
  (∃ source, update.1 = Ok (Bad (AppendRule path source)) ∧ update.2.1 = policy_empty).
Proof.
  refine (update_spec "/c" (mkAmendment ["cargo"; "build"]) policy_empty ∅ update.1 update.2.1 update.2.2 _).
  unfold update. destruct (append_amendment_and_update _ _ _) as [r [p w]]. reflexivity.
Defined.

Example update_written :
  update.1 = Ok (Good ()) ∧
  pf_contents update.2.2 "/c/rules/default.rules" =
    Some ("prefix_rule(pattern=[" +:+ quote +:+ "cargo" +:+ quote +:+ ", " +:+ quote +:+ "build" +:+ quote +:+ "], decision="
          +:+ quote +:+ "allow" +:+ quote +:+ ")" +:+ String newline "").
Proof. split; vm_compute; reflexivity. Qed.

(** ** Permissions *)

Lemma normal_of (names : list string) : forallb (λ c, is_name c && negb (c == "..")) names = true → normal (abs_text names).
Proof.
  intros Hf. exists names. split; [done|]. apply Forall_forall. intros c Hc. rewrite forallb_forall in Hf.
  specialize (Hf c ltac:(by apply list_elem_of_In)). apply andb_true_iff in Hf as [? Hd%negb_true_iff].
  split; [done|]. by apply String.eqb_neq.
Qed.

Lemma workspace_write_spec_witness :
  can_write_path_with_cwd exec_fs (fs_workspace_write exec_fs [] true true) "src/a.rs" "/w" = true ∧
  ∃ rest, components "/w/src/a.rs" = components "/w" ++ rest ∧
    match rest with c :: _ => c ∉ PROTECTED_METADATA_PATH_NAMES | [] => True end.
Proof.
  split; [vm_compute; reflexivity|].
  refine (proj1 (workspace_write_spec exec_fs "src/a.rs" "/w" "/w/src/a.rs" _ _ _) _).
  - exact (normal_of ["w"] eq_refl).
  - vm_compute. reflexivity.
  - exact (normal_of ["w"; "src"; "a.rs"] eq_refl).
  - vm_compute. reflexivity.
Defined.



(** The fixed part of [/.*] is read as the parent of [/.], which there is none:
    the pattern is not carried over to the grant that it constrains. *)
Example root_dot_pattern_dropped :
  let granted := mkFsPermissions [mkEntry (PathEntry "/") AccessRead] None in
  let requested := mkFsPermissions [mkEntry (PathEntry "/") AccessRead; mkEntry (GlobPattern "/.*") AccessDeny] None in
  intersect_file_systems exec_fs requested granted "/w" = Ok granted.
Proof. vm_compute. reflexivity. Qed.

(** ** Running tools *)

Lemma cached_approval_sound_witness :
  let qs := [mkQuery ["a"; "b"] ApprovedForSession; mkQuery ["b"] Denied] in
  answer_all (λ k : string, Some k) qs ∅ !! 1 = Some (ApprovedForSession, false) ∧
  ∀ key, key ∈ ["b"] → ∃ text j q', Some key = Some text ∧ j < 1 ∧ qs !! j = Some q' ∧
    q_answer q' = ApprovedForSession ∧ ∃ key', key' ∈ q_keys q' ∧ Some key' = Some text.
Proof.
  intros qs. split; [vm_compute; reflexivity|].
  refine (proj2 (proj2 (cached_approval_sound (λ k : string, Some k) qs 1 (mkQuery ["b"] Denied) ApprovedForSession eq_refl _))).
  vm_compute. reflexivity.
Defined.

(** A tool the sandbox stops once; the user approves whatever is asked.  The
    world counts the attempts. *)
#[local] Instance demo_tool_data : ToolData := {| exec_output := string; hook_payload := string |}.

#[local] Instance demo_session : Session nat := {|
  strict_auto_review_enabled_for_turn n := (false, n);
  routes_approval_to_guardian := false;
  new_guardian_review_id n := ("review", n);
  run_permission_request_hooks _ _ n := (None, n);
  guardian_rejection_message _ n := ("rejected", n);
  deferred_network_approval := ();
  active_network_approval := ();
  network_mode _ := Immediate;
  into_deferred _ := None;
  finish_immediate_network_approval _ n := (None, n);
  finish_deferred_network_approval _ n := (None, n)
|}.

#[local] Instance demo_approvable : Approvable (list string) := {|
  sandbox_permissions _ := UseDefault;
  should_bypass_approval := default_should_bypass_approval;
  exec_approval_requirement _ := None;
  permission_request_payload _ := None;
  wants_no_sandbox_approval := default_wants_no_sandbox_approval
|}.

#[local] Instance demo_sandboxable : Sandboxable := {| sandbox_preference := PreferAuto; escalate_on_failure := true |}.

#[local] Instance demo_runtime : ToolRuntime nat (list string) string := {|
  begin_network_approval _ _ n := (None, n);
  tool_sandbox_cwd _ := None;
  tool_run _ a n := (match n with O => Bad (SandboxDenied "denied" None) | S _ => Good "done" end, S n);
  start_approval_async _ _ n := (Approved, n)
|}.



(** * Patches that are applied without asking *)

#[local] Existing Instances mem_fs mem_laws demo_patch_libs.

Definition workspace_policy : FileSystemSandboxPolicy := file_system_sandbox_policy workspace_profile.

Lemma approved_patch_confined_witness :
  assess_patch_safety TargetLinux exec_fs demo_action Never workspace_profile workspace_policy "/w" WindowsDisabled = AutoApprove LinuxSeccomp false ∧
  mem_files demo_after.1 !! "/w/src/f.rs" ≠ mem_files demo_world !! "/w/src/f.rs" ∧
  can_write_path_with_cwd exec_fs workspace_policy "/w/src/f.rs" "/w" = true.
Proof.
  assert (assess_patch_safety TargetLinux exec_fs demo_action Never workspace_profile workspace_policy "/w" WindowsDisabled
    = AutoApprove LinuxSeccomp false) as Hsafe by (vm_compute; reflexivity).
  assert (mem_files demo_after.1 !! "/w/src/f.rs" ≠ mem_files demo_world !! "/w/src/f.rs") as Hdiff.
  { intros E. apply (f_equal (λ c, match c with Some s => String.length s | None => O end)) in E. vm_compute in E. discriminate. }
  split; [exact Hsafe|]. split; [exact Hdiff|].
  destruct demo_affected as [a Ea]. pose proof demo_patch_run as Hrun. rewrite Ea in Hrun.
  refine (approved_patch_confined TargetLinux exec_fs "/w" "/w" demo_args demo_action Never workspace_profile workspace_policy
    WindowsDisabled LinuxSeccomp false demo_world a demo_after.1 demo_after.2 "/w/src/f.rs" eq_refl _ demo_verified Hsafe _ Hrun demo_exact Hdiff).
  - apply (bool_decide_eq_true_1 _). vm_compute. reflexivity.
  - discriminate.
Defined.

(** Two hunks for one file: the preview keeps the second only, so that the place
    the first moves the file to is not checked. *)
Definition hidden_move : list Hunk :=
  [UpdateFile "b.txt" (Some "/etc/x") [demo_chunk None ["x"] ["y"]]; AddFile "b.txt" ("new" +:+ nl1)].

Definition hidden_args : ApplyPatchArgs :=
  {| patch := ""; hunks := hidden_move; workdir := None; environment_id := None |}.

Definition check_hidden : option SafetyCheck :=
  match verify_apply_patch_args None demo_world hidden_args "/w" with
  | Some (VerifiedBody action) =>
      Some (assess_patch_safety TargetLinux exec_fs action Never workspace_profile workspace_policy "/w" WindowsDisabled)
  | _ => None
  end.

Example second_hunk_hides_move :
  check_hidden = Some (AutoApprove LinuxSeccomp false) ∧
  can_write_path_with_cwd exec_fs workspace_policy "/etc/x" "/w" = false ∧
  mem_files (apply_hunks_to_files None "/w" hidden_move (demo_world, delta_empty)).2.1 !! "/etc/x" = Some ("y" +:+ nl1).
Proof. split_and!; vm_compute; reflexivity. Qed.
