(* ===== verification/RateLimit.v ===== *)
(** * Rate limiter of the token endpoint (native-harness-mcp-auth: ratelimit.rs)

    A window per client id: the instant it started and the number of requests
    it admitted.  An [Instant] is a number of nanoseconds of a monotonic
    clock.  [rate_limit_token] reads the client id out of the form body, its
    result says whether the request is forwarded. *)

From S2P Require Import Prelude RustStr Os.

Abbreviation Instant := N (only parsing).

Record RateLimiterInner := mkRateLimiterInner {
  rl_windows : gmap string (Instant * u64);
  rl_max_per_window : u64;
  rl_window_secs : u64
}.

(** [Duration::from_secs] and [Instant::duration_since] (it saturates), in
    nanoseconds. *)
Definition from_secs (s : u64) : N := s * 1000000000.
Definition duration_since (now earlier : Instant) : N := now - earlier.

(** [RateLimiter::new]. *)
Definition rate_new (max_per_window window_secs : u64) : RateLimiterInner :=
  mkRateLimiterInner ∅ max_per_window window_secs.

Definition set_window (l : RateLimiterInner) (c : string) (w : Instant * u64) : RateLimiterInner :=
  mkRateLimiterInner (<[c := w]> (rl_windows l)) (rl_max_per_window l) (rl_window_secs l).

(** [RateLimiter::check]: the entry is made before it is tested. *)
Definition rate_check (now : Instant) (client_id : string) (l : RateLimiterInner)
    : bool * RateLimiterInner :=
  let entry := default (now, 0%N) (rl_windows l !! client_id) in
  if (from_secs (rl_window_secs l) <? duration_since now (fst entry))%N then
    (true, set_window l client_id (now, 1%N))
  else if (snd entry <? rl_max_per_window l)%N then
    (true, set_window l client_id (fst entry, snd entry + 1)%N)
  else (false, set_window l client_id entry).

(** [RateLimiter::cleanup]. *)
Definition rate_cleanup (now : Instant) (l : RateLimiterInner) : RateLimiterInner :=
  mkRateLimiterInner
    (filter (λ kw, (duration_since now (fst (snd kw)) <= from_secs (rl_window_secs l))%N)
       (rl_windows l))
    (rl_max_per_window l) (rl_window_secs l).

(** ** The middleware *)

(** [urlencoding::decode]. *)
Class UrlDecode := url_decode : string → option string.

(** The first [client_id] pair whose value decodes. *)
Fixpoint find_client_id `{UrlDecode} (pairs : list string) : option string :=
  match pairs with
  | [] => None
  | field :: rest =>
      match split_at_char "="%char field with
      | (name, Some value) =>
          if name == "client_id" then
            match url_decode value with
            | Some id => Some id
            | None => find_client_id rest
            end
          else find_client_id rest
      | (_, None) => find_client_id rest
      end
  end.

Inductive RateOutcome :=
| RateReject (status : N)
| RateForward (body : string).

Definition rate_limit_token `{UrlDecode} (now : Instant) (body : string) (l : RateLimiterInner)
    : RateOutcome * RateLimiterInner :=
  if (1024 * 16 <? str_len body)%N then (RateReject 500, l)
  else
    match find_client_id (split_char "&"%char (from_utf8_lossy body)) with
    | Some client_id =>
        match rate_check now client_id l with
        | (false, l') => (RateReject 429, l')
        | (true, l') => (RateForward body, l')
        end
    | None => (RateForward body, l)
    end.

(** ** Sequences of calls *)

Inductive RateEvent :=
| EvCheck (client_id : string)
| EvCleanup.

(** The instants at which requests of [c] are admitted. *)
Fixpoint admitted (c : string) (l : RateLimiterInner) (evs : list (Instant * RateEvent)) : list Instant :=
  match evs with
  | [] => []
  | (t, EvCheck c') :: evs' =>
      let '(ok, l') := rate_check t c' l in
      if ok && (c' == c) then t :: admitted c l' evs' else admitted c l' evs'
  | (t, EvCleanup) :: evs' => admitted c (rate_cleanup t l) evs'
  end.

(** Instants come in the order of a monotonic clock. *)
Fixpoint monotone (t0 : Instant) (evs : list (Instant * RateEvent)) : Prop :=
  match evs with
  | [] => True
  | (t, _) :: evs' => (t0 <= t)%N ∧ monotone t evs'
  end.

Definition within (s d : N) (ts : list Instant) : nat :=
  length (List.filter (λ t, (s <=? t)%N && (t <=? s + d)%N) ts).

(** ** One client at a time: the window as a state machine *)

(** What a check of the client itself does to its window. *)
Definition window_step (max dur : N) (t : Instant) (o : option (Instant * N)) : bool * (Instant * N) :=
  let entry := default (t, 0%N) o in
  if (dur <? t - fst entry)%N then (true, (t, 1%N))
  else if (snd entry <? max)%N then (true, (fst entry, snd entry + 1)%N)
  else (false, entry).

Lemma rate_check_window t c l :
  rate_check t c l =
  let '(ok, w) := window_step (rl_max_per_window l) (from_secs (rl_window_secs l)) t
                    (rl_windows l !! c) in
  (ok, set_window l c w).
Proof.
  unfold rate_check, window_step, duration_since. by repeat case_match.
Qed.

Lemma window_step_fresh max dur t :
  (0 < max)%N → window_step max dur t None = (true, (t, 1%N)).
Proof.
  intros Hmax. unfold window_step. cbn [default from_option id fst snd]. rewrite N.sub_diag.
  destruct (N.ltb_spec dur 0), (N.ltb_spec 0 max); (done || lia).
Qed.

Lemma window_step_expired max dur t a n :
  (dur < t - a)%N → window_step max dur t (Some (a, n)) = (true, (t, 1%N)).
Proof.
  intros Hd. unfold window_step. cbn [default from_option id fst snd].
  by rewrite (proj2 (N.ltb_lt _ _) Hd).
Qed.

(** A window is as good as absent once it has run out: the next check starts
    a new one. *)
Definition same_window (dur t : N) (o o' : option (Instant * N)) : Prop :=
  o = o' ∨ (o = None ∧ ∃ a n, o' = Some (a, n) ∧ (dur < t - a)%N).

Lemma window_step_same max dur t o o' :
  (0 < max)%N → same_window dur t o o' → window_step max dur t o = window_step max dur t o'.
Proof.
  intros Hmax [->|(-> & a & n & -> & Ha)]; [done|].
  by rewrite window_step_fresh, window_step_expired.
Qed.

Lemma same_window_mono dur t t' o o' :
  (t <= t')%N → same_window dur t o o' → same_window dur t' o o'.
Proof.
  intros Ht [->|(-> & a & n & -> & Ha)]; [by left|]. right. split; [done|].
  exists a, n. split; [done|lia].
Qed.

Lemma rate_cleanup_window dur t c l o :
  dur = from_secs (rl_window_secs l) → same_window dur t (rl_windows l !! c) o →
  same_window dur t (rl_windows (rate_cleanup t l) !! c) o.
Proof.
  intros Hd Hs. unfold rate_cleanup. cbn. rewrite <- Hd.
  destruct (rl_windows l !! c) as [[a n]|] eqn:E.
  - destruct Hs as [<-|(? & _)]; [|done].
    destruct (decide (t - a <= dur)%N) as [Hle|Hgt].
    + left. apply map_lookup_filter_Some. by split.
    + right. split; [|exists a, n; split; [done|lia]].
      apply map_lookup_filter_None. right. intros x Hx. rewrite E in Hx.
      by injection Hx as <-.
  - replace (filter _ _ !! c) with (@None (N * N)); [done|].
    symmetry. apply map_lookup_filter_None. by left.
Qed.

(** The admissions of a client without cleanups and other clients. *)
Fixpoint window_run (max dur : N) (o : option (Instant * N)) (ts : list Instant) : list Instant :=
  match ts with
  | [] => []
  | t :: ts' =>
      let '(ok, w) := window_step max dur t o in
      if ok then t :: window_run max dur (Some w) ts' else window_run max dur (Some w) ts'
  end.

(** The instants at which [c] asks. *)
Fixpoint asks (c : string) (evs : list (Instant * RateEvent)) : list Instant :=
  match evs with
  | [] => []
  | (t, EvCheck c') :: evs' => if c' == c then t :: asks c evs' else asks c evs'
  | (_, EvCleanup) :: evs' => asks c evs'
  end.

Lemma admitted_window_run c evs l o t0 :
  (0 < rl_max_per_window l)%N → monotone t0 evs →
  same_window (from_secs (rl_window_secs l)) t0 (rl_windows l !! c) o →
  admitted c l evs =
  window_run (rl_max_per_window l) (from_secs (rl_window_secs l)) o (asks c evs).
Proof.
  revert l o t0. induction evs as [|[t ev] evs IH]; intros l o t0 Hmax Hmono Hsame; [done|].
  destruct Hmono as [Ht Hmono]. apply (same_window_mono _ _ _ _ _ Ht) in Hsame.
  destruct ev as [c'|]; cbn [admitted asks].
  - rewrite rate_check_window.
    destruct (String.eqb_spec c' c) as [->|Hne].
    + rewrite (window_step_same _ _ _ _ _ Hmax Hsame). cbn [window_run].
      destruct (window_step _ _ _ o) as [ok w]. rewrite andb_true_r.
      assert (admitted c (set_window l c w) evs =
        window_run (rl_max_per_window l) (from_secs (rl_window_secs l)) (Some w) (asks c evs)) as ->.
      { apply (IH (set_window l c w) (Some w) t); [done|done|].
        left. cbn. by rewrite lookup_insert_eq. }
      done.
    + destruct (window_step _ _ _ _) as [ok w]. rewrite andb_false_r.
      apply (IH (set_window l c' w) o t); [done|done|]. cbn. by rewrite lookup_insert_ne.
  - apply (IH (rate_cleanup t l) o t); [done|done|]. by apply rate_cleanup_window.
Qed.

(** Requests of other clients and cleanups do not change what a client is
    answered. *)
Theorem rate_client_isolated c max secs evs t0 :
  (0 < max)%N → monotone t0 evs →
  admitted c (rate_new max secs) evs =
  window_run max (from_secs secs) None (asks c evs).
Proof.
  intros Hmax Hmono. apply (admitted_window_run c evs (rate_new max secs) None t0); [done..|].
  left. apply lookup_empty.
Qed.

(** ** The bound *)

(** How many admissions of the interval from [s] of length [dur] there can be
    when the window is [o] and the clock shows [t]. *)
Definition budget_inv (max dur s t : N) (o : option (Instant * N)) (cnt : N) : Prop :=
  (t < s → cnt = 0)%N ∧
  match o with
  | None => cnt = 0%N
  | Some (a, n) =>
      (a <= t ∧ n <= max ∧
       ((a < s ∧ cnt + 1 <= n) ∨ (s <= a ∧ a <= s + dur ∧ cnt + 1 <= max + n) ∨
        (s + dur < a ∧ cnt + 1 <= 2 * max)))%N
  end.

Lemma budget_step max dur s t t' o cnt ok w :
  (0 < max)%N → (t <= t')%N → budget_inv max dur s t o cnt →
  window_step max dur t' o = (ok, w) →
  budget_inv max dur s t' (Some w)
    (if ok && ((s <=? t')%N && (t' <=? s + dur)%N) then cnt + 1 else cnt).
Proof.
  intros Hmax Ht [H0 Ho] Hstep. unfold window_step in Hstep.
  destruct o as [[a n]|]; cbn in Hstep; unfold budget_inv.
  - destruct (N.ltb_spec dur (t' - a)); [|destruct (N.ltb_spec n max)];
      injection Hstep as <- <-;
      destruct (N.leb_spec s t'), (N.leb_spec t' (s + dur)); cbn; lia.
  - rewrite N.sub_diag in Hstep.
    destruct (N.ltb_spec dur 0), (N.ltb_spec 0 max); try lia;
      injection Hstep as <- <-;
      destruct (N.leb_spec s t'), (N.leb_spec t' (s + dur)); cbn; lia.
Qed.

Lemma budget_bound max dur s t o cnt :
  (0 < max)%N → budget_inv max dur s t o cnt → (cnt <= 2 * max - 1)%N.
Proof. intros ? [_ H]. destruct o as [[a n]|]; lia. Qed.

Fixpoint rising (t0 : Instant) (ts : list Instant) : Prop :=
  match ts with
  | [] => True
  | t :: ts' => (t0 <= t)%N ∧ rising t ts'
  end.

Lemma rising_le t0 t1 ts : (t0 <= t1)%N → rising t1 ts → rising t0 ts.
Proof. destruct ts as [|t ts]; cbn; [done|]. intros ? [??]. split; [lia|done]. Qed.

Lemma asks_rising c t0 evs : monotone t0 evs → rising t0 (asks c evs).
Proof.
  revert t0. induction evs as [|[t [c'|]] evs IH]; intros t0; cbn; [done|..];
    intros [Ht Hm]; apply IH in Hm; [destruct (c' == c); [done|]|];
    eapply rising_le; eauto.
Qed.

Lemma window_run_bound max dur s t o cnt ts :
  (0 < max)%N → rising t ts → budget_inv max dur s t o cnt →
  (cnt + N.of_nat (within s dur (window_run max dur o ts)) <= 2 * max - 1)%N.
Proof.
  intros Hmax. revert t o cnt. induction ts as [|t' ts IH]; intros t o cnt Hr Hinv.
  - cbn. rewrite N.add_0_r. by eapply budget_bound.
  - destruct Hr as [Ht Hr]. cbn [window_run].
    destruct (window_step max dur t' o) as [ok w] eqn:E.
    pose proof (budget_step _ _ _ _ _ _ _ _ _ Hmax Ht Hinv E) as Hinv'.
    specialize (IH _ _ _ Hr Hinv'). unfold within in *.
    destruct ok; cbn [List.filter andb] in *; [|done].
    destruct ((s <=? t')%N && (t' <=? s + dur)%N); cbn [length] in *; lia.
Qed.

(** C40. Every run of the limiter keeps its client under twice the limit: whatever
    the other clients and the cleanups do, in any interval as long as the
    window a client is admitted at most [2 * max - 1] times (the windows are
    fixed, not sliding, so the limit itself is not the bound). *)
Theorem rate_limit_bound c max secs evs s :
  (0 < max)%N → monotone 0 evs →
  (N.of_nat (within s (from_secs secs) (admitted c (rate_new max secs) evs)) <= 2 * max - 1)%N.
Proof.
  intros Hmax Hmono.
  rewrite (admitted_window_run c evs (rate_new max secs) None 0);
    [|done|done|left; apply lookup_empty].
  pose proof (window_run_bound max (from_secs secs) s 0 None 0 (asks c evs) Hmax) as H.
  rewrite N.add_0_l in H. apply H; [by apply asks_rising|]. by split.
Qed.

(** ** The bound is attained *)

Lemma window_run_fill max dur a n k t rest :
  (t - a <= dur)%N → (n + N.of_nat k <= max)%N →
  window_run max dur (Some (a, n)) (replicate k t ++ rest) =
  replicate k t ++ window_run max dur (Some (a, n + N.of_nat k)%N) rest.
Proof.
  intros Hd. revert n. induction k as [|k IH]; intros n Hn.
  - cbn. by rewrite N.add_0_r.
  - cbn [replicate app window_run]. unfold window_step. cbn.
    destruct (N.ltb_spec dur (t - a)); [lia|]. destruct (N.ltb_spec n max); [|lia].
    rewrite IH by lia. by replace (n + 1 + N.of_nat k)%N with (n + N.of_nat (S k))%N by lia.
Qed.

Definition burst (c : string) (max dur : N) : list (Instant * RateEvent) :=
  (λ t, (t, EvCheck c)) <$>
  (0%N :: replicate (N.to_nat max - 1) dur ++ replicate (N.to_nat max) (dur + 1)%N).

Lemma asks_checks c ts : asks c ((λ t, (t, EvCheck c)) <$> ts) = ts.
Proof. induction ts as [|t ts IH]; cbn; [done|]. by rewrite str_eqb_refl, IH. Qed.

Lemma checks_monotone c t0 ts : rising t0 ts → monotone t0 ((λ t, (t, EvCheck c)) <$> ts).
Proof.
  revert t0. induction ts as [|t ts IH]; intros t0; cbn; [done|]. intros [??]. auto.
Qed.

Lemma rising_replicate k t0 t rest :
  (t0 <= t)%N → rising t rest → rising t0 (replicate k t ++ rest).
Proof.
  revert t0. induction k as [|k IH]; intros t0 Ht Hr; cbn.
  - by eapply rising_le.
  - split; [done|]. by apply IH.
Qed.

Lemma within_app s d ts ts' : within s d (ts ++ ts') = (within s d ts + within s d ts')%nat.
Proof. unfold within. by rewrite List.filter_app, length_app. Qed.

Lemma within_replicate s d k t :
  (s <= t <= s + d)%N → within s d (replicate k t) = k.
Proof.
  intros [H1 H2]. unfold within. induction k as [|k IH]; cbn; [done|].
  rewrite (proj2 (N.leb_le _ _) H1), (proj2 (N.leb_le _ _) H2). cbn. by rewrite IH.
Qed.

(** Two full windows meet: one request opens the first, the others wait for
    its last instant, and the second opens right after.  So the limiter admits
    [2 * max - 1] requests within two nanoseconds. *)
Theorem rate_limit_bound_attained c max secs :
  (0 < max)%N → (0 < secs)%N →
  monotone 0 (burst c max (from_secs secs)) ∧
  N.of_nat (within (from_secs secs) 1 (admitted c (rate_new max secs) (burst c max (from_secs secs))))
  = (2 * max - 1)%N.
Proof.
  intros Hmax Hsecs. set (dur := from_secs secs) in *.
  assert (0 < dur)%N as Hdur by (subst dur; unfold from_secs; lia).
  assert (rising 0 (0%N :: replicate (N.to_nat max - 1) dur ++ replicate (N.to_nat max) (dur + 1)%N))
    as Hrise.
  { split; [lia|]. apply rising_replicate; [lia|].
    rewrite <- (app_nil_r (replicate _ (dur + 1)%N)). apply rising_replicate; [lia|done]. }
  assert (monotone 0 (burst c max dur)) as Hmono by by apply checks_monotone.
  split; [done|].
  rewrite (admitted_window_run c _ (rate_new max secs) None 0); [|done|done|left; apply lookup_empty].
  change (rl_max_per_window (rate_new max secs)) with max.
  change (from_secs (rl_window_secs (rate_new max secs))) with dur.
  unfold burst. rewrite asks_checks.
  cbn [window_run]. rewrite window_step_fresh by done. rewrite window_run_fill by lia.
  destruct (N.to_nat max) as [|k] eqn:Ek; [lia|]. cbn [replicate window_run].
  rewrite window_step_expired by lia.
  rewrite <- (app_nil_r (replicate k (dur + 1)%N)), window_run_fill by lia.
  cbn [window_run].
  change (0%N :: ?x) with ([0%N] ++ x). rewrite within_app.
  change ((dur + 1)%N :: ?x) with (replicate 1 (dur + 1)%N ++ x).
  rewrite !within_app, !within_replicate by lia.
  assert (within dur 1 [0%N] = 0%nat) as ->.
  { unfold within. cbn. by rewrite (proj2 (N.leb_gt dur 0)) by lia. }
  change (within dur 1 []) with 0%nat. lia.
Qed.

(** ** Clients that are not named are not limited *)

Theorem unnamed_not_limited `{UrlDecode} now body l :
  (str_len body <= 1024 * 16)%N →
  find_client_id (split_char "&"%char (from_utf8_lossy body)) = None →
  rate_limit_token now body l = (RateForward body, l).
Proof.
  intros Hlen Hnone. unfold rate_limit_token. rewrite Hnone.
  by destruct (N.ltb_spec (1024 * 16) (str_len body)); [lia|].
Qed.

(** ** The theorems, applied *)

Lemma rate_limit_bound_witness :
  (N.of_nat (within 0 (from_secs 60) (admitted "app" (rate_new 2 60)
     [(0, EvCheck "app"); (1, EvCheck "other"); (2, EvCheck "app"); (3, EvCheck "app");
      (61000000000, EvCleanup); (61000000001, EvCheck "app")])) <= 2 * 2 - 1)%N.
Proof. apply (rate_limit_bound "app" 2 60); cbn; lia. Defined.

Lemma rate_limit_bound_attained_witness :
  N.of_nat (within (from_secs 60) 1 (admitted "app" (rate_new 10 60) (burst "app" 10 (from_secs 60)))) = 19%N.
Proof. exact (proj2 (rate_limit_bound_attained "app" 10 60 ltac:(lia) ltac:(lia))). Defined.
