(* ===== verification/AuthStore.v ===== *)
(** * Configuration and storage of the authorization server
      (native-harness-mcp-auth: config.rs, storage.rs)

    The five tables of [oauth.db], one definition per method of [Store], and
    the environment the configuration is read from.  A table with a primary
    key is a finite map.  Any statement can fail ([sql_fault]), so that the
    handlers can be seen to react; what a failing method wrote before stays.
    Clock, random bytes and faults are sequences read at the tick of the
    world.  A method of [Store] holds the connection's mutex: it is one atomic
    action of a process. *)

From S2P Require Import Prelude RustStr Json Proc Lifecycle Os RateLimit.

(** ** Configuration *)

Record AuthConfig := mkAuthConfig {
  public_base_url : string;
  data_dir : string;
  cf_access_team : string;
  cf_access_aud : string;
  access_ttl : u64;
  refresh_ttl : u64;
  allow_client_credentials : bool
}.

(** The process environment: [std::env::var] gives the variables that are set
    to valid text, [var_os] every one. *)
Record ProcessEnv := mkProcessEnv {
  env_var : string → option string;
  env_var_os : string → option string
}.

Definition trim_trailing_slash (value : string) : string := trim_end_char slash value.

Definition require_env (env : ProcessEnv) (name : string) : res string :=
  ok_or (env_var env name) (name +:+ " must be set").

(** A number of seconds; anything else counts as unset. *)
Definition env_secs (env : ProcessEnv) (name : string) (dflt : u64) : u64 :=
  default dflt (env_var env name ≫= parse_uint usize_max).

Definition parse_flag (value : string) : option bool :=
  if (value == "1") || (value == "true") || (value == "TRUE") || (value == "yes") then Some true
  else if (value == "0") || (value == "false") || (value == "FALSE") || (value == "no") then Some false
  else None.

Definition config_from_env (env : ProcessEnv) : res AuthConfig :=
  public_base_url ← require_env env "CHATCODEX_PUBLIC_BASE_URL";
  cf_access_team ← require_env env "CHATCODEX_CF_ACCESS_TEAM";
  cf_access_aud ← require_env env "CHATCODEX_CF_ACCESS_AUD";
  let data_dir := default "/data" (env_var_os env "CHATCODEX_DATA_DIR") in
  let access_ttl := env_secs env "CHATCODEX_OAUTH_ACCESS_TTL_SECS" 3600 in
  let refresh_ttl := env_secs env "CHATCODEX_OAUTH_REFRESH_TTL_SECS" (60 * 60 * 24 * 30) in
  let allow_client_credentials :=
    default false (env_var env "CHATCODEX_OAUTH_ALLOW_CONFIDENTIAL" ≫= parse_flag) in
  mret (mkAuthConfig (trim_trailing_slash public_base_url) data_dir
          (trim_trailing_slash cf_access_team) cf_access_aud
          access_ttl refresh_ttl allow_client_credentials).

Definition authorization_endpoint (c : AuthConfig) : string := public_base_url c +:+ "/oauth/authorize".
Definition token_endpoint (c : AuthConfig) : string := public_base_url c +:+ "/oauth/token".
Definition registration_endpoint (c : AuthConfig) : string := public_base_url c +:+ "/oauth/register".
Definition jwks_uri (c : AuthConfig) : string := public_base_url c +:+ "/.well-known/jwks.json".
Definition resource_indicator (c : AuthConfig) : string := public_base_url c +:+ "/mcp".
Definition issuer (c : AuthConfig) : string := public_base_url c.
Definition cf_access_certs_uri (c : AuthConfig) : string :=
  cf_access_team c +:+ "/cdn-cgi/access/certs".

(** ** Parameters *)

(** SHA-256, base64url without padding, and RSA: the keys of the [rsa] crate,
    their PKCS#8 text, PKCS#1 v1.5 signatures. *)
Class Crypto := {
  sha256 : string → string;
  b64_encode : string → string;
  b64_decode : string → string + string;
  RsaPrivate : Type;
  RsaPublic : Type;
  Signature : Type;
  rsa_generate : string → RsaPrivate + string;
  rsa_public : RsaPrivate → RsaPublic;
  rsa_public_new : string → string → RsaPublic + string;
  rsa_n : RsaPublic → string;
  rsa_e : RsaPublic → string;
  pem_encode : RsaPrivate → string + string;
  pem_decode : string → RsaPrivate + string;
  spki_encode : RsaPublic → string + string;
  rsa_sign : RsaPrivate → string → Signature;
  sig_bytes : Signature → string;
  sig_parse : string → Signature + string;
  rsa_verify : RsaPublic → string → Signature → option string
}.

(** What the server relies on: base64 and PKCS#8 read back what they wrote, the
    alphabet of base64 has no dot, a signature verifies under the public key of
    the key that made it. *)
Class CryptoLaws `{Crypto} := {
  b64_roundtrip s : b64_decode (b64_encode s) = inl s;
  b64_no_dot s : str_forall (λ a, negb (Ascii.eqb a "."%char)) (b64_encode s) = true;
  pem_roundtrip k pem : pem_encode k = inl pem → pem_decode pem = inl k ∧ pem ≠ "";
  sig_roundtrip g : sig_parse (sig_bytes g) = inl g;
  sign_verifies k msg : rsa_verify (rsa_public k) msg (rsa_sign k msg) = None
}.

(** The clock in seconds and the monotonic clock, random bytes, and the error
    of the statement at a tick if it fails; the texts of a violated key and of
    a column that does not convert. *)
Class AuthEnv := {
  clock_at : nat → i64;
  instant_at : nat → N;
  random_at : nat → string;
  sql_fault : nat → option string;
  key_text : string;
  column_text : nat → string → string
}.

(** ** Records and tables *)

Record ClientRecord := mkClientRecord {
  cl_client_id : string;
  cl_client_secret_hash : option string;
  cl_client_name : option string;
  cl_redirect_uris : list string;
  cl_grant_types : list string;
  cl_token_endpoint_auth_method : string;
  cl_created_at : i64;
  cl_disabled_at : option i64
}.

(** The row of a client: the lists are JSON text. *)
Record ClientRow := mkClientRow {
  clr_client_id : string;
  clr_client_secret_hash : option string;
  clr_client_name : option string;
  clr_redirect_uris : string;
  clr_grant_types : string;
  clr_token_endpoint_auth_method : string;
  clr_created_at : i64;
  clr_disabled_at : option i64
}.

Record AuthCodeRecord := mkAuthCodeRecord {
  ac_code_hash : string;
  ac_client_id : string;
  ac_subject : string;
  ac_redirect_uri : string;
  ac_scope : string;
  ac_code_challenge : option string;
  ac_code_challenge_method : option string;
  ac_expires_at : i64;
  ac_consumed_at : option i64
}.

Record RefreshTokenRecord := mkRefreshTokenRecord {
  rt_token_hash : string;
  rt_client_id : string;
  rt_subject : string;
  rt_scope : string;
  rt_expires_at : i64;
  rt_revoked_at : option i64;
  rt_replaced_by : option string
}.

Record AccessTokenJtiRecord := mkAccessTokenJtiRecord {
  at_jti : string;
  at_client_id : string;
  at_subject : string;
  at_expires_at : i64;
  at_revoked_at : option i64
}.

(** A row of [signing_keys]; [public_jwk] is JSON text. *)
Record SigningKeyRow := mkSigningKeyRow {
  sk_kid : string;
  sk_alg : string;
  sk_private_pem : string;
  sk_public_jwk : string;
  sk_created_at : i64;
  sk_is_active : i64
}.

(** keyring.rs: the key in memory. *)
Record SigningKeyEntry := mkSigningKeyEntry {
  ke_kid : string;
  ke_alg : string;
  ke_private_pem : string;
  ke_public_jwk : Value
}.

Record AuthDb := mkAuthDb {
  adb_clients : gmap string ClientRow;
  adb_codes : gmap string AuthCodeRecord;
  adb_refresh : gmap string RefreshTokenRecord;
  adb_jtis : gmap string AccessTokenJtiRecord;
  adb_keys : list SigningKeyRow
}.

(** [Store::migrate] on a fresh file: [CREATE TABLE IF NOT EXISTS]. *)
Definition adb_open : AuthDb := mkAuthDb ∅ ∅ ∅ ∅ [].

(** cf_access.rs: the cached certificates of the identity provider. *)
Record CfJwk := mkCfJwk {
  jwk_kid : string;
  jwk_kty : string;
  jwk_usage : option string;
  jwk_alg : string;
  jwk_n : string;
  jwk_e : string
}.

Record CachedCerts := mkCachedCerts {
  cc_fetched_at : i64;
  cc_keys : list CfJwk
}.

(** What the requests share: the database, the certificate cache, the rate
    limiter, and the tick. *)
Record AuthWorld := mkAuthWorld {
  aw_db : AuthDb;
  aw_certs : option CachedCerts;
  aw_limiter : RateLimiterInner;
  aw_tick : nat
}.

Definition aw_set_db (db : AuthDb) (w : AuthWorld) : AuthWorld :=
  mkAuthWorld db (aw_certs w) (aw_limiter w) (aw_tick w).
Definition aw_next (w : AuthWorld) : AuthWorld :=
  mkAuthWorld (aw_db w) (aw_certs w) (aw_limiter w) (S (aw_tick w)).

Section store.
Context `{JsonLib, Crypto, AuthEnv}.

Definition at_tick {A} (f : nat → A) : M AuthWorld A := λ w, (Ok (f (aw_tick w)), aw_next w).

(** [now]. *)
Definition auth_now : Proc AuthWorld i64 := atomic (at_tick clock_at).

(** [hash_token]. *)
Fixpoint hex_string (s : string) : string :=
  match s with
  | EmptyString => ""
  | String a s' => hex_byte a +:+ hex_string s'
  end.

Definition hash_token (token : string) : string := hex_string (sha256 token).

(** [new_opaque_token]. *)
Definition new_opaque_token : Proc AuthWorld string :=
  atomic (at_tick (λ n, b64_encode (random_at n))).

(** ** Statements *)

(** One SQL statement: it fails as the environment says, and then changes
    nothing. *)
Definition sql {A} (f : AuthDb → res A * AuthDb) : M AuthWorld A := λ w,
  match sql_fault (aw_tick w) with
  | Some e => (Err e, aw_next w)
  | None => let '(r, db) := f (aw_db w) in (r, aw_next (aw_set_db db w))
  end.

(** [SELECT .. WHERE key = ?1] with [query_row(..).optional()]. *)
Definition sql_select {A B} (table : AuthDb → gmap string A) (k : string) (f : A → res B) : M AuthWorld (option B) :=
  sql (λ db, (match table db !! k with
              | Some r => Some <$> f r
              | None => Ok None
              end, db)).

(** [INSERT]: the primary key must be new. *)
Definition sql_insert {A} (table : AuthDb → gmap string A) (set : gmap string A → AuthDb → AuthDb)
    (k : string) (r : A) : M AuthWorld () :=
  sql (λ db, match table db !! k with
             | Some _ => (Err key_text, db)
             | None => (Ok (), set (<[k := r]> (table db)) db)
             end).

(** [UPDATE .. WHERE key = ?]: no row is no error. *)
Definition sql_update {A} (table : AuthDb → gmap string A) (set : gmap string A → AuthDb → AuthDb)
    (k : string) (f : A → A) : M AuthWorld () :=
  sql (λ db, (Ok (), set (alter f k (table db)) db)).

Definition set_clients m db := mkAuthDb m (adb_codes db) (adb_refresh db) (adb_jtis db) (adb_keys db).
Definition set_codes m db := mkAuthDb (adb_clients db) m (adb_refresh db) (adb_jtis db) (adb_keys db).
Definition set_refresh m db := mkAuthDb (adb_clients db) (adb_codes db) m (adb_jtis db) (adb_keys db).
Definition set_jtis m db := mkAuthDb (adb_clients db) (adb_codes db) (adb_refresh db) m (adb_keys db).
Definition set_keys l db := mkAuthDb (adb_clients db) (adb_codes db) (adb_refresh db) (adb_jtis db) l.

(** ** Clients *)

Definition client_row (r : ClientRecord) : ClientRow := {|
  clr_client_id := cl_client_id r;
  clr_client_secret_hash := cl_client_secret_hash r;
  clr_client_name := cl_client_name r;
  clr_redirect_uris := strings_text (cl_redirect_uris r);
  clr_grant_types := strings_text (cl_grant_types r);
  clr_token_endpoint_auth_method := cl_token_endpoint_auth_method r;
  clr_created_at := cl_created_at r;
  clr_disabled_at := cl_disabled_at r
|}.

Definition column_strings (col : nat) (text : string) : res (list string) :=
  match strings_parse text with inl l => Ok l | inr e => Err (column_text col e) end.

Definition row_to_client (r : ClientRow) : res ClientRecord :=
  redirect_uris ← column_strings 3 (clr_redirect_uris r);
  grant_types ← column_strings 4 (clr_grant_types r);
  mret (mkClientRecord (clr_client_id r) (clr_client_secret_hash r) (clr_client_name r)
          redirect_uris grant_types (clr_token_endpoint_auth_method r)
          (clr_created_at r) (clr_disabled_at r)).

Definition insert_client (r : ClientRecord) : Proc AuthWorld () :=
  atomic (sql_insert adb_clients set_clients (cl_client_id r) (client_row r)).

Definition get_client (client_id : string) : Proc AuthWorld (option ClientRecord) :=
  atomic (sql_select adb_clients client_id row_to_client).

(** ** Authorization codes *)

Definition insert_auth_code (r : AuthCodeRecord) : Proc AuthWorld () :=
  atomic (sql_insert adb_codes set_codes (ac_code_hash r) r).

Definition consume_code (now_ts : i64) (r : AuthCodeRecord) : AuthCodeRecord :=
  mkAuthCodeRecord (ac_code_hash r) (ac_client_id r) (ac_subject r) (ac_redirect_uri r)
    (ac_scope r) (ac_code_challenge r) (ac_code_challenge_method r) (ac_expires_at r) (Some now_ts).

(** One critical section: the lookup, the test and the update. *)
Definition consume_auth_code (code_hash : string) (now_ts : i64)
    : Proc AuthWorld (option AuthCodeRecord) :=
  atomic (record ← sql_select adb_codes code_hash Ok;
          match record with
          | None => mret None
          | Some record =>
              if match ac_consumed_at record with Some _ => true | None => false end
                 || (ac_expires_at record <=? now_ts)%Z then mret None
              else
                _ ← sql_update adb_codes set_codes code_hash (consume_code now_ts);
                mret (Some record)
          end).

(** ** Refresh tokens *)

Definition insert_refresh_token (r : RefreshTokenRecord) : Proc AuthWorld () :=
  atomic (sql_insert adb_refresh set_refresh (rt_token_hash r) r).

Definition get_refresh_token (token_hash : string) : Proc AuthWorld (option RefreshTokenRecord) :=
  atomic (sql_select adb_refresh token_hash Ok).

(** [COALESCE(revoked_at, ?1)]. *)
Definition coalesce (o : option i64) (now_ts : i64) : option i64 :=
  match o with Some t => Some t | None => Some now_ts end.

Definition revoke_refresh (now_ts : i64) (r : RefreshTokenRecord) : RefreshTokenRecord :=
  mkRefreshTokenRecord (rt_token_hash r) (rt_client_id r) (rt_subject r) (rt_scope r)
    (rt_expires_at r) (coalesce (rt_revoked_at r) now_ts) (rt_replaced_by r).

Definition revoke_refresh_token (token_hash : string) (now_ts : i64) : Proc AuthWorld () :=
  atomic (sql_update adb_refresh set_refresh token_hash (revoke_refresh now_ts)).

(** ** Access tokens *)

(** [INSERT OR REPLACE]. *)
Definition insert_access_jti (r : AccessTokenJtiRecord) : Proc AuthWorld () :=
  atomic (sql (λ db, (Ok (), set_jtis (<[at_jti r := r]> (adb_jtis db)) db))).

Definition jti_active (o : option AccessTokenJtiRecord) (now_ts : i64) : bool :=
  match o with
  | Some r => match at_revoked_at r with
              | None => (now_ts <? at_expires_at r)%Z
              | Some _ => false
              end
  | None => false
  end.

Definition jti_is_active (jti : string) (now_ts : i64) : Proc AuthWorld bool :=
  atomic (row ← sql_select adb_jtis jti Ok; mret (jti_active row now_ts)).

Definition revoke_jti_row (now_ts : i64) (r : AccessTokenJtiRecord) : AccessTokenJtiRecord :=
  mkAccessTokenJtiRecord (at_jti r) (at_client_id r) (at_subject r) (at_expires_at r)
    (coalesce (at_revoked_at r) now_ts).

Definition revoke_jti (jti : string) (now_ts : i64) : Proc AuthWorld () :=
  atomic (sql_update adb_jtis set_jtis jti (revoke_jti_row now_ts)).

Definition get_jti (jti : string) : Proc AuthWorld (option AccessTokenJtiRecord) :=
  atomic (sql_select adb_jtis jti Ok).

(** ** Signing keys *)

(** [query_row(..).ok()]: an error counts as no key, as does a JWK that is not
    JSON. *)
Definition load_active_signing_key : M AuthWorld (option SigningKeyRow) := λ w,
  match sql (λ db, (Ok (find_first (λ r, (sk_is_active r =? 1)%Z) (adb_keys db)), db)) w with
  | (Ok (Some r), w') =>
      match value_parse (sk_public_jwk r) with
      | inl _ => (Ok (Some r), w')
      | inr _ => (Ok None, w')
      end
  | (_, w') => (Ok None, w')
  end.

Definition deactivate (r : SigningKeyRow) : SigningKeyRow :=
  mkSigningKeyRow (sk_kid r) (sk_alg r) (sk_private_pem r) (sk_public_jwk r) (sk_created_at r) 0.

Definition insert_signing_key (r : SigningKeyRow) : M AuthWorld () :=
  _ ← sql (λ db, (Ok (), set_keys (deactivate <$> adb_keys db) db));
  sql (λ db, if existsb (λ r', sk_kid r' == sk_kid r) (adb_keys db) then (Err key_text, db)
             else (Ok (), set_keys (adb_keys db ++ [r]) db)).

Definition entry_of_row (r : SigningKeyRow) : option SigningKeyEntry :=
  match value_parse (sk_public_jwk r) with
  | inl v => Some (mkSigningKeyEntry (sk_kid r) (sk_alg r) (sk_private_pem r) v)
  | inr _ => None
  end.

Definition crypto_try {A} (r : A + string) (msg : string) : res A :=
  match r with inl a => Ok a | inr e => Err (msg +:+ e) end.

Definition public_jwk_of (kid : string) (public : RsaPublic) : list (string * Value) :=
  [("kty", VString "RSA"); ("use", VString "sig"); ("alg", VString "RS256"); ("kid", VString kid);
   ("n", VString (b64_encode (rsa_n public))); ("e", VString (b64_encode (rsa_e public)))].

(** [Store::load_or_create_signing_key], at start-up: the row is written with
    the text of the JWK. *)
Definition load_or_create_signing_key : M AuthWorld SigningKeyEntry :=
  loaded ← load_active_signing_key;
  match loaded ≫= entry_of_row with
  | Some entry => mret entry
  | None =>
      seed ← at_tick random_at;
      private ← lift (crypto_try (rsa_generate seed) "failed to generate RSA key: ");
      let public := rsa_public private in
      private_pem ← lift (crypto_try (pem_encode private) "failed to encode PKCS#8: ");
      _ ← lift (crypto_try (spki_encode public) "failed to encode SPKI: ");
      seed ← at_tick random_at;
      let kid := "chatcodex-" +:+ b64_encode seed in
      let public_jwk := VObject (public_jwk_of kid public) in
      created_at ← at_tick clock_at;
      _ ← insert_signing_key
            (mkSigningKeyRow kid "RS256" private_pem (value_text public_jwk) created_at 1);
      mret (mkSigningKeyEntry kid "RS256" private_pem public_jwk)
  end.
End store.
