(* ===== verification/Keyring.v ===== *)
(** * Tokens and identities (native-harness-mcp-auth: keyring.rs, cf_access.rs)

    Signing and verifying JSON web tokens, the key ring, and the verifier of
    Cloudflare Access cookies with its certificate cache.  An [anyhow::Error]
    with a context shows the context only, which is the text kept here. *)

From S2P Require Import Prelude RustStr Json Proc Lifecycle Os RateLimit AuthStore.

(** [.context(msg)?]. *)
Definition context_try {A} (r : A + string) (msg : string) : res A :=
  match r with inl a => Ok a | inr _ => Err msg end.

Record Keyring := mkKeyring {
  kr_active : option SigningKeyEntry;
  kr_issuer : string;
  kr_audience : string
}.

(** ** Cloudflare Access *)

Record CfAccessClaims := mkCfAccessClaims {
  cfc_aud : Value;
  cfc_email : option string;
  cfc_sub : string;
  cfc_iss : string;
  cfc_iat : i64;
  cfc_exp : i64
}.

Record StubInner := mkStubInner {
  stub_expected_aud : string;
  stub_subject : string;
  stub_email : option string
}.

Record CfAccessVerifier := mkCfAccessVerifier {
  cf_certs_uri : string;
  cf_team_origin : string;
  cf_expected_aud : string;
  cf_stub : option StubInner
}.

(** The answer of the certificate endpoint at a tick, with the error of the
    request, of the status or of the body; and the text of a claim set that
    lacks a member. *)
Class CfEnv := {
  fetch_certs : nat → string → res (list CfJwk);
  claims_text : string
}.

(** [trim_end_matches] with a string: the suffix goes as often as it is
    there; the fuel is the length. *)
Fixpoint drop_prefixes (fuel : nat) (p s : string) : string :=
  match fuel with
  | O => s
  | S fuel' => match strip_prefix p s with
               | Some s' => drop_prefixes fuel' p s'
               | None => s
               end
  end.

Definition trim_end_str (p s : string) : string :=
  str_rev (drop_prefixes (String.length s) (str_rev p) (str_rev s)).

Definition cf_new (certs_uri expected_aud : string) : CfAccessVerifier :=
  mkCfAccessVerifier certs_uri
    (trim_end_char slash (trim_end_str "/cdn-cgi/access/certs" certs_uri)) expected_aud None.

Definition cf_new_stub (expected_aud subject : string) (email : option string) : CfAccessVerifier :=
  mkCfAccessVerifier "https://stub.team/cdn-cgi/access/certs" "https://stub.team" expected_aud
    (Some (mkStubInner expected_aud subject email)).

Definition is_unreserved (a : ascii) : bool :=
  in_range 65 90 a || in_range 97 122 a || in_range 48 57 a ||
  Ascii.eqb a "-"%char || Ascii.eqb a "."%char || Ascii.eqb a "_"%char || Ascii.eqb a "~"%char.

Fixpoint urlencode (value : string) : string :=
  match value with
  | EmptyString => ""
  | String a s =>
      (if is_unreserved a then String a "" else "%" +:+ hex_byte_upper a) +:+ urlencode s
  end.

Definition login_url (cf : CfAccessVerifier) (next : string) : string :=
  cf_team_origin cf +:+ "/cdn-cgi/access/login?next=" +:+ urlencode next.

(** [serde_json::to_value] of a [CfJwk]. *)
Definition jwk_to_value (jwk : CfJwk) : Value :=
  VObject [("kid", VString (jwk_kid jwk)); ("kty", VString (jwk_kty jwk));
           ("use", value_of_option VString (jwk_usage jwk)); ("alg", VString (jwk_alg jwk));
           ("n", VString (jwk_n jwk)); ("e", VString (jwk_e jwk))].

(** [serde_json::from_value] into [CfAccessClaims]: [email] may be missing or
    [null], the other members may not. *)
Definition claims_of_value (v : Value) : option CfAccessClaims :=
  aud ← value_get v "aud";
  email ← match value_get v "email" with
          | None | Some VNull => Some None
          | Some (VString s) => Some (Some s)
          | Some _ => None
          end;
  sub ← value_get v "sub" ≫= as_str;
  iss ← value_get v "iss" ≫= as_str;
  iat ← value_get v "iat" ≫= as_i64;
  exp ← value_get v "exp" ≫= as_i64;
  mret (mkCfAccessClaims aud email sub iss iat exp).

Section jwt.
Context `{JsonLib, Crypto}.

(** [SigningKeyEntry::sign_jwt]. *)
Definition sign_jwt (key : SigningKeyEntry) (payload_b64 : string) : res string :=
  private ← context_try (pem_decode (ke_private_pem key)) "loading PKCS#8 private key";
  let header_b64 := b64_encode (value_text (VObject
    [("alg", VString "RS256"); ("typ", VString "JWT"); ("kid", VString (ke_kid key))])) in
  let signing_input := header_b64 +:+ "." +:+ payload_b64 in
  let signature_b64 := b64_encode (sig_bytes (rsa_sign private signing_input)) in
  mret (signing_input +:+ "." +:+ signature_b64).

Definition aud_ok (claims : Value) (audience : string) : bool :=
  match value_get claims "aud" with
  | Some (VString s) => s == audience
  | Some (VArray arr) =>
      existsb (λ v, match as_str v with Some s => s == audience | None => false end) arr
  | _ => false
  end.

(** The public key a token is checked with: of the private key if there is
    one, otherwise of the JWK. *)
Definition verifying_key (key : SigningKeyEntry) : res RsaPublic :=
  if negb (str_is_empty (ke_private_pem key)) then
    rsa_public <$> context_try (pem_decode (ke_private_pem key)) "loading PKCS#8 private key for verify"
  else
    n_b64 ← ok_or (value_get (ke_public_jwk key) "n" ≫= as_str) "JWK missing n";
    e_b64 ← ok_or (value_get (ke_public_jwk key) "e" ≫= as_str) "JWK missing e";
    n ← context_try (b64_decode n_b64) "decoding JWK n";
    e ← context_try (b64_decode e_b64) "decoding JWK e";
    context_try (rsa_public_new n e) "invalid JWK RSA key".

(** The part of [verify_jwt] after the split: the header, the claims in the
    order of the code, the signature last. *)
Definition verify_parts (header_b64 payload_b64 signature_b64 issuer audience : string)
    (key : SigningKeyEntry) (now_ts : i64) : res (option Value) :=
  header_bytes ← crypto_try (b64_decode header_b64) "invalid JWT header base64: ";
  header ← crypto_try (value_parse header_bytes) "invalid JWT header JSON: ";
  kid ← ok_or (value_get header "kid" ≫= as_str) "JWT header missing kid";
  if negb (kid == ke_kid key) then mret None else
  let alg := default "" (value_get header "alg" ≫= as_str) in
  if negb (alg == "RS256") then mret None else
  payload_bytes ← crypto_try (b64_decode payload_b64) "invalid JWT payload base64: ";
  claims ← crypto_try (value_parse payload_bytes) "invalid JWT payload JSON: ";
  exp ← ok_or (value_get claims "exp" ≫= as_i64) "JWT missing exp claim";
  if (exp <=? now_ts)%Z then mret None else
  iss ← ok_or (value_get claims "iss" ≫= as_str) "JWT missing iss claim";
  if negb (iss == issuer) then mret None else
  if negb (aud_ok claims audience) then mret None else
  public ← verifying_key key;
  signature ← crypto_try (b64_decode signature_b64) "invalid JWT signature base64: ";
  signature ← crypto_try (sig_parse signature) "invalid JWT signature: ";
  match rsa_verify public (header_b64 +:+ "." +:+ payload_b64) signature with
  | Some error => Err ("JWT signature verification failed: " +:+ error)
  | None => mret (Some claims)
  end.

Definition verify_jwt (token issuer audience : string) (key : SigningKeyEntry) (now_ts : i64)
    : res (option Value) :=
  match split_char "."%char token with
  | [header_b64; payload_b64; signature_b64] =>
      verify_parts header_b64 payload_b64 signature_b64 issuer audience key now_ts
  | _ => Ok None
  end.

(** ** The key ring *)

(** [.expect("keyring entry should be initialized")]. *)
Definition keyring_active (k : Keyring) : res SigningKeyEntry :=
  match kr_active k with Some e => Ok e | None => Panic end.

Definition keyring_jwks (k : Keyring) : res Value :=
  entry ← keyring_active k;
  mret (VObject [("keys", VArray [ke_public_jwk entry])]).

Definition keyring_sign (k : Keyring) (payload_b64 : string) : res string :=
  entry ← keyring_active k; sign_jwt entry payload_b64.

Definition keyring_verify (k : Keyring) (token : string) (now_ts : i64) : res (option Value) :=
  active ← keyring_active k; verify_jwt token (kr_issuer k) (kr_audience k) active now_ts.

(** [Keyring::load_or_create]. *)
Definition keyring_load_or_create `{AuthEnv} (issuer audience : string) : M AuthWorld Keyring :=
  entry ← load_or_create_signing_key;
  mret (mkKeyring (Some entry) issuer audience).

(** ** The verifier of cookies *)

Definition peek_kid (token : string) : option string :=
  bytes ← match b64_decode (split_first "."%char token) with inl b => Some b | inr _ => None end;
  value ← match value_parse bytes with inl v => Some v | inr _ => None end;
  value_get value "kid" ≫= as_str.

Definition jwk_to_entry (jwk : CfJwk) : res SigningKeyEntry :=
  n ← context_try (b64_decode (jwk_n jwk)) "decoding JWK n";
  e ← context_try (b64_decode (jwk_e jwk)) "decoding JWK e";
  _ ← crypto_try (rsa_public_new n e) "invalid JWK RSA key: ";
  mret (mkSigningKeyEntry (jwk_kid jwk) (jwk_alg jwk) "" (jwk_to_value jwk)).

Context `{AuthEnv, CfEnv}.

Definition set_certs (c : CachedCerts) : M AuthWorld () :=
  modify (λ w, mkAuthWorld (aw_db w) (Some c) (aw_limiter w) (aw_tick w)).

(** [CfAccessVerifier::refresh_certs]: the cache is read, the certificates are
    fetched without the lock, the cache is written. *)
Definition refresh_certs (cf : CfAccessVerifier) : Proc AuthWorld () :=
  now ← auth_now;
  cache ← atomic (gets aw_certs);
  if match cache with Some cached => (now - cc_fetched_at cached <? 600)%Z | None => false end
  then mret ()
  else
    fetched ← atomic (at_tick (λ n, fetch_certs n (cf_certs_uri cf)));
    keys ← plift fetched;
    atomic (set_certs (mkCachedCerts now keys)).

(** The key of a cookie, among the certificates at hand. *)
Definition cookie_key (cached : CachedCerts) (token : string) : res (option SigningKeyEntry) :=
  match peek_kid token with
  | None => mret None
  | Some kid =>
      match find_first (λ key, jwk_kid key == kid) (cc_keys cached) with
      | None => mret None
      | Some jwk =>
          if negb (jwk_kty jwk == "RSA") then mret None
          else Some <$> jwk_to_entry jwk
      end
  end.

(** [CfAccessVerifier::verify]. *)
Definition cf_verify `{BuildProfile} (cf : CfAccessVerifier) (token : string)
    : Proc AuthWorld (option CfAccessClaims) :=
  match cf_stub cf with
  | Some stub =>
      if str_is_empty token then mret None else
      iat ← auth_now;
      now ← auth_now;
      exp ← plift (i64_add now 3600);
      mret (Some (mkCfAccessClaims (VString (stub_expected_aud stub)) (stub_email stub)
                    (stub_subject stub) "https://stub.team" iat exp))
  | None =>
      _ ← refresh_certs cf;
      cache ← atomic (gets aw_certs);
      match cache with
      | None => mret None
      | Some cached =>
          key ← plift (cookie_key cached token);
          match key with
          | None => mret None
          | Some key =>
              now ← auth_now;
              claims ← plift (verify_jwt token (cf_team_origin cf) (cf_expected_aud cf) key now);
              match claims with
              | None => mret None
              | Some claims => claims ← plift (ok_or (claims_of_value claims) claims_text); mret (Some claims)
              end
          end
      end
  end.
End jwt.
