(* ===== verification/AuthFlow.v ===== *)
(** * Handlers of the authorization server
      (native-harness-mcp-auth: token.rs, authorize.rs, clients.rs, discovery.rs,
      middleware.rs, state.rs; the router of native-harness-mcp)

    One process per handler.  The forms, queries and JSON bodies arrive parsed,
    except the form of the token endpoint, whose raw body the rate limiter
    reads; URLs, header text, the consent page and that form parser belong to
    other crates and are the fields of [WebLib]. *)

From S2P Require Import Prelude RustStr Json Proc Lifecycle Os RateLimit AuthStore Keyring.

(** ** Requests and responses *)

Record TokenForm := mkTokenForm {
  tf_grant_type : string;
  tf_code : option string;
  tf_redirect_uri : option string;
  tf_client_id : option string;
  tf_client_secret : option string;
  tf_code_verifier : option string;
  tf_refresh_token : option string;
  tf_resource : option string
}.

Record TokenResponse := mkTokenResponse {
  tr_access_token : string;
  tr_token_type : string;
  tr_expires_in : i64;
  tr_refresh_token : string;
  tr_scope : string
}.

Record TokenError := mkTokenError {
  te_error : string;
  te_error_description : string
}.

Record IntrospectForm := mkIntrospectForm {
  if_token : string;
  if_token_type_hint : option string;
  if_client_id : option string;
  if_client_secret : option string
}.

Record RevokeForm := mkRevokeForm {
  rf_token : string;
  rf_token_type_hint : option string;
  rf_client_id : option string;
  rf_client_secret : option string
}.

Record AuthorizeQuery := mkAuthorizeQuery {
  aq_response_type : string;
  aq_client_id : string;
  aq_redirect_uri : string;
  aq_scope : option string;
  aq_state : option string;
  aq_code_challenge : option string;
  aq_code_challenge_method : option string;
  aq_resource : option string
}.

Record DecideForm := mkDecideForm {
  df_decision : string;
  df_client_id : string;
  df_redirect_uri : string;
  df_scope : string;
  df_state : option string;
  df_code_challenge : string;
  df_code_challenge_method : string
}.

Record ConsentTemplate := mkConsentTemplate {
  ct_client_id : string;
  ct_subject : string;
  ct_email : option string;
  ct_scope : string;
  ct_redirect_uri : string;
  ct_state : string;
  ct_code_challenge : string;
  ct_code_challenge_method : string;
  ct_error : option string
}.

Record ClientRegistrationRequest := mkClientRegistrationRequest {
  rq_client_name : option string;
  rq_redirect_uris : list string;
  rq_grant_types : option (list string);
  rq_token_endpoint_auth_method : string;
  rq_client_secret : option string;
  rq_client_id : option string
}.

Record ClientRegistrationResponse := mkClientRegistrationResponse {
  rp_client_id : string;
  rp_client_secret : option string;
  rp_client_name : option string;
  rp_redirect_uris : list string;
  rp_grant_types : list string;
  rp_token_endpoint_auth_method : string;
  rp_client_id_issued_at : i64
}.

Record ClientRegistrationError := mkClientRegistrationError {
  re_error : string;
  re_error_description : string
}.

(** [BForward]: the request goes on to the MCP service. *)
Inductive Body :=
| BEmpty
| BText (text : string)
| BJson (value : Value)
| BHtml (page : string)
| BRedirect (location : string)
| BToken (r : TokenResponse)
| BTokenError (e : TokenError)
| BRegistered (r : ClientRegistrationResponse)
| BRegistrationError (e : ClientRegistrationError)
| BForward.

Record Response := mkResponse { resp_status : N; resp_body : Body }.

(** state.rs: what the handlers share and never change. *)
Record AuthState := mkAuthState {
  st_config : AuthConfig;
  st_keyring : Keyring;
  st_cf : CfAccessVerifier
}.

(** ** Parameters *)

(** The [url] crate, [HeaderValue::to_str], the consent page of askama, and
    axum's form extractor (with the status it rejects with). *)
Class WebLib := {
  Url : Type;
  url_parse : string → option Url;
  url_scheme : Url → string;
  append_pair : Url → string → string → Url;
  url_as_str : Url → string;
  header_to_str : string → option string;
  render_consent : ConsentTemplate → string + string;
  parse_token_form : string → TokenForm + N
}.

(** ** Small functions *)

(** [constant_time_eq]: the lengths, then every byte of the longer one, a byte
    past the end counting as zero. *)
Definition byte_at (s : string) (i : nat) : N :=
  match String.get i s with Some a => byte a | None => 0%N end.

Fixpoint ct_loop (rounds index : nat) (left right : string) (difference : usize) : usize :=
  match rounds with
  | O => difference
  | S rounds' =>
      ct_loop rounds' (S index) left right
        (N.lor difference (N.lxor (byte_at left index) (byte_at right index)))
  end.

Definition constant_time_eq (left right : string) : bool :=
  (ct_loop (String.length left `max` String.length right) 0 left right
     (N.lxor (str_len left) (str_len right)) =? 0)%N.

Definition token_error_response (status : N) (error description : string) : Response :=
  mkResponse status (BTokenError (mkTokenError error description)).

Definition error_response (error : string) : Response := mkResponse 500 (BText error).

(** [Redirect::to]. *)
Definition redirect_to (location : string) : Response := mkResponse 303 (BRedirect location).

Definition REFRESH_TTL_SECS : i64 := 60 * 60 * 24 * 30.

(** The first [CF_Authorization] pair of the cookie headers. *)
Fixpoint find_cookie (pairs : list string) : option string :=
  match pairs with
  | [] => None
  | field :: rest =>
      match split_at_char "="%char (trim field) with
      | (name, Some value) => if name == "CF_Authorization" then Some value else find_cookie rest
      | (_, None) => find_cookie rest
      end
  end.

Section flow.
Context `{JsonLib, Crypto, AuthEnv, CfEnv, WebLib, BuildProfile, UrlDecode}.
Context (state : AuthState).

Definition extract_cf_cookie (cookies : list string) : option string :=
  find_cookie (omap header_to_str cookies ≫= split_char ";"%char).

Definition parse_https_localhost : res Url :=
  match url_parse "https://localhost/" with Some u => Ok u | None => Panic end.

Definition url_or_localhost (text : string) : res Url :=
  match url_parse text with Some u => Ok u | None => parse_https_localhost end.

Definition append_some (name : string) (value : option string) (u : Url) : Url :=
  match value with Some v => append_pair u name v | None => u end.

Definition build_authorize_url (q : AuthorizeQuery) : res string :=
  url ← url_or_localhost (authorization_endpoint (st_config state));
  let url := append_pair url "response_type" (aq_response_type q) in
  let url := append_pair url "client_id" (aq_client_id q) in
  let url := append_pair url "redirect_uri" (aq_redirect_uri q) in
  let url := append_some "scope" (aq_scope q) url in
  let url := append_some "state" (aq_state q) url in
  let url := append_some "code_challenge" (aq_code_challenge q) url in
  let url := append_some "code_challenge_method" (aq_code_challenge_method q) url in
  mret (url_as_str url).

(** ** Issuing tokens *)

Definition access_claims (client_id subject scope jti : string) (iat exp : i64) : list (string * Value) :=
  [("iss", VString (issuer (st_config state)));
   ("aud", VString (resource_indicator (st_config state)));
   ("sub", VString subject); ("client_id", VString client_id); ("scope", VString scope);
   ("iat", value_of_i64 iat); ("exp", value_of_i64 exp); ("jti", VString jti)].

Definition issue_tokens (client_id subject scope : string) : Proc AuthWorld (string * string) :=
  now_ts ← auth_now;
  let access_ttl := u64_as_i64 (access_ttl (st_config state)) in
  jti ← new_opaque_token;
  exp ← plift (i64_add now_ts access_ttl);
  let claims := VObject (access_claims client_id subject scope jti now_ts exp) in
  let payload_b64 := b64_encode (value_text claims) in
  access_token ← plift (keyring_sign (st_keyring state) payload_b64);
  _ ← insert_access_jti (mkAccessTokenJtiRecord jti client_id subject exp None);
  refresh_token ← new_opaque_token;
  refresh_exp ← plift (i64_add now_ts REFRESH_TTL_SECS);
  _ ← insert_refresh_token
        (mkRefreshTokenRecord (hash_token refresh_token) client_id subject scope refresh_exp None None);
  mret (access_token, refresh_token).

(** The common end of both grants. *)
Definition grant (client_id subject scope : string) : Proc AuthWorld Response :=
  issued ← attempt (issue_tokens client_id subject scope);
  match issued with
  | Ok (access_token, refresh) =>
      mret (mkResponse 200 (BToken (mkTokenResponse access_token "Bearer"
              (u64_as_i64 (access_ttl (st_config state))) refresh scope)))
  | Err error => mret (token_error_response 500 "server_error" error)
  | Panic => plift Panic
  end.

Definition handle_authorization_code (form : TokenForm) : Proc AuthWorld Response :=
  match tf_code form with
  | None => mret (token_error_response 400 "invalid_request" "code is required")
  | Some code =>
  match tf_client_id form with
  | None => mret (token_error_response 400 "invalid_client" "client_id is required")
  | Some client_id =>
  match tf_redirect_uri form with
  | None => mret (token_error_response 400 "invalid_request" "redirect_uri is required")
  | Some redirect_uri =>
  match tf_code_verifier form with
  | None => mret (token_error_response 400 "invalid_request" "code_verifier is required")
  | Some verifier =>
  found ← attempt (get_client client_id);
  match found with
  | Ok (Some client) =>
      let code_hash := hash_token code in
      now ← auth_now;
      consumed ← attempt (consume_auth_code code_hash now);
      match consumed with
      | Ok (Some record) =>
          if negb (ac_client_id record == cl_client_id client)
             || negb (ac_redirect_uri record == redirect_uri) then
            mret (token_error_response 400 "invalid_grant"
                    "client_id or redirect_uri does not match the code")
          else
          match ac_code_challenge record with
          | None => mret (token_error_response 400 "invalid_grant"
                            "code has no associated PKCE challenge")
          | Some challenge =>
              if negb (bool_decide (ac_code_challenge_method record = Some "S256")) then
                mret (token_error_response 400 "invalid_grant" "only S256 PKCE is supported")
              else
              let computed := b64_encode (sha256 verifier) in
              if negb (constant_time_eq computed challenge) then
                mret (token_error_response 400 "invalid_grant"
                        "code_verifier does not match the challenge")
              else grant (cl_client_id client) (ac_subject record) (ac_scope record)
          end
      | _ => mret (token_error_response 400 "invalid_grant"
                     "authorization code is invalid or expired")
      end
  | _ => mret (token_error_response 401 "invalid_client" "unknown client")
  end
  end end end end.

Definition handle_refresh_token (form : TokenForm) : Proc AuthWorld Response :=
  match tf_refresh_token form with
  | None => mret (token_error_response 400 "invalid_request" "refresh_token is required")
  | Some refresh =>
  match tf_client_id form with
  | None => mret (token_error_response 400 "invalid_client" "client_id is required")
  | Some client_id =>
  found ← attempt (get_client client_id);
  match found with
  | Ok (Some client) =>
      let token_hash := hash_token refresh in
      found ← attempt (get_refresh_token token_hash);
      match found with
      | Ok (Some record) =>
          if negb (rt_client_id record == cl_client_id client) then
            mret (token_error_response 400 "invalid_grant"
                    "refresh_token does not belong to this client")
          else if match rt_revoked_at record with Some _ => true | None => false end then
            mret (token_error_response 400 "invalid_grant" "refresh_token has been revoked")
          else
          now ← auth_now;
          if (rt_expires_at record <=? now)%Z then
            mret (token_error_response 400 "invalid_grant" "refresh_token has expired")
          else
          now ← auth_now;
          _ ← attempt (revoke_refresh_token token_hash now);
          grant (cl_client_id client) (rt_subject record) (rt_scope record)
      | _ => mret (token_error_response 400 "invalid_grant" "refresh_token is invalid")
      end
  | _ => mret (token_error_response 401 "invalid_client" "unknown client")
  end
  end end.

Definition token (form : TokenForm) : Proc AuthWorld Response :=
  if tf_grant_type form == "authorization_code" then handle_authorization_code form
  else if tf_grant_type form == "refresh_token" then handle_refresh_token form
  else mret (token_error_response 400 "unsupported_grant_type"
               ("grant_type '" +:+ tf_grant_type form +:+ "' is not supported")).

(** ** Introspection and revocation *)

Definition inactive : Response := mkResponse 200 (BJson (VObject [("active", VBool false)])).

Definition claim_or_null (claims : Value) (k : string) : Value := value_index claims k.

Definition active_body (claims : Value) (jti : string) : Value :=
  VObject [("active", VBool true); ("sub", claim_or_null claims "sub");
           ("client_id", claim_or_null claims "client_id"); ("scope", claim_or_null claims "scope");
           ("exp", claim_or_null claims "exp"); ("iat", claim_or_null claims "iat");
           ("iss", claim_or_null claims "iss"); ("aud", claim_or_null claims "aud");
           ("jti", VString jti)].

Definition introspect (form : IntrospectForm) : Proc AuthWorld Response :=
  now ← auth_now;
  verified ← attempt (plift (keyring_verify (st_keyring state) (if_token form) now));
  match verified with
  | Ok (Some claims) =>
      match value_get claims "jti" ≫= as_str with
      | None => mret inactive
      | Some jti =>
          now ← auth_now;
          active ← attempt (jti_is_active jti now);
          match active with
          | Ok true => mret (mkResponse 200 (BJson (active_body claims jti)))
          | _ => mret inactive
          end
      end
  | _ => mret inactive
  end.

Definition revoke (form : RevokeForm) : Proc AuthWorld Response :=
  let refresh_hash := hash_token (rf_token form) in
  now ← auth_now;
  _ ← attempt (revoke_refresh_token refresh_hash now);
  now ← auth_now;
  verified ← attempt (plift (keyring_verify (st_keyring state) (rf_token form) now));
  _ ← match verified with
      | Ok (Some claims) =>
          match value_get claims "jti" ≫= as_str with
          | Some jti =>
              now ← auth_now;
              _ ← attempt (revoke_jti jti now);
              mret ()
          | None => mret ()
          end
      | _ => mret ()
      end;
  mret (mkResponse 200 (BJson (VObject []))).

(** ** Authorization and consent *)

Definition text_response (status : N) (text : string) : Response := mkResponse status (BText text).

Definition registered_uri (client : ClientRecord) (uri : string) : bool :=
  existsb (λ u, u == uri) (cl_redirect_uris client).

Definition login_redirect (q : AuthorizeQuery) : Proc AuthWorld Response :=
  next ← plift (build_authorize_url q);
  mret (redirect_to (login_url (st_cf state) next)).

Definition consent_of (q : AuthorizeQuery) (claims : CfAccessClaims) : ConsentTemplate := {|
  ct_client_id := aq_client_id q;
  ct_subject := cfc_sub claims;
  ct_email := cfc_email claims;
  ct_scope := default "mcp:tools" (aq_scope q);
  ct_redirect_uri := aq_redirect_uri q;
  ct_state := default "" (aq_state q);
  ct_code_challenge := default "" (aq_code_challenge q);
  ct_code_challenge_method := default "" (aq_code_challenge_method q);
  ct_error := None
|}.

Definition authorize (cookies : list string) (q : AuthorizeQuery) : Proc AuthWorld Response :=
  if negb (aq_response_type q == "code") then
    mret (text_response 400 "unsupported response_type; only 'code' is supported")
  else
  found ← attempt (get_client (aq_client_id q));
  match found with
  | Ok None => mret (text_response 400 "unknown client_id")
  | Err error => mret (error_response error)
  | Panic => plift Panic
  | Ok (Some client) =>
  if negb (registered_uri client (aq_redirect_uri q)) then
    mret (text_response 400 "redirect_uri not registered")
  else
  let method := default "" (aq_code_challenge_method q) in
  if match aq_code_challenge q with None => true | Some _ => negb (method == "S256") end then
    mret (text_response 400 "code_challenge and code_challenge_method=S256 are required")
  else
  match extract_cf_cookie cookies with
  | None => login_redirect q
  | Some token =>
      verified ← attempt (cf_verify (st_cf state) token);
      match verified with
      | Ok None => login_redirect q
      | Err error => mret (error_response error)
      | Panic => plift Panic
      | Ok (Some claims) =>
          match render_consent (consent_of q claims) with
          | inl body => mret (mkResponse 200 (BHtml body))
          | inr error => mret (error_response error)
          end
      end
  end
  end.

(** The redirect back to the client, with its result parameter. *)
Definition back_to_client (uri name value : string) (state_value : option string) : res Response :=
  url ← url_or_localhost uri;
  let url := append_pair url name value in
  let url := append_pair url "iss" (issuer (st_config state)) in
  let url := append_some "state" state_value url in
  mret (redirect_to (url_as_str url)).

Definition decide_login : Response := redirect_to (login_url (st_cf state) "/oauth/authorize").

Definition decide_ (cookies : list string) (form : DecideForm) : Proc AuthWorld Response :=
  match extract_cf_cookie cookies with
  | None => mret decide_login
  | Some token =>
  verified ← attempt (cf_verify (st_cf state) token);
  match verified with
  | Ok (Some claims) =>
  if negb (df_decision form == "allow") then
    plift (back_to_client (df_redirect_uri form) "error" "access_denied" (df_state form))
  else
  found ← attempt (get_client (df_client_id form));
  match found with
  | Ok (Some client) =>
      if negb (registered_uri client (df_redirect_uri form)) then
        mret (text_response 400 "redirect_uri not registered")
      else
      code ← new_opaque_token;
      let code_hash := hash_token code in
      now ← auth_now;
      expires_at ← plift (i64_add now 60);
      let record := mkAuthCodeRecord code_hash (df_client_id form) (cfc_sub claims)
        (df_redirect_uri form) (df_scope form) (Some (df_code_challenge form))
        (Some (df_code_challenge_method form)) expires_at None in
      inserted ← attempt (insert_auth_code record);
      match inserted with
      | Err error => mret (error_response error)
      | Panic => plift Panic
      | Ok _ => plift (back_to_client (df_redirect_uri form) "code" code (df_state form))
      end
  | _ => mret (text_response 400 "unknown client_id")
  end
  | _ => mret decide_login
  end
  end.

(** ** Registration of clients *)

Fixpoint check_redirect_uris (uris : list string) : res () :=
  match uris with
  | [] => mret ()
  | uri :: rest =>
      parsed ← ok_or (url_parse uri) "invalid redirect_uri";
      _ ← ensure ((url_scheme parsed == "https") || (url_scheme parsed == "http"))
            "redirect_uri must use http(s)";
      check_redirect_uris rest
  end.

Fixpoint check_grant_types (grants : list string) : res () :=
  match grants with
  | [] => mret ()
  | g :: rest =>
      _ ← ensure ((g == "authorization_code") || (g == "refresh_token")) ("unsupported grant_type: " +:+ g);
      check_grant_types rest
  end.

(** The hash to store and the secret to answer with. *)
Definition check_auth_method (req : ClientRegistrationRequest) : res (option string * option string) :=
  if rq_token_endpoint_auth_method req == "none" then
    _ ← ensure (match rq_client_secret req with None => true | Some _ => false end)
          "public clients must not provide a client_secret";
    mret (None, None)
  else if rq_token_endpoint_auth_method req == "client_secret_post" then
    _ ← ensure (allow_client_credentials (st_config state))
          "confidential clients are not enabled; set CHATCODEX_OAUTH_ALLOW_CONFIDENTIAL=1";
    secret ← ok_or (rq_client_secret req) "client_secret is required for confidential clients";
    _ ← ensure (16 <=? str_len secret)%N "client_secret must be at least 16 characters";
    mret (Some (hash_token secret), Some secret)
  else Err ("unsupported token_endpoint_auth_method: " +:+ rq_token_endpoint_auth_method req).

Definition default_grant_types : list string := ["authorization_code"; "refresh_token"].

Definition register_inner (req : ClientRegistrationRequest) : Proc AuthWorld ClientRegistrationResponse :=
  _ ← plift (ensure (negb (bool_decide (rq_redirect_uris req = []))) "redirect_uris must not be empty");
  _ ← plift (check_redirect_uris (rq_redirect_uris req));
  secrets ← plift (check_auth_method req);
  let '(client_secret_hash, client_secret) := secrets in
  let grant_types := default default_grant_types (rq_grant_types req) in
  _ ← plift (check_grant_types grant_types);
  client_id ← match rq_client_id req with
              | Some id => mret id
              | None => opaque ← new_opaque_token; mret ("chatcodex-" +:+ opaque)
              end;
  now_ts ← auth_now;
  _ ← insert_client (mkClientRecord client_id client_secret_hash (rq_client_name req)
        (rq_redirect_uris req) grant_types (rq_token_endpoint_auth_method req) now_ts None);
  mret (mkClientRegistrationResponse client_id client_secret (rq_client_name req)
          (rq_redirect_uris req) grant_types (rq_token_endpoint_auth_method req) now_ts).

Definition register (req : ClientRegistrationRequest) : Proc AuthWorld Response :=
  result ← attempt (register_inner req);
  match result with
  | Ok response => mret (mkResponse 201 (BRegistered response))
  | Err error => mret (mkResponse 400 (BRegistrationError
                   (mkClientRegistrationError "invalid_client_metadata" error)))
  | Panic => plift Panic
  end.

(** ** Discovery *)

Definition str_array (l : list string) : Value := VArray (VString <$> l).

Definition oauth_authorization_server : Response :=
  let cfg := st_config state in
  mkResponse 200 (BJson (VObject [
    ("issuer", VString (issuer cfg));
    ("authorization_endpoint", VString (authorization_endpoint cfg));
    ("token_endpoint", VString (token_endpoint cfg));
    ("registration_endpoint", VString (registration_endpoint cfg));
    ("jwks_uri", VString (jwks_uri cfg));
    ("response_types_supported", str_array ["code"]);
    ("grant_types_supported", str_array ["authorization_code"; "refresh_token"]);
    ("token_endpoint_auth_methods_supported", str_array ["none"; "client_secret_post"]);
    ("code_challenge_methods_supported", str_array ["S256"]);
    ("scopes_supported", str_array ["mcp:tools"]);
    ("authorization_response_iss_parameter_supported", VBool true);
    ("authorization_details_types_supported", str_array []);
    ("dpop_signing_alg_values_supported", str_array [])])).

Definition oauth_protected_resource : Response :=
  let cfg := st_config state in
  mkResponse 200 (BJson (VObject [
    ("resource", VString (resource_indicator cfg));
    ("authorization_servers", str_array [issuer cfg]);
    ("scopes_supported", str_array ["mcp:tools"]);
    ("bearer_methods_supported", str_array ["header"])])).

Definition jwks : Proc AuthWorld Response :=
  keys ← plift (keyring_jwks (st_keyring state));
  mret (mkResponse 200 (BJson keys)).

(** ** The bearer middleware *)

Definition unauthorized : Response := mkResponse 401 BEmpty.
Definition forwarded : Response := mkResponse 200 BForward.

Definition bearer_token (authorization : option string) : option string :=
  raw ← authorization ≫= header_to_str; strip_prefix "Bearer " raw.

Definition require_bearer (path : string) (authorization : option string) : Proc AuthWorld Response :=
  if path == "/healthz" then mret forwarded else
  match bearer_token authorization with
  | None => mret unauthorized
  | Some token =>
      now ← auth_now;
      verified ← attempt (plift (keyring_verify (st_keyring state) token now));
      match verified with
      | Err _ => mret (mkResponse 500 BEmpty)
      | Panic => plift Panic
      | Ok None => mret unauthorized
      | Ok (Some claims) =>
          match value_get claims "jti" ≫= as_str with
          | None => mret unauthorized
          | Some jti =>
              now ← auth_now;
              active ← attempt (jti_is_active jti now);
              match active with
              | Err _ => mret (mkResponse 500 BEmpty)
              | Panic => plift Panic
              | Ok false => mret unauthorized
              | Ok true => mret forwarded
              end
          end
      end
  end.

(** ** The router *)

(** [Router::nest("/mcp", ..)]: the nested router and its layers see the path
    without the prefix. *)
Definition nested_path (prefix path : string) : option string :=
  match strip_prefix prefix path with
  | Some "" => Some "/"
  | Some rest => if starts_with rest "/" then Some rest else None
  | None => None
  end.

(** The token endpoint behind its rate limiter. *)
Definition limited_token (body : string) : Proc AuthWorld Response :=
  outcome ← atomic (λ w,
    let '(o, l) := rate_limit_token (instant_at (aw_tick w)) body (aw_limiter w) in
    (Ok o, mkAuthWorld (aw_db w) (aw_certs w) l (S (aw_tick w))));
  match outcome with
  | RateReject status => mret (mkResponse status BEmpty)
  | RateForward body =>
      match parse_token_form body with
      | inl form => token form
      | inr status => mret (mkResponse status BEmpty)
      end
  end.

Inductive AuthRequest :=
| GetHealthz
| GetServerMetadata
| GetResourceMetadata
| GetJwks
| GetAuthorize (cookies : list string) (query : AuthorizeQuery)
| PostDecide (cookies : list string) (form : DecideForm)
| PostRegister (req : ClientRegistrationRequest)
| PostToken (body : string)
| PostIntrospect (form : IntrospectForm)
| PostRevoke (form : RevokeForm)
| Mcp (path : string) (authorization : option string).

Definition serve (req : AuthRequest) : Proc AuthWorld Response :=
  match req with
  | GetHealthz => mret (mkResponse 200 (BJson (VObject [("status", VString "ok")])))
  | GetServerMetadata => mret oauth_authorization_server
  | GetResourceMetadata => mret oauth_protected_resource
  | GetJwks => jwks
  | GetAuthorize cookies query => authorize cookies query
  | PostDecide cookies form => decide_ cookies form
  | PostRegister req => register req
  | PostToken body => limited_token body
  | PostIntrospect form => introspect form
  | PostRevoke form => revoke form
  | Mcp path authorization =>
      match nested_path "/mcp" path with
      | Some inner => require_bearer inner authorization
      | None => mret (mkResponse 404 BEmpty)
      end
  end.
End flow.

(** [AuthState::new]: the store is opened, the key ring loaded, the verifier
    built for the team of the configuration. *)
Definition auth_state_new `{JsonLib, Crypto, AuthEnv} (config : AuthConfig) : M AuthWorld AuthState :=
  keyring ← keyring_load_or_create (issuer config) (resource_indicator config);
  mret (mkAuthState config keyring (cf_new (cf_access_certs_uri config) (cf_access_aud config))).

(** The server as it starts on a fresh directory, with the limiter of the
    router. *)
Definition auth_world_new : AuthWorld := mkAuthWorld adb_open None (rate_new 10 60) 0.
