(* ===== verification/AuthFacts.v ===== *)
(** * Tokens: what signing, verifying and comparing guarantee

    Facts about keyring.rs, cf_access.rs and the comparison of token.rs: the
    comparison is equality, a token the server signs verifies, a token that
    verifies has every claim checked and a valid signature. *)

From S2P Require Import Prelude RustStr Json Proc Lifecycle Os RateLimit AuthStore Keyring AuthFlow.

(** ** [constant_time_eq] *)

Lemma ct_loop_zero rounds index l r d :
  ct_loop rounds index l r d = 0%N ↔
  d = 0%N ∧ ∀ i, (index <= i < index + rounds)%nat → byte_at l i = byte_at r i.
Proof.
  revert index d. induction rounds as [|n IH]; intros index d; cbn.
  - split; [intros ->; split; [done|lia]|by intros [-> _]].
  - rewrite IH, N.lor_eq_0_iff, N.lxor_eq_0_iff. split.
    + intros [[-> Hb] Hrest]. split; [done|]. intros i Hi.
      destruct (decide (i = index)) as [->|]; [done|]. apply Hrest. lia.
    + intros [-> Hall]. split; [split; [done|apply Hall; lia]|].
      intros i Hi. apply Hall. lia.
Qed.

Lemma byte_inj a b : byte a = byte b → a = b.
Proof.
  unfold byte. intros E. rewrite <- (ascii_N_embedding a), <- (ascii_N_embedding b). by rewrite E.
Qed.

Lemma bytes_ext l r :
  String.length l = String.length r →
  (∀ i, (i < String.length l)%nat → byte_at l i = byte_at r i) → l = r.
Proof.
  revert r. induction l as [|a l IH]; intros [|b r] Hlen Hb; try done.
  f_equal.
  - apply byte_inj, (Hb 0). cbn. lia.
  - apply IH; [by injection Hlen|]. intros i Hi. apply (Hb (S i)). cbn. lia.
Qed.

Lemma constant_time_eq_true l r : constant_time_eq l r = true ↔ l = r.
Proof.
  unfold constant_time_eq. rewrite N.eqb_eq, ct_loop_zero, N.lxor_eq_0_iff. unfold str_len.
  split; [|by intros ->]. intros [Hlen Hb]. apply Nat2N.inj in Hlen.
  apply bytes_ext; [done|]. intros i Hi. apply Hb. lia.
Qed.

(** The loop of the comparison computes equality, also for strings of different
    lengths or one of which is the other with zero bytes appended. *)
Theorem constant_time_eq_spec l r : constant_time_eq l r = (l == r).
Proof. apply Bool.eq_iff_eq_true. by rewrite constant_time_eq_true, String.eqb_eq. Qed.

(** ** Verification *)

Lemma crypto_try_Ok {A} (r : A + string) msg a : crypto_try r msg = Ok a ↔ r = inl a.
Proof. destruct r; cbn; naive_solver. Qed.

Lemma context_try_Ok {A} (r : A + string) msg a : context_try r msg = Ok a ↔ r = inl a.
Proof. destruct r; cbn; naive_solver. Qed.

Lemma if_None_Some {A} (b : bool) (r : res (option A)) a :
  (if b then Ok None else r) = Ok (Some a) ↔ b = false ∧ r = Ok (Some a).
Proof. destruct b; naive_solver. Qed.

Section verify.
Context `{JsonLib, Crypto}.

(** Everything a token must satisfy to be accepted. *)
Definition accepted (token issuer audience : string) (key : SigningKeyEntry) (now_ts : i64)
    (claims : Value) : Prop :=
  ∃ h p g header public signature exp,
    split_char "."%char token = [h; p; g] ∧
    (∃ bytes, b64_decode h = inl bytes ∧ value_parse bytes = inl header) ∧
    value_get header "kid" = Some (VString (ke_kid key)) ∧
    value_get header "alg" = Some (VString "RS256") ∧
    (∃ bytes, b64_decode p = inl bytes ∧ value_parse bytes = inl claims) ∧
    value_get claims "exp" ≫= as_i64 = Some exp ∧ (now_ts < exp)%Z ∧
    value_get claims "iss" = Some (VString issuer) ∧
    aud_ok claims audience = true ∧
    verifying_key key = Ok public ∧
    (∃ bytes, b64_decode g = inl bytes ∧ sig_parse bytes = inl signature) ∧
    rsa_verify public (h +:+ "." +:+ p) signature = None.

Lemma as_str_get v k s : value_get v k ≫= as_str = Some s ↔ value_get v k = Some (VString s).
Proof. destruct (value_get v k) as [[]|]; cbn; naive_solver. Qed.

Lemma default_str_get v k s : s ≠ "" →
  default "" (value_get v k ≫= as_str) = s ↔ value_get v k = Some (VString s).
Proof. destruct (value_get v k) as [[]|]; cbn; naive_solver. Qed.

Lemma verify_jwt_accepted token issuer audience key now_ts claims :
  verify_jwt token issuer audience key now_ts = Ok (Some claims) →
  accepted token issuer audience key now_ts claims.
Proof.
  unfold verify_jwt, accepted.
  destruct (split_char "."%char token) as [|h [|p [|g []]]]; try done.
  unfold verify_parts, mret, res_ret. intros E.
  repeat first
    [ apply res_bind_Ok in E as (? & ?E & E)
    | apply if_None_Some in E as [?E E] ].
  rewrite ?crypto_try_Ok, ?ok_or_Ok, ?negb_false_iff, ?as_str_get, ?String.eqb_eq in *. subst.
  destruct (rsa_verify _ _ _) eqn:?; [done|]. injection E as <-.
  match goal with H : default _ _ = _ |- _ => apply default_str_get in H; [|done] end.
  match goal with H : (_ <=? _)%Z = false |- _ => apply Z.leb_gt in H end.
  do 7 eexists. split_and!; eauto.
Qed.

Lemma accepted_verifies token issuer audience key now_ts claims :
  accepted token issuer audience key now_ts claims →
  verify_jwt token issuer audience key now_ts = Ok (Some claims).
Proof.
  intros (h & p & g & header & public & signature & exp & Hs & (? & Hh & Hhv) & Hk & Ha &
    (? & Hp & Hpv) & He & Hlt & Hi & Hau & Hpub & (? & Hg & Hgv) & Hv).
  unfold verify_jwt. rewrite Hs.
  unfold verify_parts. rewrite Hh. cbn. rewrite Hhv. cbn. rewrite Hk. cbn.
  rewrite str_eqb_refl, Ha. cbn. rewrite Hp. cbn. rewrite Hpv. cbn. rewrite He. cbn.
  rewrite (proj2 (Z.leb_gt _ _) Hlt), Hi. cbn. rewrite str_eqb_refl, Hau, Hpub. cbn.
  rewrite Hg. cbn. rewrite Hgv. cbn. by rewrite Hv.
Qed.

(** A token is accepted exactly when it has three parts, names the key and
    RS256, is not expired, is for this issuer and audience, and its signature
    verifies: no check can be skipped. *)
Theorem verify_jwt_accepts_iff token issuer audience key now_ts claims :
  verify_jwt token issuer audience key now_ts = Ok (Some claims) ↔
  accepted token issuer audience key now_ts claims.
Proof. split; [apply verify_jwt_accepted|apply accepted_verifies]. Qed.

(** ** Round trip *)

Context `{!JsonLaws, !CryptoLaws}.

(** A key whose PKCS#8 text reads. *)
Definition usable_key (key : SigningKeyEntry) : Prop :=
  ke_private_pem key ≠ "" ∧ ∃ k, pem_decode (ke_private_pem key) = inl k.

Lemma verifying_key_usable key k :
  ke_private_pem key ≠ "" → pem_decode (ke_private_pem key) = inl k →
  verifying_key key = Ok (rsa_public k).
Proof.
  intros Hne Hk. unfold verifying_key, str_is_empty.
  destruct (String.eqb_spec (ke_private_pem key) ""); [done|]. cbn. by rewrite Hk.
Qed.

Lemma split_token h p g :
  str_forall (λ a, negb (Ascii.eqb a "."%char)) h = true →
  str_forall (λ a, negb (Ascii.eqb a "."%char)) p = true →
  str_forall (λ a, negb (Ascii.eqb a "."%char)) g = true →
  split_char "."%char ((h +:+ "." +:+ p) +:+ "." +:+ g) = [h; p; g].
Proof.
  intros Hh Hp Hg. rewrite !str_app_assoc.
  change ("." +:+ p +:+ "." +:+ g) with (String "."%char (p +:+ "." +:+ g)).
  rewrite split_char_app by done.
  change ("." +:+ g) with (String "."%char g). rewrite split_char_app by done.
  by rewrite split_char_absent.
Qed.

(** A payload signed by a key verifies under it until it expires, and gives
    back its members. *)
Lemma sign_verify_roundtrip key m issuer audience exp now_ts :
  usable_key key → flat_object m →
  map_get m "exp" = Some (value_of_i64 exp) → i64_fits exp = true → (now_ts < exp)%Z →
  map_get m "iss" = Some (VString issuer) → map_get m "aud" = Some (VString audience) →
  ∃ token m',
    sign_jwt key (b64_encode (value_text (VObject m))) = Ok token ∧
    verify_jwt token issuer audience key now_ts = Ok (Some (VObject m')) ∧ m' ≡ₚ m.
Proof.
  intros (Hne & k & Hk) Hflat Hexp [Hlo Hhi]%andb_true_iff Hnow Hiss Haud.
  apply Z.leb_le in Hlo, Hhi.
  destruct (value_roundtrip m Hflat) as (m' & Hm' & Hperm).
  set (hdr := [("alg", VString "RS256"); ("typ", VString "JWT"); ("kid", VString (ke_kid key))]).
  destruct (value_roundtrip hdr) as (hdr' & Hhdr' & Hhperm).
  { split; [|by repeat constructor]. apply (bool_decide_unpack _). by vm_compute. }
  assert (∀ x, map_get m' x = map_get m x) as Hget by (intros; apply map_get_perm; [apply Hflat|done]).
  assert (∀ x, map_get hdr' x = map_get hdr x) as Hhget.
  { intros. apply map_get_perm; [|done]. apply (bool_decide_unpack _). by vm_compute. }
  unfold sign_jwt. rewrite Hk. cbn [context_try mbind res_bind]. fold hdr.
  do 2 eexists. split; [reflexivity|]. split; [|exact Hperm].
  apply accepted_verifies. unfold accepted.
  eexists _, _, _, (VObject hdr'), (rsa_public k), _, exp.
  split; [apply split_token; apply b64_no_dot|].
  split; [eexists; split; [apply b64_roundtrip|exact Hhdr']|].
  split; [cbn; by rewrite Hhget|]. split; [cbn; by rewrite Hhget|].
  split; [eexists; split; [apply b64_roundtrip|exact Hm']|].
  split; [cbn; rewrite Hget, Hexp; cbn; apply as_i64_of_i64; lia|]. split; [lia|].
  split; [cbn; by rewrite Hget|].
  split; [unfold aud_ok; cbn; rewrite Hget, Haud; apply str_eqb_refl|].
  split; [by apply verifying_key_usable|].
  split; [eexists; split; [apply b64_roundtrip|apply sig_roundtrip]|].
  apply sign_verifies.
Qed.
End verify.
