(* ===== verification/AuthSystem.v ===== *)
(** * The authorization server as a whole

    [db_step] is what a request may do to the database in one atomic action,
    as a step relation; the handlers refine it in every interleaving.  From it
    follow, by rule induction, the invariants of the tables and what can never
    be undone. *)

From S2P Require Import Prelude RustStr Json Proc Lifecycle Os RateLimit AuthStore Keyring AuthFlow AuthFacts.

(** ** The abstract store *)

Section spec.
Context `{JsonLib, Crypto, AuthEnv}.

(** Opaque tokens drawn from tick [n0] on. *)
Definition drawn (n0 : nat) (s : string) : Prop :=
  ∃ n, (n0 <= n)%nat ∧ s = b64_encode (random_at n).

Inductive db_step (n0 : nat) : AuthDb → AuthDb → Prop :=
| step_client db r :
    adb_clients db !! cl_client_id r = None → cl_disabled_at r = None → cl_redirect_uris r ≠ [] →
    db_step n0 db (set_clients (<[cl_client_id r := client_row r]> (adb_clients db)) db)
| step_code db r code :
    drawn n0 code → ac_code_hash r = hash_token code → ac_consumed_at r = None →
    adb_codes db !! ac_code_hash r = None →
    db_step n0 db (set_codes (<[ac_code_hash r := r]> (adb_codes db)) db)
| step_consume db h r t :
    adb_codes db !! h = Some r → ac_consumed_at r = None → (t < ac_expires_at r)%Z →
    db_step n0 db (set_codes (alter (consume_code t) h (adb_codes db)) db)
| step_refresh db r opaque :
    drawn n0 opaque → rt_token_hash r = hash_token opaque → rt_revoked_at r = None →
    rt_replaced_by r = None → adb_refresh db !! rt_token_hash r = None →
    db_step n0 db (set_refresh (<[rt_token_hash r := r]> (adb_refresh db)) db)
| step_revoke_refresh db h t :
    db_step n0 db (set_refresh (alter (revoke_refresh t) h (adb_refresh db)) db)
| step_jti db r :
    drawn n0 (at_jti r) → at_revoked_at r = None →
    db_step n0 db (set_jtis (<[at_jti r := r]> (adb_jtis db)) db)
| step_revoke_jti db jti t :
    db_step n0 db (set_jtis (alter (revoke_jti_row t) jti (adb_jtis db)) db).

(** A stretch of the life of the server. *)
Definition auth_steps (n0 : nat) (w w' : AuthWorld) : Prop :=
  rtc (db_step n0) (aw_db w) (aw_db w') ∧ (aw_tick w <= aw_tick w')%nat.

Definition started (n0 : nat) (w : AuthWorld) : Prop := (n0 <= aw_tick w)%nat.

#[export] Instance auth_steps_preorder n0 : PreOrder (auth_steps n0).
Proof.
  split.
  - intros w. split; [done|lia].
  - intros w1 w2 w3 [? ?] [? ?]. split; [by etrans|lia].
Qed.

Lemma started_steps n0 w w' : started n0 w → auth_steps n0 w w' → started n0 w'.
Proof. unfold started. intros ? [_ ?]. lia. Qed.

(** ** Atomic actions *)

Lemma steps_tick n0 w : auth_steps n0 w (aw_next w).
Proof. split; [done|cbn; lia]. Qed.

Lemma steps_sql {A} n0 (f : AuthDb → res A * AuthDb) w :
  rtc (db_step n0) (aw_db w) (snd (f (aw_db w))) → auth_steps n0 w (snd (sql f w)).
Proof.
  intros Hf. unfold sql. destruct (sql_fault _); [apply steps_tick|].
  destruct (f (aw_db w)) as [r db]. split; [exact Hf|cbn; lia].
Qed.

Lemma steps_select {A B} n0 (table : AuthDb → gmap string A) k (f : A → res B) w :
  auth_steps n0 w (snd (sql_select table k f w)).
Proof. by apply steps_sql. Qed.

Lemma steps_insert {A} n0 (table : AuthDb → gmap string A) set k r w :
  (table (aw_db w) !! k = None → db_step n0 (aw_db w) (set (<[k := r]> (table (aw_db w))) (aw_db w))) →
  auth_steps n0 w (snd (sql_insert table set k r w)).
Proof.
  intros Hs. apply steps_sql. destruct (table (aw_db w) !! k); [done|]. by apply rtc_once, Hs.
Qed.

Lemma steps_update {A} n0 (table : AuthDb → gmap string A) set k f w :
  db_step n0 (aw_db w) (set (alter f k (table (aw_db w))) (aw_db w)) →
  auth_steps n0 w (snd (sql_update table set k f w)).
Proof. intros Hs. apply steps_sql. by apply rtc_once. Qed.

(** The outcome of a lookup. *)
Lemma sql_select_Ok {A B} (table : AuthDb → gmap string A) k (f : A → res B) w o w' :
  sql_select table k f w = (Ok o, w') →
  w' = aw_next w ∧
  match o with
  | Some b => ∃ r, table (aw_db w) !! k = Some r ∧ f r = Ok b
  | None => table (aw_db w) !! k = None
  end.
Proof.
  unfold sql_select, sql. destruct (sql_fault _); [done|].
  destruct (table (aw_db w) !! k) as [r|] eqn:E; cbn; [|by intros [= <- <-]; destruct w].
  destruct (f r) eqn:Ef; cbn; intros [= <- <-]; destruct w; eauto.
Qed.

Abbreviation acts n0 := (all_acts (started n0) (auth_steps n0)).

Lemma acts_tick {A} n0 (f : nat → A) : acts n0 (atomic (at_tick f)).
Proof. apply all_acts_atomic. intros w _. apply steps_tick. Qed.

Lemma acts_now n0 : acts n0 auth_now.
Proof. apply acts_tick. Qed.

Lemma acts_draw_bind {B} n0 (k : string → Proc AuthWorld B) :
  (∀ s, drawn n0 s → acts n0 (k s)) → acts n0 (new_opaque_token ≫= k).
Proof.
  intros Hk. apply all_acts_atomic_bind; [intros w _; apply steps_tick|].
  intros w s Hw [= <-]. apply Hk. by exists (aw_tick w).
Qed.

Lemma acts_insert_client n0 r :
  cl_disabled_at r = None → cl_redirect_uris r ≠ [] → acts n0 (insert_client r).
Proof.
  intros ? ?. apply all_acts_atomic. intros w _. apply steps_insert. intros ?. by apply step_client.
Qed.

Lemma acts_get_client n0 id : acts n0 (get_client id).
Proof. apply all_acts_atomic. intros w _. apply steps_select. Qed.

Lemma acts_insert_auth_code n0 r code :
  drawn n0 code → ac_code_hash r = hash_token code → ac_consumed_at r = None →
  acts n0 (insert_auth_code r).
Proof.
  intros. apply all_acts_atomic. intros w _. apply steps_insert. intros. by eapply step_code.
Qed.

Lemma acts_consume n0 h t : acts n0 (consume_auth_code h t).
Proof.
  apply all_acts_atomic. intros w _. rewrite M_bind_run.
  pose proof (steps_select n0 adb_codes h Ok w) as Hs.
  destruct (sql_select adb_codes h Ok w) as [[o|e|] w'] eqn:E; [|done..].
  apply sql_select_Ok in E as [-> Ho]. destruct o as [r|]; [|done].
  destruct Ho as (r' & Hr & [= ->]).
  destruct (ac_consumed_at r) eqn:Ec; [done|]. cbn [orb].
  destruct (Z.leb_spec (ac_expires_at r) t); [done|].
  rewrite M_bind_run.
  assert (auth_steps n0 (aw_next w) (snd (sql_update adb_codes set_codes h (consume_code t) (aw_next w)))) as Hu.
  { apply steps_update. by eapply step_consume. }
  destruct (sql_update _ _ _ _ _) as [[|e|] w2]; cbn in *; by etrans.
Qed.

Lemma acts_insert_refresh n0 r opaque :
  drawn n0 opaque → rt_token_hash r = hash_token opaque → rt_revoked_at r = None →
  rt_replaced_by r = None → acts n0 (insert_refresh_token r).
Proof.
  intros. apply all_acts_atomic. intros w _. apply steps_insert. intros. by eapply step_refresh.
Qed.

Lemma acts_get_refresh n0 h : acts n0 (get_refresh_token h).
Proof. apply all_acts_atomic. intros w _. apply steps_select. Qed.

Lemma acts_revoke_refresh n0 h t : acts n0 (revoke_refresh_token h t).
Proof. apply all_acts_atomic. intros w _. apply steps_update, step_revoke_refresh. Qed.

Lemma acts_insert_jti n0 r : drawn n0 (at_jti r) → at_revoked_at r = None → acts n0 (insert_access_jti r).
Proof.
  intros. apply all_acts_atomic. intros w _. apply steps_sql. by apply rtc_once, step_jti.
Qed.

Lemma acts_jti_is_active n0 jti t : acts n0 (jti_is_active jti t).
Proof.
  apply all_acts_atomic. intros w _. rewrite M_bind_run.
  pose proof (steps_select n0 adb_jtis jti Ok w) as Hs.
  by destruct (sql_select adb_jtis jti Ok w) as [[o|e|] w'].
Qed.

Lemma acts_revoke_jti n0 jti t : acts n0 (revoke_jti jti t).
Proof. apply all_acts_atomic. intros w _. apply steps_update, step_revoke_jti. Qed.
End spec.

#[export] Hint Resolve acts_now acts_get_client acts_consume acts_get_refresh
  acts_revoke_refresh acts_jti_is_active acts_revoke_jti : harness.

(** Walk through a handler: binds, tests and the store calls known to
    [harness]. *)
Ltac acts_step :=
  first
    [ solve [eauto 2 with harness nocore]
    | apply acts_draw_bind; intros
    | apply all_acts_bind; [|intros ?]
    | apply all_acts_attempt
    | case_match ].
Ltac acts_walk := repeat acts_step.

(** ** Handlers *)

Section handlers.
Context `{JsonLib, Crypto, AuthEnv, CfEnv, WebLib, BuildProfile, UrlDecode}.
Context (state : AuthState).

Abbreviation acts n0 := (all_acts (started n0) (auth_steps n0)).

Lemma acts_refresh_certs n0 cf : acts n0 (refresh_certs cf).
Proof.
  unfold refresh_certs. acts_walk.
  all: try (apply acts_tick).
  all: apply all_acts_atomic; intros w _; split; cbn; (done || lia).
Qed.

Lemma acts_cf_verify n0 cf t : acts n0 (cf_verify cf t).
Proof.
  unfold cf_verify. acts_walk.
  all: try apply acts_refresh_certs.
  all: apply all_acts_atomic; intros w _; split; cbn; (done || lia).
Qed.

Lemma acts_issue_tokens n0 c s sc : acts n0 (issue_tokens state c s sc).
Proof.
  unfold issue_tokens. acts_walk.
  - by apply acts_insert_jti.
  - by eapply acts_insert_refresh.
Qed.
#[local] Hint Resolve acts_cf_verify acts_issue_tokens : harness.

Lemma acts_grant n0 c s sc : acts n0 (grant state c s sc).
Proof. unfold grant. acts_walk. Qed.
#[local] Hint Resolve acts_grant : harness.

Lemma acts_token n0 form : acts n0 (token state form).
Proof. unfold token, handle_authorization_code, handle_refresh_token. acts_walk. Qed.

Lemma acts_decide n0 cookies form : acts n0 (decide_ state cookies form).
Proof. unfold decide_. acts_walk. by eapply acts_insert_auth_code. Qed.

Lemma acts_register n0 req : acts n0 (register state req).
Proof.
  unfold register, register_inner. apply all_acts_bind; [|intros; acts_walk].
  apply all_acts_attempt.
  destruct (bool_decide_reflect (rq_redirect_uris req = [])) as [|Hne]; [constructor|].
  acts_walk; by apply acts_insert_client.
Qed.

Lemma acts_serve n0 req : acts n0 (serve state req).
Proof.
  destruct req; cbn [serve]; try apply all_acts_ret.
  - unfold jwks. acts_walk.
  - unfold authorize, login_redirect. acts_walk.
  - apply acts_decide.
  - apply acts_register.
  - unfold limited_token. apply all_acts_bind.
    + apply all_acts_atomic. intros w _. destruct (rate_limit_token _ _ _). split; cbn; (done || lia).
    + intros o. destruct o; acts_walk. apply acts_token.
  - unfold introspect. acts_walk.
  - unfold revoke. acts_walk.
  - unfold require_bearer. acts_walk.
Qed.

(** C18. Whatever requests run, and however their actions interleave, the database
    moves only by steps of the abstract store. *)
Theorem server_refines_store reqs ps w w' :
  rtc pstep (serve state <$> reqs, w) (ps, w') →
  rtc (db_step (aw_tick w)) (aw_db w) (aw_db w').
Proof.
  intros Hsteps.
  apply (psteps_all_acts (started (aw_tick w)) (auth_steps (aw_tick w))
           (started_steps (aw_tick w)) (serve state <$> reqs, w) (ps, w')); [done| |].
  - apply Forall_fmap, Forall_forall. intros req _. apply acts_serve.
  - unfold started. cbn. lia.
Qed.
End handlers.
