(* ===== verification/AuthSafety.v ===== *)
(** * What the authorization server can never do

    Consequences of the abstract store: tables stay well formed, nothing is
    forgotten, consumption and revocation are final, and a code is exchanged
    at most once however requests interleave. *)

From S2P Require Import Prelude RustStr Json Proc Lifecycle Os RateLimit AuthStore Keyring AuthFlow AuthFacts AuthSystem.

Section safety.
Context `{JsonLib, Crypto, AuthEnv}.

(** ** Well-formed tables *)

Record auth_db_wf (db : AuthDb) : Prop := mk_auth_db_wf {
  wf_clients k r : adb_clients db !! k = Some r →
    ∃ c, row_to_client r = Ok c ∧ cl_client_id c = k ∧ cl_redirect_uris c ≠ [];
  wf_codes k r : adb_codes db !! k = Some r →
    ac_code_hash r = k ∧ (∀ t, ac_consumed_at r = Some t → (t < ac_expires_at r)%Z);
  wf_refresh k r : adb_refresh db !! k = Some r → rt_token_hash r = k ∧ rt_replaced_by r = None;
  wf_jtis k r : adb_jtis db !! k = Some r → at_jti r = k
}.

Lemma row_to_client_row `{!JsonLaws} r : row_to_client (client_row r) = Ok r.
Proof.
  unfold row_to_client, column_strings, client_row. cbn.
  rewrite strings_roundtrip. cbn. rewrite strings_roundtrip. by destruct r.
Qed.

Lemma db_step_wf `{!JsonLaws} n0 db db' : db_step n0 db db' → auth_db_wf db → auth_db_wf db'.
Proof.
  intros Hstep Hwf. destruct Hwf as [H1' H2' H3' H4'].
  destruct Hstep; split; cbn; try done; intros k x.
  - intros [[<- <-]|[_ Hx]]%lookup_insert_Some; [|eauto].
    exists r. by rewrite row_to_client_row.
  - intros [[<- <-]|[_ Hx]]%lookup_insert_Some; [|eauto]. split; [done|]. intros; congruence.
  - intros Hx. destruct (decide (k = h)) as [->|Hne].
    + rewrite lookup_alter_eq in Hx. apply fmap_Some in Hx as (y & Hy & ->).
      destruct (H2' _ _ Hy) as [? _]. simplify_eq. split; [done|]. by intros ? [= <-].
    + rewrite lookup_alter_ne in Hx by done. eauto.
  - intros [[<- <-]|[_ Hx]]%lookup_insert_Some; eauto.
  - intros Hx. destruct (decide (k = h)) as [->|Hne].
    + rewrite lookup_alter_eq in Hx. apply fmap_Some in Hx as (y & Hy & ->). exact (H3' _ _ Hy).
    + rewrite lookup_alter_ne in Hx by done. eauto.
  - intros [[<- <-]|[_ Hx]]%lookup_insert_Some; eauto.
  - intros Hx. destruct (decide (k = jti)) as [->|Hne].
    + rewrite lookup_alter_eq in Hx. apply fmap_Some in Hx as (y & Hy & ->). exact (H4' _ _ Hy).
    + rewrite lookup_alter_ne in Hx by done. eauto.
Qed.

Lemma auth_open_wf : auth_db_wf adb_open.
Proof. split; intros k r; cbn; by rewrite lookup_empty. Qed.

(** ** What is kept *)

(** A code may be consumed, once; nothing else of it changes. *)
Definition code_le (r r' : AuthCodeRecord) : Prop :=
  r' = r ∨ (ac_consumed_at r = None ∧ ∃ t, r' = consume_code t r).

Definition refresh_le (r r' : RefreshTokenRecord) : Prop := r' = r ∨ ∃ t, r' = revoke_refresh t r.

Record db_keeps (db db' : AuthDb) : Prop := mk_db_keeps {
  keeps_clients k r : adb_clients db !! k = Some r → adb_clients db' !! k = Some r;
  keeps_codes k r : adb_codes db !! k = Some r →
    ∃ r', adb_codes db' !! k = Some r' ∧ code_le r r';
  keeps_refresh k r : adb_refresh db !! k = Some r →
    ∃ r', adb_refresh db' !! k = Some r' ∧ refresh_le r r'
}.

Lemma revoke_refresh_twice t t' r : revoke_refresh t' (revoke_refresh t r) = revoke_refresh t r.
Proof. unfold revoke_refresh. cbn. by destruct (rt_revoked_at r). Qed.

Lemma code_le_trans r1 r2 r3 : code_le r1 r2 → code_le r2 r3 → code_le r1 r3.
Proof.
  intros [->|(Hn & t & ->)] [->|(Hn' & t' & ->)]; unfold code_le; eauto.
Qed.

Lemma refresh_le_trans r1 r2 r3 : refresh_le r1 r2 → refresh_le r2 r3 → refresh_le r1 r3.
Proof.
  intros [->|(t & ->)] [->|(t' & ->)]; unfold refresh_le; eauto.
  right. exists t. apply revoke_refresh_twice.
Qed.

#[export] Instance db_keeps_preorder : PreOrder db_keeps.
Proof.
  split.
  - intros db. split; intros k r Hr; [done|exists r; split; [done|by left]..].
  - intros d1 d2 d3 [A1 A2 A3] [B1 B2 B3]. split; intros k r Hr; [eauto|..].
    + apply A2 in Hr as (r2 & Hr2 & ?). apply B2 in Hr2 as (r3 & ? & ?).
      exists r3. split; [done|by eapply code_le_trans].
    + apply A3 in Hr as (r2 & Hr2 & ?). apply B3 in Hr2 as (r3 & ? & ?).
      exists r3. split; [done|by eapply refresh_le_trans].
Qed.

Lemma db_step_keeps n0 db db' : db_step n0 db db' → db_keeps db db'.
Proof.
  intros Hstep. destruct Hstep; split; cbn; intros k x Hx;
    try (by exists x; split; [|left]); try done.
  - by rewrite lookup_insert_ne by congruence.
  - exists x. split; [by rewrite lookup_insert_ne by congruence|by left].
  - destruct (decide (k = h)) as [->|Hne].
    + exists (consume_code t x). rewrite lookup_alter_eq, Hx. split; [done|]. right.
      simplify_eq. eauto.
    + exists x. rewrite lookup_alter_ne by done. split; [done|by left].
  - exists x. split; [by rewrite lookup_insert_ne by congruence|by left].
  - destruct (decide (k = h)) as [->|Hne].
    + exists (revoke_refresh t x). rewrite lookup_alter_eq, Hx. split; [done|]. right. eauto.
    + exists x. rewrite lookup_alter_ne by done. split; [done|by left].
Qed.

Lemma db_steps_keep n0 db db' : rtc (db_step n0) db db' → db_keeps db db'.
Proof. induction 1; [done|]. etrans; [by eapply db_step_keeps|done]. Qed.

(** A revoked access token is revived only by drawing its identifier again. *)
Definition jti_revoked (jti : string) (db : AuthDb) : Prop :=
  ∃ r t, adb_jtis db !! jti = Some r ∧ at_revoked_at r = Some t.

Lemma db_step_jti_revoked n0 jti db db' :
  ¬ drawn n0 jti → db_step n0 db db' → jti_revoked jti db → jti_revoked jti db'.
Proof.
  intros Hnd Hstep (r & t & Hr & Ht). destruct Hstep; unfold jti_revoked; cbn; eauto.
  - rewrite lookup_insert_ne by congruence. eauto.
  - destruct (decide (jti0 = jti)) as [->|Hne].
    + rewrite lookup_alter_eq, Hr. cbn. do 2 eexists. split; [done|]. cbn. by rewrite Ht.
    + rewrite lookup_alter_ne by done. eauto.
Qed.

(** ** Consumed codes *)

Definition code_consumed (h : string) (w : AuthWorld) : Prop :=
  ∃ r t, adb_codes (aw_db w) !! h = Some r ∧ ac_consumed_at r = Some t.

#[export] Instance code_consumed_dec h w : Decision (code_consumed h w).
Proof.
  destruct (adb_codes (aw_db w) !! h) as [r|] eqn:E; [destruct (ac_consumed_at r) as [t|] eqn:Et|].
  - left. by exists r, t.
  - right. intros (r' & t & ? & ?). congruence.
  - right. intros (r' & t & ? & ?). congruence.
Qed.

Lemma code_consumed_steps n0 h w w' :
  auth_steps n0 w w' → code_consumed h w → code_consumed h w'.
Proof.
  intros [Hs _] (r & t & Hr & Ht). apply db_steps_keep in Hs as [_ Hc _].
  destruct (Hc _ _ Hr) as (r' & Hr' & [->|(Hn & ? & ->)]); [by exists r, t|congruence].
Qed.

(** What [consume_auth_code] can answer. *)
Lemma consume_auth_code_outcome h now w :
  match run (consume_auth_code h now) w with
  | (Ok (Some r), w') =>
      adb_codes (aw_db w) !! h = Some r ∧ ac_consumed_at r = None ∧ (now < ac_expires_at r)%Z ∧
      aw_db w' = set_codes (alter (consume_code now) h (adb_codes (aw_db w))) (aw_db w)
  | (Ok None, w') => aw_db w' = aw_db w
  | (Err _, w') => aw_db w' = aw_db w
  | (Panic, _) => False
  end.
Proof.
  unfold consume_auth_code. rewrite run_atomic, M_bind_run.
  unfold sql_select, sql at 1. destruct (sql_fault (aw_tick w)); [done|].
  destruct (adb_codes (aw_db w) !! h) as [r|] eqn:E; cbn; [|done].
  destruct (ac_consumed_at r) eqn:Ec; [done|]. cbn.
  destruct (Z.leb_spec (ac_expires_at r) now); [done|]. cbn.
  rewrite M_bind_run. unfold sql_update, sql. cbn. by destruct (sql_fault (S (aw_tick w))).
Qed.
End safety.

(** ** Theorems about any interleaving of requests *)

Section server.
Context `{JsonLib, Crypto, AuthEnv, CfEnv, WebLib, BuildProfile, UrlDecode}.
Context (state : AuthState).

Lemma server_steps reqs ps w w' :
  rtc pstep (serve state <$> reqs, w) (ps, w') → auth_steps (aw_tick w) w w'.
Proof.
  intros Hsteps.
  apply (psteps_all_acts (started (aw_tick w)) (auth_steps (aw_tick w))
           (started_steps (aw_tick w)) (serve state <$> reqs, w) (ps, w')); [done| |].
  - apply Forall_fmap, Forall_forall. intros req _. apply acts_serve.
  - unfold started. cbn. lia.
Qed.

(** From an empty store on, the tables stay well formed: every row is under
    its own key, every client row reads back with a redirect URI, no code is
    consumed after it expired. *)
Theorem reachable_auth_db_wf `{!JsonLaws} reqs ps w w' :
  auth_db_wf (aw_db w) → rtc pstep (serve state <$> reqs, w) (ps, w') → auth_db_wf (aw_db w').
Proof.
  intros Hwf [Hs _]%server_steps. induction Hs; [done|]. eauto using db_step_wf.
Qed.

(** Nothing is forgotten: a registered client stays as it is, codes and
    refresh tokens are never deleted or altered, except that a code is
    consumed once and a refresh token revoked, and both are final. *)
Theorem auth_store_keeps reqs ps w w' :
  rtc pstep (serve state <$> reqs, w) (ps, w') → db_keeps (aw_db w) (aw_db w').
Proof. intros [Hs _]%server_steps. by eapply db_steps_keep. Qed.

(** A revoked access token stays revoked, unless the random source repeats its
    identifier. *)
Theorem revoked_jti_stays reqs ps w w' jti :
  (∀ n, (aw_tick w <= n)%nat → b64_encode (random_at n) ≠ jti) →
  jti_revoked jti (aw_db w) →
  rtc pstep (serve state <$> reqs, w) (ps, w') → jti_revoked jti (aw_db w').
Proof.
  intros Hfresh Hrev [Hs _]%server_steps.
  assert (¬ drawn (aw_tick w) jti) as Hnd by (intros (n & ? & ->); by eapply Hfresh).
  induction Hs; [done|]. eauto using db_step_jti_revoked.
Qed.

(** *** A code is exchanged at most once *)

Definition granted (r : Response) : Prop := resp_status r = 200%N.

(** The request exchanges the code with hash [h]. *)
Definition exchanges (h : string) (req : AuthRequest) : Prop :=
  match req with
  | PostToken body =>
      ∃ form code, parse_token_form body = inl form ∧ tf_grant_type form = "authorization_code" ∧
        tf_code form = Some code ∧ hash_token code = h
  | _ => False
  end.

Lemma contends_code_grant h form code :
  tf_code form = Some code → hash_token code = h →
  contends (code_consumed h) granted (handle_authorization_code state form).
Proof.
  intros Hcode Hh. unfold handle_authorization_code. rewrite Hcode.
  destruct (tf_client_id form) as [client_id|]; [|by apply contends_bad].
  destruct (tf_redirect_uri form) as [uri|]; [|by apply contends_bad].
  destruct (tf_code_verifier form) as [verifier|]; [|by apply contends_bad].
  apply contends_bind. intros [[client|]|e|]; try by apply contends_bad.
  apply contends_bind. intros now. rewrite Hh.
  pose proof (consume_auth_code_outcome h now) as Hout.
  unfold consume_auth_code in *.
  match goal with |- context [attempt (atomic ?m)] => set (consume := m) in * end.
  apply contends_take; intros w; specialize (Hout w); rewrite run_atomic in Hout;
    destruct (consume w) as [[[r|]|e|] w']; cbn; try done; try by (intros; apply contends_bad).
  - destruct Hout as (Hr & Hn & _). intros (r' & t & Hr' & Ht). congruence.
  - destruct Hout as (Hr & Hn & _ & Hdb). intros _ Hfree. destruct Hfree.
    exists (consume_code now r), now. rewrite Hdb. cbn. by rewrite lookup_alter_eq, Hr.
Qed.

Lemma contends_exchanges h req :
  exchanges h req → contends (code_consumed h) granted (serve state req).
Proof.
  destruct req as [| | | | | | |body| | |]; try done. cbn [exchanges serve].
  intros (form & code & Hform & Hgrant & Hcode & Hh). unfold limited_token.
  apply contends_atomic_bind. intros w o. unfold rate_limit_token.
  destruct (1024 * 16 <? str_len body)%N; cbn.
  { intros [= <-]. by apply contends_bad. }
  destruct (find_client_id _) as [id|]; cbn.
  - destruct (rate_check _ _ _) as [[] l]; cbn; intros [= <-]; [|by apply contends_bad].
    rewrite Hform. unfold token. rewrite Hgrant. by eapply contends_code_grant.
  - intros [= <-]. rewrite Hform. unfold token. rewrite Hgrant. by eapply contends_code_grant.
Qed.

(** C4. However the requests interleave, two requests for the same authorization
    code are never both answered with tokens. *)
Theorem code_exchanged_once reqs ps w w' h i j req1 req2 resp1 resp2 :
  rtc pstep (serve state <$> reqs, w) (ps, w') → i ≠ j →
  reqs !! i = Some req1 → reqs !! j = Some req2 → exchanges h req1 → exchanges h req2 →
  ps !! i = Some (Done (Ok resp1)) → ps !! j = Some (Done (Ok resp2)) →
  resp_status resp1 = 200%N → resp_status resp2 ≠ 200%N.
Proof.
  intros Hsteps Hij Hi Hj Hx1 Hx2 Hd1 Hd2 Hg1 Hg2.
  eapply (one_winner (code_consumed h) granted _ (serve state <$> reqs) ps w w' i j resp1 resp2);
    try done.
  - apply Forall_fmap, Forall_forall. intros req _.
    eapply all_acts_mono; [apply (acts_serve state 0)| |].
    + intros ? _. unfold started. lia.
    + intros ? ? ?. by eapply code_consumed_steps.
  - exists (serve state req1). rewrite list_lookup_fmap, Hi. split; [done|by apply contends_exchanges].
  - exists (serve state req2). rewrite list_lookup_fmap, Hj. split; [done|by apply contends_exchanges].
Qed.
End server.
