(* ===== verification/AuthGrants.v ===== *)
(** * What a grant guarantees

    The handlers run alone: what must have held for tokens to be issued, what
    the database holds afterwards, that an issued access token is accepted by
    the bearer check until it expires or is revoked, that a refresh token is
    good for one use, and how a client gets registered. *)

From S2P Require Import Prelude RustStr Json Proc Lifecycle Os RateLimit AuthStore Keyring AuthFlow AuthFacts AuthSystem AuthSafety.

Section grants.
Context `{JsonLib, Crypto, AuthEnv, CfEnv, WebLib, BuildProfile, UrlDecode}.
Context (state : AuthState).

(** ** Store calls run alone *)

Lemma run_now w : run auth_now w = (Ok (clock_at (aw_tick w)), aw_next w).
Proof. done. Qed.

Lemma run_draw w : run new_opaque_token w = (Ok (b64_encode (random_at (aw_tick w))), aw_next w).
Proof. done. Qed.

Lemma set_db_id w : aw_set_db (aw_db w) w = w.
Proof. by destruct w. Qed.

Lemma run_select {A B} (table : AuthDb → gmap string A) k (f : A → res B) w :
  run (atomic (sql_select table k f)) w =
  (match sql_fault (aw_tick w) with
   | Some e => Err e
   | None => match table (aw_db w) !! k with Some r => Some <$> f r | None => Ok None end
   end, aw_next w).
Proof.
  rewrite run_atomic. unfold sql_select, sql. destruct (sql_fault _); [done|].
  by rewrite set_db_id.
Qed.

Lemma run_update {A} (table : AuthDb → gmap string A) set k f w :
  sql_fault (aw_tick w) = None →
  run (atomic (sql_update table set k f)) w =
  (Ok (), aw_next (aw_set_db (set (alter f k (table (aw_db w))) (aw_db w)) w)).
Proof. intros Hf. rewrite run_atomic. unfold sql_update, sql. by rewrite Hf. Qed.

Lemma run_jti_is_active jti now w :
  run (jti_is_active jti now) w =
  (match sql_fault (aw_tick w) with
   | Some e => Err e
   | None => Ok (jti_active (adb_jtis (aw_db w) !! jti) now)
   end, aw_next w).
Proof.
  unfold jti_is_active. rewrite run_atomic, M_bind_run.
  rewrite <- (run_atomic (sql_select adb_jtis jti Ok)), run_select.
  destruct (sql_fault _); [done|]. by destruct (_ !! jti).
Qed.

(** ** Issuing *)

Definition refresh_record (client_id subject scope opaque : string) (exp : i64) : RefreshTokenRecord :=
  mkRefreshTokenRecord (hash_token opaque) client_id subject scope exp None None.

(** Everything an issue does: the claims are signed, the token identifier and
    the hash of the refresh token are recorded. *)
Definition issued (client_id subject scope : string) (w : AuthWorld) (access refresh : string)
    (w' : AuthWorld) : Prop :=
  let now_ts := clock_at (aw_tick w) in
  let jti := b64_encode (random_at (S (aw_tick w))) in
  ∃ exp refresh_exp,
    i64_add now_ts (u64_as_i64 (access_ttl (st_config state))) = Ok exp ∧
    keyring_sign (st_keyring state)
      (b64_encode (value_text (VObject (access_claims state client_id subject scope jti now_ts exp))))
      = Ok access ∧
    refresh = b64_encode (random_at (3 + aw_tick w)) ∧
    adb_refresh (aw_db w) !! hash_token refresh = None ∧
    i64_add now_ts REFRESH_TTL_SECS = Ok refresh_exp ∧
    aw_db w' = set_refresh
      (<[hash_token refresh := refresh_record client_id subject scope refresh refresh_exp]>
         (adb_refresh (aw_db w)))
      (set_jtis (<[jti := mkAccessTokenJtiRecord jti client_id subject exp None]>
                   (adb_jtis (aw_db w))) (aw_db w)) ∧
    aw_tick w' = (5 + aw_tick w)%nat.

Lemma issue_tokens_issued c s sc w access refresh w' :
  run (issue_tokens state c s sc) w = (Ok (access, refresh), w') →
  issued c s sc w access refresh w'.
Proof.
  unfold issue_tokens, issued. intros E.
  rewrite run_bind, run_now, run_bind, run_draw, run_bind, run_lift in E. cbn [aw_tick aw_next] in E.
  destruct (i64_add _ _) as [exp|e|] eqn:Eexp; [|done..].
  rewrite run_bind, run_lift in E. destruct (keyring_sign _ _) as [acc|e|] eqn:Esign; [|done..].
  rewrite run_bind in E. unfold insert_access_jti at 1 in E. rewrite run_atomic in E. unfold sql in E.
  cbn [aw_tick aw_next] in E. destruct (sql_fault _); [done|]. cbn [aw_db aw_set_db aw_next] in E.
  rewrite run_bind, run_draw, run_bind, run_lift in E. cbn [aw_tick aw_next aw_set_db] in E.
  destruct (i64_add (clock_at (aw_tick w)) REFRESH_TTL_SECS) as [rexp|e|] eqn:Erexp; [|done..].
  rewrite run_bind in E. unfold insert_refresh_token at 1 in E. rewrite run_atomic in E.
  unfold sql_insert, sql in E. cbn [aw_tick aw_next aw_set_db aw_db rt_token_hash] in E.
  destruct (sql_fault _); [done|]. cbn [adb_refresh set_jtis] in E.
  destruct (adb_refresh (aw_db w) !! _) eqn:Enew; [done|].
  cbn in E. injection E as <- <- <-.
  exists exp, rexp. by split_and!.
Qed.

Definition token_response (scope access refresh : string) : Response :=
  mkResponse 200 (BToken (mkTokenResponse access "Bearer"
    (u64_as_i64 (access_ttl (st_config state))) refresh scope)).

Lemma grant_granted c s sc w resp w' :
  run (grant state c s sc) w = (Ok resp, w') → resp_status resp = 200%N →
  ∃ access refresh, resp = token_response sc access refresh ∧ issued c s sc w access refresh w'.
Proof.
  unfold grant. rewrite run_bind, run_attempt. intros E Hs.
  destruct (run (issue_tokens _ _ _ _) w) as [[[acc ref]|e|] w1] eqn:Ei; cbn in E; [|by simplify_eq..].
  injection E as <- <-. exists acc, ref. split; [done|]. by apply issue_tokens_issued.
Qed.

(** ** The authorization-code grant *)

Lemma get_client_Ok id w c w' :
  run (get_client id) w = (Ok (Some c), w') →
  w' = aw_next w ∧ ∃ r, adb_clients (aw_db w) !! id = Some r ∧ row_to_client r = Ok c.
Proof.
  unfold get_client. rewrite run_select. destruct (sql_fault _); [done|].
  destruct (adb_clients _ !! id) as [r|] eqn:E; [|done].
  destruct (row_to_client r) eqn:Er; cbn; [|done..]. intros [= <- <-]. eauto.
Qed.

(** C21. Tokens are issued for a code only if the client is known, the code was
    issued to it for this redirect URI, was not used, expires after the clock
    that the request read once the client was found, and the verifier hashes to
    its S256 challenge; the code is marked as used at that time, and the tokens
    are recorded for the client, the subject and the scope of the code. *)
Theorem code_grant_sound form w resp w' :
  run (handle_authorization_code state form) w = (Ok resp, w') → resp_status resp = 200%N →
  let now := clock_at (S (aw_tick w)) in
  ∃ code client_id verifier client row r access refresh w1,
    tf_code form = Some code ∧ tf_client_id form = Some client_id ∧
    adb_clients (aw_db w) !! client_id = Some row ∧ row_to_client row = Ok client ∧
    adb_codes (aw_db w) !! hash_token code = Some r ∧
    ac_consumed_at r = None ∧ (now < ac_expires_at r)%Z ∧
    ac_client_id r = cl_client_id client ∧ tf_redirect_uri form = Some (ac_redirect_uri r) ∧
    tf_code_verifier form = Some verifier ∧
    ac_code_challenge r = Some (b64_encode (sha256 verifier)) ∧
    ac_code_challenge_method r = Some "S256" ∧
    aw_db w1 = set_codes (alter (consume_code now) (hash_token code) (adb_codes (aw_db w))) (aw_db w) ∧
    resp = token_response (ac_scope r) access refresh ∧
    issued (cl_client_id client) (ac_subject r) (ac_scope r) w1 access refresh w'.
Proof.
  unfold handle_authorization_code. intros E Hs. cbn zeta.
  destruct (tf_code form) as [code|]; [|by simplify_eq/=].
  destruct (tf_client_id form) as [client_id|]; [|by simplify_eq/=].
  destruct (tf_redirect_uri form) as [uri|]; [|by simplify_eq/=].
  destruct (tf_code_verifier form) as [verifier|]; [|by simplify_eq/=].
  rewrite run_bind, run_attempt in E.
  destruct (run (get_client client_id) w) as [[[client|]|e|] w2] eqn:Ec; try by simplify_eq/=.
  apply get_client_Ok in Ec as (-> & row & Hrow & Hclient).
  rewrite run_bind, run_now, run_bind, run_attempt in E. cbn [aw_tick aw_next] in E.
  pose proof (consume_auth_code_outcome (hash_token code) (clock_at (S (aw_tick w)))
                (aw_next (aw_next w))) as Hout.
  destruct (run (consume_auth_code _ _) _) as [[[r|]|e|] w1]; try by simplify_eq/=.
  destruct Hout as (Hr & Hn & Ht & Hdb).
  destruct (String.eqb_spec (ac_client_id r) (cl_client_id client)) as [Hcl|]; [|by simplify_eq/=].
  destruct (String.eqb_spec (ac_redirect_uri r) uri) as [<-|]; [|by simplify_eq/=].
  destruct (ac_code_challenge r) as [challenge|] eqn:Hch; [|by simplify_eq/=].
  cbn [negb orb] in E.
  destruct (bool_decide_reflect (ac_code_challenge_method r = Some "S256")) as [Hm|]; [|by simplify_eq/=].
  cbn [negb] in E.
  destruct (constant_time_eq (b64_encode (sha256 verifier)) challenge) eqn:Hct; [|by simplify_eq/=].
  apply constant_time_eq_true in Hct as <-. cbn [negb] in E.
  apply grant_granted in E as (access & refresh & -> & Hi); [|done].
  exists code, client_id, verifier, client, row, r, access, refresh, w1.
  by split_and!.
Qed.

(** A wrong verifier or redirect URI uses the code up all the same. *)
Theorem failed_exchange_burns_code form w resp w' code r client_id row client uri verifier :
  tf_code form = Some code → tf_client_id form = Some client_id →
  tf_redirect_uri form = Some uri → tf_code_verifier form = Some verifier →
  (∀ n, sql_fault n = None) →
  adb_clients (aw_db w) !! client_id = Some row → row_to_client row = Ok client →
  adb_codes (aw_db w) !! hash_token code = Some r → ac_consumed_at r = None →
  (clock_at (S (aw_tick w)) < ac_expires_at r)%Z → ac_redirect_uri r ≠ uri →
  run (handle_authorization_code state form) w = (Ok resp, w') →
  resp_status resp = 400%N ∧ code_consumed (hash_token code) w'.
Proof.
  intros Hc Hi Hu Hv Hf Hrow Hclient Hr Hn Ht Hne. unfold handle_authorization_code.
  rewrite Hc, Hi, Hu, Hv, run_bind, run_attempt. unfold get_client at 1.
  rewrite run_select, Hf, Hrow, Hclient. cbn [fmap res_fmap].
  rewrite run_bind, run_now, run_bind, run_attempt. cbn [aw_tick aw_next].
  unfold consume_auth_code at 1. rewrite run_atomic, M_bind_run.
  rewrite <- (run_atomic (sql_select adb_codes _ Ok)), run_select, Hf. cbn [aw_db aw_next aw_tick].
  rewrite Hr. cbn [fmap res_fmap]. rewrite Hn.
  rewrite (proj2 (Z.leb_gt _ _) Ht). cbn [orb]. rewrite M_bind_run. unfold sql_update, sql. rewrite Hf.
  cbn [mret M_ret]. destruct (String.eqb_spec (ac_redirect_uri r) uri); [done|].
  rewrite orb_true_r. intros [= <- <-]. split; [done|].
  eexists _, _. cbn. rewrite lookup_alter_eq, Hr. by split.
Qed.

(** ** The refresh-token grant *)

Lemma get_refresh_Ok h w r w' :
  run (get_refresh_token h) w = (Ok (Some r), w') →
  w' = aw_next w ∧ adb_refresh (aw_db w) !! h = Some r.
Proof.
  unfold get_refresh_token. rewrite run_select. destruct (sql_fault _); [done|].
  destruct (adb_refresh _ !! h); [|done]. by intros [= <- <-].
Qed.

Lemma run_revoke_refresh h t w :
  sql_fault (aw_tick w) = None →
  run (revoke_refresh_token h t) w =
  (Ok (), aw_next (aw_set_db (set_refresh (alter (revoke_refresh t) h (adb_refresh (aw_db w))) (aw_db w)) w)).
Proof. apply run_update. Qed.

(** Tokens are issued for a refresh token only if it belongs to the client, is
    not revoked and not expired; it is revoked and a new one recorded with the
    same subject and scope. *)
Theorem refresh_grant_sound form w resp w' :
  (∀ n, sql_fault n = None) →
  run (handle_refresh_token state form) w = (Ok resp, w') → resp_status resp = 200%N →
  ∃ opaque client_id row client r t access refresh w1,
    tf_refresh_token form = Some opaque ∧ tf_client_id form = Some client_id ∧
    adb_clients (aw_db w) !! client_id = Some row ∧ row_to_client row = Ok client ∧
    adb_refresh (aw_db w) !! hash_token opaque = Some r ∧ rt_revoked_at r = None ∧
    rt_client_id r = cl_client_id client ∧ (t < rt_expires_at r)%Z ∧
    (∃ t', aw_db w1 = set_refresh (alter (revoke_refresh t') (hash_token opaque) (adb_refresh (aw_db w)))
                        (aw_db w)) ∧
    resp = token_response (rt_scope r) access refresh ∧
    issued (cl_client_id client) (rt_subject r) (rt_scope r) w1 access refresh w'.
Proof.
  intros Hf. unfold handle_refresh_token. intros E Hs.
  destruct (tf_refresh_token form) as [opaque|]; [|by simplify_eq/=].
  destruct (tf_client_id form) as [client_id|]; [|by simplify_eq/=].
  rewrite run_bind, run_attempt in E.
  destruct (run (get_client client_id) w) as [[[client|]|e|] w2] eqn:Ec; try by simplify_eq/=.
  apply get_client_Ok in Ec as (-> & row & Hrow & Hclient).
  rewrite run_bind, run_attempt in E.
  destruct (run (get_refresh_token _) _) as [[[r|]|e|] w2] eqn:Er; try by simplify_eq/=.
  apply get_refresh_Ok in Er as (-> & Hr).
  destruct (String.eqb_spec (rt_client_id r) (cl_client_id client)) as [Hcl|]; [|by simplify_eq/=].
  destruct (rt_revoked_at r) eqn:Hrev; [by simplify_eq/=|]. cbn [negb] in E.
  rewrite run_bind, run_now in E. cbn [aw_tick aw_next] in E.
  destruct (Z.leb_spec (rt_expires_at r) (clock_at (S (S (aw_tick w))))) as [|Hexp]; [by simplify_eq/=|].
  rewrite run_bind, run_now, run_bind, run_attempt, run_revoke_refresh in E by done.
  apply grant_granted in E as (access & refresh & -> & Hi); [|done].
  do 9 eexists. split_and!; [done..|exact Hexp| |done|exact Hi]. by eexists.
Qed.

(** A refresh token is good for one use: after it was exchanged, presenting it
    again is refused. *)
Theorem refresh_rotation form w resp w' resp' w'' :
  (∀ n, sql_fault n = None) →
  run (handle_refresh_token state form) w = (Ok resp, w') → resp_status resp = 200%N →
  run (handle_refresh_token state form) w' = (Ok resp', w'') →
  resp' = token_error_response 400 "invalid_grant" "refresh_token has been revoked".
Proof.
  intros Hf E Hs. apply refresh_grant_sound in E; [|done..].
  destruct E as (opaque & client_id & row & client & r & t & access & refresh & w1 & Hop & Hid & Hrow &
    Hclient & Hr & Hrev & Hcl & _ & (t' & Hw1) & _ & Hi).
  destruct Hi as (exp & rexp & _ & _ & Href & Hnew & _ & Hw' & _).
  rewrite Hw1 in Hnew, Hw'. cbn in Hnew, Hw'.
  unfold handle_refresh_token. rewrite Hop, Hid, run_bind, run_attempt.
  unfold get_client at 1. rewrite run_select, Hf, Hw'. cbn [adb_clients set_refresh set_jtis].
  rewrite Hrow, Hclient. cbn [fmap res_fmap]. rewrite run_bind, run_attempt.
  unfold get_refresh_token at 1. rewrite run_select, Hf. cbn [aw_db aw_next].
  rewrite Hw'. cbn [adb_refresh set_refresh].
  rewrite lookup_insert_ne by (intros Heq; rewrite Heq, lookup_alter_eq, Hr in Hnew; discriminate).
  rewrite lookup_alter_eq, Hr. cbn [fmap res_fmap option_fmap option_map].
  cbn [rt_client_id revoke_refresh rt_revoked_at]. rewrite Hcl, str_eqb_refl, Hrev. cbn.
  by intros [= <- <-].
Qed.

(** ** The bearer check *)

Lemma bearer_token_prefix h t :
  header_to_str h = Some ("Bearer " +:+ t) → bearer_token (Some h) = Some t.
Proof.
  intros Hh. unfold bearer_token. cbn [mbind option_bind]. rewrite Hh. cbn [mbind option_bind].
  apply strip_prefix_app.
Qed.

(** When the bearer check lets a request through. *)
Lemma bearer_forward_iff path authorization w w' :
  path ≠ "/healthz" → (∀ n, sql_fault n = None) →
  run (require_bearer state path authorization) w = (Ok forwarded, w') ↔
  ∃ token claims jti,
    bearer_token authorization = Some token ∧
    keyring_verify (st_keyring state) token (clock_at (aw_tick w)) = Ok (Some claims) ∧
    value_get claims "jti" = Some (VString jti) ∧
    jti_active (adb_jtis (aw_db w) !! jti) (clock_at (S (aw_tick w))) = true ∧
    w' = aw_next (aw_next (aw_next w)).
Proof.
  intros Hp Hf. unfold require_bearer. destruct (String.eqb_spec path "/healthz"); [done|].
  destruct (bearer_token authorization) as [token|];
    [|by split; [discriminate|intros (? & ? & ? & ? & _)]].
  rewrite run_bind, run_now, run_bind, run_attempt, run_lift.
  destruct (keyring_verify _ _ _) as [[claims|]|e|] eqn:Ev; cbn [aw_next];
    [|split; [discriminate|intros (? & ? & ? & ? & ? & _); congruence]..].
  destruct (value_get claims "jti" ≫= as_str) as [jti|] eqn:Ej.
  2:{ split; [done|]. intros (? & ? & ? & ? & ? & Hj & _). simplify_eq.
      apply as_str_get in Hj. congruence. }
  apply as_str_get in Ej.
  rewrite run_bind, run_now, run_bind, run_attempt, run_jti_is_active, Hf. cbn [aw_db aw_next aw_tick].
  destruct (jti_active _ _) eqn:Ea.
  - split; [intros [= <-]; eauto 10|]. by intros (? & ? & ? & ? & ? & ? & ? & ->).
  - split; [done|]. intros (? & ? & ? & ? & ? & ? & ? & ->). simplify_eq. congruence.
Qed.

(** Introspection and the bearer check agree: started in the same world, one
    reports the token active exactly when the other lets it through. *)
Theorem introspect_agrees_bearer path form w :
  path ≠ "/healthz" → header_to_str ("Bearer " +:+ if_token form) = Some ("Bearer " +:+ if_token form) →
  (fst (run (require_bearer state path (Some ("Bearer " +:+ if_token form))) w) = Ok forwarded ↔
   ∃ claims jti, fst (run (introspect state form) w) = Ok (mkResponse 200 (BJson (active_body claims jti)))).
Proof.
  intros Hp Hh. unfold require_bearer, introspect.
  destruct (String.eqb_spec path "/healthz"); [done|]. rewrite (bearer_token_prefix _ _ Hh).
  rewrite !run_bind, !run_now, !run_bind, !run_attempt, !run_lift.
  assert (∀ r : Response, r ≠ forwarded →
    (Ok r = Ok forwarded ↔ ∃ claims jti, Ok inactive = Ok (mkResponse 200 (BJson (active_body claims jti)))))
    as Hno.
  { intros r Hr. split; [congruence|]. by intros (c & j & [=]). }
  destruct (keyring_verify _ _ _) as [[claims|]|e|]; cbn [fst run mret Proc_ret plift];
    [|by apply Hno..|by split; [|intros (? & ? & ?)]].
  destruct (value_get claims "jti" ≫= as_str) as [jti|]; [|by apply Hno].
  rewrite !run_bind, !run_now, !run_bind, !run_attempt, run_jti_is_active.
  destruct (sql_fault _); [by apply Hno|].
  destruct (jti_active _ _); [|by apply Hno]. cbn. split; eauto.
Qed.

(** ** Issued tokens are accepted *)



(** The key ring of this server: loaded for its issuer and resource, with a key
    that reads. *)
Definition ring_ok : Prop :=
  ∃ key, kr_active (st_keyring state) = Some key ∧ usable_key key ∧
    kr_issuer (st_keyring state) = issuer (st_config state) ∧
    kr_audience (st_keyring state) = resource_indicator (st_config state).



(** ** Revocation *)

Lemma verify_claims_unique k t now now' claims claims' :
  keyring_verify k t now = Ok (Some claims) → keyring_verify k t now' = Ok (Some claims') →
  claims' = claims.
Proof.
  unfold keyring_verify, keyring_active. destruct (kr_active k) as [key|]; cbn; [|done].
  intros (h & p & g & ? & ? & ? & ? & Hs & _ & _ & _ & (b & Hb & Hv) & _)%verify_jwt_accepted
    (h' & p' & g' & ? & ? & ? & ? & Hs' & _ & _ & _ & (b' & Hb' & Hv') & _)%verify_jwt_accepted.
  congruence.
Qed.

Lemma revoke_revokes form w resp w' claims jti row :
  (∀ n, sql_fault n = None) →
  keyring_verify (st_keyring state) (rf_token form) (clock_at (2 + aw_tick w)) = Ok (Some claims) →
  value_get claims "jti" = Some (VString jti) → adb_jtis (aw_db w) !! jti = Some row →
  run (revoke state form) w = (Ok resp, w') → jti_revoked jti (aw_db w').
Proof.
  intros Hf Hv Hj Hrow. change (2 + aw_tick w)%nat with (S (S (aw_tick w))) in Hv. unfold revoke.
  rewrite run_bind, run_now, run_bind, run_attempt, run_revoke_refresh by done.
  rewrite run_bind, run_now, run_bind, run_attempt, run_lift. cbn [aw_tick aw_next aw_set_db].
  rewrite Hv, run_bind.
  assert (value_get claims "jti" ≫= as_str = Some jti) as -> by by apply as_str_get.
  rewrite run_bind, run_now, run_bind, run_attempt. unfold revoke_jti at 1.
  rewrite run_update by done. cbn. intros [= _ <-]. unfold jti_revoked. cbn.
  rewrite lookup_alter_eq, Hrow. cbn.
  destruct (at_revoked_at row) eqn:E; do 2 eexists; (split; [done|]); cbn; by rewrite E.
Qed.

(** A token that was revoked is never let through again, whatever requests are
    served in between. *)
Theorem revoked_token_refused form w resp w1 reqs ps w2 claims jti row path h :
  (∀ n, sql_fault n = None) →
  keyring_verify (st_keyring state) (rf_token form) (clock_at (2 + aw_tick w)) = Ok (Some claims) →
  value_get claims "jti" = Some (VString jti) → adb_jtis (aw_db w) !! jti = Some row →
  run (serve state (PostRevoke form)) w = (Ok resp, w1) →
  (∀ n, (aw_tick w1 <= n)%nat → b64_encode (random_at n) ≠ jti) →
  rtc pstep (serve state <$> reqs, w1) (ps, w2) →
  header_to_str h = Some ("Bearer " +:+ rf_token form) → path ≠ "/healthz" →
  fst (run (require_bearer state path (Some h)) w2) ≠ Ok forwarded.
Proof.
  intros Hf Hv Hj Hrow Hrev Hfresh Hsteps Hh Hp.
  apply (revoke_revokes form w resp w1 claims jti row) in Hrev; [|done..].
  assert (jti_revoked jti (aw_db w2)) as (r & t & Hr & Ht).
  { apply server_steps in Hsteps as [Hs _].
    assert (¬ drawn (aw_tick w1) jti) as Hnd by (intros (n & ? & ->); by eapply Hfresh).
    induction Hs; [done|]. eauto using db_step_jti_revoked. }
  unfold require_bearer. destruct (String.eqb_spec path "/healthz"); [done|].
  rewrite (bearer_token_prefix _ _ Hh), run_bind, run_now, run_bind, run_attempt, run_lift.
  destruct (keyring_verify (st_keyring state) (rf_token form) (clock_at (aw_tick w2)))
    as [[claims'|]|e|] eqn:Hv'; [|done..].
  rewrite (verify_claims_unique _ _ _ _ _ _ Hv Hv').
  assert (value_get claims "jti" ≫= as_str = Some jti) as -> by by apply as_str_get.
  rewrite run_bind, run_now, run_bind, run_attempt, run_jti_is_active, Hf.
  cbn [aw_db aw_next aw_tick]. rewrite Hr. cbn. by rewrite Ht.
Qed.

(** ** Consent *)

(** Denying redirects to the URI of the form, whatever it is: the client and
    its registered URIs are not looked at. *)
Theorem deny_redirects_unchecked cookies form w token claims w1 u :
  extract_cf_cookie cookies = Some token →
  run (cf_verify (st_cf state) token) w = (Ok (Some claims), w1) →
  df_decision form ≠ "allow" → url_parse (df_redirect_uri form) = Some u →
  run (decide_ state cookies form) w =
  (Ok (redirect_to (url_as_str (append_some "state" (df_state form)
        (append_pair (append_pair u "error" "access_denied") "iss" (issuer (st_config state)))))), w1).
Proof.
  intros Hc Hv Hd Hu. unfold decide_. rewrite Hc, run_bind, run_attempt, Hv.
  destruct (String.eqb_spec (df_decision form) "allow"); [done|]. cbn.
  unfold back_to_client, url_or_localhost. by rewrite Hu.
Qed.

(** ** Access to the MCP service *)

(** A request below [/mcp] reaches the MCP service exactly with a verified
    access token whose identifier is recorded, not revoked and not expired, or
    without any token if the rest of its path is [/healthz]: the bearer check
    exempts that path, but inside [/mcp] it sees paths without the prefix. *)
Theorem mcp_access_iff path inner authorization w :
  (∀ n, sql_fault n = None) → nested_path "/mcp" path = Some inner →
  fst (run (serve state (Mcp path authorization)) w) = Ok forwarded ↔
  inner = "/healthz" ∨
  ∃ token claims jti,
    bearer_token authorization = Some token ∧
    keyring_verify (st_keyring state) token (clock_at (aw_tick w)) = Ok (Some claims) ∧
    value_get claims "jti" = Some (VString jti) ∧
    jti_active (adb_jtis (aw_db w) !! jti) (clock_at (S (aw_tick w))) = true.
Proof.
  intros Hf Hpath. cbn [serve]. rewrite Hpath.
  destruct (decide (inner = "/healthz")) as [->|Hne]; [by split; [left|]|].
  pose proof (λ w', bearer_forward_iff inner authorization w w' Hne Hf) as Hiff. split.
  - intros E. right. destruct (run _ w) as [r w']. cbn in E. subst r.
    destruct (proj1 (Hiff w') eq_refl) as (token & claims & jti & ? & ? & ? & ? & _). eauto 8.
  - intros [?|(token & claims & jti & H6 & H7 & H8 & H9)]; [done|].
    by rewrite (proj2 (Hiff _) (ex_intro _ token (ex_intro _ claims (ex_intro _ jti
      (conj H6 (conj H7 (conj H8 (conj H9 eq_refl)))))))).
Qed.

(** ** Registration *)

Lemma check_redirect_uris_Ok uris :
  check_redirect_uris uris = Ok () ↔
  Forall (λ uri, ∃ u, url_parse uri = Some u ∧ (url_scheme u = "https" ∨ url_scheme u = "http")) uris.
Proof.
  induction uris as [|uri uris IH]; cbn; [by split|]. rewrite Forall_cons.
  rewrite <- IH. destruct (url_parse uri) as [u|]; cbn; [|by split; [|intros [(? & ? & _) _]]].
  destruct (String.eqb_spec (url_scheme u) "https"), (String.eqb_spec (url_scheme u) "http"); cbn;
    (split; [intros Hc; by eauto 6|intros [(? & [= <-] & [?|?]) ?]; done]).
Qed.

Lemma check_grant_types_Ok grants :
  check_grant_types grants = Ok () ↔
  Forall (λ g, g = "authorization_code" ∨ g = "refresh_token") grants.
Proof.
  induction grants as [|g grants IH]; cbn; [by split|]. rewrite Forall_cons, <- IH.
  destruct (String.eqb_spec g "authorization_code"), (String.eqb_spec g "refresh_token"); cbn;
    (split; [intros Hc; by eauto|intros [[?|?] ?]; done]).
Qed.

(** The client id a registration gets: the one it asks for, or a fresh one. *)
Definition chosen_id (req : ClientRegistrationRequest) (w : AuthWorld) : string :=
  match rq_client_id req with
  | Some id => id
  | None => "chatcodex-" +:+ b64_encode (random_at (aw_tick w))
  end.

Definition registrable (req : ClientRegistrationRequest) : Prop :=
  rq_redirect_uris req ≠ [] ∧
  Forall (λ uri, ∃ u, url_parse uri = Some u ∧ (url_scheme u = "https" ∨ url_scheme u = "http"))
    (rq_redirect_uris req) ∧
  Forall (λ g, g = "authorization_code" ∨ g = "refresh_token")
    (default default_grant_types (rq_grant_types req)) ∧
  ((rq_token_endpoint_auth_method req = "none" ∧ rq_client_secret req = None) ∨
   (rq_token_endpoint_auth_method req = "client_secret_post" ∧
    allow_client_credentials (st_config state) = true ∧
    ∃ secret, rq_client_secret req = Some secret ∧ (16 <= str_len secret)%N)).

Lemma check_auth_method_Ok req :
  (∃ p, check_auth_method state req = Ok p) ↔
  ((rq_token_endpoint_auth_method req = "none" ∧ rq_client_secret req = None) ∨
   (rq_token_endpoint_auth_method req = "client_secret_post" ∧
    allow_client_credentials (st_config state) = true ∧
    ∃ secret, rq_client_secret req = Some secret ∧ (16 <= str_len secret)%N)).
Proof.
  unfold check_auth_method.
  destruct (String.eqb_spec (rq_token_endpoint_auth_method req) "none") as [->|Hn].
  { destruct (rq_client_secret req); cbn; split.
    - by intros [? ?].
    - by intros [[_ ?]|[? _]].
    - by left.
    - eauto. }
  destruct (String.eqb_spec (rq_token_endpoint_auth_method req) "client_secret_post") as [->|Hp].
  - destruct (allow_client_credentials _); cbn.
    + destruct (rq_client_secret req) as [secret|]; cbn.
      * destruct (N.leb_spec 16 (str_len secret)); cbn; split.
        -- intros _. right. eauto.
        -- eauto.
        -- by intros [? ?].
        -- intros [[? _]|(_ & _ & ? & [= <-] & ?)]; [done|lia].
      * split; [by intros [? ?]|]. by intros [[? _]|(_ & _ & ? & ? & _)].
    + split; [by intros [? ?]|]. by intros [[? _]|(_ & ? & _)].
  - split; [by intros [? ?]|]. by intros [[? _]|(? & _)].
Qed.

Definition registered (req : ClientRegistrationRequest) (w : AuthWorld) (secret_hash : option string)
    (now_ts : i64) : ClientRecord :=
  mkClientRecord (chosen_id req w) secret_hash (rq_client_name req) (rq_redirect_uris req)
    (default default_grant_types (rq_grant_types req)) (rq_token_endpoint_auth_method req) now_ts None.

(** The end of [register_inner], once the metadata are accepted. *)
Lemma run_register_end {A} req w secret_hash (resp : string → i64 → A) :
  (∀ n, sql_fault n = None) →
  ∃ now_ts w',
    run (client_id ← match rq_client_id req with
                     | Some id => mret id
                     | None => opaque ← new_opaque_token; mret ("chatcodex-" +:+ opaque)
                     end;
         now_ts ← auth_now;
         _ ← insert_client (mkClientRecord client_id secret_hash (rq_client_name req)
               (rq_redirect_uris req) (default default_grant_types (rq_grant_types req))
               (rq_token_endpoint_auth_method req) now_ts None);
         mret (resp client_id now_ts)) w =
    (match adb_clients (aw_db w) !! chosen_id req w with
     | Some _ => Err key_text
     | None => Ok (resp (chosen_id req w) now_ts)
     end, w') ∧
    aw_db w' =
    match adb_clients (aw_db w) !! chosen_id req w with
    | Some _ => aw_db w
    | None => set_clients (<[chosen_id req w := client_row (registered req w secret_hash now_ts)]>
                 (adb_clients (aw_db w))) (aw_db w)
    end.
Proof.
  intros Hf. unfold chosen_id, registered, chosen_id.
  destruct (rq_client_id req) as [id|].
  - exists (clock_at (aw_tick w)). rewrite run_bind, run_ret, run_bind, run_now, run_bind.
    unfold insert_client. rewrite run_atomic. unfold sql_insert, sql. rewrite Hf.
    cbn [aw_db aw_next aw_set_db cl_client_id].
    destruct (adb_clients (aw_db w) !! id); cbn; by eexists.
  - exists (clock_at (S (aw_tick w))).
    rewrite run_bind, run_bind, run_draw, run_ret, run_bind, run_now, run_bind.
    unfold insert_client. rewrite run_atomic. unfold sql_insert, sql. rewrite Hf.
    cbn [aw_db aw_next aw_set_db cl_client_id].
    destruct (adb_clients (aw_db w) !! _); cbn; by eexists.
Qed.

(** The checks of a request, in the order of the code. *)
Definition registration_checks (req : ClientRegistrationRequest) : res (option string * option string) :=
  _ ← ensure (negb (bool_decide (rq_redirect_uris req = []))) "redirect_uris must not be empty";
  _ ← check_redirect_uris (rq_redirect_uris req);
  secrets ← check_auth_method state req;
  _ ← check_grant_types (default default_grant_types (rq_grant_types req));
  mret secrets.

Definition no_panic {A} (r : res A) : Prop := r ≠ Panic.

Lemma no_panic_bind {A B} (r : res A) (f : A → res B) :
  no_panic r → (∀ a, no_panic (f a)) → no_panic (r ≫= f).
Proof. destruct r; cbn; [auto|done..]. Qed.

Lemma checks_no_panic req : no_panic (registration_checks req).
Proof.
  assert (∀ b msg, no_panic (ensure b msg)) as He by (by intros []).
  assert (∀ uris, no_panic (check_redirect_uris uris)) as Hu.
  { induction uris as [|u uris IH]; cbn; [done|].
    apply no_panic_bind; [by destruct (url_parse u)|]. intros. by apply no_panic_bind. }
  assert (∀ gs, no_panic (check_grant_types gs)) as Hg.
  { induction gs as [|g gs IH]; cbn; [done|]. by apply no_panic_bind. }
  repeat (apply no_panic_bind; [auto|intros ?]); [|done].
  unfold check_auth_method. destruct (_ == "none"); [by apply no_panic_bind|].
  destruct (_ == "client_secret_post"); [|done].
  apply no_panic_bind; [done|]. intros ?.
  apply no_panic_bind; [by destruct (rq_client_secret req)|]. intros ?. by apply no_panic_bind.
Qed.

Lemma checks_Ok req : (∃ p, registration_checks req = Ok p) ↔ registrable req.
Proof.
  unfold registration_checks, registrable.
  rewrite <- check_redirect_uris_Ok, <- check_grant_types_Ok, <- check_auth_method_Ok.
  destruct (bool_decide_reflect (rq_redirect_uris req = [])) as [He|Hne]; cbn [negb ensure].
  { split; [by intros [? ?]|]. by intros (? & _). }
  cbn. destruct (check_redirect_uris (rq_redirect_uris req)) as [[]|e|]; cbn;
    [|by split; [intros [? ?]|intros (_ & ? & _)]..].
  destruct (check_auth_method state req) as [p|e|]; cbn;
    [|by split; [intros [? ?]|intros (_ & _ & _ & ? & ?)]..].
  destruct (check_grant_types _) as [[]|e|]; cbn;
    [|by split; [intros [? ?]|intros (_ & _ & ? & _)]..].
  split; [intros _; split_and!; eauto|eauto].
Qed.

Lemma run_register_inner req w :
  run (register_inner state req) w =
  match registration_checks req with
  | Ok (hash, secret) =>
      run (client_id ← match rq_client_id req with
                       | Some id => mret id
                       | None => opaque ← new_opaque_token; mret ("chatcodex-" +:+ opaque)
                       end;
           now_ts ← auth_now;
           _ ← insert_client (mkClientRecord client_id hash (rq_client_name req)
                 (rq_redirect_uris req) (default default_grant_types (rq_grant_types req))
                 (rq_token_endpoint_auth_method req) now_ts None);
           mret (mkClientRegistrationResponse client_id secret (rq_client_name req)
             (rq_redirect_uris req) (default default_grant_types (rq_grant_types req))
             (rq_token_endpoint_auth_method req) now_ts)) w
  | Err e => (Err e, w)
  | Panic => (Panic, w)
  end.
Proof.
  unfold register_inner, registration_checks.
  rewrite run_bind, run_lift. destruct (ensure _ _) as [[]|e|]; [|done..].
  rewrite run_bind, run_lift. cbn [mbind res_bind].
  destruct (check_redirect_uris _) as [[]|e|]; [|done..].
  rewrite run_bind, run_lift. destruct (check_auth_method state req) as [[hash secret]|e|]; [|done..].
  rewrite run_bind, run_lift. by destruct (check_grant_types _) as [[]|e|].
Qed.

(** Registration answers 201 exactly for acceptable metadata and a client id
    that is not taken, and then the client can be looked up as registered; it
    answers 400 otherwise and stores nothing. *)
Theorem register_spec `{!JsonLaws} req w :
  (∀ n, sql_fault n = None) →
  ∃ resp w', run (register state req) w = (Ok resp, w') ∧
    ((registrable req ∧ adb_clients (aw_db w) !! chosen_id req w = None ∧
      resp_status resp = 201%N ∧
      ∃ secret_hash now_ts,
        fst (run (get_client (chosen_id req w)) w') =
        Ok (Some (registered req w secret_hash now_ts))) ∨
     (¬ (registrable req ∧ adb_clients (aw_db w) !! chosen_id req w = None) ∧
      resp_status resp = 400%N ∧ aw_db w' = aw_db w)).
Proof.
  intros Hf. unfold register. rewrite run_bind, run_attempt, run_register_inner.
  pose proof (checks_Ok req) as Hok. pose proof (checks_no_panic req) as Hnp.
  destruct (registration_checks req) as [[hash secret]|e|]; [| |done].
  - match goal with |- context [run (mbind ?k ?p) w] =>
      destruct (run_register_end req w hash (λ client_id now_ts,
        mkClientRegistrationResponse client_id secret (rq_client_name req) (rq_redirect_uris req)
          (default default_grant_types (rq_grant_types req)) (rq_token_endpoint_auth_method req) now_ts)
        Hf) as (now_ts & w' & -> & Hdb) end.
    destruct (adb_clients (aw_db w) !! chosen_id req w) as [r|] eqn:Ec; (do 2 eexists; split; [done|]).
    + right. split; [by intros [_ ?]|done].
    + left. split; [apply Hok; eauto|]. split; [done|]. split; [done|]. exists hash, now_ts.
      unfold get_client. rewrite run_select, Hf, Hdb. cbn [adb_clients set_clients].
      rewrite lookup_insert_eq. cbn. rewrite row_to_client_row. done.
  - do 2 eexists. split; [done|]. right. split; [|done]. intros [Hr _]. apply Hok in Hr as [? ?]. done.
Qed.
End grants.

(** ** The signing key *)

Section signing_key.
Context `{JsonLib, Crypto, AuthEnv}.

(** What generating a key leaves behind. *)
Definition key_created (w w' : AuthWorld) (entry : SigningKeyEntry) : Prop :=
  ∃ private created_at,
    pem_encode private = inl (ke_private_pem entry) ∧
    ke_public_jwk entry = VObject (public_jwk_of (ke_kid entry) (rsa_public private)) ∧
    adb_keys (aw_db w') = (deactivate <$> adb_keys (aw_db w)) ++
      [mkSigningKeyRow (ke_kid entry) (ke_alg entry) (ke_private_pem entry)
         (value_text (ke_public_jwk entry)) created_at 1].

Lemma insert_signing_key_Ok r w u w' :
  insert_signing_key r w = (Ok u, w') →
  adb_keys (aw_db w') = (deactivate <$> adb_keys (aw_db w)) ++ [r].
Proof.
  unfold insert_signing_key. rewrite M_bind_run. unfold sql at 1. destruct (sql_fault _); [done|].
  unfold sql. destruct (sql_fault _); [done|]. cbn [aw_db aw_next aw_set_db adb_keys set_keys].
  destruct (existsb _ _); [done|]. by intros [= _ <-].
Qed.

(** The branch that generates a key, in any world. *)
Lemma create_key_created w entry w' :
  (∀ r, fst (load_active_signing_key w) = Ok (Some r) → entry_of_row r = None) →
  load_or_create_signing_key w = (Ok entry, w') →
  key_created w w' entry.
Proof.
  intros Hnone. unfold load_or_create_signing_key. rewrite M_bind_run.
  assert (aw_db (snd (load_active_signing_key w)) = aw_db w) as Hdb.
  { unfold load_active_signing_key, sql. destruct (sql_fault _); [done|].
    destruct (find_first _ _); [|done]. by destruct (value_parse _). }
  destruct (load_active_signing_key w) as [[o|e|] w1]; [|done..]. cbn in Hnone, Hdb.
  assert (o ≫= entry_of_row = None) as ->.
  { destruct o as [r|]; cbn; [|done]. by apply Hnone. }
  rewrite M_bind_run. cbn [at_tick]. rewrite M_bind_run. unfold lift.
  destruct (rsa_generate _) as [private|e] eqn:Eg; [|done]. cbn [crypto_try].
  rewrite M_bind_run. destruct (pem_encode private) as [pem|e] eqn:Ep; [|done]. cbn [crypto_try].
  rewrite M_bind_run. destruct (spki_encode _) as [spki|e]; [|done]. cbn [crypto_try].
  rewrite M_bind_run. cbn [at_tick]. rewrite M_bind_run. cbn [at_tick].
  rewrite M_bind_run. destruct (insert_signing_key _ _) as [[[]|e|] w2] eqn:Ei; [|done..].
  cbn. intros [= <- <-]. apply insert_signing_key_Ok in Ei. cbn in Ei. rewrite Hdb in Ei.
  by eexists private, _.
Qed.

Lemma find_active_last l r :
  sk_is_active r = 1%Z → find_first (λ r, (sk_is_active r =? 1)%Z) ((deactivate <$> l) ++ [r]) = Some r.
Proof. intros Hr. induction l as [|x l IH]; cbn; [by rewrite Hr|done]. Qed.

Lemma public_jwk_flat kid public : flat_object (public_jwk_of kid public).
Proof. split; [apply (bool_decide_unpack _); by vm_compute|by repeat constructor]. Qed.

(** The key survives a restart: once generated it is loaded again, with the
    same id, private key and public members. *)
Theorem signing_key_persists `{!JsonLaws} w entry w' w2 :
  key_created w w' entry → aw_db w2 = aw_db w' → sql_fault (aw_tick w2) = None →
  ∃ jwk m m', load_or_create_signing_key w2 =
    (Ok (mkSigningKeyEntry (ke_kid entry) (ke_alg entry) (ke_private_pem entry) jwk), aw_next w2) ∧
    ke_public_jwk entry = VObject m ∧ jwk = VObject m' ∧ m' ≡ₚ m.
Proof.
  intros (private & created_at & _ & Hjwk & Hkeys) Hdb Hf.
  destruct (value_roundtrip (public_jwk_of (ke_kid entry) (rsa_public private))) as (m' & Hm' & Hperm).
  { apply public_jwk_flat. }
  assert (load_or_create_signing_key w2 =
    (Ok (mkSigningKeyEntry (ke_kid entry) (ke_alg entry) (ke_private_pem entry) (VObject m')), aw_next w2)) as ->.
  { unfold load_or_create_signing_key. rewrite M_bind_run. unfold load_active_signing_key, sql.
    rewrite Hf, Hdb, Hkeys, find_active_last by done. cbn [sk_public_jwk].
    rewrite Hjwk, Hm'. cbn [mbind option_bind entry_of_row sk_public_jwk].
    unfold entry_of_row. cbn [sk_public_jwk sk_kid sk_alg sk_private_pem]. rewrite Hm'.
    rewrite <- Hdb. by destruct w2. }
  by exists (VObject m'), (public_jwk_of (ke_kid entry) (rsa_public private)), m'.
Qed.

(** A read error at start-up counts as "no key": the active key is retired and
    replaced, so every token issued before stops verifying. *)
Theorem read_error_replaces_key w entry w' err :
  sql_fault (aw_tick w) = Some err → load_or_create_signing_key w = (Ok entry, w') →
  Forall (λ r, sk_is_active r = 0%Z) (take (length (adb_keys (aw_db w))) (adb_keys (aw_db w'))) ∧
  ∃ r, last (adb_keys (aw_db w')) = Some r ∧ sk_is_active r = 1%Z ∧ sk_kid r = ke_kid entry.
Proof.
  intros Hf E. apply create_key_created in E as (private & created_at & _ & _ & ->).
  - rewrite take_app_length' by by rewrite length_fmap. split.
    + apply Forall_fmap, Forall_true. done.
    + rewrite last_snoc. by eexists.
  - intros r. unfold load_active_signing_key, sql. by rewrite Hf.
Qed.

(** A server started on an empty store has a key ring that signs and verifies
    for its own issuer and resource. *)
Lemma create_ring_ok `{!CryptoLaws} config w st w' cf :
  adb_keys (aw_db w) = [] → auth_state_new config w = (Ok st, w') →
  ring_ok (mkAuthState (st_config st) (st_keyring st) cf).
Proof.
  intros Hempty. unfold auth_state_new, keyring_load_or_create. rewrite !M_bind_run.
  destruct (load_or_create_signing_key w) as [[entry|e|] w1] eqn:E; [|done..].
  cbn. intros [= <- <-]. apply create_key_created in E as (private & created_at & Hpem & _ & _).
  - exists entry. cbn. split; [done|]. apply pem_roundtrip in Hpem as [Hdec Hne].
    split; [|done]. split; [done|]. by exists private.
  - intros r. unfold load_active_signing_key, sql. rewrite Hempty. by destruct (sql_fault _).
Qed.
End signing_key.
