(* ===== verification/Command.v ===== *)
(** * Restricted commands (deterministic-core: command_runner.rs)

    The whitelist [run_command] checks before it starts a process. *)

From S2P Require Import Prelude RustStr Types Lifecycle Os.

Definition ALLOWED_COMMANDS : list string :=
  ["cargo"; "rustc"; "rustfmt";
   "node"; "npm"; "npx"; "tsc"; "eslint"; "prettier";
   "python3"; "python"; "pip3"; "flake8"; "black"; "mypy";
   "make"; "cmake"; "ninja";
   "clippy-driver"; "shellcheck"; "shfmt";
   "which"; "true"; "false"; "echo"; "cat"; "head"; "tail"; "wc"; "sort"; "uniq"; "grep";
   "find"; "diff"; "comm"; "basename"; "dirname"; "realpath"; "readlink"; "pwd"; "env";
   "printenv"; "date"].

Definition FORBIDDEN_SUBSTRINGS : list string :=
  [";"; "|"; "`"; "$("; "${";
   ">"; "<"; ">>";
   "sudo"; "su ";
   "curl"; "wget"; "nc "; "telnet"; "ssh";
   "sed"; "awk"; "tee"; "dd";
   "rm -rf /"; "rm -rf /*"; "chmod"; "chown"].

Definition MAX_TIMEOUT_SECS : u64 := 300.
Definition DEFAULT_TIMEOUT_SECS : u64 := 60.

Inductive ValidationOutcome :=
| Allowed (matched_command : string)
| Denied (reason : string).

#[export] Instance ValidationOutcome_eq_dec : EqDecision ValidationOutcome.
Proof. solve_decision. Defined.

(** The first forbidden pattern of the first part that has one. *)
Fixpoint find_forbidden (parts : list string) : option string :=
  match parts with
  | [] => None
  | part :: parts' =>
      match find_first (λ forbidden, str_contains part forbidden) FORBIDDEN_SUBSTRINGS with
      | Some forbidden => Some forbidden
      | None => find_forbidden parts'
      end
  end.

(** The whitelist entry a base command stands for, by name or by the last
    component of its path. *)
Definition match_allowed (base : string) : option string :=
  match find_first (λ allowed, base == allowed) ALLOWED_COMMANDS with
  | Some allowed => Some allowed
  | None =>
      name ← file_name base;
      if contains_elem ALLOWED_COMMANDS name then Some name else None
  end.

Definition validate_command `{Unicode} (params : CommandRunParams) : ValidationOutcome :=
  let cmd := trim (crp_command params) in
  if str_is_empty cmd then Denied "command must not be empty"
  else match find_forbidden (cmd :: crp_args params) with
       | Some forbidden =>
           Denied ("command or argument contains forbidden pattern: " +:+ debug_str forbidden)
       | None =>
           let base := first_token cmd in
           match match_allowed base with
           | Some name => Allowed name
           | None =>
               Denied ("command " +:+ debug_str cmd +:+
                       " is not on the allowed whitelist. Allowed commands: " +:+
                       join ", " ALLOWED_COMMANDS)
           end
       end.

Definition effective_timeout (params : CommandRunParams) : u64 :=
  N.min (default DEFAULT_TIMEOUT_SECS (crp_timeout_secs params)) MAX_TIMEOUT_SECS.

(** ** Properties *)

Lemma find_forbidden_None parts :
  find_forbidden parts = None ↔
  ∀ part bad, part ∈ parts → bad ∈ FORBIDDEN_SUBSTRINGS → ¬ ∃ l r, part = l +:+ bad +:+ r.
Proof.
  induction parts as [|p ps IH]; [set_solver|].
  change (find_forbidden (p :: ps)) with
    (match find_first (λ f, str_contains p f) FORBIDDEN_SUBSTRINGS with
     | Some f => Some f | None => find_forbidden ps end).
  destruct (find_first _ FORBIDDEN_SUBSTRINGS) as [bad|] eqn:E.
  - split; [done|]. intros Hall. apply find_first_Some in E as [Hin Hc].
    apply str_contains_spec in Hc. exfalso. by apply (Hall p bad); [left| |].
  - apply find_first_None in E. rewrite Forall_forall in E. rewrite IH. split.
    + intros Hps part bad [->|Hp]%elem_of_cons Hbad; [|by apply Hps].
      rewrite <- str_contains_spec, (E bad Hbad). done.
    + intros Hps part bad Hp. apply Hps. by right.
Qed.

Lemma match_allowed_Some base m :
  match_allowed base = Some m ↔
  m ∈ ALLOWED_COMMANDS ∧
    (base = m ∨ ((base ∉ ALLOWED_COMMANDS) ∧ file_name base = Some m)).
Proof.
  unfold match_allowed.
  destruct (find_first (λ a, base == a) ALLOWED_COMMANDS) as [a|] eqn:E.
  - apply find_first_Some in E as [Hin <-%String.eqb_eq]. naive_solver.
  - apply find_first_None in E. rewrite Forall_forall in E.
    assert (base ∉ ALLOWED_COMMANDS) as Hb.
    { intros Hin. specialize (E _ Hin). by rewrite String.eqb_refl in E. }
    unfold contains_elem. destruct (file_name base) as [n|]; cbn [mbind option_bind];
      [case_bool_decide|]; naive_solver.
Qed.

(** A command is allowed exactly when it is not blank, neither it nor an
    argument has a forbidden substring, and its first word is on the
    whitelist or is a path whose last component is. *)
Theorem validate_command_iff `{Unicode} params m :
  let cmd := trim (crp_command params) in
  validate_command params = Allowed m ↔
  cmd ≠ "" ∧
  (∀ part bad, part ∈ cmd :: crp_args params → bad ∈ FORBIDDEN_SUBSTRINGS →
     ¬ ∃ l r, part = l +:+ bad +:+ r) ∧
  m ∈ ALLOWED_COMMANDS ∧
  (first_token cmd = m ∨
   ((first_token cmd ∉ ALLOWED_COMMANDS) ∧ file_name (first_token cmd) = Some m)).
Proof.
  intros cmd. unfold validate_command. fold cmd. unfold str_is_empty.
  rewrite <- find_forbidden_None, <- match_allowed_Some.
  destruct (String.eqb_spec cmd "") as [|Hne]; [naive_solver|].
  destruct (find_forbidden (cmd :: crp_args params)); [naive_solver|].
  destruct (match_allowed (first_token cmd)); naive_solver.
Qed.

(** No command waits longer than 300 seconds, and one that names a
    shorter timeout waits that long. *)
Theorem effective_timeout_bound params :
  (effective_timeout params <= MAX_TIMEOUT_SECS)%N ∧
  (∀ t, crp_timeout_secs params = Some t → (t <= MAX_TIMEOUT_SECS)%N →
     effective_timeout params = t) ∧
  (crp_timeout_secs params = None → effective_timeout params = DEFAULT_TIMEOUT_SECS).
Proof.
  unfold effective_timeout, MAX_TIMEOUT_SECS, DEFAULT_TIMEOUT_SECS. split_and!.
  - lia.
  - intros t ->. cbn. lia.
  - intros ->. cbn. lia.
Qed.

Example demo_validate :
  validate_command (H:=demo_unicode)
    (mkCommandRunParams "r1" " ./node_modules/.bin/tsc --noEmit" [] None None) = Allowed "tsc" ∧
  validate_command (H:=demo_unicode)
    (mkCommandRunParams "r1" "cargo" ["add"; "serde"] None None) =
  Denied ("command or argument contains forbidden pattern: " +:+ quote +:+ "dd" +:+ quote).
Proof. vm_compute. split; reflexivity. Qed.
