(* ===== verification/Workspace.v ===== *)
(** * Read-only workspace operations and test runs (deterministic-core:
    file_read.rs, code_search.rs, git_status.rs, git_diff.rs,
    workspace_summary.rs, tests_run.rs)

    Every function reads the system through [Os]; the only calls that can
    change it are the processes it starts. *)

From S2P Require Import Prelude RustStr Types Lifecycle Os.

Definition nl : string := String newline "".

(** [iter().enumerate()]. *)
Definition enumerate {A} (l : list A) : list (nat * A) := zip (seq 0 (length l)) l.

(** ** file.read *)

Module file_read.

(** The lines of a file the request asks for. *)
Definition read_range (params : FileReadParams) (content : string) : res FileReadResult :=
  let ls := lines content in
  let total_lines := len ls in
  let start := N.max (default 1%N (frp_start_line params)) 1 in
  let end_ := N.max (default total_lines (frp_end_line params)) 1 in
  if (end_ <? start)%N then
    Err ("start_line (" +:+ pretty start +:+ ") cannot be greater than end_line (" +:+
         pretty end_ +:+ ")")
  else
    let effective_start := N.min start (N.max total_lines 1) in
    let effective_end := N.min end_ total_lines in
    let selected :=
      if (total_lines <? effective_start)%N then ""
      else join nl (map snd (List.filter
             (λ il, let line_no := (N.of_nat (fst il) + 1)%N in
                    (effective_start <=? line_no)%N && (line_no <=? effective_end)%N)
             (enumerate ls))) in
    Ok {| frr_path := frp_path params;
          frr_content := selected;
          frr_start_line := effective_start;
          frr_end_line := effective_end;
          frr_total_lines := total_lines |}.

Definition read `{Os} (params : FileReadParams) (workspace_root : string) : M os FileReadResult :=
  λ o,
  (_ ← ensure (negb (str_is_empty (frp_path params))) "path must not be empty";
   let file_path := path_join workspace_root (frp_path params) in
   canonical ← with_context (canonicalize o file_path) ("file not found: " +:+ frp_path params);
   canonical_base ← with_context (canonicalize o workspace_root)
     ("cannot resolve workspace root: " +:+ workspace_root);
   _ ← ensure (path_starts_with canonical canonical_base)
     ("path escapes workspace: " +:+ frp_path params);
   _ ← ensure (is_file o canonical) ("path is not a file: " +:+ frp_path params);
   content ← with_context (read_to_string o canonical) ("cannot read file: " +:+ frp_path params);
   read_range params content, o).

End file_read.

(** ** Processes *)

(** [Command::new(program).args(args).current_dir(root).output().context(msg)?]
    and the lossy text of its standard output. *)
Definition output_of `{Os} (program : string) (args : list string) (root context : string)
    : M os Output :=
  r ← syscall (run_process program args root); lift (with_context r context).

Definition stdout_of `{Os} (program : string) (args : list string) (root context : string)
    : M os string :=
  out ← output_of program args root context; mret (from_utf8_lossy (out_stdout out)).

Definition ensure_dir `{Os} (root : string) : M os () := λ o,
  (ensure (is_dir o root) ("workspace root is not a directory: " +:+ root), o).

(** ** code.search *)

Module code_search.

(** One line of grep's output, ["./path:line:text"]. *)
Definition parse_match (line : string) : option CodeSearchMatch :=
  let rest := default line (strip_prefix "./" line) in
  match split_at_char ":"%char rest with
  | (file, Some rest) =>
      match split_at_char ":"%char rest with
      | (line_str, Some snippet) =>
          if snippet == "Binary file matches" then None
          else Some {| csm_path := file;
                       csm_line := default 0%N (parse_uint usize_max line_str);
                       csm_snippet := snippet |}
      | (_, None) => None
      end
  | (_, None) => None
  end.

(** The loop over the lines, with the number of matches so far. *)
Fixpoint collect_matches (max n : usize) (ls : list string) : list CodeSearchMatch :=
  match ls with
  | [] => []
  | line :: ls' =>
      if (max <=? n)%N then []
      else match parse_match line with
           | Some m => m :: collect_matches max (n + 1) ls'
           | None => collect_matches max n ls'
           end
  end.

Definition grep_args (params : CodeSearchParams) : list string :=
  ["-rn"] ++ match csp_path_glob params with Some glob => ["--include"; glob] | None => [] end ++
  ["--"; csp_query params; "."].

Definition search `{Os} (params : CodeSearchParams) (workspace_root : string)
    : M os CodeSearchResult :=
  _ ← ensure_dir workspace_root;
  if str_is_empty (csp_query params) then mret (mkCodeSearchResult [])
  else
    let max := default 50%N (csp_max_results params) in
    stdout ← stdout_of "grep" (grep_args params) workspace_root "failed to run grep";
    mret (mkCodeSearchResult (collect_matches max 0 (lines stdout))).

End code_search.

(** ** git.status *)

Module git_status.

Definition current_branch `{Os} (root : string) : M os string :=
  stdout ← stdout_of "git" ["rev-parse"; "--abbrev-ref"; "HEAD"] root "failed to run git rev-parse";
  mret (trim stdout).

(** The dirty and the untracked files of [git status --porcelain]. *)
Fixpoint porcelain_lines (ls : list string) : list string * list string :=
  match ls with
  | [] => ([], [])
  | line :: ls' =>
      let '(dirty, untracked) := porcelain_lines ls' in
      if str_is_empty line then (dirty, untracked)
      else match get_from line 3 with
           | Some path =>
               if starts_with line "??" then (dirty, trim path :: untracked)
               else (trim path :: dirty, untracked)
           | None => (dirty, untracked)
           end
  end.

Definition porcelain_status `{Os} (root : string) : M os (list string * list string) :=
  stdout ← stdout_of "git" ["status"; "--porcelain"] root "failed to run git status";
  mret (porcelain_lines (lines stdout)).

Definition status `{Os} (_params : GitStatusParams) (workspace_root : string)
    : M os GitStatusResult :=
  _ ← ensure_dir workspace_root;
  branch ← current_branch workspace_root;
  '(dirty, untracked) ← porcelain_status workspace_root;
  mret (mkGitStatusResult branch dirty untracked).

End git_status.

(** ** git.diff *)

Module git_diff.

Definition diff `{Os} (params : GitDiffParams) (workspace_root : string) : M os GitDiffResult :=
  _ ← ensure_dir workspace_root;
  let format := default "summary" (gdp_format params) in
  names ← stdout_of "git" ["diff"; "--name-only"] workspace_root
            "failed to run git diff --name-only";
  let changed_files := List.filter (λ l, negb (str_is_empty l)) (lines names) in
  let changed_files :=
    if bool_decide (gdp_paths params = []) then changed_files
    else List.filter (λ f, existsb (λ p, str_contains f p) (gdp_paths params)) changed_files in
  diff_summary ← stdout_of "git" ["diff"; "--stat"] workspace_root "failed to run git diff --stat";
  patch_text ←
    (if format == "patch" then
       let args := "diff" :: (gdp_paths params ≫= λ p, ["--"; p]) in
       t ← stdout_of "git" args workspace_root "failed to run git diff"; mret (Some t)
     else mret None);
  mret (mkGitDiffResult changed_files diff_summary patch_text).

End git_diff.

(** ** workspace.summary *)

Module workspace_summary.

Definition language_markers : list (string * string) :=
  [("Cargo.toml", "Rust"); ("package.json", "TypeScript/JavaScript"); ("go.mod", "Go");
   ("pyproject.toml", "Python"); ("setup.py", "Python"); ("requirements.txt", "Python");
   ("Makefile", "Make"); ("CMakeLists.txt", "C/C++"); ("pom.xml", "Java");
   ("build.gradle", "Java/Kotlin")].

Definition detect_languages `{Os} (o : os) (root : string) : list string :=
  map snd (List.filter (λ m, path_exists o (path_join root (fst m))) language_markers).

Definition git_dirty_files `{Os} (root : string) : M os (list string) :=
  stdout ← stdout_of "git" ["status"; "--porcelain"] root "failed to run git status";
  mret (map trim (List.filter (λ l, negb (str_is_empty l)) (lines stdout))).

Definition list_top_level `{Os} (o : os) (root : string) : list string :=
  sort_strings (List.filter (λ name, negb (starts_with name "."))
                  (default [] (read_dir o root))).

(** [r.unwrap_or_default()] on a list. *)
Definition unwrap_or_nil {W A} (m : M W (list A)) : M W (list A) := λ w,
  match m w with
  | (Err _, w') => (Ok [], w')
  | x => x
  end.

Definition summary `{Os} (params : WorkspaceSummaryParams) : M os WorkspaceSummaryResult :=
  let root := wsp_workspace_id params in
  _ ← ensure_dir root;
  detected_languages ← gets (λ o, detect_languages o root);
  dirty_files ← unwrap_or_nil (git_dirty_files root);
  relevant_paths ← (if bool_decide (wsp_focus_paths params = [])
                    then gets (λ o, list_top_level o root)
                    else mret (wsp_focus_paths params));
  mret (mkWorkspaceSummaryResult root detected_languages dirty_files relevant_paths).

End workspace_summary.

(** ** tests.run *)

Module tests_run.

Definition FRAMEWORK_SCOPES : list string := ["cargo"; "npm"; "pytest"; "make"].
Definition SEMANTIC_SCOPES : list string := ["unit"; "integration"; "all"].

Definition detect_framework `{Os} (o : os) (workspace_root : string) : res string :=
  if path_exists o (path_join workspace_root "Cargo.toml") then Ok "cargo"
  else if path_exists o (path_join workspace_root "package.json") then Ok "npm"
  else if path_exists o (path_join workspace_root "setup.py") ||
          path_exists o (path_join workspace_root "pyproject.toml") then Ok "pytest"
  else if path_exists o (path_join workspace_root "Makefile") then Ok "make"
  else Err ("cannot auto-detect test framework in " +:+ workspace_root +:+
            ". Use an explicit framework scope (cargo, npm, pytest, make) instead.").

Definition push_option (l : list string) (o : option string) : list string :=
  match o with Some t => l ++ [t] | None => l end.

(** The recursion is on the detected framework; out of fuel is a panic,
    which [resolve_command_terminates] excludes. *)
Fixpoint resolve_command_fuel `{Os} (fuel : nat) (o : os) (scope : string)
    (target : option string) (workspace_root : string) : res (list string) :=
  match fuel with
  | O => Panic
  | S fuel' =>
      if scope == "cargo" then Ok (push_option ["cargo"; "test"] target)
      else if scope == "npm" then
        Ok (["npm"; "test"] ++ match target with Some t => ["--"; t] | None => [] end)
      else if scope == "pytest" then Ok (push_option ["python"; "-m"; "pytest"] target)
      else if scope == "make" then Ok ["make"; default "test" target]
      else if (scope == "unit") || (scope == "integration") || (scope == "all") then
        detected ← detect_framework o workspace_root;
        resolve_command_fuel fuel' o detected target workspace_root
      else
        let is_framework := contains_elem FRAMEWORK_SCOPES scope in
        let is_semantic := contains_elem SEMANTIC_SCOPES scope in
        if is_framework then Err ("framework scope '" +:+ scope +:+ "' not properly handled")
        else if is_semantic then Err ("semantic scope '" +:+ scope +:+ "' not properly handled")
        else Err ("unsupported test scope: '" +:+ scope +:+ "'. Accepted values:" +:+ nl +:+
                  "- Framework names: cargo, npm, pytest, make" +:+ nl +:+
                  "- Semantic scopes: unit, integration, all")
  end.

Definition resolve_command `{Os} := resolve_command_fuel 2.

(** Text longer than 4096 bytes is cut. *)
Definition truncate_output (s : string) : res string :=
  if (4096 <? String.length s)%nat then
    t ← slice_to s 4096; Ok (t +:+ "... (truncated)")
  else Ok s.

Definition run `{Unicode} `{Os} (params : TestsRunParams) (workspace_root : string)
    : M os TestsRunResult :=
  _ ← lift (ensure (negb (str_is_empty (trp_scope params))) "scope must not be empty");
  _ ← lift (ensure (negb (str_is_empty (trp_reason params)))
              "reason must not be empty (required for audit trail)");
  _ ← ensure_dir workspace_root;
  let scope_lower := to_lowercase (trp_scope params) in
  let is_framework := contains_elem FRAMEWORK_SCOPES scope_lower in
  let is_semantic := contains_elem SEMANTIC_SCOPES scope_lower in
  _ ← lift (ensure (is_framework || is_semantic)
        ("unsupported test scope: '" +:+ trp_scope params +:+ "'. Supported framework scopes: " +:+
         join ", " FRAMEWORK_SCOPES +:+ ". Supported semantic scopes: " +:+
         join ", " SEMANTIC_SCOPES +:+ "."));
  cmd ← gets (λ o, resolve_command o scope_lower (trp_target params) workspace_root);
  cmd_parts ← lift cmd;
  let resolved_command := join " " cmd_parts in
  match cmd_parts with
  | [] => lift Panic
  | program :: args =>
      output ← output_of program args workspace_root
                 ("failed to run test command: " +:+ resolved_command);
      let exit_code := default (-1)%Z (out_code output) in
      stdout ← lift (truncate_output (from_utf8_lossy (out_stdout output)));
      stderr ← lift (truncate_output (from_utf8_lossy (out_stderr output)));
      let summary :=
        if (exit_code =? 0)%Z then "tests passed"
        else "tests failed with exit code " +:+ pretty exit_code in
      mret (mkTestsRunResult resolved_command exit_code stdout stderr summary None)
  end.

End tests_run.

(** ** Properties *)

(** Filtering an enumerated list by a range of positions is cutting it. *)
Lemma filter_positions {A} (lo hi k : nat) (l : list A) :
  map snd (List.filter (λ il : nat * A,
      (N.of_nat lo <=? N.of_nat (fst il) + 1)%N && (N.of_nat (fst il) + 1 <=? N.of_nat hi)%N)
    (zip (seq k (length l)) l)) =
  take (hi - (k `max` (lo - 1))) (drop (lo - 1 - k) l).
Proof.
  revert k. induction l as [|x l IH]; intros k; [by rewrite drop_nil, take_nil|].
  cbn [length seq zip zip_with List.filter fst]. specialize (IH (S k)).
  destruct (N.leb_spec (N.of_nat lo) (N.of_nat k + 1)), (N.leb_spec (N.of_nat k + 1) (N.of_nat hi));
    cbn [andb map snd]; rewrite IH.
  - replace (lo - 1 - k)%nat with 0%nat by lia. replace (lo - 1 - S k)%nat with 0%nat by lia.
    rewrite !drop_0. replace (hi - k `max` (lo - 1))%nat with (S (hi - S k `max` (lo - 1)))%nat by lia.
    done.
  - replace (hi - S k `max` (lo - 1))%nat with 0%nat by lia.
    by replace (hi - k `max` (lo - 1))%nat with 0%nat by lia.
  - replace (lo - 1 - k)%nat with (S (lo - 1 - S k)) by lia. cbn [drop].
    f_equal. lia.
  - replace (hi - S k `max` (lo - 1))%nat with 0%nat by lia.
    by replace (hi - k `max` (lo - 1))%nat with 0%nat by lia.
Qed.

(** Reading a range returns exactly those lines: for a start that is a
    line of the file and an end not before it, the lines from the start up to
    the end, or the last line if the end is beyond it, joined by newlines,
    together with the range and the number of lines. *)
Theorem read_range_lines params content (s e : nat) :
  let ls := lines content in
  frp_start_line params = Some (N.of_nat s) → frp_end_line params = Some (N.of_nat e) →
  (1 <= s <= length ls)%nat → (s <= e)%nat →
  file_read.read_range params content =
  Ok (mkFileReadResult (frp_path params)
        (join nl (take (e `min` length ls - (s - 1)) (drop (s - 1) ls)))
        (N.of_nat s) (N.of_nat (e `min` length ls)) (len ls)).
Proof.
  intros ls Hs He Hb Hse. unfold file_read.read_range. fold ls. rewrite Hs, He. cbn [from_option]; unfold id.
  replace (N.max (N.of_nat s) 1) with (N.of_nat s) by lia.
  replace (N.max (N.of_nat e) 1) with (N.of_nat e) by lia.
  rewrite (proj2 (N.ltb_ge (N.of_nat e) (N.of_nat s))) by lia. unfold len.
  replace (N.min (N.of_nat s) (N.max (N.of_nat (length ls)) 1)) with (N.of_nat s) by lia.
  replace (N.min (N.of_nat e) (N.of_nat (length ls))) with (N.of_nat (e `min` length ls)) by lia.
  rewrite (proj2 (N.ltb_ge (N.of_nat (length ls)) (N.of_nat s))) by lia.
  unfold enumerate. rewrite filter_positions.
  rewrite Nat.sub_0_r. by replace (0 `max` (s - 1))%nat with (s - 1)%nat by lia.
Qed.

(** A start beyond the end of a file never gives empty content: without
    an end line the read fails, and with one it returns the last line. *)
Theorem read_range_beyond_end params content s :
  let ls := lines content in
  ls ≠ [] → frp_start_line params = Some s → (len ls < s)%N →
  match frp_end_line params with
  | None => ∃ e, file_read.read_range params content = Err e
  | Some e => (s <= e)%N →
      ∃ r, file_read.read_range params content = Ok r ∧ Some (frr_content r) = last ls
  end.
Proof.
  intros ls Hne Hs Hl. unfold file_read.read_range. fold ls. rewrite Hs. cbn [from_option]; unfold id.
  assert (0 < length ls)%nat as Hp by (destruct ls; [done|cbn; lia]). unfold len in *.
  destruct (frp_end_line params) as [e|]; cbn [from_option]; unfold id.
  - intros He. rewrite (proj2 (N.ltb_ge (N.max e 1) (N.max s 1))) by lia. eexists. split; [reflexivity|].
    cbn [frr_content].
    replace (N.min (N.max s 1) (N.max (N.of_nat (length ls)) 1)) with (N.of_nat (length ls)) by lia.
    replace (N.min (N.max e 1) (N.of_nat (length ls))) with (N.of_nat (length ls)) by lia.
    rewrite (proj2 (N.ltb_ge (N.of_nat (length ls)) (N.of_nat (length ls)))) by lia.
    unfold enumerate. rewrite filter_positions.
    rewrite Nat.sub_0_r. replace (0 `max` (length ls - 1))%nat with (length ls - 1)%nat by lia.
    destruct (exists_last Hne) as (l' & x & ->). rewrite length_app. cbn [length].
    rewrite drop_app_length' by lia. rewrite last_snoc.
    by replace (length l' + 1 - (length l' + 1 - 1))%nat with 1%nat by lia.
  - rewrite (proj2 (N.ltb_lt (N.max (N.of_nat (length ls)) 1) (N.max s 1))) by lia. eauto.
Qed.

(** A file is only read when its real path lies in the workspace: the
    system is not changed, and a result means that the canonical path has the
    canonical root as a prefix of components. *)
Theorem read_confined `{Os} params root o r o' :
  file_read.read params root o = (Ok r, o') →
  o' = o ∧ ∃ c cr content,
    canonicalize o (path_join root (frp_path params)) = IoOk c ∧ canonicalize o root = IoOk cr ∧
    components cr `prefix_of` components c ∧ is_file o c = true ∧
    read_to_string o c = IoOk content ∧ file_read.read_range params content = Ok r.
Proof.
  unfold file_read.read. intros [= E <-]. split; [done|]. res_inv.
  repeat match goal with
  | H : with_context ?r _ = Ok _ |- _ => destruct r eqn:?; cbn in H; [|done]; injection H as ->
  end.
  eexists _, _, _. split_and!; try done.
  match goal with H : path_starts_with _ _ = true |- _ => by apply bool_decide_eq_true in H end.
Qed.

(** The matches of a search are the lines of the output that parse, in
    order, cut at the limit. *)
Theorem collect_matches_spec max ls :
  code_search.collect_matches max 0 ls = take (N.to_nat max) (omap code_search.parse_match ls).
Proof.
  assert (∀ n, code_search.collect_matches max n ls =
            take (N.to_nat (max - n)) (omap code_search.parse_match ls)) as Hg;
    [|by rewrite Hg, N.sub_0_r].
  induction ls as [|l ls IH]; intros n; cbn; [by rewrite take_nil|].
  destruct (N.leb_spec max n) as [Hn|Hn].
  { by replace (max - n)%N with 0%N by lia. }
  destruct (code_search.parse_match l) as [m|]; [|apply IH]. rewrite IH.
  replace (N.to_nat (max - n)) with (S (N.to_nat (max - (n + 1)))) by lia. done.
Qed.

(** Resolving a test scope ends: two rounds are enough, the result does
    not depend on more fuel, and what it starts is cargo, npm, python or
    make. *)
Theorem resolve_command_terminates `{Os} n o scope target root :
  tests_run.resolve_command_fuel (2 + n) o scope target root =
    tests_run.resolve_command o scope target root ∧
  tests_run.resolve_command o scope target root ≠ Panic ∧
  (∀ cmd, tests_run.resolve_command o scope target root = Ok cmd →
     ∃ p args, cmd = p :: args ∧ p ∈ ["cargo"; "npm"; "python"; "make"]).
Proof.
  unfold tests_run.resolve_command. cbn [Nat.add].
  cbn [tests_run.resolve_command_fuel].
  destruct (scope == "cargo"); [split_and!; [done..|]; intros ? [= <-]; destruct target; cbn; set_solver|].
  destruct (scope == "npm"); [split_and!; [done..|]; intros ? [= <-]; destruct target; cbn; set_solver|].
  destruct (scope == "pytest"); [split_and!; [done..|]; intros ? [= <-]; destruct target; cbn; set_solver|].
  destruct (scope == "make"); [split_and!; [done..|]; intros ? [= <-]; cbn; set_solver|].
  destruct (_ || _ || _); [|by repeat case_match].
  unfold tests_run.detect_framework. repeat case_match; cbn; split_and!; try done;
    intros ? [= <-]; destruct target; cbn; set_solver.
Qed.

Definition demo_read_params (s e : option u64) : FileReadParams :=
  mkFileReadParams "r1" "a.txt" s e None.

Definition demo_content : string := "a" +:+ nl +:+ "b" +:+ nl +:+ "c" +:+ nl.

Lemma read_range_lines_witness :
  file_read.read_range (demo_read_params (Some 2%N) (Some 9%N)) demo_content =
  Ok (mkFileReadResult "a.txt" ("b" +:+ nl +:+ "c") 2 3 3).
Proof.
  rewrite (read_range_lines (demo_read_params (Some 2%N) (Some 9%N)) demo_content 2 9);
    [reflexivity|reflexivity|reflexivity|vm_compute; lia|lia].
Defined.

Lemma read_range_beyond_end_witness :
  (∃ e, file_read.read_range (demo_read_params (Some 9%N) None) demo_content = Err e).
Proof.
  apply (read_range_beyond_end (demo_read_params (Some 9%N) None) demo_content 9);
    [vm_compute; discriminate|reflexivity|vm_compute; reflexivity].
Defined.
