(* ===== verification/Patch.v ===== *)
(** * Applying patches (deterministic-core: patch_apply.rs)

    The one function that writes to the workspace. *)

From S2P Require Import Prelude RustStr Types Lifecycle Os Workspace.

(** The counters the loop keeps. *)
Record Progress := mkProgress {
  pg_changed_files : list string;
  pg_additions : usize;
  pg_deletions : usize
}.

Definition add_additions `{BuildProfile} (n : usize) (p : Progress) : res Progress :=
  a ← usize_add (pg_additions p) n; Ok (mkProgress (pg_changed_files p) a (pg_deletions p)).

Definition add_deletions `{BuildProfile} (n : usize) (p : Progress) : res Progress :=
  d ← usize_add (pg_deletions p) n; Ok (mkProgress (pg_changed_files p) (pg_additions p) d).

(** A line range replaced by the lines of [new_text]: the new content and
    the number of lines replaced.  [&lines[..s]] panics past the end. *)
Definition replace_lines `{BuildProfile} (content : string) (start end_ : u64) (new_text : string)
    : res (string * usize) :=
  let ls := lines content in
  let s := (start - 1)%N in
  let e := N.min end_ (len ls) in
  if (len ls <? s)%N then Panic
  else
    let result_lines :=
      take (N.to_nat s) ls ++ lines new_text ++
      (if (e <? len ls)%N then drop (N.to_nat e) ls else []) in
    deleted ← usize_sub e s;
    Ok (join nl result_lines, deleted).

(** The new content of a replaced file, and the lines it counts as deleted. *)
Definition replace_content `{Unicode} `{BuildProfile} (edit : PatchEdit) (content : string)
    : res (string * usize) :=
  match pe_old_text edit with
  | Some old_text =>
      _ ← ensure (str_contains content old_text)
            ("old_text not found in " +:+ pe_path edit +:+ ": " +:+ debug_str old_text);
      Ok (replace_first content old_text (pe_new_text edit), 0%N)
  | None =>
      match pe_start_line edit, pe_end_line edit with
      | Some start, Some end_ => replace_lines content start end_ (pe_new_text edit)
      | _, _ =>
          Err ("replace requires either old_text or start_line/end_line for " +:+ pe_path edit)
      end
  end.

Definition escapes (edit : PatchEdit) : string := "path escapes workspace: " +:+ pe_path edit.

(** [file_path.canonicalize().with_context(..)?] and the check that it is
    under the root. *)
Definition resolve_inside `{Os} (edit : PatchEdit) (file_path canonical_root : string)
    : M os string :=
  r ← gets (λ o, canonicalize o file_path);
  canonical ← lift (with_context r ("cannot resolve path: " +:+ pe_path edit));
  _ ← lift (ensure (path_starts_with canonical canonical_root) (escapes edit));
  mret canonical.

Definition apply_create `{BuildProfile} `{Os} (edit : PatchEdit)
    (file_path canonical_root : string) (p : Progress) : M os Progress :=
  _ ← match path_parent file_path with
      | Some parent =>
          r ← syscall (create_dir_all parent);
          lift (with_context r ("cannot create parent dirs for " +:+ pe_path edit))
      | None => mret ()
      end;
  r ← syscall (fs_write file_path (pe_new_text edit));
  _ ← lift (with_context r ("cannot create file: " +:+ pe_path edit));
  r ← gets (λ o, canonicalize o file_path);
  canonical ← lift (io_try r);
  _ ← lift (ensure (path_starts_with canonical canonical_root) (escapes edit));
  lift (add_additions (len (lines (pe_new_text edit))) p).

Definition apply_replace `{Unicode} `{BuildProfile} `{Os} (edit : PatchEdit)
    (file_path canonical_root : string) (p : Progress) : M os Progress :=
  canonical ← resolve_inside edit file_path canonical_root;
  r ← gets (λ o, read_to_string o canonical);
  content ← lift (with_context r ("cannot read file: " +:+ pe_path edit));
  '(new_content, deleted) ← lift (replace_content edit content);
  p ← lift (add_deletions deleted p);
  p ← lift (add_additions (len (lines (pe_new_text edit))) p);
  r ← syscall (fs_write canonical new_content);
  _ ← lift (with_context r ("cannot write file: " +:+ pe_path edit));
  mret p.

Definition apply_delete `{BuildProfile} `{Os} (edit : PatchEdit)
    (file_path canonical_root : string) (p : Progress) : M os Progress :=
  canonical ← resolve_inside edit file_path canonical_root;
  r ← gets (λ o, read_to_string o canonical);
  content ← lift (io_try r);
  p ← lift (add_deletions (len (lines content)) p);
  r ← syscall (remove_file canonical);
  _ ← lift (with_context r ("cannot delete file: " +:+ pe_path edit));
  mret p.

(** The match on the operation. *)
Definition apply_operation `{Unicode} `{BuildProfile} `{Os} (edit : PatchEdit)
    (file_path canonical_root : string) (p : Progress) : M os Progress :=
  if pe_operation edit == "create" then apply_create edit file_path canonical_root p
  else if pe_operation edit == "replace" then apply_replace edit file_path canonical_root p
  else if pe_operation edit == "delete" then apply_delete edit file_path canonical_root p
  else lift (Err ("unsupported patch operation: " +:+ pe_operation edit)).

(** One round of the loop. *)
Definition apply_edit `{Unicode} `{BuildProfile} `{Os} (workspace_root : string)
    (edit : PatchEdit) (p : Progress) : M os Progress :=
  let file_path := path_join workspace_root (pe_path edit) in
  r ← gets (λ o, canonicalize o workspace_root);
  canonical_root ← lift (with_context r "cannot resolve workspace root");
  p ← apply_operation edit file_path canonical_root p;
  mret (if contains_elem (pg_changed_files p) (pe_path edit) then p
        else mkProgress (pg_changed_files p ++ [pe_path edit]) (pg_additions p) (pg_deletions p)).

Fixpoint apply_edits `{Unicode} `{BuildProfile} `{Os} (workspace_root : string)
    (edits : list PatchEdit) (p : Progress) : M os Progress :=
  match edits with
  | [] => mret p
  | edit :: edits' => p ← apply_edit workspace_root edit p; apply_edits workspace_root edits' p
  end.

Definition apply `{Unicode} `{BuildProfile} `{Os} (params : PatchApplyParams)
    (workspace_root : string) : M os PatchApplyResult :=
  _ ← ensure_dir workspace_root;
  p ← apply_edits workspace_root (pap_edits params) (mkProgress [] 0 0);
  mret {| par_changed_files := pg_changed_files p;
          par_diff_stats := "+" +:+ pretty (pg_additions p) +:+ " -" +:+ pretty (pg_deletions p);
          par_approval_required := None |}.

(** ** Properties of line ranges *)

(** Replacing a line range keeps the lines before the start and after
    the end, puts the new lines between, and counts the lines in between as
    deleted; a range that starts after the line following the end of the file,
    or that ends before it starts, panics (where overflow is checked). *)
Theorem replace_lines_spec `{BuildProfile} content start end_ new_text :
  let ls := lines content in
  let s := (start - 1)%N in
  let e := N.min end_ (len ls) in
  ((s <= e)%N →
     replace_lines content start end_ new_text =
     Ok (join nl (take (N.to_nat s) ls ++ lines new_text ++ drop (N.to_nat e) ls), (e - s)%N)) ∧
  ((e < s)%N → overflow_checks = true → replace_lines content start end_ new_text = Panic).
Proof.
  intros ls s e. unfold replace_lines. fold ls s e. split.
  - intros Hse. destruct (N.ltb_spec (len ls) s); [lia|]. unfold usize_sub.
    rewrite (proj2 (N.leb_le s e)) by done. cbn.
    destruct (N.ltb_spec e (len ls)) as [He|He]; [done|].
    rewrite (drop_ge ls (N.to_nat e)); [done|]. unfold len in *. lia.
  - intros Hse Ho. destruct (N.ltb_spec (len ls) s); [done|]. unfold usize_sub.
    rewrite (proj2 (N.leb_gt s e)) by done. by rewrite Ho.
Qed.

(** ** Where a patch writes *)

Section confined.
Context `{Unicode} `{BuildProfile} `{Os} (root : string).

(** One write or removal at a path under the real path of the root. *)
Definition confined_write (o o' : os) : Prop :=
  ∃ cr p, canonicalize o root = IoOk cr ∧ path_starts_with p cr = true ∧
    (o' = (remove_file p o).2 ∨ ∃ c, o' = (fs_write p c o).2).

Definition confined : os → os → Prop := rtc confined_write.

Lemma resolve_inside_state edit fp cr o :
  match resolve_inside edit fp cr o with
  | (Ok c, o') => o' = o ∧ path_starts_with c cr = true
  | (_, o') => o' = o
  end.
Proof.
  unfold resolve_inside, gets, lift. cbn. unfold mbind, M_bind. cbn.
  destruct (canonicalize o fp) as [c|]; cbn; [|done].
  by destruct (path_starts_with c cr) eqn:E; cbn.
Qed.

(** A replaced or deleted file is written at most once, inside the root. *)
Lemma apply_replace_confined edit fp cr p o :
  canonicalize o root = IoOk cr → confined o (apply_replace edit fp cr p o).2.
Proof.
  intros Hcr. unfold apply_replace. rewrite M_bind_run.
  pose proof (resolve_inside_state edit fp cr o) as Hi.
  destruct (resolve_inside edit fp cr o) as [[c|?|] o1]; [destruct Hi as [-> Hc]|subst; apply rtc_refl..].
  unfold gets, lift, syscall, mbind, M_bind. cbn.
  destruct (with_context (read_to_string o c) _) as [content|?|]; cbn; [|apply rtc_refl..].
  destruct (replace_content edit content) as [[nc d]|?|]; cbn; [|apply rtc_refl..].
  destruct (add_deletions d p) as [p1|?|]; cbn; [|apply rtc_refl..].
  destruct (add_additions _ p1) as [p2|?|]; cbn; [|apply rtc_refl..].
  destruct (fs_write c nc o) as [r o2] eqn:Ew. apply rtc_once. exists cr, c.
  split; [done|]. split; [done|]. right. exists nc. rewrite Ew.
  by destruct (with_context r _).
Qed.

Lemma apply_delete_confined edit fp cr p o :
  canonicalize o root = IoOk cr → confined o (apply_delete edit fp cr p o).2.
Proof.
  intros Hcr. unfold apply_delete. rewrite M_bind_run.
  pose proof (resolve_inside_state edit fp cr o) as Hi.
  destruct (resolve_inside edit fp cr o) as [[c|?|] o1]; [destruct Hi as [-> Hc]|subst; apply rtc_refl..].
  unfold gets, lift, syscall, mbind, M_bind. cbn.
  destruct (io_try (read_to_string o c)) as [content|?|]; cbn; [|apply rtc_refl..].
  destruct (add_deletions _ p) as [p1|?|]; cbn; [|apply rtc_refl..].
  destruct (remove_file c o) as [r o2] eqn:Ew. apply rtc_once. exists cr, c.
  split; [done|]. split; [done|]. left. rewrite Ew. by destruct (with_context r _).
Qed.

Lemma apply_edit_confined edit p :
  pe_operation edit ≠ "create" → respects confined (apply_edit root edit p).
Proof.
  intros Hop o. unfold apply_edit, gets, lift. rewrite M_bind_run.
  destruct (canonicalize o root) as [cr|] eqn:Hcr; unfold mbind, M_bind; cbn; [|apply rtc_refl].
  unfold apply_operation. rewrite (proj2 (String.eqb_neq _ _) Hop).
  destruct (pe_operation edit == "replace"); [|destruct (pe_operation edit == "delete")].
  - pose proof (apply_replace_confined edit (path_join root (pe_path edit)) cr p o Hcr).
    by destruct (apply_replace _ _ _ _ o) as [[?|?|] ?].
  - pose proof (apply_delete_confined edit (path_join root (pe_path edit)) cr p o Hcr).
    by destruct (apply_delete _ _ _ _ o) as [[?|?|] ?].
  - apply rtc_refl.
Qed.

(** C35. A patch without [create] edits only ever writes and removes files
    whose path lies under the real path of the workspace root, however it
    ends. *)
Theorem patch_confined params :
  Forall (λ e, pe_operation e ≠ "create") (pap_edits params) →
  respects confined (apply params root).
Proof.
  intros Hall. unfold apply, confined.
  apply respects_bind; [apply _|intros o; apply rtc_refl|intros _].
  apply respects_bind; [apply _| |intros p; apply respects_ret; apply _].
  generalize (mkProgress [] 0 0). induction Hall as [|e es He _ IH]; intros p; cbn [apply_edits].
  - apply respects_ret, _.
  - apply respects_bind; [apply _|by apply apply_edit_confined|apply IH].
Qed.

(** A [create] edit writes first and checks afterwards: once the write
    succeeded, a path that turns out to be outside the workspace is
    reported as an error and the file stays. *)
Theorem create_writes_before_check edit p o cr parent o1 o2 c :
  pe_operation edit = "create" → canonicalize o root = IoOk cr →
  let fp := path_join root (pe_path edit) in
  path_parent fp = Some parent → create_dir_all parent o = (IoOk (), o1) →
  fs_write fp (pe_new_text edit) o1 = (IoOk (), o2) →
  canonicalize o2 fp = IoOk c → path_starts_with c cr = false →
  apply_edit root edit p o = (Err (escapes edit), o2).
Proof.
  intros Hop Hcr fp Hp Hd Hw Hc Hs.
  unfold apply_edit, gets, lift. rewrite M_bind_run. rewrite Hcr.
  unfold mbind, M_bind. cbn. unfold apply_operation. rewrite Hop. cbn. unfold apply_create. fold fp. rewrite Hp.
  unfold gets, lift, syscall, mbind, M_bind. cbn. rewrite Hd. cbn. rewrite Hw. cbn.
  rewrite Hc. cbn. by rewrite Hs.
Qed.

Lemma add_additions_changed n p q :
  add_additions n p = Ok q → pg_changed_files q = pg_changed_files p.
Proof. unfold add_additions. intros E. by res_inv. Qed.

Lemma add_deletions_changed n p q :
  add_deletions n p = Ok q → pg_changed_files q = pg_changed_files p.
Proof. unfold add_deletions. intros E. by res_inv. Qed.

(** The operations leave the list of changed files alone. *)
Lemma apply_operation_changed edit fp cr p o q o' :
  apply_operation edit fp cr p o = (Ok q, o') → pg_changed_files q = pg_changed_files p.
Proof.
  unfold apply_operation, apply_create, apply_replace, apply_delete, gets, lift, syscall, mret, M_ret,
    mbind, M_bind.
  intros E. repeat (case_match; simplify_eq/=); try done;
    repeat match goal with
    | H : add_additions _ _ = Ok _ |- _ => apply add_additions_changed in H
    | H : add_deletions _ _ = Ok _ |- _ => apply add_deletions_changed in H
    end; congruence.
Qed.

(** The paths an edit list adds to the changed files. *)
Lemma apply_edit_changed edit p o q o' :
  apply_edit root edit p o = (Ok q, o') →
  pg_changed_files q =
    if contains_elem (pg_changed_files p) (pe_path edit) then pg_changed_files p
    else pg_changed_files p ++ [pe_path edit].
Proof.
  unfold apply_edit, gets, lift. rewrite M_bind_run.
  destruct (canonicalize o root) as [cr|]; unfold mbind, M_bind; cbn; [|done].
  destruct (apply_operation _ _ _ _ o) as [[p1|?|] o1] eqn:E; [|done..]. intros [= <- _].
  apply apply_operation_changed in E. rewrite E. destruct (contains_elem _ _); cbn; congruence.
Qed.

Lemma apply_edits_changed edits p o q o' :
  apply_edits root edits p o = (Ok q, o') → NoDup (pg_changed_files p) →
  NoDup (pg_changed_files q) ∧
  ∀ x, x ∈ pg_changed_files q ↔ x ∈ pg_changed_files p ∨ x ∈ map pe_path edits.
Proof.
  revert p o. induction edits as [|e es IH]; intros p o; cbn [apply_edits map].
  - intros [= <- _]. set_solver.
  - rewrite M_bind_run. destruct (apply_edit root e p o) as [[p1|?|] o1] eqn:E; [|done..].
    apply apply_edit_changed in E. intros Hr Hnd.
    unfold contains_elem in E. case_bool_decide as Hin.
    + destruct (IH p1 o1 Hr) as [? Hx]; [by rewrite E|]. rewrite E in Hx. set_solver.
    + destruct (IH p1 o1 Hr) as [? Hx].
      { rewrite E. apply NoDup_app. split_and!; [done|set_solver|apply NoDup_singleton]. }
      rewrite E in Hx. set_solver.
Qed.

(** A patch that succeeds reports every path it edited once, and no
    other. *)
Theorem apply_reports_paths params o r o' :
  apply params root o = (Ok r, o') →
  NoDup (par_changed_files r) ∧
  (∀ x, x ∈ par_changed_files r ↔ x ∈ map pe_path (pap_edits params)) ∧
  par_approval_required r = None.
Proof.
  unfold apply, ensure_dir. rewrite M_bind_run. destruct (is_dir o root); cbn; [|done].
  rewrite M_bind_run.
  destruct (apply_edits root (pap_edits params) (mkProgress [] 0 0) o) as [[q|?|] o1] eqn:E; [|done..].
  intros [= <- _]. cbn. apply apply_edits_changed in E as [Hnd Hx]; [|constructor].
  split; [done|]. split; [|done]. intros x. rewrite Hx. set_solver.
Qed.
End confined.

(** ** Concrete patches *)

Definition demo_patch_params (path operation : string) : PatchApplyParams :=
  mkPatchApplyParams "r1" [mkPatchEdit path operation (Some 2%N) (Some 2%N) None "TWO" None None].

Definition demo_apply := apply (H:=demo_unicode) (H0:=demo_profile) (H1:=demo_os).

Example demo_replace_range :
  let '(r, o) := demo_apply (demo_patch_params "a.txt" "replace") "/ws" demo_fs in
  r = Ok (mkPatchApplyResult ["a.txt"] "+1 -1" None) ∧
  (o : DemoFs).(fs_files) !! "/ws/a.txt" = Some ("one" +:+ nl +:+ "TWO").
Proof. vm_compute. split; reflexivity. Qed.

Lemma patch_confined_witness :
  confined (H1:=demo_os) "/ws" demo_fs
    (demo_apply (demo_patch_params "a.txt" "delete") "/ws" demo_fs).2.
Proof.
  apply (patch_confined (H:=demo_unicode) (H0:=demo_profile) (H1:=demo_os) "/ws"
    (demo_patch_params "a.txt" "delete")).
  constructor; [discriminate|constructor].
Defined.

Lemma create_writes_before_check_witness :
  let edit := mkPatchEdit "../evil.txt" "create" None None None "x" None None in
  ∃ o : DemoFs,
    apply_edit (H:=demo_unicode) (H0:=demo_profile) (H1:=demo_os) "/ws" edit (mkProgress [] 0 0)
      demo_fs = (Err (escapes edit), o) ∧
    fs_files o !! "/evil.txt" = Some "x".
Proof.
  cbn zeta. eexists. split.
  - eapply (create_writes_before_check (H:=demo_unicode) (H0:=demo_profile) (H1:=demo_os) "/ws");
      [reflexivity|vm_compute; reflexivity..].
  - vm_compute. reflexivity.
Defined.

Lemma apply_reports_paths_witness :
  NoDup (par_changed_files (mkPatchApplyResult ["a.txt"] "+1 -1" None)).
Proof.
  eapply (apply_reports_paths (H:=demo_unicode) (H0:=demo_profile) (H1:=demo_os) "/ws"
    (demo_patch_params "a.txt" "replace") demo_fs).
  vm_compute. reflexivity.
Defined.

Lemma read_confined_witness :
  ∃ c cr : string, components cr `prefix_of` components c.
Proof.
  destruct (read_confined (H:=demo_os) (mkFileReadParams "r1" "a.txt" (Some 1%N) (Some 1%N) None)
    "/ws" demo_fs (mkFileReadResult "a.txt" "one" 1 1 2) demo_fs)
    as (_ & c & cr & content & _ & _ & Hp & _).
  - vm_compute. reflexivity.
  - exists c, cr. exact Hp.
Defined.
