(* ===== verification/Store.v ===== *)
(** * Persistence (deterministic-daemon: persistence.rs)

    The three tables of the SQLite database as lists of rows, and one
    definition per method of [Store] with the meaning of its SQL statement.
    JSON columns hold text: serde_json is a parameter, a [Codec] per type.
    What SQL leaves open (the order of rows a query does not order) or the
    build decides (enforcement of foreign keys) is a parameter of [Sqlite].
    The clock and the source of random ids are sequences, [Env], read at the
    tick of the world. *)

From S2P Require Import Prelude RustStr Types Lifecycle Os.

(** ** Parameters *)

(** serde_json at one type: the text of a value, and the value of a text or
    the error. *)
Class Codec (A : Type) := {
  to_string : A → string;
  from_str : string → A + string
}.

Class Serde := {
  #[global] serde_strings :: Codec (list string);
  #[global] serde_retryable :: Codec RetryableAction;
  #[global] serde_policy :: Codec RunPolicy;
  #[global] serde_outcome :: Codec RunOutcome;
  #[global] serde_reopen :: Codec ReopenMetadata;
  #[global] serde_archive :: Codec ArchiveMetadata;
  #[global] serde_unarchive :: Codec UnarchiveMetadata;
  #[global] serde_annotation :: Codec RunAnnotation;
  #[global] serde_pin :: Codec PinMetadata;
  #[global] serde_snooze :: Codec SnoozeMetadata
}.

(** Serialising and reading back gives the value; the empty array is ["[]"]
    and an object with fields is neither empty nor ["{}"]. *)
Class SerdeLaws `{Serde} := {
  from_to_strings (x : list string) : from_str (to_string x) = inl x;
  from_to_retryable (x : RetryableAction) : from_str (to_string x) = inl x;
  from_to_policy (x : RunPolicy) : from_str (to_string x) = inl x;
  from_to_outcome (x : RunOutcome) : from_str (to_string x) = inl x;
  from_to_reopen (x : ReopenMetadata) : from_str (to_string x) = inl x;
  from_to_archive (x : ArchiveMetadata) : from_str (to_string x) = inl x;
  from_to_unarchive (x : UnarchiveMetadata) : from_str (to_string x) = inl x;
  from_to_annotation (x : RunAnnotation) : from_str (to_string x) = inl x;
  from_to_pin (x : PinMetadata) : from_str (to_string x) = inl x;
  from_to_snooze (x : SnoozeMetadata) : from_str (to_string x) = inl x;
  to_string_nil : to_string ([] : list string) = "[]";
  policy_text (x : RunPolicy) : to_string x ≠ "" ∧ to_string x ≠ "{}"
}.

(** [scan] is the order in which a query visits rows; [conversion_error] the
    text rusqlite gives for a column that does not convert, [range_error] for
    an integer that has no 64-bit value, [constraint_error] for a foreign or
    unique key that is violated. *)
Class Sqlite := {
  foreign_keys : bool;
  scan : ∀ {A}, list A → list A;
  conversion_error : nat → string → string;
  range_error : string;
  constraint_error : string
}.

(** Every row is visited once. *)
Class SqliteLaws `{Sqlite} := scan_perm : ∀ {A} (l : list A), scan l ≡ₚ l.

(** The clock ([Utc::now().to_rfc3339()], [timestamp_millis()] and
    [format("%Y-%m-%d")]), random ids
    ([Uuid::new_v4()]) and the milliseconds a command took, at each tick. *)
Class Env := {
  now_at : nat → string;
  millis_at : nat → i64;
  uuid_at : nat → string;
  today_at : nat → string;
  elapsed_ms_at : nat → u64
}.

(** ** Tables *)

Record RunRow := mkRunRow {
  row_run_id : string;
  row_workspace_id : string;
  row_user_goal : string;
  row_status : string;
  row_plan : string;
  row_current_step : i64;
  row_completed_steps : string;
  row_pending_steps : string;
  row_last_action : option string;
  row_last_observation : option string;
  row_recommended_next_action : option string;
  row_recommended_tool : option string;
  row_latest_diff_summary : option string;
  row_latest_test_result : option string;
  row_focus_paths : string;
  row_warnings : string;
  row_retryable_action : option string;
  row_policy_profile : option string;
  row_outcome_kind : option string;
  row_finalized_outcome : option string;
  row_reopen_metadata : option string;
  row_supersedes_run_id : option string;
  row_superseded_by_run_id : option string;
  row_supersession_reason : option string;
  row_superseded_at : option string;
  row_is_archived : i64;
  row_archive_metadata : option string;
  row_unarchive_metadata : option string;
  row_annotation : option string;
  row_pin_metadata : option string;
  row_is_snoozed : i64;
  row_snooze_metadata : option string;
  row_priority : string;
  row_assignee : option string;
  row_ownership_note : option string;
  row_due_date : option string;
  row_blocked_by_run_ids : string;
  row_effort : option string;
  row_created_at : string;
  row_updated_at : string
}.

Record ApprovalRow := mkApprovalRow {
  ap_approval_id : string;
  ap_run_id : string;
  ap_action_description : string;
  ap_risk_reason : string;
  ap_policy_rationale : string;
  ap_status : string;
  ap_decision : option string;
  ap_decision_reason : option string;
  ap_created_at : string;
  ap_resolved_at : option string
}.

(** Rows of [audit_trail] are in the order of their row ids. *)
Record Db := mkDb {
  db_runs : list RunRow;
  db_approvals : list ApprovalRow;
  db_audit : list RunHistoryEntry
}.

(** A fresh database, after the migrations. *)
Definition db_open : Db := mkDb [] [] [].

(** The world of the daemon: the database, the saved queue views (the
    [QUEUE_VIEWS] of handlers.rs, kept in memory), the system and the tick. *)
Record World `{Os} := mkWorld {
  w_db : Db;
  w_views : gmap string QueueView;
  w_os : os;
  w_tick : nat
}.
Arguments mkWorld {_} w_db w_views w_os w_tick.

Definition set_db `{Os} (db : Db) (w : World) : World :=
  mkWorld db (w_views w) (w_os w) (w_tick w).

Section world.
Context `{Os} `{Env}.

Definition ticking {A} (f : nat → A) : M World A :=
  λ w, (Ok (f (w_tick w)), mkWorld (w_db w) (w_views w) (w_os w) (S (w_tick w))).

Definition now : M World string := ticking now_at.
Definition now_millis : M World i64 := ticking millis_at.
Definition new_uuid : M World string := ticking uuid_at.
Definition today : M World string := ticking today_at.
Definition elapsed_ms : M World u64 := ticking elapsed_ms_at.

(** A call of the core that only touches the system. *)
Definition on_os {A} (m : M os A) : M World A :=
  λ w, let '(r, o) := m (w_os w) in (r, mkWorld (w_db w) (w_views w) o (w_tick w)).
End world.

(** ** [INSERT OR REPLACE]: the row with the same key goes, the new one is
    the last *)

Definition upsert {A} (key : A → string) (r : A) (l : list A) : list A :=
  List.filter (λ x, negb (key x == key r)) l ++ [r].

Definition run_exists (db : Db) (run_id : string) : bool :=
  existsb (λ r, row_run_id r == run_id) (db_runs db).

(** ** Runs *)

(** The row of a state.  A step above the range of a 64-bit integer has no
    SQL value. *)
Definition run_row `{Serde} (state : RunState) : RunRow := {|
  row_run_id := rs_run_id state;
  row_workspace_id := rs_workspace_id state;
  row_user_goal := rs_user_goal state;
  row_status := rs_status state;
  row_plan := to_string (rs_plan state);
  row_current_step := Z.of_N (rs_current_step state);
  row_completed_steps := to_string (rs_completed_steps state);
  row_pending_steps := to_string (rs_pending_steps state);
  row_last_action := rs_last_action state;
  row_last_observation := rs_last_observation state;
  row_recommended_next_action := rs_recommended_next_action state;
  row_recommended_tool := rs_recommended_tool state;
  row_latest_diff_summary := rs_latest_diff_summary state;
  row_latest_test_result := rs_latest_test_result state;
  row_focus_paths := to_string (rs_focus_paths state);
  row_warnings := to_string (rs_warnings state);
  row_retryable_action := to_string <$> rs_retryable_action state;
  row_policy_profile := Some (to_string (rs_policy_profile state));
  row_outcome_kind := ro_outcome_kind <$> rs_finalized_outcome state;
  row_finalized_outcome := to_string <$> rs_finalized_outcome state;
  row_reopen_metadata := to_string <$> rs_reopen_metadata state;
  row_supersedes_run_id := rs_supersedes_run_id state;
  row_superseded_by_run_id := rs_superseded_by_run_id state;
  row_supersession_reason := rs_supersession_reason state;
  row_superseded_at := rs_superseded_at state;
  row_is_archived :=
    if bool_decide (is_Some (rs_archive_metadata state)) &&
       bool_decide (rs_unarchive_metadata state = None) then 1 else 0;
  row_archive_metadata := to_string <$> rs_archive_metadata state;
  row_unarchive_metadata := to_string <$> rs_unarchive_metadata state;
  row_annotation := to_string <$> rs_annotation state;
  row_pin_metadata := to_string <$> rs_pin_metadata state;
  row_is_snoozed := if bool_decide (is_Some (rs_snooze_metadata state)) then 1 else 0;
  row_snooze_metadata := to_string <$> rs_snooze_metadata state;
  row_priority := priority_as_str (rs_priority state);
  row_assignee := rs_assignee state;
  row_ownership_note := rs_ownership_note state;
  row_due_date := rs_due_date state;
  row_blocked_by_run_ids := to_string (rs_blocked_by_run_ids state);
  row_effort := effort_as_str <$> rs_effort state;
  row_created_at := rs_created_at state;
  row_updated_at := rs_updated_at state
|}.

Definition save_run `{Serde} `{Sqlite} (state : RunState) (db : Db) : res () * Db :=
  if (i64_max <? rs_current_step state)%N then (Err ("failed to save run: " +:+ range_error), db)
  else (Ok (), mkDb (upsert row_run_id (run_row state) (db_runs db)) (db_approvals db) (db_audit db)).

(** A JSON column. *)
Definition json_col `{Sqlite} {A} `{Codec A} (idx : nat) (text : string) : res A :=
  match from_str text with
  | inl a => Ok a
  | inr e => Err (conversion_error idx e)
  end.

Definition json_opt `{Sqlite} {A} `{Codec A} (idx : nat) (text : option string)
    : res (option A) :=
  match text with
  | Some t => a ← json_col idx t; Ok (Some a)
  | None => Ok None
  end.

Definition row_state `{Serde} `{Sqlite} (row : RunRow) : res RunState :=
  plan ← json_col 4 (row_plan row);
  completed_steps ← json_col 6 (row_completed_steps row);
  pending_steps ← json_col 7 (row_pending_steps row);
  focus_paths ← json_col 14 (row_focus_paths row);
  warnings ← json_col 15 (row_warnings row);
  retryable_action ← json_opt 16 (row_retryable_action row);
  policy ← json_opt 17
    (match row_policy_profile row with
     | Some s => if negb (str_is_empty s) && negb (s == "{}") then Some s else None
     | None => None
     end);
  let policy_profile := default RunPolicy_default policy in
  finalized_outcome ← json_opt 18 (row_finalized_outcome row);
  reopen_metadata ← json_opt 19 (row_reopen_metadata row);
  archive_metadata ← json_opt 24 (row_archive_metadata row);
  unarchive_metadata ← json_opt 25 (row_unarchive_metadata row);
  annotation ← json_opt 26 (row_annotation row);
  pin_metadata ← json_opt 27 (row_pin_metadata row);
  snooze_metadata ← json_opt 28 (row_snooze_metadata row);
  priority ← ok_or (priority_parse (row_priority row))
    (conversion_error 29 ("invalid run priority in SQLite: '" +:+ row_priority row +:+ "'"));
  blocked_by_run_ids ← json_col 33 (row_blocked_by_run_ids row);
  let effort := row_effort row ≫= effort_parse in
  Ok {|
    rs_run_id := row_run_id row;
    rs_workspace_id := row_workspace_id row;
    rs_user_goal := row_user_goal row;
    rs_status := row_status row;
    rs_plan := plan;
    rs_current_step := Z.to_N (row_current_step row);
    rs_completed_steps := completed_steps;
    rs_pending_steps := pending_steps;
    rs_last_action := row_last_action row;
    rs_last_observation := row_last_observation row;
    rs_recommended_next_action := row_recommended_next_action row;
    rs_recommended_tool := row_recommended_tool row;
    rs_latest_diff_summary := row_latest_diff_summary row;
    rs_latest_test_result := row_latest_test_result row;
    rs_focus_paths := focus_paths;
    rs_warnings := warnings;
    rs_retryable_action := retryable_action;
    rs_policy_profile := policy_profile;
    rs_finalized_outcome := finalized_outcome;
    rs_reopen_metadata := reopen_metadata;
    rs_supersedes_run_id := row_supersedes_run_id row;
    rs_superseded_by_run_id := row_superseded_by_run_id row;
    rs_supersession_reason := row_supersession_reason row;
    rs_superseded_at := row_superseded_at row;
    rs_archive_metadata := archive_metadata;
    rs_unarchive_metadata := unarchive_metadata;
    rs_annotation := annotation;
    rs_pin_metadata := pin_metadata;
    rs_snooze_metadata := snooze_metadata;
    rs_priority := priority;
    rs_assignee := row_assignee row;
    rs_ownership_note := row_ownership_note row;
    rs_due_date := row_due_date row;
    rs_blocked_by_run_ids := blocked_by_run_ids;
    rs_effort := effort;
    rs_created_at := row_created_at row;
    rs_updated_at := row_updated_at row
  |}.

Definition get_run `{Serde} `{Sqlite} (run_id : string) (db : Db) : res (option RunState) :=
  match find_first (λ r, row_run_id r == run_id) (db_runs db) with
  | None => Ok None
  | Some row =>
      match row_state row with
      | Ok state => Ok (Some state)
      | Err e => Err ("failed to read row: " +:+ e)
      | Panic => Panic
      end
  end.

Definition workspace_for_run `{Serde} `{Sqlite} (run_id : string) (db : Db)
    : res (option string) :=
  r ← get_run run_id db; Ok (option_map rs_workspace_id r).

(** ** Approvals *)

Definition approval_of (r : ApprovalRow) : PendingApproval := {|
  pa_approval_id := ap_approval_id r;
  pa_run_id := ap_run_id r;
  pa_action_description := ap_action_description r;
  pa_risk_reason := ap_risk_reason r;
  pa_policy_rationale := ap_policy_rationale r;
  pa_status := ap_status r;
  pa_created_at := ap_created_at r
|}.

Definition approval_row (a : PendingApproval) : ApprovalRow := {|
  ap_approval_id := pa_approval_id a;
  ap_run_id := pa_run_id a;
  ap_action_description := pa_action_description a;
  ap_risk_reason := pa_risk_reason a;
  ap_policy_rationale := pa_policy_rationale a;
  ap_status := pa_status a;
  ap_decision := None;
  ap_decision_reason := None;
  ap_created_at := pa_created_at a;
  ap_resolved_at := None
|}.

Definition save_approval `{Sqlite} (approval : PendingApproval) (db : Db) : res () * Db :=
  if foreign_keys && negb (run_exists db (pa_run_id approval)) then
    (Err ("failed to save approval: " +:+ constraint_error), db)
  else
    (Ok (), mkDb (db_runs db) (upsert ap_approval_id (approval_row approval) (db_approvals db))
              (db_audit db)).

Definition get_pending_approvals `{Sqlite} (run_id : string) (db : Db)
    : res (list PendingApproval) :=
  Ok (map approval_of
        (scan (List.filter (λ r, (ap_run_id r == run_id) && (ap_status r == "pending"))
                 (db_approvals db)))).

Definition get_approval (approval_id : string) (db : Db) : res (option PendingApproval) :=
  Ok (option_map approval_of
        (find_first (λ r, ap_approval_id r == approval_id) (db_approvals db))).

(** The [UPDATE] of [resolve_approval] on one row. *)
Definition resolve_row (now status decision : string) (reason : option string) (r : ApprovalRow)
    : ApprovalRow := {|
  ap_approval_id := ap_approval_id r;
  ap_run_id := ap_run_id r;
  ap_action_description := ap_action_description r;
  ap_risk_reason := ap_risk_reason r;
  ap_policy_rationale := ap_policy_rationale r;
  ap_status := status;
  ap_decision := Some decision;
  ap_decision_reason := reason;
  ap_created_at := ap_created_at r;
  ap_resolved_at := Some now
|}.

Definition resolve_approval (now approval_id decision : string) (reason : option string) (db : Db)
    : res () * Db :=
  match (if decision == "approve" then Some "approved"
         else if decision == "deny" then Some "denied" else None) with
  | None => (Err "invalid decision: must be 'approve' or 'deny'", db)
  | Some status =>
      let hit r := (ap_approval_id r == approval_id) && (ap_status r == "pending") in
      if existsb hit (db_approvals db) then
        (Ok (), mkDb (db_runs db)
                  (map (λ r, if hit r then resolve_row now status decision reason r else r)
                     (db_approvals db)) (db_audit db))
      else (Err ("approval not found or already resolved: " +:+ approval_id), db)
  end.

(** ** Listing *)

(** [LIMIT ?] with [limit as i64]: a limit beyond the range of a 64-bit
    integer becomes negative, which is no limit. *)
Definition sql_limit {A} (limit : usize) (l : list A) : list A :=
  if (limit <=? i64_max)%N then take (N.to_nat limit) l else l.

(** The [WHERE] clause. *)
Definition list_runs_where (workspace_id status_filter : option string)
    (include_archived archived_only include_snoozed snoozed_only : bool) (r : RunRow) : bool :=
  match workspace_id with Some w => row_workspace_id r == w | None => true end &&
  match status_filter with Some s => row_status r == s | None => true end &&
  (if archived_only then (row_is_archived r =? 1)%Z
   else if negb include_archived then (row_is_archived r =? 0)%Z else true) &&
  (if snoozed_only then (row_is_snoozed r =? 1)%Z
   else if negb include_snoozed then (row_is_snoozed r =? 0)%Z else true).

(** The [ORDER BY] clause: pinned rows first, then the latest update. *)
Definition list_runs_order (a b : RunRow) : bool :=
  let ka := bool_decide (is_Some (row_pin_metadata a)) in
  let kb := bool_decide (is_Some (row_pin_metadata b)) in
  if ka && negb kb then true
  else if negb ka && kb then false
  else str_le (row_updated_at b) (row_updated_at a).

(** [.ok()] of a parsed column. *)
Definition json_ok {A} `{Codec A} (text : option string) : option A :=
  t ← text; match from_str t with inl a => Some a | inr _ => None end.

Definition row_summary `{Serde} `{Sqlite} (row : RunRow) : res RunSummary :=
  let total_steps :=
    match from_str (A:=list string) (row_plan row) with inl v => len v | inr _ => 0%N end in
  let reopen : option ReopenMetadata := json_ok (row_reopen_metadata row) in
  let archive : option ArchiveMetadata := json_ok (row_archive_metadata row) in
  let unarchive : option UnarchiveMetadata := json_ok (row_unarchive_metadata row) in
  let annotation := default RunAnnotation_default (json_ok (row_annotation row)) in
  let pin : option PinMetadata := json_ok (row_pin_metadata row) in
  let snooze : option SnoozeMetadata := json_ok (row_snooze_metadata row) in
  priority ← ok_or (priority_parse (row_priority row))
    (conversion_error 18 ("invalid run priority in SQLite: '" +:+ row_priority row +:+ "'"));
  let blocked_by_run_ids :=
    match from_str (A:=list string) (row_blocked_by_run_ids row) with
    | inl v => v | inr _ => [] end in
  Ok {|
    sum_run_id := row_run_id row;
    sum_workspace_id := row_workspace_id row;
    sum_user_goal := row_user_goal row;
    sum_status := row_status row;
    sum_current_step := Z.to_N (row_current_step row);
    sum_total_steps := total_steps;
    sum_outcome_kind := row_outcome_kind row;
    sum_reopen_count := rm_reopen_count <$> reopen;
    sum_supersedes_run_id := row_supersedes_run_id row;
    sum_superseded_by_run_id := row_superseded_by_run_id row;
    sum_is_archived := if (row_is_archived row =? 0)%Z then None else Some true;
    sum_archive_reason := am_reason <$> archive;
    sum_archived_at := am_archived_at <$> archive;
    sum_unarchive_reason := um_reason <$> unarchive;
    sum_unarchived_at := um_unarchived_at <$> unarchive;
    sum_labels := an_labels annotation;
    sum_operator_note := an_operator_note annotation;
    sum_is_pinned := (λ _, true) <$> pin;
    sum_pin_reason := pm_reason <$> pin;
    sum_pinned_at := pm_pinned_at <$> pin;
    sum_is_snoozed := (λ _, true) <$> snooze;
    sum_snooze_reason := snm_reason <$> snooze;
    sum_snoozed_at := snm_snoozed_at <$> snooze;
    sum_priority := priority;
    sum_assignee := row_assignee row;
    sum_due_date := row_due_date row;
    sum_is_blocked := Some (negb (bool_decide (blocked_by_run_ids = [])));
    sum_blocked_by_count := Some (len blocked_by_run_ids);
    sum_is_blocking := None;
    sum_blocking_run_count := None;
    sum_blocking_reason := None;
    sum_effort := row_effort row ≫= effort_parse;
    sum_age_days := None;
    sum_is_stale := None;
    sum_staleness_reason := None;
    sum_staleness_bucket := None;
    sum_triage_bucket := None;
    sum_triage_reason := None;
    sum_created_at := row_created_at row;
    sum_updated_at := row_updated_at row
  |}.

(** The loop over the rows. *)
Fixpoint read_summaries `{Serde} `{Sqlite} (label_filter : option string) (pinned_only : bool)
    (rows : list RunRow) : res (list RunSummary) :=
  match rows with
  | [] => Ok []
  | row :: rows' =>
      match row_summary row with
      | Err e => Err ("failed to read run row: " +:+ e)
      | Panic => Panic
      | Ok summary =>
          rest ← read_summaries label_filter pinned_only rows';
          let keep :=
            match label_filter with
            | Some label => contains_elem (sum_labels summary) label
            | None => true
            end &&
            (negb pinned_only || bool_decide (sum_is_pinned summary = Some true)) in
          Ok (if keep then summary :: rest else rest)
      end
  end.

Definition list_runs `{Serde} `{Sqlite} (limit : usize) (workspace_id status_filter : option string)
    (include_archived archived_only : bool) (label_filter : option string)
    (pinned_only include_snoozed snoozed_only : bool) (db : Db) : res (list RunSummary) :=
  let rows := List.filter (list_runs_where workspace_id status_filter include_archived
                             archived_only include_snoozed snoozed_only) (db_runs db) in
  read_summaries label_filter pinned_only
    (sql_limit limit (sort_by list_runs_order (scan rows))).

(** ** Audit trail *)

Definition insert_audit `{Sqlite} (e : RunHistoryEntry) (db : Db) : res () * Db :=
  if (foreign_keys && negb (run_exists db (rhe_run_id e))) ||
     existsb (λ x, rhe_entry_id x == rhe_entry_id e) (db_audit db)
  then (Err ("failed to append audit entry: " +:+ constraint_error), db)
  else (Ok (), mkDb (db_runs db) (db_approvals db) (db_audit db ++ [e])).

(** [ORDER BY occurred_at DESC, rowid DESC]. *)
Definition audit_order (a b : RunHistoryEntry) : bool :=
  str_le (rhe_occurred_at b) (rhe_occurred_at a).

Definition get_audit_entries (run_id : string) (limit : usize) (db : Db)
    : res (list RunHistoryEntry) :=
  Ok (sql_limit limit
        (sort_by audit_order
           (rev (List.filter (λ e, rhe_run_id e == run_id) (db_audit db))))).

(** ** Blockers *)

(** [*map.entry(id).or_insert(0) += 1] for every id of every row. *)
Definition count_id (m : gmap string N) (id : string) : gmap string N :=
  <[id := (default 0 (m !! id) + 1)%N]> m.

Definition get_blocker_impact_map `{Serde} (db : Db) : gmap string N :=
  let texts := List.filter (λ t, negb (t == "[]")) (map row_blocked_by_run_ids (db_runs db)) in
  let ids := texts ≫= λ t, match from_str (A:=list string) t with inl v => v | inr _ => [] end in
  foldl count_id ∅ ids.

(** ** The store in the world *)

Section store.
Context `{Os} `{Env} `{Serde} `{Sqlite}.

(** A statement that writes. *)
Definition on_db {A} (f : Db → res A * Db) : M World A :=
  λ w, let '(r, db) := f (w_db w) in (r, set_db db w).

(** A query. *)
Definition query {A} (f : Db → res A) : M World A := λ w, (f (w_db w), w).

Definition append_audit_entry (run_id event_kind summary : string) (metadata : option string)
    : M World string :=
  entry_id ← new_uuid;
  now ← now;
  _ ← on_db (insert_audit (mkRunHistoryEntry entry_id run_id event_kind summary metadata now));
  mret entry_id.

Definition resolve_approval_now (approval_id decision : string) (reason : option string)
    : M World () :=
  now ← now;
  on_db (resolve_approval now approval_id decision reason).
End store.
