(* ===== verification/DemoSerde.v ===== *)
(** * A concrete codec

    The properties of the store are proved for any codec that reads back what
    it writes.  This file gives one, so that they can be applied to concrete
    databases: a value is written as the list of the texts of its fields,
    every byte escaped. *)

From S2P Require Import Prelude RustStr Types Lifecycle Os Store.

(** ** Lists of texts *)

Definition esc : ascii := "+"%char.
Definition stop : ascii := ";"%char.

Fixpoint write_item (s rest : string) : string :=
  match s with
  | EmptyString => String stop rest
  | String a s' => String esc (String a (write_item s' rest))
  end.

Definition write_items (l : list string) : string := foldr write_item "" l.

Fixpoint read_items (s : string) : option (list string) :=
  match s with
  | EmptyString => Some []
  | String a s1 =>
      if Ascii.eqb a stop then l ← read_items s1; Some ("" :: l)
      else match s1 with
           | String b s2 =>
               match read_items s2 with
               | Some (x :: l) => Some (String b x :: l)
               | _ => None
               end
           | EmptyString => None
           end
  end.

Lemma read_write_item s rest l :
  read_items rest = Some l → read_items (write_item s rest) = Some (s :: l).
Proof.
  intros Hr. induction s as [|a s IH]; cbn; [by rewrite Hr|]. by rewrite IH.
Qed.

Lemma read_write_items l : read_items (write_items l) = Some l.
Proof. induction l as [|s l IH]; [done|]. by apply read_write_item. Qed.

(** ** Fields *)

Class Fields (A : Type) := {
  fields : A → list string;
  of_fields : list string → option A;
  of_fields_fields x : of_fields (fields x) = Some x
}.

(** The text is the list of fields between brackets. *)
Definition fields_text {A} `{Fields A} (x : A) : string := "[" +:+ write_items (fields x) +:+ "]".

Fixpoint drop_last (s : string) : string :=
  match s with
  | EmptyString => EmptyString
  | String a EmptyString => EmptyString
  | String a s' => String a (drop_last s')
  end.

Definition fields_read {A} `{Fields A} (s : string) : A + string :=
  match read_items (drop_last (str_drop 1 s)) ≫= of_fields with
  | Some x => inl x
  | None => inr "invalid text"
  end.

Lemma drop_last_app s a : drop_last (s +:+ String a "") = s.
Proof.
  induction s as [|b s IH]; [done|].
  change (String b s +:+ String a "") with (String b (s +:+ String a "")).
  cbn [drop_last]. rewrite IH. by destruct s.
Qed.

Lemma fields_roundtrip {A} `{Fields A} (x : A) : fields_read (fields_text x) = inl x.
Proof.
  unfold fields_read, fields_text.
  change (str_drop 1 ("[" +:+ write_items (fields x) +:+ "]")) with (write_items (fields x) +:+ "]").
  rewrite drop_last_app, read_write_items. cbn. by rewrite of_fields_fields.
Qed.

Definition fields_codec {A} `{Fields A} : Codec A :=
  {| to_string := fields_text; from_str := fields_read |}.

(** ** Atoms *)

Definition bool_text (b : bool) : string := if b then "t" else "f".
Definition bool_read (s : string) : bool := s == "t".

Definition opt_text (o : option string) : string :=
  match o with Some s => "s" +:+ s | None => "n" end.
Definition opt_read (s : string) : option string :=
  match s with String a s' => if Ascii.eqb a "s"%char then Some s' else None | _ => None end.

Fixpoint pos_text (p : positive) : string :=
  match p with
  | xH => ""
  | xO p => String "0"%char (pos_text p)
  | xI p => String "1"%char (pos_text p)
  end.
Fixpoint pos_read (s : string) : positive :=
  match s with
  | EmptyString => xH
  | String a s' => if Ascii.eqb a "0"%char then xO (pos_read s') else xI (pos_read s')
  end.

Definition num_text (n : N) : string :=
  match n with N0 => "z" | Npos p => "p" +:+ pos_text p end.
Definition num_read (s : string) : N :=
  match s with
  | String a s' => if Ascii.eqb a "p"%char then Npos (pos_read s') else N0
  | EmptyString => N0
  end.

Definition list_text (l : list string) : string := write_items l.
Definition list_read (s : string) : list string := default [] (read_items s).

Lemma bool_rt b : bool_read (bool_text b) = b.
Proof. by destruct b. Qed.
Lemma opt_rt o : opt_read (opt_text o) = o.
Proof. by destruct o. Qed.
Lemma pos_rt p : pos_read (pos_text p) = p.
Proof. induction p as [p IH|p IH|]; cbn; by rewrite ?IH. Qed.
Lemma num_rt n : num_read (num_text n) = n.
Proof. destruct n as [|p]; [done|].
  change (num_read (num_text (Npos p))) with (Npos (pos_read (pos_text p))). by rewrite pos_rt. Qed.
Lemma list_rt l : list_read (list_text l) = l.
Proof. unfold list_read, list_text. by rewrite read_write_items. Qed.

#[local] Arguments bool_text : simpl never.
#[local] Arguments bool_read : simpl never.
#[local] Arguments opt_text : simpl never.
#[local] Arguments opt_read : simpl never.
#[local] Arguments num_text : simpl never.
#[local] Arguments num_read : simpl never.
#[local] Arguments list_text : simpl never.
#[local] Arguments list_read : simpl never.

#[local] Ltac fields_rt :=
  intros []; cbn; by rewrite ?bool_rt, ?opt_rt, ?num_rt, ?list_rt.

#[export] Instance strings_fields : Fields (list string) :=
  {| fields l := l; of_fields l := Some l; of_fields_fields _ := eq_refl |}.

#[export] Instance retryable_fields : Fields RetryableAction := {|
  fields x := [ra_kind x; ra_summary x; opt_text (ra_payload x); ra_retryable_reason x;
    bool_text (ra_is_valid x); bool_text (ra_is_recommended x);
    opt_text (ra_invalidation_reason x); ra_recommended_tool x; ra_created_at x];
  of_fields l :=
    match l with
    | [a; b; c; d; e; f; g; h; i] =>
        Some (mkRetryableAction a b (opt_read c) d (bool_read e) (bool_read f) (opt_read g) h i)
    | _ => None
    end;
  of_fields_fields := ltac:(fields_rt)
|}.

#[export] Instance policy_fields : Fields RunPolicy := {|
  fields x := [num_text (pol_patch_edit_threshold x); bool_text (pol_delete_requires_approval x);
    bool_text (pol_sensitive_path_requires_approval x);
    bool_text (pol_outside_focus_requires_approval x);
    list_text (pol_extra_safe_make_targets x); list_text (pol_focus_paths x)];
  of_fields l :=
    match l with
    | [a; b; c; d; e; f] =>
        Some (mkRunPolicy (num_read a) (bool_read b) (bool_read c) (bool_read d)
                (list_read e) (list_read f))
    | _ => None
    end;
  of_fields_fields := ltac:(fields_rt)
|}.

#[export] Instance outcome_fields : Fields RunOutcome := {|
  fields x := [ro_outcome_kind x; ro_summary x; opt_text (ro_reason x); ro_finalized_at x];
  of_fields l :=
    match l with [a; b; c; d] => Some (mkRunOutcome a b (opt_read c) d) | _ => None end;
  of_fields_fields := ltac:(fields_rt)
|}.

#[export] Instance reopen_fields : Fields ReopenMetadata := {|
  fields x := [rm_reason x; rm_reopened_at x; rm_reopened_from_outcome_kind x;
    num_text (rm_reopen_count x)];
  of_fields l :=
    match l with [a; b; c; d] => Some (mkReopenMetadata a b c (num_read d)) | _ => None end;
  of_fields_fields := ltac:(fields_rt)
|}.

#[export] Instance archive_fields : Fields ArchiveMetadata := {|
  fields x := [am_reason x; am_archived_at x];
  of_fields l := match l with [a; b] => Some (mkArchiveMetadata a b) | _ => None end;
  of_fields_fields := ltac:(fields_rt)
|}.

#[export] Instance unarchive_fields : Fields UnarchiveMetadata := {|
  fields x := [um_reason x; um_unarchived_at x];
  of_fields l := match l with [a; b] => Some (mkUnarchiveMetadata a b) | _ => None end;
  of_fields_fields := ltac:(fields_rt)
|}.

#[export] Instance annotation_fields : Fields RunAnnotation := {|
  fields x := [list_text (an_labels x); opt_text (an_operator_note x)];
  of_fields l :=
    match l with [a; b] => Some (mkRunAnnotation (list_read a) (opt_read b)) | _ => None end;
  of_fields_fields := ltac:(fields_rt)
|}.

#[export] Instance pin_fields : Fields PinMetadata := {|
  fields x := [pm_reason x; pm_pinned_at x];
  of_fields l := match l with [a; b] => Some (mkPinMetadata a b) | _ => None end;
  of_fields_fields := ltac:(fields_rt)
|}.

#[export] Instance snooze_fields : Fields SnoozeMetadata := {|
  fields x := [snm_reason x; snm_snoozed_at x];
  of_fields l := match l with [a; b] => Some (mkSnoozeMetadata a b) | _ => None end;
  of_fields_fields := ltac:(fields_rt)
|}.

(** ** The parameters of the store *)

Definition demo_serde : Serde := {|
  serde_strings := fields_codec; serde_retryable := fields_codec; serde_policy := fields_codec;
  serde_outcome := fields_codec; serde_reopen := fields_codec; serde_archive := fields_codec;
  serde_unarchive := fields_codec; serde_annotation := fields_codec; serde_pin := fields_codec;
  serde_snooze := fields_codec
|}.

Lemma demo_serde_laws : SerdeLaws (H:=demo_serde).
Proof.
  split; try (intros x; apply fields_roundtrip); [done|].
  intros x. cbn. unfold fields_text.
  by change ("[" +:+ write_items (fields x) +:+ "]")
    with (String "["%char (write_items (fields x) +:+ "]")).
Qed.

(** Foreign keys are enforced, rows are visited in the order of insertion. *)
Definition demo_sqlite : Sqlite :=
  {| foreign_keys := true; scan _ l := l; conversion_error _ e := e;
     range_error := "out of range integral type conversion attempted";
     constraint_error := "FOREIGN KEY constraint failed" |}.

Lemma demo_sqlite_laws : SqliteLaws (H:=demo_sqlite).
Proof. by intros A l. Qed.

(** The tick is the time and the random number. *)
Definition tick_text (n : nat) : string := pretty (N.of_nat n).

Definition demo_env : Env := {|
  now_at n := "2024-05-01T00:00:00." +:+ tick_text n;
  millis_at n := Z.of_nat n;
  uuid_at := tick_text;
  today_at _ := "2024-05-01";
  elapsed_ms_at _ := 1%N
|}.
