(* ===== verification/AuthScenarios.v ===== *)
(** * The authorization server at work

    Instances of the parameters of the server for which the assumed laws hold,
    small enough to compute with, and a run of it: a client registers, the user
    consents, the code is exchanged, the access token is used, refreshed and
    revoked.  The theorems of the authorization server are applied to it, and
    the interleaving that lets one refresh token be used twice is shown. *)

From S2P Require Import Prelude RustStr Json Proc Lifecycle Os DemoSerde.
From S2P Require Import RateLimit AuthStore Keyring AuthFlow AuthFacts AuthSystem AuthSafety AuthGrants.

(** * The libraries *)

(** ** JSON: flat objects as lists of texts *)

Definition scalar_text (v : Value) : string :=
  match v with
  | VString s => "s" +:+ s
  | VNumber (PosInt n) => "p" +:+ num_text n
  | VNumber (NegInt z) => "n" +:+ num_text (Z.to_N (- z))
  | _ => "?"
  end.

Definition scalar_read (s : string) : Value :=
  match s with
  | String a s' =>
      if Ascii.eqb a "s"%char then VString s'
      else if Ascii.eqb a "p"%char then VNumber (PosInt (num_read s'))
      else VNumber (NegInt (- Z.of_N (num_read s')))
  | EmptyString => VNull
  end.

Definition members_text (m : list (string * Value)) : list string :=
  m ≫= λ kv, [fst kv; scalar_text (snd kv)].

Fixpoint members_read (l : list string) : list (string * Value) :=
  match l with
  | k :: v :: l' => (k, scalar_read v) :: members_read l'
  | _ => []
  end.

Definition demo_value_text (v : Value) : string :=
  match v with VObject m => write_items (members_text m) | _ => "?" end.

Definition demo_value_parse (s : string) : Value + string :=
  match read_items s with Some l => inl (VObject (members_read l)) | None => inr "bad JSON" end.

Definition demo_json : JsonLib := {|
  value_text := demo_value_text;
  value_parse := demo_value_parse;
  strings_text := write_items;
  strings_parse s := match read_items s with Some l => inl l | None => inr "bad JSON" end
|}.

Lemma scalar_read_text v : is_scalar v → scalar_read (scalar_text v) = v.
Proof.
  destruct v as [|b|[n|z|t]|s|l|m]; try done; intros Hv.
  - change (VNumber (PosInt (num_read (num_text n))) = VNumber (PosInt n)). by rewrite num_rt.
  - change (VNumber (NegInt (- Z.of_N (num_read (num_text (Z.to_N (- z)))))) = VNumber (NegInt z)).
    rewrite num_rt. cbn in Hv. do 2 f_equal. lia.
Qed.

Lemma members_read_text m : Forall is_scalar (m.*2) → members_read (members_text m) = m.
Proof.
  induction m as [|[k v] m IH]; cbn; [done|]. intros [Hv Hm]%Forall_cons. cbn in Hv.
  rewrite scalar_read_text by done. f_equal. by apply IH.
Qed.

Lemma demo_json_laws : JsonLaws (H := demo_json).
Proof.
  split.
  - intros m [_ Hm]. exists m. cbn. unfold demo_value_parse.
    by rewrite read_write_items, members_read_text.
  - intros l. cbn. by rewrite read_write_items.
Qed.

(** ** Cryptography: two letters per byte for base64, keys and signatures as
    texts *)

Definition letter (n : N) : ascii := ascii_of_N (97 + n).
Definition letter_value (a : ascii) : N := byte a - 97.

Fixpoint letters (s : string) : string :=
  match s with
  | EmptyString => ""
  | String a s' => String (letter (byte a / 16)) (String (letter (byte a mod 16)) (letters s'))
  end.

Fixpoint unletters (s : string) : option string :=
  match s with
  | EmptyString => Some ""
  | String a (String b s') =>
      r ← unletters s'; Some (String (ascii_of_N (letter_value a * 16 + letter_value b)) r)
  | String _ EmptyString => None
  end.

Definition demo_crypto : Crypto := {|
  sha256 s := s;
  b64_encode := letters;
  b64_decode s := match unletters s with Some r => inl r | None => inr "bad base64" end;
  RsaPrivate := string;
  RsaPublic := string;
  Signature := string;
  rsa_generate seed := inl seed;
  rsa_public k := k;
  rsa_public_new n e := inl n;
  rsa_n k := k;
  rsa_e k := "e";
  pem_encode k := inl ("K" +:+ k);
  pem_decode pem := match strip_prefix "K" pem with Some k => inl k | None => inr "bad PEM" end;
  spki_encode k := inl k;
  rsa_sign k msg := k +:+ "|" +:+ msg;
  sig_bytes g := g;
  sig_parse g := inl g;
  rsa_verify k msg g := if g == (k +:+ "|" +:+ msg) then None else Some "bad signature"
|}.

Lemma letter_bounds n : (n < 16)%N → (97 <= byte (letter n) < 113)%N ∧ letter_value (letter n) = n.
Proof.
  intros Hn. unfold letter_value, byte, letter. rewrite N_ascii_embedding by lia. lia.
Qed.

Lemma byte_bound a : (byte a < 256)%N.
Proof. apply N_ascii_bounded. Qed.

Lemma unletters_letters s : unletters (letters s) = Some s.
Proof.
  induction s as [|a s IH]; cbn; [done|]. rewrite IH. cbn. pose proof (byte_bound a).
  rewrite (proj2 (letter_bounds (byte a / 16) ltac:(apply N.Div0.div_lt_upper_bound; lia))).
  rewrite (proj2 (letter_bounds (byte a mod 16) ltac:(apply N.mod_lt; lia))).
  rewrite N.mul_comm, <- N.div_mod by lia. unfold byte. by rewrite ascii_N_embedding.
Qed.

Lemma letter_no_dot n : (n < 16)%N → Ascii.eqb (letter n) "."%char = false.
Proof.
  intros Hn. destruct (Ascii.eqb_spec (letter n) "."%char) as [E|]; [|done].
  pose proof (letter_bounds n Hn) as [Hb _]. rewrite E in Hb. unfold byte in Hb. cbn in Hb. lia.
Qed.

Lemma letters_no_dot s : str_forall (λ a, negb (Ascii.eqb a "."%char)) (letters s) = true.
Proof.
  induction s as [|a s IH]; cbn; [done|]. pose proof (byte_bound a).
  rewrite !letter_no_dot; [done|apply N.mod_lt; lia|apply N.Div0.div_lt_upper_bound; lia].
Qed.

Lemma demo_crypto_laws : CryptoLaws (H := demo_crypto).
Proof.
  split; cbn.
  - intros s. by rewrite unletters_letters.
  - apply letters_no_dot.
  - intros k pem [= <-]. rewrite (strip_prefix_app "K" k). by split.
  - done.
  - intros k msg. by rewrite str_eqb_refl.
Qed.

(** ** The rest of the environment *)

Definition demo_random (n : nat) : string := "r" +:+ num_text (N.of_nat n).

Definition demo_auth_env : AuthEnv := {|
  clock_at n := 1000%Z;
  instant_at n := N.of_nat n;
  random_at := demo_random;
  sql_fault n := None;
  key_text := "UNIQUE constraint failed";
  column_text n e := e
|}.

(** The same with one failing statement. *)
Definition faulty_auth_env (bad : nat) : AuthEnv := {|
  clock_at n := 1000%Z;
  instant_at n := N.of_nat n;
  random_at := demo_random;
  sql_fault n := if (n =? bad)%nat then Some "database is locked" else None;
  key_text := "UNIQUE constraint failed";
  column_text n e := e
|}.

Definition demo_cf_env : CfEnv := {| fetch_certs n uri := Ok []; claims_text := "missing field" |}.

Fixpoint form_field (k : string) (pairs : list string) : option string :=
  match pairs with
  | [] => None
  | p :: rest => match split_at_char "="%char p with
                 | (k', Some v) => if k' == k then Some v else form_field k rest
                 | _ => form_field k rest
                 end
  end.

Definition demo_parse_form (body : string) : TokenForm + N :=
  let f k := form_field k (split_char "&"%char body) in
  match f "grant_type" with
  | Some g => inl (mkTokenForm g (f "code") (f "redirect_uri") (f "client_id") (f "client_secret")
                     (f "code_verifier") (f "refresh_token") (f "resource"))
  | None => inr 422%N
  end.

Definition demo_web : WebLib := {|
  Url := string;
  url_parse s := if starts_with s "https://" || starts_with s "http://" then Some s else None;
  url_scheme u := split_first ":"%char u;
  append_pair u k v := u +:+ "&" +:+ k +:+ "=" +:+ v;
  url_as_str u := u;
  header_to_str h := Some h;
  render_consent t := inl "consent";
  parse_token_form := demo_parse_form
|}.

Definition demo_decode : UrlDecode := Some.

Definition demo_config : AuthConfig :=
  mkAuthConfig "https://codex.example" "/data" "https://team.example" "aud" 3600 600 false.

#[export] Existing Instances demo_json demo_json_laws demo_crypto demo_crypto_laws demo_cf_env
  demo_web demo_decode.

(** * The server *)

#[local] Existing Instance demo_auth_env.
#[local] Instance demo_profile : BuildProfile := true.

(** ** The run *)

Definition demo_start : res AuthState * AuthWorld := auth_state_new demo_config auth_world_new.

Definition demo_ring : Keyring :=
  match fst demo_start with Ok st => st_keyring st | _ => mkKeyring None "" "" end.

Definition demo_state : AuthState :=
  mkAuthState demo_config demo_ring (cf_new_stub "aud" "user-1" (Some "u@example")).

Definition aworld0 : AuthWorld := snd demo_start.

Definition demo_registration : ClientRegistrationRequest :=
  mkClientRegistrationRequest (Some "App") ["https://app.example/cb"] None "none" None (Some "app").

Definition aworld1 : AuthWorld := snd (run (serve demo_state (PostRegister demo_registration)) aworld0).

Definition demo_cookies : list string := ["theme=dark; CF_Authorization=abc"].

Definition demo_consent (decision uri : string) : DecideForm :=
  mkDecideForm decision "app" uri "mcp:tools" (Some "xyz") (letters "verifier") "S256".

(** The code is the token drawn at the next tick after the cookie was checked
    and the client looked up. *)
Definition demo_code : string := letters (demo_random (3 + aw_tick aworld1)).

Definition aworld2 : AuthWorld :=
  snd (run (serve demo_state (PostDecide demo_cookies (demo_consent "allow" "https://app.example/cb"))) aworld1).

Definition demo_token_form (verifier : string) : TokenForm :=
  mkTokenForm "authorization_code" (Some demo_code) (Some "https://app.example/cb") (Some "app") None
    (Some verifier) None None.

Definition demo_token_body : string :=
  "grant_type=authorization_code&client_id=app&redirect_uri=https://app.example/cb&code_verifier=verifier&code="
  +:+ demo_code.

Definition tokens_of (r : res Response) : string * string :=
  match r with
  | Ok (mkResponse _ (BToken t)) => (tr_access_token t, tr_refresh_token t)
  | _ => ("", "")
  end.

Definition demo_exchange : res Response * AuthWorld :=
  run (serve demo_state (PostToken demo_token_body)) aworld2.

Definition demo_access : string := fst (tokens_of (fst demo_exchange)).
Definition demo_refresh : string := snd (tokens_of (fst demo_exchange)).
Definition aworld3 : AuthWorld := snd demo_exchange.

(** ** The run, checked *)

Example demo_grant_flow :
  fst (run (serve demo_state (PostRegister demo_registration)) aworld0) =
    Ok (mkResponse 201 (BRegistered (mkClientRegistrationResponse "app" None (Some "App")
      ["https://app.example/cb"] ["authorization_code"; "refresh_token"] "none" 1000))) ∧
  fst (run (serve demo_state (PostDecide demo_cookies (demo_consent "allow" "https://app.example/cb"))) aworld1) =
    Ok (redirect_to ("https://app.example/cb&code=" +:+ demo_code +:+ "&iss=https://codex.example&state=xyz")) ∧
  fst demo_exchange = Ok (token_response demo_state "mcp:tools" demo_access demo_refresh) ∧
  demo_access ≠ "" ∧
  fst (run (serve demo_state (Mcp "/mcp" (Some ("Bearer " +:+ demo_access)))) aworld3) = Ok forwarded ∧
  fst (run (serve demo_state (Mcp "/mcp" (Some "Bearer abc"))) aworld3) = Ok unauthorized ∧
  fst (run (serve demo_state (Mcp "/mcp" None)) aworld3) = Ok unauthorized.
Proof. vm_compute. by split_and!. Qed.

(** ** One code, two requests *)

Definition two_exchanges : list AuthRequest := [PostToken demo_token_body; PostToken demo_token_body].

Definition exchange_race : list (Proc AuthWorld Response) * AuthWorld :=
  sched (concat (replicate 12 [0; 1])) (serve demo_state <$> two_exchanges, aworld2).

Definition answer (c : list (Proc AuthWorld Response) * AuthWorld) (i : nat) : Response :=
  match c.1 !! i with Some (Done (Ok r)) => r | _ => mkResponse 0 BEmpty end.

Lemma code_exchanged_once_witness :
  resp_status (answer exchange_race 0) = 200%N ∧ resp_status (answer exchange_race 1) ≠ 200%N.
Proof.
  split; [by vm_compute|].
  apply (code_exchanged_once demo_state two_exchanges exchange_race.1 aworld2 exchange_race.2
           (hash_token demo_code) 0 1 (PostToken demo_token_body) (PostToken demo_token_body)
           (answer exchange_race 0) (answer exchange_race 1)).
  - rewrite <- surjective_pairing. apply sched_psteps.
  - done.
  - done.
  - done.
  - exists (demo_token_form "verifier"), demo_code. by vm_compute.
  - exists (demo_token_form "verifier"), demo_code. by vm_compute.
  - by vm_compute.
  - by vm_compute.
  - by vm_compute.
Defined.

(** ** One refresh token, two requests: both succeed *)

Definition demo_refresh_body : string :=
  "grant_type=refresh_token&client_id=app&refresh_token=" +:+ demo_refresh.

Definition two_refreshes : list AuthRequest := [PostToken demo_refresh_body; PostToken demo_refresh_body].

(** Unlike codes, refresh tokens are looked up and revoked in two actions: two
    requests that run in step both get a new pair for the same token. *)
Theorem refresh_race : ∃ picks,
  resp_status (answer (sched picks (serve demo_state <$> two_refreshes, aworld3)) 0) = 200%N ∧
  resp_status (answer (sched picks (serve demo_state <$> two_refreshes, aworld3)) 1) = 200%N.
Proof. exists (concat (replicate 14 [0; 1])). by vm_compute. Qed.

(** In sequence the second one is refused. *)
Definition demo_refresh_form : TokenForm :=
  mkTokenForm "refresh_token" None None (Some "app") None None (Some demo_refresh) None.

Definition demo_refreshed : res Response * AuthWorld :=
  run (handle_refresh_token demo_state demo_refresh_form) aworld3.

Definition response_of (r : res Response) : Response :=
  match r with Ok r => r | _ => mkResponse 0 BEmpty end.

Lemma refresh_rotation_witness :
  resp_status (response_of (fst demo_refreshed)) = 200%N ∧
  response_of (fst (run (handle_refresh_token demo_state demo_refresh_form) (snd demo_refreshed))) =
  token_error_response 400 "invalid_grant" "refresh_token has been revoked".
Proof.
  split; [by vm_compute|].
  apply (refresh_rotation demo_state demo_refresh_form aworld3 (response_of (fst demo_refreshed))
           (snd demo_refreshed)
           (response_of (fst (run (handle_refresh_token demo_state demo_refresh_form) (snd demo_refreshed))))
           (snd (run (handle_refresh_token demo_state demo_refresh_form) (snd demo_refreshed)))).
  - done.
  - by vm_compute.
  - by vm_compute.
  - by vm_compute.
Defined.

(** ** The theorems, applied *)

Lemma demo_no_fault : ∀ n, sql_fault n = None.
Proof. done. Qed.

Lemma code_grant_sound_witness :
  resp_status (response_of (fst (run (handle_authorization_code demo_state (demo_token_form "verifier")) aworld2))) = 200%N ∧
  ∃ code r, tf_code (demo_token_form "verifier") = Some code ∧
    adb_codes (aw_db aworld2) !! hash_token code = Some r ∧
    ac_code_challenge r = Some (b64_encode (sha256 "verifier")).
Proof.
  split; [by vm_compute|].
  destruct (code_grant_sound demo_state (demo_token_form "verifier") aworld2
    (response_of (fst (run (handle_authorization_code demo_state (demo_token_form "verifier")) aworld2)))
    (snd (run (handle_authorization_code demo_state (demo_token_form "verifier")) aworld2)))
    as (code & ? & verifier & ? & ? & r & ? & ? & ? & Hc & _ & _ & _ & Hr & _ & _ & _ & _ & Hv & Hch & _).
  - by vm_compute.
  - by vm_compute.
  - exists code, r. split; [done|]. split; [done|]. by injection Hv as <-.
Defined.

Lemma failed_exchange_burns_code_witness :
  code_consumed (hash_token demo_code)
    (snd (run (handle_authorization_code demo_state
      (mkTokenForm "authorization_code" (Some demo_code) (Some "https://evil.example/cb") (Some "app")
         None (Some "verifier") None None)) aworld2)).
Proof.
  eapply (failed_exchange_burns_code demo_state
    (mkTokenForm "authorization_code" (Some demo_code) (Some "https://evil.example/cb") (Some "app")
         None (Some "verifier") None None) aworld2
    (token_error_response 400 "invalid_grant" "client_id or redirect_uri does not match the code"));
    try done; by vm_compute.
Defined.




Definition demo_revoke : RevokeForm := mkRevokeForm demo_access None None None.

Definition revoked_world : AuthWorld := snd (run (serve demo_state (PostRevoke demo_revoke)) aworld3).

Definition claims_of (r : res (option Value)) : Value :=
  match r with Ok (Some v) => v | _ => VNull end.

Definition demo_claims : Value := claims_of (keyring_verify demo_ring demo_access 1000).

Definition demo_jti : string :=
  match value_get demo_claims "jti" with Some (VString s) => s | _ => "" end.

Definition demo_jti_row : AccessTokenJtiRecord :=
  default (mkAccessTokenJtiRecord "" "" "" 0 None) (adb_jtis (aw_db aworld3) !! demo_jti).

Lemma demo_random_inj n m : demo_random n = demo_random m → n = m.
Proof.
  intros E. assert (num_text (N.of_nat n) = num_text (N.of_nat m)) as E' by exact (f_equal (str_drop 1) E).
  apply (f_equal num_read) in E'. rewrite !num_rt in E'. lia.
Qed.

Lemma demo_random_fresh n : (25 <= n)%nat → letters (demo_random n) ≠ demo_jti.
Proof.
  intros Hn E. apply (f_equal unletters) in E. rewrite unletters_letters in E.
  assert (unletters demo_jti = Some (demo_random 20)) as Hj by by vm_compute.
  rewrite Hj in E. apply Some_inj, demo_random_inj in E. lia.
Qed.

Lemma revoked_token_refused_witness :
  fst (run (require_bearer demo_state "/tools" (Some ("Bearer " +:+ demo_access))) revoked_world)
  ≠ Ok forwarded.
Proof.
  apply (revoked_token_refused demo_state demo_revoke aworld3 (mkResponse 200 (BJson (VObject [])))
    revoked_world [] [] revoked_world demo_claims demo_jti demo_jti_row "/tools").
  - done.
  - by vm_compute.
  - by vm_compute.
  - by vm_compute.
  - by vm_compute.
  - intros n Hn. apply demo_random_fresh.
    assert (aw_tick revoked_world = 29) as Ht by by vm_compute. lia.
  - apply rtc_refl.
  - by vm_compute.
  - done.
Defined.

(** The same for the theorems about any interleaving. *)
Lemma auth_interleaving_witness :
  rtc pstep (serve demo_state <$> two_exchanges, aworld2) (exchange_race.1, exchange_race.2).
Proof. rewrite <- surjective_pairing. apply sched_psteps. Qed.

Lemma server_refines_store_witness :
  rtc (db_step (aw_tick aworld2)) (aw_db aworld2) (aw_db exchange_race.2).
Proof.
  exact (server_refines_store demo_state two_exchanges exchange_race.1 aworld2 exchange_race.2
           auth_interleaving_witness).
Defined.

Lemma reachable_auth_db_wf_witness :
  auth_db_wf (aw_db (sched (replicate 5 0) ([serve demo_state (PostRegister demo_registration)], auth_world_new)).2).
Proof.
  apply (reachable_auth_db_wf demo_state [PostRegister demo_registration]
    (sched (replicate 5 0) ([serve demo_state (PostRegister demo_registration)], auth_world_new)).1
    auth_world_new).
  - apply auth_open_wf.
  - rewrite <- surjective_pairing. apply sched_psteps.
Defined.

Lemma auth_store_keeps_witness : db_keeps (aw_db aworld2) (aw_db exchange_race.2).
Proof.
  exact (auth_store_keeps demo_state two_exchanges exchange_race.1 aworld2 exchange_race.2
           auth_interleaving_witness).
Defined.

Lemma introspect_agrees_bearer_witness :
  ∃ claims jti, fst (run (introspect demo_state (mkIntrospectForm demo_access None None None)) aworld3) =
    Ok (mkResponse 200 (BJson (active_body claims jti))).
Proof.
  apply (introspect_agrees_bearer demo_state "/tools" (mkIntrospectForm demo_access None None None) aworld3).
  - done.
  - done.
  - by vm_compute.
Defined.

(** A token that does not exist is needed for every path but one. *)
Lemma mcp_access_iff_witness :
  fst (run (serve demo_state (Mcp "/mcp/healthz" None)) aworld3) = Ok forwarded.
Proof.
  apply (mcp_access_iff demo_state "/mcp/healthz" "/healthz" None aworld3).
  - done.
  - by vm_compute.
  - by left.
Defined.

Lemma register_spec_witness :
  registrable demo_state demo_registration ∧
  ∃ resp w', run (register demo_state demo_registration) aworld0 = (Ok resp, w') ∧ resp_status resp = 201%N.
Proof.
  destruct (register_spec demo_state demo_registration aworld0 demo_no_fault)
    as (resp & w' & Hrun & [(Hr & _ & Hs & _)|(_ & Hs & _)]).
  - split; [exact Hr|]. by exists resp, w'.
  - exfalso. apply (f_equal (λ p, resp_status (response_of (fst p)))) in Hrun. cbn [fst response_of] in Hrun.
    rewrite Hs in Hrun. by vm_compute in Hrun.
Defined.

Definition evil_url : @Url demo_web := "https://evil.example/x".

Lemma deny_redirects_unchecked_witness :
  fst (run (serve demo_state (PostDecide demo_cookies (demo_consent "deny" "https://evil.example/x"))) aworld1) =
  Ok (redirect_to "https://evil.example/x&error=access_denied&iss=https://codex.example&state=xyz").
Proof.
  cbn [serve].
  rewrite (deny_redirects_unchecked demo_state demo_cookies (demo_consent "deny" "https://evil.example/x")
    aworld1 "abc" (mkCfAccessClaims (VString "aud") (Some "u@example") "user-1" "https://stub.team" 1000 4600)
    (aw_next (aw_next aworld1)) evil_url); by vm_compute.
Defined.

Lemma signing_key_persists_witness :
  ∃ jwk, load_or_create_signing_key aworld0 =
    (Ok (mkSigningKeyEntry (ke_kid (default (mkSigningKeyEntry "" "" "" VNull) (kr_active demo_ring))) "RS256"
      (ke_private_pem (default (mkSigningKeyEntry "" "" "" VNull) (kr_active demo_ring))) jwk), aw_next aworld0).
Proof.
  destruct (signing_key_persists auth_world_new (default (mkSigningKeyEntry "" "" "" VNull) (kr_active demo_ring))
    aworld0 aworld0) as (jwk & m & m' & E & _).
  - exists (demo_random 1), 1000%Z. by vm_compute.
  - done.
  - done.
  - by exists jwk.
Defined.

(** A locked database at the first read: a second key replaces the first. *)
Lemma read_error_replaces_key_witness :
  ∃ r, last (adb_keys (aw_db (snd (load_or_create_signing_key (H1 := faulty_auth_env 6) aworld0)))) = Some r ∧
    sk_kid r ≠ ke_kid (default (mkSigningKeyEntry "" "" "" VNull) (kr_active demo_ring)).
Proof.
  destruct (read_error_replaces_key (H1 := faulty_auth_env 6) aworld0
    (match fst (load_or_create_signing_key (H1 := faulty_auth_env 6) aworld0) with
     | Ok e => e | _ => mkSigningKeyEntry "" "" "" VNull end)
    (snd (load_or_create_signing_key (H1 := faulty_auth_env 6) aworld0)) "database is locked")
    as (_ & r & Hr & _ & Hk).
  - by vm_compute.
  - by vm_compute.
  - exists r. split; [exact Hr|]. rewrite Hk. by vm_compute.
Defined.
