(* ===== verification/StoreFacts.v ===== *)
(** * Properties of the store (persistence.rs)

    The runs table refines a finite map from run ids to states; the keys of
    the three tables stay unique and their references valid; an approval is
    resolved once; listings are sound, ordered and complete. *)

From S2P Require Import Prelude RustStr Types Lifecycle Os Store DemoSerde.

(** ** [INSERT OR REPLACE] *)

Section upsert.
Context {A : Type} (key : A → string).

Lemma find_upsert_same r l : find_first (λ x, key x == key r) (upsert key r l) = Some r.
Proof.
  unfold upsert. induction l as [|x l IH]; cbn; [by rewrite String.eqb_refl|].
  destruct (key x == key r) eqn:E; cbn; [done|]. by rewrite E.
Qed.

Lemma find_upsert_other r l k :
  k ≠ key r → find_first (λ x, key x == k) (upsert key r l) = find_first (λ x, key x == k) l.
Proof.
  intros Hk. unfold upsert. induction l as [|x l IH]; cbn.
  - destruct (String.eqb_spec (key r) k); congruence.
  - destruct (String.eqb_spec (key x) (key r)) as [E|E]; cbn; rewrite IH.
    + rewrite E. by destruct (String.eqb_spec (key r) k).
    + done.
Qed.

Lemma elem_upsert r l x : x ∈ upsert key r l ↔ (x ∈ l ∧ key x ≠ key r) ∨ x = r.
Proof.
  unfold upsert. rewrite elem_of_app, list_elem_of_singleton, !list_elem_of_In, filter_In.
  by rewrite negb_true_iff, String.eqb_neq.
Qed.

Lemma upsert_keys_NoDup r l : NoDup (map key l) → NoDup (map key (upsert key r l)).
Proof.
  intros Hnd. unfold upsert. rewrite map_app. cbn. apply NoDup_app. split_and!.
  - induction l as [|x l IH]; cbn in *; [done|]. apply NoDup_cons in Hnd as [Hx Hnd].
    destruct (key x == key r); cbn; [by apply IH|]. constructor; [|by apply IH].
    intros (y & E & Hy)%list_elem_of_fmap. apply Hx. apply list_elem_of_fmap.
    exists y. split; [done|]. apply list_elem_of_In in Hy. apply filter_In in Hy as [Hy _].
    by apply list_elem_of_In.
  - intros k (y & -> & Hy)%list_elem_of_fmap. apply list_elem_of_In in Hy.
    apply filter_In in Hy as [_ Hk]. apply negb_true_iff, String.eqb_neq in Hk.
    intros E%list_elem_of_singleton. congruence.
  - apply NoDup_singleton.
Qed.

(** With unique keys, the first row with a key is the row with that key. *)
Lemma find_key r l : NoDup (map key l) → r ∈ l → find_first (λ x, key x == key r) l = Some r.
Proof.
  induction l as [|x l IH]; cbn; [by intros _ ?%elem_of_nil|].
  intros [Hx Hnd]%NoDup_cons [->|Hr]%elem_of_cons; [by rewrite String.eqb_refl|]. destruct (String.eqb_spec (key x) (key r)) as [E|]; [|auto].
  destruct Hx. rewrite E. apply list_elem_of_fmap. eauto.
Qed.
End upsert.

(** ** Reading back a row *)

Section rows.
Context `{Serde} `{!SerdeLaws} `{Sqlite}.

Lemma json_opt_map {A} `{Codec A} idx (o : option A) :
  (∀ x : A, from_str (to_string x) = inl x) → json_opt idx (to_string <$> o) = Ok o.
Proof. intros Hrt. destruct o as [x|]; cbn; [|done]. unfold json_col. by rewrite Hrt. Qed.

(** The step survives the round trip through a 64-bit column. *)
Lemma row_state_run_row s : row_state (run_row s) = Ok s.
Proof.
  unfold row_state, run_row. cbn [row_plan row_completed_steps row_pending_steps
    row_focus_paths row_warnings row_retryable_action row_policy_profile row_finalized_outcome
    row_reopen_metadata row_archive_metadata row_unarchive_metadata row_annotation
    row_pin_metadata row_snooze_metadata row_priority row_blocked_by_run_ids].
  unfold json_col. rewrite !from_to_strings. cbn [mbind res_bind].
  rewrite (json_opt_map 16) by apply from_to_retryable.
  destruct (policy_text (rs_policy_profile s)) as [Hp1 Hp2]. unfold str_is_empty.
  rewrite (proj2 (String.eqb_neq _ _) Hp1), (proj2 (String.eqb_neq _ _) Hp2).
  cbn [mbind res_bind negb andb].
  change (Some (to_string (rs_policy_profile s))) with (to_string <$> Some (rs_policy_profile s)).
  rewrite (json_opt_map 17) by apply from_to_policy.
  rewrite (json_opt_map 18) by apply from_to_outcome.
  rewrite (json_opt_map 19) by apply from_to_reopen.
  rewrite (json_opt_map 24) by apply from_to_archive.
  rewrite (json_opt_map 25) by apply from_to_unarchive.
  rewrite (json_opt_map 26) by apply from_to_annotation.
  rewrite (json_opt_map 27) by apply from_to_pin.
  rewrite (json_opt_map 28) by apply from_to_snooze.
  rewrite (proj2 (priority_parse_spec _ (rs_priority s)) eq_refl).
  cbn [mbind res_bind ok_or default].
  assert ((effort_as_str <$> rs_effort s) ≫= effort_parse = rs_effort s) as He.
  { by destruct (rs_effort s) as [[]|]. }
  destruct s. cbn in *. rewrite N2Z.id. by rewrite He.
Qed.
End rows.

(** ** Well-formed databases *)

Section wf.
Context `{Serde} `{!SerdeLaws} `{Sqlite}.

(** Every run row is the row of a state that can be stored, keys are
    unique, and approvals and audit entries name a run. *)
Record db_wf (db : Db) : Prop := mkDbWf {
  wf_rows : Forall (λ r, ∃ s, r = run_row s ∧ (rs_current_step s <= i64_max)%N) (db_runs db);
  wf_run_keys : NoDup (map row_run_id (db_runs db));
  wf_approval_keys : NoDup (map ap_approval_id (db_approvals db));
  wf_audit_keys : NoDup (map rhe_entry_id (db_audit db));
  wf_approval_runs : Forall (λ a, run_exists db (ap_run_id a) = true) (db_approvals db);
  wf_audit_runs : Forall (λ e, run_exists db (rhe_run_id e) = true) (db_audit db)
}.

Lemma db_open_wf : db_wf db_open.
Proof. split; cbn; constructor. Qed.

Lemma run_exists_spec db id :
  run_exists db id = true ↔ ∃ r, r ∈ db_runs db ∧ row_run_id r = id.
Proof.
  unfold run_exists. rewrite existsb_exists.
  split; intros (r & Hr & Hid); exists r; rewrite list_elem_of_In in *;
    by rewrite String.eqb_eq in *.
Qed.

(** Saving a run never removes one. *)
Lemma run_exists_upsert db row id ap au :
  run_exists db id = true → run_exists (mkDb (upsert row_run_id row (db_runs db)) ap au) id = true.
Proof.
  rewrite !run_exists_spec. intros (r & Hr & Hid). cbn.
  destruct (String.eqb_spec (row_run_id r) (row_run_id row)) as [E|E].
  - exists row. split; [|congruence]. apply elem_upsert. by right.
  - exists r. split; [|done]. apply elem_upsert. by left.
Qed.

Lemma save_run_wf s db : db_wf db → db_wf (save_run s db).2.
Proof.
  intros [W1 W2 W3 W4 W5 W6]. unfold save_run.
  destruct (N.ltb_spec i64_max (rs_current_step s)) as [|Hl]; [by split|].
  split; cbn [snd db_runs db_approvals db_audit].
  - rewrite Forall_forall in W1 |- *. intros r [[Hr _]| ->]%elem_upsert; eauto.
  - by apply upsert_keys_NoDup.
  - done.
  - done.
  - eapply Forall_impl; [exact W5|]. intros a. apply (run_exists_upsert db).
  - eapply Forall_impl; [exact W6|]. intros a. apply (run_exists_upsert db).
Qed.

Lemma save_approval_wf a db :
  foreign_keys = true → db_wf db → db_wf (save_approval a db).2.
Proof.
  intros Hfk [W1 W2 W3 W4 W5 W6]. unfold save_approval. rewrite Hfk. cbn [andb].
  destruct (run_exists db (pa_run_id a)) eqn:E; cbn [negb]; [|by split]. split; cbn; try done.
  - by apply (upsert_keys_NoDup ap_approval_id (approval_row a)).
  - rewrite Forall_forall in W5 |- *. intros r [[Hr _]| ->]%elem_upsert; [by apply W5|done].
Qed.

Lemma resolve_approval_wf now id d r db : db_wf db → db_wf (resolve_approval now id d r db).2.
Proof.
  intros [W1 W2 W3 W4 W5 W6]. unfold resolve_approval.
  destruct (if d == "approve" then _ else _) as [st|]; [|by split].
  destruct (existsb _ _); [|by split]. split; cbn; try done.
  - rewrite map_map. erewrite map_ext; [exact W3|]. intros a. by destruct (_ && _).
  - rewrite Forall_forall in W5 |- *. intros a (b & -> & Hb)%list_elem_of_fmap.
    destruct (_ && _); apply (W5 b Hb).
Qed.

Lemma insert_audit_wf e db : foreign_keys = true → db_wf db → db_wf (insert_audit e db).2.
Proof.
  intros Hfk [W1 W2 W3 W4 W5 W6]. unfold insert_audit. rewrite Hfk. cbn [andb].
  destruct (run_exists db (rhe_run_id e)) eqn:E; cbn [negb orb]; [|by split].
  destruct (existsb _ _) eqn:Ee; [by split|]. split; cbn; try done.
  - rewrite map_app. cbn. apply NoDup_app. split_and!; [done| |apply NoDup_singleton].
    intros k (x & -> & Hx)%list_elem_of_fmap Hk%list_elem_of_singleton.
    apply not_true_iff_false in Ee. apply Ee, existsb_exists. exists x.
    rewrite <- list_elem_of_In. by rewrite Hk, String.eqb_refl.
  - apply Forall_app. split; [done|]. by repeat constructor.
Qed.

(** ** Refinement of a map of runs *)

(** The stored run of a well-formed database. *)
Definition runs_map (db : Db) (m : gmap string RunState) : Prop :=
  db_wf db ∧ ∀ id, get_run id db = Ok (m !! id).

Lemma get_run_find id db s :
  find_first (λ r, row_run_id r == id) (db_runs db) = Some (run_row s) →
  get_run id db = Ok (Some s).
Proof. intros E. unfold get_run. by rewrite E, row_state_run_row. Qed.

(** C36. The runs table is a map from ids to runs: a fresh store is the
    empty map, saving a run whose step fits in 64 bits is insertion at its
    id, and every lookup succeeds with what the map holds.  A run with a
    larger step is refused and changes nothing. *)
Theorem store_refines_map db m s :
  runs_map db m →
  (runs_map db_open ∅) ∧
  ((rs_current_step s <= i64_max)%N →
     (save_run s db).1 = Ok () ∧ runs_map (save_run s db).2 (<[rs_run_id s := s]> m)) ∧
  ((i64_max < rs_current_step s)%N →
     (∃ e, (save_run s db).1 = Err e) ∧ runs_map (save_run s db).2 m).
Proof.
  intros [Hwf Hm]. split_and!.
  - split; [apply db_open_wf|]. intros id. by rewrite lookup_empty.
  - intros Hs. pose proof (save_run_wf s db Hwf) as Hwf'. unfold save_run in *.
    rewrite (proj2 (N.ltb_ge _ _) Hs) in *. split; [done|]. split; [done|]. intros id. cbn [snd].
    destruct (String.eqb_spec id (rs_run_id s)) as [->|Hne].
    + rewrite lookup_insert_eq. apply get_run_find. apply (find_upsert_same row_run_id (run_row s)).
    + rewrite lookup_insert_ne by done. rewrite <- Hm. unfold get_run. cbn.
      by rewrite (find_upsert_other row_run_id (run_row s)).
  - intros Hs. unfold save_run. rewrite (proj2 (N.ltb_lt _ _) Hs). by split; [eexists|].
Qed.

(** Any well-formed database is such a map. *)
Lemma get_run_wf id db : db_wf db → ∃ o, get_run id db = Ok o ∧
  (∀ s, o = Some s → rs_run_id s = id ∧ run_row s ∈ db_runs db) ∧
  (is_Some o ↔ run_exists db id = true).
Proof.
  intros Hwf. unfold get_run.
  destruct (find_first _ (db_runs db)) as [r|] eqn:E.
  - apply find_first_Some in E as [Hr Hid]. apply String.eqb_eq in Hid.
    pose proof (wf_rows _ Hwf) as Hrows. rewrite Forall_forall in Hrows.
    destruct (Hrows r Hr) as (s & -> & _). rewrite row_state_run_row.
    eexists. split; [done|]. split; [by intros ? [= <-]|]. rewrite run_exists_spec. split; eauto.
  - eexists. split; [done|]. split; [done|]. apply find_first_None in E.
    rewrite Forall_forall in E. rewrite run_exists_spec. split; [by intros [? ?]|].
    intros (r & Hr & Hid). specialize (E r Hr). apply String.eqb_neq in E. congruence.
Qed.
End wf.

(** ** Approvals are resolved once *)

Definition pending (db : Db) (id : string) : Prop :=
  ∃ r, r ∈ db_approvals db ∧ ap_approval_id r = id ∧ ap_status r = "pending".

Lemma resolve_hit_spec db id :
  existsb (λ r, (ap_approval_id r == id) && (ap_status r == "pending")) (db_approvals db) = true ↔
  pending db id.
Proof.
  rewrite existsb_exists. unfold pending.
  split; intros (r & Hr & Hc); exists r; rewrite list_elem_of_In in *;
    rewrite andb_true_iff, !String.eqb_eq in *; naive_solver.
Qed.

Lemma resolve_not_pending now id d reason db :
  ¬ pending db id → ∃ e, resolve_approval now id d reason db = (Err e, db).
Proof.
  rewrite <- resolve_hit_spec. intros Hp%not_true_is_false. unfold resolve_approval.
  rewrite Hp. case_match; eauto.
Qed.

Lemma resolve_approval_ok now id d reason db db' :
  resolve_approval now id d reason db = (Ok (), db') →
  (d = "approve" ∨ d = "deny") ∧ pending db id ∧ ¬ pending db' id ∧ db_runs db' = db_runs db ∧
  (∀ r, ap_approval_id r ≠ id → r ∈ db_approvals db' ↔ r ∈ db_approvals db).
Proof.
  intros E. unfold resolve_approval in E. rewrite <- !resolve_hit_spec.
  set (hit := λ r, (ap_approval_id r == id) && (ap_status r == "pending")) in *.
  destruct (if d == "approve" then _ else _) as [st|] eqn:Hst; [|done].
  assert ((d = "approve" ∨ d = "deny") ∧ st ≠ "pending") as [Hd Hne].
  { by destruct (String.eqb_spec d "approve"), (String.eqb_spec d "deny"); simplify_eq; auto. }
  destruct (existsb hit (db_approvals db)) eqn:Hp; [|done]. injection E as <-. cbn [db_approvals db_runs].
  split_and!; try done.
  - rewrite existsb_exists. intros (r & (r0 & <- & Hr0)%in_map_iff & Hh).
    change (hit (if hit r0 then resolve_row now st d reason r0 else r0) = true) in Hh.
    destruct (hit r0) eqn:E0; [|congruence]. unfold hit in Hh. cbn in Hh.
    rewrite andb_true_iff, !String.eqb_eq in Hh. naive_solver.
  - intros r Hr. change (r ∈ (λ r0, if hit r0 then resolve_row now st d reason r0 else r0) <$>
      db_approvals db ↔ r ∈ db_approvals db). rewrite list_elem_of_fmap. split.
    + intros (r0 & E & Hr0). destruct (hit r0) eqn:E0; [|by subst]. subst r. destruct Hr.
      unfold hit in E0. by apply andb_true_iff in E0 as [E0%String.eqb_eq _].
    + intros Hin. exists r. split; [|done]. unfold hit.
      by rewrite (proj2 (String.eqb_neq _ _) Hr).
Qed.

(** Resolving an approval succeeds exactly when the decision is valid
    and the approval is pending; afterwards it is not pending, so that it
    cannot be resolved again, and no other approval has changed. *)
Theorem resolve_approval_once now id d reason db :
  (∃ db', resolve_approval now id d reason db = (Ok (), db') ∧
     ¬ pending db' id ∧
     (∀ now' d' reason', ∃ e, resolve_approval now' id d' reason' db' = (Err e, db')) ∧
     (∀ r, ap_approval_id r ≠ id → r ∈ db_approvals db' ↔ r ∈ db_approvals db)) ↔
  (d = "approve" ∨ d = "deny") ∧ pending db id.
Proof.
  split.
  - intros (db' & (Hd & Hp & _)%resolve_approval_ok & _). done.
  - intros [Hd Hp]. assert (∃ db', resolve_approval now id d reason db = (Ok (), db')) as [db' E].
    { unfold resolve_approval. rewrite (proj2 (resolve_hit_spec db id) Hp).
      destruct Hd as [->| ->]; by eexists. }
    exists db'. pose proof E as (_ & _ & Hnp & _ & Hr)%resolve_approval_ok.
    split_and!; [done..| |done]. intros. by apply resolve_not_pending.
Qed.

(** ** Listings *)

(** The summary of a stored run, before the handler adds to it. *)
Definition state_summary (s : RunState) : RunSummary := {|
  sum_run_id := rs_run_id s;
  sum_workspace_id := rs_workspace_id s;
  sum_user_goal := rs_user_goal s;
  sum_status := rs_status s;
  sum_current_step := rs_current_step s;
  sum_total_steps := len (rs_plan s);
  sum_outcome_kind := ro_outcome_kind <$> rs_finalized_outcome s;
  sum_reopen_count := rm_reopen_count <$> rs_reopen_metadata s;
  sum_supersedes_run_id := rs_supersedes_run_id s;
  sum_superseded_by_run_id := rs_superseded_by_run_id s;
  sum_is_archived :=
    if bool_decide (is_Some (rs_archive_metadata s)) &&
       bool_decide (rs_unarchive_metadata s = None) then Some true else None;
  sum_archive_reason := am_reason <$> rs_archive_metadata s;
  sum_archived_at := am_archived_at <$> rs_archive_metadata s;
  sum_unarchive_reason := um_reason <$> rs_unarchive_metadata s;
  sum_unarchived_at := um_unarchived_at <$> rs_unarchive_metadata s;
  sum_labels := an_labels (default RunAnnotation_default (rs_annotation s));
  sum_operator_note := an_operator_note (default RunAnnotation_default (rs_annotation s));
  sum_is_pinned := (λ _, true) <$> rs_pin_metadata s;
  sum_pin_reason := pm_reason <$> rs_pin_metadata s;
  sum_pinned_at := pm_pinned_at <$> rs_pin_metadata s;
  sum_is_snoozed := (λ _, true) <$> rs_snooze_metadata s;
  sum_snooze_reason := snm_reason <$> rs_snooze_metadata s;
  sum_snoozed_at := snm_snoozed_at <$> rs_snooze_metadata s;
  sum_priority := rs_priority s;
  sum_assignee := rs_assignee s;
  sum_due_date := rs_due_date s;
  sum_is_blocked := Some (negb (bool_decide (rs_blocked_by_run_ids s = [])));
  sum_blocked_by_count := Some (len (rs_blocked_by_run_ids s));
  sum_is_blocking := None;
  sum_blocking_run_count := None;
  sum_blocking_reason := None;
  sum_effort := rs_effort s;
  sum_age_days := None;
  sum_is_stale := None;
  sum_staleness_reason := None;
  sum_staleness_bucket := None;
  sum_triage_bucket := None;
  sum_triage_reason := None;
  sum_created_at := rs_created_at s;
  sum_updated_at := rs_updated_at s
|}.

(** Archived and not restored. *)
Definition archived (s : RunState) : Prop :=
  is_Some (rs_archive_metadata s) ∧ rs_unarchive_metadata s = None.

Definition snoozed (s : RunState) : Prop := is_Some (rs_snooze_metadata s).

(** What a listing asks of a run. *)
Definition listed (ws st : option string) (inc_arch arch_only : bool) (label : option string)
    (pinned_only inc_sn sn_only : bool) (s : RunState) : Prop :=
  (∀ w, ws = Some w → rs_workspace_id s = w) ∧
  (∀ x, st = Some x → rs_status s = x) ∧
  (if arch_only then archived s else inc_arch = true ∨ ¬ archived s) ∧
  (if sn_only then snoozed s else inc_sn = true ∨ ¬ snoozed s) ∧
  (∀ l, label = Some l → l ∈ an_labels (default RunAnnotation_default (rs_annotation s))) ∧
  (pinned_only = true → is_Some (rs_pin_metadata s)).

(** Pinned first, then the latest update. *)
Definition summary_order (a b : RunSummary) : Prop :=
  (is_Some (sum_is_pinned b) → is_Some (sum_is_pinned a)) ∧
  ((is_Some (sum_is_pinned a) ↔ is_Some (sum_is_pinned b)) →
     str_le (sum_updated_at b) (sum_updated_at a) = true).

(** Filtering keeps a sorted list sorted. *)
Lemma StronglySorted_filter {A} (R : A → A → Prop) (f : A → bool) l :
  StronglySorted R l → StronglySorted R (List.filter f l).
Proof.
  induction 1 as [|x l _ IH Hx]; cbn; [constructor|]. destruct (f x); [|done].
  constructor; [done|]. rewrite Forall_forall in Hx |- *. intros y Hy.
  apply list_elem_of_In, filter_In in Hy as [Hy _]. by apply Hx, list_elem_of_In.
Qed.

Lemma StronglySorted_map_inv {A B} (f : A → B) (R : B → B → Prop) l :
  StronglySorted R (map f l) → StronglySorted (λ x y, R (f x) (f y)) l.
Proof.
  induction l as [|x l IH]; intros Hs; constructor; inversion Hs; subst; [by apply IH|].
  by apply (proj1 (List.Forall_map f _ l)).
Qed.

Lemma StronglySorted_take {A} (R : A → A → Prop) n l :
  StronglySorted R l → StronglySorted R (take n l).
Proof.
  intros Hl. revert n. induction Hl as [|x l _ IH Hx]; intros [|n]; cbn; try constructor; auto.
  by apply Forall_take.
Qed.

Lemma StronglySorted_map {A B} (R : A → A → Prop) (Q : B → B → Prop) (f : A → B) l :
  (∀ x y, R x y → Q (f x) (f y)) → StronglySorted R l → StronglySorted Q (map f l).
Proof.
  intros Hf. induction 1 as [|x l _ IH Hx]; cbn; constructor; [done|].
  apply Forall_fmap. eapply Forall_impl; [exact Hx|]. cbn. auto.
Qed.

Lemma sql_limit_sorted {A} (R : A → A → Prop) n l :
  StronglySorted R l → StronglySorted R (sql_limit n l).
Proof. unfold sql_limit. case_match; [apply StronglySorted_take|done]. Qed.

Lemma sql_limit_elem {A} n (l : list A) x : x ∈ sql_limit n l → x ∈ l.
Proof. unfold sql_limit. case_match; [|done]. apply elem_of_take_1 || apply subseteq_take. Qed.

Section listing.
Context `{Serde} `{!SerdeLaws} `{Sqlite} `{!SqliteLaws}.

Lemma json_ok_map {A} `{Codec A} (o : option A) :
  (∀ x : A, from_str (to_string x) = inl x) → json_ok (to_string <$> o) = o.
Proof. intros Hrt. destruct o as [x|]; cbn; [|done]. by rewrite Hrt. Qed.

Lemma row_summary_run_row s : row_summary (run_row s) = Ok (state_summary s).
Proof.
  unfold row_summary, run_row. cbn [row_plan row_reopen_metadata row_archive_metadata
    row_unarchive_metadata row_annotation row_pin_metadata row_snooze_metadata row_priority
    row_blocked_by_run_ids].
  rewrite !from_to_strings.
  rewrite (json_ok_map (rs_reopen_metadata s)) by apply from_to_reopen.
  rewrite (json_ok_map (rs_archive_metadata s)) by apply from_to_archive.
  rewrite (json_ok_map (rs_unarchive_metadata s)) by apply from_to_unarchive.
  rewrite (json_ok_map (rs_annotation s)) by apply from_to_annotation.
  rewrite (json_ok_map (rs_pin_metadata s)) by apply from_to_pin.
  rewrite (json_ok_map (rs_snooze_metadata s)) by apply from_to_snooze.
  rewrite (proj2 (priority_parse_spec _ (rs_priority s)) eq_refl).
  cbn [mbind res_bind ok_or].
  assert ((effort_as_str <$> rs_effort s) ≫= effort_parse = rs_effort s) as He.
  { by destruct (rs_effort s) as [[]|]. }
  unfold state_summary. cbn [row_run_id row_workspace_id row_user_goal row_status
    row_current_step row_outcome_kind row_supersedes_run_id row_superseded_by_run_id
    row_is_archived row_assignee row_due_date row_effort row_created_at row_updated_at].
  rewrite N2Z.id, He. destruct (bool_decide (is_Some _) && _); reflexivity.
Qed.

(** The filters the loop applies, on states. *)
Definition keep (label_filter : option string) (pinned_only : bool) (s : RunState) : bool :=
  match label_filter with
  | Some label => contains_elem (sum_labels (state_summary s)) label
  | None => true
  end &&
  (negb pinned_only || bool_decide (sum_is_pinned (state_summary s) = Some true)).

Lemma read_summaries_states lf po ss :
  read_summaries lf po (map run_row ss) = Ok (map state_summary (List.filter (keep lf po) ss)).
Proof.
  induction ss as [|s ss IH]; [done|].
  cbn [map read_summaries]. rewrite row_summary_run_row, IH. cbn [mbind res_bind].
  cbn [List.filter]. fold (keep lf po s). by destruct (keep lf po s).
Qed.

Lemma list_runs_order_total a b : list_runs_order a b ∨ list_runs_order b a.
Proof.
  unfold list_runs_order.
  destruct (bool_decide (is_Some (row_pin_metadata a))),
    (bool_decide (is_Some (row_pin_metadata b))); cbn; auto using str_le_total.
Qed.

Lemma list_runs_order_trans a b c :
  list_runs_order a b → list_runs_order b c → list_runs_order a c.
Proof.
  unfold list_runs_order.
  destruct (bool_decide (is_Some (row_pin_metadata a))),
    (bool_decide (is_Some (row_pin_metadata b))),
    (bool_decide (is_Some (row_pin_metadata c))); cbn; try done;
    intros; eauto using str_le_trans.
Qed.

Lemma list_runs_order_summary s t :
  list_runs_order (run_row s) (run_row t) →
  summary_order (state_summary s) (state_summary t).
Proof.
  unfold list_runs_order, summary_order. cbn.
  destruct (rs_pin_metadata s), (rs_pin_metadata t); cbn; intros Ho;
    (split; [intros [? ?]; (done || by eexists)|]); intros Hi.
  - by apply Is_true_true.
  - by destruct (proj1 Hi (ex_intro _ _ eq_refl)).
  - done.
  - by apply Is_true_true.
Qed.

Lemma list_runs_where_listed ws st ia ao lf po is_ so s :
  list_runs_where ws st ia ao is_ so (run_row s) = true ∧ keep lf po s = true ↔
  listed ws st ia ao lf po is_ so s.
Proof.
  unfold list_runs_where, keep, listed, archived, snoozed, contains_elem.
  cbn [row_workspace_id row_status row_is_archived row_is_snoozed run_row sum_labels
    sum_is_pinned state_summary].
  rewrite !andb_true_iff, orb_true_iff, negb_true_iff, bool_decide_eq_true.
  assert ((λ _ : PinMetadata, true) <$> rs_pin_metadata s = Some true ↔
    is_Some (rs_pin_metadata s)) as ->.
  { destruct (rs_pin_metadata s); cbn; naive_solver. }
  assert (match ws with Some w => rs_workspace_id s == w | None => true end = true ↔
    (∀ w, ws = Some w → rs_workspace_id s = w)) as ->.
  { destruct ws; [rewrite String.eqb_eq|]; naive_solver. }
  assert (match st with Some w => rs_status s == w | None => true end = true ↔
    (∀ w, st = Some w → rs_status s = w)) as ->.
  { destruct st; [rewrite String.eqb_eq|]; naive_solver. }
  assert (∀ (L : list string), match lf with Some l => bool_decide (l ∈ L) | None => true end = true ↔
    (∀ l, lf = Some l → l ∈ L)) as Hl.
  { intros L. destruct lf; [rewrite bool_decide_eq_true|]; naive_solver. }
  rewrite Hl.
  destruct (decide (is_Some (rs_archive_metadata s))) as [Ha|Ha],
    (decide (rs_unarchive_metadata s = None)) as [Hu|Hu],
    (decide (is_Some (rs_snooze_metadata s))) as [Hs|Hs];
    rewrite ?(bool_decide_eq_true_2 _ Ha), ?(bool_decide_eq_false_2 _ Ha),
      ?(bool_decide_eq_true_2 _ Hu), ?(bool_decide_eq_false_2 _ Hu),
      ?(bool_decide_eq_true_2 _ Hs), ?(bool_decide_eq_false_2 _ Hs);
    destruct ia, ao, is_, so, po; cbn; intuition congruence.
Qed.

Lemma run_row_inj s t : run_row s = run_row t → s = t.
Proof.
  intros E. assert (Ok s = Ok t) as [= ->]; [|done].
  rewrite <- (row_state_run_row s), <- (row_state_run_row t). by rewrite E.
Qed.

(** Rows of a well-formed table are rows of states. *)
Lemma stored_states db l :
  db_wf db → (∀ r, r ∈ l → r ∈ db_runs db) → ∃ ss, l = map run_row ss.
Proof.
  intros Hwf. pose proof (wf_rows _ Hwf) as Hrows. rewrite Forall_forall in Hrows.
  induction l as [|r l IH]; intros Hl; [by exists []|].
  destruct IH as [ss ->]; [intros; apply Hl; by right|].
  destruct (Hrows r) as (s & -> & _); [apply Hl; by left|]. by exists (s :: ss).
Qed.

(** Listing runs on a well-formed database succeeds and is sound,
    ordered, bounded and complete: every summary is that of a stored run
    that passes the filters, pinned runs come before the others and the
    latest update first within each group, there are at most as many as the
    limit, and when the limit is not below the number of stored runs every
    run that passes is listed. *)
Theorem list_runs_spec limit ws st ia ao lf po is_ so db :
  db_wf db → (limit <= i64_max)%N →
  ∃ out, list_runs limit ws st ia ao lf po is_ so db = Ok out ∧
    (∀ x, x ∈ out → ∃ s, run_row s ∈ db_runs db ∧ x = state_summary s ∧
       listed ws st ia ao lf po is_ so s) ∧
    StronglySorted summary_order out ∧
    (len out <= limit)%N ∧
    ((len (db_runs db) <= limit)%N → ∀ s, run_row s ∈ db_runs db →
       listed ws st ia ao lf po is_ so s → state_summary s ∈ out).
Proof.
  intros Hwf Hlim. unfold list_runs.
  set (rows := List.filter (list_runs_where ws st ia ao is_ so) (db_runs db)).
  set (sorted := sort_by list_runs_order (scan rows)).
  assert (sorted ≡ₚ rows) as Hperm.
  { subst sorted. rewrite sort_by_perm. apply scan_perm. }
  assert (∀ r, r ∈ sql_limit limit sorted → r ∈ db_runs db ∧
            list_runs_where ws st ia ao is_ so r = true) as Hin.
  { intros r Hr%sql_limit_elem. rewrite Hperm in Hr.
    apply list_elem_of_In, filter_In in Hr as [? ?]. by rewrite list_elem_of_In. }
  destruct (stored_states db (sql_limit limit sorted) Hwf) as [ss Hss]; [by intros r [? _]%Hin|].
  rewrite Hss, read_summaries_states. eexists. split; [reflexivity|]. split_and!.
  - intros x (s & -> & Hs)%list_elem_of_fmap. apply list_elem_of_In, filter_In in Hs as [Hs Hk].
    destruct (Hin (run_row s)) as [Hdb Hw].
    { rewrite Hss. apply list_elem_of_fmap. exists s. by rewrite list_elem_of_In. }
    exists s. split; [done|]. split; [done|]. by apply list_runs_where_listed.
  - apply (StronglySorted_map (λ s t, list_runs_order (run_row s) (run_row t)));
      [apply list_runs_order_summary|].
    apply StronglySorted_filter, (StronglySorted_map_inv run_row (λ a b, list_runs_order a b)).
    rewrite <- Hss. apply sql_limit_sorted, sort_by_sorted;
      [apply list_runs_order_trans|apply list_runs_order_total].
  - unfold len. rewrite length_map.
    assert (length (List.filter (keep lf po) ss) <= length ss)%nat by apply filter_length_le.
    assert (length ss = length (sql_limit limit sorted)) as E by (by rewrite Hss, length_map).
    unfold sql_limit in E. rewrite (proj2 (N.leb_le _ _) Hlim), length_take in E. lia.
  - intros Hbig s Hs Hl. apply list_runs_where_listed in Hl as [Hw Hk].
    apply list_elem_of_fmap. exists s. split; [done|]. apply list_elem_of_In, filter_In.
    split; [|done]. apply list_elem_of_In.
    assert (run_row s ∈ map run_row ss) as (t & E & Ht)%list_elem_of_fmap.
    { rewrite <- Hss. unfold sql_limit. rewrite (proj2 (N.leb_le _ _) Hlim), take_ge.
      - rewrite Hperm. apply list_elem_of_In, filter_In. by rewrite <- list_elem_of_In.
      - rewrite (Permutation_length Hperm). subst rows. unfold len in Hbig.
        pose proof (filter_length_le (list_runs_where ws st ia ao is_ so) (db_runs db)). lia. }
    by apply run_row_inj in E as ->.
Qed.
End listing.

(** ** History *)

(** The history of a run is its audit entries, newest first, cut at the
    limit: entries of that run only, ordered by time, all of them when the
    limit allows; and when the clock never went backwards it is exactly the
    reverse of the order in which they were appended. *)
Theorem get_audit_entries_spec id limit db :
  (limit <= i64_max)%N →
  let mine := List.filter (λ e, rhe_run_id e == id) (db_audit db) in
  ∃ out, get_audit_entries id limit db = Ok out ∧
    (∀ e, e ∈ out → e ∈ db_audit db ∧ rhe_run_id e = id) ∧
    StronglySorted (λ a b, str_le (rhe_occurred_at b) (rhe_occurred_at a)) out ∧
    (len out <= limit)%N ∧
    ((len mine <= limit)%N → out ≡ₚ mine) ∧
    (StronglySorted (λ a b, str_le (rhe_occurred_at a) (rhe_occurred_at b)) mine →
       out = take (N.to_nat limit) (rev mine)).
Proof.
  intros Hl mine. unfold get_audit_entries, sql_limit. fold mine.
  rewrite (proj2 (N.leb_le _ _) Hl). eexists. split; [reflexivity|].
  assert (sort_by audit_order (rev mine) ≡ₚ mine) as Hp.
  { rewrite sort_by_perm. symmetry. apply Permutation_rev. }
  split_and!.
  - intros e He%(subseteq_take _ _ e). rewrite Hp in He.
    apply list_elem_of_In, filter_In in He as [? ?%String.eqb_eq]. by rewrite list_elem_of_In.
  - apply StronglySorted_take, sort_by_sorted; unfold audit_order.
    + intros x y z. eauto using str_le_trans.
    + intros x y. apply str_le_total.
  - unfold len. rewrite length_take. lia.
  - intros Hb. rewrite take_ge; [done|]. rewrite (Permutation_length Hp). unfold len in Hb. lia.
  - intros Hs. f_equal. apply sort_by_id. clear -Hs. induction Hs as [|x l _ IH Hx]; cbn; [constructor|].
    apply StronglySorted_app. split_and!; [|done|repeat constructor].
    intros a b Ha ->%list_elem_of_singleton. rewrite Forall_forall in Hx. apply Hx.
    rewrite list_elem_of_In in Ha |- *. by apply in_rev.
Qed.

(** ** Blockers *)

Lemma count_id_lookup ids m id :
  default 0%N (foldl count_id m ids !! id) =
  (default 0 (m !! id) + len (List.filter (λ x, String.eqb x id) ids))%N.
Proof.
  revert m. induction ids as [|x ids IH]; intros m; cbn; [unfold len; cbn; lia|].
  rewrite IH. unfold count_id, len. destruct (String.eqb_spec x id) as [->|Hne].
  - rewrite lookup_insert_eq. cbn. lia.
  - by rewrite lookup_insert_ne.
Qed.

Lemma filter_NoDup_count id (l : list string) :
  NoDup l → len (List.filter (λ x, String.eqb x id) l) = if bool_decide (id ∈ l) then 1%N else 0%N.
Proof.
  induction 1 as [|x l Hx _ IH]; [done|]. cbn.
  destruct (String.eqb_spec x id) as [->|Hne].
  - rewrite bool_decide_eq_true_2 by left. rewrite bool_decide_eq_false_2 in IH by done.
    unfold len in *. cbn. lia.
  - rewrite IH. by rewrite (bool_decide_ext (id ∈ x :: l) (id ∈ l)) by set_solver.
Qed.

(** The blocker map counts, for an id, the stored runs that list it as a
    blocker, whatever their status. *)
Theorem blocker_impact_counts `{Serde} `{!SerdeLaws} db ss id :
  db_runs db = map run_row ss → Forall (λ s, NoDup (rs_blocked_by_run_ids s)) ss →
  default 0%N (get_blocker_impact_map db !! id) =
  len (List.filter (λ s, bool_decide (id ∈ rs_blocked_by_run_ids s)) ss).
Proof.
  intros Hdb Hnd. unfold get_blocker_impact_map. rewrite count_id_lookup, lookup_empty, Hdb.
  cbn [default from_option]. clear Hdb. induction Hnd as [|s ss Hs _ IH]; [done|].
  cbn [map List.filter row_blocked_by_run_ids run_row].
  pose proof (filter_NoDup_count id _ Hs) as Hc.
  destruct (String.eqb_spec (to_string (rs_blocked_by_run_ids s)) "[]") as [E|E]; cbn [negb].
  - assert (rs_blocked_by_run_ids s = []) as Hnil.
    { pose proof (from_to_strings (rs_blocked_by_run_ids s)) as E1.
      rewrite E, <- to_string_nil, from_to_strings in E1. by injection E1. }
    rewrite Hnil in *. cbn. exact IH.
  - change (mbind ?f (?x :: ?l)) with (f x ++ mbind f l).
    cbn beta. rewrite from_to_strings, List.filter_app. unfold len in *. rewrite length_app.
    case_bool_decide; cbn [length]; lia.
Qed.

(** ** Concrete databases *)

Definition demo_save (s : RunState) (db : Db) : Db := (save_run (H:=demo_serde) (H0:=demo_sqlite) s db).2.

Definition demo_run2 : RunState :=
  set_rs_blocked_by_run_ids ["r1"] (set_rs_updated_at "2024-02-01T00:00:00+00:00"
    (mkRunState "r2" "/ws" "second" "active" [] 0 [] [] None None None None None None [] [] None
       RunPolicy_default None None None None None None None None None
       (Some (mkPinMetadata "keep" "t")) None High None None None [] None "t0" "t0")).

Definition demo_db : Db := Eval vm_compute in demo_save demo_run2 (demo_save demo_run db_open).

Lemma demo_db_wf : db_wf (H:=demo_serde) demo_db.
Proof.
  change demo_db with (save_run (H:=demo_serde) (H0:=demo_sqlite) demo_run2
    (save_run (H:=demo_serde) (H0:=demo_sqlite) demo_run db_open).2).2.
  apply save_run_wf, save_run_wf, db_open_wf.
Qed.

Lemma store_refines_map_witness :
  let db := (save_run (H:=demo_serde) (H0:=demo_sqlite) demo_run db_open).2 in
  get_run (H:=demo_serde) (H0:=demo_sqlite) "r1" db = Ok (Some demo_run).
Proof.
  assert (runs_map (H:=demo_serde) (H1:=demo_sqlite) db_open ∅) as Hopen.
  { split; [apply db_open_wf|]. intros id. by rewrite lookup_empty. }
  destruct (store_refines_map (H:=demo_serde) (H0:=demo_serde_laws) (H1:=demo_sqlite)
    db_open ∅ demo_run Hopen) as (_ & Hs & _).
  destruct Hs as [_ [_ Hg]]; [vm_compute; discriminate|]. intros db. subst db. rewrite (Hg "r1").
  reflexivity.
Defined.

Lemma list_runs_spec_witness :
  ∃ out, list_runs (H:=demo_serde) (H0:=demo_sqlite) 10 (Some "/ws") None false false None false
           false false demo_db = Ok out ∧
    StronglySorted summary_order out ∧ state_summary demo_run2 ∈ out.
Proof.
  destruct (list_runs_spec (H:=demo_serde) (H0:=demo_serde_laws) (H1:=demo_sqlite)
    (H2:=demo_sqlite_laws) 10 (Some "/ws") None false false None false false false demo_db)
    as (out & E & _ & Hsrt & _ & Hall).
  - exact demo_db_wf.
  - vm_compute. discriminate.
  - exists out. split; [exact E|]. split; [exact Hsrt|]. apply Hall.
    + vm_compute. discriminate.
    + vm_compute. right. left.
    + unfold listed, archived, snoozed. cbn. split_and!; try done.
      * by intros w [= <-].
      * right. by intros [[? ?] _].
      * right. by intros [? ?].
Defined.

Lemma get_audit_entries_spec_witness :
  ∃ out, get_audit_entries "r1" 5 demo_db = Ok out ∧ (len out <= 5)%N.
Proof.
  destruct (get_audit_entries_spec "r1" 5 demo_db) as (out & E & _ & _ & Hl & _).
  - vm_compute. discriminate.
  - exists out. split; assumption.
Defined.

Lemma blocker_impact_counts_witness :
  default 0%N (get_blocker_impact_map (H:=demo_serde) demo_db !! "r1") = 1%N.
Proof.
  rewrite (blocker_impact_counts (H:=demo_serde) (H0:=demo_serde_laws) demo_db
    [demo_run; demo_run2]).
  - vm_compute. reflexivity.
  - vm_compute. reflexivity.
  - repeat constructor; cbn; try apply NoDup_nil; set_solver.
Defined.
