(* ===== verification/Methods.v ===== *)
(** * Method names (deterministic-protocol/src/methods.rs) *)

From S2P Require Import Prelude RustStr.

Inductive Method :=
| RunPrepare
| RunRefresh
| RunReplan
| WorkspaceSummary
| FileRead
| GitStatus
| CodeSearch
| PatchApply
| TestsRun
| GitDiff
| ApprovalResolve
| RunsList
| RunGet
| RunHistory
| PatchPreflight
| TestsPreflight
| RunFinalize
| RunReopen
| RunSupersede
| RunArchive
| RunUnarchive
| RunAnnotate
| RunPin
| RunUnpin
| RunSnooze
| RunUnsnooze
| RunSetPriority
| RunAssignOwner
| RunSetDueDate
| RunSetDependencies
| RunsQueueOverview
| RunSetEffort
| CommandRun
| QueueViewCreate
| QueueViewUpdate
| QueueViewDelete
| QueueViewGet
| QueueViewList.

#[export] Instance Method_eq_dec : EqDecision Method.
Proof. solve_decision. Defined.

Definition method_as_str (self : Method) : string :=
  match self with
  | RunPrepare => "run.prepare"
  | RunRefresh => "run.refresh"
  | RunReplan => "run.replan"
  | WorkspaceSummary => "workspace.summary"
  | FileRead => "file.read"
  | GitStatus => "git.status"
  | CodeSearch => "code.search"
  | PatchApply => "patch.apply"
  | TestsRun => "tests.run"
  | GitDiff => "git.diff"
  | ApprovalResolve => "approval.resolve"
  | RunsList => "runs.list"
  | RunGet => "run.get"
  | RunHistory => "run.history"
  | PatchPreflight => "patch.preflight"
  | TestsPreflight => "tests.preflight"
  | RunFinalize => "run.finalize"
  | RunReopen => "run.reopen"
  | RunSupersede => "run.supersede"
  | RunArchive => "run.archive"
  | RunUnarchive => "run.unarchive"
  | RunAnnotate => "run.annotate"
  | RunPin => "run.pin"
  | RunUnpin => "run.unpin"
  | RunSnooze => "run.snooze"
  | RunUnsnooze => "run.unsnooze"
  | RunSetPriority => "run.set_priority"
  | RunAssignOwner => "run.assign_owner"
  | RunSetDueDate => "run.set_due_date"
  | RunSetDependencies => "run.set_dependencies"
  | RunsQueueOverview => "runs.overview"
  | RunSetEffort => "run.set_effort"
  | CommandRun => "run.command"
  | QueueViewCreate => "queue_view.create"
  | QueueViewUpdate => "queue_view.update"
  | QueueViewDelete => "queue_view.delete"
  | QueueViewGet => "queue_view.get"
  | QueueViewList => "queue_view.list"
  end.

(** The table of [parse_method]. *)
Definition method_table : list (string * Method) :=
  [("run.prepare", RunPrepare);
   ("run.refresh", RunRefresh);
   ("run.replan", RunReplan);
   ("workspace.summary", WorkspaceSummary);
   ("file.read", FileRead);
   ("git.status", GitStatus);
   ("code.search", CodeSearch);
   ("patch.apply", PatchApply);
   ("tests.run", TestsRun);
   ("git.diff", GitDiff);
   ("approval.resolve", ApprovalResolve);
   ("runs.list", RunsList);
   ("run.get", RunGet);
   ("run.history", RunHistory);
   ("patch.preflight", PatchPreflight);
   ("tests.preflight", TestsPreflight);
   ("run.finalize", RunFinalize);
   ("run.reopen", RunReopen);
   ("run.supersede", RunSupersede);
   ("run.archive", RunArchive);
   ("run.unarchive", RunUnarchive);
   ("run.annotate", RunAnnotate);
   ("run.pin", RunPin);
   ("run.unpin", RunUnpin);
   ("run.snooze", RunSnooze);
   ("run.unsnooze", RunUnsnooze);
   ("run.set_priority", RunSetPriority);
   ("run.assign_owner", RunAssignOwner);
   ("run.set_due_date", RunSetDueDate);
   ("run.set_dependencies", RunSetDependencies);
   ("run.set_effort", RunSetEffort);
   ("run.command", CommandRun);
   ("runs.overview", RunsQueueOverview);
   ("queue_view.create", QueueViewCreate);
   ("queue_view.update", QueueViewUpdate);
   ("queue_view.delete", QueueViewDelete);
   ("queue_view.get", QueueViewGet);
   ("queue_view.list", QueueViewList)].

Definition parse_method (s : string) : option Method :=
  option_map snd (find_first (λ nm, s == fst nm) method_table).

Definition method_all : list Method :=
  [RunPrepare; RunRefresh; RunReplan; WorkspaceSummary; FileRead; GitStatus; CodeSearch; PatchApply; TestsRun; GitDiff; ApprovalResolve; RunsList; RunGet; RunHistory; PatchPreflight; TestsPreflight; RunFinalize; RunReopen; RunSupersede; RunArchive; RunUnarchive; RunAnnotate; RunPin; RunUnpin; RunSnooze; RunUnsnooze; RunSetPriority; RunAssignOwner; RunSetDueDate; RunSetDependencies; RunsQueueOverview; RunSetEffort; CommandRun; QueueViewCreate; QueueViewUpdate; QueueViewDelete; QueueViewGet; QueueViewList].

Definition FORBIDDEN_METHODS : list string :=
  ["turn.start"; "turn.steer"; "review.start"; "agent.step"; "run.continue"; "forbidden method registered: {name}"].

(** ** Properties *)

Lemma method_table_names : Forall (λ nm, fst nm = method_as_str (snd nm)) method_table.
Proof. by repeat constructor. Qed.

Lemma parse_as_str m : parse_method (method_as_str m) = Some m.
Proof. by destruct m. Qed.

Lemma parse_method_name s m : parse_method s = Some m → s = method_as_str m.
Proof.
  unfold parse_method.
  destruct (find_first _ method_table) as [nm|] eqn:E; [|done]. intros [= <-].
  apply find_first_Some in E as [Hin ->%String.eqb_eq].
  pose proof method_table_names as Hn. rewrite Forall_forall in Hn. by apply Hn.
Qed.

(** A text parses to a method exactly when it is the wire name of that
    method; every method is registered, once; and none of the forbidden names,
    which would give the backend a loop of its own, parses. *)
Theorem parse_method_iff :
  (∀ s m, parse_method s = Some m ↔ s = method_as_str m) ∧
  (∀ m, m ∈ method_all) ∧ NoDup method_all ∧
  (∀ s, s ∈ FORBIDDEN_METHODS → parse_method s = None).
Proof.
  split_and!.
  - intros s m. split; [apply parse_method_name|intros ->; apply parse_as_str].
  - intros m. destruct m; unfold method_all; repeat (first [left|right]).
  - unfold method_all. repeat constructor; set_solver.
  - intros s Hs. unfold FORBIDDEN_METHODS in Hs.
    repeat (apply elem_of_cons in Hs as [->|Hs]; [reflexivity|]). by apply not_elem_of_nil in Hs.
Qed.
