(* ===== verification/QueueViews.v ===== *)
(** * Saved queue views (deterministic-daemon: handlers.rs, the
    [queue_view.*] handlers)

    The views live in a process-wide hash map from ids to views.  The order
    in which a hash map is visited is a parameter. *)

From S2P Require Import Prelude RustStr Types Lifecycle Os Store DemoSerde.

(** Two names are the same view name when they agree in lower case. *)
Definition same_name `{Unicode} (a b : string) : bool := to_lowercase a == to_lowercase b.

(** [views.values()]. *)
Definition view_values `{HashOrder} (views : gmap string QueueView) : list QueueView :=
  hash_order (map snd (map_to_list views)).

(** ** Handlers *)

Section views.
Context `{Os} `{Env} `{Unicode} `{HashOrder}.

Definition set_views (views : gmap string QueueView) (w : World) : World :=
  mkWorld (w_db w) views (w_os w) (w_tick w).

Definition empty_name : string :=
  "view name cannot be empty. Provide a non-empty name for the saved view.".

Definition handle_queue_view_create (p : CreateQueueViewParams)
    : M World (CreateQueueViewResult * option RunState) :=
  let name := trim (cqvp_name p) in
  _ ← lift (ensure (negb (str_is_empty name)) empty_name);
  views ← gets w_views;
  _ ← lift (match find_first (λ v, same_name (qv_name v) name) (view_values views) with
            | Some v =>
                Err ("a view named '" +:+ qv_name v +:+ "' already exists. Choose a different name, or use update_queue_view to modify the existing view.")
            | None => Ok ()
            end);
  now ← now;
  uuid ← new_uuid;
  let view_id := "qv-" +:+ uuid in
  let view := {|
    qv_view_id := view_id;
    qv_name := name;
    qv_description := cqvp_description p;
    qv_filters := cqvp_filters p;
    qv_sort := cqvp_sort p;
    qv_limit := cqvp_limit p;
    qv_created_at := now;
    qv_updated_at := now
  |} in
  _ ← modify (λ w, set_views (<[view_id := view]> (w_views w)) w);
  mret (mkCreateQueueViewResult view, None).

(** The fields an update names. *)
Definition update_view (p : UpdateQueueViewParams) (now : string) (view : QueueView)
    : QueueView :=
  let view := match uqvp_name p with Some n => set_qv_name (trim n) view | None => view end in
  let view :=
    match uqvp_description p with Some d => set_qv_description d view | None => view end in
  let view := match uqvp_filters p with Some f => set_qv_filters f view | None => view end in
  let view := match uqvp_sort p with Some s => set_qv_sort s view | None => view end in
  let view := match uqvp_limit p with Some l => set_qv_limit l view | None => view end in
  set_qv_updated_at now view.

Definition check_new_name (p : UpdateQueueViewParams) (views : gmap string QueueView) : res () :=
  match uqvp_name p with
  | None => Ok ()
  | Some name =>
      let trimmed := trim name in
      _ ← ensure (negb (str_is_empty trimmed)) empty_name;
      match find_first (λ v, negb (qv_view_id v == uqvp_view_id p) &&
                             same_name (qv_name v) trimmed) (view_values views) with
      | Some v =>
          Err ("a view named '" +:+ qv_name v +:+ "' already exists. Choose a different name.")
      | None => Ok ()
      end
  end.

Definition handle_queue_view_update (p : UpdateQueueViewParams)
    : M World (UpdateQueueViewResult * option RunState) :=
  views ← gets w_views;
  _ ← lift (ensure (bool_decide (is_Some (views !! uqvp_view_id p)))
        ("view not found: " +:+ uqvp_view_id p +:+ ". Use list_queue_views to see available views."));
  _ ← lift (check_new_name p views);
  view ← lift (ok_or (views !! uqvp_view_id p) ("view not found: " +:+ uqvp_view_id p));
  now ← now;
  let view := update_view p now view in
  _ ← modify (λ w, set_views (<[uqvp_view_id p := view]> (w_views w)) w);
  mret (mkUpdateQueueViewResult view, None).

Definition handle_queue_view_delete (p : DeleteQueueViewParams)
    : M World (DeleteQueueViewResult * option RunState) :=
  views ← gets w_views;
  _ ← lift (ok_or (views !! dqvp_view_id p) ("view not found: " +:+ dqvp_view_id p));
  _ ← modify (λ w, set_views (delete (dqvp_view_id p) (w_views w)) w);
  mret (mkDeleteQueueViewResult (dqvp_view_id p), None).

Definition handle_queue_view_get (p : GetQueueViewParams)
    : M World (QueueView * option RunState) :=
  views ← gets w_views;
  view ← lift (ok_or (views !! gqvp_view_id p) ("view not found: " +:+ gqvp_view_id p));
  mret (view, None).

Definition view_order (a b : QueueView) : bool := str_le (qv_name a) (qv_name b).

Definition handle_queue_view_list (p : ListQueueViewsParams)
    : M World (ListQueueViewsResult * option RunState) :=
  views ← gets w_views;
  let result_views := view_values views in
  let result_views :=
    match lqvp_name_contains p with
    | Some name_contains =>
        let search := to_lowercase name_contains in
        List.filter (λ v, str_contains (to_lowercase (qv_name v)) search) result_views
    | None => result_views
    end in
  let result_views := sort_by view_order result_views in
  mret (mkListQueueViewsResult result_views (len result_views), None).
End views.

(** ** Properties *)

(** What every reachable set of views satisfies: a view is stored under its
    own id, its name is not empty and no two views share a name up to case. *)
Definition views_ok `{Unicode} (views : gmap string QueueView) : Prop :=
  (∀ id v, views !! id = Some v → qv_view_id v = id ∧ qv_name v ≠ "") ∧
  (∀ id v id' v', views !! id = Some v → views !! id' = Some v' →
     to_lowercase (qv_name v) = to_lowercase (qv_name v') → id = id').

Lemma views_ok_empty `{Unicode} : views_ok ∅.
Proof.
  split; [intros id v Hl|intros id v id' v' Hl _ _]; by rewrite lookup_empty in Hl.
Qed.

Section views_facts.
Context `{Os} `{Env} `{Unicode} `{HashOrder} `{!HashOrderLaws}.

Lemma elem_view_values views v : v ∈ view_values views ↔ ∃ id, views !! id = Some v.
Proof.
  unfold view_values. rewrite hash_perm. rewrite list_elem_of_fmap. split.
  - intros ([id v'] & -> & Hin). exists id. by apply elem_of_map_to_list in Hin.
  - intros [id Hid]. exists (id, v). by rewrite elem_of_map_to_list.
Qed.

Lemma no_same_name views name :
  find_first (λ v, same_name (qv_name v) name) (view_values views) = None →
  ∀ id v, views !! id = Some v → to_lowercase (qv_name v) ≠ to_lowercase name.
Proof.
  rewrite find_first_None, Forall_forall. intros Hn id v Hv.
  apply String.eqb_neq, (Hn v), elem_view_values. eauto.
Qed.

Lemma create_views w p r w' :
  handle_queue_view_create p w = (Ok r, w') →
  let v := cqvr_view r.1 in
  w_views w' = <[qv_view_id v := v]> (w_views w) ∧
  qv_view_id v = "qv-" +:+ uuid_at (S (w_tick w)) ∧
  qv_name v = trim (cqvp_name p) ∧ qv_name v ≠ "" ∧
  (∀ id u, w_views w !! id = Some u → to_lowercase (qv_name u) ≠ to_lowercase (qv_name v)).
Proof.
  unfold handle_queue_view_create. cbv zeta. unfold lift, gets, modify, mbind, M_bind.
  destruct (str_is_empty (trim (cqvp_name p))) eqn:He; [done|]. cbn.
  destruct (find_first _ _) eqn:Ef; [done|]. intros [= <- <-]. cbn.
  split_and!; try done.
  - apply String.eqb_neq. exact He.
  - by apply no_same_name.
Qed.

(** A view that is not found under its id is a fresh one. *)
Lemma views_ok_insert views v :
  views_ok views → views !! qv_view_id v = None → qv_name v ≠ "" →
  (∀ id u, views !! id = Some u → to_lowercase (qv_name u) ≠ to_lowercase (qv_name v)) →
  views_ok (<[qv_view_id v := v]> views).
Proof.
  intros [Hid Hu] Hfresh Hne Hn. split.
  - intros id u [[<- <-]|[? Hl]]%lookup_insert_Some; [done|by apply Hid].
  - intros i u j u' [[<- <-]|[? Hi]]%lookup_insert_Some [[<- <-]|[? Hj]]%lookup_insert_Some E.
    + done.
    + by destruct (Hn j u' Hj).
    + by destruct (Hn i u Hi).
    + by apply (Hu i u j u').
Qed.

(** Saved views keep unique names: creating (under an id not in use),
    updating and deleting preserve that every view is stored under its id
    with a non-empty name and that no two names agree in lower case. *)
Theorem views_invariant w :
  views_ok (w_views w) →
  (∀ p r w', handle_queue_view_create p w = (Ok r, w') →
     w_views w !! ("qv-" +:+ uuid_at (S (w_tick w))) = None → views_ok (w_views w')) ∧
  (∀ p r w', handle_queue_view_update p w = (Ok r, w') → views_ok (w_views w')) ∧
  (∀ p r w', handle_queue_view_delete p w = (Ok r, w') → views_ok (w_views w')).
Proof.
  intros Hok. split_and!.
  - intros p r w' Hc Hfresh. apply create_views in Hc as (-> & Hid & _ & Hne & Hn).
    apply views_ok_insert; [done| |done..]. by rewrite Hid.
  - intros p r w'. unfold handle_queue_view_update, lift, gets, modify, mbind, M_bind. cbn.
    case_bool_decide as Hs; [|done]. cbn.
    destruct (check_new_name p (w_views w)) eqn:Hc; [|done..].
    destruct (w_views w !! uqvp_view_id p) as [v|] eqn:Hv; [|done]. intros [= <- <-]. cbn.
    set (v' := update_view p _ v).
    assert (qv_view_id v' = uqvp_view_id p ∧ qv_name v' =
      match uqvp_name p with Some n => trim n | None => qv_name v end) as [Hid Hnm].
    { subst v'. destruct Hok as [Ho _]. destruct (Ho _ _ Hv) as [<- _]. unfold update_view.
      by destruct (uqvp_name p), (uqvp_description p), (uqvp_filters p), (uqvp_sort p),
        (uqvp_limit p). }
    assert (qv_name v' ≠ "" ∧ ∀ id u, w_views w !! id = Some u → id ≠ uqvp_view_id p →
      to_lowercase (qv_name u) ≠ to_lowercase (qv_name v')) as [Hne Hn].
    { rewrite Hnm. unfold check_new_name in Hc. destruct Hok as [Ho Hu].
      destruct (uqvp_name p) as [n|].
      - apply res_bind_Ok in Hc as (? & Hne%ensure_Ok & Hc).
        apply negb_true_iff, String.eqb_neq in Hne. split; [done|]. intros id u Hl Hd.
        destruct (find_first _ _) eqn:Ef; [done|]. rewrite find_first_None, Forall_forall in Ef.
        specialize (Ef u). destruct (Ho _ _ Hl) as [Hidu _].
        rewrite Hidu, (proj2 (String.eqb_neq _ _) Hd) in Ef.
        apply String.eqb_neq, Ef, elem_view_values. eauto.
      - split; [by apply (Ho _ _ Hv)|]. intros id u Hl Hd E. apply Hd. by apply (Hu id u _ v). }
    destruct Hok as [Ho Hu]. split.
    + intros id u [[<- <-]|[? Hl]]%lookup_insert_Some; [done|by apply Ho].
    + intros i u j u' [[<- <-]|[? Hi]]%lookup_insert_Some [[<- <-]|[? Hj]]%lookup_insert_Some E.
      * done.
      * by destruct (Hn j u' Hj ltac:(done)).
      * by destruct (Hn i u Hi ltac:(done)).
      * by apply (Hu i u j u').
  - intros p r w'. unfold handle_queue_view_delete, lift, gets, modify, mbind, M_bind. cbn.
    destruct (w_views w !! dqvp_view_id p); [|done]. intros [= <- <-]. cbn.
    destruct Hok as [Ho Hu]. split.
    + intros id v [_ Hl]%lookup_delete_Some. by apply Ho.
    + intros i u j u' [_ Hi]%lookup_delete_Some [_ Hj]%lookup_delete_Some. by apply (Hu i u j u').
Qed.
End views_facts.

Section views_crud.
Context `{Os} `{Env} `{Unicode} `{HashOrder} `{!HashOrderLaws}.

(** A created view is read back under its id, with its name trimmed;
    once deleted it is not found, neither for reading nor for another
    deletion, and all other views are as before the creation. *)
Theorem view_create_get_delete p w r w1 :
  let id := qv_view_id (cqvr_view r.1) in
  handle_queue_view_create p w = (Ok r, w1) →
  handle_queue_view_get (mkGetQueueViewParams id) w1 = (Ok (cqvr_view r.1, None), w1) ∧
  ∃ r2 w2, handle_queue_view_delete (mkDeleteQueueViewParams id) w1 = (Ok r2, w2) ∧
    w_views w2 = delete id (w_views w) ∧
    (∃ e, handle_queue_view_get (mkGetQueueViewParams id) w2 = (Err e, w2)) ∧
    (∃ e, handle_queue_view_delete (mkDeleteQueueViewParams id) w2 = (Err e, w2)).
Proof.
  intros id Hc. apply create_views in Hc as (Hv & _). fold id in Hv.
  unfold handle_queue_view_get, handle_queue_view_delete, lift, gets, modify, mbind, M_bind.
  cbn. rewrite Hv, lookup_insert_eq. cbn. split; [done|].
  do 2 eexists. split; [reflexivity|]. cbn. rewrite delete_insert_eq.
  rewrite lookup_delete_eq. eauto.
Qed.

(** The list of views is sorted by name and holds exactly the views
    whose name contains the search text, both in lower case; it changes
    nothing. *)
Theorem view_list_spec p w :
  ∃ r, handle_queue_view_list p w = (Ok (r, None), w) ∧
    StronglySorted (λ a b, str_le (qv_name a) (qv_name b)) (lqvr_views r) ∧
    lqvr_count r = len (lqvr_views r) ∧
    (∀ v, v ∈ lqvr_views r ↔ (∃ id, w_views w !! id = Some v) ∧
       ∀ s, lqvp_name_contains p = Some s →
         ∃ l t, to_lowercase (qv_name v) = l +:+ to_lowercase s +:+ t).
Proof.
  unfold handle_queue_view_list, gets, mbind, M_bind. cbn. eexists. split; [reflexivity|].
  cbn [lqvr_views lqvr_count]. split; [|split; [done|]].
  - apply sort_by_sorted; unfold view_order; [|intros; apply str_le_total].
    intros x y z. apply str_le_trans.
  - intros v. rewrite sort_by_elem. destruct (lqvp_name_contains p) as [s|].
    + rewrite list_elem_of_In, filter_In, <- list_elem_of_In, elem_view_values, str_contains_spec.
      naive_solver.
    + rewrite elem_view_values. naive_solver.
Qed.
End views_crud.

(** ** Concrete views *)

Definition demo_hash_order : HashOrder := λ _ l, l.
Lemma demo_hash_order_laws : HashOrderLaws (H:=demo_hash_order).
Proof. by intros A l. Qed.

Definition demo_world (db : Db) : World (H:=demo_os) := mkWorld (H:=demo_os) db ∅ demo_fs 0.

Definition demo_filters : QueueViewFilters :=
  mkQueueViewFilters None None None None false false false false false None None false None None
    None false false None None.
Definition demo_sort : QueueViewSort := mkQueueViewSort true false false false false.

Definition demo_view_params : CreateQueueViewParams :=
  mkCreateQueueViewParams " Mine " None demo_filters demo_sort None.

Definition demo_create (w : World (H:=demo_os)) :=
  handle_queue_view_create (H:=demo_os) (H0:=demo_env) (H1:=demo_unicode) (H2:=demo_hash_order)
    demo_view_params w.

Definition demo_view : QueueView :=
  mkQueueView "qv-1" "Mine" None demo_filters demo_sort None "2024-05-01T00:00:00.0"
    "2024-05-01T00:00:00.0".

Definition demo_view_world : World (H:=demo_os) :=
  mkWorld (H:=demo_os) db_open (<["qv-1" := demo_view]> ∅) demo_fs 2.

Lemma demo_create_eq :
  demo_create (demo_world db_open) = (Ok (mkCreateQueueViewResult demo_view, None), demo_view_world).
Proof.
  unfold demo_create, handle_queue_view_create, mbind, M_bind, lift, gets, modify. reflexivity.
Qed.

Lemma views_invariant_witness : views_ok (H:=demo_unicode) (w_views (H:=demo_os) demo_view_world).
Proof.
  destruct (views_invariant (H:=demo_os) (H0:=demo_env) (H1:=demo_unicode) (H2:=demo_hash_order)
    (H3:=demo_hash_order_laws) (demo_world db_open) views_ok_empty) as (Hc & _).
  exact (Hc _ _ _ demo_create_eq eq_refl).
Defined.

Lemma view_create_get_delete_witness :
  handle_queue_view_get (H:=demo_os) (mkGetQueueViewParams "qv-1") demo_view_world
  = (Ok (demo_view, None), demo_view_world).
Proof.
  apply (view_create_get_delete (H:=demo_os) (H0:=demo_env) (H1:=demo_unicode)
    (H2:=demo_hash_order) (H3:=demo_hash_order_laws) demo_view_params (demo_world db_open)
    _ _ demo_create_eq).
Defined.
