(* ===== verification/Handlers.v ===== *)
(** * Request handlers (deterministic-daemon: handlers.rs)

    One definition per handler, with every statement that changes the world
    in the order of the code.  The typed parameters and results stand for the
    JSON values the code converts at the start and the end of each handler;
    [Router] adds the conversions. *)

From S2P Require Import Prelude RustStr Types Lifecycle Organize Policy Approval Derive Os.
From S2P Require Import Command Workspace Patch Store Methods QueueViews.

(** The texts serde_json writes for audit metadata and payloads. *)
Inductive JsonValue :=
| JNull
| JString (s : string)
| JBool (b : bool)
| JStrings (l : list string).

Class JsonText := {
  json_text : list (string * JsonValue) → string;
  patch_params_text : PatchApplyParams → string;
  tests_params_text : TestsRunParams → string;
  command_result_text : CommandRunResult → string
}.

(** [json!] of an optional string. *)
Definition JOption (o : option string) : JsonValue :=
  match o with Some s => JString s | None => JNull end.

Section handlers.
Context `{Unicode} `{BuildProfile} `{Chrono} `{Os} `{Env} `{Serde} `{Sqlite} `{JsonText}.

(** ** Shared steps *)

Definition unknown_run (run_id : string) : string := "unknown run: " +:+ run_id.

Definition load_run (run_id : string) : M World RunState :=
  r ← query (get_run run_id); lift (ok_or r (unknown_run run_id)).

Definition load_workspace (run_id : string) : M World string :=
  r ← query (workspace_for_run run_id); lift (ok_or r (unknown_run run_id)).

Definition save (state : RunState) : M World () := on_db (save_run state).

(** [let _ = store.append_audit_entry(..)]. *)
Definition audit (run_id event_kind summary : string) (metadata : option string) : M World () :=
  ignore (append_audit_entry run_id event_kind summary metadata).

Definition build_retryable_action (kind summary : string) (payload_json : option string)
    (retryable_reason recommended_tool : string) : M World RetryableAction :=
  created_at ← now;
  mret {| ra_kind := kind;
          ra_summary := summary;
          ra_payload := payload_json;
          ra_retryable_reason := retryable_reason;
          ra_is_valid := true;
          ra_is_recommended := false;
          ra_invalidation_reason := None;
          ra_recommended_tool := recommended_tool;
          ra_created_at := created_at |}.

(** ** Preparing, refreshing, replanning *)

Definition handle_run_prepare (p : RunPrepareParams)
    : M World (RunPrepareResult * option RunState) :=
  run_id ← new_uuid;
  t ← now;
  '(result, state) ← lift (prepare run_id t p);
  _ ← save state;
  _ ← audit (rs_run_id state) "run_prepared" ("Run prepared: " +:+ rs_user_goal state) None;
  mret (result, Some state).

(** [git_diff::diff(..).ok().map(|r| r.diff_summary)]. *)
Definition live_diff_summary (run_id ws : string) : M World (option string) := λ w,
  match on_os (git_diff.diff (mkGitDiffParams run_id [] (Some "summary")) ws) w with
  | (Ok r, w') => (Ok (Some (gdr_diff_summary r)), w')
  | (Err _, w') => (Ok None, w')
  | (Panic, w') => (Panic, w')
  end.

Definition handle_run_refresh (p : RunRefreshParams)
    : M World (RunRefreshResult * option RunState) :=
  state ← load_run (rrfp_run_id p);
  pending_approvals ← query (get_pending_approvals (rrfp_run_id p));
  live_diff ← live_diff_summary (rrfp_run_id p) (rs_workspace_id state);
  result ← lift (refresh p state pending_approvals live_diff);
  _ ← audit (rrfp_run_id p) "refresh_performed"
        ("Refresh performed; status=" +:+ rs_status state) None;
  mret (result, Some state).

Definition handle_run_replan (p : RunReplanParams)
    : M World (RunReplanResult * option RunState) :=
  state ← load_run (rrpp_run_id p);
  t ← now;
  '(result, state) ← lift (replan t p state);
  _ ← save state;
  _ ← audit (rrpp_run_id p) "replan_performed" ("Replan performed: " +:+ rrpp_reason p) None;
  mret (result, Some state).

(** ** Reading the workspace *)

Definition handle_workspace_summary (p : WorkspaceSummaryParams)
    : M World (WorkspaceSummaryResult * option RunState) :=
  result ← on_os (workspace_summary.summary p);
  mret (result, None).

Definition handle_file_read (p : FileReadParams) : M World (FileReadResult * option RunState) :=
  ws ← load_workspace (frp_run_id p);
  result ← on_os (file_read.read p ws);
  run_state ← query (get_run (frp_run_id p));
  mret (result, run_state).

Definition handle_git_status (p : GitStatusParams)
    : M World (GitStatusResult * option RunState) :=
  ws ← load_workspace (gsp_run_id p);
  result ← on_os (git_status.status p ws);
  run_state ← query (get_run (gsp_run_id p));
  mret (result, run_state).

Definition handle_code_search (p : CodeSearchParams)
    : M World (CodeSearchResult * option RunState) :=
  ws ← load_workspace (csp_run_id p);
  result ← on_os (code_search.search p ws);
  run_state ← query (get_run (csp_run_id p));
  mret (result, run_state).

Definition handle_git_diff (p : GitDiffParams) : M World (GitDiffResult * option RunState) :=
  ws ← load_workspace (gdp_run_id p);
  result ← on_os (git_diff.diff p ws);
  run_state ← query (get_run (gdp_run_id p));
  mret (result, run_state).

(** ** Patches and tests *)

(** The gated branch, shared by both: create the approval, record the
    action, store the approval and then the run, and write the audit entry. *)
Definition gate (run_id kind what : string) (payload : string) (tool : string)
    (state : RunState) (action_summary risk_reason policy_rationale : string)
    : M World (PendingApproval * RunState) :=
  t ← now;
  uuid ← new_uuid;
  let '(approval, state) :=
    create_approval t uuid state action_summary risk_reason policy_rationale in
  ra ← build_retryable_action kind action_summary (Some payload)
         ("Blocked by approval policy: " +:+ policy_rationale) tool;
  let state := set_rs_retryable_action (Some ra) state in
  _ ← on_db (save_approval approval);
  _ ← save state;
  _ ← audit run_id "approval_created"
        ("Approval required for " +:+ what +:+ ": " +:+ action_summary) None;
  mret (approval, state).

Definition handle_patch_apply (p : PatchApplyParams)
    : M World (PatchApplyResult * option RunState) :=
  ws ← load_workspace (pap_run_id p);
  state ← load_run (pap_run_id p);
  match evaluate_patch p (rs_policy_profile state) with
  | RequiresApproval action_summary risk_reason policy_rationale =>
      '(approval, state) ← gate (pap_run_id p) "patch.apply" "patch" (patch_params_text p)
          "apply_patch" state action_summary risk_reason policy_rationale;
      mret (mkPatchApplyResult [] "" (Some approval), Some state)
  | Proceed =>
      let state := set_rs_retryable_action None state in
      _ ← save state;
      result ← on_os (apply p ws);
      _ ← audit (pap_run_id p) "patch_applied"
            ("Patch applied: " +:+ pretty (len (par_changed_files result)) +:+
             " file(s) changed") None;
      run_state ← query (get_run (pap_run_id p));
      mret (result, run_state)
  end.

Definition handle_tests_run (p : TestsRunParams) : M World (TestsRunResult * option RunState) :=
  ws ← load_workspace (trp_run_id p);
  state ← load_run (trp_run_id p);
  match evaluate_test_run p (rs_policy_profile state) with
  | RequiresApproval action_summary risk_reason policy_rationale =>
      '(approval, state) ← gate (trp_run_id p) "tests.run" "tests" (tests_params_text p)
          "run_tests" state action_summary risk_reason policy_rationale;
      mret (mkTestsRunResult "" (-1)%Z "" "" ("Approval required: " +:+ action_summary)
              (Some approval), Some state)
  | Proceed =>
      let state := set_rs_retryable_action None state in
      _ ← save state;
      result ← on_os (tests_run.run p ws);
      _ ← audit (trp_run_id p) "tests_run"
            ("Tests run: scope=" +:+ trp_scope p +:+ " exit_code=" +:+
             pretty (trr_exit_code result)) None;
      run_state ← query (get_run (trp_run_id p));
      mret (result, run_state)
  end.

Definition map_policy_decision (decision : PolicyDecision) (effective_policy : RunPolicy)
    : PreflightResult :=
  match decision with
  | Proceed => mkPreflightResult PfProceed None None None effective_policy
  | RequiresApproval action_summary risk_reason policy_rationale =>
      mkPreflightResult PfRequiresApproval (Some action_summary) (Some risk_reason)
        (Some policy_rationale) effective_policy
  end.

Definition handle_patch_preflight (p : PatchPreflightParams)
    : M World (PreflightResult * option RunState) :=
  state ← load_run (ppp_run_id p);
  let apply_params := mkPatchApplyParams (ppp_run_id p) (ppp_edits p) in
  let decision := evaluate_patch apply_params (rs_policy_profile state) in
  mret (map_policy_decision decision (rs_policy_profile state), None).

Definition handle_tests_preflight (p : TestsPreflightParams)
    : M World (PreflightResult * option RunState) :=
  state ← load_run (tpp_run_id p);
  let run_params :=
    mkTestsRunParams (tpp_run_id p) (tpp_scope p) (tpp_target p) (default "" (tpp_reason p)) in
  let decision := evaluate_test_run run_params (rs_policy_profile state) in
  mret (map_policy_decision decision (rs_policy_profile state), None).

(** ** Approvals *)

Definition handle_approval_resolve (p : ApprovalResolveParams)
    : M World (ApprovalResolveResult * option RunState) :=
  a ← query (get_approval (arp_approval_id p));
  approval ← lift (ok_or a ("unknown approval: " +:+ arp_approval_id p));
  _ ← lift (ensure (pa_run_id approval == arp_run_id p)
        ("approval " +:+ arp_approval_id p +:+ " does not belong to run " +:+ arp_run_id p));
  state ← load_run (arp_run_id p);
  _ ← resolve_approval_now (arp_approval_id p) (arp_decision p) (arp_reason p);
  remaining ← query (get_pending_approvals (arp_run_id p));
  t ← now;
  '(result, state) ← lift (resolve t p state (len remaining));
  _ ← save state;
  _ ← audit (arp_run_id p) "approval_resolved"
        ("Approval " +:+ arp_approval_id p +:+ " resolved: decision=" +:+ arp_decision p) None;
  mret (result, Some state).

(** ** Lifecycle *)

Definition handle_run_finalize (p : RunFinalizeParams)
    : M World (RunFinalizeResult * option RunState) :=
  state ← load_run (rfp_run_id p);
  t ← now;
  '(result, state) ← lift (finalize t p state);
  _ ← save state;
  _ ← audit (rfp_run_id p) "run_finalized"
        ("Run finalized: outcome_kind=" +:+ rfp_outcome_kind p +:+ ", summary=" +:+ rfp_summary p)
        (rfp_reason p);
  mret (result, Some state).

(** A text between double quotes, not escaped. *)
Definition quoted (s : string) : string := quote +:+ s +:+ quote.

Definition handle_run_reopen (p : RunReopenParams)
    : M World (RunReopenResult * option RunState) :=
  state ← load_run (rrop_run_id p);
  t ← now;
  '(result, state) ← lift (reopen t p state);
  _ ← save state;
  _ ← audit (rrop_run_id p) "run_reopened"
        ("Run reopened from '" +:+ rror_reopened_from_outcome_kind result +:+ "': reason=" +:+
         rrop_reason p)
        (Some ("{" +:+ quoted "reopened_from" +:+ ":" +:+
               quoted (rror_reopened_from_outcome_kind result) +:+ "," +:+
               quoted "reopen_count" +:+ ":" +:+ pretty (rror_reopen_count result) +:+ "}"));
  mret (result, Some state).

Definition handle_run_supersede (p : RunSupersedeParams)
    : M World (RunSupersedeResult * option RunState) :=
  original_state ← load_run (rsup_run_id p);
  millis ← now_millis;
  let successor_run_id := make_successor_run_id millis (rsup_run_id p) in
  t ← now;
  '(result, original_state, successor_state) ←
    lift (supersede t p original_state successor_run_id);
  _ ← save original_state;
  _ ← save successor_state;
  _ ← audit (rsup_run_id p) "run_superseded"
        ("Run superseded by '" +:+ successor_run_id +:+ "': reason=" +:+ rsup_reason p)
        (Some ("{" +:+ quoted "superseded_by" +:+ ":" +:+ quoted successor_run_id +:+ "," +:+
               quoted "reason" +:+ ":" +:+ quoted (rsup_reason p) +:+ "}"));
  _ ← audit successor_run_id "run_created_from_supersession"
        ("Successor run created, supersedes '" +:+ rsup_run_id p +:+ "': reason=" +:+
         rsup_reason p)
        (Some ("{" +:+ quoted "supersedes" +:+ ":" +:+ quoted (rsup_run_id p) +:+ "," +:+
               quoted "reason" +:+ ":" +:+ quoted (rsup_reason p) +:+ "}"));
  mret (result, Some successor_state).

Definition handle_run_archive (p : RunArchiveParams)
    : M World (RunArchiveResult * option RunState) :=
  state ← load_run (rarp_run_id p);
  t ← now;
  '(result, state) ← lift (archive t p state);
  _ ← save state;
  _ ← audit (rarp_run_id p) "run_archived" ("Run archived: reason=" +:+ rarp_reason p)
        (Some (json_text [("reason", JString (rarp_reason p))]));
  mret (result, Some state).

Definition handle_run_unarchive (p : RunUnarchiveParams)
    : M World (RunUnarchiveResult * option RunState) :=
  state ← load_run (ruap_run_id p);
  t ← now;
  '(result, state) ← lift (unarchive t p state);
  _ ← save state;
  _ ← audit (ruap_run_id p) "run_unarchived" ("Run unarchived: reason=" +:+ ruap_reason p)
        (Some (json_text [("reason", JString (ruap_reason p))]));
  mret (result, Some state).

(** ** Organization *)

Definition handle_run_annotate (p : RunAnnotateParams)
    : M World (RunAnnotateResult * option RunState) :=
  state ← load_run (ranp_run_id p);
  t ← now;
  '(result, state) ← lift (annotate t p state);
  _ ← save state;
  let labels := an_labels (ranr_annotation result) in
  let note_updated :=
    bool_decide (is_Some (an_operator_note (ranr_annotation result))) ||
    bool_decide (ranp_operator_note p = Some "") in
  _ ← audit (ranp_run_id p) "run_annotated" ("Run annotated: labels=" +:+ to_string labels)
        (Some (json_text [("labels", JStrings labels); ("note_updated", JBool note_updated)]));
  mret (result, Some state).

Definition handle_run_pin (p : RunPinParams) : M World (RunPinResult * option RunState) :=
  state ← load_run (rpip_run_id p);
  t ← now;
  '(result, state) ← lift (pin t p state);
  _ ← save state;
  _ ← audit (rpip_run_id p) "run_pinned" ("Run pinned: " +:+ rpir_reason result)
        (Some (json_text [("reason", JString (rpir_reason result));
                          ("pinned_at", JString (rpir_pinned_at result))]));
  mret (result, Some state).

Definition handle_run_unpin (p : RunUnpinParams) : M World (RunUnpinResult * option RunState) :=
  state ← load_run (rupp_run_id p);
  t ← now;
  '(result, state) ← lift (unpin t p state);
  _ ← save state;
  _ ← audit (rupp_run_id p) "run_unpinned" ("Run unpinned: " +:+ rupp_reason p)
        (Some (json_text [("reason", JString (rupp_reason p))]));
  mret (result, Some state).

Definition handle_run_snooze (p : RunSnoozeParams)
    : M World (RunSnoozeResult * option RunState) :=
  state ← load_run (rsnp_run_id p);
  t ← now;
  '(result, state) ← lift (snooze t p state);
  _ ← save state;
  _ ← audit (rsnp_run_id p) "run_snoozed" ("Run snoozed: " +:+ rsnr_reason result)
        (Some (json_text [("reason", JString (rsnr_reason result));
                          ("snoozed_at", JString (rsnr_snoozed_at result))]));
  mret (result, Some state).

Definition handle_run_unsnooze (p : RunUnsnoozeParams)
    : M World (RunUnsnoozeResult * option RunState) :=
  state ← load_run (rusp_run_id p);
  t ← now;
  '(result, state) ← lift (unsnooze t p state);
  _ ← save state;
  _ ← audit (rusp_run_id p) "run_unsnoozed" ("Run unsnoozed: " +:+ rusp_reason p)
        (Some (json_text [("reason", JString (rusp_reason p))]));
  mret (result, Some state).

Definition handle_run_set_priority (p : RunSetPriorityParams)
    : M World (RunSetPriorityResult * option RunState) :=
  state ← load_run (rspp_run_id p);
  t ← now;
  '(result, state) ← lift (set_priority t p state);
  _ ← save state;
  _ ← audit (rspp_run_id p) "run_priority_set"
        ("Run priority set: " +:+ priority_as_str (rspr_previous_priority result) +:+ " → " +:+
         priority_as_str (rspr_priority result) +:+ " (" +:+ rspr_reason result +:+ ")")
        (Some (json_text
           [("previous_priority", JString (priority_as_str (rspr_previous_priority result)));
            ("priority", JString (priority_as_str (rspr_priority result)));
            ("reason", JString (rspr_reason result)); ("set_at", JString (rspr_set_at result))]));
  mret (result, Some state).

Definition handle_run_assign_owner (p : RunAssignOwnerParams)
    : M World (RunAssignOwnerResult * option RunState) :=
  state ← load_run (raop_run_id p);
  t ← now;
  '(result, state) ← lift (assign_owner t p state);
  _ ← save state;
  _ ← audit (raop_run_id p) "run_owner_assigned" (raor_message result)
        (Some (json_text
           [("previous_assignee", JOption (raor_previous_assignee result));
            ("assignee", JOption (raor_assignee result));
            ("ownership_note_set", JBool (bool_decide (is_Some (raor_ownership_note result))))]));
  mret (result, Some state).

Definition handle_run_set_due_date (p : RunSetDueDateParams)
    : M World (RunSetDueDateResult * option RunState) :=
  state ← load_run (rsddp_run_id p);
  t ← now;
  '(result, state) ← lift (set_due_date t p state);
  _ ← save state;
  _ ← audit (rsddp_run_id p) "run_due_date_set" (rsddr_message result)
        (Some (json_text
           [("previous_due_date", JOption (rsddr_previous_due_date result));
            ("due_date", JOption (rsddr_due_date result));
            ("updated_at", JString (rsddr_updated_at result))]));
  mret (result, Some state).

Definition handle_run_set_dependencies (p : RunSetDependenciesParams)
    : M World (RunSetDependenciesResult * option RunState) :=
  state ← load_run (rsdp_run_id p);
  all_runs ← query (list_runs usize_max None None true false None false true false);
  let known_ids := map sum_run_id all_runs in
  t ← now;
  '(result, state) ← lift (set_dependencies t p state known_ids);
  _ ← save state;
  _ ← audit (rsdp_run_id p) "run_dependencies_set" (rsdr_message result)
        (Some (json_text
           [("previous_blocked_by_run_ids", JStrings (rsdr_previous_blocked_by_run_ids result));
            ("blocked_by_run_ids", JStrings (rsdr_blocked_by_run_ids result));
            ("updated_at", JString (rsdr_updated_at result))]));
  mret (result, Some state).

Definition handle_run_set_effort (p : RunSetEffortParams)
    : M World (RunSetEffortResult * option RunState) :=
  state ← load_run (rsep_run_id p);
  t ← now;
  '(result, state) ← lift (set_effort t p state);
  _ ← save state;
  _ ← audit (rsep_run_id p) "run_effort_set" (rser_message result)
        (Some (json_text
           [("previous_effort", JOption (option_map effort_as_str (rser_previous_effort result)));
            ("effort", JOption (option_map effort_as_str (rser_effort result)));
            ("updated_at", JString (rser_updated_at result))]));
  mret (result, Some state).

(** ** run.command *)

(** The thread that waits sends what it got; on a timeout [kill] is started
    on the child and its outcome ignored. *)
Definition wait_with_timeout (child_id : u32) (timeout : u64) : M os (Output + string) :=
  r ← (λ o, let '(r, o') := wait_child child_id timeout o in (Ok r, o'));
  match r with
  | RecvOutput output => mret (inl output)
  | RecvWaitError e => mret (inr ("wait failed: " +:+ e))
  | RecvTimeout =>
      _ ← syscall (spawn_process "kill" [pretty child_id] None);
      mret (inr "timed out")
  | RecvDisconnected => mret (inr "channel error")
  end.

Definition denied_result (p : CommandRunParams) (reason : string) : CommandRunResult := {|
  crr_run_id := crp_run_id p;
  crr_command := crp_command p;
  crr_stdout := "";
  crr_stderr := "";
  crr_exit_code := (-1)%Z;
  crr_duration_ms := 0;
  crr_allowed := false;
  crr_denial_reason := Some reason
|}.

Definition command_result (p : CommandRunParams) (duration_ms : u64) (r : Output + string)
    : CommandRunResult :=
  match r with
  | inl output =>
      mkCommandRunResult (crp_run_id p) (crp_command p) (from_utf8_lossy (out_stdout output))
        (from_utf8_lossy (out_stderr output)) (default (-1)%Z (out_code output)) duration_ms
        true None
  | inr msg =>
      mkCommandRunResult (crp_run_id p) (crp_command p) "" ("Command failed: " +:+ msg) (-1)%Z
        duration_ms true (Some msg)
  end.

Definition handle_command_run (p : CommandRunParams)
    : M World (CommandRunResult * option RunState) :=
  match validate_command p with
  | Denied reason =>
      _ ← audit (crp_run_id p) "run_command_denied" reason
            (Some (json_text [("command", JString (crp_command p));
                              ("args", JStrings (crp_args p))]));
      mret (denied_result p reason, None)
  | Allowed _ =>
      let timeout_secs := effective_timeout p in
      state ← load_run (crp_run_id p);
      let workspace_root := rs_workspace_id state in
      let workdir :=
        match crp_workdir p with
        | Some sub => path_join workspace_root sub
        | None => workspace_root
        end in
      spawned ← on_os (syscall (spawn_process (crp_command p) (crp_args p) (Some workdir)));
      child ← lift (with_context spawned "failed to spawn command");
      r ← on_os (wait_with_timeout child timeout_secs);
      duration_ms ← elapsed_ms;
      let result := command_result p duration_ms r in
      _ ← audit (crp_run_id p)
            (if crr_allowed result then "run_command_executed" else "run_command_denied")
            (crr_command result) (Some (command_result_text result));
      mret (result, None)
  end.
End handlers.
