(* ===== verification/Queue.v ===== *)
(** * Run listings and the queue overview (deterministic-daemon: handlers.rs,
    the read-only [runs.*] and [run.*] handlers) *)

From S2P Require Import Prelude RustStr Types Lifecycle Derive Os Store Handlers.

(** ** Filters and sorts of a listing *)

(** [if flag.unwrap_or(false) { runs.retain(f) }] and
    [if let Some(x) = opt { runs.retain(f x) }]. *)
Definition retain_if {A} (flag : option bool) (f : A → bool) (l : list A) : list A :=
  if default false flag then List.filter f l else l.

Definition retain_opt {A B} (o : option B) (f : B → A → bool) (l : list A) : list A :=
  match o with Some b => List.filter (f b) l | None => l end.

Definition sort_if {A} (flag : option bool) (le : A → A → bool) (l : list A) : list A :=
  if default false flag then sort_by le l else l.

(** Urgent first. *)
Definition by_priority (a b : RunSummary) : bool :=
  (priority_sort_key (sum_priority b) <=? priority_sort_key (sum_priority a))%Z.

(** Soonest first, no due date last. *)
Definition by_due_date (a b : RunSummary) : bool :=
  match sum_due_date a, sum_due_date b with
  | Some da, Some db => str_le da db
  | Some _, None => true
  | None, Some _ => false
  | None, None => true
  end.

(** Small first, no estimate last. *)
Definition by_effort (a b : RunSummary) : bool :=
  match sum_effort a, sum_effort b with
  | Some ea, Some eb => (effort_sort_key ea <=? effort_sort_key eb)%Z
  | Some _, None => true
  | None, Some _ => false
  | None, None => true
  end.

Definition triage_rank (r : RunSummary) : i64 :=
  match sum_triage_bucket r with Some b => triage_sort_key b | None => 999 end.

(** Ascending rank. *)
Definition by_triage (a b : RunSummary) : bool := (triage_rank a <=? triage_rank b)%Z.

(** [b.age_days.cmp(&a.age_days)] on options: [None] is the least. *)
Definition by_staleness (a b : RunSummary) : bool :=
  match sum_age_days b, sum_age_days a with
  | None, _ => true
  | Some _, None => false
  | Some y, Some x => (y <=? x)%N
  end.

Definition opt_true (o : option bool) : bool := default false o.

(** The blocker fields of a summary. *)
Definition add_blocking (blockers : gmap string N) (r : RunSummary) : RunSummary :=
  let count := default 0%N (blockers !! sum_run_id r) in
  let r := set_sum_is_blocking (Some (0 <? count)%N) r in
  let r := set_sum_blocking_run_count (Some count) r in
  set_sum_blocking_reason
    (if (0 <? count)%N then Some ("blocking " +:+ pretty count +:+ " run(s)") else None) r.

(** [as u32]. *)
Definition as_u32 (n : usize) : u32 := (n mod (u32_max + 1))%N.

Definition add_staleness `{Chrono} (reference_date : string) (r : RunSummary) : RunSummary :=
  let st := derive_staleness (sum_updated_at r) reference_date in
  let r := set_sum_age_days (Some (as_u32 (age_days st))) r in
  let r := set_sum_is_stale (Some (is_stale st)) r in
  let r := set_sum_staleness_reason (Some (staleness_reason st)) r in
  set_sum_staleness_bucket (Some (staleness_bucket st)) r.

Definition add_triage `{Chrono} (reference_date : string) (r : RunSummary) : RunSummary :=
  let tr := derive_triage (sum_status r) (opt_true (sum_is_archived r))
              (opt_true (sum_is_snoozed r)) (opt_true (sum_is_blocked r))
              (priority_as_str (sum_priority r)) (sum_due_date r) (sum_staleness_bucket r)
              reference_date in
  let r := set_sum_triage_bucket (Some (triage_bucket tr)) r in
  set_sum_triage_reason (Some (triage_reason tr)) r.

(** Everything the handler does to the rows of the store, in order. [blockers_of]
    looks a run up by id, as the code does per candidate. *)
Definition runs_list_pipeline `{Chrono} (p : RunsListParams)
    (blockers_of : string → option (list string)) (blockers : gmap string N)
    (reference_date : string) (runs : list RunSummary) : list RunSummary :=
  let runs := retain_opt (rlp_priority_filter p) (λ pf r, bool_decide (sum_priority r = pf)) runs in
  let runs := sort_if (rlp_sort_by_priority p) by_priority runs in
  let runs := retain_opt (rlp_assignee p) (λ a r, bool_decide (sum_assignee r = Some a)) runs in
  let runs := retain_opt (rlp_due_on_or_before p)
    (λ threshold r, match sum_due_date r with Some d => str_le d threshold | None => false end) runs in
  let runs := sort_if (rlp_sort_by_due_date p) by_due_date runs in
  let runs := retain_if (rlp_blocked_only p) (λ r, opt_true (sum_is_blocked r)) runs in
  let runs := retain_opt (rlp_blocked_by_run_id p)
    (λ blocker r, opt_true (sum_is_blocked r) &&
       match blockers_of (sum_run_id r) with
       | Some ids => contains_elem ids blocker
       | None => false
       end) runs in
  let runs := map (add_blocking blockers) runs in
  let runs := retain_if (rlp_blocking_only p) (λ r, opt_true (sum_is_blocking r)) runs in
  let runs := retain_opt (rlp_blocking_run_count_at_least p)
    (λ min r, (min <=? default 0 (sum_blocking_run_count r))%N) runs in
  let runs := retain_opt (rlp_effort_filter p) (λ e r, bool_decide (sum_effort r = Some e)) runs in
  let runs := sort_if (rlp_sort_by_effort p) by_effort runs in
  let runs := map (add_staleness reference_date) runs in
  let runs := map (add_triage reference_date) runs in
  let runs := retain_opt (rlp_triage_bucket_filter p)
    (λ b r, bool_decide (sum_triage_bucket r = Some b)) runs in
  let runs := retain_if (rlp_stale_only p) (λ r, opt_true (sum_is_stale r)) runs in
  let runs := retain_if (rlp_fresh_only p) (λ r, negb (default true (sum_is_stale r))) runs in
  let runs := sort_if (rlp_sort_by_triage p) by_triage runs in
  sort_if (rlp_sort_by_staleness p) by_staleness runs.

(** ** The queue overview *)

(** The counters of the loop. *)
Record Counts := mkCounts {
  ct_total : usize;
  ct_ready : usize;
  ct_blocked : usize;
  ct_attention : usize;
  ct_pinned : usize;
  ct_snoozed : usize;
  ct_overdue : usize;
  ct_priority : gmap string N;
  ct_assignee : gmap string N;
  ct_status : gmap string N
}.

Definition counts_zero : Counts := mkCounts 0 0 0 0 0 0 0 ∅ ∅ ∅.

Definition add_if (b : bool) (n : usize) : usize := if b then (n + 1)%N else n.

Definition status_prefix (status : string) : string :=
  if starts_with status "finalized:" then "finalized"
  else if starts_with status "awaiting_approval:" then "awaiting_approval"
  else if starts_with status "pending:" then "pending"
  else status.

Definition run_overdue (today : option string) (r : RunSummary) : bool :=
  match today, sum_due_date r with
  | Some t, Some due => str_lt due t
  | _, _ => false
  end.

Definition summary_readiness (today : option string) (r : RunSummary) : RunReadinessSummary :=
  derive_readiness (sum_status r) (opt_true (sum_is_archived r)) (opt_true (sum_is_snoozed r))
    (default 0%N (sum_blocked_by_count r)) (sum_priority r) (sum_due_date r)
    (opt_true (sum_is_pinned r)) today.

(** One round of the loop. *)
Definition overview_step (include_snoozed : bool) (today : option string) (c : Counts)
    (r : RunSummary) : Counts :=
  let is_snoozed := opt_true (sum_is_snoozed r) in
  let is_pinned := opt_true (sum_is_pinned r) in
  let blocked_by_count := default 0%N (sum_blocked_by_count r) in
  if is_snoozed && negb include_snoozed then c
  else
    let readiness := summary_readiness today r in
    {| ct_total := (ct_total c + 1)%N;
       ct_ready := add_if (is_ready readiness) (ct_ready c);
       ct_blocked := add_if (0 <? blocked_by_count)%N (ct_blocked c);
       ct_attention := add_if (needs_attention readiness) (ct_attention c);
       ct_pinned := add_if is_pinned (ct_pinned c);
       ct_snoozed := add_if is_snoozed (ct_snoozed c);
       ct_overdue := add_if (run_overdue today r) (ct_overdue c);
       ct_priority := count_id (ct_priority c) (priority_as_str (sum_priority r));
       ct_assignee := count_id (ct_assignee c) (default "unassigned" (sum_assignee r));
       ct_status := count_id (ct_status c) (status_prefix (sum_status r)) |}.

Definition overview_of (include_archived include_snoozed : bool) (today : option string)
    (runs : list RunSummary) : RunQueueOverview :=
  let c := foldl (overview_step include_snoozed today) counts_zero runs in
  let priority name := default 0%N (ct_priority c !! name) in
  {| rqo_total_visible := ct_total c;
     rqo_ready_count := ct_ready c;
     rqo_blocked_count := ct_blocked c;
     rqo_needs_attention_count := ct_attention c;
     rqo_pinned_count := ct_pinned c;
     rqo_snoozed_count := ct_snoozed c;
     rqo_overdue_count := if bool_decide (is_Some today) then Some (ct_overdue c) else None;
     rqo_archived_count := if include_archived then Some 0%N else None;
     rqo_by_priority :=
       mkPriorityCounts (priority "low") (priority "normal") (priority "high") (priority "urgent");
     rqo_by_assignee := ct_assignee c;
     rqo_by_status := ct_status c |}.

(** ** Handlers *)

Section queue.
Context `{Unicode} `{Chrono} `{Os} `{Env} `{Serde} `{Sqlite}.

Definition handle_runs_list (p : RunsListParams) : M World (RunsListResult * option RunState) :=
  let limit := N.min (default 20%N (rlp_limit p)) 100 in
  let label_filter := option_map (λ l, to_lowercase (trim l)) (rlp_label p) in
  runs ← query (list_runs limit (rlp_workspace_id p) (rlp_status p)
                 (opt_true (rlp_include_archived p)) (opt_true (rlp_archived_only p))
                 label_filter (opt_true (rlp_pinned_only p)) (opt_true (rlp_include_snoozed p))
                 (opt_true (rlp_snoozed_only p)));
  blockers_of ← gets (λ w, λ id,
    option_map rs_blocked_by_run_ids (default None (res_ok (get_run id (w_db w)))));
  blockers ← gets (λ w, get_blocker_impact_map (w_db w));
  reference_date ← today;
  let runs := runs_list_pipeline p blockers_of blockers reference_date runs in
  mret (mkRunsListResult runs (len runs), None).

Definition run_get_result (reference_date : string) (blocking_count : usize)
    (pending_approvals : list PendingApproval) (state : RunState) : RunGetResult :=
  let st := derive_staleness (rs_updated_at state) reference_date in
  let tr := derive_triage (rs_status state)
              (bool_decide (is_Some (rs_archive_metadata state)))
              (bool_decide (is_Some (rs_snooze_metadata state)))
              (negb (bool_decide (rs_blocked_by_run_ids state = [])))
              (priority_as_str (rs_priority state)) (rs_due_date state)
              (Some (staleness_bucket st)) reference_date in
  {| rgr_run_state := state;
     rgr_pending_approvals := pending_approvals;
     rgr_retryable_action := rs_retryable_action state;
     rgr_latest_diff_summary := rs_latest_diff_summary state;
     rgr_latest_test_result := rs_latest_test_result state;
     rgr_recommended_next_action := rs_recommended_next_action state;
     rgr_recommended_tool := rs_recommended_tool state;
     rgr_warnings := rs_warnings state;
     rgr_effective_policy := rs_policy_profile state;
     rgr_finalized_outcome := rs_finalized_outcome state;
     rgr_reopen_metadata := rs_reopen_metadata state;
     rgr_supersedes_run_id := rs_supersedes_run_id state;
     rgr_superseded_by_run_id := rs_superseded_by_run_id state;
     rgr_supersession_reason := rs_supersession_reason state;
     rgr_superseded_at := rs_superseded_at state;
     rgr_archive_metadata := rs_archive_metadata state;
     rgr_unarchive_metadata := rs_unarchive_metadata state;
     rgr_annotation := rs_annotation state;
     rgr_pin_metadata := rs_pin_metadata state;
     rgr_priority := rs_priority state;
     rgr_due_date := rs_due_date state;
     rgr_blocked_by_run_ids := rs_blocked_by_run_ids state;
     rgr_is_blocking := Some (0 <? blocking_count)%N;
     rgr_blocking_run_count := Some blocking_count;
     rgr_blocking_reason :=
       if (0 <? blocking_count)%N
       then Some ("blocking " +:+ pretty blocking_count +:+ " run(s)") else None;
     rgr_effort := rs_effort state;
     rgr_triage_bucket := Some (triage_bucket tr);
     rgr_triage_reason := Some (triage_reason tr) |}.

Definition handle_run_get (p : RunGetParams) : M World (RunGetResult * option RunState) :=
  state ← load_run (rgp_run_id p);
  pending_approvals ← query (get_pending_approvals (rgp_run_id p));
  blockers ← gets (λ w, get_blocker_impact_map (w_db w));
  let blocking_count := default 0%N (blockers !! rgp_run_id p) in
  reference_date ← today;
  mret (run_get_result reference_date blocking_count pending_approvals state, Some state).

Definition handle_run_history (p : RunHistoryParams)
    : M World (RunHistoryResult * option RunState) :=
  _ ← load_run (rhp_run_id p);
  let limit := N.min (default 50%N (rhp_limit p)) 200 in
  entries ← query (get_audit_entries (rhp_run_id p) limit);
  mret (mkRunHistoryResult (rhp_run_id p) entries (len entries), None).

Definition handle_runs_queue_overview (p : RunsQueueOverviewParams)
    : M World (RunQueueOverview * option RunState) :=
  let include_archived := opt_true (rqop_include_archived p) in
  let include_snoozed := opt_true (rqop_include_snoozed p) in
  all_runs ← query (list_runs 10000 (rqop_workspace_id p) None include_archived false None
                     false include_snoozed false);
  mret (overview_of include_archived include_snoozed (rqop_today p) all_runs, None).
End queue.
