(* ===== verification/QueueFacts.v ===== *)
(** * What a listing and the overview report

    The pipeline of [runs.list] against a declarative selection and order,
    the counters of [runs.queue_overview] as cardinalities, and how the triage
    of [run.get] relates to that of [runs.list]. *)

From S2P Require Import Prelude RustStr Types Lifecycle Organize Dates Derive Os Store.
From S2P Require Import DemoSerde StoreFacts Queue.

(** ** Filters and permutations *)

#[export] Instance filter_Proper {A} (f : A → bool) : Proper ((≡ₚ) ==> (≡ₚ)) (List.filter f).
Proof. intros l k. apply filter_perm. Qed.

Lemma filter_and {A} (f g : A → bool) l :
  List.filter f (List.filter g l) = List.filter (λ x, g x && f x) l.
Proof.
  induction l as [|x l IH]; cbn; [done|]. destruct (g x); cbn; [|done].
  destruct (f x); [by f_equal|done].
Qed.

(** A filter moves behind a map that keeps what it looks at. *)
Lemma map_filter_same {A} (g : A → A) (f : A → bool) l :
  (∀ x, f (g x) = f x) → map g (List.filter f l) = List.filter f (map g l).
Proof.
  intros Hf. induction l as [|x l IH]; cbn; [done|]. rewrite Hf.
  destruct (f x); cbn; [by f_equal|done].
Qed.

(** [retain] as a filter. *)
Definition flag_test {A} (flag : option bool) (f : A → bool) (x : A) : bool :=
  negb (default false flag) || f x.
Definition opt_test {A B} (o : option B) (f : B → A → bool) (x : A) : bool :=
  match o with Some b => f b x | None => true end.

Lemma filter_true {A} (l : list A) : List.filter (λ _, true) l = l.
Proof. induction l as [|x l IH]; cbn; congruence. Qed.

Lemma retain_if_filter {A} flag (f : A → bool) l :
  retain_if flag f l = List.filter (flag_test flag f) l.
Proof. unfold retain_if, flag_test. destruct (default false flag); cbn; [done|by rewrite filter_true]. Qed.

Lemma retain_opt_filter {A B} (o : option B) (f : B → A → bool) l :
  retain_opt o f l = List.filter (opt_test o f) l.
Proof. destruct o; cbn; [done|]. unfold opt_test. by rewrite filter_true. Qed.

Lemma sort_if_perm {A} flag (le : A → A → bool) l : sort_if flag le l ≡ₚ l.
Proof. unfold sort_if. destruct (default false flag); [apply sort_by_perm|done]. Qed.

(** ** What a listing selects *)

Definition enrich `{Chrono} (blockers : gmap string N) (ref : string) (r : RunSummary) : RunSummary :=
  add_triage ref (add_staleness ref (add_blocking blockers r)).

(** Every filter of the request, on the reported summary. *)
Definition selected (p : RunsListParams) (blockers_of : string → option (list string))
    (e : RunSummary) : bool :=
  opt_test (rlp_priority_filter p) (λ pf r, bool_decide (sum_priority r = pf)) e &&
  opt_test (rlp_assignee p) (λ a r, bool_decide (sum_assignee r = Some a)) e &&
  opt_test (rlp_due_on_or_before p)
    (λ t r, match sum_due_date r with Some d => str_le d t | None => false end) e &&
  flag_test (rlp_blocked_only p) (λ r, opt_true (sum_is_blocked r)) e &&
  opt_test (rlp_blocked_by_run_id p)
    (λ b r, opt_true (sum_is_blocked r) &&
       match blockers_of (sum_run_id r) with Some ids => contains_elem ids b | None => false end) e &&
  flag_test (rlp_blocking_only p) (λ r, opt_true (sum_is_blocking r)) e &&
  opt_test (rlp_blocking_run_count_at_least p)
    (λ m r, (m <=? default 0 (sum_blocking_run_count r))%N) e &&
  opt_test (rlp_effort_filter p) (λ x r, bool_decide (sum_effort r = Some x)) e &&
  opt_test (rlp_triage_bucket_filter p) (λ b r, bool_decide (sum_triage_bucket r = Some b)) e &&
  flag_test (rlp_stale_only p) (λ r, opt_true (sum_is_stale r)) e &&
  flag_test (rlp_fresh_only p) (λ r, negb (default true (sum_is_stale r))) e.

(** ** Orders of a listing *)

(** A map that keeps the key of an order keeps a list sorted by it. *)
Lemma StronglySorted_map_key {A} (le : A → A → bool) (g : A → A) l :
  (∀ x y, le (g x) (g y) = le x y) →
  StronglySorted (λ a b, le a b) l → StronglySorted (λ a b, le a b) (map g l).
Proof.
  intros Hg. induction 1 as [|x l _ IH Hx]; cbn; constructor; [done|].
  rewrite Forall_forall in Hx |- *. intros y (z & -> & Hz)%list_elem_of_fmap.
  rewrite Hg. by apply Hx.
Qed.

Definition total_order {A} (le : A → A → bool) : Prop :=
  (∀ x y z, le x y → le y z → le x z) ∧ ∀ x y, le x y ∨ le y x.

Lemma by_priority_order : total_order by_priority.
Proof. split; unfold by_priority; intros; rewrite ?Is_true_true, ?Z.leb_le in *; lia. Qed.

Lemma by_triage_order : total_order by_triage.
Proof. split; unfold by_triage; intros; rewrite ?Is_true_true, ?Z.leb_le in *; lia. Qed.

Lemma by_due_date_order : total_order by_due_date.
Proof.
  split; unfold by_due_date.
  - intros x y z. destruct (sum_due_date x), (sum_due_date y), (sum_due_date z); try done.
    apply str_le_trans.
  - intros x y. destruct (sum_due_date x), (sum_due_date y); cbn; auto. apply str_le_total.
Qed.

Lemma by_effort_order : total_order by_effort.
Proof.
  split; unfold by_effort.
  - intros x y z. destruct (sum_effort x), (sum_effort y), (sum_effort z); try done.
    rewrite !Is_true_true, !Z.leb_le. lia.
  - intros x y. destruct (sum_effort x), (sum_effort y); cbn; auto.
    rewrite !Is_true_true, !Z.leb_le. lia.
Qed.

Lemma by_staleness_order : total_order by_staleness.
Proof.
  split; unfold by_staleness.
  - intros x y z. destruct (sum_age_days x), (sum_age_days y), (sum_age_days z); try done.
    rewrite !Is_true_true, !N.leb_le. lia.
  - intros x y. destruct (sum_age_days x), (sum_age_days y); cbn; auto.
    rewrite !Is_true_true, !N.leb_le. lia.
Qed.

(** Move the filters behind the enrichments and make them one. *)
Ltac merge_filters blockers ref :=
  rewrite !filter_and, (map_filter_same (add_blocking blockers)) by done;
  rewrite !filter_and, (map_filter_same (add_staleness ref)) by done;
  rewrite (map_filter_same (add_triage ref)) by done;
  rewrite !filter_and, !map_map; erewrite filter_ext; [reflexivity|];
  intros e; unfold selected; by rewrite !andb_assoc.

Section listing.
Context `{Chrono}.

Lemma pipeline_perm p blockers_of blockers ref runs :
  runs_list_pipeline p blockers_of blockers ref runs ≡ₚ
  List.filter (selected p blockers_of) (map (enrich blockers ref) runs).
Proof.
  unfold runs_list_pipeline. cbv zeta. rewrite !retain_if_filter, !retain_opt_filter, !sort_if_perm.
  merge_filters blockers ref.
Qed.

(** The order of a listing is that of the last sort requested. *)
Definition listing_order (p : RunsListParams) : option (RunSummary → RunSummary → bool) :=
  if default false (rlp_sort_by_staleness p) then Some by_staleness
  else if default false (rlp_sort_by_triage p) then Some by_triage
  else if default false (rlp_sort_by_effort p) then Some by_effort
  else if default false (rlp_sort_by_due_date p) then Some by_due_date
  else if default false (rlp_sort_by_priority p) then Some by_priority
  else None.

Lemma pipeline_order p blockers_of blockers ref runs :
  let out := runs_list_pipeline p blockers_of blockers ref runs in
  match listing_order p with
  | Some le => StronglySorted (λ a b, le a b) out
  | None => out = List.filter (selected p blockers_of) (map (enrich blockers ref) runs)
  end.
Proof.
  unfold runs_list_pipeline, listing_order, sort_if. cbv zeta.
  rewrite !retain_if_filter, !retain_opt_filter.
  destruct (default false (rlp_sort_by_staleness p));
    [apply sort_by_sorted; [apply by_staleness_order..]|].
  destruct (default false (rlp_sort_by_triage p));
    [apply sort_by_sorted; [apply by_triage_order..]|].
  destruct (default false (rlp_sort_by_effort p)).
  { do 3 apply StronglySorted_filter.
    apply StronglySorted_map_key; [done|]. apply StronglySorted_map_key; [done|].
    apply sort_by_sorted; apply by_effort_order. }
  destruct (default false (rlp_sort_by_due_date p)).
  { do 3 apply StronglySorted_filter.
    do 2 (apply StronglySorted_map_key; [done|]). do 3 apply StronglySorted_filter.
    apply StronglySorted_map_key; [done|]. do 2 apply StronglySorted_filter.
    apply sort_by_sorted; apply by_due_date_order. }
  destruct (default false (rlp_sort_by_priority p)).
  { do 3 apply StronglySorted_filter.
    do 2 (apply StronglySorted_map_key; [done|]). do 3 apply StronglySorted_filter.
    apply StronglySorted_map_key; [done|]. do 4 apply StronglySorted_filter.
    apply sort_by_sorted; apply by_priority_order. }
  merge_filters blockers ref.
Qed.

(** A listing reports exactly the rows that pass every filter of the
    request, each once, with its blocking, staleness and triage fields filled
    in: the interleaved filters, enrichments and sorts of the handler amount
    to one selection on the enriched rows, in the order of the last sort
    requested, or of the store when none is. *)
Theorem runs_list_selects p blockers_of blockers ref runs :
  let out := runs_list_pipeline p blockers_of blockers ref runs in
  out ≡ₚ List.filter (selected p blockers_of) (map (enrich blockers ref) runs) ∧
  match listing_order p with
  | Some le => StronglySorted (λ a b, le a b) out
  | None => out = List.filter (selected p blockers_of) (map (enrich blockers ref) runs)
  end.
Proof. split; [apply pipeline_perm|apply pipeline_order]. Qed.

Lemma pipeline_bucket p blockers_of blockers ref runs e :
  e ∈ runs_list_pipeline p blockers_of blockers ref runs → is_Some (sum_triage_bucket e).
Proof.
  rewrite pipeline_perm, list_elem_of_In, filter_In, <- list_elem_of_In.
  intros [(r & -> & _)%list_elem_of_fmap _]. by eexists.
Qed.

(** Sorting by triage puts the critical runs last: in a listing sorted
    by triage, every run after a critical one is critical. *)
Theorem triage_sort_critical_last p blockers_of blockers ref runs l1 a l2 b :
  listing_order p = Some by_triage →
  runs_list_pipeline p blockers_of blockers ref runs = l1 ++ a :: l2 →
  sum_triage_bucket a = Some Critical → b ∈ l2 → sum_triage_bucket b = Some Critical.
Proof.
  intros Ho Hout Ha Hb. pose proof (pipeline_order p blockers_of blockers ref runs) as Hs.
  cbn zeta in Hs. rewrite Ho, Hout in Hs. apply StronglySorted_app in Hs as (_ & _ & Hs).
  apply StronglySorted_inv in Hs as [_ Hs]. rewrite Forall_forall in Hs. specialize (Hs b Hb).
  destruct (pipeline_bucket p blockers_of blockers ref runs b) as [tb Htb].
  { rewrite Hout. set_solver. }
  unfold by_triage, triage_rank in Hs. rewrite Ha, Htb in *. destruct tb; done.
Qed.
End listing.

(** ** The overview *)

Definition shown (include_snoozed : bool) (r : RunSummary) : bool :=
  negb (opt_true (sum_is_snoozed r)) || include_snoozed.

Definition count {A} (f : A → bool) (l : list A) : N := len (List.filter f l).

Lemma count_snoc {A} (f : A → bool) l x : count f (l ++ [x]) = add_if (f x) (count f l).
Proof.
  unfold count, len, add_if. rewrite List.filter_app, length_app. cbn. destruct (f x); cbn; lia.
Qed.

(** The counters after the loop, each as the number of shown runs it is for. *)
Lemma overview_fold inc today runs :
  let vis := List.filter (shown inc) runs in
  foldl (overview_step inc today) counts_zero runs =
  {| ct_total := len vis;
     ct_ready := count (λ r, is_ready (summary_readiness today r)) vis;
     ct_blocked := count (λ r, 0 <? default 0%N (sum_blocked_by_count r))%N vis;
     ct_attention := count (λ r, needs_attention (summary_readiness today r)) vis;
     ct_pinned := count (λ r, opt_true (sum_is_pinned r)) vis;
     ct_snoozed := count (λ r, opt_true (sum_is_snoozed r)) vis;
     ct_overdue := count (run_overdue today) vis;
     ct_priority := foldl count_id ∅ (map (λ r, priority_as_str (sum_priority r)) vis);
     ct_assignee := foldl count_id ∅ (map (λ r, default "unassigned" (sum_assignee r)) vis);
     ct_status := foldl count_id ∅ (map (λ r, status_prefix (sum_status r)) vis) |}.
Proof.
  cbn zeta. induction runs as [|r runs IH] using rev_ind; [done|].
  rewrite foldl_app, List.filter_app, IH. cbn. unfold overview_step at 1.
  assert (shown inc r = negb (opt_true (sum_is_snoozed r) && negb inc)) as ->.
  { unfold shown. by destruct (opt_true _), inc. }
  destruct (opt_true (sum_is_snoozed r) && negb inc) eqn:E; cbn; [by rewrite app_nil_r|].
  rewrite !map_app, !foldl_app, !count_snoc. unfold len. rewrite length_app. cbn.
  f_equal. lia.
Qed.

Lemma count_names (f : RunSummary → string) l name :
  default 0%N (foldl count_id ∅ (map f l) !! name) = count (λ r, f r == name) l.
Proof.
  rewrite count_id_lookup, lookup_empty. cbn. unfold count, len. f_equal.
  induction l as [|r l IH]; cbn; [done|]. destruct (f r == name); cbn; lia.
Qed.

Lemma count_priorities l :
  (count (λ r, priority_as_str (sum_priority r) == "low") l +
   count (λ r, priority_as_str (sum_priority r) == "normal") l +
   count (λ r, priority_as_str (sum_priority r) == "high") l +
   count (λ r, priority_as_str (sum_priority r) == "urgent") l = len l)%N.
Proof.
  induction l as [|r l IH] using rev_ind; [done|]. rewrite !count_snoc.
  unfold len in *. rewrite length_app. cbn [length]. destruct (sum_priority r); cbn; lia.
Qed.

Lemma count_snoozed inc runs :
  count (λ r, opt_true (sum_is_snoozed r)) (List.filter (shown inc) runs) =
  if inc then count (λ r, opt_true (sum_is_snoozed r)) runs else 0%N.
Proof.
  unfold count, shown. rewrite filter_and. destruct inc.
  - f_equal. apply filter_ext. intros r. by rewrite orb_true_r.
  - induction runs as [|r runs IH]; cbn; [done|]. by destruct (opt_true (sum_is_snoozed r)).
Qed.

(** The overview counts the runs of the listing that are shown (all but
    the snoozed ones, unless those are asked for): each counter is the number
    of shown runs with the property it is named for, by the same readiness as
    a listing; the four priorities add up to the total; the maps give for each
    assignee and each status the number of shown runs that have it; and the
    archived count, when asked for, is always 0. *)
Theorem overview_counts inc_arch inc_sn today runs :
  let vis := List.filter (shown inc_sn) runs in
  let o := overview_of inc_arch inc_sn today runs in
  rqo_total_visible o = len vis ∧
  rqo_ready_count o = count (λ r, is_ready (summary_readiness today r)) vis ∧
  rqo_blocked_count o = count (λ r, 0 <? default 0%N (sum_blocked_by_count r))%N vis ∧
  rqo_needs_attention_count o = count (λ r, needs_attention (summary_readiness today r)) vis ∧
  rqo_pinned_count o = count (λ r, opt_true (sum_is_pinned r)) vis ∧
  rqo_snoozed_count o = (if inc_sn then count (λ r, opt_true (sum_is_snoozed r)) runs else 0%N) ∧
  (rqo_overdue_count o = match today with
   | Some t => Some (count (run_overdue (Some t)) vis) | None => None end) ∧
  (pc_low (rqo_by_priority o) + pc_normal (rqo_by_priority o) + pc_high (rqo_by_priority o) +
   pc_urgent (rqo_by_priority o) = rqo_total_visible o)%N ∧
  (∀ name, default 0%N (rqo_by_assignee o !! name) =
     count (λ r, default "unassigned" (sum_assignee r) == name) vis) ∧
  (∀ name, default 0%N (rqo_by_status o !! name) =
     count (λ r, status_prefix (sum_status r) == name) vis) ∧
  rqo_archived_count o = (if inc_arch then Some 0%N else None).
Proof.
  intros vis o. subst o. unfold overview_of. rewrite overview_fold. fold vis. cbn.
  split_and!; try done; try (intros name; apply count_names).
  - subst vis. apply count_snoozed.
  - destruct today; [|done]. by rewrite bool_decide_eq_true_2.
  - rewrite !count_names. apply count_priorities.
Qed.

(** ** Triage of a single run and of a listing *)

(** The triage of [run.get] is that of [runs.list] for a run that was
    never restored from the archive.  For one that was, [run.get] reports it as
    done whatever its status, and the listing does so only when it is
    finalized. *)
Theorem run_get_list_triage `{Chrono} ref n pending blockers s :
  let g := run_get_result ref n pending s in
  let e := enrich blockers ref (state_summary s) in
  (¬ (is_Some (rs_archive_metadata s) ∧ is_Some (rs_unarchive_metadata s)) →
     rgr_triage_bucket g = sum_triage_bucket e ∧ rgr_triage_reason g = sum_triage_reason e) ∧
  (is_Some (rs_archive_metadata s) → is_Some (rs_unarchive_metadata s) →
     rgr_triage_bucket g = Some Done ∧
     (sum_triage_bucket e = Some Done ↔ starts_with (rs_status s) "finalized:" = true)).
Proof.
  intros g e. subst g e. unfold run_get_result, enrich, add_triage, state_summary. cbn -[derive_triage].
  destruct (rs_archive_metadata s) as [a|], (rs_unarchive_metadata s) as [u|],
    (rs_snooze_metadata s) as [z|]; split; intros Ha; try done; try (by destruct Ha).
  all: try (by intros []).
  all: intros _; split; [done|]; unfold derive_triage; cbn; split; [|by intros ->];
    destruct (starts_with _ _); [done|]; cbn; by repeat case_match.
Qed.

