(* ===== verification/Router.v ===== *)
(** * Dispatch and router (deterministic-daemon: handlers.rs [dispatch],
    router.rs)

    A request names a method; its parameters are converted from JSON to the
    type of the method, the handler runs, and its result is converted back
    and wrapped.  The conversions are serde_json's and a parameter, [Wire]. *)

From S2P Require Import Prelude RustStr Types Lifecycle Derive Os Store DemoSerde Methods.
From S2P Require Import QueueViews Handlers Queue.

(** ** Types of a method *)

Definition params_of (m : Method) : Type :=
  match m with
  | RunPrepare => RunPrepareParams
  | RunRefresh => RunRefreshParams
  | RunReplan => RunReplanParams
  | WorkspaceSummary => WorkspaceSummaryParams
  | FileRead => FileReadParams
  | GitStatus => GitStatusParams
  | CodeSearch => CodeSearchParams
  | PatchApply => PatchApplyParams
  | TestsRun => TestsRunParams
  | GitDiff => GitDiffParams
  | ApprovalResolve => ApprovalResolveParams
  | RunsList => RunsListParams
  | RunGet => RunGetParams
  | RunHistory => RunHistoryParams
  | PatchPreflight => PatchPreflightParams
  | TestsPreflight => TestsPreflightParams
  | RunFinalize => RunFinalizeParams
  | RunReopen => RunReopenParams
  | RunSupersede => RunSupersedeParams
  | RunArchive => RunArchiveParams
  | RunUnarchive => RunUnarchiveParams
  | RunAnnotate => RunAnnotateParams
  | RunPin => RunPinParams
  | RunUnpin => RunUnpinParams
  | RunSnooze => RunSnoozeParams
  | RunUnsnooze => RunUnsnoozeParams
  | RunSetPriority => RunSetPriorityParams
  | RunAssignOwner => RunAssignOwnerParams
  | RunSetDueDate => RunSetDueDateParams
  | RunSetDependencies => RunSetDependenciesParams
  | RunsQueueOverview => RunsQueueOverviewParams
  | RunSetEffort => RunSetEffortParams
  | CommandRun => CommandRunParams
  | QueueViewCreate => CreateQueueViewParams
  | QueueViewUpdate => UpdateQueueViewParams
  | QueueViewDelete => DeleteQueueViewParams
  | QueueViewGet => GetQueueViewParams
  | QueueViewList => ListQueueViewsParams
  end.

Definition result_of (m : Method) : Type :=
  match m with
  | RunPrepare => RunPrepareResult
  | RunRefresh => RunRefreshResult
  | RunReplan => RunReplanResult
  | WorkspaceSummary => WorkspaceSummaryResult
  | FileRead => FileReadResult
  | GitStatus => GitStatusResult
  | CodeSearch => CodeSearchResult
  | PatchApply => PatchApplyResult
  | TestsRun => TestsRunResult
  | GitDiff => GitDiffResult
  | ApprovalResolve => ApprovalResolveResult
  | RunsList => RunsListResult
  | RunGet => RunGetResult
  | RunHistory => RunHistoryResult
  | PatchPreflight | TestsPreflight => PreflightResult
  | RunFinalize => RunFinalizeResult
  | RunReopen => RunReopenResult
  | RunSupersede => RunSupersedeResult
  | RunArchive => RunArchiveResult
  | RunUnarchive => RunUnarchiveResult
  | RunAnnotate => RunAnnotateResult
  | RunPin => RunPinResult
  | RunUnpin => RunUnpinResult
  | RunSnooze => RunSnoozeResult
  | RunUnsnooze => RunUnsnoozeResult
  | RunSetPriority => RunSetPriorityResult
  | RunAssignOwner => RunAssignOwnerResult
  | RunSetDueDate => RunSetDueDateResult
  | RunSetDependencies => RunSetDependenciesResult
  | RunsQueueOverview => RunQueueOverview
  | RunSetEffort => RunSetEffortResult
  | CommandRun => CommandRunResult
  | QueueViewCreate => CreateQueueViewResult
  | QueueViewUpdate => UpdateQueueViewResult
  | QueueViewDelete => DeleteQueueViewResult
  | QueueViewGet => QueueView
  | QueueViewList => ListQueueViewsResult
  end.

(** ** Envelopes *)

Class Wire := {
  Json : Type;
  from_value : ∀ m, Json → params_of m + string;
  to_value : ∀ m, result_of m → Json
}.

Record JsonRpcRequest `{Wire} := mkJsonRpcRequest {
  req_jsonrpc : string;
  req_id : Json;
  req_method : string;
  req_params : Json
}.

Record JsonRpcError `{Wire} := mkJsonRpcError {
  err_code : i64;
  err_message : string;
  err_data : option Json
}.

Record ResponseEnvelope `{Wire} := mkResponseEnvelope {
  env_ok : bool;
  env_result : Json;
  env_run_state : option RunState;
  env_warnings : list string;
  env_audit_id : string
}.

(** A response; [Json] for a value that came through [serde_json::to_value]
    is the envelope it was made from. *)
Record JsonRpcResponse `{Wire} := mkJsonRpcResponse {
  resp_jsonrpc : string;
  resp_id : Json;
  resp_result : option ResponseEnvelope;
  resp_error : option JsonRpcError
}.

Arguments mkJsonRpcRequest {_} _ _ _ _.
Arguments mkJsonRpcError {_} _ _ _.
Arguments mkResponseEnvelope {_} _ _ _ _ _.
Arguments mkJsonRpcResponse {_} _ _ _ _.

(** The conversion of the envelope itself: an error is its text. *)
Class EnvelopeWire `{Wire} := envelope_error : ResponseEnvelope → option string.

(** ** Dispatch *)

Section dispatch.
Context `{Unicode} `{BuildProfile} `{Chrono} `{Os} `{Env} `{Serde} `{Sqlite} `{JsonText}
  `{HashOrder}.

Definition handle (m : Method) : params_of m → M World (result_of m * option RunState) :=
  match m with
  | RunPrepare => handle_run_prepare
  | RunRefresh => handle_run_refresh
  | RunReplan => handle_run_replan
  | WorkspaceSummary => handle_workspace_summary
  | FileRead => handle_file_read
  | GitStatus => handle_git_status
  | CodeSearch => handle_code_search
  | PatchApply => handle_patch_apply
  | TestsRun => handle_tests_run
  | GitDiff => handle_git_diff
  | ApprovalResolve => handle_approval_resolve
  | RunsList => handle_runs_list
  | RunGet => handle_run_get
  | RunHistory => handle_run_history
  | PatchPreflight => handle_patch_preflight
  | TestsPreflight => handle_tests_preflight
  | RunFinalize => handle_run_finalize
  | RunReopen => handle_run_reopen
  | RunSupersede => handle_run_supersede
  | RunArchive => handle_run_archive
  | RunUnarchive => handle_run_unarchive
  | RunAnnotate => handle_run_annotate
  | RunPin => handle_run_pin
  | RunUnpin => handle_run_unpin
  | RunSnooze => handle_run_snooze
  | RunUnsnooze => handle_run_unsnooze
  | RunSetPriority => handle_run_set_priority
  | RunAssignOwner => handle_run_assign_owner
  | RunSetDueDate => handle_run_set_due_date
  | RunSetDependencies => handle_run_set_dependencies
  | RunsQueueOverview => handle_runs_queue_overview
  | RunSetEffort => handle_run_set_effort
  | CommandRun => handle_command_run
  | QueueViewCreate => handle_queue_view_create
  | QueueViewUpdate => handle_queue_view_update
  | QueueViewDelete => handle_queue_view_delete
  | QueueViewGet => handle_queue_view_get
  | QueueViewList => handle_queue_view_list
  end.

Context `{Wire} `{!EnvelopeWire}.

Definition dispatch (m : Method) (params : Json) : M World (Json * option RunState) :=
  p ← lift (match from_value m params with inl p => Ok p | inr e => Err e end);
  '(result, run_state) ← handle m p;
  mret (to_value m result, run_state).

Definition error_response (id : Json) (code : i64) (message : string) : JsonRpcResponse :=
  mkJsonRpcResponse "2.0" id None (Some (mkJsonRpcError code message None)).

(** The response and the world after it.  A panic in a handler ends the
    connection without a response. *)
Definition rpc_handler (req : JsonRpcRequest) : M World JsonRpcResponse := λ w,
  if negb (req_jsonrpc req == "2.0") then
    (Ok (error_response (req_id req) (-32600) "invalid jsonrpc version"), w)
  else
    match parse_method (req_method req) with
    | None =>
        (Ok (error_response (req_id req) (-32601) ("method not found: " +:+ req_method req)), w)
    | Some m =>
        match dispatch m (req_params req) w with
        | (Ok (result, run_state), w1) =>
            (audit_uuid ← new_uuid;
             let envelope :=
               mkResponseEnvelope true result run_state [] ("aud_" +:+ audit_uuid) in
             match envelope_error envelope with
             | None => mret (mkJsonRpcResponse "2.0" (req_id req) (Some envelope) None)
             | Some e =>
                 mret (error_response (req_id req) (-32603)
                         ("internal error: failed to serialize response: " +:+ e))
             end) w1
        | (Err e, w1) => (Ok (error_response (req_id req) (-32000) e), w1)
        | (Panic, w1) => (Panic, w1)
        end
    end.

(** The router answers every request it does not crash on with the id
    of the request and either a result or an error, never both: -32600 for
    another protocol version and -32601 for an unknown method, without
    touching anything; -32000 with the text of a handler's error; and a
    result only when the handler succeeded, with its state, in which case
    only the tick has advanced after the handler. *)
Theorem rpc_handler_spec req w resp w' :
  rpc_handler req w = (Ok resp, w') →
  resp_jsonrpc resp = "2.0" ∧ resp_id resp = req_id req ∧
  (resp_result resp = None ↔ is_Some (resp_error resp)) ∧
  (req_jsonrpc req ≠ "2.0" →
     w' = w ∧ err_code <$> resp_error resp = Some (-32600)%Z) ∧
  (req_jsonrpc req = "2.0" → (∀ m, req_method req ≠ method_as_str m) →
     w' = w ∧ err_code <$> resp_error resp = Some (-32601)%Z) ∧
  (∀ m, req_jsonrpc req = "2.0" → req_method req = method_as_str m →
     match dispatch m (req_params req) w with
     | (Ok (v, st), w1) =>
         w_db w' = w_db w1 ∧ w_views w' = w_views w1 ∧ w_os w' = w_os w1 ∧
         (∀ env, resp_result resp = Some env → env_result env = v ∧ env_run_state env = st)
     | (Err e, w1) => w' = w1 ∧ resp_error resp = Some (mkJsonRpcError (-32000)%Z e None)
     | (Panic, _) => False
     end).
Proof.
  unfold rpc_handler. destruct (String.eqb_spec (req_jsonrpc req) "2.0") as [Hv|Hv]; cbn [negb].
  2: { intros [= <- <-]. by cbn; split_and!. }
  destruct (parse_method (req_method req)) as [m|] eqn:Hm.
  - pose proof (parse_method_name _ _ Hm) as Hname.
    assert (∀ m', req_method req = method_as_str m' → m' = m) as Huniq.
    { intros m' E. rewrite E, parse_as_str in Hm. by injection Hm. }
    assert (∀ P, (∀ m', req_method req ≠ method_as_str m') → P) as Hnone.
    { intros P Hno. by destruct (Hno m). }
    destruct (dispatch m (req_params req) w) as [[[v st]|e|] w1] eqn:Ed; [| |done].
    + unfold new_uuid, ticking, mbind, M_bind. cbn.
      destruct (envelope_error _); intros [= <- <-]; cbn; split_and!; try done;
        try (by intros _ Hno; apply Hnone); try (by split; [|intros [? ?]]);
        intros m' _ ->%Huniq; rewrite Ed; split_and!; try done; by intros env [= <-].
    + intros [= <- <-]. cbn. split_and!; try done; [by intros _ Hno; apply Hnone|].
      intros m' _ ->%Huniq. by rewrite Ed.
  - intros [= <- <-]. cbn. split_and!; try done.
    intros m _ E. by rewrite E, parse_as_str in Hm.
Qed.
End dispatch.
