(* ===== verification/System.v ===== *)
(** * The daemon as a system (deterministic-daemon: handlers.rs)

    What any sequence of requests preserves: the database stays well formed,
    no run disappears, what identifies a run never changes (its id, workspace,
    goal, plan, policy, time of creation), and the audit trail only grows. *)

From S2P Require Import Prelude RustStr Types Lifecycle Organize Policy Approval Derive Os.
From S2P Require Import Command Workspace Patch Store DemoSerde StoreFacts Methods.
From S2P Require Import QueueViews Handlers Queue Router.

(** ** What never changes of a run *)

Definition identity (s : RunState) :=
  (rs_run_id s, rs_workspace_id s, rs_user_goal s, rs_plan s, rs_focus_paths s,
   rs_policy_profile s, rs_created_at s).

(** The shape of the proofs below: follow the checks of an operation down to
    the state it returns. *)
Ltac same_identity op E := unfold op in E; organize_cases E; injection E as <- <-; reflexivity.

Lemma finalize_identity t p s r s' : finalize t p s = Ok (r, s') → identity s' = identity s.
Proof. intros (_ & _ & -> & _)%finalize_Ok. done. Qed.

Lemma reopen_identity `{BuildProfile} t p s r s' :
  reopen t p s = Ok (r, s') → identity s' = identity s.
Proof. intros E. same_identity @reopen E. Qed.

Lemma archive_identity t p s r s' : archive t p s = Ok (r, s') → identity s' = identity s.
Proof. intros E. same_identity archive E. Qed.

Lemma unarchive_identity t p s r s' : unarchive t p s = Ok (r, s') → identity s' = identity s.
Proof. intros E. same_identity unarchive E. Qed.

Lemma supersede_identity t p s i r s' u :
  supersede t p s i = Ok (r, s', u) → identity s' = identity s ∧ rs_run_id u = i.
Proof. intros E. unfold supersede in E. organize_cases E. by injection E as <- <- <-. Qed.

Lemma organize_identity `{Unicode} s s' : organize_step s s' → identity s' = identity s.
Proof.
  intros Hs. apply organize_step_view in Hs.
  change (identity s') with (identity (lifecycle_view s')). by rewrite Hs.
Qed.

Lemma resolve_identity t p s n r s' : resolve t p s n = Ok (r, s') → identity s' = identity s.
Proof. intros (Hf & _)%resolve_cases. rewrite Hf. done. Qed.

Lemma replan_identity `{Unicode} t p s r s' :
  replan t p s = Ok (r, s') → identity s' = identity s.
Proof.
  intros Hr. unfold replan in Hr.
  assert (identity (fst (replan_evidence p s)) = identity s) as H1.
  { unfold replan_evidence. by case_bool_decide. }
  destruct (replan_evidence p s) as [s1 d1]. cbn [fst] in H1. rewrite <- H1.
  apply res_bind_Ok in Hr as ([s2 d2] & Hf & Hr).
  assert (identity s2 = identity s1) as <-.
  { destruct (rrpp_failure_context p) as [f|].
    - unfold replan_failure in Hf. set (x := if _ || _ then _ else _) in Hf.
      assert (identity (fst x) = identity s1) as <- by (subst x; by destruct (_ || _)).
      destruct x as [s3 d3]. cbn [fst]. res_inv.
      repeat (case_match; res_inv; simplify_eq/=); done.
    - injection Hf as Hf. unfold replan_no_failure in Hf.
      repeat (case_match; simplify_eq/=); done. }
  apply res_bind_Ok in Hr as ([[[s3 d3] a] tl] & Hn & Hr).
  assert (identity s3 = identity s2) as <-.
  { unfold replan_next in Hn. destruct (rs_pending_steps s2).
    - by simplify_eq.
    - res_inv. destruct x as [a' tl']. by simplify_eq. }
  destruct (rs_status s3 == "prepared"); res_inv; by simplify_eq.
Qed.

(** ** How the world evolves *)

Section evolves.
Context `{Unicode} `{BuildProfile} `{Chrono} `{Os} `{Env} `{Serde} `{!SerdeLaws} `{Sqlite}
  `{JsonText} `{HashOrder}.
Context (Hfk : foreign_keys = true).

Definition evolves (w w' : World) : Prop :=
  db_wf (w_db w) →
  db_wf (w_db w') ∧
  (∀ id s, get_run id (w_db w) = Ok (Some s) →
     ∃ s', get_run id (w_db w') = Ok (Some s') ∧ identity s' = identity s) ∧
  db_audit (w_db w) `prefix_of` db_audit (w_db w').

#[export] Instance evolves_preorder : PreOrder evolves.
Proof.
  split.
  - intros w Hwf. split_and!; eauto.
  - intros w1 w2 w3 H12 H23 Hwf. destruct (H12 Hwf) as (Hwf2 & Hr2 & Ha2).
    destruct (H23 Hwf2) as (Hwf3 & Hr3 & Ha3). split_and!; [done| |by etrans].
    intros id s Hs. destruct (Hr2 id s Hs) as (s2 & Hs2 & E2).
    destruct (Hr3 id s2 Hs2) as (s3 & Hs3 & E3). exists s3. split; [done|]. congruence.
Qed.

(** A step that leaves the database alone. *)
Lemma evolves_same_db w w' : w_db w' = w_db w → evolves w w'.
Proof. intros E Hwf. rewrite E. split_and!; eauto. Qed.

(** A step that leaves the runs table alone. *)
Lemma evolves_same_runs w db :
  db_runs db = db_runs (w_db w) → (db_wf (w_db w) → db_wf db) →
  db_audit (w_db w) `prefix_of` db_audit db → evolves w (set_db db w).
Proof.
  intros Er Hdb Ha Hwf. cbn. split_and!; [auto| |done].
  intros id s Hs. exists s. split; [|done]. unfold get_run in *. by rewrite Er.
Qed.

Lemma respects_same_db {A} (m : M World A) :
  (∀ w, w_db (m w).2 = w_db w) → respects evolves m.
Proof. intros Hm w. by apply evolves_same_db. Qed.

Lemma respects_query {A} (f : Db → res A) : respects evolves (query f).
Proof. by apply respects_same_db. Qed.

Lemma respects_ticking {A} (f : nat → A) : respects evolves (ticking f).
Proof. by apply respects_same_db. Qed.

Lemma respects_on_os {A} (m : M os A) : respects evolves (on_os m).
Proof. apply respects_same_db. intros w. unfold on_os. by destruct (m (w_os w)). Qed.

Lemma respects_set_views f :
  respects evolves (modify (λ w, set_views (f w) w)).
Proof. by apply respects_same_db. Qed.

Lemma respects_live_diff id ws : respects evolves (live_diff_summary id ws).
Proof.
  apply respects_same_db. intros w. unfold live_diff_summary, on_os.
  by destruct (git_diff.diff _ ws (w_os w)) as [[?|?|] ?].
Qed.

Lemma respects_insert_audit e : respects evolves (on_db (insert_audit e)).
Proof.
  intros w. unfold on_db. pose proof (insert_audit_wf e (w_db w) Hfk) as Hwf.
  destruct (insert_audit e (w_db w)) as [r db] eqn:E. cbn [snd] in *.
  apply evolves_same_runs; [|done|]; unfold insert_audit in E; case_match; simplify_eq; [done..|].
  cbn. by apply prefix_app_r.
Qed.

Lemma respects_audit id k s m : respects evolves (audit id k s m).
Proof.
  unfold audit, append_audit_entry. apply respects_ignore.
  apply respects_bind; [apply _|apply respects_ticking|intros u].
  apply respects_bind; [apply _|apply respects_ticking|intros t].
  apply respects_bind; [apply _|apply respects_insert_audit|intros []].
  apply respects_ret, _.
Qed.

Lemma respects_save_approval a : respects evolves (on_db (save_approval a)).
Proof.
  intros w. unfold on_db. pose proof (save_approval_wf a (w_db w) Hfk) as Hwf.
  destruct (save_approval a (w_db w)) as [r db] eqn:E. cbn [snd] in *.
  by apply evolves_same_runs; [|done|]; unfold save_approval in E; case_match; simplify_eq.
Qed.

Lemma respects_resolve_now id d r : respects evolves (resolve_approval_now id d r).
Proof.
  unfold resolve_approval_now. apply respects_bind; [apply _|apply respects_ticking|intros t].
  intros w. unfold on_db. pose proof (resolve_approval_wf t id d r (w_db w)) as Hwf.
  destruct (resolve_approval t id d r (w_db w)) as [x db] eqn:E. cbn [snd] in *.
  apply evolves_same_runs; [|done|]; unfold resolve_approval in E;
    repeat (case_match; simplify_eq); done.
Qed.

(** Saving keeps every run as long as the saved state has the identity of
    the one stored under its id, if there is one. *)
Lemma save_evolves w s :
  (∀ s0, get_run (rs_run_id s) (w_db w) = Ok (Some s0) → identity s = identity s0) →
  evolves w (save s w).2.
Proof.
  intros Hid Hwf. unfold save, on_db.
  pose proof (save_run_wf s (w_db w) Hwf) as Hwf'.
  destruct (save_run s (w_db w)) as [r db] eqn:E. cbn in *. split; [done|].
  unfold save_run in E. case_match eqn:Hs; simplify_eq; [split; eauto|]. cbn. split; [|done].
  intros id s0 Hs0. destruct (String.eqb_spec id (rs_run_id s)) as [->|Hne].
  - exists s. split; [|auto]. apply get_run_find. apply (find_upsert_same row_run_id (run_row s)).
  - exists s0. split; [|done]. rewrite <- Hs0. unfold get_run. cbn.
    by rewrite (find_upsert_other row_run_id (run_row s)).
Qed.

(** A state with the identity of a stored one is saved under its id. *)
Lemma save_loaded_evolves w id s s' :
  get_run id (w_db w) = Ok (Some s) → identity s' = identity s → evolves w (save s' w).2.
Proof.
  intros Hg Hi Hwf. refine (save_evolves w s' _ Hwf). intros s0 Hs0.
  destruct (get_run_wf id (w_db w) Hwf) as (o & Ho & Hso & _).
  rewrite Hg in Ho. injection Ho as <-. destruct (Hso s eq_refl) as [Hid _].
  assert (rs_run_id s' = id) as E by (unfold identity in Hi; simplify_eq; congruence).
  rewrite E, Hg in Hs0. by injection Hs0 as <-.
Qed.

(** A state under an id that is not in use. *)
Lemma save_fresh_evolves w s :
  run_exists (w_db w) (rs_run_id s) = false → evolves w (save s w).2.
Proof.
  intros Hf Hwf. refine (save_evolves w s _ Hwf). intros s0 Hs0.
  destruct (get_run_wf (rs_run_id s) (w_db w) Hwf) as (o & Ho & _ & He).
  rewrite Hs0 in Ho. injection Ho as <-. rewrite Hf in He.
  destruct He as [He _]. discriminate He. by eexists.
Qed.

(** Continue after a first part that is known to evolve. *)
Lemma bind_evolves {A B} w0 w (m : M World A) (k : A → M World B) :
  evolves w0 (m w).2 → (∀ a, respects evolves (k a)) → evolves w0 ((m ≫= k) w).2.
Proof.
  intros Hm Hk. rewrite M_bind_run. destruct (m w) as [[a|?|] w']; cbn in *; [|done..].
  etrans; [done|apply Hk].
Qed.

(** As long as the runs table is untouched since a run was loaded, saving a
    state with its identity is harmless. *)
Lemma save_then_evolves {B} w0 w id s s' (k : () → M World B) :
  evolves w0 w → db_runs (w_db w) = db_runs (w_db w0) →
  get_run id (w_db w0) = Ok (Some s) → identity s' = identity s →
  (∀ u, respects evolves (k u)) → evolves w0 ((save s' ≫= k) w).2.
Proof.
  intros He Hr Hg Hi Hk. apply bind_evolves; [|done]. etrans; [exact He|].
  eapply save_loaded_evolves; [|exact Hi]. unfold get_run in *. rewrite Hr. exact Hg.
Qed.

Lemma load_run_inv id w :
  (∃ s, get_run id (w_db w) = Ok (Some s) ∧ load_run id w = (Ok s, w)) ∨
  (∃ e, load_run id w = (Err e, w)) ∨ load_run id w = (Panic, w).
Proof.
  unfold load_run, query, lift. rewrite M_bind_run.
  destruct (get_run id (w_db w)) as [[s|]|?|]; cbn; eauto.
Qed.

(** The shape of the handlers that update one run. *)
Lemma update_evolves {A B} id (f : string → RunState → res (A * RunState))
    (k : A → RunState → M World B) :
  (∀ t s r s', f t s = Ok (r, s') → identity s' = identity s) →
  (∀ r s', respects evolves (k r s')) →
  respects evolves
    (state ← load_run id; t ← now; '(r, state) ← lift (f t state); _ ← save state; k r state).
Proof.
  intros Hf Hk w. rewrite M_bind_run.
  destruct (load_run_inv id w) as [(s & Hg & ->)|[(e & ->)| ->]]; [|reflexivity..].
  rewrite M_bind_run. unfold now, ticking. cbn [fst snd]. rewrite M_bind_run. unfold lift.
  set (w1 := mkWorld _ _ _ _).
  assert (evolves w w1) as Hw1 by (by apply evolves_same_db).
  destruct (f _ s) as [[r s']|e|] eqn:E; cbn [fst snd]; [|done..].
  by eapply save_then_evolves; [| |exact Hg|by eapply Hf|].
Qed.

(** Steps that are harmless whatever the state they run in. *)
Ltac harmless :=
  repeat first
    [ apply respects_audit | apply respects_query | apply respects_ticking
    | apply respects_on_os | apply respects_live_diff | apply respects_save_approval
    | apply respects_resolve_now | apply respects_set_views
    | apply (respects_ret evolves) | apply (respects_lift evolves) | apply (respects_gets evolves)
    | apply (respects_bind evolves); [|intros ?]
    | progress case_match ].

Lemma prepare_evolves p w :
  run_exists (w_db w) (uuid_at (w_tick w)) = false → evolves w (handle_run_prepare p w).2.
Proof.
  intros Hfresh. unfold handle_run_prepare, new_uuid, now, ticking.
  do 2 (rewrite M_bind_run; cbn [fst snd w_tick w_db w_views w_os]).
  rewrite M_bind_run. unfold lift. set (w1 := mkWorld _ _ _ _).
  assert (evolves w w1) as Hw1 by (by apply evolves_same_db).
  destruct (prepare _ _ p) as [[r s]|e|] eqn:E; cbn [fst snd]; [|done..].
  assert (rs_run_id s = uuid_at (w_tick w)) as Hid.
  { unfold prepare in E. by injection E as <- <-. }
  apply bind_evolves; [|intros ?; harmless]. etrans; [exact Hw1|].
  apply save_fresh_evolves. by rewrite Hid.
Qed.

Lemma get_run_id id db s : get_run id db = Ok (Some s) → rs_run_id s = id.
Proof.
  unfold get_run. destruct (find_first _ _) as [row|] eqn:E; [|done].
  apply find_first_Some in E as [_ <-%String.eqb_eq].
  destruct (row_state row) as [s'|?|] eqn:Er; [|done..]. intros [= <-].
  unfold row_state in Er. by res_inv.
Qed.

Lemma successor_id_ne t id : make_successor_run_id t id ≠ id.
Proof.
  unfold make_successor_run_id. intros E%(f_equal String.length).
  rewrite !str_length_app in E. cbn in E. lia.
Qed.

Lemma save_run_exists s id db :
  id ≠ rs_run_id s → run_exists db id = false → run_exists (save_run s db).2 id = false.
Proof.
  intros Hne Hf. unfold save_run. case_match; [done|]. cbn [snd].
  apply not_true_iff_false. rewrite run_exists_spec. intros (r & Hr & Hid).
  apply not_true_iff_false in Hf. apply Hf, run_exists_spec. exists r. split; [|done].
  cbn in Hr. apply elem_upsert in Hr as [[? _]| ->]; [done|]. by destruct Hne.
Qed.

Lemma supersede_evolves p w :
  run_exists (w_db w) (make_successor_run_id (millis_at (w_tick w)) (rsup_run_id p)) = false →
  evolves w (handle_run_supersede p w).2.
Proof.
  intros Hfresh. unfold handle_run_supersede. rewrite M_bind_run.
  destruct (load_run_inv (rsup_run_id p) w) as [(s & Hg & ->)|[(e & ->)| ->]]; [|reflexivity..].
  unfold now_millis, now, ticking.
  do 2 (rewrite M_bind_run; cbn [fst snd w_tick w_db w_views w_os]).
  rewrite M_bind_run. unfold lift. set (w1 := mkWorld _ _ _ _).
  assert (evolves w w1) as Hw1 by (by apply evolves_same_db).
  destruct (supersede _ p s _) as [[[r s'] u]|e|] eqn:E; cbn [fst snd]; [|done..].
  apply supersede_identity in E as [Hi Hu].
  assert (evolves w (save s' w1).2) as Hw2.
  { etrans; [exact Hw1|]. by eapply save_loaded_evolves. }
  rewrite M_bind_run. destruct (save s' w1) as [[[]|?|] w2] eqn:Es; cbn [snd] in Hw2; [|done..].
  apply bind_evolves; [|intros ?; harmless]. etrans; [exact Hw2|].
  intros Hwf2. refine (save_fresh_evolves w2 u _ Hwf2).
  assert (w_db w2 = (save_run s' (w_db w1)).2) as ->.
  { unfold save, on_db in Es. destruct (save_run s' (w_db w1)). by simplify_eq. }
  apply save_run_exists; [|by rewrite Hu].
  rewrite Hu. intros E. assert (rs_run_id s' = rsup_run_id p) as Hid.
  { unfold identity in Hi. simplify_eq. rewrite <- (get_run_id _ _ _ Hg). congruence. }
  rewrite Hid in E. by apply successor_id_ne in E.
Qed.

Lemma set_dependencies_evolves p : respects evolves (handle_run_set_dependencies p).
Proof.
  intros w. unfold handle_run_set_dependencies. rewrite M_bind_run.
  destruct (load_run_inv (rsdp_run_id p) w) as [(s & Hg & ->)|[(e & ->)| ->]]; [|reflexivity..].
  rewrite M_bind_run. unfold query. destruct (list_runs _ _ _ _ _ _ _ _ _ _); [|reflexivity..].
  unfold now, ticking. rewrite M_bind_run. cbn [fst snd]. rewrite M_bind_run. unfold lift.
  set (w1 := mkWorld _ _ _ _).
  assert (evolves w w1) as Hw1 by (by apply evolves_same_db).
  destruct (set_dependencies _ p s _) as [[r s']|e|] eqn:E; cbn [fst snd]; [|done..].
  eapply save_then_evolves; [done|done|exact Hg| |intros ?; harmless].
  eapply organize_identity, step_set_dependencies, E.
Qed.

(** The gated branch of a patch or a test run. *)
Lemma gate_evolves {B} id kind what payload tool s a b c w (k : PendingApproval * RunState → M World B) :
  get_run id (w_db w) = Ok (Some s) → (∀ x, respects evolves (k x)) →
  evolves w ((gate id kind what payload tool s a b c ≫= k) w).2.
Proof.
  intros Hg Hk. apply bind_evolves; [|done]. unfold gate, new_uuid, now, ticking.
  do 2 (rewrite M_bind_run; cbn [fst snd w_tick w_db w_views w_os]).
  destruct (create_approval _ _ s a b c) as [ap s1] eqn:Ec.
  assert (identity s1 = identity s) as Hi.
  { unfold create_approval in Ec. by injection Ec as <- <-. }
  rewrite M_bind_run. unfold build_retryable_action, now, ticking. rewrite M_bind_run.
  cbn [fst snd w_tick w_db w_views w_os mret M_ret].
  set (w1 := mkWorld _ _ _ _).
  assert (evolves w w1) as Hw1 by (by apply evolves_same_db).
  rewrite M_bind_run. pose proof (respects_save_approval ap w1) as Hs.
  assert (db_runs (w_db (on_db (save_approval ap) w1).2) = db_runs (w_db w)) as Hr.
  { unfold on_db, save_approval. by destruct (foreign_keys && _). }
  destruct (on_db (save_approval ap) w1) as [[[]|?|] w2]; cbn [snd] in Hs, Hr |- *; [|by etrans..].
  eapply save_then_evolves; [by etrans|done|exact Hg| |intros ?; harmless].
  by rewrite <- Hi.
Qed.

Lemma load_workspace_inv id w :
  (∃ ws, load_workspace id w = (Ok ws, w)) ∨ (∃ e, load_workspace id w = (Err e, w)) ∨
  load_workspace id w = (Panic, w).
Proof.
  unfold load_workspace, query, lift. rewrite M_bind_run.
  destruct (workspace_for_run id (w_db w)) as [[ws|]|?|]; cbn; eauto.
Qed.

(** A run that clears its retryable action and goes on. *)
Lemma clear_retry_evolves {B} w id s (k : () → M World B) :
  get_run id (w_db w) = Ok (Some s) → (∀ u, respects evolves (k u)) →
  evolves w ((save (set_rs_retryable_action None s) ≫= k) w).2.
Proof. intros Hg Hk. by eapply save_then_evolves. Qed.

Lemma patch_apply_evolves p : respects evolves (handle_patch_apply p).
Proof.
  intros w. unfold handle_patch_apply. rewrite M_bind_run.
  destruct (load_workspace_inv (pap_run_id p) w) as [(ws & ->)|[(e & ->)| ->]]; [|reflexivity..].
  rewrite M_bind_run.
  destruct (load_run_inv (pap_run_id p) w) as [(s & Hg & ->)|[(e & ->)| ->]]; [|reflexivity..].
  destruct (evaluate_patch p (rs_policy_profile s)).
  - eapply clear_retry_evolves; [exact Hg|intros ?; harmless].
  - apply gate_evolves; [done|]. intros [ap s']. harmless.
Qed.

Lemma tests_run_evolves p : respects evolves (handle_tests_run p).
Proof.
  intros w. unfold handle_tests_run. rewrite M_bind_run.
  destruct (load_workspace_inv (trp_run_id p) w) as [(ws & ->)|[(e & ->)| ->]]; [|reflexivity..].
  rewrite M_bind_run.
  destruct (load_run_inv (trp_run_id p) w) as [(s & Hg & ->)|[(e & ->)| ->]]; [|reflexivity..].
  destruct (evaluate_test_run p (rs_policy_profile s)).
  - eapply clear_retry_evolves; [exact Hg|intros ?; harmless].
  - apply gate_evolves; [done|]. intros [ap s']. harmless.
Qed.

Lemma approval_resolve_evolves p : respects evolves (handle_approval_resolve p).
Proof.
  intros w. unfold handle_approval_resolve, query, lift, get_approval.
  do 2 (rewrite M_bind_run; cbn [fst snd]).
  destruct (option_map approval_of _) as [a|]; cbn [ok_or]; [|reflexivity].
  rewrite M_bind_run. destruct (pa_run_id a == arp_run_id p); cbn [ensure]; [|reflexivity].
  rewrite M_bind_run.
  destruct (load_run_inv (arp_run_id p) w) as [(s & Hg & ->)|[(e & ->)| ->]]; [|reflexivity..].
  rewrite M_bind_run. pose proof (respects_resolve_now (arp_approval_id p) (arp_decision p) (arp_reason p) w) as Hs.
  assert (db_runs (w_db (resolve_approval_now (arp_approval_id p) (arp_decision p) (arp_reason p) w).2)
          = db_runs (w_db w)) as Hr.
  { unfold resolve_approval_now, now, ticking, on_db, resolve_approval. rewrite M_bind_run. cbn.
    by repeat case_match; simplify_eq. }
  destruct (resolve_approval_now _ _ _ w) as [[[]|?|] w1]; cbn [snd] in Hs, Hr |- *; [|done..].
  rewrite M_bind_run. unfold get_pending_approvals. cbn [fst snd].
  unfold now, ticking. rewrite M_bind_run. cbn [fst snd]. rewrite M_bind_run.
  destruct (resolve _ p s _) as [[r s']|e|] eqn:E; cbn [fst snd].
  - eapply save_then_evolves; [|done|exact Hg|by eapply resolve_identity|intros ?; harmless].
    etrans; [exact Hs|]. by apply evolves_same_db.
  - etrans; [exact Hs|]. by apply evolves_same_db.
  - etrans; [exact Hs|]. by apply evolves_same_db.
Qed.

(** The ids a request draws are not in use.  Random ids and the
    millisecond clock are outside the code; a collision would replace the
    run that has the id. *)
Definition fresh (m : Method) : params_of m → World → Prop :=
  match m with
  | RunPrepare => λ _ w, run_exists (w_db w) (uuid_at (w_tick w)) = false
  | RunSupersede => λ p w,
      run_exists (w_db w) (make_successor_run_id (millis_at (w_tick w)) (rsup_run_id p)) = false
  | _ => λ _ _, True
  end.

Lemma handle_evolves m p w : fresh m p w → evolves w (handle m p w).2.
Proof.
  assert (∀ {A} (x : M World A), respects evolves x → evolves w (x w).2) as Hr by (intros A x Hx; apply Hx).
  destruct m; cbn [fresh handle]; intros Hf;
    try (apply Hr; unfold handle_run_refresh, handle_workspace_summary, handle_file_read,
      handle_git_status, handle_code_search, handle_git_diff, handle_runs_list, handle_run_get,
      handle_run_history, handle_patch_preflight, handle_tests_preflight,
      handle_runs_queue_overview, handle_command_run, handle_queue_view_create,
      handle_queue_view_update, handle_queue_view_delete, handle_queue_view_get,
      handle_queue_view_list, load_run, load_workspace, today, elapsed_ms;
      harmless; fail).
  - by apply prepare_evolves.
  - apply Hr, update_evolves; [intros; by eapply replan_identity|intros; harmless].
  - apply patch_apply_evolves.
  - apply tests_run_evolves.
  - apply approval_resolve_evolves.
  - apply Hr, update_evolves; [intros; by eapply finalize_identity|intros; harmless].
  - apply Hr, update_evolves; [intros; by eapply reopen_identity|intros; harmless].
  - by apply supersede_evolves.
  - apply Hr, update_evolves; [intros; by eapply archive_identity|intros; harmless].
  - apply Hr, update_evolves; [intros; by eapply unarchive_identity|intros; harmless].
  - apply Hr, update_evolves; [intros; by eapply organize_identity, step_annotate|intros; harmless].
  - apply Hr, update_evolves; [intros; by eapply organize_identity, step_pin|intros; harmless].
  - apply Hr, update_evolves; [intros; by eapply organize_identity, step_unpin|intros; harmless].
  - apply Hr, update_evolves; [intros; by eapply organize_identity, step_snooze|intros; harmless].
  - apply Hr, update_evolves; [intros; by eapply organize_identity, step_unsnooze|intros; harmless].
  - apply Hr, update_evolves; [intros; by eapply organize_identity, step_set_priority|intros; harmless].
  - apply Hr, update_evolves; [intros; by eapply organize_identity, step_assign_owner|intros; harmless].
  - apply Hr, update_evolves; [intros; by eapply organize_identity, step_set_due_date|intros; harmless].
  - apply set_dependencies_evolves.
  - apply Hr, update_evolves; [intros; by eapply organize_identity, step_set_effort|intros; harmless].
Qed.
End evolves.

(** ** Sequences of requests *)

Section requests.
Context `{Unicode} `{BuildProfile} `{Chrono} `{Os} `{Env} `{Serde} `{!SerdeLaws} `{Sqlite}
  `{JsonText} `{HashOrder} `{Wire} `{!EnvelopeWire}.
Context (Hfk : foreign_keys = true).

(** One request to the router, whose method, if it has one, draws fresh ids. *)
Inductive rpc_step : World → World → Prop :=
| rpc_request req w :
    (∀ m p, req_method req = method_as_str m → from_value m (req_params req) = inl p →
       fresh m p w) →
    rpc_step w (rpc_handler req w).2.

Lemma dispatch_evolves m params w :
  (∀ p, from_value m params = inl p → fresh m p w) → evolves w (dispatch m params w).2.
Proof.
  intros Hf. unfold dispatch, lift. rewrite M_bind_run.
  destruct (from_value m params) as [p|e]; [|by apply evolves_same_db].
  rewrite M_bind_run. pose proof (handle_evolves Hfk m p w (Hf p eq_refl)) as He.
  by destruct (handle m p w) as [[[r st]|?|] w'].
Qed.

Lemma rpc_step_evolves w w' : rpc_step w w' → evolves w w'.
Proof.
  intros [req w0 Hf]. unfold rpc_handler.
  destruct (negb _); [by apply evolves_same_db|].
  destruct (parse_method (req_method req)) as [m|] eqn:Hm; [|by apply evolves_same_db].
  apply parse_method_name in Hm.
  pose proof (dispatch_evolves m (req_params req) w0 (λ p E, Hf m p Hm E)) as He.
  destruct (dispatch m (req_params req) w0) as [[[v st]|e|] w1]; cbn [snd] in He |- *; [|done..].
  eapply (transitivity (R := evolves)); [exact He|]. apply evolves_same_db.
  unfold new_uuid, ticking, mbind, M_bind. cbn. by destruct (envelope_error _).
Qed.

Lemma rpc_steps_evolve w w' : rtc rpc_step w w' → evolves w w'.
Proof.
  induction 1 as [w|w1 w2 w3 H12 _ IH]; [by apply evolves_same_db|].
  eapply (transitivity (R := evolves)); [by apply rpc_step_evolves|done].
Qed.

(** C11. Whatever requests a fresh daemon serves, its database is well
    formed: every run row reads back, run, approval and audit ids are unique,
    and every approval and audit entry names a stored run. *)
Theorem reachable_db_wf w w' :
  w_db w = db_open → rtc rpc_step w w' →
  db_wf (w_db w') ∧ ∀ id, ∃ o, get_run id (w_db w') = Ok o.
Proof.
  intros Hw Hs. assert (db_wf (w_db w')) as Hwf.
  { apply (rpc_steps_evolve w w' Hs). rewrite Hw. apply db_open_wf. }
  split; [done|]. intros id. destruct (get_run_wf id (w_db w') Hwf) as (o & Ho & _). eauto.
Qed.

(** C22. As long as no request draws an id that is in use (the id of a successor
    is made from the millisecond clock), no request removes a run or changes what
    identifies it (id, workspace, goal, plan, focus paths, policy, time of
    creation), and the audit trail is append-only: the old one is a prefix of the
    new one. *)
Theorem runs_and_audit_persist w w' :
  db_wf (w_db w) → rtc rpc_step w w' →
  (∀ id s, get_run id (w_db w) = Ok (Some s) →
     ∃ s', get_run id (w_db w') = Ok (Some s') ∧ identity s' = identity s) ∧
  db_audit (w_db w) `prefix_of` db_audit (w_db w').
Proof. intros Hwf Hs. by destruct (rpc_steps_evolve w w' Hs Hwf). Qed.

(** ** Gated patches *)

Lemma audit_frame id k s m w :
  ∃ w', audit id k s m w = (Ok (), w') ∧ db_runs (w_db w') = db_runs (w_db w) ∧
    db_approvals (w_db w') = db_approvals (w_db w) ∧ w_os w' = w_os w ∧ w_views w' = w_views w.
Proof.
  unfold audit, ignore, append_audit_entry, new_uuid, now, ticking, on_db, insert_audit,
    mbind, M_bind. cbn. destruct (_ || _); cbn; eauto 10.
Qed.

Lemma stored_step id db s :
  db_wf db → get_run id db = Ok (Some s) → (rs_current_step s <= i64_max)%N.
Proof.
  intros Hwf Hg. destruct (get_run_wf id db Hwf) as (o & Ho & Hs & _).
  rewrite Hg in Ho. injection Ho as <-. destruct (Hs s eq_refl) as [_ Hin].
  pose proof (wf_rows _ Hwf) as Hrows. rewrite Forall_forall in Hrows.
  destruct (Hrows _ Hin) as (s0 & E & Hle).
  assert (Ok s = Ok s0) as [= ->]; [|done].
  by rewrite <- (row_state_run_row s), E, row_state_run_row.
Qed.

Lemma load_run_ok id w s : get_run id (w_db w) = Ok (Some s) → load_run id w = (Ok s, w).
Proof. intros Hg. unfold load_run, query, lift. rewrite M_bind_run. by rewrite Hg. Qed.

Lemma load_workspace_ok id w s :
  get_run id (w_db w) = Ok (Some s) → load_workspace id w = (Ok (rs_workspace_id s), w).
Proof.
  intros Hg. unfold load_workspace, query, lift, workspace_for_run. rewrite M_bind_run.
  by rewrite Hg.
Qed.

(** The gated branch always succeeds on a well-formed database. *)
Lemma gate_spec id kind what payload tool s a b c w :
  db_wf (w_db w) → get_run id (w_db w) = Ok (Some s) →
  ∃ ap s' w', gate id kind what payload tool s a b c w = (Ok (ap, s'), w') ∧
    w_os w' = w_os w ∧ w_views w' = w_views w ∧
    approval_row ap ∈ db_approvals (w_db w') ∧ pa_status ap = "pending" ∧ pa_run_id ap = id ∧
    pa_action_description ap = a ∧
    get_run id (w_db w') = Ok (Some s') ∧ rs_status s' = "awaiting_approval" ∧
    ∃ ra, rs_retryable_action s' = Some ra ∧ ra_kind ra = kind ∧ ra_payload ra = Some payload ∧
      ra_is_valid ra = true ∧ ra_is_recommended ra = false ∧ ra_recommended_tool ra = tool.
Proof.
  intros Hwf Hg. pose proof (stored_step id (w_db w) s Hwf Hg) as Hstep.
  pose proof (get_run_id id (w_db w) s Hg) as Hid.
  assert (run_exists (w_db w) id = true) as Hex.
  { destruct (get_run_wf id (w_db w) Hwf) as (o & Ho & _ & He).
    rewrite Hg in Ho. injection Ho as <-. apply He. by eexists. }
  unfold gate, new_uuid, now, ticking, build_retryable_action, create_approval, save, on_db,
    mbind, M_bind. cbn.
  unfold save_approval. cbn. rewrite Hfk, Hid, Hex. cbn.
  unfold save_run. cbn. rewrite (proj2 (N.ltb_ge _ _) Hstep). cbn.
  match goal with |- context [audit ?i ?k ?m ?x ?w1] =>
    destruct (audit_frame i k m x w1) as (w2 & -> & Hr & Ha & Ho & Hv) end.
  cbn in Hr, Ha, Ho, Hv. do 3 eexists. split; [reflexivity|].
  split; [done|]. split; [done|]. rewrite Ha. split_and!; try done.
  - apply elem_upsert. by right.
  - rewrite <- Hid. apply get_run_find. rewrite Hr. cbn [db_runs].
    match goal with |- _ = Some ?r => exact (find_upsert_same row_run_id r _) end.
  - eexists. split_and!; reflexivity.
Qed.

(** C3. A patch the policy gates never touches the workspace: the request
    succeeds, reports no changed file and the approval it needs; the
    approval is stored as pending for the run, the run is stored as awaiting
    approval with the whole request as its retryable action, and the file
    system is the one before. *)
Theorem gated_patch_waits p w s a b c :
  db_wf (w_db w) → get_run (pap_run_id p) (w_db w) = Ok (Some s) →
  evaluate_patch p (rs_policy_profile s) = RequiresApproval a b c →
  ∃ ap s' w', handle_patch_apply p w = (Ok (mkPatchApplyResult [] "" (Some ap), Some s'), w') ∧
    w_os w' = w_os w ∧
    approval_row ap ∈ db_approvals (w_db w') ∧ pa_status ap = "pending" ∧
    pa_run_id ap = pap_run_id p ∧ pa_action_description ap = a ∧
    get_run (pap_run_id p) (w_db w') = Ok (Some s') ∧ rs_status s' = "awaiting_approval" ∧
    ∃ ra, rs_retryable_action s' = Some ra ∧ ra_kind ra = "patch.apply" ∧
      ra_payload ra = Some (patch_params_text p) ∧ ra_is_valid ra = true ∧
      ra_recommended_tool ra = "apply_patch".
Proof.
  intros Hwf Hg He. unfold handle_patch_apply.
  rewrite M_bind_run, (load_workspace_ok _ _ _ Hg), M_bind_run, (load_run_ok _ _ _ Hg), He.
  rewrite M_bind_run.
  destruct (gate_spec (pap_run_id p) "patch.apply" "patch" (patch_params_text p) "apply_patch"
    s a b c w Hwf Hg) as (ap & s' & w' & -> & Ho & _ & Hap & Hst & Hrun & Hact & Hget & Hs & ra & Hra).
  exists ap, s', w'. split; [done|]. split_and!; try done. exists ra. naive_solver.
Qed.

(** Approval does not unlock a patch: once the policy of a run gates a
    patch, the same request is gated again after any further requests,
    approvals of it included; it reports no change and leaves the file system
    alone. *)
Theorem gated_patch_stays_gated p w s w' :
  db_wf (w_db w) → get_run (pap_run_id p) (w_db w) = Ok (Some s) →
  evaluate_patch p (rs_policy_profile s) ≠ Proceed →
  rtc rpc_step w w' →
  ∃ ap st w'', handle_patch_apply p w' = (Ok (mkPatchApplyResult [] "" (Some ap), Some st), w'') ∧
    w_os w'' = w_os w'.
Proof.
  intros Hwf Hg He Hs. destruct (rpc_steps_evolve w w' Hs Hwf) as (Hwf' & Hr & _).
  destruct (Hr _ _ Hg) as (s' & Hg' & Hi).
  assert (rs_policy_profile s' = rs_policy_profile s) as Hp by (unfold identity in Hi; congruence).
  destruct (evaluate_patch p (rs_policy_profile s)) as [|a b c] eqn:E; [done|].
  rewrite <- Hp in E.
  assert (∃ ap s2 w2, gate (pap_run_id p) "patch.apply" "patch" (patch_params_text p)
    "apply_patch" s' a b c w' = (Ok (ap, s2), w2) ∧ w_os w2 = w_os w') as (ap & s2 & w2 & Hgt & Ho).
  { destruct (gate_spec (pap_run_id p) "patch.apply" "patch" (patch_params_text p) "apply_patch"
      s' a b c w' Hwf' Hg') as (ap & s2 & w2 & ? & ? & _). eauto. }
  exists ap, s2, w2. split; [|done]. unfold handle_patch_apply.
  rewrite M_bind_run, (load_workspace_ok _ _ _ Hg'), M_bind_run, (load_run_ok _ _ _ Hg'), E.
  by rewrite M_bind_run, Hgt.
Qed.
End requests.
