(* ===== verification/Requests.v ===== *)
(** * Requests end to end (deterministic-daemon: handlers.rs)

    Guarantees of single requests that cross components: what a request may
    write, that a preflight predicts the decision of the request it previews,
    and the resolution of an approval from the request down to the tables. *)

From S2P Require Import Prelude RustStr Types Lifecycle Organize Policy Approval Derive Os.
From S2P Require Import Command Workspace Patch Store DemoSerde StoreFacts Methods.
From S2P Require Import QueueViews Handlers Queue QueueFacts Router System.

(** ** What a request may write *)

(** Methods that write neither the database nor the views. *)
Definition reads_store (m : Method) : bool :=
  match m with
  | WorkspaceSummary | FileRead | GitStatus | CodeSearch | GitDiff | RunsList | RunGet
  | RunHistory | PatchPreflight | TestsPreflight | RunsQueueOverview | QueueViewGet
  | QueueViewList => true
  | _ => false
  end.

(** Methods that may write a file or run a process. *)
Definition acts_on_os (m : Method) : bool :=
  match m with
  | RunRefresh | WorkspaceSummary | GitStatus | CodeSearch | PatchApply | TestsRun | GitDiff
  | CommandRun => true
  | _ => false
  end.

(** Methods that write the saved views. *)
Definition writes_views (m : Method) : bool :=
  match m with QueueViewCreate | QueueViewUpdate | QueueViewDelete => true | _ => false end.

Section frames.
Context `{Unicode} `{BuildProfile} `{Chrono} `{Os} `{Env} `{Serde} `{Sqlite} `{JsonText}
  `{HashOrder}.

Definition same_store (w w' : World) : Prop := w_db w' = w_db w ∧ w_views w' = w_views w.
Definition same_os (w w' : World) : Prop := w_os w' = w_os w.
Definition same_views (w w' : World) : Prop := w_views w' = w_views w.

#[local] Instance same_store_preorder : PreOrder same_store.
Proof. split; [done|]. intros ??? [??] [??]. split; congruence. Qed.
#[local] Instance same_os_preorder : PreOrder same_os.
Proof. split; [done|]. unfold same_os. intros ???. congruence. Qed.
#[local] Instance same_views_preorder : PreOrder same_views.
Proof. split; [done|]. unfold same_views. intros ???. congruence. Qed.

Lemma on_os_store {A} (m : M os A) w : same_store w (on_os m w).2.
Proof. unfold on_os. by destruct (m (w_os w)). Qed.

Lemma on_db_frame {A} (f : Db → res A * Db) w :
  w_os (on_db f w).2 = w_os w ∧ w_views (on_db f w).2 = w_views w.
Proof. unfold on_db. by destruct (f (w_db w)). Qed.

Lemma file_read_pure p ws w : w_os (on_os (file_read.read p ws) w).2 = w_os w.
Proof. done. Qed.

(** Follow a handler statement by statement, closing each by its frame. *)
Ltac frame R leaf :=
  repeat first
    [ apply (respects_ret R) | apply (respects_lift R) | apply (respects_gets R)
    | apply (respects_bind R); [|intros ?]
    | apply (respects_ignore R)
    | progress case_match
    | (intros ?w; leaf) ].

Ltac open_handler :=
  unfold handle_run_prepare, handle_run_refresh, handle_run_replan, handle_workspace_summary,
    handle_file_read, handle_git_status, handle_code_search, handle_patch_apply,
    handle_tests_run, handle_git_diff, handle_approval_resolve, handle_runs_list,
    handle_run_get, handle_run_history, handle_patch_preflight, handle_tests_preflight,
    handle_run_finalize, handle_run_reopen, handle_run_supersede, handle_run_archive,
    handle_run_unarchive, handle_run_annotate, handle_run_pin, handle_run_unpin,
    handle_run_snooze, handle_run_unsnooze, handle_run_set_priority, handle_run_assign_owner,
    handle_run_set_due_date, handle_run_set_dependencies, handle_runs_queue_overview,
    handle_run_set_effort, handle_command_run, handle_queue_view_create,
    handle_queue_view_update, handle_queue_view_delete, handle_queue_view_get,
    handle_queue_view_list, load_run, load_workspace, save, audit, append_audit_entry,
    resolve_approval_now, gate, build_retryable_action, today, elapsed_ms, now, now_millis,
    new_uuid.

Lemma live_diff_store id ws : respects same_store (live_diff_summary id ws).
Proof.
  intros w. unfold live_diff_summary. pose proof (on_os_store
    (git_diff.diff (mkGitDiffParams id [] (Some "summary")) ws) w) as Hs.
  by destruct (on_os _ w) as [[?|?|] ?].
Qed.

(** Each request touches only what its method is for: the thirteen
    reading methods leave the database and the saved views as they are,
    only the three view methods write the views, and only the methods that
    apply a patch, run tests or a command, or ask git or grep reach the file
    system or a process; in particular no lifecycle, organization or approval
    request does. *)
Theorem request_frames m p w :
  (reads_store m = true → same_store w (handle m p w).2) ∧
  (writes_views m = false → same_views w (handle m p w).2) ∧
  (acts_on_os m = false → same_os w (handle m p w).2).
Proof.
  split_and!.
  - intros Hm. enough (respects same_store (handle m p)) as Hr by apply Hr.
    destruct m; try discriminate Hm; cbn [handle]; open_handler;
      frame same_store ltac:(first [done | apply on_os_store]).
  - intros Hm. enough (respects same_views (handle m p)) as Hr by apply Hr.
    destruct m; try discriminate Hm; cbn [handle]; open_handler;
      frame same_views ltac:(first [done | apply on_os_store | apply on_db_frame | apply live_diff_store]).
  - intros Hm. enough (respects same_os (handle m p)) as Hr by apply Hr.
    destruct m; try discriminate Hm; cbn [handle]; open_handler;
      frame same_os ltac:(first [done | apply on_db_frame]).
Qed.
End frames.

(** ** Preflights, gated tests and approvals *)

Section requests.
Context `{Unicode} `{BuildProfile} `{Chrono} `{Os} `{Env} `{Serde} `{!SerdeLaws} `{Sqlite}
  `{!SqliteLaws} `{JsonText}.
Context (Hfk : foreign_keys = true).

(** The result of an applied patch asks for no approval. *)
Lemma apply_no_approval p ws o r o' : apply p ws o = (Ok r, o') → par_approval_required r = None.
Proof.
  unfold apply. rewrite M_bind_run. destruct (ensure_dir ws o) as [[[]|?|] o1]; [|done..].
  rewrite M_bind_run. destruct (apply_edits _ _ _ o1) as [[q|?|] o2]; [|done..].
  by intros [= <- _].
Qed.

(** A preflight predicts the request it previews and changes nothing:
    it reports that an approval is needed exactly when applying the patch now
    is answered with an approval, and its summary is the description of that
    approval. *)
Theorem preflight_predicts_patch id edits w s :
  db_wf (w_db w) → get_run id (w_db w) = Ok (Some s) →
  ∃ r, handle_patch_preflight (mkPatchPreflightParams id edits) w = (Ok (r, None), w) ∧
    (pfr_decision r = PfRequiresApproval ↔
     ∃ res ap st w', handle_patch_apply (mkPatchApplyParams id edits) w = (Ok (res, st), w') ∧
       par_approval_required res = Some ap) ∧
    (∀ res ap st w', handle_patch_apply (mkPatchApplyParams id edits) w = (Ok (res, st), w') →
       par_approval_required res = Some ap →
       pfr_action_summary r = Some (pa_action_description ap) ∧ w_os w' = w_os w).
Proof.
  intros Hwf Hg. unfold handle_patch_preflight. cbn [ppp_run_id ppp_edits].
  rewrite M_bind_run, (load_run_ok _ _ _ Hg). eexists. split; [reflexivity|].
  unfold handle_patch_apply. cbn [pap_run_id].
  rewrite M_bind_run, (load_workspace_ok _ _ _ Hg), M_bind_run, (load_run_ok _ _ _ Hg).
  destruct (evaluate_patch _ _) as [|a b c]; cbn [map_policy_decision pfr_decision pfr_action_summary].
  - match goal with |- context [(_ ≫= ?k) w] => set (f := k) end.
    assert (∀ res ap st w', (save (set_rs_retryable_action None s) ≫= f) w = (Ok (res, st), w') →
      par_approval_required res ≠ Some ap) as Hno.
    { intros res ap st w'. rewrite M_bind_run. destruct (save _ w) as [[[]|?|] w1]; [|done..].
      unfold f. rewrite M_bind_run. unfold on_os.
      destruct (apply _ _ (w_os w1)) as [[r|?|] o1] eqn:Ea; [|done..].
      apply apply_no_approval in Ea. rewrite M_bind_run. destruct (audit _ _ _ _ _) as [[[]|?|] w2]; [|done..].
      rewrite M_bind_run. unfold query. destruct (get_run id (w_db w2)); [|done..].
      intros [= <- _ _]. by rewrite Ea. }
    split.
    + split; [done|]. intros (res & ap & st & w' & Hr & Ha). by destruct (Hno _ ap _ _ Hr).
    + intros res ap st w' Hr Ha. by destruct (Hno _ ap _ _ Hr).
  - rewrite M_bind_run.
    destruct (gate_spec Hfk id "patch.apply" "patch" (patch_params_text (mkPatchApplyParams id edits))
      "apply_patch" s a b c w Hwf Hg) as (ap & s' & w' & -> & Ho & _ & _ & _ & _ & Hact & _).
    split; [split; [|done]; intros _; by do 4 eexists|].
    intros res ap' st w2 [= <- _ <-] [= <-]. by rewrite Hact.
Qed.

(** A test run the policy gates starts no process: the request
    succeeds with exit code -1 and the approval it needs, stored as pending,
    and the run waits for it with the request as its retryable action. *)
Theorem gated_tests_wait p w s a b c :
  db_wf (w_db w) → get_run (trp_run_id p) (w_db w) = Ok (Some s) →
  evaluate_test_run p (rs_policy_profile s) = RequiresApproval a b c →
  ∃ r ap s' w', handle_tests_run p w = (Ok (r, Some s'), w') ∧
    trr_exit_code r = (-1)%Z ∧ trr_approval_required r = Some ap ∧ w_os w' = w_os w ∧
    pending (w_db w') (pa_approval_id ap) ∧ pa_run_id ap = trp_run_id p ∧
    get_run (trp_run_id p) (w_db w') = Ok (Some s') ∧ rs_status s' = "awaiting_approval" ∧
    ∃ ra, rs_retryable_action s' = Some ra ∧ ra_kind ra = "tests.run" ∧
      ra_payload ra = Some (tests_params_text p).
Proof.
  intros Hwf Hg He. unfold handle_tests_run.
  rewrite M_bind_run, (load_workspace_ok _ _ _ Hg), M_bind_run, (load_run_ok _ _ _ Hg), He.
  rewrite M_bind_run.
  destruct (gate_spec Hfk (trp_run_id p) "tests.run" "tests" (tests_params_text p) "run_tests"
    s a b c w Hwf Hg) as (ap & s' & w' & -> & Ho & _ & Hap & Hst & Hrun & Hact & Hget & Hs & ra & Hra).
  do 4 eexists. split; [reflexivity|]. split_and!; try done.
  - exists (approval_row ap). by split_and!.
  - exists ra. naive_solver.
Qed.

(** ** Resolving an approval *)

Definition run_pending (db : Db) (run_id : string) : Prop :=
  ∃ r, r ∈ db_approvals db ∧ ap_run_id r = run_id ∧ ap_status r = "pending".

Lemma pending_count db id :
  match get_pending_approvals id db with
  | Ok l => len l = 0%N ↔ ¬ run_pending db id
  | _ => False
  end.
Proof.
  unfold get_pending_approvals, len. rewrite length_map, scan_perm.
  destruct (List.filter _ _) as [|r l] eqn:E; cbn.
  - split; [|done]. intros _ (r & Hr & Hid & Hp).
    apply list_elem_of_In in Hr. cut (In r []); [done|]. rewrite <- E. apply filter_In.
    by rewrite Hid, Hp, String.eqb_refl.
  - split; [done|]. intros Hno. destruct Hno. exists r.
    assert (In r (r :: l)) as Hin by by left. rewrite <- E in Hin.
    apply filter_In in Hin as [Hin [Hid Hp]%andb_true_iff].
    rewrite list_elem_of_In. by apply String.eqb_eq in Hid, Hp.
Qed.

(** The statements of the handler, when it succeeds. *)
Lemma resolve_request_inv p w r st w' :
  handle_approval_resolve p w = (Ok (r, st), w') →
  ∃ a s t db1 t' rem s' db2,
    get_approval (arp_approval_id p) (w_db w) = Ok (Some a) ∧ pa_run_id a = arp_run_id p ∧
    get_run (arp_run_id p) (w_db w) = Ok (Some s) ∧
    resolve_approval t (arp_approval_id p) (arp_decision p) (arp_reason p) (w_db w) = (Ok (), db1) ∧
    get_pending_approvals (arp_run_id p) db1 = Ok rem ∧
    resolve t' p s (len rem) = Ok (r, s') ∧ st = Some s' ∧
    save_run s' db1 = (Ok (), db2) ∧
    db_runs (w_db w') = db_runs db2 ∧ db_approvals (w_db w') = db_approvals db2.
Proof.
  unfold handle_approval_resolve, query, lift.
  rewrite M_bind_run. destruct (get_approval _ _) as [[a|]|?|] eqn:Ea; [|done..].
  rewrite M_bind_run. cbn [ok_or]. rewrite M_bind_run. unfold ensure. destruct (String.eqb_spec (pa_run_id a) (arp_run_id p)) as [Hr|]; [|done].
  rewrite M_bind_run. destruct (load_run_inv (arp_run_id p) w) as [(s & Hg & ->)|[(e & ->)| ->]]; [|done..].
  rewrite M_bind_run. unfold resolve_approval_now, now, ticking, on_db.
  rewrite M_bind_run. cbn [w_db w_tick w_os w_views].
  destruct (resolve_approval _ _ _ _ (w_db w)) as [[[]|?|] db1] eqn:Ed; [|done..].
  rewrite M_bind_run. cbn [w_db set_db].
  destruct (get_pending_approvals _ db1) as [rem|?|] eqn:Erem; [|done..].
  rewrite M_bind_run. cbn [w_tick]. rewrite M_bind_run.
  destruct (resolve _ p s _) as [[r' s']|?|] eqn:Er; [|done..].
  rewrite M_bind_run. unfold save, on_db. cbn [w_db set_db].
  destruct (save_run s' db1) as [[[]|?|] db2] eqn:Es; [|done..].
  rewrite M_bind_run. match goal with |- context [audit ?i ?k ?m ?x ?w1] =>
    destruct (audit_frame i k m x w1) as (w2 & -> & Hruns & Happ & _) end.
  intros [= <- <- <-]. by do 8 eexists.
Qed.

(** A request for an approval that is not pending fails. *)
Lemma resolve_request_not_pending p w :
  db_wf (w_db w) → ¬ pending (w_db w) (arp_approval_id p) →
  ∃ e, (handle_approval_resolve p w).1 = Err e.
Proof.
  intros Hwf Hnp. unfold handle_approval_resolve, query, lift.
  rewrite M_bind_run. unfold get_approval. rewrite M_bind_run.
  destruct (option_map _ _) as [a|]; [|by eexists]. cbn [ok_or]. rewrite M_bind_run. unfold ensure.
  destruct (pa_run_id a == arp_run_id p); [|by eexists].
  rewrite M_bind_run. unfold load_run, query, lift. rewrite M_bind_run.
  destruct (get_run_wf (arp_run_id p) (w_db w) Hwf) as ([s|] & -> & _); [|by eexists].
  cbn [ok_or]. rewrite M_bind_run. unfold resolve_approval_now, now, ticking, on_db.
  rewrite M_bind_run. cbn [w_db w_tick].
  destruct (resolve_not_pending (now_at (w_tick w)) (arp_approval_id p) (arp_decision p)
    (arp_reason p) (w_db w) Hnp) as [e ->]. by eexists.
Qed.

(** A pending approval of the run and a valid decision are enough. *)
Lemma resolve_request_succeeds p w row :
  db_wf (w_db w) → arp_decision p = "approve" ∨ arp_decision p = "deny" →
  row ∈ db_approvals (w_db w) → ap_approval_id row = arp_approval_id p →
  ap_run_id row = arp_run_id p → ap_status row = "pending" →
  is_ok (handle_approval_resolve p w).1 = true.
Proof.
  intros Hwf Hd Hin Hid Hrun Hst. unfold handle_approval_resolve, query, lift.
  rewrite M_bind_run. unfold get_approval.
  rewrite <- Hid, (find_key ap_approval_id row) by (done || apply (wf_approval_keys _ Hwf)).
  cbn [option_map]. rewrite M_bind_run. cbn [ok_or]. rewrite M_bind_run. unfold ensure.
  rewrite (proj2 (String.eqb_eq _ _) (Hrun : pa_run_id (approval_of row) = _)). rewrite M_bind_run.
  destruct (get_run_wf (arp_run_id p) (w_db w) Hwf) as (o & Hg & _ & [_ [s ->]]).
  { rewrite <- Hrun. pose proof (wf_approval_runs _ Hwf) as Ha. rewrite Forall_forall in Ha. by apply Ha. }
  rewrite (load_run_ok _ _ _ Hg), M_bind_run. unfold resolve_approval_now, now, ticking, on_db.
  rewrite M_bind_run. cbn [w_db w_tick w_os w_views].
  assert (pending (w_db w) (arp_approval_id p)) as Hp by by exists row.
  unfold resolve_approval. rewrite Hid, (proj2 (resolve_hit_spec _ _) Hp).
  assert (∃ x, (if arp_decision p == "approve" then Some "approved"
    else if arp_decision p == "deny" then Some "denied" else None) = Some x) as [x ->].
  { destruct Hd as [->| ->]; by eexists. }
  rewrite M_bind_run. cbn [w_db set_db]. unfold get_pending_approvals. rewrite M_bind_run.
  cbn [w_tick]. rewrite M_bind_run. set (n := len _).
  match goal with |- context [resolve ?t p s n] =>
    pose proof (resolve_valid t p s n Hd) as Hv; destruct (resolve t p s n) as [[r s']|?|] eqn:E end;
    [|done..].
  rewrite M_bind_run. unfold save, on_db, save_run. cbn [w_db set_db].
  apply resolve_cases in E as (Hf & _).
  assert (rs_current_step s' = rs_current_step s) as -> by by rewrite Hf.
  rewrite (proj2 (N.ltb_ge _ _) (stored_step _ _ _ Hwf Hg)). rewrite M_bind_run.
  match goal with |- context [audit ?i ?k ?m ?x ?w1] =>
    destruct (audit_frame i k m x w1) as (w2 & -> & _) end. done.
Qed.

(** C13. Resolving an approval over the protocol succeeds exactly for a
    valid decision on a pending approval of the run named.  Afterwards the
    approval is not pending, any further request for it fails, and the stored
    run is the one returned: blocked by a denial, active after an approval
    when nothing else is pending for it, and otherwise with its old status. *)
Theorem approval_request_spec p w :
  db_wf (w_db w) →
  (is_ok (handle_approval_resolve p w).1 = true ↔
     (arp_decision p = "approve" ∨ arp_decision p = "deny") ∧
     ∃ row, row ∈ db_approvals (w_db w) ∧ ap_approval_id row = arp_approval_id p ∧
       ap_run_id row = arp_run_id p ∧ ap_status row = "pending") ∧
  ∀ r st w', handle_approval_resolve p w = (Ok (r, st), w') →
    ¬ pending (w_db w') (arp_approval_id p) ∧
    (∀ p', arp_approval_id p' = arp_approval_id p → ∃ e, (handle_approval_resolve p' w').1 = Err e) ∧
    ∃ s s', get_run (arp_run_id p) (w_db w) = Ok (Some s) ∧ st = Some s' ∧
      get_run (arp_run_id p) (w_db w') = Ok (Some s') ∧
      (arp_decision p = "deny" → rs_status s' = "blocked") ∧
      (arp_decision p = "approve" →
         (¬ run_pending (w_db w') (arp_run_id p) → rs_status s' = "active") ∧
         (run_pending (w_db w') (arp_run_id p) → rs_status s' = rs_status s)).
Proof.
  intros Hwf. split.
  - split; [|intros [Hd (row & ? & ? & ? & ?)]; by eapply resolve_request_succeeds].
    destruct (handle_approval_resolve p w) as [[[r st]|?|] w'] eqn:E; [|done..]. intros _.
    apply resolve_request_inv in E as (a & s & t & db1 & t' & rem & s' & db2 & Ha & Hrun & _ & Hr & _).
    apply resolve_approval_ok in Hr as (Hd & (row & Hin & Hid & Hst) & _). split; [done|].
    exists row. split_and!; try done. unfold get_approval in Ha.
    rewrite <- Hid, (find_key ap_approval_id row) in Ha by (done || apply (wf_approval_keys _ Hwf)).
    by injection Ha as <-.
  - intros r st w' E. pose proof (approval_resolve_evolves Hfk p w Hwf) as (Hwf' & _).
    rewrite E in Hwf'. cbn [snd] in Hwf'.
    apply resolve_request_inv in E
      as (a & s & t & db1 & t' & rem & s' & db2 & _ & _ & Hg & Hr & Hrem & Hres & Hst & Hs & Hruns & Happ).
    apply resolve_approval_ok in Hr as (_ & _ & Hnp & _ & _).
    unfold save_run in Hs. case_match; [done|]. injection Hs as <-. cbn [db_runs db_approvals] in *.
    assert (¬ pending (w_db w') (arp_approval_id p)) as Hnp'.
    { unfold pending in *. by rewrite Happ. }
    split; [done|]. split; [intros p' Hp'; apply resolve_request_not_pending; [done|by rewrite Hp']|].
    exists s, s'. split; [done|]. split; [done|].
    pose proof (resolve_identity _ _ _ _ _ _ Hres) as Hi.
    apply resolve_cases in Hres as (_ & _ & _ & _ & Hc).
    pose proof (pending_count db1 (arp_run_id p)) as Hn. rewrite Hrem in Hn.
    assert (run_pending (w_db w') (arp_run_id p) ↔ run_pending db1 (arp_run_id p)) as ->.
    { unfold run_pending. by rewrite Happ. }
    split; [|split; intros Hd; destruct Hc as [(Hd' & _ & Hc)|(Hd' & Hb & _)]; try congruence].
    + assert (rs_run_id s' = arp_run_id p) as <-.
      { rewrite <- (get_run_id _ _ _ Hg). unfold identity in Hi. congruence. }
      apply get_run_find. rewrite Hruns. apply (find_upsert_same row_run_id (run_row s')).
    + destruct Hc as [(Hz & Ha & _)|(Hz & Ha & _)]; split; intros Hp; try done; tauto.
Qed.

(** ** Commands *)

(** A command the whitelist denies starts no process and changes no run
    or approval, whether or not its run exists; the request succeeds and
    reports the denial.  Whatever [run.command] does to the system, it does
    for an allowed command of a stored run. *)
Theorem command_run_guarded p w :
  (∀ reason, validate_command p = Denied reason →
     ∃ w', handle_command_run p w = (Ok (denied_result p reason, None), w') ∧
       w_os w' = w_os w ∧ db_runs (w_db w') = db_runs (w_db w) ∧
       db_approvals (w_db w') = db_approvals (w_db w)) ∧
  (w_os (handle_command_run p w).2 ≠ w_os w →
     ∃ m s, validate_command p = Allowed m ∧ get_run (crp_run_id p) (w_db w) = Ok (Some s)).
Proof.
  assert (∀ reason, validate_command p = Denied reason →
    ∃ w', handle_command_run p w = (Ok (denied_result p reason, None), w') ∧
      w_os w' = w_os w ∧ db_runs (w_db w') = db_runs (w_db w) ∧
      db_approvals (w_db w') = db_approvals (w_db w)) as Hden.
  { intros reason Hv. unfold handle_command_run. rewrite Hv, M_bind_run.
    match goal with |- context [audit ?i ?k ?m ?x w] =>
      destruct (audit_frame i k m x w) as (w' & -> & ? & ? & ? & _) end. eauto 10. }
  split; [done|]. destruct (validate_command p) as [m|reason] eqn:Hv.
  - unfold handle_command_run. rewrite Hv, M_bind_run. intros Ho. exists m.
    destruct (load_run_inv (crp_run_id p) w) as [(s & Hg & Hl)|[(e & Hl)|Hl]];
      [by exists s|by rewrite Hl in Ho..].
  - destruct (Hden reason eq_refl) as (w' & -> & Ho & _). by intros [].
Qed.
End requests.
