(* ===== verification/Scenarios.v ===== *)
(** * Concrete requests

    A daemon on a small file system with two stored runs, and the requests
    that show the hypotheses of the system's theorems can hold. *)

From S2P Require Import Prelude RustStr Types Lifecycle Organize Policy Approval Derive Os.
From S2P Require Import Command Workspace Patch Store DemoSerde StoreFacts Methods.
From S2P Require Import QueueViews Handlers Queue QueueFacts Router System Requests.

(** ** The parameters *)

(** Days since the start of 2024, for the dates used below. *)
Definition demo_chrono : Chrono := λ s,
  if s == "2024-01-01" then Some 0%Z
  else if s == "2024-02-01" then Some 31%Z
  else if s == "2024-05-01" then Some 121%Z
  else None.

Definition demo_json : JsonText := {|
  json_text _ := "{}";
  patch_params_text _ := "{patch}";
  tests_params_text _ := "{tests}";
  command_result_text _ := "{command}"
|}.

(** A JSON value is the typed value it was made from. *)
Definition demo_wire : Wire := {|
  Json := {m : Method & (params_of m + result_of m)%type};
  from_value m j :=
    match j with
    | existT m' (inl p) =>
        match decide (m' = m) with
        | left E => inl (eq_rect m' params_of p m E)
        | right _ => inr "invalid type"
        end
    | _ => inr "invalid type"
    end;
  to_value m r := existT m (inr r)
|}.

#[local] Existing Instances demo_unicode demo_profile demo_chrono demo_os demo_env demo_serde
  demo_serde_laws demo_sqlite demo_sqlite_laws demo_json demo_hash_order demo_hash_order_laws
  demo_wire.

Definition demo_envelope : EnvelopeWire := λ _, None.
#[local] Existing Instance demo_envelope.

Definition demo_request (m : Method) (p : params_of m) : JsonRpcRequest :=
  mkJsonRpcRequest "2.0" (existT m (inl p) : Json) (method_as_str m) (existT m (inl p) : Json).

Lemma demo_foreign_keys : foreign_keys = true.
Proof. reflexivity. Qed.

Definition demo_w0 : World := demo_world demo_db.
Definition demo_delete : PatchApplyParams := demo_patch_params "a.txt" "delete".

(** The patch is gated, then approved. *)
Definition demo_w1 : World := (rpc_handler (demo_request PatchApply demo_delete) demo_w0).2.
Definition demo_approval_id : string := "appr_1".
Definition demo_approval : ApprovalResolveParams :=
  mkApprovalResolveParams "r1" demo_approval_id "approve" None.
Definition demo_w2 : World := (rpc_handler (demo_request ApprovalResolve demo_approval) demo_w1).2.

(** A request whose method draws no id. *)
Lemma demo_step m p w :
  (∀ q w, fresh m q w) → rpc_step w (rpc_handler (demo_request m p) w).2.
Proof.
  intros Hf. apply rpc_request. intros m' q E _. cbn [req_method demo_request] in E.
  assert (m' = m) as ->; [|apply Hf].
  apply (f_equal parse_method) in E. rewrite !parse_as_str in E. by injection E.
Qed.

Lemma demo_approved : rtc rpc_step demo_w0 demo_w2.
Proof.
  eapply rtc_l; [by apply (demo_step PatchApply demo_delete)|].
  apply rtc_once. by apply (demo_step ApprovalResolve demo_approval).
Qed.

Lemma demo_delete_evaluated :
  evaluate_patch demo_delete (rs_policy_profile demo_run) =
  RequiresApproval "Delete file: a.txt" "File deletion is destructive and irreversible"
    "Policy: file deletion requires approval".
Proof. vm_compute. reflexivity. Qed.

Lemma gated_patch_waits_witness :
  ∃ ap s' w', handle_patch_apply demo_delete demo_w0 =
      (Ok (mkPatchApplyResult [] "" (Some ap), Some s'), w') ∧
    w_os w' = demo_fs ∧ pa_action_description ap = "Delete file: a.txt".
Proof.
  destruct (gated_patch_waits demo_foreign_keys demo_delete demo_w0 demo_run _ _ _ demo_db_wf
    ltac:(vm_compute; reflexivity) demo_delete_evaluated)
    as (ap & s' & w' & E & Ho & _ & _ & _ & Ha & _).
  exists ap, s', w'. split; [exact E|]. split; [exact Ho|exact Ha].
Defined.

Lemma gated_patch_stays_gated_witness :
  (res_ok (get_run "r1" (w_db demo_w2)) ≫= id) ≫= (λ s, Some (rs_status s, rs_recommended_tool s)) =
    Some ("active", Some "apply_patch") ∧
  ∃ ap st w', handle_patch_apply demo_delete demo_w2 =
      (Ok (mkPatchApplyResult [] "" (Some ap), Some st), w').
Proof.
  split; [vm_compute; reflexivity|].
  destruct (gated_patch_stays_gated demo_foreign_keys demo_delete demo_w0 demo_run demo_w2 demo_db_wf)
    as (ap & st & w' & E & _).
  - vm_compute. reflexivity.
  - rewrite demo_delete_evaluated. discriminate.
  - exact demo_approved.
  - exists ap, st, w'. exact E.
Defined.

Lemma reachable_db_wf_witness :
  db_wf (w_db (rpc_handler (demo_request RunPrepare demo_prepare_params) (demo_world db_open)).2).
Proof.
  apply (reachable_db_wf demo_foreign_keys (demo_world db_open)).
  - reflexivity.
  - apply rtc_once, rpc_request. intros m p _ _. destruct m; reflexivity || exact I.
Defined.

Lemma runs_and_audit_persist_witness :
  ∃ s', get_run "r1" (w_db demo_w2) = Ok (Some s') ∧ identity s' = identity demo_run.
Proof.
  apply (runs_and_audit_persist demo_foreign_keys demo_w0 demo_w2 demo_db_wf demo_approved).
  vm_compute. reflexivity.
Defined.

Definition demo_make : TestsRunParams :=
  mkTestsRunParams "r1" "make" (Some "deploy") "release".

Lemma demo_make_evaluated : ∃ a b c,
  evaluate_test_run demo_make (rs_policy_profile demo_run) = RequiresApproval a b c.
Proof. vm_compute. by do 3 eexists. Qed.

Lemma gated_tests_wait_witness :
  ∃ r ap s' w', handle_tests_run demo_make demo_w0 = (Ok (r, Some s'), w') ∧
    trr_approval_required r = Some ap ∧ w_os w' = demo_fs ∧ rs_status s' = "awaiting_approval".
Proof.
  destruct demo_make_evaluated as (a & b & c & He).
  destruct (gated_tests_wait demo_foreign_keys demo_make demo_w0 demo_run a b c demo_db_wf
    ltac:(vm_compute; reflexivity) He) as (r & ap & s' & w' & E & _ & Ha & Ho & _ & _ & _ & Hs & _).
  exists r, ap, s', w'. split; [exact E|]. split; [exact Ha|]. split; [exact Ho|exact Hs].
Defined.

Lemma preflight_predicts_patch_witness :
  ∃ r, handle_patch_preflight (mkPatchPreflightParams "r1" (pap_edits demo_delete)) demo_w0 =
      (Ok (r, None), demo_w0) ∧
    (pfr_decision r = PfRequiresApproval ↔
     ∃ res ap st w', handle_patch_apply (mkPatchApplyParams "r1" (pap_edits demo_delete)) demo_w0 =
       (Ok (res, st), w') ∧ par_approval_required res = Some ap).
Proof.
  destruct (preflight_predicts_patch demo_foreign_keys "r1" (pap_edits demo_delete) demo_w0 demo_run
    demo_db_wf ltac:(vm_compute; reflexivity)) as (r & E & Hiff & _).
  exists r. split; [exact E|exact Hiff].
Defined.

Lemma demo_w1_wf : db_wf (w_db demo_w1).
Proof.
  apply (rpc_step_evolves demo_foreign_keys demo_w0 demo_w1); [|exact demo_db_wf].
  by apply (demo_step PatchApply demo_delete).
Qed.

Lemma approval_request_spec_witness :
  is_ok (handle_approval_resolve demo_approval demo_w1).1 = true ∧
  ∀ r st w', handle_approval_resolve demo_approval demo_w1 = (Ok (r, st), w') →
    ¬ pending (w_db w') demo_approval_id.
Proof.
  destruct (approval_request_spec demo_foreign_keys demo_approval demo_w1 demo_w1_wf) as [_ Hr].
  split; [vm_compute; reflexivity|]. intros r st w' E. apply (Hr r st w' E).
Defined.

(** A request for an unknown method. *)
Definition demo_unknown : JsonRpcRequest :=
  mkJsonRpcRequest "2.0" (req_id (demo_request RunPrepare demo_prepare_params)) "run.drop"
    (req_params (demo_request RunPrepare demo_prepare_params)).

Lemma rpc_handler_spec_witness :
  ∃ resp, rpc_handler demo_unknown demo_w0 = (Ok resp, demo_w0) ∧
    resp_id resp = req_id demo_unknown ∧ err_code <$> resp_error resp = Some (-32601)%Z.
Proof.
  eexists. split; [reflexivity|].
  edestruct (rpc_handler_spec demo_unknown demo_w0 _ demo_w0 eq_refl) as (_ & Hid & _ & _ & Hu & _).
  split; [exact Hid|]. apply Hu; [reflexivity|]. intros []; discriminate.
Defined.

Lemma view_list_spec_witness :
  ∃ r, handle_queue_view_list (mkListQueueViewsParams None) demo_view_world =
    (Ok (r, None), demo_view_world) ∧ demo_view ∈ lqvr_views r.
Proof.
  destruct (view_list_spec (mkListQueueViewsParams None) demo_view_world) as (r & E & _ & _ & Hv).
  exists r. split; [exact E|]. apply Hv. split.
  - exists "qv-1". reflexivity.
  - intros s. discriminate.
Defined.

(** An urgent run that has not been touched for months, and a finalized one. *)
Definition demo_urgent : RunSummary := state_summary (set_rs_priority Urgent demo_run).
Definition demo_done : RunSummary := state_summary demo_finalized.
Definition demo_triage_listing : RunsListParams :=
  mkRunsListParams None None None None None None None None None None None None None None None None
    None None None None None None None None None (Some true).
Definition demo_listing : list RunSummary :=
  runs_list_pipeline demo_triage_listing (λ _, None) ∅ "2024-05-01" [demo_urgent; demo_done; demo_urgent].

Lemma triage_sort_critical_last_witness :
  map sum_triage_bucket demo_listing = [Some Done; Some Critical; Some Critical] ∧
  sum_triage_bucket (enrich ∅ "2024-05-01" demo_urgent) = Some Critical.
Proof.
  split; [vm_compute; reflexivity|].
  apply (triage_sort_critical_last demo_triage_listing (λ _, None) ∅ "2024-05-01"
    [demo_urgent; demo_done; demo_urgent] [enrich ∅ "2024-05-01" demo_done]
    (enrich ∅ "2024-05-01" demo_urgent) [enrich ∅ "2024-05-01" demo_urgent]
    (enrich ∅ "2024-05-01" demo_urgent)).
  - reflexivity.
  - vm_compute. reflexivity.
  - vm_compute. reflexivity.
  - left.
Defined.

(** Archived, restored and reopened: done for [run.get], active for
    [runs.list]. *)
Example demo_triage_disagree :
  let s := set_rs_archive_metadata (rs_archive_metadata demo_archived)
             (set_rs_unarchive_metadata (rs_unarchive_metadata demo_unarchived) demo_run) in
  rgr_triage_bucket (run_get_result "2024-01-01" 0 [] s) = Some Done ∧
  sum_triage_bucket (enrich ∅ "2024-01-01" (state_summary s)) = Some Ready.
Proof. vm_compute. split; reflexivity. Qed.
